(* ===== verification/_CoqProject ===== *)
-Q . S2P
Prelude.v
Usage.v
Mux.v
MuxLink.v
Page.v
Presence.v
Json.v
Format.v
Tree.v
Tx.v
Demo.v
TreeWrite.v
Retire.v
TreeRemove.v
Sha256.v
Commit.v
Crash.v
Publish.v
Bitmap.v
Cache.v
Checkpoint.v
GcDemo.v
Gc.v
Accounts.v
Ops.v
View.v
Batch.v
Model.v
Versions.v
Device.v
Reading.v
Lifecycle.v
History.v
Promises.v
WriteBack.v
WriteBackInv.v
WriteBackSteps.v
WriteBackShape.v
WriteBackSound.v
WriteBackRun.v
WriteBackDiff.v
WriteBackClaims.v
WriteBackDisk.v
