(* ===== verification/Prelude.v ===== *)
(** * A verification of parts of the sandboxer

    The program starts, checkpoints and restores micro-VM sandboxes.  Around the
    hypervisor it runs its own storage and communication: a versioned disk format
    with copy-on-write checkpoints, a stdio multiplexer between host and guest, and
    the accounting of resources.  Those are the parts with a contract of their own,
    and the parts this library models.

    ** What is modelled, and where

    _Accounting_ (src/pkg/usage).  [Usage]: checked 128-bit arithmetic, gauges that
    integrate samples over time, tick counters, windows, derived memory values.

    _Stdio multiplexer_ (src/pkg/mux, src/internal/wireio).  [Mux]: the frame codec,
    a stream's window and credit, the session with its dispatch and close handshake;
    every method that runs under a lock is one function.  [MuxLink]: two sessions
    joined by a connection, as a step relation whose steps are the points at which
    goroutines interleave.

    _Versioned DIFF_ (src/pkg/diffstore/internal), bottom up:
    - [Page], [Presence], [Json], [Sha256]: sealed pages and CRC-32, the bitmap of
      owned blocks, the part of encoding/json the records use, the digest of the log;
    - [Format], [Tree]: slot layout, records and nodes (format.go, tree.go), and the
      readers of the B+ index (tree.go, presence.go);
    - [Tx], [TreeWrite], [Retire], [TreeRemove], [Bitmap]: the transaction with its
      page images, slots, copy-on-write updates of the index and of the bitmap
      (transaction.go, tree.go, bitmap.go);
    - [Commit], [Crash], [Publish]: the commit as the list of writes it issues, what a
      crash can leave of it, recovery, and what the next transaction sees;
    - [Cache]: the page cache (cache.go), which is shown to be invisible, so that the
      other files read the file directly;
    - [Checkpoint], [Gc], [Accounts]: the list of versions (checkpoint.go), the
      collector (gc.go), and the ledger of who owns and who reads which slot;
    - [Ops], [View]: the handle and its public calls (api.go and the operations of
      the files above) and the views of versions (view.go);
    - [Lifecycle]: creating and opening (format.go).

    _The abstract store._  [Model] says what a DIFF is for its users: a disk whose
    blocks are absent, zeroed or hold data, and versions of it.  [Batch], [Versions]
    and [Device] show that the transactions, and then the public calls with their
    retries, do to it what they promise; [Reading] that reads return its bytes;
    [History] lifts this to runs of calls; [Promises] states the results in terms of
    calls alone.  [Demo] and [GcDemo] hold the concrete stores of the examples.

    _Cached disks_ (src/pkg/diffstore/cow_cache.go, blk_cow.go, checkpoint_diff.go).
    One cache of plaintext pages serves the disks of a sandbox; a worker writes dirty
    pages back to their files.
    - [WriteBack]: every critical section of the cache's mutex, of the callers and of
      the worker, as a function of the cache;
    - [WriteBackInv]: who owns which page, the quotas and the counters, and that every
      critical section keeps them;
    - [WriteBackSteps]: the disks, the callers that are between two critical sections,
      the materializer and the worker as a step relation; the file behind a disk is the
      class [DiffFile] with the laws [DiffFileLaws];
    - [WriteBackShape], [WriteBackSound], [WriteBackRun]: the invariant that the cache,
      the file and the layers below together hold what the users rely on, block by
      block, and that every step keeps it;
    - [WriteBackDiff]: the versioned DIFF is such a file;
    - [WriteBackClaims], [WriteBackDisk]: the results, over any such file, and for the
      checkpoint of a disk over the versioned DIFF.

    ** How code is represented

    A fallible function returns [res E A] (here in the prelude, with [let*]); a method
    of the handle is an [op]: a function of the handle's state, because the handle's
    mutex serialises its calls.  Integers are [Z], with the wrap-around of [uint64]
    written out where the code can reach it; pages are lists of 4096 byte values; maps
    are [gmap].  A read outside a buffer, which would panic, is an error value.

    What the host decides is a parameter: [fallocate] (is there space), [pin] (could
    the lock of a version be taken), [ctx] (did the caller give up).  So is the XTS
    cipher, with the hypotheses [cipher_ok] (decryption inverts encryption on sectors,
    bytes give bytes) and [cipher_length].  Contexts do not expire inside a read.

    ** What the theorems show

    - [Promises]: writes succeed and are read back, discards read as zeros, a
      checkpoint can be opened and is the disk of that time, a view never changes while
      its lock is held, every run of calls is a run of the abstract store and keeps the
      store well formed, and a host that stops during a commit loses at most that
      commit.
    - [WriteBackClaims], [WriteBackDisk]: for every interleaving, readers see plain
      disks; the cache stays within its sizes; a drained disk is in its file, and a
      drain ends; a failure is final; a checkpoint of a cached disk is complete.
    - [Crash], [Publish], [Bitmap]: atomicity of the commit at sector granularity, for
      pages, records, payload and bitmap, through interrupted recoveries.
    - [Checkpoint], [Gc]: taking, deleting and collecting versions keeps the contents
      of every version that is retained or read.
    - [Tree], [TreeWrite], [TreeRemove], [Retire], [Cache]: index operations against
      sorted association lists, the batched routines against their simple forms.
    - [Format], [Json], [Presence], [Mux]: encodings and their inverses.
    - [Mux], [MuxLink]: flow control, no overflow of a window, byte pipes in order, no
      stall, and the behaviour of the close handshake.
    - [Usage]: exact integration, no drift, no silent wrap-around.

    ** Bounds

    Recursion on the index has [maxDepth = 8] levels, as in the code, which refuses a
    deeper tree.  Loops of the code that are not structural take fuel, and each has a
    lemma that the fuel given is enough: a walk of the list of versions takes at most
    one turn per allocated slot, the halving loops of the discards at most one turn per
    block and per halving ([discard_terminates], [discard_window_spec]).  Theorems about
    calls that allocate state the slots they need ([write_room], [version_room],
    [zero_cost]); slot numbers end at [maxSlot], which the code checks.  A write of more
    than one batch (64 pages) is a sequence of batches and is covered as such.  The
    runs of the cached disks have no bound: they are derivations of a step relation.

    ** Not modelled

    Statistics, timing, test fault points, buffer alignment and file locks have no
    effect on contents.  The header page of a DIFF with its key envelope is outside
    the model.  Of the cache, waiting and waking are left out (a caller that waits
    repeats its critical section), and so are the aggregation timer, the pool of page
    metadata and the error of a cleanup after a failure; the split of a request into
    blocks is done by the callers of the steps.  The single-layer file format is seen
    only through [DiffFile].  The rest of the program drives processes, sockets, cgroups, mounts and
    the hypervisor, and its behaviour is that of the operating system: the life cycle of
    sandboxes, the guest's init, configuration files, artifacts, snapshots, restore,
    page faults, resource control, the block device backend, and the command line. *)

(** * Prelude: machine integers, byte codecs, error results *)
From stdpp Require Import base numbers list gmap strings.
From Stdlib Require Import ZArith Lia.

Declare Scope go_scope.
Delimit Scope go_scope with go.
Global Open Scope Z_scope.

Create HintDb go.

(** ** Fallible code: a Go function that returns [(T, error)]. *)
Inductive res (E A : Type) : Type :=
| Ok (a : A)
| Err (e : E).
Arguments Ok {E A} a.
Arguments Err {E A} e.

Definition res_bind {E A B} (c : res E A) (k : A -> res E B) : res E B :=
  match c with Ok a => k a | Err e => Err e end.

Notation "'let*' x ':=' c 'in' k" := (res_bind c (fun x => k))
  (at level 10, x pattern, c at level 100, k at level 200) : go_scope.

Global Open Scope go_scope.

Lemma res_bind_Ok {E A B} (c : res E A) (k : A -> res E B) b :
  res_bind c k = Ok b <-> exists a, c = Ok a /\ k a = Ok b.
Proof. destruct c; naive_solver. Qed.

(** ** Unsigned machine integers. *)
Definition u64_max : Z := 2 ^ 64 - 1.
Definition u64 (x : Z) : Z := x mod 2 ^ 64.
Definition is_u64 (x : Z) : Prop := 0 <= x < 2 ^ 64.

(** [lia] after the Euclidean-division equations of the goal are added. *)
Ltac div_lia := Z.to_euclidean_division_equations; lia.

(** Destruct the scrutinee of every [if]/[match] of the goal or of [H]. *)
Ltac case_all :=
  repeat (case_match; simplify_eq/=).
Ltac case_all_in H :=
  repeat (let E := fresh "E" in
          match type of H with context [match ?x with _ => _ end] => destruct x eqn:E end;
          simplify_eq/=).

(** Split the boolean conditionals of the goal, innermost first. *)
Ltac split_ifs :=
  repeat match goal with
  | |- context [if ?b then _ else _] =>
      lazymatch b with context [if _ then _ else _] => fail | _ => destruct b eqn:? end
  end; simplify_eq/=.

(** Turn boolean comparisons in the context into propositions. *)
Ltac bool_prop :=
  repeat match goal with
  | H : _ && _ = true |- _ => apply andb_true_iff in H; destruct H
  | H : _ || _ = false |- _ => apply orb_false_iff in H; destruct H
  | H : _ && _ = false |- _ => apply andb_false_iff in H
  | H : _ || _ = true |- _ => apply orb_true_iff in H
  | H : negb _ = true |- _ => apply negb_true_iff in H
  | H : negb _ = false |- _ => apply negb_false_iff in H
  | H : (_ =? _) = true |- _ => apply Z.eqb_eq in H
  | H : (_ =? _) = false |- _ => apply Z.eqb_neq in H
  | H : (_ <? _) = true |- _ => apply Z.ltb_lt in H
  | H : (_ <? _) = false |- _ => apply Z.ltb_ge in H
  | H : (_ <=? _) = true |- _ => apply Z.leb_le in H
  | H : (_ <=? _) = false |- _ => apply Z.leb_gt in H
  | H : bool_decide _ = true |- _ => apply bool_decide_eq_true in H
  | H : bool_decide _ = false |- _ => apply bool_decide_eq_false in H
  end.

Lemma u64_id x : is_u64 x -> u64 x = x.
Proof. unfold is_u64, u64. intros. by apply Z.mod_small. Qed.
Lemma u64_range x : is_u64 (u64 x).
Proof. unfold is_u64, u64. apply Z.mod_pos_bound. lia. Qed.
#[export] Hint Resolve u64_range : go.

(** ** Fixed-width byte order (encoding/binary). *)
Definition is_byte (b : Z) : Prop := 0 <= b < 256.
Definition bytes_ok (l : list Z) : Prop := Forall is_byte l.

(** [k] bytes of [n], least significant first; [PutUintN] truncates. *)
Fixpoint le_bytes (k : nat) (n : Z) : list Z :=
  match k with O => [] | S k => n mod 256 :: le_bytes k (n / 256) end.
Fixpoint le_val (l : list Z) : Z :=
  match l with [] => 0 | b :: l => b + 256 * le_val l end.
Definition be_bytes (k : nat) (n : Z) : list Z := reverse (le_bytes k n).
Definition be_val (l : list Z) : Z := le_val (reverse l).

Lemma le_bytes_length k n : length (le_bytes k n) = k.
Proof. revert n. induction k; intros; simpl; auto. Qed.
Lemma be_bytes_length k n : length (be_bytes k n) = k.
Proof. unfold be_bytes. by rewrite length_reverse, le_bytes_length. Qed.

Lemma le_bytes_ok k n : bytes_ok (le_bytes k n).
Proof.
  revert n. induction k; intros; simpl; constructor; [|apply IHk].
  unfold is_byte. apply Z.mod_pos_bound. lia.
Qed.
Lemma be_bytes_ok k n : bytes_ok (be_bytes k n).
Proof. unfold be_bytes, bytes_ok. rewrite Forall_reverse. apply le_bytes_ok. Qed.
#[export] Hint Resolve le_bytes_ok be_bytes_ok : go.

Lemma le_val_bytes k n : 0 <= n < 256 ^ Z.of_nat k -> le_val (le_bytes k n) = n.
Proof.
  revert n. induction k as [|k IH]; intros n Hn.
  - simpl in *. lia.
  - cbn [le_bytes le_val]. rewrite Nat2Z.inj_succ, Z.pow_succ_r in Hn by lia.
    rewrite IH by (split; [apply Z.div_pos; lia | apply Z.div_lt_upper_bound; lia]).
    div_lia.
Qed.
Lemma be_val_bytes k n : 0 <= n < 256 ^ Z.of_nat k -> be_val (be_bytes k n) = n.
Proof. unfold be_val, be_bytes. rewrite reverse_involutive. apply le_val_bytes. Qed.

Lemma le_val_range l : bytes_ok l -> 0 <= le_val l < 256 ^ Z.of_nat (length l).
Proof.
  induction 1 as [|b l Hb Hl IH]; [simpl; lia|].
  cbn [le_val length]. rewrite Nat2Z.inj_succ, Z.pow_succ_r by lia. unfold is_byte in Hb. lia.
Qed.
Lemma be_val_range l : bytes_ok l -> 0 <= be_val l < 256 ^ Z.of_nat (length l).
Proof.
  intros. unfold be_val. rewrite <- length_reverse. apply le_val_range.
  by apply Forall_reverse.
Qed.

Lemma le_bytes_val l : bytes_ok l -> le_bytes (length l) (le_val l) = l.
Proof.
  induction 1 as [|b l Hb Hl IH]; [done|]. cbn [le_bytes le_val length].
  unfold is_byte in Hb. f_equal; [div_lia|].
  by replace ((b + 256 * le_val l) / 256) with (le_val l) by div_lia.
Qed.
Lemma be_bytes_val l : bytes_ok l -> be_bytes (length l) (be_val l) = l.
Proof.
  intros. unfold be_bytes, be_val. rewrite <- length_reverse, le_bytes_val.
  - apply reverse_involutive.
  - by apply Forall_reverse.
Qed.

(** ** Lists *)
Lemma elem_of_concat {A} (x : A) ls : x ∈ concat ls <-> exists l, x ∈ l /\ l ∈ ls.
Proof.
  induction ls as [|l ls IH]; cbn.
  - split; [by intros ?%elem_of_nil|by intros (? & _ & ?%elem_of_nil)].
  - rewrite elem_of_app, IH. setoid_rewrite elem_of_cons. naive_solver.
Qed.

(** Concrete byte lists. *)
Ltac solve_bytes :=
  unfold bytes_ok; repeat (apply Forall_cons_2; [unfold is_byte; lia|]); apply Forall_nil_2.
