(* ===== verification/Usage.v ===== *)
(** * Usage: cumulative resource accounting (src/pkg/usage).

    [Uint128] and its checked arithmetic (number.go), the sampling [Window],
    the integrating [Gauge], the tick [Counter] and the [Snapshot] that holds
    them (accumulate.go), and the derived memory and filesystem values
    (compose.go).  Every mutable Go method is a function from the old record to
    the new one together with the error it returns, so that "a failed call
    leaves the record alone" is a statement about the model. *)
From stdpp Require Import base numbers list strings.
From Stdlib Require Import ZArith Lia.
From S2P Require Import Prelude.

(** ** number.go *)

Inductive usage_error :=
| ErrOverflow            (* usage: integer overflow *)
| ErrDecreasing          (* usage: decreasing integer *)
| ErrInterval            (* usage: invalid sample interval *)
| ErrCounterSource       (* usage: invalid counter source/scale *)
| ErrCounterRegression   (* usage: counter regression or scale change *)
| ErrMemoryFields        (* memory fields unavailable *)
| ErrPageUnit            (* unsupported page unit *)
| ErrNegativeRAM         (* negative non-free RAM *)
| ErrBalloon             (* balloon exceeds non-free Guest RAM *)
| ErrFilesystemFields    (* filesystem fields unavailable *)
| ErrFilesystemUnit      (* invalid filesystem capacity/unit *)
| ErrUint128Length       (* usage: invalid uint128 length *)
| ErrUint128Digit        (* usage: invalid uint128 *)
| PanicDivide.           (* the Go runtime panics: division by zero *)

Record Uint128 := mkUint128 { Hi : Z; Lo : Z }.

(** math/bits: [Add64], [Sub64], [Mul64] and [Div64] on 64-bit words. *)
Definition bits_Add64 (x y carry : Z) : Z * Z :=
  (u64 (x + y + carry), (x + y + carry) / 2 ^ 64).
Definition bits_Sub64 (x y borrow : Z) : Z * Z :=
  (u64 (x - y - borrow), if x - y - borrow <? 0 then 1 else 0).
Definition bits_Mul64 (x y : Z) : Z * Z := (x * y / 2 ^ 64, u64 (x * y)).
(** [Div64] panics when the divisor is zero or the quotient does not fit. *)
Definition bits_Div64 (hi lo y : Z) : option (Z * Z) :=
  if (y =? 0) || (y <=? hi) then None
  else Some ((hi * 2 ^ 64 + lo) / y, (hi * 2 ^ 64 + lo) mod y).

Definition Uint128_Add (a b : Uint128) : res usage_error Uint128 :=
  let '(lo, carry) := bits_Add64 (Lo a) (Lo b) 0 in
  let '(hi, carry) := bits_Add64 (Hi a) (Hi b) carry in
  if negb (carry =? 0) then Err ErrOverflow else Ok (mkUint128 hi lo).

Definition Uint128_Sub (a b : Uint128) : res usage_error Uint128 :=
  let '(lo, borrow) := bits_Sub64 (Lo a) (Lo b) 0 in
  let '(hi, borrow) := bits_Sub64 (Hi a) (Hi b) borrow in
  if negb (borrow =? 0) then Err ErrDecreasing else Ok (mkUint128 hi lo).

Definition product (a b : Z) : Uint128 :=
  let '(hi, lo) := bits_Mul64 a b in mkUint128 hi lo.

(** [a.Hi/d] panics for [d = 0]; [bits.Div64] cannot panic after it, because
    the remainder it receives is below [d]. *)
Definition Uint128_div (a : Uint128) (d : Z) : res usage_error (Uint128 * Z) :=
  if d =? 0 then Err PanicDivide else
  let hi := Hi a / d in
  let rem := Hi a mod d in
  match bits_Div64 rem (Lo a) d with
  | None => Err PanicDivide
  | Some (lo, rem) => Ok (mkUint128 hi lo, rem)
  end.

(** [Average] returns the value and whether it is available. *)
Definition Average (area : Uint128) (covered : Z) : Z * bool :=
  if covered =? 0 then (0, false) else
  match Uint128_div area covered with
  | Ok (q, _) => (Lo q, Hi q =? 0)
  | Err _ => (0, false)
  end.

Definition add64 (a b : Z) : res usage_error Z :=
  let '(n, c) := bits_Add64 a b 0 in
  if negb (c =? 0) then Err ErrOverflow else Ok n.

(** ** accumulate.go *)

Definition OK : string := "ok".
Definition Missing : string := "missing".
Definition Invalid : string := "invalid".

Record Window := mkWindow {
  wArea : Uint128; wSpan : Z; wCovered : Z; wPeak : Z; wPeakAt : Z;
  wPeakKnown : bool; wSamples : Z; wMaxReadWindow : Z }.

Definition Window_zero : Window := mkWindow (mkUint128 0 0) 0 0 0 0 false 0 0.

Definition Window_peak (w : Window) (value at_ : Z) : Window :=
  if negb (wPeakKnown w) || (wPeak w <? value)
  then mkWindow (wArea w) (wSpan w) (wCovered w) value at_ true
                (wSamples w) (wMaxReadWindow w)
  else w.

Definition mergeWindow (a b : Window) : res usage_error Window :=
  let* area := Uint128_Add (wArea a) (wArea b) in
  let* span := add64 (wSpan a) (wSpan b) in
  let* covered := add64 (wCovered a) (wCovered b) in
  let* samples := add64 (wSamples a) (wSamples b) in
  let out := mkWindow area span covered (wPeak b) (wPeakAt b) (wPeakKnown b)
                      samples (wMaxReadWindow b) in
  let out := if wPeakKnown a then Window_peak out (wPeak a) (wPeakAt a) else out in
  Ok (if wMaxReadWindow out <? wMaxReadWindow a
      then mkWindow (wArea out) (wSpan out) (wCovered out) (wPeak out) (wPeakAt out)
                    (wPeakKnown out) (wSamples out) (wMaxReadWindow a)
      else out).

Record Gauge := mkGauge {
  gName : string; gSource : string; gIntegralTotal : Uint128; gSpanTotal : Z;
  gCoveredTotal : Z; gLastValue : Z; gLastValueAt : Z; gLastAt : Z;
  gLastRequest : Z; gPositionKnown : bool; gValueKnown : bool;
  gContinuous : bool; gStatus : string; gWindow : Window }.

Definition Window_addSpan (w : Window) (dt : Z) : res usage_error Window :=
  let* span := add64 (wSpan w) dt in
  Ok (mkWindow (wArea w) span (wCovered w) (wPeak w) (wPeakAt w) (wPeakKnown w)
               (wSamples w) (wMaxReadWindow w)).

(** The interval that closes at an accepted attempt: the span always grows;
    the integral, the covered time and the left value's peak only when both
    endpoints are valid and close enough. *)
Definition Gauge_closeInterval (n : Gauge) (valid : bool) (at_ interval : Z)
    : res usage_error Gauge :=
  let dt := u64 (u64 at_ - u64 (gLastAt n)) in
  let* spanTotal := add64 (gSpanTotal n) dt in
  let* w := Window_addSpan (gWindow n) dt in
  let n := mkGauge (gName n) (gSource n) (gIntegralTotal n) spanTotal
             (gCoveredTotal n) (gLastValue n) (gLastValueAt n) (gLastAt n)
             (gLastRequest n) (gPositionKnown n) (gValueKnown n)
             (gContinuous n) (gStatus n) w in
  if gContinuous n && valid && (dt <=? u64 (2 * interval)) then
    let area := product (gLastValue n) dt in
    let* integral := Uint128_Add (gIntegralTotal n) area in
    let* warea := Uint128_Add (wArea w) area in
    let* covered := add64 (gCoveredTotal n) dt in
    let* wcovered := add64 (wCovered w) dt in
    let w := mkWindow warea (wSpan w) wcovered (wPeak w) (wPeakAt w)
                      (wPeakKnown w) (wSamples w) (wMaxReadWindow w) in
    let w := Window_peak w (gLastValue n) (gLastValueAt n) in
    Ok (mkGauge (gName n) (gSource n) integral (gSpanTotal n) covered
          (gLastValue n) (gLastValueAt n) (gLastAt n) (gLastRequest n)
          (gPositionKnown n) (gValueKnown n) (gContinuous n) (gStatus n) w)
  else Ok n.

Definition Gauge_accept (n : Gauge) (source : string) (at_ value : Z)
    (status : string) (valid : bool) (width : Z) : res usage_error Gauge :=
  if valid then
    let w := Window_peak (gWindow n) value at_ in
    let* samples := add64 (wSamples w) 1 in
    let width := u64 width in
    let w := mkWindow (wArea w) (wSpan w) (wCovered w) (wPeak w) (wPeakAt w)
               (wPeakKnown w) samples
               (if wMaxReadWindow w <? width then width else wMaxReadWindow w) in
    Ok (mkGauge (gName n) source (gIntegralTotal n) (gSpanTotal n)
          (gCoveredTotal n) value at_ at_ (gLastRequest n) true true true status w)
  else
    Ok (mkGauge (gName n) source (gIntegralTotal n) (gSpanTotal n)
          (gCoveredTotal n) (gLastValue n) (gLastValueAt n) at_ (gLastRequest n)
          true (gValueKnown n) false status (gWindow n)).

(** [Gauge.Observe]: the new gauge and the returned error. *)
Definition Gauge_Observe (g : Gauge) (source : string) (request at_ value : Z)
    (status : string) (width interval : Z) : Gauge * option usage_error :=
  if (request =? 0) || (request <=? gLastRequest g) then (g, None) else
  if (interval <=? 0) || (2 ^ 62 - 1 <? interval) then (g, Some ErrInterval) else
  let n := mkGauge (gName g) (gSource g) (gIntegralTotal g) (gSpanTotal g)
             (gCoveredTotal g) (gLastValue g) (gLastValueAt g) (gLastAt g)
             request (gPositionKnown g) (gValueKnown g) (gContinuous g)
             (gStatus g) (gWindow g) in
  if gPositionKnown n && (at_ <=? gLastAt n) then
    (mkGauge (gName n) (gSource n) (gIntegralTotal n) (gSpanTotal n)
       (gCoveredTotal n) (gLastValue n) (gLastValueAt n) (gLastAt n)
       (gLastRequest n) (gPositionKnown n) (gValueKnown n) false Invalid
       (gWindow n), None)
  else
    let status := if (width <? 0) || (interval <? width) then Invalid else status in
    let valid := bool_decide (status = OK) in
    match
      (let* n := if gPositionKnown n && bool_decide (source = gSource n)
                 then Gauge_closeInterval n valid at_ interval else Ok n in
       Gauge_accept n source at_ value status valid width)
    with
    | Ok n => (n, None)
    | Err e => (g, Some e)
    end.

Definition Gauge_Break (g : Gauge) (status : string) : Gauge :=
  mkGauge (gName g) (gSource g) (gIntegralTotal g) (gSpanTotal g)
    (gCoveredTotal g) (gLastValue g) (gLastValueAt g) (gLastAt g)
    (gLastRequest g) false false false status (gWindow g).

Record Counter := mkCounter {
  cName : string; cSource : string; cKnownTotal : Uint128; cLastRaw : Z;
  cHertz : Z; cRemainder : Z; cSourceKnown : bool; cComplete : bool;
  cStatus : string }.

Definition time_Second : Z := 1000000000.

(** The delta to credit and the remainder to carry, before conversion, with
    the completeness flag the observation leaves. *)
Definition Counter_delta (n : Counter) (source : string) (raw : Z) (created : bool)
    : Z * Z * bool :=
  if cSourceKnown n && bool_decide (cSource n = source)
  then (u64 (raw - cLastRaw n), cRemainder n, cComplete n)
  else
    (if created then raw else 0, 0,
     if negb (cSourceKnown n)
     then if bool_decide (cStatus n = EmptyString) then created
          else cComplete n && created
     else false).

Definition Counter_Observe (c : Counter) (source : string) (raw hertz : Z)
    (created : bool) : Counter * option usage_error :=
  if bool_decide (source = EmptyString) || (hertz =? 0) then (c, Some ErrCounterSource) else
  if cSourceKnown c && bool_decide (cSource c = source)
     && (negb (hertz =? cHertz c) || (raw <? cLastRaw c)) then
    (mkCounter (cName c) (cSource c) (cKnownTotal c) (cLastRaw c) (cHertz c)
       (cRemainder c) (cSourceKnown c) false Invalid, Some ErrCounterRegression)
  else
    let '(delta, rem0, complete) := Counter_delta c source raw created in
    match
      (let* quantity := Uint128_Add (product delta time_Second) (mkUint128 0 rem0) in
       let* (amount, remainder) := Uint128_div quantity hertz in
       let* total := Uint128_Add (cKnownTotal c) amount in
       Ok (mkCounter (cName c) source total raw hertz remainder true complete OK))
    with
    | Ok n => (n, None)
    | Err e => (c, Some e)
    end.

Record Snapshot := mkSnapshot {
  sSandboxID : string; sRunEpoch : string; sStartedUTC : Z;
  sSampleInterval : Z; sFlushInterval : Z; sCounters : list Counter;
  sGauges : list Gauge; sClosed : bool }.

Definition Snapshot_newRun (s : Snapshot) (epoch : string)
    (start sample flush : Z) : Snapshot :=
  let resetCounter c :=
    mkCounter (cName c) (cSource c) (cKnownTotal c) (cLastRaw c) (cHertz c)
      (cRemainder c) (cSourceKnown c) false Missing in
  let resetGauge g :=
    let g := Gauge_Break g Missing in
    mkGauge (gName g) (gSource g) (gIntegralTotal g) (gSpanTotal g)
      (gCoveredTotal g) (gLastValue g) 0 0 0 (gPositionKnown g)
      (gValueKnown g) (gContinuous g) (gStatus g) Window_zero in
  mkSnapshot (sSandboxID s) epoch start sample flush
    (resetCounter <$> sCounters s) (resetGauge <$> sGauges s) false.

(** ** compose.go *)

(** proto.UsageMemory and proto.UsageFilesystem, optional fields as pointers. *)
Record UsageMemory := mkUsageMemory {
  umStatus : string; umDomain : string; umPresentPages : option Z;
  umBuddyFreePages : option Z; umPCPFreePages : option Z; umPageSize : option Z }.

Definition memoryUsed (m : UsageMemory) (balloon : Z) : res usage_error Z :=
  if negb (bool_decide (umStatus m = OK)) || bool_decide (umDomain m = EmptyString)
  then Err ErrMemoryFields else
  match umPresentPages m, umBuddyFreePages m, umPCPFreePages m, umPageSize m with
  | Some p, Some b, Some c, Some size =>
      if (size <? 4096) || (65536 <? size) || negb (Z.land size (size - 1) =? 0)
      then Err ErrPageUnit else
      if (p <? b) || (u64 (p - b) <? c) then Err ErrNegativeRAM else
      let used := u64 (u64 (p - b) - c) in
      if u64_max / size <? used then Err ErrOverflow else
      let used := u64 (used * size) in
      if used <? balloon then Err ErrBalloon else Ok (u64 (used - balloon))
  | _, _, _, _ => Err ErrMemoryFields
  end.

Record UsageFilesystem := mkUsageFilesystem {
  ufStatus : string; ufBlocks : option Z; ufBFree : option Z;
  ufBlockSize : option Z; ufFragmentSize : option Z; ufType : option Z }.

Definition filesystemUsed (f : UsageFilesystem) : res usage_error Z :=
  if negb (bool_decide (ufStatus f = OK)) then Err ErrFilesystemFields else
  match ufBlocks f, ufBFree f, ufBlockSize f, ufFragmentSize f, ufType f with
  | Some blocks, Some bfree, Some bsize, Some fsize, Some ty =>
      if negb (ty =? 61267) then Err ErrFilesystemFields else
      let unit := if fsize =? 0 then bsize else fsize in
      if (unit =? 0) || (blocks <? bfree) then Err ErrFilesystemUnit else
      let blocks := u64 (blocks - bfree) in
      if u64_max / unit <? blocks then Err ErrOverflow else
      Ok (u64 (blocks * unit))
  | _, _, _, _, _ => Err ErrFilesystemFields
  end.

(** ** Arithmetic: the 128-bit operations against the integers. *)

Definition val128 (a : Uint128) : Z := Hi a * 2 ^ 64 + Lo a.
Definition wf128 (a : Uint128) : Prop := is_u64 (Hi a) /\ is_u64 (Lo a).

Lemma val128_range a : wf128 a -> 0 <= val128 a < 2 ^ 128.
Proof. unfold wf128, is_u64, val128. lia. Qed.

Lemma Uint128_Add_cases a b :
  wf128 a -> wf128 b ->
  match Uint128_Add a b with
  | Ok c => wf128 c /\ val128 c = val128 a + val128 b
  | Err e => e = ErrOverflow /\ 2 ^ 128 <= val128 a + val128 b
  end.
Proof.
  unfold wf128, is_u64, val128, Uint128_Add, bits_Add64, u64.
  intros [??] [??]. simpl. split_ifs; bool_prop; split_and?; try done; div_lia.
Qed.

Lemma Uint128_Sub_cases a b :
  wf128 a -> wf128 b ->
  match Uint128_Sub a b with
  | Ok c => wf128 c /\ val128 c = val128 a - val128 b
  | Err e => e = ErrDecreasing /\ val128 a < val128 b
  end.
Proof.
  unfold wf128, is_u64, val128, Uint128_Sub, bits_Sub64, u64.
  intros [??] [??]. simpl. split_ifs; bool_prop; split_and?; try done; div_lia.
Qed.

Lemma product_exact a b :
  is_u64 a -> is_u64 b -> wf128 (product a b) /\ val128 (product a b) = a * b.
Proof.
  unfold wf128, is_u64, val128, product, bits_Mul64, u64. simpl. intros.
  assert (0 <= a * b < 2 ^ 64 * 2 ^ 64) by nia.
  generalize dependent (a * b). intros. div_lia.
Qed.

Lemma Uint128_div_exact a d :
  wf128 a -> is_u64 d -> d <> 0 ->
  exists q r, Uint128_div a d = Ok (q, r) /\ wf128 q /\ 0 <= r < d /\
              val128 a = val128 q * d + r.
Proof.
  unfold wf128, is_u64, val128. intros [Hh Hl] Hd Hd0.
  unfold Uint128_div, bits_Div64.
  pose proof (Z.mod_pos_bound (Hi a) d ltac:(lia)) as Hrem.
  rewrite (proj2 (Z.eqb_neq d 0)) by lia. simpl.
  rewrite (proj2 (Z.leb_gt d _)) by lia.
  set (x := Hi a mod d * 2 ^ 64 + Lo a).
  exists (mkUint128 (Hi a / d) (x / d)), (x mod d). split; [done|]. simpl.
  pose proof (Z.div_mod (Hi a) d Hd0) as E1. pose proof (Z.div_mod x d Hd0) as E2.
  pose proof (Z.mod_pos_bound x d ltac:(lia)).
  assert (0 <= x < d * 2 ^ 64) by (subst x; nia).
  assert (0 <= x / d < 2 ^ 64).
  { split; [apply Z.div_pos; lia|]. apply Z.div_lt_upper_bound; lia. }
  assert (0 <= Hi a / d <= Hi a).
  { split; [apply Z.div_pos; lia|]. apply Z.div_le_upper_bound; nia. }
  repeat split; (lia || (subst x; nia)).
Qed.

Lemma add64_cases a b :
  is_u64 a -> is_u64 b ->
  match add64 a b with
  | Ok c => is_u64 c /\ c = a + b
  | Err e => e = ErrOverflow /\ 2 ^ 64 <= a + b
  end.
Proof.
  unfold is_u64, add64, bits_Add64, u64. intros. simpl.
  split_ifs; bool_prop; split_and?; try done; div_lia.
Qed.

Lemma add64_Ok a b c : is_u64 a -> is_u64 b -> add64 a b = Ok c -> is_u64 c /\ c = a + b.
Proof. intros Ha Hb E. pose proof (add64_cases a b Ha Hb) as H. by rewrite E in H. Qed.
Lemma Uint128_Add_Ok a b c :
  wf128 a -> wf128 b -> Uint128_Add a b = Ok c -> wf128 c /\ val128 c = val128 a + val128 b.
Proof. intros Ha Hb E. pose proof (Uint128_Add_cases a b Ha Hb) as H. by rewrite E in H. Qed.

(** ** Gauge invariant *)

Record window_ok (w : Window) : Prop := {
  wok_area : wf128 (wArea w);
  wok_span : is_u64 (wSpan w);
  wok_covered : is_u64 (wCovered w);
  wok_peak : is_u64 (wPeak w);
  wok_samples : is_u64 (wSamples w);
  wok_read : is_u64 (wMaxReadWindow w);
  wok_le : wCovered w <= wSpan w;
  wok_avg : val128 (wArea w) <= wPeak w * wCovered w;
  wok_unknown : wPeakKnown w = false -> wCovered w = 0 }.

Record gauge_ok (g : Gauge) : Prop := {
  gok_window : window_ok (gWindow g);
  gok_value : is_u64 (gLastValue g);
  gok_integral : wf128 (gIntegralTotal g);
  gok_span : is_u64 (gSpanTotal g);
  gok_covered : is_u64 (gCoveredTotal g);
  gok_le : gCoveredTotal g <= gSpanTotal g;
  gok_avg : val128 (gIntegralTotal g) <= u64_max * gCoveredTotal g }.

Lemma is_u64_0 : is_u64 0. Proof. unfold is_u64; lia. Qed.
Lemma is_u64_1 : is_u64 1. Proof. unfold is_u64; lia. Qed.
#[export] Hint Resolve is_u64_0 is_u64_1 : go.

Lemma Window_zero_ok : window_ok Window_zero.
Proof. split; unfold wf128, is_u64, val128; simpl; lia. Qed.

Lemma Window_peak_fields w v at_ :
  let w' := Window_peak w v at_ in
  wArea w' = wArea w /\ wSpan w' = wSpan w /\ wCovered w' = wCovered w /\
  wSamples w' = wSamples w /\ wMaxReadWindow w' = wMaxReadWindow w /\
  wPeakKnown w' = true /\
  (wPeakKnown w = true -> wPeak w <= wPeak w') /\ v <= wPeak w' /\
  (wPeak w' = v \/ wPeak w' = wPeak w).
Proof.
  unfold Window_peak. destruct (wPeakKnown w) eqn:?; simpl; [split_ifs|]; bool_prop;
    simpl; repeat split; auto; lia.
Qed.

Lemma Window_peak_ok w v at_ : window_ok w -> is_u64 v -> window_ok (Window_peak w v at_).
Proof.
  intros [] Hv.
  destruct (Window_peak_fields w v at_) as (Ea & Es & Ec & Esa & Em & Ek & Hm & ? & Hp).
  split; rewrite ?Ea, ?Es, ?Ec, ?Esa, ?Em; try done.
  - by destruct Hp as [->| ->].
  - destruct (wPeakKnown w) eqn:?; [specialize (Hm eq_refl)|].
    + unfold is_u64 in *. nia.
    + rewrite wok_unknown0 in * by done. lia.
  - congruence.
Qed.

(** [mergeWindow] of two accumulated windows is again one. *)
Lemma mergeWindow_ok a b w :
  window_ok a -> window_ok b -> mergeWindow a b = Ok w ->
  window_ok w /\ val128 (wArea w) = val128 (wArea a) + val128 (wArea b) /\
  wSpan w = wSpan a + wSpan b /\ wCovered w = wCovered a + wCovered b /\
  wSamples w = wSamples a + wSamples b /\
  (wPeakKnown a = true -> wPeak a <= wPeak w) /\
  (wPeakKnown b = true -> wPeak b <= wPeak w).
Proof.
  intros [] []. unfold mergeWindow.
  rewrite res_bind_Ok. intros (area & Harea & Hk).
  apply Uint128_Add_Ok in Harea as [? Ha]; [|done..].
  apply res_bind_Ok in Hk as (span & Hspan & Hk). apply add64_Ok in Hspan as [? ->]; [|done..].
  apply res_bind_Ok in Hk as (cov & Hcov & Hk). apply add64_Ok in Hcov as [? ->]; [|done..].
  apply res_bind_Ok in Hk as (sam & Hsam & Hk). apply add64_Ok in Hsam as [? ->]; [|done..].
  injection Hk as <-.
  set (out0 := mkWindow area _ _ _ _ _ _ _).
  set (out := if wPeakKnown a then _ else out0).
  assert (wArea out = area /\ wSpan out = wSpan a + wSpan b /\
    wCovered out = wCovered a + wCovered b /\ wSamples out = wSamples a + wSamples b /\
    is_u64 (wPeak out) /\ is_u64 (wMaxReadWindow out) /\
    (wPeakKnown a = true -> wPeak a <= wPeak out) /\
    (wPeakKnown b = true -> wPeak b <= wPeak out) /\
    (wPeakKnown out = false -> wPeakKnown a = false /\ wPeakKnown b = false))
    as (Ea & Es & Ec & Esa & ? & ? & ? & ? & ?).
  { subst out. destruct (wPeakKnown a) eqn:?.
    - destruct (Window_peak_fields out0 (wPeak a) (wPeakAt a)) as (?&?&?&?&Em&?&?&?&Hp);
        subst out0; simpl in *; rewrite ?Em; split_and!; auto; try congruence.
      by destruct Hp as [->| ->].
    - subst out0; simpl; split_and!; auto; lia. }
  assert (val128 area <= wPeak out * (wCovered a + wCovered b)).
  { rewrite Ha. unfold is_u64 in *.
    destruct (wPeakKnown a) eqn:?, (wPeakKnown b) eqn:?;
      repeat match goal with H : ?x = ?x -> _ |- _ => specialize (H eq_refl) end; nia. }
  destruct (wMaxReadWindow out <? _); simpl; rewrite ?Ea, ?Es, ?Ec, ?Esa;
    (split; [split; simpl; rewrite ?Ea, ?Es, ?Ec, ?Esa; auto; try lia; naive_solver lia
            | split_and!; auto]).
Qed.

Lemma Gauge_closeInterval_ok n valid at_ interval n' :
  gauge_ok n -> Gauge_closeInterval n valid at_ interval = Ok n' ->
  gauge_ok n' /\ gLastRequest n' = gLastRequest n /\
  val128 (gIntegralTotal n) <= val128 (gIntegralTotal n') /\
  gSpanTotal n <= gSpanTotal n' /\ gCoveredTotal n <= gCoveredTotal n'.
Proof.
  intros [[] ?] E. unfold Gauge_closeInterval, Window_addSpan in E.
  set (dt := u64 (u64 at_ - u64 (gLastAt n))) in *.
  assert (is_u64 dt) as Hdt by apply u64_range.
  apply res_bind_Ok in E as (st & Hst & E). apply add64_Ok in Hst as [? ->]; [|done..].
  apply res_bind_Ok in E as (w & Hw & E).
  apply res_bind_Ok in Hw as (sp & Hsp & Hw). apply add64_Ok in Hsp as [? ->]; [|done..].
  injection Hw as <-. simpl in E. unfold is_u64, u64_max in *.
  case_match; simplify_eq/=.
  - destruct (product_exact (gLastValue n) dt) as [Hwf Hpr]; [done..|].
    apply res_bind_Ok in E as (it & Hit & E). apply Uint128_Add_Ok in Hit as [? Hi1]; [|done..].
    apply res_bind_Ok in E as (wa & Hwa & E). apply Uint128_Add_Ok in Hwa as [? Hi2]; [|done..].
    apply res_bind_Ok in E as (cv & Hcv & E). apply add64_Ok in Hcv as [? ->]; [|done..].
    apply res_bind_Ok in E as (wc & Hwc & E). apply add64_Ok in Hwc as [? ->]; [|done..].
    injection E as <-. simpl.
    match goal with |- context [Window_peak ?w ?v ?a] =>
      destruct (Window_peak_fields w v a) as (Ea & Es & Ec & Esa & Em & Ek & Hm & Hv & Hp);
      set (w' := Window_peak w v a) in * end. simpl in *.
    split; [|rewrite Hi1, Hpr; split_and!; auto; try nia; lia].
    split; simpl; rewrite ?Hi1, ?Hi2, ?Hpr; auto; try lia; try nia.
    split; rewrite ?Ea, ?Es, ?Ec, ?Esa, ?Em, ?Hi2, ?Hpr; auto; try lia; try congruence.
    + unfold is_u64. by destruct Hp as [->| ->].
    + destruct (wPeakKnown (gWindow n)); [specialize (Hm eq_refl); nia|].
      rewrite wok_unknown0 in * by done. nia.
    + unfold u64_max. nia.
  - split; [|split_and!; auto; lia]. split; simpl; auto; try lia; try nia.
    split; simpl; auto; try lia.
Qed.

Lemma Gauge_accept_ok n source at_ value status valid width n' :
  gauge_ok n -> is_u64 value ->
  Gauge_accept n source at_ value status valid width = Ok n' ->
  gauge_ok n' /\ gLastRequest n' = gLastRequest n /\
  gIntegralTotal n' = gIntegralTotal n /\
  gSpanTotal n' = gSpanTotal n /\ gCoveredTotal n' = gCoveredTotal n.
Proof.
  intros [Hw ?] Hv E. unfold Gauge_accept in E. destruct valid; simplify_eq/=.
  - pose proof (Window_peak_ok (gWindow n) value at_ Hw Hv) as [].
    apply res_bind_Ok in E as (sm & Hsm & E). apply add64_Ok in Hsm as [? ->]; [|auto with go..].
    injection E as <-. split; [|done]. split; simpl; auto.
    split; simpl; auto. case_match; auto with go.
  - split; [|done]. split; simpl; auto.
Qed.

(** ** Trace semantics of a gauge *)

Record attempt := mkAttempt {
  aRequest : Z; aAt : Z; aValue : Z; aStatus : string; aWidth : Z }.

Section GaugeTrace.
Context (source : string) (interval : Z).

Definition attempt_valid (a : attempt) : bool :=
  negb ((aWidth a <? 0) || (interval <? aWidth a)) && bool_decide (aStatus a = OK).

Definition Gauge_step (g : Gauge) (a : attempt) : Gauge * option usage_error :=
  Gauge_Observe g source (aRequest a) (aAt a) (aValue a) (aStatus a) (aWidth a) interval.

(** Apply the attempts in order, stopping at the first error. *)
Fixpoint Gauge_run (g : Gauge) (l : list attempt) : Gauge * option usage_error :=
  match l with
  | [] => (g, None)
  | a :: l => match Gauge_step g a with
              | (g, None) => Gauge_run g l
              | r => r
              end
  end.

(** Two consecutive attempts delimit measured time when both are valid and no
    further apart than two sample intervals. *)
Definition measured (a b : attempt) : Z :=
  if attempt_valid a && attempt_valid b && (aAt b - aAt a <=? 2 * interval)
  then aAt b - aAt a else 0.

Fixpoint covered_from (a : attempt) (l : list attempt) : Z :=
  match l with [] => 0 | b :: l => measured a b + covered_from b l end.
Fixpoint integral_from (a : attempt) (l : list attempt) : Z :=
  match l with [] => 0 | b :: l => aValue a * measured a b + integral_from b l end.
Fixpoint last_at (a : attempt) (l : list attempt) : Z :=
  match l with [] => aAt a | b :: l => last_at b l end.

Definition attempt_ok (a : attempt) : Prop :=
  - 2 ^ 63 <= aAt a < 2 ^ 63 /\ is_u64 (aValue a).
Fixpoint ordered_from (a : attempt) (l : list attempt) : Prop :=
  attempt_ok a /\
  match l with
  | [] => True
  | b :: l => aRequest a < aRequest b /\ aAt a < aAt b /\ ordered_from b l
  end.
End GaugeTrace.

(** The state of a gauge whose last accepted attempt is [a]: [I], [C] and [S]
    are the exact integral, covered time and span since [first]. *)
Record gauge_at (source : string) (interval first : Z) (a : attempt) (I C k : Z) (g : Gauge)
    : Prop := {
  ga_known : gPositionKnown g = true;
  ga_source : gSource g = source;
  ga_last : gLastAt g = aAt a;
  ga_cont : gContinuous g = attempt_valid interval a;
  ga_value : attempt_valid interval a = true -> gLastValue g = aValue a;
  ga_integral : wf128 (gIntegralTotal g) /\ val128 (gIntegralTotal g) = I;
  ga_warea : wf128 (wArea (gWindow g)) /\ val128 (wArea (gWindow g)) = I;
  ga_covered : gCoveredTotal g = C /\ wCovered (gWindow g) = C;
  ga_span : gSpanTotal g = aAt a - first /\ wSpan (gWindow g) = aAt a - first;
  ga_bounds : 0 <= I <= u64_max * C /\ 0 <= C <= aAt a - first;
  ga_samples : 0 <= wSamples (gWindow g) <= k }.

Lemma add64_exact a b : is_u64 a -> is_u64 b -> a + b < 2 ^ 64 -> add64 a b = Ok (a + b).
Proof.
  intros Ha Hb ?. pose proof (add64_cases a b Ha Hb) as Hc.
  destruct (add64 a b); [destruct Hc as [? ->]; done | lia].
Qed.
Lemma Uint128_Add_exact a b :
  wf128 a -> wf128 b -> val128 a + val128 b < 2 ^ 128 ->
  exists c, Uint128_Add a b = Ok c /\ wf128 c /\ val128 c = val128 a + val128 b.
Proof.
  intros Ha Hb ?. pose proof (Uint128_Add_cases a b Ha Hb) as Hc.
  destruct (Uint128_Add a b); [naive_solver | lia].
Qed.

Lemma u64_diff a b : - 2 ^ 63 <= b < a -> a < 2 ^ 63 -> u64 (u64 a - u64 b) = a - b.
Proof.
  intros. unfold u64. rewrite <- Zminus_mod. apply Z.mod_small. lia.
Qed.

Lemma Window_peak_keeps w v at_ :
  wArea (Window_peak w v at_) = wArea w /\ wSpan (Window_peak w v at_) = wSpan w /\
  wCovered (Window_peak w v at_) = wCovered w /\ wSamples (Window_peak w v at_) = wSamples w.
Proof. unfold Window_peak. by case_match. Qed.

(** Closing an interval adds exactly the measured time and area. *)
Lemma Gauge_closeInterval_exact interval first source a b I C k g :
  0 < interval < 2 ^ 62 -> - 2 ^ 63 <= first <= aAt a -> attempt_ok a -> attempt_ok b ->
  aAt a < aAt b -> gauge_at source interval first a I C k g ->
  exists g', Gauge_closeInterval g (attempt_valid interval b) (aAt b) interval = Ok g' /\
    let m := measured interval a b in
    (wf128 (gIntegralTotal g') /\ val128 (gIntegralTotal g') = I + aValue a * m) /\
    (wf128 (wArea (gWindow g')) /\ val128 (wArea (gWindow g')) = I + aValue a * m) /\
    (gCoveredTotal g' = C + m /\ wCovered (gWindow g') = C + m) /\
    (gSpanTotal g' = aAt b - first /\ wSpan (gWindow g') = aAt b - first) /\
    wSamples (gWindow g') = wSamples (gWindow g) /\
    gLastRequest g' = gLastRequest g /\
    0 <= m <= aAt b - aAt a.
Proof.
  intros Hi Hf [Ha Hva] [Hb Hvb] Hab G. destruct G as [? ? Hlast Hc Hval [? HI] [? HW] [HC HwC]
    [HS HwS] Hbd ?].
  unfold Gauge_closeInterval, Window_addSpan, measured.
  rewrite Hlast, u64_diff by lia. rewrite HS, HwS.
  assert (is_u64 (aAt b - aAt a)) by (unfold is_u64; lia).
  rewrite !(add64_exact (aAt a - first)) by (try done; unfold is_u64; lia). simpl.
  rewrite Hc, u64_id by (unfold is_u64; lia).
  destruct (_ && _ && _) eqn:Ev; simpl.
  - rewrite (Hval ltac:(by bool_prop)) in *. bool_prop.
    destruct (product_exact (aValue a) (aAt b - aAt a)) as [Hpw Hp]; [done..|].
    assert (I + aValue a * (aAt b - aAt a) < 2 ^ 128).
    { unfold is_u64, u64_max in *. nia. }
    destruct (Uint128_Add_exact (gIntegralTotal g) (product (aValue a) (aAt b - aAt a)))
      as (c & -> & ? & Ec); [done..|lia|]. simpl.
    destruct (Uint128_Add_exact (wArea (gWindow g)) (product (aValue a) (aAt b - aAt a)))
      as (c' & -> & ? & Ec'); [done..|lia|]. simpl.
    rewrite HC, HwC, !add64_exact by (try done; unfold is_u64 in *; lia). simpl.
    eexists; split; [done|]. simpl.
    match goal with |- context [Window_peak ?w ?v ?a] =>
      destruct (Window_peak_keeps w v a) as (-> & -> & -> & ->) end. simpl.
    split_and!; auto; lia.
  - eexists; split; [done|]. simpl. split_and!; auto; lia.
Qed.

Lemma Gauge_step_exact interval first source a b I C k g :
  0 < interval < 2 ^ 62 -> - 2 ^ 63 <= first <= aAt a -> attempt_ok a -> attempt_ok b ->
  0 <= aRequest a < aRequest b -> aAt a < aAt b -> 0 <= k < 2 ^ 64 - 1 ->
  gauge_at source interval first a I C k g -> gLastRequest g = aRequest a ->
  exists g', Gauge_step source interval g b = (g', None) /\ gLastRequest g' = aRequest b /\
    gauge_at source interval first b (I + aValue a * measured interval a b)
             (C + measured interval a b) (k + 1) g'.
Proof.
  intros Hi Hf Ha Hb Hr Hab Hk G HR.
  pose proof G as [HK HS HL HC HV ? ? ? ? HB HSa].
  unfold Gauge_step, Gauge_Observe. rewrite HK, HL, HR, HS.
  rewrite (proj2 (Z.eqb_neq _ _)), (proj2 (Z.leb_gt (aRequest b) _)) by lia.
  rewrite (proj2 (Z.leb_gt interval _)), (proj2 (Z.ltb_ge _ interval)) by lia. simpl.
  rewrite (proj2 (Z.leb_gt (aAt b) _)), bool_decide_true by (try done; lia). simpl.
  set (g1 := mkGauge _ _ _ _ _ _ _ _ _ _ _ _ _ _).
  assert (gauge_at source interval first a I C k g1) as G1 by (subst g1; split; simpl; auto).
  destruct (Gauge_closeInterval_exact interval first source a b I C k _ Hi Hf Ha Hb Hab G1)
    as (g' & Hclose & HI & HW & HC' & HS' & Hsam & Hreq & Hm).
  set (status := if (aWidth b <? 0) || (interval <? aWidth b) then Invalid else aStatus b).
  assert (bool_decide (status = OK) = attempt_valid interval b) as ->.
  { unfold status, attempt_valid. by destruct (_ || _). }
  rewrite Hclose.
  assert (0 <= I + aValue a * measured interval a b <=
          u64_max * (C + measured interval a b) /\
          0 <= C + measured interval a b <= aAt b - first).
  { destruct Ha as [_ Ha]. unfold is_u64, u64_max in *. nia. }
  simpl. unfold Gauge_accept. destruct (attempt_valid interval b) eqn:Evb.
  - destruct (Window_peak_keeps (gWindow g') (aValue b) (aAt b)) as (Ea & Es & Ec & Esm).
    rewrite Esm, Hsam. simpl. rewrite add64_exact by (unfold is_u64; lia). simpl.
    eexists; split; [done|]. split; [done|]. split; simpl; rewrite ?Ea, ?Es, ?Ec; auto; try lia.
  - simpl. eexists; split; [done|]. split; [done|]. simpl in Hsam. split; simpl; auto; try lia; congruence.
Qed.

Definition Gauge_fresh (name : string) : Gauge :=
  mkGauge name EmptyString (mkUint128 0 0) 0 0 0 0 0 0 false false false
          EmptyString Window_zero.

Lemma Gauge_run_exact interval first source l : forall a I C k g,
  0 < interval < 2 ^ 62 -> - 2 ^ 63 <= first <= aAt a -> 0 <= aRequest a ->
  ordered_from a l -> 0 <= k -> k + Z.of_nat (length l) < 2 ^ 64 ->
  gauge_at source interval first a I C k g -> gLastRequest g = aRequest a ->
  exists g', Gauge_run source interval g l = (g', None) /\
    val128 (gIntegralTotal g') = I + integral_from interval a l /\
    gCoveredTotal g' = C + covered_from interval a l /\
    gSpanTotal g' = last_at a l - first.
Proof.
  induction l as [|b l IH]; intros a I C k g Hi Hf Hr Ho Hk Hl G HR; simpl in *.
  - destruct G. exists g. split; [done|]. split_and!; lia.
  - destruct Ho as (Ha & Hreq & Hat & Hb).
    assert (attempt_ok b) by (destruct l; apply Hb).
    destruct (Gauge_step_exact interval first source a b I C k g) as (g1 & -> & HR1 & G1);
      try done; try lia.
    destruct (IH b (I + aValue a * measured interval a b) (C + measured interval a b)
      (k + 1) g1 Hi) as (g' & -> & ? & ? & ?); try done; try lia.
    exists g'. split; [done|]. split_and!; lia.
Qed.

Lemma Gauge_first_exact name source interval a :
  0 < interval < 2 ^ 62 -> 0 < aRequest a -> attempt_ok a ->
  exists g, Gauge_step source interval (Gauge_fresh name) a = (g, None) /\
    gLastRequest g = aRequest a /\ gauge_at source interval (aAt a) a 0 0 1 g.
Proof.
  intros Hi Hr Ha. unfold Gauge_step, Gauge_Observe.
  rewrite (proj2 (Z.eqb_neq _ _)), (proj2 (Z.leb_gt (aRequest a) _)) by (simpl; lia).
  rewrite (proj2 (Z.leb_gt interval _)), (proj2 (Z.ltb_ge _ interval)) by lia. simpl.
  assert (bool_decide ((if (aWidth a <? 0) || (interval <? aWidth a) then Invalid
    else aStatus a) = OK) = attempt_valid interval a) as ->.
  { unfold attempt_valid. by destruct (_ || _). }
  unfold Gauge_accept. destruct (attempt_valid interval a) eqn:Ev; simpl.
  all: eexists; split; [done|]; split; [done|].
  all: split; simpl; rewrite ?Ev; try done; unfold wf128, is_u64, val128; simpl; lia.
Qed.

(** C27 — A gauge integrates its observations exactly.  For every ordered
    sequence of attempts on one source (increasing request numbers and
    monotonic times), starting from a fresh gauge, no [Observe] call fails, and
    the totals it leaves are the mathematical ones: the integral is the sum of
    [value * dt] over the consecutive pairs of valid attempts no further apart
    than two sample intervals, the covered time is the sum of those [dt], and
    the span is the distance between the first and the last attempt.  In
    particular the 64-bit and 128-bit totals cannot overflow. *)
Theorem Gauge_Observe_integrates name source interval a l :
  0 < interval < 2 ^ 62 -> 0 < aRequest a -> ordered_from a l ->
  Z.of_nat (length l) < 2 ^ 64 - 1 ->
  exists g, Gauge_run source interval (Gauge_fresh name) (a :: l) = (g, None) /\
    val128 (gIntegralTotal g) = integral_from interval a l /\
    gCoveredTotal g = covered_from interval a l /\
    gSpanTotal g = last_at a l - aAt a.
Proof.
  intros Hi Hr Ho Hl. assert (attempt_ok a) as Ha by (destruct l; apply Ho).
  destruct (Gauge_first_exact name source interval a Hi Hr Ha) as (g1 & Hs & HR & G).
  simpl. rewrite Hs.
  destruct (Gauge_run_exact interval (aAt a) source l a 0 0 1 g1) as (g & -> & ? & ? & ?);
    try done; try lia. { destruct Ha; lia. }
  exists g. split; [done|]. split_and!; lia.
Qed.

Lemma Gauge_Observe_integrates_witness :
  exists g, Gauge_run "guest" 10 (Gauge_fresh "memory")
      [mkAttempt 1 100 7 OK 0; mkAttempt 2 110 9 OK 0; mkAttempt 3 140 2 OK 0] = (g, None) /\
    val128 (gIntegralTotal g) = 70 /\ gCoveredTotal g = 10 /\ gSpanTotal g = 40.
Proof.
  apply (Gauge_Observe_integrates "memory" "guest" 10 (mkAttempt 1 100 7 OK 0)
    [mkAttempt 2 110 9 OK 0; mkAttempt 3 140 2 OK 0]); simpl;
    unfold attempt_ok, is_u64; simpl; lia.
Defined.

(** The gauge invariant is preserved by every [Observe], whatever its
    arguments, and the cumulative totals never decrease: covered time stays
    within the span, and the window's area stays within peak times covered. *)
Theorem Gauge_Observe_invariant g source request at_ value status width interval :
  gauge_ok g -> is_u64 value ->
  let g' := fst (Gauge_Observe g source request at_ value status width interval) in
  gauge_ok g' /\
  val128 (gIntegralTotal g) <= val128 (gIntegralTotal g') /\
  gSpanTotal g <= gSpanTotal g' /\ gCoveredTotal g <= gCoveredTotal g' /\
  (snd (Gauge_Observe g source request at_ value status width interval) <> None -> g' = g).
Proof.
  intros Hg Hv. unfold Gauge_Observe.
  destruct (_ || _); [simpl; split_and!; auto; lia|].
  destruct (_ || _); [simpl; split_and!; auto; lia|]. simpl.
  destruct (_ && _); [simpl; split_and!; try lia; [destruct Hg; by split|done]|].
  set (n := mkGauge _ _ _ _ _ _ _ _ request _ _ _ _ _).
  assert (gauge_ok n) as Hn by (destruct Hg; by split).
  destruct (if gPositionKnown g && _ then _ else _) as [n1|] eqn:E1; simpl;
    [|split_and!; auto; lia].
  assert (gauge_ok n1 /\ val128 (gIntegralTotal g) <= val128 (gIntegralTotal n1) /\
    gSpanTotal g <= gSpanTotal n1 /\ gCoveredTotal g <= gCoveredTotal n1) as (Hn1 & ? & ? & ?).
  { destruct (_ && _); [|injection E1 as <-; split_and!; auto; simpl; lia].
    apply Gauge_closeInterval_ok in E1; [|done]. simpl in E1. naive_solver. }
  destruct (Gauge_accept n1 _ _ _ _ _ _) as [n2|] eqn:E2; simpl;
    [|split_and!; auto; lia].
  apply Gauge_accept_ok in E2 as (? & _ & -> & -> & ->); [|done..].
  split_and!; done.
Qed.

Lemma Gauge_Observe_invariant_witness :
  let g' := fst (Gauge_Observe (Gauge_fresh "m") "s" 1 5 7 OK 0 10) in
  gauge_ok g' /\ 0 <= val128 (gIntegralTotal g') /\ 0 <= gSpanTotal g' /\
  0 <= gCoveredTotal g' /\ (snd (Gauge_Observe (Gauge_fresh "m") "s" 1 5 7 OK 0 10) <> None ->
  g' = Gauge_fresh "m").
Proof.
  apply (Gauge_Observe_invariant (Gauge_fresh "m") "s" 1 5 7 OK 0 10).
  - split; try (unfold is_u64, wf128, is_u64, val128, u64_max; simpl; lia).
    apply Window_zero_ok.
  - unfold is_u64; lia.
Defined.

(** The reported average of an accumulated window is available whenever
    any time is covered, and never exceeds the window's peak. *)
Theorem Average_le_peak w :
  window_ok w -> wCovered w <> 0 ->
  exists v, Average (wArea w) (wCovered w) = (v, true) /\
    0 <= v <= wPeak w /\ v * wCovered w <= val128 (wArea w) < (v + 1) * wCovered w.
Proof.
  intros [] Hc. unfold Average. rewrite (proj2 (Z.eqb_neq _ _)) by done.
  destruct (Uint128_div_exact (wArea w) (wCovered w)) as (q & r & -> & Hq & Hr & E); [done..|].
  pose proof (val128_range q Hq). unfold wf128, is_u64, val128 in *.
  assert (Hi q * 2 ^ 64 + Lo q <= wPeak w) by nia.
  assert (Hi q = 0) as E0 by lia. rewrite E0 in *. exists (Lo q).
  split; [done|]. nia.
Qed.

Lemma Average_le_peak_witness :
  exists v, Average (wArea (mkWindow (mkUint128 0 70) 40 10 9 110 true 3 0)) 10 = (v, true) /\
    0 <= v <= 9 /\ v * 10 <= val128 (mkUint128 0 70) < (v + 1) * 10.
Proof.
  apply (Average_le_peak (mkWindow (mkUint128 0 70) 40 10 9 110 true 3 0)); [|simpl; lia].
  split; unfold wf128, is_u64, val128; simpl; try lia; done.
Defined.

(** ** Counter: exact tick conversion *)

(** Read the raw counter of one source repeatedly. *)
Fixpoint Counter_run (c : Counter) (source : string) (hertz : Z) (created : bool)
    (raws : list Z) : Counter * option usage_error :=
  match raws with
  | [] => (c, None)
  | r :: raws => match Counter_Observe c source r hertz created with
                 | (c, None) => Counter_run c source hertz created raws
                 | x => x
                 end
  end.

Fixpoint nondecreasing_from (x : Z) (l : list Z) : Prop :=
  match l with [] => True | y :: l => x <= y < 2 ^ 64 /\ nondecreasing_from y l end.

Fixpoint last_from (x : Z) (l : list Z) : Z :=
  match l with [] => x | y :: l => last_from y l end.

Definition Counter_fresh (name : string) : Counter :=
  mkCounter name EmptyString (mkUint128 0 0) 0 0 0 false false EmptyString.

(** The counter after [raw] ticks of a source of [hertz] ticks per second. *)
Record counter_at (name source : string) (raw hertz : Z) (c : Counter) : Prop := {
  ca_name : cName c = name;
  ca_source : cSource c = source /\ cSourceKnown c = true;
  ca_raw : cLastRaw c = raw /\ cHertz c = hertz;
  ca_total : wf128 (cKnownTotal c) /\
             val128 (cKnownTotal c) * hertz + cRemainder c = raw * time_Second;
  ca_rem : 0 <= cRemainder c < hertz;
  ca_complete : cComplete c = true /\ cStatus c = OK }.

(** Converting a delta and a carried remainder loses nothing. *)
Lemma convert_exact total rem0 delta prev hertz :
  wf128 total -> is_u64 hertz -> 0 <= rem0 < hertz \/ rem0 = 0 -> hertz <> 0 ->
  0 <= prev -> 0 <= delta -> prev + delta < 2 ^ 64 ->
  val128 total * hertz + rem0 = prev * time_Second ->
  exists q r t, (exists x, Uint128_Add (product delta time_Second) (mkUint128 0 rem0) = Ok x /\
    Uint128_div x hertz = Ok (q, r)) /\ Uint128_Add total q = Ok t /\ wf128 t /\
    0 <= r < hertz /\ val128 t * hertz + r = (prev + delta) * time_Second.
Proof.
  intros Ht Hh Hrem Hh0 Hp Hd Hs E. unfold time_Second in *.
  destruct (product_exact delta 1000000000) as [Hpw Hpv]; [unfold is_u64; lia..|].
  assert (wf128 (mkUint128 0 rem0)) by (unfold wf128, is_u64 in *; simpl; lia).
  destruct (Uint128_Add_exact (product delta 1000000000) (mkUint128 0 rem0))
    as (x & Hx & Hxw & Hxv); [done..| |].
  { rewrite Hpv. unfold val128; simpl. unfold is_u64 in *. lia. }
  destruct (Uint128_div_exact x hertz) as (q & r & Hq & Hqw & Hr & Hqv); [done..|].
  assert (val128 (mkUint128 0 rem0) = rem0) as Er by (unfold val128; simpl; lia).
  assert ((val128 total + val128 q) * hertz + r = (prev + delta) * 1000000000) by lia.
  pose proof (val128_range _ Ht). pose proof (val128_range _ Hqw). unfold is_u64 in Hh.
  destruct (Uint128_Add_exact total q) as (t & Htq & Htw & Htv); [done..|nia|].
  exists q, r, t. rewrite Htv. eauto 10.
Qed.

Lemma Counter_Observe_next name source raw raw' hertz created c :
  is_u64 hertz -> hertz <> 0 -> source <> EmptyString -> 0 <= raw <= raw' -> raw' < 2 ^ 64 ->
  counter_at name source raw hertz c ->
  exists c', Counter_Observe c source raw' hertz created = (c', None) /\
    counter_at name source raw' hertz c'.
Proof.
  intros Hh Hh0 Hs Hr Hr' [? [HS HK] [HR HH] [? HT] ? [? ?]].
  unfold Counter_Observe, Counter_delta.
  rewrite HK, HS, HR, HH, bool_decide_false, bool_decide_true by done.
  rewrite (proj2 (Z.eqb_neq hertz 0)), Z.eqb_refl, (proj2 (Z.ltb_ge _ _)) by lia. simpl.
  rewrite u64_id by (unfold is_u64; lia).
  destruct (convert_exact (cKnownTotal c) (cRemainder c) (raw' - raw) raw hertz)
    as (q & r & t & (x & Hx & Hq) & Ht & ? & ? & E); try done; try lia.
  rewrite Hx. simpl. rewrite Hq. simpl. rewrite Ht. simpl.
  eexists; split; [done|]. split; simpl; try done. split; [done|]. lia.
Qed.

Lemma Counter_Observe_first name source raw hertz :
  is_u64 hertz -> hertz <> 0 -> source <> EmptyString -> is_u64 raw ->
  exists c', Counter_Observe (Counter_fresh name) source raw hertz true = (c', None) /\
    counter_at name source raw hertz c'.
Proof.
  intros Hh Hh0 Hs Hr. unfold Counter_Observe, Counter_delta.
  rewrite bool_decide_false by done.
  rewrite (proj2 (Z.eqb_neq hertz 0)) by lia. simpl. unfold is_u64 in Hr.
  destruct (convert_exact (mkUint128 0 0) 0 raw 0 hertz)
    as (q & r & t & (x & Hx & Hq) & Ht & ? & ? & E);
    [unfold wf128, is_u64; simpl; lia | done | by right | done | lia | lia | lia |
     unfold val128; simpl; lia |].
  rewrite Hx. simpl. rewrite Hq. simpl. rewrite Ht. simpl.
  eexists; split; [done|]. split; simpl; try done.
Qed.

(** C28 — Tick conversion does not drift.  However often a monotonic native
    counter is polled from its creation, [Counter.Observe] never fails, and the
    known total is exactly the floor of [raw * 1e9 / hertz] of the last reading,
    the fraction being carried in the remainder. *)
Theorem Counter_Observe_no_drift name source hertz raw raws :
  is_u64 hertz -> hertz <> 0 -> source <> EmptyString -> is_u64 raw ->
  nondecreasing_from raw raws ->
  exists c, Counter_run (Counter_fresh name) source hertz true (raw :: raws) = (c, None) /\
    val128 (cKnownTotal c) = last_from raw raws * time_Second / hertz /\
    cRemainder c = (last_from raw raws * time_Second) mod hertz /\ cComplete c = true.
Proof.
  intros Hh Hh0 Hs Hr Hn.
  assert (forall raws raw c, is_u64 raw -> nondecreasing_from raw raws ->
    counter_at name source raw hertz c ->
    exists c', Counter_run c source hertz true raws = (c', None) /\
      counter_at name source (last_from raw raws) hertz c') as Hrun.
  { clear dependent raw raws. induction raws as [|r raws IH]; intros raw c Hr Hn Hc; simpl.
    - eauto.
    - destruct Hn as [Hle Hn].
      destruct (Counter_Observe_next name source raw r hertz true c) as (c1 & -> & Hc1);
        try done; [unfold is_u64 in *; lia|lia|].
      destruct (IH r c1) as (c2 & -> & Hc2); try done; [unfold is_u64 in *; lia|].
      exists c2. done. }
  destruct (Counter_Observe_first name source raw hertz) as (c1 & E1 & Hc1); try done.
  destruct (Hrun raws raw c1) as (c & E2 & [? ? ? [? HT] HR [? ?]]); try done.
  exists c. simpl. rewrite E1. split; [done|].
  unfold is_u64 in Hh. assert (0 < hertz) by lia. split_and!; [| |done].
  - apply Z.div_unique with (cRemainder c); lia.
  - apply Z.mod_unique with (val128 (cKnownTotal c)); lia.
Qed.

Lemma Counter_Observe_no_drift_witness :
  exists c, Counter_run (Counter_fresh "cpu") "vcpu0" 3 true [1; 2; 5] = (c, None) /\
    val128 (cKnownTotal c) = 1666666666 /\ cRemainder c = 2 /\ cComplete c = true.
Proof.
  apply (Counter_Observe_no_drift "cpu" "vcpu0" 3 1 [2; 5]);
    unfold is_u64; simpl; try done; lia.
Defined.

(** A regression or a scale change on the same native source is refused
    and marks the counter incomplete, without touching the accumulated total,
    the last reading or the remainder. *)
Theorem Counter_Observe_regression c source raw hertz created :
  source <> EmptyString -> hertz <> 0 -> cSourceKnown c = true -> cSource c = source ->
  hertz <> cHertz c \/ raw < cLastRaw c ->
  exists c', Counter_Observe c source raw hertz created = (c', Some ErrCounterRegression) /\
    cKnownTotal c' = cKnownTotal c /\ cLastRaw c' = cLastRaw c /\
    cRemainder c' = cRemainder c /\ cHertz c' = cHertz c /\
    cComplete c' = false /\ cStatus c' = Invalid.
Proof.
  intros Hs Hh HK HS Hbad. unfold Counter_Observe.
  rewrite HK, bool_decide_false, bool_decide_true, (proj2 (Z.eqb_neq hertz 0)) by done. simpl.
  assert (negb (hertz =? cHertz c) || (raw <? cLastRaw c) = true) as ->.
  { apply orb_true_iff. rewrite negb_true_iff, Z.eqb_neq, Z.ltb_lt. naive_solver. }
  eexists; split; [done|]. done.
Qed.

Lemma Counter_Observe_regression_witness :
  exists c', Counter_Observe (mkCounter "cpu" "v" (mkUint128 0 9) 5 100 0 true true OK)
               "v" 4 100 false = (c', Some ErrCounterRegression) /\
    cKnownTotal c' = mkUint128 0 9 /\ cLastRaw c' = 5 /\ cRemainder c' = 0 /\
    cHertz c' = 100 /\ cComplete c' = false /\ cStatus c' = Invalid.
Proof.
  apply (Counter_Observe_regression (mkCounter "cpu" "v" (mkUint128 0 9) 5 100 0 true true OK)
    "v" 4 100 false); simpl; try done. right; lia.
Defined.

(** ** Derived values *)

(** C29 — [memoryUsed] never wraps: it succeeds exactly when the non-free pages
    of a supported page unit, in bytes, fit in 64 bits and cover the balloon,
    and then it returns the exact difference. *)
Theorem memoryUsed_exact d p b c size balloon v :
  d <> EmptyString -> is_u64 p -> is_u64 b -> is_u64 c -> is_u64 size -> is_u64 balloon ->
  memoryUsed (mkUsageMemory OK d (Some p) (Some b) (Some c) (Some size)) balloon = Ok v <->
  4096 <= size <= 65536 /\ Z.land size (size - 1) = 0 /\
  0 <= p - b - c /\ (p - b - c) * size < 2 ^ 64 /\
  v = (p - b - c) * size - balloon /\ 0 <= v.
Proof.
  intros Hd Hp Hb Hc Hs Hbal. unfold memoryUsed. cbn [umStatus umDomain umPresentPages
    umBuddyFreePages umPCPFreePages umPageSize].
  rewrite bool_decide_true, bool_decide_false by done. cbn [negb orb].
  unfold is_u64 in *.
  destruct (_ || _ || _) eqn:E1; bool_prop.
  { split; [done|]. intros (? & Hl & _). destruct E1 as [E1|E1]; bool_prop; [|done].
    destruct E1; bool_prop; lia. }
  destruct ((p <? b) || _) eqn:E2; bool_prop.
  { split; [done|]. destruct E2 as [E2|E2]; bool_prop; [lia|].
    destruct (Z_lt_le_dec p b); [lia|]. rewrite u64_id in E2 by (unfold is_u64; lia). lia. }
  rewrite !(u64_id (p - b)) in * by (unfold is_u64; lia).
  rewrite (u64_id (p - b - c)) by (unfold is_u64; lia).
  destruct (_ <? _) eqn:E3; bool_prop.
  { split; [done|]. unfold u64_max in E3. intros. exfalso.
    assert (p - b - c <= (2 ^ 64 - 1) / size); [|lia]. apply Z.div_le_lower_bound; lia. }
  assert ((p - b - c) * size < 2 ^ 64).
  { unfold u64_max in E3. pose proof (Z.mul_div_le (2 ^ 64 - 1) size ltac:(lia)). nia. }
  rewrite !(u64_id ((p - b - c) * size)) by (unfold is_u64; nia).
  destruct (_ <? balloon) eqn:E4; bool_prop; [split; [done|lia]|].
  rewrite u64_id by (unfold is_u64; lia). split; [naive_solver lia|].
  intros (? & ? & ? & ? & -> & ?). done.
Qed.

Lemma memoryUsed_exact_witness :
  memoryUsed (mkUsageMemory OK "root" (Some 100) (Some 30) (Some 10) (Some 4096)) 4096
    = Ok 241664 <->
  4096 <= 4096 <= 65536 /\ Z.land 4096 (4096 - 1) = 0 /\
  0 <= 100 - 30 - 10 /\ (100 - 30 - 10) * 4096 < 2 ^ 64 /\
  241664 = (100 - 30 - 10) * 4096 - 4096 /\ 0 <= 241664.
Proof. apply (memoryUsed_exact "root" 100 30 10 4096 4096 241664); unfold is_u64; try done; lia. Defined.
