(* ===== verification/Mux.v ===== *)
(** * Mux: the stdio multiplexer (src/pkg/mux) over one connection.

    The frame codec (frame.go with internal/wireio), the per-stream state and
    its operations (stream.go), and the session that dispatches frames and owns
    the close handshake (session.go).

    A Go method that runs under a mutex is one function on the record the mutex
    guards.  A method that releases the lock and writes a frame afterwards is
    split where the lock is released ([Stream_Read] yields the WINDOW_UPDATE it
    owes, [acquireUpTo] only takes credit), so that callers, and the link of
    MuxLink.v, can interleave at the points where goroutines can.  Waiting on a
    condition variable is the explicit outcome [Blocked].  The transport decides
    each write: an argument of type [option mux_error] is the error the
    connection returns, or [None] when it takes the whole frame. *)
From stdpp Require Import base numbers list gmap.
From Stdlib Require Import ZArith Lia.
From S2P Require Import Prelude.

(** ** frame.go *)

Definition FrameHeaderLen : nat := 4.
Definition MaxFramePayload : Z := 65535.
Definition DataChunk : Z := 32 * 1024.
Definition DefaultWindow : Z := 64 * 1024.

Definition StreamControl : Z := 0.
Definition StreamStdin : Z := 1.
Definition StreamStdout : Z := 2.
Definition StreamStderr : Z := 3.
Definition StreamPTY : Z := 4.

Definition FrameData : Z := 0.
Definition FrameEOF : Z := 1.
Definition FrameReset : Z := 2.
Definition FrameWindowUpdate : Z := 3.
Definition FrameSetWinsize : Z := 4.
Definition FrameMuxClose : Z := 5.
Definition FrameMuxCloseAck : Z := 6.
Definition FrameExitStatus : Z := 7.

Record Frame := mkFrame { fStream : Z; fType : Z; fPayload : list Z }.

Inductive mux_error :=
| ErrFrameTooLarge
| ErrStreamReset
| ErrClosed
| ErrProtocol
| IoEOF
| IoUnexpectedEOF
| ReadPayload (e : mux_error)   (* mux: read payload: %w *)
| ErrTransport.                 (* any other error of the connection *)

#[global] Instance mux_error_eq_dec : EqDecision mux_error.
Proof. solve_decision. Defined.

(** internal/wireio.WriteAll against a writer that answers each call with the
    count it took and an error; [ws] are the answers, in order. *)
Inductive wire_error := ErrShortWrite | WriterError.

Fixpoint WriteAll (ws : list (Z * bool)) (p : list Z) : list Z * option wire_error :=
  match p with
  | [] => ([], None)
  | _ :: _ =>
      match ws with
      | [] => ([], Some WriterError)
      | (n, fails) :: ws =>
          if fails then (take (Z.to_nat n) p, Some WriterError)
          else if (n <? 0) || (Z.of_nat (length p) <? n) then ([], Some ErrShortWrite)
          else if n =? 0 then ([], Some ErrShortWrite)
          else let '(out, e) := WriteAll ws (drop (Z.to_nat n) p) in
               (take (Z.to_nat n) p ++ out, e)
      end
  end.

(** The bytes [WriteFrame] hands to the writer. *)
Definition WriteFrame (f : Frame) : res mux_error (list Z) :=
  if MaxFramePayload <? Z.of_nat (length (fPayload f)) then Err ErrFrameTooLarge
  else Ok ([fStream f; fType f] ++ be_bytes 2 (Z.of_nat (length (fPayload f)))
           ++ fPayload f).

(** io.ReadFull: EOF only when nothing was read. *)
Definition ReadFull (n : nat) (r : list Z) : res mux_error (list Z * list Z) :=
  if decide (n <= length r)%nat then Ok (take n r, drop n r)
  else if decide (r = []) then Err IoEOF else Err IoUnexpectedEOF.

Definition ReadFrame (r : list Z) : res mux_error (Frame * list Z) :=
  let* (hdr, r) := ReadFull FrameHeaderLen r in
  match hdr with
  | [s; t; h; l] =>
      let n := Z.to_nat (be_val [h; l]) in
      if decide (n = 0)%nat then Ok (mkFrame s t [], r)
      else match ReadFull n r with
           | Ok (payload, r) => Ok (mkFrame s t payload, r)
           | Err e => Err (ReadPayload e)
           end
  | _ => Err IoUnexpectedEOF
  end.

Definition encodeWinsize (cols rows : Z) : list Z := be_bytes 2 cols ++ be_bytes 2 rows.
Definition decodeWinsize (p : list Z) : option (Z * Z) :=
  if decide (length p = 4%nat) then Some (be_val (take 2 p), be_val (drop 2 p)) else None.
Definition encodeUint32 (v : Z) : list Z := be_bytes 4 v.
Definition decodeUint32 (p : list Z) : option Z :=
  if decide (length p = 4%nat) then Some (be_val p) else None.

Definition isDataStream (s : Z) : bool :=
  (s =? StreamStdin) || (s =? StreamStdout) || (s =? StreamStderr) || (s =? StreamPTY).

(** ** stream.go *)

Record Stream := mkStream {
  st_id : Z; st_window : Z;
  buf : list Z; rEOF : bool; rReset : bool; consumed : Z;
  credit : Z; wClosed : bool; wReset : bool; dead : bool }.

Definition newStream (id window : Z) : Stream :=
  mkStream id window [] false false 0 window false false false.

Definition deliver (st : Stream) (p : list Z) : Stream * option mux_error :=
  if rEOF st || rReset st then (st, Some ErrProtocol)
  else if st_window st <? Z.of_nat (length (buf st)) + Z.of_nat (length p)
  then (st, Some ErrProtocol)
  else (mkStream (st_id st) (st_window st) (buf st ++ p) (rEOF st) (rReset st)
          (consumed st) (credit st) (wClosed st) (wReset st) (dead st), None).

Definition deliverEOF (st : Stream) : Stream :=
  mkStream (st_id st) (st_window st) (buf st) true (rReset st) (consumed st)
    (credit st) (wClosed st) (wReset st) (dead st).
Definition deliverReset (st : Stream) : Stream :=
  mkStream (st_id st) (st_window st) (buf st) (rEOF st) true (consumed st)
    (credit st) (wClosed st) true (dead st).
Definition addCredit (st : Stream) (delta : Z) : Stream :=
  mkStream (st_id st) (st_window st) (buf st) (rEOF st) (rReset st) (consumed st)
    (credit st + delta) (wClosed st) (wReset st) (dead st).
Definition shutdown (st : Stream) : Stream :=
  mkStream (st_id st) (st_window st) (buf st) (rEOF st) (rReset st) (consumed st)
    (credit st) (wClosed st) (wReset st) true.

(** One pass of [Read]'s wait loop, then the drain.  [n] is [len(p)]; the last
    component of [RData] is the WINDOW_UPDATE owed ([0] for none). *)
Inductive read_outcome :=
| RBlocked
| RErr (e : mux_error)
| RData (bytes : list Z) (update : Z).

Definition Stream_Read (st : Stream) (n : nat) : Stream * read_outcome :=
  if decide (buf st = []) then
    (st, if rReset st then RErr ErrStreamReset
         else if rEOF st then RErr IoEOF
         else if dead st then RErr ErrClosed else RBlocked)
  else
    let p := take n (buf st) in
    let consumed' := consumed st + Z.of_nat (length p) in
    let '(consumed', update) :=
      if st_window st / 2 <=? consumed' then (0, consumed') else (consumed', 0) in
    (mkStream (st_id st) (st_window st) (drop n (buf st)) (rEOF st) (rReset st)
       consumed' (credit st) (wClosed st) (wReset st) (dead st), RData p update).

(** One pass of [acquireUpTo]'s wait loop; [refuse] is [s.refuseWrites()]. *)
Inductive acquire_outcome :=
| ABlocked
| AErr (e : mux_error)
| ACredit (n : Z).

Definition acquireUpTo (st : Stream) (refuse : bool) (want : Z) : Stream * acquire_outcome :=
  if credit st <=? 0 then
    (st, if wReset st then AErr ErrStreamReset
         else if wClosed st then AErr ErrClosed
         else if dead st then AErr ErrClosed
         else if refuse then AErr ErrClosed else ABlocked)
  else
    let n := if want <? credit st then want else credit st in
    (mkStream (st_id st) (st_window st) (buf st) (rEOF st) (rReset st) (consumed st)
       (credit st - n) (wClosed st) (wReset st) (dead st), ACredit n).

(** The state change of [CloseWrite] and [Reset] (here [Stream_Reset]) under the stream mutex; the
    flag says whether the frame still has to be written. *)
Definition CloseWrite (st : Stream) : Stream * bool :=
  if wClosed st || wReset st then (st, false)
  else (mkStream (st_id st) (st_window st) (buf st) (rEOF st) (rReset st) (consumed st)
          (credit st) true (wReset st) (dead st), true).
Definition Stream_Reset (st : Stream) : Stream * bool :=
  if wReset st then (st, false)
  else (mkStream (st_id st) (st_window st) (buf st) (rEOF st) true (consumed st)
          (credit st) (wClosed st) true (dead st), true).

(** ** session.go *)

(** [StreamSet]: a map from the negotiated stream IDs. *)
Definition PipeStreams (stdin stdout stderr : bool) : gset Z :=
  (if stdin then {[StreamStdin]} else ∅) ∪ (if stdout then {[StreamStdout]} else ∅)
  ∪ (if stderr then {[StreamStderr]} else ∅).
Definition PTYStreams : gset Z := {[StreamPTY]}.

Record Session := mkSession {
  window : Z;
  connClosed : bool;                (* s.conn.Close has been called *)
  wire : list Frame;                (* complete frames written to the conn, in order *)
  sealed : bool;
  retired : bool;
  streams : gmap Z Stream;
  closeInitiated : bool;
  closeAcked : bool;
  peerClosed : bool;
  respClosed : bool;
  winsizes : list (Z * Z);          (* calls of onSetWinsize *)
  exitStatus : option Z;            (* exitCode, once exitRecv *)
  done_ : bool;                     (* doneCh closed: the read loop has exited *)
  serr : option mux_error }.

Definition NewSession (set : gset Z) (w : Z) : Session :=
  let w := if w <=? 0 then DefaultWindow else w in
  mkSession w false [] false false
    (set_to_map (fun id => (id, newStream id w)) set)
    false false false false [] None false None.

(** Field updates. *)
Definition upd_streams (f : gmap Z Stream -> gmap Z Stream) (s : Session) : Session :=
  mkSession (window s) (connClosed s) (wire s) (sealed s) (retired s) (f (streams s))
    (closeInitiated s) (closeAcked s) (peerClosed s) (respClosed s) (winsizes s)
    (exitStatus s) (done_ s) (serr s).
Definition set_sealed (s : Session) : Session :=
  mkSession (window s) (connClosed s) (wire s) true (retired s) (streams s)
    (closeInitiated s) (closeAcked s) (peerClosed s) (respClosed s) (winsizes s)
    (exitStatus s) (done_ s) (serr s).
Definition push_wire (f : Frame) (s : Session) : Session :=
  mkSession (window s) (connClosed s) (wire s ++ [f]) (sealed s) (retired s) (streams s)
    (closeInitiated s) (closeAcked s) (peerClosed s) (respClosed s) (winsizes s)
    (exitStatus s) (done_ s) (serr s).

(** [setErr] keeps the first error (errOnce). *)
Definition setErr (e : mux_error) (s : Session) : Session :=
  mkSession (window s) (connClosed s) (wire s) (sealed s) (retired s) (streams s)
    (closeInitiated s) (closeAcked s) (peerClosed s) (respClosed s) (winsizes s)
    (exitStatus s) (done_ s) (match serr s with None => Some e | x => x end).

(** [Session.Close]: retire, then close the transport. *)
Definition Session_Close (s : Session) : Session :=
  mkSession (window s) true (wire s) (sealed s) true (streams s)
    (closeInitiated s) (closeAcked s) (peerClosed s) (respClosed s) (winsizes s)
    (exitStatus s) (done_ s) (serr s).

Definition set_closeInitiated (s : Session) : Session :=
  mkSession (window s) (connClosed s) (wire s) (sealed s) (retired s) (streams s)
    true (closeAcked s) (peerClosed s) (respClosed s) (winsizes s)
    (exitStatus s) (done_ s) (serr s).
Definition set_closeAcked (s : Session) : Session :=
  mkSession (window s) (connClosed s) (wire s) (sealed s) (retired s) (streams s)
    (closeInitiated s) true (peerClosed s) (respClosed s) (winsizes s)
    (exitStatus s) (done_ s) (serr s).
Definition set_peerClosed (s : Session) : Session :=
  mkSession (window s) (connClosed s) (wire s) (sealed s) (retired s) (streams s)
    (closeInitiated s) (closeAcked s) true true (winsizes s)
    (exitStatus s) (done_ s) (serr s).
Definition push_winsize (c : Z * Z) (s : Session) : Session :=
  mkSession (window s) (connClosed s) (wire s) (sealed s) (retired s) (streams s)
    (closeInitiated s) (closeAcked s) (peerClosed s) (respClosed s) (winsizes s ++ [c])
    (exitStatus s) (done_ s) (serr s).
(** [int32(code)] of a received 32-bit word. *)
Definition to_i32 (v : Z) : Z := if v <? 2 ^ 31 then v else v - 2 ^ 32.
Definition set_exit (code : Z) (s : Session) : Session :=
  mkSession (window s) (connClosed s) (wire s) (sealed s) (retired s) (streams s)
    (closeInitiated s) (closeAcked s) (peerClosed s) (respClosed s) (winsizes s)
    (match exitStatus s with None => Some code | x => x end) (done_ s) (serr s).

Definition refuseWrites (s : Session) : bool := closeInitiated s.

(** [writeFrame]; [w] is what the transport answers if it is reached.  A write
    on a closed connection fails whatever [w] is. *)
Definition writeFrame (s : Session) (f : Frame) (w : option mux_error)
    : Session * option mux_error :=
  if retired s || (sealed s && negb (fType f =? FrameMuxCloseAck)) then (s, Some ErrClosed)
  else if (fType f =? FrameData) && refuseWrites s then (s, Some ErrClosed)
  else
    let s := if (fType f =? FrameMuxClose) || (fType f =? FrameMuxCloseAck)
             then set_sealed s else s in
    match WriteFrame f with
    | Err e => (s, Some e)
    | Ok _ =>
        match (if connClosed s then Some (default ErrTransport w) else w) with
        | None => (push_wire f s, None)
        | Some e => (Session_Close (setErr e s), Some e)
        end
    end.

(** [writeData] run without interference: split at [DataChunk] and at the
    available credit, until the buffer is written, an error occurs, or the
    stream has no credit left.  [ws] are the transport's answers; every
    iteration writes at least one byte, so the length of the buffer is enough
    fuel ([writeData_flow_control] below). *)
Inductive write_outcome := WDone | WErr (e : mux_error) | WBlocked | WFuel.

Fixpoint writeData (fuel : nat) (s : Session) (id : Z) (b : list Z)
    (ws : list (option mux_error)) (total : Z) : Session * Z * write_outcome :=
  match b, fuel with
  | [], _ => (s, total, WDone)
  | _ :: _, O => (s, total, WFuel)
  | _ :: _, S fuel =>
      match streams s !! id with
      | None => (s, total, WErr ErrProtocol)
      | Some st =>
          let len := Z.of_nat (length b) in
          let want := if DataChunk <? len then DataChunk else len in
          match acquireUpTo st (refuseWrites s) want with
          | (_, ABlocked) => (s, total, WBlocked)
          | (_, AErr e) => (s, total, WErr e)
          | (st, ACredit n) =>
              let s := upd_streams (<[id := st]>) s in
              match writeFrame s (mkFrame id FrameData (take (Z.to_nat n) b))
                      (default None (head ws)) with
              | (s, Some e) => (s, total, WErr e)
              | (s, None) => writeData fuel s id (drop (Z.to_nat n) b) (tail ws) (total + n)
              end
          end
      end
  end.

(** [Stream.Write]. *)
Definition Stream_Write (s : Session) (id : Z) (b : list Z) (ws : list (option mux_error))
    : Session * Z * write_outcome :=
  match streams s !! id with
  | None => (s, 0, WErr ErrProtocol)
  | Some st =>
      if wClosed st || wReset st || dead st then (s, 0, WErr ErrClosed)
      else if refuseWrites s then (s, 0, WErr ErrClosed)
      else writeData (length b) s id b ws 0
  end.

(** [dispatch]; [w] is the transport's answer to the acknowledgement write. *)
Definition dispatch (s : Session) (f : Frame) (w : option mux_error)
    : Session * option mux_error :=
  let t := fType f in
  if (t =? FrameData) || (t =? FrameEOF) || (t =? FrameReset) then
    if negb (isDataStream (fStream f)) then (s, Some ErrProtocol) else
    match streams s !! fStream f with
    | None => (s, Some ErrProtocol)
    | Some st =>
        if t =? FrameData then
          let '(st, e) := deliver st (fPayload f) in
          (upd_streams (<[fStream f := st]>) s, e)
        else if t =? FrameEOF then
          (upd_streams (<[fStream f := deliverEOF st]>) s, None)
        else (upd_streams (<[fStream f := deliverReset st]>) s, None)
    end
  else if t =? FrameWindowUpdate then
    if negb (isDataStream (fStream f)) then (s, Some ErrProtocol) else
    match streams s !! fStream f with
    | None => (s, Some ErrProtocol)
    | Some st =>
        match decodeUint32 (fPayload f) with
        | None => (s, Some ErrProtocol)
        | Some delta => (upd_streams (<[fStream f := addCredit st delta]>) s, None)
        end
    end
  else if t =? FrameSetWinsize then
    if negb (fStream f =? StreamControl) then (s, Some ErrProtocol) else
    match decodeWinsize (fPayload f) with
    | None => (s, Some ErrProtocol)
    | Some cr => (push_winsize cr s, None)
    end
  else if t =? FrameMuxClose then
    if negb (fStream f =? StreamControl) then (s, Some ErrProtocol) else
    let s := set_peerClosed s in
    match writeFrame s (mkFrame StreamControl FrameMuxCloseAck []) w with
    | (s, Some e) => (s, Some e)
    | (s, None) => (Session_Close s, None)
    end
  else if t =? FrameMuxCloseAck then
    if negb (fStream f =? StreamControl) then (s, Some ErrProtocol) else
    (set_closeAcked s, None)
  else if t =? FrameExitStatus then
    if negb (fStream f =? StreamControl) then (s, Some ErrProtocol) else
    match decodeUint32 (fPayload f) with
    | None => (s, Some ErrProtocol)
    | Some code => (set_exit (to_i32 code) s, None)
    end
  else (s, Some ErrProtocol).

(** The deferred part of [readLoop]: retire, wake every stream and every
    graceful-close waiter, then close [doneCh]. *)
Definition readLoop_exit (s : Session) : Session :=
  mkSession (window s) (connClosed s) (wire s) (sealed s) true (shutdown <$> streams s)
    (closeInitiated s) true (peerClosed s) (respClosed s) (winsizes s)
    (exitStatus s) true (serr s).

(** One iteration of [readLoop] on what [ReadFrame] returned; the flag says
    whether the loop goes on. *)
Definition readLoop_step (s : Session) (r : res mux_error Frame) (w : option mux_error)
    : Session * bool :=
  match r with
  | Err e =>
      let s := Session_Close s in
      let s := if negb (bool_decide (e = IoEOF)) && negb (respClosed s) then setErr e s else s in
      (readLoop_exit s, false)
  | Ok f =>
      match dispatch s f w with
      | (s, Some e) => (readLoop_exit (Session_Close (setErr e s)), false)
      | (s, None) =>
          if fType f =? FrameMuxClose then (readLoop_exit s, false)
          else if (fType f =? FrameMuxCloseAck) && closeInitiated s
          then (readLoop_exit s, false)
          else (s, true)
      end
  end.

(** The part of [InitMuxClose] before it waits for the acknowledgement; a
    second call only waits. *)
Definition InitMuxClose (s : Session) (w : option mux_error) : Session * option mux_error :=
  if closeInitiated s then (s, None)
  else writeFrame (set_closeInitiated s) (mkFrame StreamControl FrameMuxClose []) w.

Definition SetWinsize (s : Session) (cols rows : Z) (w : option mux_error)
    : Session * option mux_error :=
  writeFrame s (mkFrame StreamControl FrameSetWinsize (encodeWinsize cols rows)) w.
(** [uint32(int32(code))] of a Go int. *)
Definition u32 (x : Z) : Z := x mod 2 ^ 32.
Definition SendExitStatus (s : Session) (code : Z) (w : option mux_error)
    : Session * option mux_error :=
  writeFrame s (mkFrame StreamControl FrameExitStatus (encodeUint32 (u32 code))) w.

(** ** The frame codec *)

Definition frame_ok (f : Frame) : Prop :=
  is_byte (fStream f) /\ is_byte (fType f) /\ bytes_ok (fPayload f) /\
  Z.of_nat (length (fPayload f)) <= MaxFramePayload.

Lemma ReadFull_app l r : ReadFull (length l) (l ++ r) = Ok (l, r).
Proof.
  unfold ReadFull. rewrite decide_True by (rewrite length_app; lia).
  by rewrite take_app_length, drop_app_length.
Qed.

Lemma ReadFull_short n r : (length r < n)%nat -> exists e, ReadFull n r = Err e.
Proof. intros. unfold ReadFull. rewrite decide_False by lia. case_decide; eauto. Qed.

(** A header and what follows it. *)
Lemma ReadFrame_header s t h l r :
  ReadFrame ([s; t; h; l] ++ r) =
    let n := Z.to_nat (be_val [h; l]) in
    if decide (n = 0)%nat then Ok (mkFrame s t [], r)
    else match ReadFull n r with
         | Ok (payload, r) => Ok (mkFrame s t payload, r)
         | Err e => Err (ReadPayload e)
         end.
Proof.
  unfold ReadFrame. change FrameHeaderLen with (length [s; t; h; l]).
  by rewrite ReadFull_app.
Qed.

Lemma be_bytes_2 n : exists h l, be_bytes 2 n = [h; l].
Proof. unfold be_bytes. simpl. eauto. Qed.

(** C30 — Frame round trip: what [WriteFrame] writes for a frame within the wire
    cap, [ReadFrame] reads back unchanged, leaving exactly the bytes behind it. *)
Theorem ReadFrame_WriteFrame f rest :
  frame_ok f -> exists bs, WriteFrame f = Ok bs /\ ReadFrame (bs ++ rest) = Ok (f, rest).
Proof.
  intros (Hs & Ht & Hp & Hl). unfold WriteFrame, MaxFramePayload in *.
  rewrite (proj2 (Z.ltb_ge _ _)) by lia. eexists; split; [done|].
  destruct (be_bytes_2 (Z.of_nat (length (fPayload f)))) as (h & l & E).
  pose proof (be_val_bytes 2 (Z.of_nat (length (fPayload f))) ltac:(simpl; lia)) as Ev.
  rewrite E in *. rewrite <- !app_assoc.
  change ([fStream f; fType f] ++ [h; l] ++ fPayload f ++ rest)
    with ([fStream f; fType f; h; l] ++ (fPayload f ++ rest)).
  rewrite ReadFrame_header. rewrite Ev, Nat2Z.id. cbn zeta.
  destruct f as [sid ty p]; simpl in *. case_decide as Hz.
  - by apply nil_length_inv in Hz as ->.
  - by rewrite ReadFull_app.
Qed.

Lemma ReadFrame_WriteFrame_witness :
  exists bs, WriteFrame (mkFrame 2 0 [104; 105]) = Ok bs /\
    ReadFrame (bs ++ [9]) = Ok (mkFrame 2 0 [104; 105], [9]).
Proof.
  apply (ReadFrame_WriteFrame (mkFrame 2 0 [104; 105]) [9]).
  unfold frame_ok, is_byte, MaxFramePayload; simpl. split_and!; try lia. solve_bytes.
Defined.

(** A truncated frame is never accepted: [ReadFrame] on any strict prefix
    of an encoded frame reports an error (a clean EOF only for the empty one). *)
Theorem ReadFrame_truncated f bs pre :
  frame_ok f -> WriteFrame f = Ok bs -> pre `prefix_of` bs -> pre <> bs ->
  exists e, ReadFrame pre = Err e /\ (e = IoEOF <-> pre = []).
Proof.
  intros Hf E [suf ->] Hne. assert (suf <> []) by (intros ->; by rewrite app_nil_r in Hne).
  unfold WriteFrame in E. destruct (_ <? _) eqn:Hlen; [done|]. bool_prop.
  destruct (be_bytes_2 (Z.of_nat (length (fPayload f)))) as (h & l & Eb).
  rewrite Eb in E. injection E as E. simpl in E.
  pose proof (be_val_bytes 2 (Z.of_nat (length (fPayload f)))
    ltac:(unfold MaxFramePayload in *; simpl; lia)) as Ev.
  rewrite Eb in Ev.
  destruct (decide (4 <= length pre)%nat) as [H4|H4].
  - destruct pre as [|a [|b [|c [|d pre]]]]; simpl in H4; try lia.
    simpl in E. injection E as <- <- <- <- Ep.
    change (?a :: ?b :: h :: l :: pre) with ([a; b; h; l] ++ pre).
    rewrite ReadFrame_header, Ev, Nat2Z.id. cbn zeta.
    assert (length (fPayload f) = length pre + length suf)%nat as Hl
      by (rewrite Ep, length_app; lia).
    assert (length suf <> 0%nat) by (by destruct suf).
    rewrite decide_False by lia.
    destruct (ReadFull_short (length (fPayload f)) pre) as [e ->]; [lia|].
    exists (ReadPayload e). split; [done|]. split; done.
  - unfold ReadFrame, ReadFull, FrameHeaderLen. rewrite decide_False by lia.
    case_decide as Hz; subst; simpl; (eexists; split; [done|]); by split.
Qed.

Lemma ReadFrame_truncated_witness :
  exists e, ReadFrame [1; 0; 0; 2; 7] = Err e /\ (e = IoEOF <-> [1; 0; 0; 2; 7] = []).
Proof.
  apply (ReadFrame_truncated (mkFrame 1 0 [7; 8]) [1; 0; 0; 2; 7; 8] [1; 0; 0; 2; 7]).
  - unfold frame_ok, is_byte, MaxFramePayload; simpl. split_and!; try lia. solve_bytes.
  - reflexivity.
  - by exists [8].
  - done.
Defined.

(** ** Writing data under flow control *)

(** The bytes of the DATA frames of one stream, in wire order. *)
Definition data_bytes (id : Z) (l : list Frame) : list Z :=
  concat ((fun f => if (fType f =? FrameData) && (fStream f =? id)
                    then fPayload f else []) <$> l).

Lemma data_bytes_app id l1 l2 : data_bytes id (l1 ++ l2) = data_bytes id l1 ++ data_bytes id l2.
Proof. unfold data_bytes. by rewrite fmap_app, concat_app. Qed.
Lemma data_bytes_data id p : data_bytes id [mkFrame id FrameData p] = p.
Proof. unfold data_bytes. simpl. rewrite Z.eqb_refl. simpl. apply app_nil_r. Qed.

(** A session on which an ordinary frame is accepted. *)
Definition open_for_data (s : Session) : Prop :=
  retired s = false /\ sealed s = false /\ closeInitiated s = false /\ connClosed s = false.

Lemma writeFrame_data_ok s id p :
  open_for_data s -> Z.of_nat (length p) <= MaxFramePayload ->
  writeFrame s (mkFrame id FrameData p) None = (push_wire (mkFrame id FrameData p) s, None).
Proof.
  intros (Hr & Hse & Hc & Hcc) Hl. unfold writeFrame, refuseWrites, WriteFrame.
  rewrite Hr, Hse, Hc. simpl. rewrite (proj2 (Z.ltb_ge _ _)) by done. simpl. by rewrite Hcc.
Qed.

Lemma acquireUpTo_credit st refuse want :
  0 < credit st -> 0 < want ->
  exists st', acquireUpTo st refuse want = (st', ACredit (Z.min want (credit st))) /\
    credit st' = credit st - Z.min want (credit st) /\
    st' = mkStream (st_id st) (st_window st) (buf st) (rEOF st) (rReset st) (consumed st)
       (credit st - Z.min want (credit st)) (wClosed st) (wReset st) (dead st).
Proof.
  intros. unfold acquireUpTo. rewrite (proj2 (Z.leb_gt _ _)) by done.
  assert ((if want <? credit st then want else credit st) = Z.min want (credit st)) as ->.
  { split_ifs; bool_prop; lia. }
  eauto.
Qed.

(** What a write leaves: the bytes [p] appended to the stream's data in frames
    of at most [DataChunk], and the credit [c]. *)
Record wrote (s s' : Session) (id : Z) (p : list Z) (c : Z) : Prop := {
  wrote_data : data_bytes id (wire s') = data_bytes id (wire s) ++ p;
  wrote_frames : exists fs, wire s' = wire s ++ fs /\
    Forall (fun f => Z.of_nat (length (fPayload f)) <= DataChunk) fs;
  wrote_credit : exists st', streams s' !! id = Some st' /\ credit st' = c }.

Lemma wrote_nil s id st : streams s !! id = Some st -> wrote s s id [] (credit st).
Proof.
  split; [by rewrite app_nil_r|exists []; by rewrite app_nil_r|eauto].
Qed.

Lemma wrote_cons s s' id st p q c :
  Z.of_nat (length p) <= DataChunk ->
  wrote (push_wire (mkFrame id FrameData p) (upd_streams (<[id:=st]>) s)) s' id q c ->
  wrote s s' id (p ++ q) c.
Proof.
  intros Hp [Hd (fs & Hf & Hfs) Hc]. simpl in *. split; [|clear Hd|done].
  - by rewrite Hd, data_bytes_app, data_bytes_data, app_assoc.
  - exists (mkFrame id FrameData p :: fs). split; [by rewrite Hf, <- app_assoc|by constructor].
Qed.


Definition session0 : Session := NewSession (PipeStreams true true false) 8.


(** ** The close barrier *)

Definition terminal (f : Frame) : Prop := fType f = FrameMuxClose \/ fType f = FrameMuxCloseAck.

(** Everything written before the terminal frame is ordinary, and only
    acknowledgements can follow it; without the seal there is no terminal frame. *)
Definition wire_ok (s : Session) : Prop :=
  exists pre post, wire s = pre ++ post /\ Forall (fun f => ~ terminal f) pre /\
    (post = [] \/ exists f acks, post = f :: acks /\ terminal f /\
       Forall (fun g => fType g = FrameMuxCloseAck) acks) /\
    (sealed s = false -> post = []).

Lemma writeFrame_wire s f w :
  let '(s', e) := writeFrame s f w in
  (wire s' = wire s /\ (sealed s = true -> sealed s' = true)) \/
  (e = None /\ wire s' = wire s ++ [f] /\ retired s = false /\
   (sealed s = false \/ fType f = FrameMuxCloseAck) /\
   (terminal f -> sealed s' = true) /\ (~ terminal f -> sealed s' = sealed s)).
Proof.
  unfold writeFrame, terminal. destruct (retired s) eqn:Hr; simpl; [by left|].
  destruct (sealed s && _) eqn:Hs; [by left|].
  destruct ((fType f =? FrameData) && _); [by left|].
  set (s1 := if (fType f =? FrameMuxClose) || (fType f =? FrameMuxCloseAck)
             then set_sealed s else s).
  assert (wire s1 = wire s /\ (sealed s = true -> sealed s1 = true)) as [Hw1 Hs1].
  { unfold s1. by destruct (_ || _). }
  destruct (WriteFrame f); [|by left].
  destruct (if connClosed s1 then Some (default ErrTransport w) else w) as [e|]; [left; simpl; by rewrite Hw1|].
  right. simpl. rewrite Hw1. split_and!; try done.
  - apply andb_false_iff in Hs as [?|Hs]; [by left|right]. by bool_prop.
  - unfold s1. by intros [->| ->].
  - intros Hn. unfold s1. destruct (_ || _) eqn:E; [|done]. bool_prop.
    destruct E; bool_prop; tauto.
Qed.

(** C32 — The close barrier: after MUX_CLOSE or MUX_CLOSE_ACK no ordinary frame
    reaches the connection, from any interleaving of operations on the session;
    every operation that writes goes through [writeFrame], which preserves it,
    and a retired session writes nothing at all. *)
Theorem writeFrame_barrier s f w :
  wire_ok s ->
  wire_ok (fst (writeFrame s f w)) /\
  (retired s = true -> writeFrame s f w = (s, Some ErrClosed)).
Proof.
  intros (pre & post & Hw & Hpre & Hpost & Hse). split.
  2:{ intros Hr. unfold writeFrame. by rewrite Hr. }
  pose proof (writeFrame_wire s f w) as H. destruct (writeFrame s f w) as [s' e]. simpl.
  destruct H as [[Hw' Hs']|(-> & Hw' & Hr & Hor & Ht & Hnt)].
  { exists pre, post. rewrite Hw'. split_and!; auto. intros Hf.
    destruct (sealed s); [by rewrite Hs' in Hf|auto]. }
  destruct (decide (fType f = FrameMuxClose \/ fType f = FrameMuxCloseAck)) as [Hterm|Hterm].
  - exists pre, (post ++ [f]). rewrite Hw', Hw, app_assoc. split_and!; auto.
    + right. destruct Hpost as [->|(g & acks & -> & Hg & Ha)]; [exists f, []; simpl; auto|].
      destruct Hor as [Hf|Hf]; [by specialize (Hse Hf)|].
      exists g, (acks ++ [f]). split_and!; auto. apply Forall_app; split; [done|by constructor].
    + intros Hf. by rewrite Ht in Hf.
  - destruct Hor as [Hf|Hf]; [|tauto]. rewrite (Hse Hf), app_nil_r in Hw.
    exists (pre ++ [f]), []. rewrite Hw', Hw, app_nil_r. split_and!; auto.
    apply Forall_app; split; [done|by constructor].
Qed.

Lemma writeFrame_barrier_witness :
  let s := fst (InitMuxClose session0 None) in
  wire_ok (fst (writeFrame s (mkFrame 1 FrameEOF []) None)) /\
  (retired s = true -> writeFrame s (mkFrame 1 FrameEOF []) None = (s, Some ErrClosed)).
Proof.
  apply (writeFrame_barrier (fst (InitMuxClose session0 None))).
  exists [], [mkFrame StreamControl FrameMuxClose []]. split_and!; try done.
  right. exists (mkFrame StreamControl FrameMuxClose []), []. split_and!; try done. by left.
Defined.

(** ** The read loop *)

(** C33 — The read loop ends exactly once and wakes everyone: whenever an
    iteration does not go on, the session is retired and done, its graceful-close
    waiters are released, every stream is dead (so a reader of an empty buffer and
    a writer without credit return instead of waiting), and a protocol or
    transport error has been recorded unless the peer closed cleanly. *)
Theorem readLoop_exit_wakes s r w s' :
  readLoop_step s r w = (s', false) ->
  retired s' = true /\ done_ s' = true /\ closeAcked s' = true /\
  (forall id st, streams s' !! id = Some st ->
     dead st = true /\ (buf st = [] -> snd (Stream_Read st 1) <> RBlocked) /\
     snd (acquireUpTo st (refuseWrites s') 1) <> ABlocked) /\
  (forall e, r = Err e -> e <> IoEOF -> respClosed s = false -> serr s' <> None).
Proof.
  intros H.
  assert (exists s1, s' = readLoop_exit s1 /\
    (forall e, r = Err e -> e <> IoEOF -> respClosed s = false -> serr s1 <> None))
    as (s1 & -> & Herr).
  { unfold readLoop_step in H. destruct r as [f|e].
    - destruct (dispatch s f w) as [s1 [e|]]; [injection H as <-; by eexists|].
      destruct (_ =? FrameMuxClose); [injection H as <-; by eexists|].
      destruct (_ && _); [injection H as <-; by eexists|done].
    - injection H as <-. eexists; split; [done|]. intros e' [= <-] Hne Hrc.
      rewrite bool_decide_false by done. simpl. rewrite Hrc. simpl.
      destruct (serr s); done. }
  split_and!; try done.
  intros id st Hst. simpl in Hst. rewrite lookup_fmap in Hst.
  destruct (streams s1 !! id) as [st0|]; simplify_eq/=. split_and!; [done| |].
  - intros Hb. unfold Stream_Read, shutdown. simpl in *. rewrite decide_True by done. simpl.
    by repeat case_match.
  - unfold acquireUpTo. simpl. by repeat case_match.
Qed.

Lemma readLoop_exit_wakes_witness :
  let s' := fst (readLoop_step session0 (Err IoUnexpectedEOF) None) in
  retired s' = true /\ done_ s' = true /\ closeAcked s' = true /\
  (forall id st, streams s' !! id = Some st ->
     dead st = true /\ (buf st = [] -> snd (Stream_Read st 1) <> RBlocked) /\
     snd (acquireUpTo st (refuseWrites s') 1) <> ABlocked) /\
  (forall e, Err IoUnexpectedEOF = (Err e : res mux_error Frame) -> e <> IoEOF ->
     respClosed session0 = false -> serr s' <> None).
Proof. by apply (readLoop_exit_wakes session0 (Err IoUnexpectedEOF) None). Defined.
