(* ===== verification/MuxLink.v ===== *)
(** * MuxLink: two multiplexer sessions joined by one connection.

    Both ends of a MUX connection run the [Session] of Mux.v over a reliable,
    ordered byte stream.  A [side] is a session with the frames its goroutines
    still owe (credit acquired but not written, WINDOW_UPDATEs, EOFs, RESETs)
    and the bytes its readers got.  The steps are the points where goroutines
    interleave: acquiring credit, writing one owed frame, reading, dispatching
    one received frame, control frames, close, and transport errors. *)
From stdpp Require Import base numbers list gmap.
From Stdlib Require Import ZArith Lia.
From S2P Require Import Prelude Mux.

#[local] Arguments encodeUint32 : simpl never.
#[local] Arguments decodeUint32 : simpl never.
#[local] Arguments encodeWinsize : simpl never.
#[local] Arguments writeFrame : simpl never.

Record side := mkSide {
  ses : Session;
  todo : list Frame;              (* frames owed by goroutines of this side *)
  reads : list (Z * list Z);      (* results of Stream.Read, oldest first *)
  got : nat }.                    (* frames of the peer dispatched so far *)

Definition owe (u : Z) (id : Z) : list Frame :=
  if 0 <? u then [mkFrame id FrameWindowUpdate (encodeUint32 (u mod 2 ^ 32))] else [].

Inductive local : side -> side -> Prop :=
| L_acquire x id st st' want n b :
    streams (ses x) !! id = Some st -> 0 < want <= DataChunk ->
    acquireUpTo st (refuseWrites (ses x)) want = (st', ACredit n) ->
    Z.of_nat (length b) = n ->
    local x (mkSide (upd_streams (<[id:=st']>) (ses x))
               (todo x ++ [mkFrame id FrameData b]) (reads x) (got x))
| L_write x l1 f l2 w :
    todo x = l1 ++ f :: l2 ->
    local x (mkSide (fst (writeFrame (ses x) f w)) (l1 ++ l2) (reads x) (got x))
| L_read x id st st' n bytes u :
    streams (ses x) !! id = Some st -> Stream_Read st n = (st', RData bytes u) ->
    local x (mkSide (upd_streams (<[id:=st']>) (ses x)) (todo x ++ owe u id)
               (reads x ++ [(id, bytes)]) (got x))
| L_closeWrite x id st st' b :
    streams (ses x) !! id = Some st -> CloseWrite st = (st', b) ->
    local x (mkSide (upd_streams (<[id:=st']>) (ses x))
               (todo x ++ if b then [mkFrame id FrameEOF []] else []) (reads x) (got x))
| L_reset x id st st' b :
    streams (ses x) !! id = Some st -> Stream_Reset st = (st', b) ->
    local x (mkSide (upd_streams (<[id:=st']>) (ses x))
               (todo x ++ if b then [mkFrame id FrameReset []] else []) (reads x) (got x))
| L_muxClose x w :
    local x (mkSide (fst (InitMuxClose (ses x) w)) (todo x) (reads x) (got x))
| L_winsize x c r w :
    local x (mkSide (fst (SetWinsize (ses x) c r w)) (todo x) (reads x) (got x))
| L_exitStatus x c w :
    local x (mkSide (fst (SendExitStatus (ses x) c w)) (todo x) (reads x) (got x))
| L_close x :
    local x (mkSide (Session_Close (ses x)) (todo x) (reads x) (got x)).

(** The read loop of [x]: the next frame the peer wrote, or a transport error. *)
Inductive recv (peer : Session) : side -> side -> Prop :=
| R_frame x f w :
    done_ (ses x) = false -> wire peer !! got x = Some f ->
    recv peer x (mkSide (fst (readLoop_step (ses x) (Ok f) w)) (todo x) (reads x) (S (got x)))
| R_error x e w :
    done_ (ses x) = false ->
    recv peer x (mkSide (fst (readLoop_step (ses x) (Err e) w)) (todo x) (reads x) (got x)).

Inductive link_step : side * side -> side * side -> Prop :=
| K_localA a a' b : local a a' -> link_step (a, b) (a', b)
| K_localB a b b' : local b b' -> link_step (a, b) (a, b')
| K_recvA a a' b : recv (ses b) a a' -> link_step (a, b) (a', b)
| K_recvB a b b' : recv (ses a) b b' -> link_step (a, b) (a, b').

Definition side0 (set : gset Z) (w : Z) : side := mkSide (NewSession set w) [] [] 0.
Definition reachable (set : gset Z) (w : Z) : side * side -> Prop :=
  rtc link_step (side0 set w, side0 set w).

(** ** Accounting of one stream in one direction *)

Definition dlen (id : Z) (l : list Frame) : Z := Z.of_nat (length (data_bytes id l)).
Definition upd_of (id : Z) (f : Frame) : Z :=
  if (fType f =? FrameWindowUpdate) && (fStream f =? id)
  then default 0 (decodeUint32 (fPayload f)) else 0.
Definition usum (id : Z) (l : list Frame) : Z := foldr (fun f n => upd_of id f + n) 0 l.
Definition read_bytes (id : Z) (l : list (Z * list Z)) : list Z :=
  concat ((fun p => if fst p =? id then snd p else []) <$> l).

Lemma dlen_app id l1 l2 : dlen id (l1 ++ l2) = dlen id l1 + dlen id l2.
Proof. unfold dlen. rewrite data_bytes_app, length_app. lia. Qed.
Lemma dlen_cons id f l : dlen id (f :: l) = dlen id [f] + dlen id l.
Proof. apply (dlen_app id [f]). Qed.
Lemma dlen_nil id : dlen id [] = 0. Proof. done. Qed.
Lemma dlen_nonneg id l : 0 <= dlen id l. Proof. unfold dlen. lia. Qed.
Lemma usum_app id l1 l2 : usum id (l1 ++ l2) = usum id l1 + usum id l2.
Proof. induction l1; simpl; lia. Qed.
Lemma read_bytes_app id l1 l2 : read_bytes id (l1 ++ l2) = read_bytes id l1 ++ read_bytes id l2.
Proof. unfold read_bytes. by rewrite fmap_app, concat_app. Qed.

(** Frames an honest side owes or has written. *)
Definition honest (f : Frame) : Prop :=
  Z.of_nat (length (fPayload f)) <= MaxFramePayload /\
  (fType f = FrameWindowUpdate -> exists u, decodeUint32 (fPayload f) = Some u /\ 0 <= u).
Definition plain (f : Frame) : Prop := honest f /\ ~ terminal f.

Lemma upd_of_nonneg id f : honest f -> 0 <= upd_of id f.
Proof.
  intros [_ H]. unfold upd_of. destruct (_ && _) eqn:E; [|lia]. bool_prop.
  destruct H as (u & -> & ?); done.
Qed.
Lemma usum_nonneg id l : Forall honest l -> 0 <= usum id l.
Proof. induction 1 as [|f l Hf]; simpl; [lia|]. pose proof (upd_of_nonneg id f Hf). lia. Qed.

(** Nothing has been dropped by this side so far. *)
Definition healthy (s : Session) : Prop :=
  retired s = false /\ sealed s = false /\ closeInitiated s = false.

(** The bytes of stream [id] between [x]'s remaining credit and the credit [y]
    still has to return. *)
Definition flow (id : Z) (x y : side) (stx sty : Stream) : Z :=
  credit stx + dlen id (todo x) + dlen id (drop (got y) (wire (ses x)))
  + Z.of_nat (length (buf sty)) + consumed sty
  + usum id (todo y) + usum id (drop (got x) (wire (ses y))).

Record dir (W id : Z) (x y : side) : Prop := {
  d_streams : exists stx sty,
    streams (ses x) !! id = Some stx /\ streams (ses y) !! id = Some sty /\
    st_window sty = W /\ 0 <= credit stx /\ 0 <= consumed sty /\
    (consumed sty = 0 \/ consumed sty < W / 2) /\
    flow id x y stx sty <= W /\
    (healthy (ses x) -> healthy (ses y) -> flow id x y stx sty = W) /\
    (read_bytes id (reads y) ++ buf sty) `prefix_of` data_bytes id (wire (ses x)) /\
    (done_ (ses y) = false ->
     data_bytes id (wire (ses x)) = read_bytes id (reads y) ++ buf sty
       ++ data_bytes id (drop (got y) (wire (ses x))));
  d_todo : Forall plain (todo x) /\ Forall plain (todo y);
  d_wire : Forall honest (wire (ses x)) /\ Forall honest (wire (ses y));
  d_got : (got y <= length (wire (ses x)))%nat /\ (got x <= length (wire (ses y)))%nat }.

(** ** Writing a frame *)

Lemma writeFrame_keeps s f w :
  let s' := fst (writeFrame s f w) in
  streams s' = streams s /\ done_ s' = done_ s /\ closeInitiated s' = closeInitiated s.
Proof.
  unfold writeFrame. destruct (_ || _); [done|]. destruct (_ && _); [done|].
  set (s1 := if (fType f =? FrameMuxClose) || (fType f =? FrameMuxCloseAck)
             then set_sealed s else s).
  assert (streams s1 = streams s /\ done_ s1 = done_ s /\
          closeInitiated s1 = closeInitiated s) as (H1 & H2 & H3)
    by (unfold s1; by destruct (_ || _)).
  destruct (WriteFrame f); [|done]. by case_match.
Qed.

(** An honest frame that a session drops leaves it unhealthy. *)
Lemma writeFrame_healthy s f w :
  Z.of_nat (length (fPayload f)) <= MaxFramePayload ->
  healthy (fst (writeFrame s f w)) -> healthy s /\ wire (fst (writeFrame s f w)) = wire s ++ [f].
Proof.
  intros Hl. unfold writeFrame, healthy, refuseWrites, WriteFrame.
  rewrite (proj2 (Z.ltb_ge _ _)) by done.
  destruct (retired s) eqn:Hr; simpl; [intros (? & _); congruence|].
  destruct (sealed s) eqn:Hs, (closeInitiated s) eqn:Hc; simpl;
    repeat case_match; simpl; intros (? & ? & ?); simplify_eq/=; try congruence; auto;
    by rewrite andb_false_r in *.
Qed.

Lemma writeFrame_wire_cases s f w :
  wire (fst (writeFrame s f w)) = wire s \/ wire (fst (writeFrame s f w)) = wire s ++ [f].
Proof. pose proof (writeFrame_wire s f w). destruct (writeFrame s f w). simpl in *. naive_solver. Qed.

(** ** What a local step does to one stream *)

Record local_fx (W id : Z) (z z' : side) (st st' : Stream) (new : list Frame) : Prop := {
  fx_wire : wire (ses z') = wire (ses z) ++ new;
  fx_honest : Forall honest new;
  fx_todo : Forall plain (todo z');
  fx_lookup : streams (ses z') !! id = Some st';
  fx_window : st_window st' = W;
  fx_credit : 0 <= credit st';
  fx_consumed : 0 <= consumed st' /\ (consumed st' = 0 \/ consumed st' < W / 2);
  fx_got : got z' = got z;
  fx_done : done_ (ses z') = done_ (ses z);
  fx_healthy : healthy (ses z') -> healthy (ses z);
  fx_tx : credit st' + dlen id (todo z') + dlen id new <= credit st + dlen id (todo z) /\
    (healthy (ses z') ->
     credit st' + dlen id (todo z') + dlen id new = credit st + dlen id (todo z));
  fx_rx : Z.of_nat (length (buf st')) + consumed st' + usum id (todo z') + usum id new
      <= Z.of_nat (length (buf st)) + consumed st + usum id (todo z) /\
    (healthy (ses z') ->
     Z.of_nat (length (buf st')) + consumed st' + usum id (todo z') + usum id new
      = Z.of_nat (length (buf st)) + consumed st + usum id (todo z));
  fx_fifo : read_bytes id (reads z') ++ buf st' = read_bytes id (reads z) ++ buf st }.

Definition side_ok (W id : Z) (z : side) (st : Stream) : Prop :=
  streams (ses z) !! id = Some st /\ st_window st = W /\ 0 <= credit st /\
  0 <= consumed st /\ (consumed st = 0 \/ consumed st < W / 2) /\ Forall plain (todo z).

(** A step that only adds frames to [todo] and changes one stream record. *)
Lemma local_fx_stream W id z st id0 st0 st0' add rd :
  side_ok W id z st -> streams (ses z) !! id0 = Some st0 ->
  Forall plain add ->
  (id0 <> id -> dlen id add = 0 /\ usum id add = 0 /\ read_bytes id rd = []) ->
  (id0 = id ->
    st_window st0' = st_window st0 /\ 0 <= credit st0' /\
    (0 <= consumed st0' /\ (consumed st0' = 0 \/ consumed st0' < W / 2)) /\
    credit st0' + dlen id add = credit st0 /\
    Z.of_nat (length (buf st0')) + consumed st0' + usum id add
      = Z.of_nat (length (buf st0)) + consumed st0 /\
    read_bytes id rd ++ buf st0' = buf st0) ->
  exists st', local_fx W id z (mkSide (upd_streams (<[id0:=st0']>) (ses z)) (todo z ++ add)
                                  (reads z ++ rd) (got z)) st st' [].
Proof.
  intros (Hst & HW & Hcr & Hco & Hco' & Hp) H0 Hadd Hother Hsame.
  destruct (decide (id0 = id)) as [->|Hne].
  - destruct (Hsame eq_refl) as (? & ? & ? & Htx & Hrx & Hrd). rewrite Hst in H0.
    injection H0 as <-. exists st0'. split; simpl; auto; rewrite ?app_nil_r; try done.
    + by apply Forall_app.
    + apply lookup_insert_eq.
    + congruence.
    + rewrite dlen_app, dlen_nil. lia.
    + rewrite usum_app. lia.
    + by rewrite read_bytes_app, <- app_assoc, Hrd.
  - destruct (Hother Hne) as (? & ? & Hrd). exists st.
    split; simpl; auto; rewrite ?app_nil_r; try done.
    + by apply Forall_app.
    + by rewrite lookup_insert_ne.
    + rewrite dlen_app, dlen_nil. lia.
    + rewrite usum_app. lia.
    + by rewrite read_bytes_app, Hrd, app_nil_r.
Qed.

(** A step that writes one frame taken out of [todo] (or a control frame). *)
Lemma local_fx_write W id z st f w l1 l2 :
  side_ok W id z st -> honest f -> todo z = l1 ++ f :: l2 ->
  exists new, local_fx W id z (mkSide (fst (writeFrame (ses z) f w)) (l1 ++ l2)
                                  (reads z) (got z)) st st new.
Proof.
  intros (Hst & HW & Hcr & Hco & Hco' & Hp) Hf Htodo.
  destruct (writeFrame_keeps (ses z) f w) as (Hs & Hd & Hci).
  pose proof (fun H => writeFrame_healthy (ses z) f w (proj1 Hf) H) as Hh.
  rewrite Htodo in *. apply Forall_app in Hp as [Hp1 Hp2]. apply Forall_cons in Hp2 as [Hpf Hp2].
  assert (dlen id (l1 ++ f :: l2) = dlen id (l1 ++ l2) + dlen id [f]) as Ed.
  { change (f :: l2) with ([f] ++ l2). rewrite !dlen_app. lia. }
  assert (usum id (l1 ++ f :: l2) = usum id (l1 ++ l2) + usum id [f]) as Eu.
  { change (f :: l2) with ([f] ++ l2). rewrite !usum_app. lia. }
  assert (0 <= usum id [f]) by (apply usum_nonneg; by constructor).
  pose proof (dlen_nonneg id [f]).
  destruct (writeFrame_wire_cases (ses z) f w) as [Hw|Hw].
  - exists []. split; simpl; rewrite ?Hs, ?app_nil_r, ?Ed, ?Eu, ?Htodo; auto.
    + by apply Forall_app.
    + intros Hz. by apply Hh.
    + rewrite dlen_nil. split; [lia|]. intros Hz.
      apply Hh in Hz as [_ Hz]. apply (f_equal length) in Hz.
      rewrite Hw, length_app in Hz. simpl in Hz. lia.
    + split; [lia|]. intros Hz.
      apply Hh in Hz as [_ Hz]. apply (f_equal length) in Hz.
      rewrite Hw, length_app in Hz. simpl in Hz. lia.
  - exists [f]. split; simpl; rewrite ?Hs, ?Htodo; auto.
    + by apply Forall_app.
    + intros Hz. by apply Hh.
    + lia.
    + simpl in Eu. lia.
Qed.

(** A control frame written from a session that agrees with [z]'s. *)
Lemma local_fx_control W id z st s1 f w :
  side_ok W id z st -> honest f -> dlen id [f] = 0 -> usum id [f] = 0 ->
  streams s1 = streams (ses z) -> wire s1 = wire (ses z) -> done_ s1 = done_ (ses z) ->
  (healthy s1 -> healthy (ses z)) ->
  exists new, local_fx W id z (mkSide (fst (writeFrame s1 f w)) (todo z) (reads z) (got z))
                st st new.
Proof.
  intros (Hst & HW & Hcr & Hco & Hco' & Hp) Hf Hd0 Hu0 E1 E2 E3 Hh1.
  destruct (writeFrame_keeps s1 f w) as (Hs & Hd & Hci).
  pose proof (fun H => writeFrame_healthy s1 f w (proj1 Hf) H) as Hh.
  destruct (writeFrame_wire_cases s1 f w) as [Hw|Hw]; [exists []|exists [f]];
    split; simpl; rewrite ?Hs, ?E1, ?Hd, ?E3, ?Hw, ?E2, ?app_nil_r, ?dlen_nil, ?Hd0; auto;
    try lia; try (intros Hz; apply Hh1, Hh, Hz); simpl in Hu0; lia.
Qed.

Lemma acquireUpTo_spec st refuse want st' n :
  acquireUpTo st refuse want = (st', ACredit n) -> 0 < want ->
  st' = mkStream (st_id st) (st_window st) (buf st) (rEOF st) (rReset st) (consumed st)
          (credit st - n) (wClosed st) (wReset st) (dead st) /\
  0 < n <= want /\ n <= credit st.
Proof.
  unfold acquireUpTo. intros H Hw. destruct (credit st <=? 0) eqn:E; [by repeat case_match|].
  bool_prop. injection H as <- <-. split; [done|]. split_ifs; bool_prop; lia.
Qed.

Lemma Stream_Read_spec st n st' bytes u :
  Stream_Read st n = (st', RData bytes u) ->
  bytes = take n (buf st) /\ buf st' = drop n (buf st) /\
  consumed st' + u = consumed st + Z.of_nat (length bytes) /\
  (u = 0 /\ consumed st' < st_window st / 2 \/ consumed st' = 0) /\
  credit st' = credit st /\ st_window st' = st_window st.
Proof.
  unfold Stream_Read. case_decide; [by repeat case_match|].
  destruct (_ <=? _) eqn:E; intros [= <- <- <-]; bool_prop; simpl; split_and!; auto; lia.
Qed.

Lemma decode_encodeUint32 u : 0 <= u < 2 ^ 32 -> decodeUint32 (encodeUint32 u) = Some u.
Proof.
  intros. unfold decodeUint32, encodeUint32. rewrite be_bytes_length, decide_True by done.
  by rewrite be_val_bytes by (simpl; lia).
Qed.

Lemma upd_of_owe id u : 0 <= u < 2 ^ 32 -> usum id (owe u id) = u.
Proof.
  intros. unfold owe. destruct (0 <? u) eqn:E; bool_prop; [|simpl; lia].
  unfold usum, upd_of. cbn [foldr fType fStream fPayload].
  rewrite Z.mod_small, decode_encodeUint32, !Z.eqb_refl by lia. simpl. lia.
Qed.

Lemma plain_data id b : Z.of_nat (length b) <= DataChunk -> plain (mkFrame id FrameData b).
Proof.
  intros. split; [split; [unfold MaxFramePayload, DataChunk in *; simpl; lia|done]|].
  intros [?|?]; done.
Qed.
Lemma plain_empty id t : t = FrameEOF \/ t = FrameReset -> plain (mkFrame id t []).
Proof.
  intros [->| ->]; (split; [split; [done|done]|]; intros [?|?]; done).
Qed.
Lemma plain_owe u id : 0 <= u < 2 ^ 32 -> Forall plain (owe u id).
Proof.
  intros. unfold owe. case_match; constructor; [|constructor].
  split; [split; cbn [fPayload fType]|].
  - unfold encodeUint32, MaxFramePayload. rewrite be_bytes_length. lia.
  - intros _. exists u. rewrite Z.mod_small, decode_encodeUint32 by lia. split; [done|lia].
  - intros [?|?]; done.
Qed.

Lemma data_bytes_other id id0 b : id0 <> id -> data_bytes id [mkFrame id0 FrameData b] = [].
Proof. intros. unfold data_bytes. simpl. by rewrite (proj2 (Z.eqb_neq _ _)). Qed.
Lemma dlen_not_data id f : fType f <> FrameData -> dlen id [f] = 0.
Proof.
  intros. unfold dlen, data_bytes. simpl. by rewrite (proj2 (Z.eqb_neq (fType f) _)).
Qed.
Lemma usum_not_update id f : fType f <> FrameWindowUpdate -> usum id [f] = 0.
Proof. intros. simpl. unfold upd_of. by rewrite (proj2 (Z.eqb_neq (fType f) _)). Qed.
Lemma owe_other id id0 u : id0 <> id -> dlen id (owe u id0) = 0 /\ usum id (owe u id0) = 0.
Proof.
  intros. unfold owe. case_match; [|done]. split; [by apply dlen_not_data|].
  simpl. unfold upd_of. cbn [fType fStream]. by rewrite (proj2 (Z.eqb_neq id0 _)).
Qed.
Lemma dlen_owe id id0 u : dlen id (owe u id0) = 0.
Proof. unfold owe. case_match; [by apply dlen_not_data|done]. Qed.

(** Every local step has an effect of this shape on every negotiated stream. *)
Lemma local_effect W id z z' st :
  0 < W < 2 ^ 32 -> local z z' -> side_ok W id z st ->
  (forall id0 st0, streams (ses z) !! id0 = Some st0 ->
     0 <= consumed st0 /\ consumed st0 + Z.of_nat (length (buf st0)) < 2 ^ 32) ->
  exists st' new, local_fx W id z z' st st' new.
Proof.
  intros HW Hl Hok Hall. pose proof Hok as (Hst & HWst & Hcr & Hco & Hco' & Hp).
  destruct Hl as [x id0 st0 st0' want n b H0 Hwant Hacq Hlen | x l1 f l2 w Htodo
    | x id0 st0 st0' n bytes u H0 Hread | x id0 st0 st0' b H0 Hcw | x id0 st0 st0' b H0 Hrs
    | x w | x c r w | x c w | x].
  - apply acquireUpTo_spec in Hacq as (-> & Hn & Hnc); [|lia].
    rewrite <- (app_nil_r (reads x)).
    destruct (local_fx_stream W id x st id0 st0 (mkStream (st_id st0) (st_window st0)
      (buf st0) (rEOF st0) (rReset st0) (consumed st0) (credit st0 - n) (wClosed st0)
      (wReset st0) (dead st0)) [mkFrame id0 FrameData b] []) as [st' Hfx]; eauto.
    + constructor; [apply plain_data; lia|constructor].
    + intros Hne. unfold dlen. by rewrite data_bytes_other.
    + intros ->. rewrite Hst in H0. injection H0 as <-. rewrite usum_not_update by done.
      unfold dlen. rewrite data_bytes_data. simpl. split_and!; try done; lia.
  - rewrite Htodo in Hp. apply Forall_app in Hp as [_ Hp].
    apply Forall_cons in Hp as [[Hf _] _].
    destruct (local_fx_write W id x st f w l1 l2) as [new ?]; eauto.
  - apply Stream_Read_spec in Hread as (-> & Hbuf & Hcons & Hu & Hcr' & Hwin).
    destruct (Hall _ _ H0) as [? Hb]. rewrite length_take in Hcons.
    destruct (local_fx_stream W id x st id0 st0 st0' (owe u id0) [(id0, take n (buf st0))])
      as [st' Hfx]; eauto.
    + apply plain_owe. lia.
    + intros Hne. destruct (owe_other id id0 u Hne) as [-> ->]. unfold read_bytes. simpl.
      by rewrite (proj2 (Z.eqb_neq id0 id)).
    + intros ->. rewrite Hst in H0. injection H0 as <-.
      rewrite HWst in Hu. rewrite dlen_owe, upd_of_owe by lia. rewrite Hbuf, length_drop.
      unfold read_bytes. simpl. rewrite Z.eqb_refl, app_nil_r, take_drop.
      split_and!; try done; lia.
  - unfold CloseWrite in Hcw. rewrite <- (app_nil_r (reads x)).
    destruct (local_fx_stream W id x st id0 st0 st0'
      (if b then [mkFrame id0 FrameEOF []] else []) []) as [st' Hfx]; eauto.
    + destruct b; constructor; [apply plain_empty; auto|constructor].
    + intros _. by destruct b.
    + intros ->. rewrite Hst in H0. injection H0 as <-. destruct (_ || _); simplify_eq/=;
        unfold dlen, usum, upd_of; simpl; split_and!; try done; lia.
  - unfold Stream_Reset in Hrs. rewrite <- (app_nil_r (reads x)).
    destruct (local_fx_stream W id x st id0 st0 st0'
      (if b then [mkFrame id0 FrameReset []] else []) []) as [st' Hfx]; eauto.
    + destruct b; constructor; [apply plain_empty; auto|constructor].
    + intros _. by destruct b.
    + intros ->. rewrite Hst in H0. injection H0 as <-. destruct (wReset st); simplify_eq/=;
        unfold dlen, usum, upd_of; simpl; split_and!; try done; lia.
  - unfold InitMuxClose. destruct (closeInitiated (ses x)) eqn:Hci.
    + exists st, []. split; simpl; rewrite ?app_nil_r, ?dlen_nil; auto; lia.
    + destruct (local_fx_control W id x st (set_closeInitiated (ses x))
        (mkFrame StreamControl FrameMuxClose []) w) as [new ?]; eauto; try done.
      by intros (? & ? & ?).
  - destruct (local_fx_control W id x st (ses x)
      (mkFrame StreamControl FrameSetWinsize (encodeWinsize c r)) w) as [new ?]; eauto; try done.
  - destruct (local_fx_control W id x st (ses x)
      (mkFrame StreamControl FrameExitStatus (encodeUint32 (u32 c))) w) as [new ?]; eauto; try done.
  - exists st, []. split; simpl; rewrite ?app_nil_r, ?dlen_nil; auto; try lia.
    by intros (? & _).
Qed.

(** ** What dispatching a received frame does to one stream *)

Record disp_fx (id : Z) (f : Frame) (s s' : Session) (st st' : Stream) (new : list Frame)
    (e : option mux_error) : Prop := {
  rx_wire : wire s' = wire s ++ new;
  rx_new : Forall honest new /\ dlen id new = 0 /\ usum id new = 0;
  rx_lookup : streams s' !! id = Some st';
  rx_window : st_window st' = st_window st;
  rx_consumed : consumed st' = consumed st;
  rx_credit : credit st <= credit st' <= credit st + upd_of id f;
  rx_buf : buf st' = buf st \/ buf st' = buf st ++ data_bytes id [f];
  rx_done : done_ s' = done_ s;
  rx_healthy : healthy s' -> healthy s;
  rx_ok : e = None -> credit st' = credit st + upd_of id f /\
                      buf st' = buf st ++ data_bytes id [f] }.

Lemma data_bytes_one id f :
  data_bytes id [f] = if (fType f =? FrameData) && (fStream f =? id) then fPayload f else [].
Proof. unfold data_bytes. simpl. by rewrite app_nil_r. Qed.

(** The frame is not about a stream, or is refused before a stream changes. *)
Lemma disp_fx_keep id f s s' st e :
  honest f -> streams s !! id = Some st ->
  wire s' = wire s -> streams s' = streams s -> done_ s' = done_ s ->
  (healthy s' -> healthy s) ->
  (e = None -> upd_of id f = 0 /\ data_bytes id [f] = []) ->
  disp_fx id f s s' st st [] e.
Proof.
  intros Hf Hst Hw Hs Hd Hh He. pose proof (upd_of_nonneg id f Hf).
  split; rewrite ?Hw, ?Hs, ?app_nil_r; auto; try lia.
  intros E. destruct (He E) as [-> ->]. split; [lia|by rewrite app_nil_r].
Qed.

(** The frame changes the stream it names. *)
Lemma disp_fx_insert id f s st id0 st0 st0' e :
  honest f -> streams s !! id = Some st -> streams s !! id0 = Some st0 -> fStream f = id0 ->
  st_window st0' = st_window st0 -> consumed st0' = consumed st0 ->
  credit st0 <= credit st0' <= credit st0 + upd_of id0 f ->
  buf st0' = buf st0 \/ buf st0' = buf st0 ++ data_bytes id0 [f] ->
  (e = None -> credit st0' = credit st0 + upd_of id0 f /\
               buf st0' = buf st0 ++ data_bytes id0 [f]) ->
  exists st', disp_fx id f s (upd_streams (<[id0:=st0']>) s) st st' [] e.
Proof.
  intros Hf Hst H0 Hid Hw Hc Hcr Hb He. destruct (decide (id0 = id)) as [->|Hne].
  - simplify_eq. exists st0'. split; simpl; rewrite ?app_nil_r; auto. apply lookup_insert_eq.
  - assert (upd_of id f = 0 /\ data_bytes id [f] = []) as [Eu Eb].
    { rewrite data_bytes_one. unfold upd_of. rewrite (proj2 (Z.eqb_neq (fStream f) id)) by lia.
      by rewrite !andb_false_r. }
    exists st. split; simpl; rewrite ?Eu, ?Eb, ?app_nil_r; auto; try lia.
    + by rewrite lookup_insert_ne.
    + intros _. split; [lia|done].
Qed.

Lemma deliver_spec st p st' e :
  deliver st p = (st', e) ->
  st_window st' = st_window st /\ consumed st' = consumed st /\ credit st' = credit st /\
  (buf st' = buf st \/ buf st' = buf st ++ p) /\ (e = None -> buf st' = buf st ++ p).
Proof.
  unfold deliver. intros H. destruct (_ || _); [|destruct (_ <? _)];
    simplify_eq/=; split_and!; auto; discriminate.
Qed.

(** The acknowledgement of a MUX_CLOSE carries no stream data or credit. *)
Lemma disp_fx_ack id f s st w :
  honest f -> streams s !! id = Some st -> upd_of id f = 0 -> data_bytes id [f] = [] ->
  let '(s', e) := writeFrame (set_peerClosed s) (mkFrame StreamControl FrameMuxCloseAck []) w in
  exists new, disp_fx id f s s' st st new e.
Proof.
  intros Hf Hst Hu Hb. set (ack := mkFrame StreamControl FrameMuxCloseAck []).
  destruct (writeFrame_keeps (set_peerClosed s) ack w) as (Ks & Kd & Kc).
  pose proof (writeFrame_wire_cases (set_peerClosed s) ack w) as Kw.
  pose proof (writeFrame_healthy (set_peerClosed s) ack w ltac:(done)) as Kh.
  destruct (writeFrame (set_peerClosed s) ack w) as [s1 e]; simpl in *.
  assert (honest ack) by done.
  destruct Kw as [Kw|Kw]; [exists []|exists [ack]];
    split; rewrite ?Ks, ?Kd, ?Kw, ?Hb, ?Hu, ?app_nil_r; auto; try lia;
    try (intros Hz; by apply Kh in Hz as [? _]); try (intros _; split; [lia|done]).
Qed.

Lemma disp_fx_close id f s s' st st' new e :
  disp_fx id f s s' st st' new e -> disp_fx id f s (Session_Close s') st st' new e.
Proof. intros []. split; auto. by intros (? & _). Qed.

(** [dispatch]: every branch has an effect of this shape on every stream. *)
Lemma dispatch_effect id f s w st :
  honest f -> streams s !! id = Some st ->
  let '(s', e) := dispatch s f w in exists st' new, disp_fx id f s s' st st' new e.
Proof.
  intros Hf Hst.
  assert (forall s' e, wire s' = wire s -> streams s' = streams s -> done_ s' = done_ s ->
    (healthy s' -> healthy s) ->
    (e = None -> upd_of id f = 0 /\ data_bytes id [f] = []) ->
    exists st' new, disp_fx id f s s' st st' new e) as Hkeep
    by (intros; eexists _, _; by apply disp_fx_keep).
  unfold dispatch. destruct (fType f =? FrameData) eqn:E1; simpl.
  { destruct (isDataStream _); simpl; [|by apply Hkeep].
    destruct (streams s !! fStream f) as [st0|] eqn:H0; [|by apply Hkeep].
    destruct (deliver st0 (fPayload f)) as [st0' e] eqn:Hdl.
    apply deliver_spec in Hdl as (? & ? & ? & Hb & He).
    edestruct (disp_fx_insert id f s st (fStream f) st0 st0' e) as [st' ?]; eauto;
      rewrite ?data_bytes_one, ?E1, ?Z.eqb_refl; simpl; auto.
    - unfold upd_of. bool_prop. rewrite E1. simpl. lia.
    - intros. unfold upd_of. bool_prop. rewrite E1. simpl. split; [lia|auto]. }
  assert (forall i, data_bytes i [f] = []) as Hb by (intros; by rewrite data_bytes_one, E1).
  destruct (fType f =? FrameWindowUpdate) eqn:E2.
  { replace ((fType f =? FrameEOF) || (fType f =? FrameReset)) with false
      by (bool_prop; by rewrite E2).
    destruct (isDataStream _); simpl; [|by apply Hkeep].
    destruct (streams s !! fStream f) as [st0|] eqn:H0; [|by apply Hkeep].
    destruct (decodeUint32 (fPayload f)) as [delta|] eqn:Hdec; [|by apply Hkeep].
    assert (upd_of (fStream f) f = delta) as Hu
      by (unfold upd_of; by rewrite E2, Z.eqb_refl, Hdec).
    pose proof (upd_of_nonneg (fStream f) f Hf).
    edestruct (disp_fx_insert id f s st (fStream f) st0 (addCredit st0 delta) None)
      as [st' ?]; eauto; simpl; rewrite ?Hb, ?Hu, ?app_nil_r; auto; lia. }
  assert (forall i, upd_of i f = 0) as Hu by (intros; unfold upd_of; by rewrite E2).
  destruct (_ || _).
  { destruct (isDataStream _); simpl; [|by apply Hkeep].
    destruct (streams s !! fStream f) as [st0|] eqn:H0; [|by apply Hkeep].
    destruct (fType f =? FrameEOF);
      [edestruct (disp_fx_insert id f s st (fStream f) st0 (deliverEOF st0) None) as [st' ?]
      |edestruct (disp_fx_insert id f s st (fStream f) st0 (deliverReset st0) None) as [st' ?]];
      eauto; simpl; rewrite ?Hb, ?Hu, ?app_nil_r; auto; try lia; intros; split; auto; lia. }
  pose proof (disp_fx_ack id f s st w Hf Hst (Hu id) (Hb id)) as Hack.
  destruct (writeFrame (set_peerClosed s) _ w) as [s1 [e|]]; destruct Hack as [new Hack];
    repeat case_match; simplify_eq/=; try (apply Hkeep; by auto); eauto using disp_fx_close.
Qed.

(** ** One step of the read loop *)

(** [fs] are the frames taken off the peer's wire: one, or none on an error. *)
Record recv_fx (id : Z) (fs : list Frame) (z z' : side) (st st' : Stream) (new : list Frame)
    : Prop := {
  rv_wire : wire (ses z') = wire (ses z) ++ new;
  rv_new : Forall honest new /\ dlen id new = 0 /\ usum id new = 0;
  rv_lookup : streams (ses z') !! id = Some st';
  rv_window : st_window st' = st_window st;
  rv_consumed : consumed st' = consumed st;
  rv_credit : credit st <= credit st' <= credit st + usum id fs;
  rv_buf : buf st' = buf st \/ buf st' = buf st ++ data_bytes id fs;
  rv_todo : todo z' = todo z;
  rv_reads : reads z' = reads z;
  rv_healthy : healthy (ses z') -> healthy (ses z) /\ done_ (ses z') = false;
  rv_done : done_ (ses z') = false ->
    credit st' = credit st + usum id fs /\ buf st' = buf st ++ data_bytes id fs }.

Lemma recv_fx_exit id f s s1 z z' st st1 new e :
  disp_fx id f s s1 st st1 new e -> s = ses z -> todo z' = todo z -> reads z' = reads z ->
  wire (ses z') = wire s1 -> streams (ses z') = shutdown <$> streams s1 ->
  retired (ses z') = true -> done_ (ses z') = true ->
  recv_fx id [f] z z' st (shutdown st1) new.
Proof.
  intros [] -> Ht Hr Hw Hs Hre Hd. split; simpl; auto; try congruence; try lia.
  - by rewrite Hs, lookup_fmap, rx_lookup0.
  - by intros (? & _); congruence.
Qed.

Lemma recv_effect id peer z z' st :
  recv peer z z' -> streams (ses z) !! id = Some st -> Forall honest (wire peer) ->
  exists fs st' new, recv_fx id fs z z' st st' new /\ done_ (ses z) = false /\
    drop (got z) (wire peer) = fs ++ drop (got z') (wire peer) /\
    Forall honest fs /\ (got z' = got z + length fs)%nat /\
    ((got z <= length (wire peer))%nat -> (got z' <= length (wire peer))%nat).
Proof.
  intros Hr Hst Hh. destruct Hr as [x f w Hd Hf|x e w Hd].
  - assert (honest f) as Hof by (eapply Forall_lookup_1; eauto).
    pose proof (dispatch_effect id f (ses x) w st Hof Hst) as Hx.
    exists [f]. unfold readLoop_step.
    assert (drop (got x) (wire peer) = [f] ++ drop (S (got x)) (wire peer) /\
      Forall honest [f] /\ S (got x) = (got x + length [f])%nat /\
      ((got x <= length (wire peer))%nat -> (S (got x) <= length (wire peer))%nat))
      as (? & ? & ? & ?).
    { split_and!; simpl; [by apply drop_S|by constructor|lia|].
      intros _. by apply lookup_lt_Some in Hf. }
    destruct (dispatch (ses x) f w) as [s1 [e|]]; destruct Hx as (st1 & new & Hx).
    + eexists _, new. split_and!; simpl; auto. by eapply recv_fx_exit.
    + destruct (fType f =? FrameMuxClose);
        [eexists _, new; split_and!; simpl; auto; by eapply recv_fx_exit|].
      destruct (_ && _);
        [eexists _, new; split_and!; simpl; auto; by eapply recv_fx_exit|].
      exists st1, new. split_and!; simpl; auto. destruct Hx. destruct rx_ok0 as [Hc Hb]; [done|].
      split; simpl; auto; try lia.
      * intros; split; [auto|congruence].
      * intros; split; [lia|done].
  - exists [], (shutdown st), []. split_and!; auto; simpl; try lia.
    split; simpl; rewrite ?app_nil_r; auto; try lia; try discriminate.
    + by destruct (_ && _).
    + destruct (_ && _); simpl; by rewrite lookup_fmap, Hst.
    + by intros (? & _).
Qed.

(** ** The accounting is kept by every step *)

Section kept.
Context (W id : Z).

Lemma dir_local_tx x x' y st st' new :
  streams (ses x) !! id = Some st ->
  local_fx W id x x' st st' new -> dir W id x y -> dir W id x' y.
Proof.
  intros Hst [] [(stx & sty & H1 & H2 & ? & ? & ? & ? & Hle & Heq & Hp & Hd) [Ht Ht'] [Hw Hw'] [Hg Hg']].
  assert (st = stx) as -> by congruence.
  assert (drop (got y) (wire (ses x')) = drop (got y) (wire (ses x)) ++ new) as Edr
    by (by rewrite fx_wire0, drop_app_le).
  split.
  - exists st', sty. unfold flow in *. rewrite Edr, fx_wire0, fx_got0 in *.
    rewrite dlen_app, !data_bytes_app. split_and!; auto; try lia.
    + intros Hx Hy. specialize (Heq (fx_healthy0 Hx) Hy).
      destruct fx_tx0 as [_ fx_tx0]. specialize (fx_tx0 Hx). lia.
    + by apply prefix_app_r.
    + intros Hdn. by rewrite (Hd Hdn), <- !app_assoc.
  - done.
  - rewrite fx_wire0. split; [by apply Forall_app|done].
  - rewrite fx_wire0, fx_got0, length_app. split; [lia|done].
Qed.

Lemma dir_local_rx x y y' st st' new :
  streams (ses y) !! id = Some st ->
  local_fx W id y y' st st' new -> dir W id x y -> dir W id x y'.
Proof.
  intros Hst [] [(stx & sty & H1 & H2 & ? & ? & ? & ? & Hle & Heq & Hp & Hd) [Ht Ht'] [Hw Hw'] [Hg Hg']].
  assert (st = sty) as -> by congruence.
  assert (drop (got x) (wire (ses y')) = drop (got x) (wire (ses y)) ++ new) as Edr
    by (by rewrite fx_wire0, drop_app_le).
  split.
  - exists stx, st'. unfold flow in *. rewrite Edr, fx_wire0, fx_got0, fx_done0 in *.
    rewrite usum_app, fx_fifo0. split_and!; auto; try lia.
    + intros Hx Hy. specialize (Heq Hx (fx_healthy0 Hy)).
      destruct fx_rx0 as [_ fx_rx0]. specialize (fx_rx0 Hy). lia.
    + intros Hdn. by rewrite app_assoc, fx_fifo0, (Hd Hdn), <- app_assoc.
  - done.
  - rewrite fx_wire0. split; [done|by apply Forall_app].
  - rewrite fx_wire0, fx_got0, length_app. split; [done|lia].
Qed.

Lemma dir_recv_rx x y y' fs st st' new :
  streams (ses y) !! id = Some st ->
  recv_fx id fs y y' st st' new -> done_ (ses y) = false ->
  drop (got y) (wire (ses x)) = fs ++ drop (got y') (wire (ses x)) ->
  (got y' <= length (wire (ses x)))%nat ->
  dir W id x y -> dir W id x y'.
Proof.
  intros Hst [] Hdn Edr Hg0 [(stx & sty & H1 & H2 & ? & ? & ? & ? & Hle & Heq & Hp & Hd) [Ht Ht'] [Hw Hw'] [Hg Hg']].
  assert (st = sty) as -> by congruence. specialize (Hd Hdn). destruct rv_new0 as (Hn1 & Hn2 & Hn3).
  assert (drop (got x) (wire (ses y')) = drop (got x) (wire (ses y)) ++ new) as Edy
    by (by rewrite rv_wire0, drop_app_le).
  assert (Z.of_nat (length (buf st')) <= Z.of_nat (length (buf sty)) + dlen id fs) as Hlen.
  { destruct rv_buf0 as [-> | ->]; rewrite ?length_app; unfold dlen; lia. }
  split.
  - exists stx, st'. unfold flow in *. rewrite Edy, Edr, rv_todo0, rv_reads0, rv_consumed0 in *.
    rewrite usum_app, Hn3, ?dlen_app in *. rewrite data_bytes_app in Hd.
    split_and!; auto; try lia.
    + intros Hx Hy. destruct (rv_healthy0 Hy) as [Hy' Hdn'].
      destruct (rv_done0 Hdn') as [_ Hb]. rewrite Hb, length_app.
      specialize (Heq Hx Hy'). unfold dlen in *. lia.
    + rewrite Hd. destruct rv_buf0 as [-> | ->];
        rewrite !app_assoc; first [by apply prefix_app_r|by apply prefix_app_r, prefix_app_r].
    + intros Hdn'. destruct (rv_done0 Hdn') as [_ ->]. by rewrite Hd, <- !app_assoc.
  - by rewrite rv_todo0.
  - rewrite rv_wire0. split; [done|by apply Forall_app].
  - rewrite rv_wire0, length_app. split; [done|lia].
Qed.

Lemma dir_recv_tx x y y' fs st st' new :
  streams (ses y) !! id = Some st ->
  recv_fx id fs y y' st st' new -> done_ (ses y) = false -> Forall honest fs ->
  drop (got y) (wire (ses x)) = fs ++ drop (got y') (wire (ses x)) ->
  (got y' <= length (wire (ses x)))%nat ->
  dir W id y x -> dir W id y' x.
Proof.
  intros Hst [] Hdn Hfs Edr Hg0 [(stx & sty & H1 & H2 & ? & ? & ? & ? & Hle & Heq & Hp & Hd) [Ht Ht'] [Hw Hw'] [Hg Hg']].
  assert (st = stx) as -> by congruence. destruct rv_new0 as (Hn1 & Hn2 & Hn3).
  assert (drop (got x) (wire (ses y')) = drop (got x) (wire (ses y)) ++ new) as Edy
    by (by rewrite rv_wire0, drop_app_le).
  assert (data_bytes id new = []) as Hnew.
  { apply nil_length_inv. unfold dlen in Hn2. lia. }
  split.
  - exists st', sty. unfold flow in *. rewrite Edy, Edr, rv_todo0 in *.
    rewrite rv_wire0, dlen_app, usum_app, Hn2, ?data_bytes_app, Hnew, !app_nil_r in *.
    split_and!; auto; try lia.
    intros Hy Hx. destruct (rv_healthy0 Hy) as [Hy' Hdn'].
    destruct (rv_done0 Hdn') as [Hc _]. specialize (Heq Hy' Hx). lia.
  - by rewrite rv_todo0.
  - rewrite rv_wire0. split; [by apply Forall_app|done].
  - rewrite rv_wire0, length_app. split; [lia|done].
Qed.
End kept.

(** ** The invariant of the link *)

(** Every negotiated stream keeps its accounting, in both directions. *)
Definition link_inv (W : Z) (set : gset Z) (p : side * side) : Prop :=
  dom (streams (ses (fst p))) = set /\ dom (streams (ses (snd p))) = set /\
  forall id, id ∈ set -> dir W id (fst p) (snd p) /\ dir W id (snd p) (fst p).

Definition link_swap (p : side * side) : side * side := (snd p, fst p).

Lemma link_inv_swap W set p : link_inv W set (link_swap p) -> link_inv W set p.
Proof. intros (H1 & H2 & H). split_and!; auto. intros id Hid. destruct (H id Hid). auto. Qed.

Lemma dir_consumed W id x y :
  dir W id x y -> exists sty, streams (ses y) !! id = Some sty /\ 0 <= consumed sty /\
    consumed sty + Z.of_nat (length (buf sty)) <= W.
Proof.
  intros [(stx & sty & H1 & H2 & ? & ? & ? & ? & Hle & _) [Ht Ht'] [Hw Hw'] _].
  exists sty. split_and!; auto. unfold flow in Hle.
  pose proof (dlen_nonneg id (todo x)). pose proof (dlen_nonneg id (drop (got y) (wire (ses x)))).
  assert (0 <= usum id (todo y)).
  { apply usum_nonneg. eapply Forall_impl; [exact Ht'|]. by intros ? []. }
  assert (0 <= usum id (drop (got x) (wire (ses y)))) by by apply usum_nonneg, Forall_drop.
  lia.
Qed.

Lemma link_inv_side_ok W set a b id :
  link_inv W set (a, b) -> id ∈ set -> exists st, side_ok W id a st.
Proof.
  intros (_ & _ & H) Hid. destruct (H id Hid) as [Dab Dba].
  destruct Dab as [(stx & sty & H1 & H2 & ? & Hcr & _) [Ht _] _ _].
  destruct Dba as [(stx' & sty' & H1' & H2' & HW & _ & ? & ? & _) _ _ _].
  simpl in *. simplify_eq. exists stx. by split_and!.
Qed.

(** The keys of the stream map never change. *)
Lemma dom_from_lookup (m : gmap Z Stream) (set : gset Z) :
  (forall id, id ∈ set <-> is_Some (m !! id)) -> dom m = set.
Proof. intros H. apply set_eq. intros id. rewrite elem_of_dom. by rewrite H. Qed.

Lemma writeFrame_dom s f w :
  dom (streams (fst (writeFrame s f w))) = dom (streams s).
Proof. by destruct (writeFrame_keeps s f w) as [-> _]. Qed.

Lemma dom_insert_known (m : gmap Z Stream) id st st' :
  m !! id = Some st -> dom (<[id:=st']> m) = dom m.
Proof.
  intros H. rewrite dom_insert_L. apply elem_of_dom_2 in H. set_solver.
Qed.

Lemma local_dom z z' : local z z' -> dom (streams (ses z')) = dom (streams (ses z)).
Proof.
  destruct 1; unfold SetWinsize, SendExitStatus, InitMuxClose; simpl; try (by eapply dom_insert_known);
    try destruct (closeInitiated _); rewrite ?writeFrame_dom; done.
Qed.

Lemma dispatch_dom s f w : dom (streams (fst (dispatch s f w))) = dom (streams s).
Proof.
  pose proof (writeFrame_dom (set_peerClosed s) (mkFrame StreamControl FrameMuxCloseAck []) w).
  unfold dispatch. repeat case_match; simplify_eq/=; auto; try (by eapply dom_insert_known).
Qed.

Lemma recv_dom peer z z' : recv peer z z' -> dom (streams (ses z')) = dom (streams (ses z)).
Proof.
  destruct 1 as [x f w Hd Hf|x e w Hd]; simpl.
  - pose proof (dispatch_dom (ses x) f w) as Hdd.
    destruct (dispatch (ses x) f w) as [s1 [e|]]; simpl in *; [by rewrite dom_fmap_L|].
    repeat case_match; simpl; by rewrite ?dom_fmap_L.
  - case_match; simpl; by rewrite dom_fmap_L.
Qed.

Lemma link_inv_local W set a a' b :
  0 < W < 2 ^ 32 -> link_inv W set (a, b) -> local a a' -> link_inv W set (a', b).
Proof.
  intros HW Hinv Hl. pose proof Hinv as (Da & Db & H). simpl in *.
  split_and!; simpl; [by rewrite (local_dom _ _ Hl)|done|].
  intros id Hid. destruct (link_inv_side_ok _ _ _ _ _ Hinv Hid) as [st Hok].
  destruct (local_effect W id a a' st HW Hl Hok) as (st' & new & Hfx).
  { intros id0 st0 H0. assert (id0 ∈ set) as Hid0 by (rewrite <- Da; by eapply elem_of_dom_2).
    destruct (H id0 Hid0) as [_ Hd]. apply dir_consumed in Hd as (? & ? & ? & ?).
    simplify_eq. split; lia. }
  destruct (H id Hid) as [D1 D2]. destruct Hok as [Hst _].
  split; [by eapply dir_local_tx|by eapply dir_local_rx].
Qed.

Lemma link_inv_recv W set a a' b :
  link_inv W set (a, b) -> recv (ses b) a a' -> link_inv W set (a', b).
Proof.
  intros Hinv Hr. pose proof Hinv as (Da & Db & H). simpl in *.
  split_and!; simpl; [by rewrite (recv_dom _ _ _ Hr)|done|].
  intros id Hid. destruct (link_inv_side_ok _ _ _ _ _ Hinv Hid) as [st [Hst _]].
  destruct (H id Hid) as [D1 D2]. pose proof (d_wire _ _ _ _ D1) as [_ Hw].
  pose proof (d_got _ _ _ _ D1) as [_ Hg].
  destruct (recv_effect id (ses b) a a' st Hr Hst Hw)
    as (fs & st' & new & Hfx & Hd & Edr & Hfs & _ & Hg').
  specialize (Hg' Hg). split; [by eapply dir_recv_tx|by eapply dir_recv_rx].
Qed.

Lemma link_inv_step W set p q :
  0 < W < 2 ^ 32 -> link_inv W set p -> link_step p q -> link_inv W set q.
Proof.
  intros HW Hinv Hs. revert Hinv. destruct Hs as [a a' b Hl|a b b' Hl|a a' b Hr|a b b' Hr];
    intros Hinv.
  - by eapply link_inv_local.
  - apply link_inv_swap. by eapply (link_inv_local _ _ b b' a), Hl; [|apply link_inv_swap].
  - by eapply link_inv_recv.
  - apply link_inv_swap. by eapply (link_inv_recv _ _ b b' a), Hr; apply link_inv_swap.
Qed.

Lemma NewSession_lookup set W id :
  0 < W -> id ∈ set -> streams (NewSession set W) !! id = Some (newStream id W).
Proof.
  intros HW Hid. unfold NewSession. simpl. rewrite (proj2 (Z.leb_gt W 0)) by lia.
  apply lookup_set_to_map; [by intros ?? _ _ [= ->]|]. by exists id.
Qed.

Lemma dir_init W set id : 0 < W -> id ∈ set -> dir W id (side0 set W) (side0 set W).
Proof.
  intros HW Hid. split; simpl; auto. pose proof (NewSession_lookup set W id HW Hid) as Hl.
  exists (newStream id W), (newStream id W). split_and!; auto; unfold flow, newStream; simpl;
    rewrite ?dlen_nil; try lia; done.
Qed.

Lemma reachable_inv set W p : 0 < W < 2 ^ 32 -> reachable set W p -> link_inv W set p.
Proof.
  intros HW. unfold reachable. set (p0 := (side0 set W, side0 set W)).
  assert (link_inv W set p0) as H0.
  { split_and!; simpl; [..|by intros; split; apply dir_init; try lia];
      (apply dom_from_lookup; intros id; unfold NewSession; simpl; split;
       [intros; rewrite (proj2 (Z.leb_gt W 0)) by lia; eexists;
        apply lookup_set_to_map; [by intros ?? _ _ [= ->]|by exists id]
       |intros [st Hst]; apply lookup_set_to_map in Hst as (? & ? & [= -> _]);
        [done|by intros ?? _ _ [= ->]]]). }
  clearbody p0. intros Hr. induction Hr as [|p q r Hs _ IH]; [done|].
  apply IH. by eapply link_inv_step.
Qed.

(** ** Theorems *)

(** C34 — Flow-control safety: whatever the two endpoints' goroutines do and
    however they interleave, the next DATA frame waiting for an endpoint fits
    in the receive window together with what is already buffered, so [deliver]
    never reports a window overflow between two endpoints running this code. *)
Theorem link_window_safe set W a b f st :
  0 < W < 2 ^ 32 -> reachable set W (a, b) ->
  wire (ses a) !! got b = Some f -> fType f = FrameData ->
  streams (ses b) !! fStream f = Some st ->
  st_window st = W /\
  Z.of_nat (length (buf st)) + Z.of_nat (length (fPayload f)) <= W /\
  (rEOF st = false -> rReset st = false -> snd (deliver st (fPayload f)) = None).
Proof.
  intros HW Hr Hf Ht Hst. apply reachable_inv in Hr as (_ & Db & H); [|done]. simpl in *.
  destruct (H (fStream f)) as [[(stx & sty & H1 & H2 & Hwin & ? & ? & ? & Hle & _) [_ Ht'] [_ Hw'] _] _].
  { rewrite <- Db. by eapply elem_of_dom_2. }
  assert (st = sty) as -> by congruence. clear H.
  assert (Z.of_nat (length (buf sty)) + Z.of_nat (length (fPayload f)) <= W).
  { unfold flow in Hle. rewrite (drop_S _ f (got b) Hf) in Hle.
    rewrite dlen_cons in Hle.
    assert (dlen (fStream f) [f] = Z.of_nat (length (fPayload f))) as Ed.
    { unfold dlen. by rewrite data_bytes_one, Ht, !Z.eqb_refl. }
    rewrite Ed in Hle.
    pose proof (dlen_nonneg (fStream f) (todo a)).
    pose proof (dlen_nonneg (fStream f) (drop (S (got b)) (wire (ses a)))).
    assert (0 <= usum (fStream f) (todo b)).
    { apply usum_nonneg. eapply Forall_impl; [exact Ht'|]. by intros ? []. }
    assert (0 <= usum (fStream f) (drop (got a) (wire (ses b)))) by by apply usum_nonneg, Forall_drop.
    lia. }
  split_and!; auto. intros He Hre. unfold deliver. rewrite He, Hre, Hwin. simpl.
  by rewrite (proj2 (Z.ltb_ge _ _)) by lia.
Qed.

(** C35 — Byte-pipe refinement: on every stream, what the readers of one end
    got followed by what is buffered there is a prefix of the bytes of the DATA
    frames the other end put on the wire, in order, without loss, duplication
    or mixing of streams; while the receiver runs, it is exactly the part of
    the wire it has dispatched. *)
Theorem link_byte_pipe set W a b id st :
  0 < W < 2 ^ 32 -> reachable set W (a, b) -> streams (ses b) !! id = Some st ->
  (read_bytes id (reads b) ++ buf st) `prefix_of` data_bytes id (wire (ses a)) /\
  (done_ (ses b) = false ->
   read_bytes id (reads b) ++ buf st = data_bytes id (take (got b) (wire (ses a)))).
Proof.
  intros HW Hr Hst. apply reachable_inv in Hr as (_ & Db & H); [|done]. simpl in *.
  destruct (H id) as [[(stx & sty & H1 & H2 & _ & _ & _ & _ & _ & _ & Hp & Hd) _ _ _] _].
  { rewrite <- Db. by eapply elem_of_dom_2. }
  assert (st = sty) as -> by congruence. split; [done|]. intros Hdn. specialize (Hd Hdn).
  rewrite <- (take_drop (got b) (wire (ses a))) in Hd at 1. rewrite data_bytes_app, app_assoc in Hd.
  by apply app_inv_tail in Hd.
Qed.

(** C36 — No stall: in a link where neither end has begun to close and nothing
    is in flight (no owed frame, every written frame dispatched, the receiving
    reader has drained its buffer), the sender of every stream has at least
    half of the window as credit: a writer is never left waiting for a
    WINDOW_UPDATE that nobody will send. *)
Theorem link_no_stall set W a b id stx sty :
  0 < W < 2 ^ 32 -> reachable set W (a, b) ->
  streams (ses a) !! id = Some stx -> streams (ses b) !! id = Some sty ->
  healthy (ses a) -> healthy (ses b) -> todo a = [] -> todo b = [] ->
  got a = length (wire (ses b)) -> got b = length (wire (ses a)) -> buf sty = [] ->
  0 < credit stx <= W /\ W <= 2 * credit stx.
Proof.
  intros HW Hr Ha Hb Hha Hhb Hta Htb Hga Hgb Hbuf.
  apply reachable_inv in Hr as (_ & Db & H); [|done]. simpl in *.
  destruct (H id) as [[(stx' & sty' & H1 & H2 & Hwin & ? & ? & Hc & _ & Heq & _) _ _ _] _].
  { rewrite <- Db. by eapply elem_of_dom_2. }
  assert (stx' = stx) as -> by congruence. assert (sty' = sty) as -> by congruence.
  specialize (Heq Hha Hhb). unfold flow in Heq.
  rewrite Hta, Htb, Hga, Hgb, Hbuf, !drop_all, !dlen_nil in Heq. simpl in Heq.
  pose proof (Z.mul_div_le W 2). lia.
Qed.

(** C37 — When a DATA frame is next in line for a stream that the receiver
    itself has reset, the receiver's whole session ends: every step its read
    loop can take stops it, retires the session and shuts every stream down,
    with a protocol error if the frame was read. *)
Theorem reset_then_data_ends_session a b b' f st :
  wire (ses a) !! got b = Some f -> fType f = FrameData -> isDataStream (fStream f) = true ->
  streams (ses b) !! fStream f = Some st -> rReset st = true ->
  recv (ses a) b b' ->
  done_ (ses b') = true /\ retired (ses b') = true /\ connClosed (ses b') = true /\
  (forall id st', streams (ses b') !! id = Some st' -> dead st' = true) /\
  (got b' <> got b -> serr (ses b) = None -> serr (ses b') = Some ErrProtocol).
Proof.
  intros Hf Ht Hd Hst Hre Hr.
  assert (forall (m : gmap Z Stream) id st', (shutdown <$> m) !! id = Some st' ->
    dead st' = true) as Hsh.
  { intros m id st' Hl. rewrite lookup_fmap in Hl. by destruct (m !! id); simplify_eq/=. }
  destruct Hr as [x f' w _ Hf'|x e w _]; simpl.
  - simplify_eq. unfold dispatch. rewrite Ht, Hd, Hst. simpl.
    unfold deliver. rewrite Hre, orb_true_r. simpl. split_and!; auto.
    + apply Hsh.
    + by intros _ ->.
  - destruct (_ && _); simpl; split_and!; auto; by try apply Hsh.
Qed.

(** ** A concrete link *)

(** Stdout and stderr over a window of four bytes; one end writes two bytes to
    stdout. *)
Definition demo_set : gset Z := PipeStreams false true true.
Definition demo_frame : Frame := mkFrame StreamStdout FrameData [104; 105].

Lemma demo_sent : exists a, reachable demo_set 4 (a, side0 demo_set 4) /\
  wire (ses a) = [demo_frame] /\ todo a = [] /\ got a = 0%nat /\ healthy (ses a) /\
  exists st, streams (ses a) !! StreamStdout = Some st.
Proof.
  eexists. split.
  - eapply rtc_l.
    { apply K_localA.
      eapply (L_acquire _ StreamStdout (newStream StreamStdout 4) _ 2 2 [104; 105]);
        [by vm_compute|done|by vm_compute|done]. }
    eapply rtc_l; [|apply rtc_refl]. apply K_localA.
    by eapply (L_write _ [] demo_frame [] None).
  - split_and!; try by vm_compute. eexists. by vm_compute.
Qed.

Lemma demo_stdout : exists st, streams (ses (side0 demo_set 4)) !! StreamStdout = Some st /\
  st = newStream StreamStdout 4.
Proof. eexists. split; [by vm_compute|done]. Qed.

Lemma link_window_safe_witness : exists a b f st,
  reachable demo_set 4 (a, b) /\ wire (ses a) !! got b = Some f /\
  Z.of_nat (length (buf st)) + Z.of_nat (length (fPayload f)) <= 4.
Proof.
  destruct demo_sent as (a & Hr & Hw & _), demo_stdout as (st & Hst & _).
  exists a, (side0 demo_set 4), demo_frame, st.
  assert (wire (ses a) !! 0%nat = Some demo_frame) as Hf by (by rewrite Hw).
  split_and!; [done|done|].
  apply (link_window_safe demo_set 4 a (side0 demo_set 4) demo_frame st); done.
Defined.

(** The other end dispatches the frame and reads one byte of it. *)
Lemma demo_read : exists a b stx sty, reachable demo_set 4 (a, b) /\
  streams (ses a) !! StreamStdout = Some stx /\ streams (ses b) !! StreamStdout = Some sty /\
  healthy (ses a) /\ healthy (ses b) /\ todo a = [] /\ todo b = [] /\
  got a = length (wire (ses b)) /\ got b = length (wire (ses a)) /\
  buf sty = [] /\ reads b = [(StreamStdout, [104])] /\ done_ (ses b) = false.
Proof.
  eexists _, _, _, _. split.
  - eapply rtc_l.
    { apply K_localA.
      eapply (L_acquire _ StreamStdout (newStream StreamStdout 4) _ 1 1 [104]);
        [by vm_compute|done|by vm_compute|done]. }
    eapply rtc_l.
    { apply K_localA. by eapply (L_write _ [] (mkFrame StreamStdout FrameData [104]) [] None). }
    eapply rtc_l.
    { apply K_recvB. by eapply (R_frame _ _ (mkFrame StreamStdout FrameData [104]) None). }
    eapply rtc_l; [|apply rtc_refl]. apply K_localB.
    eapply (L_read _ StreamStdout _ _ 1); by vm_compute.
  - split_and!; by vm_compute.
Qed.

Lemma link_byte_pipe_witness : exists a b st,
  reachable demo_set 4 (a, b) /\ streams (ses b) !! StreamStdout = Some st /\
  read_bytes StreamStdout (reads b) = [104] /\
  [104] ++ buf st = data_bytes StreamStdout (take (got b) (wire (ses a))).
Proof.
  destruct demo_read as (a & b & stx & sty & Hr & Ha & Hb & H).
  exists a, b, sty. destruct H as (_ & _ & _ & _ & _ & _ & _ & Hrd & Hd).
  assert (read_bytes StreamStdout (reads b) = [104]) as E by (by rewrite Hrd).
  split_and!; [done..|]. rewrite <- E.
  apply (link_byte_pipe demo_set 4 a b StreamStdout sty); done.
Defined.

Lemma link_no_stall_witness : exists a b stx,
  reachable demo_set 4 (a, b) /\ streams (ses a) !! StreamStdout = Some stx /\
  reads b = [(StreamStdout, [104])] /\ 4 <= 2 * credit stx.
Proof.
  destruct demo_read as (a & b & stx & sty & Hr & Ha & Hb & H).
  exists a, b, stx. destruct H as (? & ? & ? & ? & ? & ? & ? & ? & _).
  split_and!; [done..|].
  apply (link_no_stall demo_set 4 a b StreamStdout stx sty); done.
Defined.

(** Stdout is reset at the reading end while the two bytes are on the wire. *)
Lemma demo_reset : exists a b st, reachable demo_set 4 (a, b) /\
  wire (ses a) !! got b = Some demo_frame /\ done_ (ses b) = false /\
  streams (ses b) !! StreamStdout = Some st /\ rReset st = true /\
  healthy (ses a) /\ healthy (ses b) /\ serr (ses b) = None /\
  exists st3, streams (ses b) !! StreamStderr = Some st3.
Proof.
  eexists _, _, _. split.
  - eapply rtc_l.
    { apply K_localA.
      eapply (L_acquire _ StreamStdout (newStream StreamStdout 4) _ 2 2 [104; 105]);
        [by vm_compute|done|by vm_compute|done]. }
    eapply rtc_l.
    { apply K_localA. by eapply (L_write _ [] demo_frame [] None). }
    eapply rtc_l; [|apply rtc_refl]. apply K_localB.
    eapply (L_reset _ StreamStdout); by vm_compute.
  - split_and!; try by vm_compute. eexists. by vm_compute.
Qed.

Lemma reset_then_data_ends_session_witness : exists a b b',
  reachable demo_set 4 (a, b) /\ healthy (ses a) /\ healthy (ses b) /\
  recv (ses a) b b' /\ serr (ses b') = Some ErrProtocol /\
  exists st, streams (ses b') !! StreamStderr = Some st /\ dead st = true.
Proof.
  destruct demo_reset as (a & b & st & Hr & Hf & Hd & Hst & Hre & Ha & Hb & He & st3 & Hst3).
  pose proof (R_frame (ses a) b demo_frame None Hd Hf) as Hrecv.
  destruct (reset_then_data_ends_session a b _ demo_frame st Hf eq_refl eq_refl Hst Hre Hrecv)
    as (_ & _ & _ & Hdead & Herr).
  eexists a, b, _. split_and!; [done..|exact Hrecv|apply Herr; simpl; [lia|done]|].
  pose proof (recv_dom _ _ _ Hrecv) as Hdom.
  apply elem_of_dom_2 in Hst3. rewrite <- Hdom in Hst3. apply elem_of_dom in Hst3 as [st' Hst'].
  exists st'. split; [done|]. by eapply Hdead.
Defined.
