(* ===== verification/Page.v ===== *)
(** * Page: byte buffers, CRC-32 and the sealed 4 KiB pages of the DIFF formats.

    Slices of a Go byte buffer are lists of bytes; [slice] is [b[off:off+k]],
    [put] is [copy(b[off:], p)] and, with [le_bytes], [binary.PutUintN].
    [ChecksumIEEE] is hash/crc32's reflected CRC-32.  [sealPage] and [checkPage]
    are those of pkg/diffstore/internal/versioned/format.go. *)
From stdpp Require Import base numbers list strings.
From Stdlib Require Import ZArith Lia Ascii.
From S2P Require Import Prelude.

Definition PageSize : Z := 4096.
Definition page_len : nat := Z.to_nat PageSize.

(** [lia] with the length of a page known. *)
Ltac plia := unfold page_len, PageSize in *; lia.
Ltac page_side := first [assumption | plia | done].

(** The bytes of an ASCII string constant. *)
Definition str (s : string) : list Z :=
  (fun a => Z.of_N (N_of_ascii a)) <$> String.list_ascii_of_string s.

Definition slice (off k : nat) (b : list Z) : list Z := take k (drop off b).
Definition put (off : nat) (p b : list Z) : list Z :=
  take off b ++ take (length b - off) p ++ drop (off + length p) b.
Definition getLE (k off : nat) (b : list Z) : Z := le_val (slice off k b).
Definition putLE (k off : nat) (v : Z) (b : list Z) : list Z := put off (le_bytes k v) b.

Lemma slice_length off k b : (off + k <= length b)%nat -> length (slice off k b) = k.
Proof. intros. unfold slice. rewrite length_take, length_drop. lia. Qed.
Lemma slice_lookup off k b i :
  slice off k b !! i = if decide (i < k)%nat then b !! (off + i)%nat else None.
Proof.
  unfold slice. case_decide.
  - by rewrite lookup_take_lt, lookup_drop by lia.
  - apply lookup_take_ge. lia.
Qed.

Lemma put_length off p b : (off <= length b)%nat -> length (put off p b) = length b.
Proof. intros. unfold put. rewrite !length_app, !length_take, length_drop. lia. Qed.
Lemma put_lookup off p b i : (off + length p <= length b)%nat ->
  put off p b !! i = if decide (off <= i < off + length p)%nat then p !! (i - off)%nat else b !! i.
Proof.
  intros Hl. unfold put. rewrite (take_ge p) by lia.
  case_decide as Hi.
  - rewrite lookup_app_r, length_take by (rewrite length_take; lia).
    rewrite lookup_app_l by lia. f_equal. lia.
  - destruct (decide (i < off)%nat).
    + rewrite lookup_app_l by (rewrite length_take; lia). by apply lookup_take_lt.
    + rewrite lookup_app_r, length_take by (rewrite length_take; lia).
      rewrite lookup_app_r by lia. rewrite lookup_drop. f_equal. lia.
Qed.

Lemma slice_put_same off p b :
  (off + length p <= length b)%nat -> slice off (length p) (put off p b) = p.
Proof.
  intros. apply list_eq. intros i. rewrite slice_lookup, put_lookup by lia.
  repeat case_decide; try lia; [f_equal; lia|]. symmetry. apply lookup_ge_None. lia.
Qed.
Lemma slice_put_other off p b off' k :
  (off + length p <= length b)%nat -> (off' + k <= off)%nat \/ (off + length p <= off')%nat ->
  slice off' k (put off p b) = slice off' k b.
Proof.
  intros. apply list_eq. intros i. rewrite !slice_lookup, put_lookup by lia.
  repeat case_decide; try lia; done.
Qed.
(** A slice of a slice. *)
Lemma slice_slice off k off' k' b :
  (off' + k' <= k)%nat -> slice off' k' (slice off k b) = slice (off + off') k' b.
Proof.
  intros. apply list_eq. intros i. rewrite !slice_lookup. repeat case_decide; try lia; auto.
  f_equal. lia.
Qed.
Lemma slice_all b : slice 0 (length b) b = b.
Proof. unfold slice. by rewrite drop_0, take_ge by lia. Qed.
Lemma slice_app_l off k b c : (off + k <= length b)%nat -> slice off k (b ++ c) = slice off k b.
Proof.
  intros. unfold slice. rewrite drop_app_le, take_app_le by (rewrite ?length_drop; lia). done.
Qed.
(** Adjacent slices partition the buffer. *)
Lemma slice_cat off k k' b : slice off k b ++ slice (off + k) k' b = slice off (k + k') b.
Proof.
  unfold slice. rewrite <- (drop_drop b), take_take_drop. done.
Qed.

Lemma slice_ok off k b : bytes_ok b -> bytes_ok (slice off k b).
Proof. intros. by apply Forall_take, Forall_drop. Qed.
Lemma put_ok off p b : bytes_ok p -> bytes_ok b -> bytes_ok (put off p b).
Proof.
  intros. unfold put. apply Forall_app; split; [by apply Forall_take|].
  apply Forall_app; split; [by apply Forall_take|by apply Forall_drop].
Qed.

Lemma putLE_length k off v b : (off <= length b)%nat -> length (putLE k off v b) = length b.
Proof. apply put_length. Qed.
Lemma getLE_putLE k off v b :
  (off + k <= length b)%nat -> 0 <= v < 256 ^ Z.of_nat k -> getLE k off (putLE k off v b) = v.
Proof.
  intros. unfold getLE, putLE. pose proof (le_bytes_length k v) as E.
  rewrite <- E at 1. rewrite slice_put_same by lia. by apply le_val_bytes.
Qed.
Lemma getLE_putLE_other k off v b k' off' :
  (off + k <= length b)%nat -> (off' + k' <= off)%nat \/ (off + k <= off')%nat ->
  getLE k' off' (putLE k off v b) = getLE k' off' b.
Proof.
  intros. unfold getLE, putLE. rewrite slice_put_other; rewrite ?le_bytes_length; done.
Qed.
Lemma getLE_range k off b : bytes_ok b -> (off + k <= length b)%nat ->
  0 <= getLE k off b < 256 ^ Z.of_nat k.
Proof.
  intros Hb Hl. unfold getLE. pose proof (le_val_range (slice off k b) (slice_ok off k b Hb)) as H.
  by rewrite slice_length in H.
Qed.
Lemma putLE_ok k off v b : bytes_ok b -> bytes_ok (putLE k off v b).
Proof. intros. apply put_ok; auto with go. Qed.
#[export] Hint Resolve slice_ok put_ok putLE_ok : go.

(** ** hash/crc32 *)

Definition crc_poly : Z := 0xEDB88320.
Definition crc_bit (c : Z) : Z :=
  if Z.odd c then Z.lxor (Z.shiftr c 1) crc_poly else Z.shiftr c 1.
Definition crc_byte (c b : Z) : Z := Nat.iter 8 crc_bit (Z.lxor c b).
Definition crc_update (c : Z) (p : list Z) : Z := fold_left crc_byte p c.
Definition ChecksumIEEE (p : list Z) : Z :=
  Z.lxor (crc_update 0xFFFFFFFF p) 0xFFFFFFFF.

Lemma lxor_bound n a b : 0 <= n -> 0 <= a < 2 ^ n -> 0 <= b < 2 ^ n -> 0 <= Z.lxor a b < 2 ^ n.
Proof.
  intros Hn Ha Hb. assert (0 <= Z.lxor a b) as H0 by (apply Z.lxor_nonneg; lia).
  split; [done|]. destruct (Z.eq_dec (Z.lxor a b) 0) as [->|Hz]; [lia|].
  destruct (Z.eq_dec n 0) as [->|Hn0].
  { replace a with 0 in * by lia. by replace b with 0 in * by lia. }
  apply Z.log2_lt_pow2; [lia|]. pose proof (Z.log2_lxor a b ltac:(lia) ltac:(lia)) as Hl.
  assert (forall x, 0 <= x < 2 ^ n -> Z.log2 x < n) as Hx.
  { intros x Hx. destruct (Z.eq_dec x 0) as [->|]; [simpl; lia|]. apply Z.log2_lt_pow2; lia. }
  pose proof (Hx a Ha). pose proof (Hx b Hb). lia.
Qed.

Lemma crc_bit_range c : 0 <= c < 2 ^ 32 -> 0 <= crc_bit c < 2 ^ 32.
Proof.
  intros. assert (0 <= Z.shiftr c 1 < 2 ^ 32) by (rewrite Z.shiftr_div_pow2 by lia; div_lia).
  unfold crc_bit. case_match; [|done]. apply lxor_bound; unfold crc_poly; lia.
Qed.
Lemma crc_update_range p c :
  bytes_ok p -> 0 <= c < 2 ^ 32 -> 0 <= crc_update c p < 2 ^ 32.
Proof.
  intros Hp. revert c. induction Hp as [|b p Hb Hp IH]; intros c Hc; [done|]. cbn.
  apply IH. unfold crc_byte.
  assert (0 <= Z.lxor c b < 2 ^ 32) as H0 by (apply lxor_bound; unfold is_byte in *; lia).
  do 8 (apply crc_bit_range in H0). exact H0.
Qed.
Lemma ChecksumIEEE_range p : bytes_ok p -> 0 <= ChecksumIEEE p < 2 ^ 32.
Proof.
  intros. apply lxor_bound; [lia| |lia]. by apply crc_update_range.
Qed.

(** ** Sealed pages *)

Definition zeroPage : list Z := replicate page_len 0.
Definition isZero (b : list Z) : bool := forallb (fun v => v =? 0) b.

Definition sealPage (b : list Z) : list Z :=
  putLE 4 (page_len - 4) (ChecksumIEEE (take (page_len - 4) b)) b.
Definition checkPage (b : list Z) : bool :=
  bool_decide (length b = page_len) &&
  (getLE 4 (page_len - 4) b =? ChecksumIEEE (take (page_len - 4) b)).

(** A page buffer: 4096 bytes. *)
Definition is_page (b : list Z) : Prop := length b = page_len /\ bytes_ok b.

Lemma zeroPage_ok : is_page zeroPage.
Proof. split; [apply length_replicate|]. apply Forall_replicate. unfold is_byte; lia. Qed.
Lemma put_page off p b :
  is_page b -> bytes_ok p -> (off <= page_len)%nat -> is_page (put off p b).
Proof. intros [Hl Hb] Hp Ho. split; [rewrite put_length; lia|by apply put_ok]. Qed.
Lemma putLE_page k off v b : is_page b -> (off <= page_len)%nat -> is_page (putLE k off v b).
Proof. intros. apply put_page; auto with go. Qed.
Lemma sealPage_page b : is_page b -> is_page (sealPage b).
Proof. intros. apply putLE_page; [done|plia]. Qed.

Lemma sealPage_take b n : is_page b -> (n <= page_len - 4)%nat -> take n (sealPage b) = take n b.
Proof.
  intros [Hl _] Hn. pose proof (slice_put_other (page_len - 4)
    (le_bytes 4 (ChecksumIEEE (take (page_len - 4) b))) b 0 n) as H.
  unfold slice in H. rewrite !drop_0 in H. apply H; rewrite le_bytes_length; plia.
Qed.
Lemma sealPage_slice b off k :
  is_page b -> (off + k <= page_len - 4)%nat -> slice off k (sealPage b) = slice off k b.
Proof.
  intros [Hl _] Hn. apply slice_put_other; rewrite le_bytes_length; plia.
Qed.
Lemma sealPage_getLE b off k :
  is_page b -> (off + k <= page_len - 4)%nat -> getLE k off (sealPage b) = getLE k off b.
Proof. intros. unfold getLE. by rewrite sealPage_slice. Qed.

Lemma checkPage_seal b : is_page b -> checkPage (sealPage b) = true.
Proof.
  intros Hp. unfold checkPage. apply andb_true_iff; split.
  - apply bool_decide_eq_true. by apply sealPage_page.
  - apply Z.eqb_eq. rewrite sealPage_take by page_side. unfold sealPage.
    destruct Hp as [Hl Hb]. apply getLE_putLE; [plia|].
    pose proof (ChecksumIEEE_range (take (page_len - 4) b)) as H.
    change (256 ^ Z.of_nat 4) with (2 ^ 32). by apply H, Forall_take.
Qed.
Lemma sealPage_crc b : is_page b ->
  getLE 4 (page_len - 4) (sealPage b) = ChecksumIEEE (take (page_len - 4) (sealPage b)).
Proof. intros Hp. apply checkPage_seal in Hp. unfold checkPage in Hp. by bool_prop. Qed.
#[export] Hint Resolve zeroPage_ok put_page putLE_page sealPage_page : go.
