(* ===== verification/Presence.v ===== *)
(** * Presence: the logical presence bitmap of both writable DIFF formats.

    Models pkg/diffstore/internal/presence/bitmap.go: the bitmap operations, the
    word-at-a-time run search [End], and the sealed page encoding with its
    validation.  A bitmap is a list of bytes.  Indexing outside it, which would
    panic in Go, reads 0 here; every theorem states the bound its caller keeps. *)
From stdpp Require Import base numbers list strings.
From Stdlib Require Import ZArith Lia.
From S2P Require Import Prelude Page.

Definition MaxSize : Z := 2 ^ 40.
Definition HeaderSize : nat := 32.
Definition PayloadSize : Z := 4060.

Definition magic : list Z := str "KDPRES1" ++ [10].

Inductive presence_error :=
| ErrCapacity          (* writable capacity must be a positive 4 KiB multiple ... *)
| ErrPresencePage      (* invalid presence bitmap page *)
| ErrPresencePadding   (* nonzero presence bitmap padding *)
| ErrPresenceExtends   (* presence bitmap extends beyond logical capacity *)
| PanicPresencePage.   (* panic: invalid presence page *)

Definition ValidateSize (size : Z) : res presence_error unit :=
  if (size <=? 0) || negb (size mod PageSize =? 0) || (MaxSize <? size)
  then Err ErrCapacity else Ok tt.

Definition Bytes (size : Z) : Z := (size / PageSize + 7) / 8.
Definition Pages (size : Z) : Z := (Bytes size + PayloadSize - 1) / PayloadSize.

Definition byte_at (b : list Z) (i : Z) : Z := default 0 (b !! Z.to_nat i).
Definition Has (bitmap : list Z) (block : Z) : bool :=
  negb (Z.land (byte_at bitmap (block / 8)) (Z.shiftl 1 (block mod 8)) =? 0).
(** Named [Set] in the source, a keyword here. *)
Definition BitSet (bitmap : list Z) (block : Z) : list Z :=
  alter (fun v => Z.lor v (Z.shiftl 1 (block mod 8))) (Z.to_nat (block / 8)) bitmap.

(** [bits.TrailingZeros64] and [TrailingZeros8] of a nonzero word. *)
Fixpoint pos_zeros (p : positive) : Z :=
  match p with xO p => 1 + pos_zeros p | _ => 0 end.
Definition TrailingZeros (w : Z) : Z := match w with Zpos p => pos_zeros p | _ => 0 end.

(** The loop of [End]; every turn advances [page] by at least one. *)
Fixpoint End_loop (fuel : nat) (p : list Z) (set : bool) (page pages : Z) : Z :=
  match fuel with
  | O => pages
  | S fuel =>
      if pages <=? page then pages else
      let start := page / 64 * 8 in
      if start + 8 <=? Z.of_nat (length p) then
        let w := getLE 8 (Z.to_nat start) p in
        let w := if set then Z.lxor w (2 ^ 64 - 1) else w in
        let shift := page mod 64 in
        let w := Z.shiftr w shift in
        if negb (w =? 0) then Z.min pages (page + TrailingZeros w)
        else End_loop fuel p set (page + (64 - shift)) pages
      else
        let w := byte_at p (page / 8) in
        let w := if set then Z.lxor w (2 ^ 8 - 1) else w in
        let shift := page mod 8 in
        let w := Z.shiftr w shift in
        if negb (w =? 0) then Z.min pages (page + TrailingZeros w)
        else End_loop fuel p set (page + (8 - shift)) pages
  end.
Definition End (p : list Z) (page pages : Z) : Z :=
  End_loop (Z.to_nat (pages - page)) p (Has p page) (page + 1) pages.

(** [EncodeInto] on a cleared page; the guard is the panic of the source. *)
Definition Encode (bitmap : list Z) (size index : Z) : res presence_error (list Z) :=
  if negb (Z.of_nat (length bitmap) =? Bytes size) || (index <? 0) || (Pages size <=? index)
  then Err PanicPresencePage
  else
    let b := put 0 magic zeroPage in
    let b := putLE 4 8 index b in
    let b := putLE 4 12 (Pages size) b in
    let b := putLE 8 16 size b in
    let start := index * PayloadSize in
    let part := slice (Z.to_nat start)
                  (Z.to_nat (Z.min (start + PayloadSize) (Z.of_nat (length bitmap)) - start)) bitmap in
    Ok (sealPage (put HeaderSize part b)).

Definition Decode (b : list Z) (size index : Z) : res presence_error (list Z) :=
  let* _ := ValidateSize size in
  if negb (bool_decide (length b = page_len)) || (index <? 0) || (Pages size <=? index)
     || negb (bool_decide (slice 0 8 b = magic)) || negb (getLE 4 8 b =? index)
     || negb (getLE 4 12 b =? Pages size) || negb (getLE 8 16 b =? size)
     || negb (getLE 8 24 b =? 0)
     || negb (getLE 4 (page_len - 4) b =? ChecksumIEEE (take (page_len - 4) b))
  then Err ErrPresencePage
  else
    let n := Z.min PayloadSize (Bytes size - index * PayloadSize) in
    if negb (isZero (slice (HeaderSize + Z.to_nat n) (Z.to_nat (PayloadSize - n)) b))
    then Err ErrPresencePadding
    else
      let p := slice HeaderSize (Z.to_nat n) b in
      if (index =? Pages size - 1) && negb (size / PageSize mod 8 =? 0)
         && negb (Z.shiftr (byte_at p (n - 1)) (size / PageSize mod 8) =? 0)
      then Err ErrPresenceExtends
      else Ok p.

(** ** Bits *)

(** A bitmap for [total] blocks: the right number of bytes and no bit beyond. *)
Definition bitmap_ok (size : Z) (p : list Z) : Prop :=
  bytes_ok p /\ Z.of_nat (length p) = Bytes size /\
  forall block, size / PageSize <= block -> Has p block = false.

Lemma byte_at_range p i : bytes_ok p -> is_byte (byte_at p i).
Proof.
  intros Hp. unfold byte_at. destruct (p !! _) eqn:E; simpl; [|unfold is_byte; lia].
  by eapply Forall_lookup_1 in E.
Qed.

Lemma Has_testbit p block :
  Has p block = Z.testbit (byte_at p (block / 8)) (block mod 8).
Proof.
  unfold Has. set (v := byte_at p (block / 8)). set (i := block mod 8).
  assert (0 <= i < 8) by (subst i; apply Z.mod_pos_bound; lia).
  destruct (Z.testbit v i) eqn:E.
  - apply negb_true_iff, Z.eqb_neq. intros H0. apply (f_equal (fun x => Z.testbit x i)) in H0.
    rewrite Z.land_spec, E, Z.bits_0, Z.shiftl_1_l, Z.pow2_bits_true in H0 by lia. done.
  - apply negb_false_iff, Z.eqb_eq. apply Z.bits_inj_iff'. intros n Hn.
    rewrite Z.land_spec, Z.bits_0, Z.shiftl_1_l.
    destruct (Z.eq_dec n i) as [->|]; [by rewrite E|].
    by rewrite Z.pow2_bits_false, andb_false_r by lia.
Qed.

Lemma BitSet_length p block : length (BitSet p block) = length p.
Proof. apply length_alter. Qed.

Lemma byte_at_BitSet p block i : 0 <= block -> 0 <= i ->
  byte_at (BitSet p block) i =
    if (i =? block / 8) && (i <? Z.of_nat (length p))
    then Z.lor (byte_at p i) (Z.shiftl 1 (block mod 8)) else byte_at p i.
Proof.
  intros Hb Hi. unfold byte_at, BitSet. assert (0 <= block / 8) by (apply Z.div_pos; lia).
  destruct (i =? block / 8) eqn:E; bool_prop; simpl.
  - subst i. rewrite list_lookup_alter_eq. destruct (_ <? _) eqn:El; bool_prop.
    + destruct (lookup_lt_is_Some_2 p (Z.to_nat (block / 8))) as [v ->]; [lia|done].
    + by rewrite (lookup_ge_None_2 p) by lia.
  - by rewrite list_lookup_alter_ne by lia.
Qed.

Lemma BitSet_ok p block : bytes_ok p -> 0 <= block -> bytes_ok (BitSet p block).
Proof.
  intros Hp Hb. apply Forall_lookup_2. intros i v Hv.
  pose proof (byte_at_BitSet p block (Z.of_nat i) Hb ltac:(lia)) as H.
  unfold byte_at in H at 1. rewrite Nat2Z.id, Hv in H. simpl in H. subst v.
  pose proof (byte_at_range p (Z.of_nat i) Hp) as Hr. case_match; [|done].
  assert (0 <= block mod 8 < 8) by (apply Z.mod_pos_bound; lia). unfold is_byte in *.
  rewrite Z.shiftl_1_l. set (w := byte_at _ _) in *.
  assert (0 <= Z.lor w (2 ^ (block mod 8))) by (apply Z.lor_nonneg; lia).
  split; [done|]. change 256 with (2 ^ 8).
  destruct (Z.eq_dec (Z.lor w (2 ^ (block mod 8))) 0) as [->|]; [lia|].
  apply Z.log2_lt_pow2; [lia|]. rewrite Z.log2_lor by lia. rewrite Z.log2_pow2 by lia.
  destruct (Z.eq_dec w 0) as [->|]; [simpl; lia|].
  assert (Z.log2 w < 8) by (apply Z.log2_lt_pow2; lia). lia.
Qed.

(** [Set] sets its bit and no other. *)
Lemma Has_BitSet p block b :
  0 <= block < 8 * Z.of_nat (length p) -> 0 <= b ->
  Has (BitSet p block) b = (b =? block) || Has p b.
Proof.
  intros Hb Hb'. rewrite !Has_testbit, byte_at_BitSet by (try apply Z.div_pos; lia).
  assert (block / 8 < Z.of_nat (length p)) by (apply Z.div_lt_upper_bound; lia).
  destruct (b / 8 =? block / 8) eqn:E; bool_prop; simpl.
  - rewrite (proj2 (Z.ltb_lt _ _)) by lia. rewrite Z.lor_spec, Z.shiftl_1_l, orb_comm.
    f_equal. destruct (b =? block) eqn:Eb; bool_prop.
    + subst. rewrite Z.pow2_bits_true; [done|]. apply Z.mod_pos_bound; lia.
    + apply Z.pow2_bits_false. div_lia.
  - destruct (b =? block) eqn:Eb; bool_prop; [by subst|done].
Qed.

(** ** The run search *)

Lemma TrailingZeros_spec w : 0 < w ->
  0 <= TrailingZeros w /\ Z.testbit w (TrailingZeros w) = true /\
  forall i, 0 <= i < TrailingZeros w -> Z.testbit w i = false.
Proof.
  destruct w as [|p|p]; try lia. intros _. cbn [TrailingZeros].
  induction p as [p _|p IH|]; cbn [pos_zeros]; [split_and!; try done; lia| |split_and!; try done; lia].
  destruct IH as (H0 & Ht & Hb). split_and!; [lia| |].
  - change (Zpos p~0) with (2 * Zpos p).
    replace (1 + pos_zeros p) with (Z.succ (pos_zeros p)) by lia. by rewrite Z.double_bits_succ.
  - intros i Hi. change (Zpos p~0) with (2 * Zpos p).
    destruct (Z.eq_dec i 0) as [->|]; [apply Z.testbit_even_0|].
    replace i with (Z.succ (i - 1)) by lia. rewrite Z.double_bits_succ. apply Hb. lia.
Qed.

(** One word of [n] bits: what its shifted, possibly complemented value says. *)
Lemma scan_word (bit : Z -> bool) (w n shift : Z) (set : bool) :
  0 <= w < 2 ^ n -> 0 <= shift < n -> (forall i, 0 <= i < n -> Z.testbit w i = bit i) ->
  let w' := Z.shiftr (if set then Z.lxor w (2 ^ n - 1) else w) shift in
  0 <= w' /\
  (w' = 0 -> forall i, shift <= i < n -> bit i = set) /\
  (w' <> 0 -> let t := shift + TrailingZeros w' in
     shift <= t < n /\ bit t = negb set /\ forall i, shift <= i < t -> bit i = set).
Proof.
  intros Hw Hs Hbit w'. set (v := if set then Z.lxor w (2 ^ n - 1) else w) in *.
  assert (0 <= v < 2 ^ n) as Hv by (subst v; destruct set; [apply lxor_bound; lia|lia]).
  assert (forall i, 0 <= i < n -> Z.testbit v i = xorb (bit i) set) as Hvb.
  { intros i Hi. subst v. destruct set.
    - rewrite Z.lxor_spec, Hbit by lia. replace (2 ^ n - 1) with (Z.ones n) by (rewrite Z.ones_equiv; lia).
      by rewrite Z.ones_spec_low by lia.
    - by rewrite Hbit, xorb_false_r by lia. }
  assert (0 <= w') as H0 by (apply Z.shiftr_nonneg; lia).
  assert (forall i, 0 <= i -> Z.testbit w' i = Z.testbit v (i + shift)) as Hsh
    by (intros; apply Z.shiftr_spec; lia).
  assert (forall i, n <= i -> Z.testbit v i = false) as Hhi.
  { intros i Hi. destruct (Z.eq_dec v 0) as [->|]; [apply Z.bits_0|].
    apply Z.bits_above_log2; [lia|]. assert (Z.log2 v < n) by (apply Z.log2_lt_pow2; lia). lia. }
  assert (forall b, xorb b set = false -> b = set) as Hx by (by intros [] ?; destruct set).
  split_and!; [done| |].
  - intros Ez i Hi. apply Hx. rewrite <- Hvb by lia. specialize (Hsh (i - shift) ltac:(lia)).
    by rewrite Ez, Z.bits_0, Z.sub_add in Hsh.
  - intros Hnz t. destruct (TrailingZeros_spec w' ltac:(lia)) as (Ht0 & Ht1 & Htb).
    rewrite Hsh, Z.add_comm in Ht1 by lia. fold t in Ht1.
    assert (t < n) by (destruct (Z.lt_ge_cases t n); [done|rewrite Hhi in Ht1 by lia; done]).
    split_and!; [lia..| |].
    + rewrite Hvb in Ht1 by lia. by destruct (bit t), set.
    + intros i Hi. apply Hx. rewrite <- Hvb by lia. rewrite <- (Htb (i - shift)) by lia.
      rewrite Hsh by lia. f_equal. lia.
Qed.

Lemma testbit_le_val l i j : bytes_ok l -> 0 <= i -> 0 <= j < 8 ->
  Z.testbit (le_val l) (8 * i + j) = Z.testbit (byte_at l i) j.
Proof.
  intros Hl. revert i. induction Hl as [|b l Hb Hl IH]; intros i Hi Hj.
  - unfold byte_at. rewrite lookup_nil. simpl. by rewrite !Z.bits_0.
  - cbn [le_val]. unfold is_byte in Hb. destruct (Z.eq_dec i 0) as [->|Hn].
    + rewrite Z.mul_0_r, Z.add_0_l, <- (Z.mod_pow2_bits_low (b + 256 * le_val l) 8 j) by lia.
      f_equal. change (2 ^ 8) with 256. change (byte_at (b :: l) 0) with b. div_lia.
    + replace (8 * i + j) with (8 * (i - 1) + j + 8) by lia.
      rewrite <- Z.div_pow2_bits by lia. replace ((b + 256 * le_val l) / 2 ^ 8) with (le_val l)
        by (change (2 ^ 8) with 256; div_lia).
      rewrite IH by lia. unfold byte_at. f_equal.
      replace (Z.to_nat i) with (S (Z.to_nat (i - 1))) by lia. done.
Qed.

Lemma byte_at_slice off k p i : 0 <= i < Z.of_nat k ->
  byte_at (slice off k p) i = byte_at p (Z.of_nat off + i).
Proof.
  intros. unfold byte_at. rewrite slice_lookup, decide_True by lia. do 2 f_equal. lia.
Qed.

(** The bits [End] reads are the bitmap's. *)
Lemma Has_word p base i : bytes_ok p -> 0 <= base -> 0 <= i < 64 ->
  Z.testbit (getLE 8 (Z.to_nat (base * 8)) p) i = Has p (base * 64 + i).
Proof.
  intros Hp Hb Hi. unfold getLE. replace i with (8 * (i / 8) + i mod 8) at 1 by div_lia.
  rewrite testbit_le_val, byte_at_slice; auto with go; [|div_lia..].
  rewrite Has_testbit. f_equal; [f_equal|]; div_lia.
Qed.

Lemma End_loop_spec fuel p (set : bool) page pages :
  bytes_ok p -> 0 <= page <= pages -> pages <= 8 * Z.of_nat (length p) ->
  pages - page <= Z.of_nat fuel ->
  let e := End_loop fuel p set page pages in
  page <= e <= pages /\ (forall q, page <= q < e -> Has p q = set) /\
  (e < pages -> Has p e = negb set).
Proof.
  intros Hp. revert page. induction fuel as [|fuel IH]; intros page Hpage Hlen Hfuel.
  { cbn. replace page with pages by lia. split_and!; intros; lia. }
  cbn [End_loop]. destruct (pages <=? page) eqn:E; bool_prop.
  { split_and!; intros; lia. }
  assert (forall n shift w' base, 0 <= shift < n -> page = base * n + shift ->
    (w' = 0 -> forall i, shift <= i < n -> Has p (base * n + i) = set) ->
    (w' <> 0 -> let t := shift + TrailingZeros w' in
       shift <= t < n /\ Has p (base * n + t) = negb set /\
       forall i, shift <= i < t -> Has p (base * n + i) = set) ->
    let e := if negb (w' =? 0) then Z.min pages (page + TrailingZeros w')
             else End_loop fuel p set (page + (n - shift)) pages in
    page <= e <= pages /\ (forall q, page <= q < e -> Has p q = set) /\
    (e < pages -> Has p e = negb set)) as Hstep.
  { intros n shift w' base Hsh Hpg Hz Hnz. destruct (w' =? 0) eqn:Ew; bool_prop; cbn [negb].
    - specialize (Hz Ew). destruct (Z.le_gt_cases pages (page + (n - shift))) as [Hle|Hgt].
      + assert (forall q, page <= q < pages -> Has p q = set) as Hall.
        { intros q Hq. replace q with (base * n + (q - base * n)) by lia. apply Hz. lia. }
        assert (End_loop fuel p set (page + (n - shift)) pages = pages) as ->.
        { destruct fuel; [done|]. cbn [End_loop]. by rewrite (proj2 (Z.leb_le _ _)) by lia. }
        split_and!; [lia|lia|done|lia].
      + destruct (IH (page + (n - shift))) as (H1 & H2 & H3); [lia..|].
        split_and!; [lia|lia| |done]. intros q Hq.
        destruct (Z.lt_ge_cases q (page + (n - shift))) as [Hlt|]; [|apply H2; lia].
        replace q with (base * n + (q - base * n)) by lia. apply Hz. lia.
    - destruct (Hnz Ew) as (Ht & Hbit & Hbelow). set (t := TrailingZeros w') in *.
      assert (forall q, page <= q < page + t -> Has p q = set) as Hq.
      { intros q Hq. replace q with (base * n + (q - base * n)) by lia. apply Hbelow. lia. }
      split_and!; [lia|lia|intros q ?; apply Hq; lia|]. intros He.
      replace (Z.min pages (page + t)) with (base * n + (shift + t)) by lia. done. }
  destruct (_ <=? Z.of_nat (length p)) eqn:El; bool_prop.
  - pose proof (Z.mod_pos_bound page 64 ltac:(lia)).
    assert (0 <= page / 64) by (apply Z.div_pos; lia).
    pose proof (scan_word (fun i => Has p (page / 64 * 64 + i)) (getLE 8 (Z.to_nat (page / 64 * 8)) p)
      64 (page mod 64) set) as (Hw0 & Hw1 & Hw2); [|done|by intros; apply Has_word|].
    { change (2 ^ 64) with (256 ^ Z.of_nat 8). apply getLE_range; [done|lia]. }
    apply (Hstep 64 (page mod 64) _ (page / 64)); auto; [div_lia].
  - pose proof (Z.mod_pos_bound page 8 ltac:(lia)).
    pose proof (scan_word (fun i => Has p (page / 8 * 8 + i)) (byte_at p (page / 8))
      8 (page mod 8) set) as (Hw0 & Hw1 & Hw2); [by apply byte_at_range|done| |].
    { intros i Hi. rewrite Has_testbit. f_equal; [f_equal|]; div_lia. }
    apply (Hstep 8 (page mod 8) _ (page / 8)); auto; [div_lia].
Qed.

(** [End] finds the end of the presence run exactly: from [page] every block
    before the result has the same presence as [page], and the block at the
    result, if it lies before [pages], has the other one.  The word-at-a-time
    search is thus equivalent to the bit-by-bit scan, for runs of either kind and
    for bitmaps whose length is not a multiple of a word. *)
Theorem End_run p page pages :
  bytes_ok p -> 0 <= page < pages -> pages <= 8 * Z.of_nat (length p) ->
  page < End p page pages <= pages /\
  (forall q, page <= q < End p page pages -> Has p q = Has p page) /\
  (End p page pages < pages -> Has p (End p page pages) = negb (Has p page)).
Proof.
  intros Hp Hpage Hlen. unfold End.
  destruct (End_loop_spec (Z.to_nat (pages - page)) p (Has p page) (page + 1) pages)
    as (H1 & H2 & H3); [done|lia..|].
  split_and!; [lia|lia| |done]. intros q Hq.
  destruct (Z.eq_dec q page) as [->|]; [done|]. apply H2. lia.
Qed.

Lemma End_run_witness :
  let p := [255; 255; 255; 255; 255; 255; 255; 255; 7] in
  End p 3 70 = 67 /\ Has p 67 = negb (Has p 3).
Proof.
  assert (End [255; 255; 255; 255; 255; 255; 255; 255; 7] 3 70 = 67) as E by reflexivity.
  split; [exact E|].
  destruct (End_run [255; 255; 255; 255; 255; 255; 255; 255; 7] 3 70) as (_ & _ & H);
    [solve_bytes|lia|simpl; lia|]. rewrite E in H. apply H. lia.
Defined.

(** ** The page encoding *)

Definition valid_size (size : Z) : Prop := 0 < size <= MaxSize /\ size mod PageSize = 0.

Lemma ValidateSize_Ok size : ValidateSize size = Ok tt <-> valid_size size.
Proof.
  unfold ValidateSize, valid_size. split_ifs; bool_prop; split; intros; try done; try lia.
Qed.

Lemma size_bounds size : valid_size size ->
  0 < Bytes size <= 2 ^ 25 /\ 0 < Pages size < 2 ^ 32 /\
  (Pages size - 1) * PayloadSize < Bytes size <= Pages size * PayloadSize.
Proof.
  unfold valid_size, MaxSize, Pages, Bytes, PayloadSize, PageSize. intros [Hs Hm].
  assert (1 <= size / 4096 <= 2 ^ 28) as Hq by (clear - Hs Hm; div_lia).
  set (q := size / 4096) in *. clearbody q. clear - Hq.
  assert (0 < (q + 7) / 8 <= 2 ^ 25) as Hr by div_lia.
  set (r := (q + 7) / 8) in *. clearbody r. clear - Hr.
  pose proof (Z.div_mod (r + 4060 - 1) 4060 ltac:(lia)) as E.
  pose proof (Z.mod_pos_bound (r + 4060 - 1) 4060 ltac:(lia)). lia.
Qed.

(** The useful bytes of page [index]. *)
Definition part_len (size index : Z) : Z := Z.min PayloadSize (Bytes size - index * PayloadSize).
Definition part (bitmap : list Z) (size index : Z) : list Z :=
  slice (Z.to_nat (index * PayloadSize)) (Z.to_nat (part_len size index)) bitmap.

Lemma part_len_bounds size index : valid_size size -> 0 <= index < Pages size ->
  0 < part_len size index <= PayloadSize /\
  index * PayloadSize + part_len size index <= Bytes size /\
  (index = Pages size - 1 -> index * PayloadSize + part_len size index = Bytes size).
Proof.
  unfold part_len. intros Hs Hi. destruct (size_bounds size Hs) as (? & ? & ? & ?).
  split_and!; unfold PayloadSize in *; lia.
Qed.

Lemma slice_zeroPage off k : (off + k <= page_len)%nat -> slice off k zeroPage = replicate k 0.
Proof.
  intros. apply list_eq. intros i. rewrite slice_lookup. case_decide.
  - unfold zeroPage. by rewrite !lookup_replicate_2 by lia.
  - symmetry. apply lookup_ge_None. rewrite length_replicate. lia.
Qed.
Lemma isZero_replicate k : isZero (replicate k 0) = true.
Proof. induction k; [done|]. exact IHk. Qed.
Lemma isZero_true b : isZero b = true -> b = replicate (length b) 0.
Proof.
  induction b as [|v b IH]; [done|]. cbn. intros H. bool_prop. subst. f_equal. by apply IH.
Qed.

(** Everything [Decode] looks at in an encoded page. *)
Record encoded (bitmap : list Z) (size index : Z) (b : list Z) : Prop := {
  en_page : is_page b;
  en_magic : slice 0 8 b = magic;
  en_index : getLE 4 8 b = index;
  en_pages : getLE 4 12 b = Pages size;
  en_size : getLE 8 16 b = size;
  en_reserved : getLE 8 24 b = 0;
  en_crc : getLE 4 (page_len - 4) b = ChecksumIEEE (take (page_len - 4) b);
  en_part : slice HeaderSize (Z.to_nat (part_len size index)) b = part bitmap size index;
  en_pad : slice (HeaderSize + Z.to_nat (part_len size index))
             (Z.to_nat (PayloadSize - part_len size index)) b =
           replicate (Z.to_nat (PayloadSize - part_len size index)) 0 }.

Lemma getLE_zero k off b : slice off k b = replicate k 0 -> getLE k off b = 0.
Proof.
  unfold getLE. intros ->. induction k; [done|]. cbn [replicate le_val]. lia.
Qed.

Lemma Encode_encoded bitmap size index :
  bytes_ok bitmap -> Z.of_nat (length bitmap) = Bytes size ->
  valid_size size -> 0 <= index < Pages size ->
  exists b, Encode bitmap size index = Ok b /\ encoded bitmap size index b.
Proof.
  intros Hb Hl Hs Hi. destruct (part_len_bounds size index Hs Hi) as (Hp & Hp' & _).
  destruct (size_bounds size Hs) as (_ & HP & _). destruct Hs as [Hs _].
  unfold Encode. rewrite Hl, Z.eqb_refl, (proj2 (Z.ltb_ge _ _)), (proj2 (Z.leb_gt _ _)) by plia.
  cbn [negb orb]. eexists; split; [done|].
  replace (Z.min (index * PayloadSize + PayloadSize) (Bytes size) - index * PayloadSize)
    with (part_len size index) by (unfold part_len; plia).
  change (slice _ _ bitmap) with (part bitmap size index).
  assert (length (part bitmap size index) = Z.to_nat (part_len size index)) as Hpl
    by (unfold part; rewrite slice_length; unfold PayloadSize in *; plia).
  assert (bytes_ok magic) by (unfold magic; cbn; solve_bytes).
  set (b1 := put 0 magic zeroPage). set (b2 := putLE 4 8 index b1).
  set (b3 := putLE 4 12 (Pages size) b2). set (b4 := putLE 8 16 size b3).
  assert (is_page b1) as P1 by (apply put_page; auto with go; plia).
  assert (is_page b2) as P2 by (apply putLE_page; [done|plia]).
  assert (is_page b3) as P3 by (apply putLE_page; [done|plia]).
  assert (is_page b4) as P4 by (apply putLE_page; [done|plia]).
  set (b5 := put HeaderSize (part bitmap size index) b4).
  assert (is_page b5) as P5.
  { apply put_page; [done|by apply slice_ok|unfold HeaderSize; plia]. }
  assert (forall q, is_page q -> length q = page_len) as L by (by intros q [? _]).
  pose proof (L _ P1) as L1. pose proof (L _ P2) as L2. pose proof (L _ P3) as L3.
  pose proof (L _ P4) as L4. pose proof (L _ P5) as L5. clear L.
  assert (forall off k, (off + k <= 32)%nat -> slice off k (sealPage b5) = slice off k b4) as Hhead.
  { intros. rewrite sealPage_slice by page_side.
    apply slice_put_other; rewrite ?Hpl; unfold HeaderSize, PayloadSize in *; plia. }
  unfold PayloadSize, MaxSize in *.
  assert (forall off k, (off + k <= 16)%nat \/ (24 <= off)%nat -> slice off k b4 = slice off k b3) as S4
    by (intros; apply slice_put_other; rewrite ?le_bytes_length; plia).
  assert (forall off k, (off + k <= 12)%nat \/ (16 <= off)%nat -> slice off k b3 = slice off k b2) as S3
    by (intros; apply slice_put_other; rewrite ?le_bytes_length; plia).
  assert (forall off k, (off + k <= 8)%nat \/ (12 <= off)%nat -> slice off k b2 = slice off k b1) as S2
    by (intros; apply slice_put_other; rewrite ?le_bytes_length; plia).
  assert (forall off k, (8 <= off)%nat -> (off + k <= page_len)%nat -> slice off k b1 = replicate k 0) as S1.
  { intros. unfold b1. rewrite slice_put_other; [by apply slice_zeroPage|simpl; plia..]. }
  unfold HeaderSize in *. split; unfold HeaderSize, PayloadSize.
  - by apply sealPage_page.
  - rewrite Hhead, S4, S3, S2 by plia. apply (slice_put_same 0 magic).
    rewrite (proj1 zeroPage_ok). simpl; plia.
  - unfold getLE. rewrite Hhead, S4, S3 by plia. apply (getLE_putLE 4 8); plia.
  - unfold getLE. rewrite Hhead, S4 by plia. apply (getLE_putLE 4 12); plia.
  - unfold getLE. rewrite Hhead by plia. apply (getLE_putLE 8 16); plia.
  - apply (getLE_zero 8 24). rewrite Hhead, S4, S3, S2, S1 by plia. done.
  - exact (sealPage_crc b5 P5).
  - rewrite sealPage_slice by page_side. rewrite <- Hpl.
    apply slice_put_same. plia.
  - rewrite sealPage_slice by page_side.
    unfold b5. rewrite slice_put_other, S4, S3, S2, S1 by plia. done.
Qed.

Lemma Decode_encoded bitmap size index b :
  valid_size size -> bitmap_ok size bitmap -> 0 <= index < Pages size -> encoded bitmap size index b ->
  Decode b size index = Ok (part bitmap size index).
Proof.
  intros Hs (Hb & Hl & Hout) Hi []. destruct (part_len_bounds size index Hs Hi) as (Hp & Hp' & Hlast).
  unfold Decode. rewrite (proj2 (ValidateSize_Ok size) Hs). cbn [res_bind].
  rewrite bool_decide_true by apply en_page0. rewrite (proj2 (Z.ltb_ge _ _)) by lia.
  rewrite (proj2 (Z.leb_gt _ _)) by lia. rewrite bool_decide_true by done.
  rewrite en_index0, en_pages0, en_size0, en_reserved0, en_crc0, !Z.eqb_refl.
  fold (part_len size index). cbn [negb orb].
  rewrite en_pad0, isZero_replicate, en_part0. cbn [negb].
  destruct (index =? Pages size - 1) eqn:Ei; bool_prop; [|done].
  destruct (size / PageSize mod 8 =? 0) eqn:Em; bool_prop; [done|]. cbn [negb andb].
  rewrite (proj2 (Z.eqb_eq (Z.shiftr _ _) 0)); [done|].
  unfold part. rewrite byte_at_slice by lia.
  replace (Z.of_nat (Z.to_nat (index * PayloadSize)) + (part_len size index - 1))
    with (Bytes size - 1) by (unfold PayloadSize in *; lia).
  apply Z.bits_inj'. intros n Hn. rewrite Z.shiftr_spec, Z.bits_0 by lia.
  set (m := size / PageSize) in *. set (i := n + m mod 8).
  assert (0 <= m mod 8 < 8) by (apply Z.mod_pos_bound; lia).
  destruct (Z.lt_ge_cases i 8) as [Hlt|Hge].
  - assert (m <= (Bytes size - 1) * 8 + i) by (subst i; unfold Bytes; fold m; div_lia).
    rewrite <- (Hout ((Bytes size - 1) * 8 + i)) by done. rewrite Has_testbit.
    assert (0 <= i) by lia. f_equal; [f_equal|]; div_lia.
  - pose proof (byte_at_range bitmap (Bytes size - 1) Hb) as Hr. unfold is_byte in Hr.
    set (v := byte_at _ _) in *. destruct (Z.eq_dec v 0) as [->|]; [apply Z.bits_0|].
    apply Z.bits_above_log2; [lia|]. assert (Z.log2 v < 8) by (apply Z.log2_lt_pow2; lia). lia.
Qed.

(** Presence pages round trip: encoding any page of a well-formed bitmap
    succeeds, decoding it at the same capacity and ordinal gives back exactly its
    part of the bitmap, and no other capacity or ordinal accepts the page, so a
    page cannot silently move within a bitmap or between bitmaps. *)
Theorem Decode_Encode bitmap size index :
  valid_size size -> bitmap_ok size bitmap -> 0 <= index < Pages size ->
  exists b, Encode bitmap size index = Ok b /\
    Decode b size index = Ok (part bitmap size index) /\
    forall size' index' p, Decode b size' index' = Ok p -> size' = size /\ index' = index.
Proof.
  intros Hs Hok Hi. pose proof Hok as (Hb & Hl & _).
  destruct (Encode_encoded bitmap size index Hb Hl Hs Hi) as (b & HE & He).
  exists b. split; [done|]. split; [by apply Decode_encoded|]. destruct He.
  intros size' index' p. unfold Decode. destruct (ValidateSize size') as [[]|]; [|done].
    cbn [res_bind]. destruct (_ || _) eqn:E; [done|]. intros _. bool_prop. lia.
Qed.

Lemma Decode_Encode_witness : exists b,
  Encode [5; 1] 36864 0 = Ok b /\ Decode b 36864 0 = Ok [5; 1] /\ bitmap_ok 36864 [5; 1].
Proof.
  assert (bitmap_ok 36864 [5; 1]) as Hok.
  { split; [solve_bytes|]. split; [reflexivity|]. intros block Hb.
    unfold Has. assert (9 <= block) as Hb' by exact Hb. clear Hb.
    destruct (Z.eq_dec (block / 8) 1) as [E|E].
    - rewrite E. cbn. rewrite Z.shiftl_1_l. assert (1 <= block mod 8 < 8) by div_lia.
      assert (forall k, 1 <= k < 8 -> Z.land 1 (2 ^ k) = 0) as Hk.
      { intros k Hk. assert (k = 1 \/ k = 2 \/ k = 3 \/ k = 4 \/ k = 5 \/ k = 6 \/ k = 7) by lia.
        naive_solver. }
      by rewrite Hk.
    - unfold byte_at. rewrite lookup_ge_None_2; [done|]. simpl. div_lia. }
  destruct (Decode_Encode [5; 1] 36864 0) as (b & HE & HD & _);
    [split; [unfold MaxSize; lia|reflexivity]|exact Hok|split; [lia|reflexivity]|].
  exists b. split_and!; [exact HE|exact HD|exact Hok].
Defined.
