(* ===== verification/Json.v ===== *)
(** * Json: the part of encoding/json and unicode/utf8 the on-disk records use.

    [Marshal] of flat structs (unsigned integers, booleans, strings) and
    [Unmarshal] into them: the JSON grammar of the scanner, string unquoting with
    surrogates and replacement of invalid UTF-8, field matching by folded name,
    duplicate members, [null], and the range check of unsigned integers.  Strings
    are byte lists, as in Go. *)
From stdpp Require Import base numbers list strings.
From Stdlib Require Import ZArith Lia.
From S2P Require Import Prelude Page.

(** ** unicode/utf8 *)

Definition RuneError : Z := 0xFFFD.
Definition is_cont (b : Z) : bool := (0x80 <=? b) && (b <=? 0xBF).

(** [utf8.DecodeRune]: the rune and its width, (RuneError, 1) if invalid. *)
Definition DecodeRune (s : list Z) : Z * nat :=
  match s with
  | [] => (RuneError, 0%nat)
  | b0 :: s1 =>
      if b0 <? 0x80 then (b0, 1%nat)
      else if (0xC2 <=? b0) && (b0 <=? 0xDF) then
        match s1 with
        | b1 :: _ => if is_cont b1 then ((b0 - 0xC0) * 64 + (b1 - 0x80), 2%nat)
                     else (RuneError, 1%nat)
        | [] => (RuneError, 1%nat)
        end
      else if (0xE0 <=? b0) && (b0 <=? 0xEF) then
        match s1 with
        | b1 :: b2 :: _ =>
            if ((if b0 =? 0xE0 then 0xA0 else 0x80) <=? b1)
               && (b1 <=? (if b0 =? 0xED then 0x9F else 0xBF)) && is_cont b2
            then ((b0 - 0xE0) * 4096 + (b1 - 0x80) * 64 + (b2 - 0x80), 3%nat)
            else (RuneError, 1%nat)
        | _ => (RuneError, 1%nat)
        end
      else if (0xF0 <=? b0) && (b0 <=? 0xF4) then
        match s1 with
        | b1 :: b2 :: b3 :: _ =>
            if ((if b0 =? 0xF0 then 0x90 else 0x80) <=? b1)
               && (b1 <=? (if b0 =? 0xF4 then 0x8F else 0xBF)) && is_cont b2 && is_cont b3
            then ((b0 - 0xF0) * 262144 + (b1 - 0x80) * 4096 + (b2 - 0x80) * 64 + (b3 - 0x80),
                  4%nat)
            else (RuneError, 1%nat)
        | _ => (RuneError, 1%nat)
        end
      else (RuneError, 1%nat)
  end.

#[global] Arguments DecodeRune : simpl never.

(** [utf8.EncodeRune]; surrogates and values out of range become RuneError. *)
Definition EncodeRune (r : Z) : list Z :=
  if (0 <=? r) && (r <? 0x80) then [r]
  else if (0 <=? r) && (r <? 0x800) then [0xC0 + r / 64; 0x80 + r mod 64]
  else let r := if (r <? 0) || (0x10FFFF <? r) || ((0xD800 <=? r) && (r <=? 0xDFFF))
                then RuneError else r in
  if r <? 0x10000 then [0xE0 + r / 4096; 0x80 + r / 64 mod 64; 0x80 + r mod 64]
  else [0xF0 + r / 262144; 0x80 + r / 4096 mod 64; 0x80 + r / 64 mod 64; 0x80 + r mod 64].

(** [for _, r := range s]: every rune with the bytes it came from. *)
Fixpoint runes (fuel : nat) (s : list Z) : list (Z * list Z) :=
  match fuel, s with
  | S fuel, _ :: _ =>
      let '(r, n) := DecodeRune s in (r, take n s) :: runes fuel (drop n s)
  | _, _ => []
  end.
Definition range (s : list Z) : list (Z * list Z) := runes (length s) s.

(** [utf8.ValidString]. *)
Definition rune_valid (c : Z * list Z) : bool :=
  negb ((fst c =? RuneError) && bool_decide (length (snd c) = 1%nat)).
Definition ValidString (s : list Z) : bool := forallb rune_valid (range s).

(** ** Marshal *)

Definition hex_digit (n : Z) : Z := if n <? 10 then 48 + n else 97 + (n - 10).
Definition html_safe (b : Z) : bool :=
  (0x20 <=? b) && (b <? 0x80) && negb (b =? 34) && negb (b =? 92)
  && negb (b =? 38) && negb (b =? 60) && negb (b =? 62).

(** [appendString] with HTML escaping, one rune. *)
Definition quote_rune (c : Z * list Z) : list Z :=
  let '(r, bs) := c in
  if r <? 0x80 then
    if html_safe r then [r]
    else if (r =? 92) || (r =? 34) then [92; r]
    else if r =? 8 then [92; 98] else if r =? 12 then [92; 102]
    else if r =? 10 then [92; 110] else if r =? 13 then [92; 114]
    else if r =? 9 then [92; 116]
    else [92; 117; 48; 48; hex_digit (r / 16); hex_digit (r mod 16)]
  else if (r =? RuneError) && bool_decide (length bs = 1%nat) then [92; 117; 102; 102; 102; 100]
  else if (r =? 0x2028) || (r =? 0x2029) then [92; 117; 50; 48; 50; hex_digit (r mod 16)]
  else bs.
Definition appendString (s : list Z) : list Z := 34 :: concat (quote_rune <$> range s) ++ [34].

(** [strconv.AppendUint(_, n, 10)]; 20 digits are enough for 64 bits. *)
Fixpoint dec_digits (fuel : nat) (n : Z) (acc : list Z) : list Z :=
  match fuel with
  | O => acc
  | S fuel => let acc := 48 + n mod 10 :: acc in
              if n / 10 =? 0 then acc else dec_digits fuel (n / 10) acc
  end.
Definition appendUint (n : Z) : list Z := dec_digits 20 n [].
Definition appendBool (b : bool) : list Z := str (if b then "true" else "false").

(** A struct field of one of the kinds used, with its value. *)
Inductive field_value := FUint (n : Z) | FBool (b : bool) | FString (s : list Z).
Definition appendValue (v : field_value) : list Z :=
  match v with FUint n => appendUint n | FBool b => appendBool b | FString s => appendString s end.
Definition appendField (f : string * field_value) : list Z :=
  34 :: str (fst f) ++ [34; 58] ++ appendValue (snd f).
(** [Marshal] of a struct, fields in declaration order. *)
Fixpoint appendFields (l : list (string * field_value)) : list Z :=
  match l with
  | [] => []
  | [f] => appendField f
  | f :: l => appendField f ++ 44 :: appendFields l
  end.
Definition Marshal (l : list (string * field_value)) : list Z := 123 :: appendFields l ++ [125].

(** ** The scanner *)

Inductive json :=
| JNull
| JBool (b : bool)
| JNum (lit : list Z)
| JStr (s : list Z)
| JArr (l : list json)
| JObj (l : list (list Z * json)).

Definition is_space (b : Z) : bool := (b =? 32) || (b =? 9) || (b =? 13) || (b =? 10).
Fixpoint skip_space (s : list Z) : list Z :=
  match s with b :: s' => if is_space b then skip_space s' else s | [] => [] end.
Definition is_digit (b : Z) : bool := (48 <=? b) && (b <=? 57).
Fixpoint span_digits (s : list Z) : list Z * list Z :=
  match s with
  | b :: s' => if is_digit b then let '(d, r) := span_digits s' in (b :: d, r) else ([], s)
  | [] => ([], [])
  end.
Definition digits1 (s : list Z) : option (list Z * list Z) :=
  match span_digits s with ([], _) => None | p => Some p end.

(** A number literal: sign, integer part without leading zeros, fraction, exponent. *)
Definition scan_int (s : list Z) : option (list Z * list Z) :=
  match s with
  | 48 :: s => Some ([48], s)
  | _ => digits1 s
  end.
Definition scan_frac (s : list Z) : option (list Z * list Z) :=
  match s with
  | 46 :: s => match digits1 s with Some (d, r) => Some (46 :: d, r) | None => None end
  | _ => Some ([], s)
  end.
Definition scan_exp (s : list Z) : option (list Z * list Z) :=
  match s with
  | e :: s' =>
      if (e =? 101) || (e =? 69) then
        let '(sg, s') := match s' with
                         | 43 :: r => ([43], r) | 45 :: r => ([45], r) | _ => ([], s') end in
        match digits1 s' with Some (d, r) => Some (e :: sg ++ d, r) | None => None end
      else Some ([], s)
  | [] => Some ([], s)
  end.
Definition scan_number (s : list Z) : option (list Z * list Z) :=
  let '(sg, s) := match s with 45 :: r => ([45], r) | _ => ([], s) end in
  match scan_int s with
  | None => None
  | Some (i, s) =>
      match scan_frac s with
      | None => None
      | Some (f, s) =>
          match scan_exp s with
          | None => None
          | Some (e, s) => Some (sg ++ i ++ f ++ e, s)
          end
      end
  end.

Definition hex_val (b : Z) : option Z :=
  if is_digit b then Some (b - 48)
  else if (97 <=? b) && (b <=? 102) then Some (b - 97 + 10)
  else if (65 <=? b) && (b <=? 70) then Some (b - 65 + 10) else None.
(** [getu4] after the backslash and the [u]. *)
Definition getu4 (s : list Z) : option (Z * list Z) :=
  match s with
  | a :: b :: c :: d :: r =>
      match hex_val a, hex_val b, hex_val c, hex_val d with
      | Some a, Some b, Some c, Some d => Some (((a * 16 + b) * 16 + c) * 16 + d, r)
      | _, _, _, _ => None
      end
  | _ => None
  end.
Definition is_surrogate (r : Z) : bool := (0xD800 <=? r) && (r <? 0xE000).
(** [utf16.DecodeRune]. *)
Definition DecodeSurrogates (r1 r2 : Z) : Z :=
  if (0xD800 <=? r1) && (r1 <? 0xDC00) && (0xDC00 <=? r2) && (r2 <? 0xE000)
  then (r1 - 0xD800) * 1024 + (r2 - 0xDC00) + 0x10000 else RuneError.
Definition simple_escape (b : Z) : option Z :=
  if (b =? 34) || (b =? 92) || (b =? 47) then Some b
  else if b =? 98 then Some 8 else if b =? 102 then Some 12
  else if b =? 110 then Some 10 else if b =? 114 then Some 13
  else if b =? 116 then Some 9 else None.

(** The body of a string after its opening quote: unquoted bytes and the rest. *)
Fixpoint scan_string (fuel : nat) (s : list Z) : option (list Z * list Z) :=
  match fuel, s with
  | S fuel, b :: s' =>
      if b =? 34 then Some ([], s')
      else if b =? 92 then
        match s' with
        | 117 :: s' =>
            match getu4 s' with
            | None => None
            | Some (r, s') =>
                let '(r, s') :=
                  if is_surrogate r then
                    match s' with
                    | 92 :: 117 :: s'' =>
                        match getu4 s'' with
                        | Some (r2, s''') =>
                            let d := DecodeSurrogates r r2 in
                            if d =? RuneError then (RuneError, s') else (d, s''')
                        | None => (RuneError, s')
                        end
                    | _ => (RuneError, s')
                    end
                  else (r, s') in
                match scan_string fuel s' with
                | Some (t, rest) => Some (EncodeRune r ++ t, rest)
                | None => None
                end
            end
        | e :: s' =>
            match simple_escape e, scan_string fuel s' with
            | Some c, Some (t, rest) => Some (c :: t, rest)
            | _, _ => None
            end
        | [] => None
        end
      else if b <? 0x20 then None
      else
        let '(r, n) := DecodeRune s in
        match scan_string fuel (drop n s) with
        | Some (t, rest) => Some (EncodeRune r ++ t, rest)
        | None => None
        end
  | _, _ => None
  end.

Definition scan_lit (lit : string) (v : json) (s : list Z) : option (json * list Z) :=
  if decide (take (String.length lit) s = str lit)
  then Some (v, drop (String.length lit) s) else None.

(** A value, after leading space; [fuel] bounds the nesting and the members. *)
Fixpoint scan_value (fuel : nat) (s : list Z) : option (json * list Z) :=
  match fuel with
  | O => None
  | S fuel =>
      match skip_space s with
      | 34 :: s => match scan_string (length s) s with
                   | Some (t, r) => Some (JStr t, r) | None => None end
      | (116 :: _) as s => scan_lit "true" (JBool true) s
      | (102 :: _) as s => scan_lit "false" (JBool false) s
      | (110 :: _) as s => scan_lit "null" JNull s
      | 123 :: s =>
          match skip_space s with
          | 125 :: r => Some (JObj [], r)
          | s => match scan_members fuel s with
                 | Some (l, r) => Some (JObj l, r) | None => None end
          end
      | 91 :: s =>
          match skip_space s with
          | 93 :: r => Some (JArr [], r)
          | s => match scan_elements fuel s with
                 | Some (l, r) => Some (JArr l, r) | None => None end
          end
      | s => match scan_number s with
             | Some (n, r) => Some (JNum n, r) | None => None end
      end
  end
with scan_members (fuel : nat) (s : list Z) : option (list (list Z * json) * list Z) :=
  match fuel with
  | O => None
  | S fuel =>
      match skip_space s with
      | 34 :: s =>
          match scan_string (length s) s with
          | None => None
          | Some (key, s) =>
              match skip_space s with
              | 58 :: s =>
                  match scan_value fuel s with
                  | None => None
                  | Some (v, s) =>
                      match skip_space s with
                      | 125 :: r => Some ([(key, v)], r)
                      | 44 :: s => match scan_members fuel s with
                                   | Some (l, r) => Some ((key, v) :: l, r)
                                   | None => None end
                      | _ => None
                      end
                  end
              | _ => None
              end
          end
      | _ => None
      end
  end
with scan_elements (fuel : nat) (s : list Z) : option (list json * list Z) :=
  match fuel with
  | O => None
  | S fuel =>
      match scan_value fuel s with
      | None => None
      | Some (v, s) =>
          match skip_space s with
          | 93 :: r => Some ([v], r)
          | 44 :: s => match scan_elements fuel s with
                       | Some (l, r) => Some (v :: l, r) | None => None end
          | _ => None
          end
      end
  end.

(** A whole document: one value and trailing space. *)
Definition scan (s : list Z) : option json :=
  match scan_value (S (length s)) s with
  | Some (v, r) => match skip_space r with [] => Some v | _ => None end
  | None => None
  end.

(** ** Unmarshal *)

(** [foldName]: the ASCII letters, and the two runes that fold to one. *)
Definition fold_rune (c : Z * list Z) : list Z :=
  let '(r, bs) := c in
  if (97 <=? r) && (r <=? 122) then [r - 32]
  else if r =? 0x17F then [83] else if r =? 0x212A then [75] else bs.
Definition fold_name (key : list Z) : list Z := concat (fold_rune <$> range key).

Definition digits_val (lit : list Z) : Z := fold_left (fun n d => 10 * n + (d - 48)) lit 0.
(** [strconv.ParseUint(lit, 10, 64)] of a number literal. *)
Definition ParseUint (lit : list Z) : option Z :=
  if forallb is_digit lit && (digits_val lit <? 2 ^ 64) then Some (digits_val lit) else None.

Definition set_value (old : field_value) (v : json) : option field_value :=
  match old, v with
  | _, JNull => Some old
  | FUint _, JNum lit => match ParseUint lit with Some n => Some (FUint n) | None => None end
  | FBool _, JBool b => Some (FBool b)
  | FString _, JStr s => Some (FString s)
  | _, _ => None
  end.

(** The index of the field a key selects: by exact name, else by folded name. *)
Fixpoint find_field (p : string -> bool) (l : list (string * field_value)) : option nat :=
  match l with
  | [] => None
  | (n, _) :: l => if p n then Some 0%nat else S <$> find_field p l
  end.
Definition field_of (key : list Z) (l : list (string * field_value)) : option nat :=
  match find_field (fun n => bool_decide (str n = key)) l with
  | Some i => Some i
  | None => find_field (fun n => bool_decide (fold_name (str n) = fold_name key)) l
  end.

Definition set_member (l : list (string * field_value)) (m : list Z * json)
    : option (list (string * field_value)) :=
  match field_of (fst m) l with
  | None => Some l
  | Some i =>
      match l !! i with
      | None => None
      | Some (n, old) =>
          match set_value old (snd m) with Some v => Some (<[i := (n, v)]> l) | None => None end
      end
  end.
Fixpoint set_members (l : list (string * field_value)) (ms : list (list Z * json))
    : option (list (string * field_value)) :=
  match ms with
  | [] => Some l
  | m :: ms => match set_member l m with Some l => set_members l ms | None => None end
  end.

(** [Unmarshal] into a struct whose fields have the given (zero) values; [None]
    is any error. *)
Definition Unmarshal (data : list Z) (zero : list (string * field_value))
    : option (list (string * field_value)) :=
  match scan data with
  | Some JNull => Some zero
  | Some (JObj ms) => set_members zero ms
  | _ => None
  end.

(** ** UTF-8 *)

Ltac decode_cases H :=
  repeat match type of H with
  | context [if ?b then _ else _] =>
      lazymatch b with context [if _ then _ else _] => fail | _ => destruct b eqn:? end
  | context [match ?x with [] => _ | _ :: _ => _ end] => destruct x
  end.

(** A validly decoded rune encodes to the bytes it came from, and its decoding
    does not depend on what follows. *)
Lemma DecodeRune_valid s r n :
  bytes_ok s -> s <> [] -> DecodeRune s = (r, n) -> rune_valid (r, take n s) = true ->
  EncodeRune r = take n s /\ (0 < n <= length s)%nat /\ 0 <= r /\ (n = 1%nat -> r < 128) /\
  (n <> 1%nat -> 128 <= r /\ Forall (fun b => 128 <= b) (take n s)) /\
  forall x, DecodeRune (take n s ++ x) = (r, n).
Proof.
  intros Hb Hne H Hv. destruct s as [|b0 s]; [done|]. unfold DecodeRune in H. unfold is_cont in *.
  apply Forall_cons in Hb as [Hb0 Hb]. unfold is_byte in Hb0.
  decode_cases H; injection H as <- <-; cbn in Hv; try done;
    repeat (let H := fresh in apply Forall_cons in Hb as [H Hb]; unfold is_byte in H);
    repeat match goal with Hx : _ && _ = true |- _ => apply andb_true_iff in Hx as [? ?] end;
    bool_prop; cbn [take app length];
    (split; [unfold EncodeRune; split_ifs; bool_prop; try lia; repeat f_equal; div_lia|]);
    (split; [lia|]); (split; [lia|]); (split; [intros; lia|]);
    (split; [intros; split; [lia|repeat constructor; lia]|]);
    intros x; unfold DecodeRune, is_cont; split_ifs; bool_prop; try lia; try done.
Qed.

(** The runes of a valid string, as the induction of the round trip needs them. *)
Inductive valid_runes : list (Z * list Z) -> Prop :=
| vr_nil : valid_runes []
| vr_cons r bs l :
    bytes_ok bs -> EncodeRune r = bs -> (0 < length bs)%nat -> 0 <= r ->
    (r < 128 -> bs = [r]) -> (128 <= r -> Forall (fun b => 128 <= b) bs) ->
    (forall x, DecodeRune (bs ++ x) = (r, length bs)) ->
    valid_runes l -> valid_runes ((r, bs) :: l).

Lemma range_valid s : bytes_ok s -> ValidString s = true ->
  valid_runes (range s) /\ concat (snd <$> range s) = s.
Proof.
  unfold ValidString, range. intros Hb Hv.
  assert (length s <= length s)%nat as Hf by lia. revert Hf Hv Hb.
  generalize (length s) at 2 3 4 5 as fuel. intros fuel. revert s.
  induction fuel as [|fuel IH]; intros s Hf Hv Hb.
  { destruct s; [split; [constructor|done]|simpl in Hf; lia]. }
  destruct s as [|b0 s]; [split; [constructor|done]|].
  cbn [runes] in *. destruct (DecodeRune (b0 :: s)) as [r n] eqn:E.
  cbn [forallb] in Hv. apply andb_true_iff in Hv as [Hv1 Hv2].
  destruct (DecodeRune_valid (b0 :: s) r n Hb ltac:(done) E Hv1)
    as (He & Hn & Hr & H1 & H2 & Hx).
  destruct (IH (drop n (b0 :: s))) as [Hvr Hc]; [rewrite length_drop; simpl in *; lia|done|by apply Forall_drop|].
  assert (length (take n (b0 :: s)) = n) as Hln by (rewrite length_take; lia).
  cbn [fmap list_fmap concat]. split.
  - constructor; rewrite ?Hln; auto; [by apply Forall_take|lia| |].
    + intros Hr1. rewrite <- He. unfold EncodeRune.
      by rewrite (proj2 (Z.leb_le _ _)), (proj2 (Z.ltb_lt r 128)) by lia.
    + intros Hr2. destruct (decide (n = 1%nat)) as [Hn1|Hn1]; [lia|]. by apply H2.
  - cbn [snd]. change (concat (_ <$> runes fuel _)) with (concat (snd <$> runes fuel (drop n (b0 :: s)))).
    rewrite Hc. apply take_drop.
Qed.

Lemma hex_val_digit n : 0 <= n < 16 -> hex_val (hex_digit n) = Some n.
Proof.
  intros. unfold hex_val, hex_digit, is_digit. split_ifs; bool_prop; try lia; f_equal; lia.
Qed.

Lemma scan_u4 fuel a b c d rest :
  0 <= a < 16 -> 0 <= b < 16 -> 0 <= c < 16 -> 0 <= d < 16 ->
  let r := ((a * 16 + b) * 16 + c) * 16 + d in
  is_surrogate r = false ->
  scan_string (S fuel) (92 :: 117 :: hex_digit a :: hex_digit b :: hex_digit c :: hex_digit d :: rest) =
    match scan_string fuel rest with
    | Some (t, x) => Some (EncodeRune r ++ t, x) | None => None end.
Proof.
  intros Ha Hb Hc Hd r Hs. cbn [scan_string]. change (92 =? 34) with false.
  change (92 =? 92) with true. cbv iota. unfold getu4.
  rewrite !hex_val_digit by done. cbv iota beta. fold r. by rewrite Hs.
Qed.

(** One quoted rune is unquoted to its bytes. *)
Lemma scan_quoted fuel r bs l rest :
  valid_runes ((r, bs) :: l) ->
  scan_string (S fuel) (quote_rune (r, bs) ++ rest) =
    match scan_string fuel rest with
    | Some (t, x) => Some (bs ++ t, x) | None => None end.
Proof.
  intros Hv. assert (EncodeRune r = bs /\ (0 < length bs)%nat /\ 0 <= r /\
    (r < 128 -> bs = [r]) /\ (128 <= r -> Forall (fun b => 128 <= b) bs) /\
    (forall x, DecodeRune (bs ++ x) = (r, length bs))) as (He & Hl & Hr & Hlow & Hhigh & Hd)
    by (inversion Hv; subst; auto 10).
  unfold quote_rune. destruct (r <? 128) eqn:Er; bool_prop.
  - rewrite (Hlow Er) in *. destruct (html_safe r) eqn:Es.
    + unfold html_safe in Es. bool_prop. cbn [app scan_string].
      rewrite !(proj2 (Z.eqb_neq _ _)) by done. rewrite (proj2 (Z.ltb_ge _ _)) by lia.
      specialize (Hd rest). cbn [app length] in Hd. rewrite Hd. cbn [drop length]. rewrite He.
      rewrite drop_0. by destruct (scan_string fuel rest) as [[]|].
    + destruct ((r =? 92) || (r =? 34)) eqn:E1.
      { assert (simple_escape r = Some r) as Ee.
        { unfold simple_escape. destruct (r =? 92) eqn:E92; bool_prop; [by subst|].
          destruct E1 as [E1|E1]; bool_prop; [done|]. by rewrite E1. }
        assert (r <> 117) as H117 by (intros ->; done).
        cbn [app scan_string]. change (92 =? 34) with false. change (92 =? 92) with true. cbv iota.
        destruct (decide (r = 117)); [done|].
        transitivity (match simple_escape r, scan_string fuel rest with
          | Some c, Some (t, x) => Some (c :: t, x) | _, _ => None end).
        { repeat (case_match; simplify_eq/=; try done). }
        rewrite Ee. by destruct (scan_string fuel rest) as [[]|]. }
      destruct (r =? 8) eqn:E2; bool_prop; [subst r; cbn; by destruct (scan_string fuel rest) as [[]|]|].
      destruct (r =? 12) eqn:E3; bool_prop; [subst r; cbn; by destruct (scan_string fuel rest) as [[]|]|].
      destruct (r =? 10) eqn:E4; bool_prop; [subst r; cbn; by destruct (scan_string fuel rest) as [[]|]|].
      destruct (r =? 13) eqn:E5; bool_prop; [subst r; cbn; by destruct (scan_string fuel rest) as [[]|]|].
      destruct (r =? 9) eqn:E6; bool_prop; [subst r; cbn; by destruct (scan_string fuel rest) as [[]|]|].
      assert (((0 * 16 + 0) * 16 + r / 16) * 16 + r mod 16 = r) as Ev by div_lia.
      change 48 with (hex_digit 0). cbn [app]. rewrite scan_u4, Ev, He; [done|lia|lia|div_lia..|].
      rewrite Ev. unfold is_surrogate. by rewrite (proj2 (Z.leb_gt _ _)) by lia.
  - destruct ((r =? RuneError) && _) eqn:E1.
    { bool_prop. subst r. rewrite <- He in *. done. }
    destruct ((r =? 8232) || (r =? 8233)) eqn:E2.
    + change 50 with (hex_digit 2). change 48 with (hex_digit 0). cbn [app].
      bool_prop. destruct E2 as [E2|E2]; bool_prop; subst r; rewrite <- He;
        by apply (scan_u4 fuel 2 0 2).
    + specialize (Hhigh ltac:(lia)). destruct bs as [|b0 bs']; [simpl in Hl; lia|].
      apply Forall_cons in Hhigh as [Hb0 _].
      specialize (Hd rest). cbn [app] in Hd |- *. cbn [scan_string].
      rewrite !(proj2 (Z.eqb_neq b0 _)) by lia. rewrite (proj2 (Z.ltb_ge b0 _)) by lia.
      rewrite Hd. change (b0 :: bs' ++ rest) with ((b0 :: bs') ++ rest).
      rewrite drop_app_length, He. by destruct (scan_string fuel rest) as [[]|].
Qed.

Lemma scan_quoted_all l fuel rest : valid_runes l -> (length l < fuel)%nat ->
  scan_string fuel (concat (quote_rune <$> l) ++ 34 :: rest) = Some (concat (snd <$> l), rest).
Proof.
  intros Hv. revert fuel. induction l as [|[r bs] l IH]; intros fuel Hf.
  - destruct fuel; [simpl in Hf; lia|done].
  - destruct fuel as [|fuel]; [simpl in Hf; lia|]. cbn [fmap list_fmap concat].
    rewrite <- app_assoc. rewrite (scan_quoted fuel r bs l _ Hv).
    inversion Hv; subst. change (concat (list_fmap _ _ quote_rune l)) with (concat (quote_rune <$> l)).
    rewrite IH by (done || (simpl in Hf; lia)). done.
Qed.

Lemma runes_count fuel s : (length (runes fuel s) <= fuel)%nat.
Proof.
  revert s. induction fuel as [|fuel IH]; intros [|b s]; simpl; try lia.
  destruct (DecodeRune (b :: s)). simpl. specialize (IH (drop n (b :: s))). lia.
Qed.

(** ** Scanning what [Marshal] prints *)

Lemma scan_plain bs fuel rest :
  forallb html_safe bs = true -> (length bs < fuel)%nat ->
  scan_string fuel (bs ++ 34 :: rest) = Some (bs, rest).
Proof.
  revert fuel. induction bs as [|b bs IH]; intros fuel Hs Hf.
  - destruct fuel; [simpl in Hf; lia|done].
  - destruct fuel as [|fuel]; [simpl in Hf; lia|]. cbn [forallb] in Hs. bool_prop.
    unfold html_safe in H. bool_prop. cbn [app scan_string].
    rewrite !(proj2 (Z.eqb_neq b _)) by done. rewrite (proj2 (Z.ltb_ge b _)) by lia.
    unfold DecodeRune. rewrite (proj2 (Z.ltb_lt b 128)) by lia. cbn [drop]. rewrite drop_0.
    rewrite IH by (done || (simpl in Hf; lia)). unfold EncodeRune.
    by rewrite (proj2 (Z.leb_le _ _)), (proj2 (Z.ltb_lt b 128)) by lia.
Qed.

Lemma str_length s : length (str s) = String.length s.
Proof. unfold str. rewrite length_fmap. induction s; simpl; auto. Qed.
Lemma scan_lit_ok lit v rest : scan_lit lit v (str lit ++ rest) = Some (v, rest).
Proof.
  unfold scan_lit. rewrite <- str_length, take_app_length, decide_True by done.
  by rewrite drop_app_length.
Qed.

(** The decimal digits of [n]. *)
Record digits_of (n : Z) (ds : list Z) : Prop := {
  dg_digits : forallb is_digit ds = true;
  dg_val : digits_val ds = n;
  dg_head : exists d ds', ds = d :: ds' /\ (d = 48 -> ds' = []) }.

Lemma digits_val_snoc ds d : digits_val (ds ++ [d]) = 10 * digits_val ds + (d - 48).
Proof. unfold digits_val. by rewrite fold_left_app. Qed.

Lemma dec_digits_spec fuel n acc : (0 < fuel)%nat -> 0 <= n < 10 ^ Z.of_nat fuel ->
  exists ds, dec_digits fuel n acc = ds ++ acc /\ digits_of n ds.
Proof.
  revert n acc. induction fuel as [|fuel IH]; intros n acc Hf Hn; [lia|].
  cbn [dec_digits]. assert (0 <= n mod 10 < 10) by (apply Z.mod_pos_bound; lia).
  assert (is_digit (48 + n mod 10) = true) as Hd.
  { unfold is_digit. by rewrite !(proj2 (Z.leb_le _ _)) by lia. }
  destruct (n / 10 =? 0) eqn:E; bool_prop.
  - exists [48 + n mod 10]. split; [done|]. split.
    + cbn [forallb]. by rewrite Hd.
    + unfold digits_val. cbn [fold_left]. div_lia.
    + by eexists _, [].
  - rewrite Nat2Z.inj_succ, Z.pow_succ_r in Hn by lia.
    assert (0 < fuel)%nat by (destruct fuel; [simpl in Hn; div_lia|lia]).
    destruct (IH (n / 10) (48 + n mod 10 :: acc)) as (ds & -> & []); [done|div_lia|].
    exists (ds ++ [48 + n mod 10]). split; [by rewrite <- app_assoc|]. split.
    + by rewrite forallb_app, dg_digits0; cbn [forallb]; rewrite Hd.
    + rewrite digits_val_snoc, dg_val0. div_lia.
    + destruct dg_head0 as (d & ds' & -> & Hz). exists d, (ds' ++ [48 + n mod 10]).
      split; [done|]. intros H48. rewrite (Hz H48), H48 in dg_val0.
      unfold digits_val in dg_val0. cbn [fold_left] in dg_val0. lia.
Qed.
Lemma appendUint_digits n : is_u64 n -> digits_of n (appendUint n).
Proof.
  intros Hn. destruct (dec_digits_spec 20 n []) as (ds & H & Hd); [lia|unfold is_u64 in Hn; lia|].
  unfold appendUint. by rewrite H, app_nil_r.
Qed.

(** What follows a value inside an object. *)
Definition stop (r : list Z) : Prop := exists b r', r = b :: r' /\ (b = 44 \/ b = 125).

Lemma span_digits_stop ds r : forallb is_digit ds = true -> stop r -> span_digits (ds ++ r) = (ds, r).
Proof.
  intros Hd (b & r' & -> & Hb). induction ds as [|d ds IH].
  - cbn. by destruct Hb as [-> | ->].
  - cbn [forallb] in Hd. bool_prop. cbn [app span_digits]. by rewrite H, IH.
Qed.

Lemma scan_number_ok n ds r : digits_of n ds -> stop r -> scan_number (ds ++ r) = Some (ds, r).
Proof.
  intros [Hd _ (d & ds' & -> & Hz)] Hr. pose proof Hd as Hd0. cbn [forallb] in Hd0. bool_prop.
  assert (scan_int ((d :: ds') ++ r) = Some (d :: ds', r)) as Hi.
  { destruct (decide (d = 48)) as [->|Hne]; [by rewrite (Hz eq_refl)|].
    transitivity (digits1 ((d :: ds') ++ r)).
    - unfold is_digit in H. bool_prop.
      assert (d = 49 \/ d = 50 \/ d = 51 \/ d = 52 \/ d = 53 \/ d = 54 \/ d = 55 \/ d = 56 \/ d = 57)
        as Hc by lia. by destruct Hc as [->|[->|[->|[->|[->|[->|[->|[->| ->]]]]]]]].
    - unfold digits1. by rewrite span_digits_stop. }
  assert (scan_frac r = Some ([], r) /\ scan_exp r = Some ([], r)) as [Hf He].
  { destruct Hr as (b & r' & -> & [-> | ->]); done. }
  unfold scan_number. assert (d <> 45) by (unfold is_digit in H; bool_prop; lia).
  transitivity (match scan_int ((d :: ds') ++ r) with
    | None => None
    | Some (i, s) => match scan_frac s with None => None | Some (f, s) =>
        match scan_exp s with None => None | Some (e, s) => Some ([] ++ i ++ f ++ e, s) end end end).
  { cbn [app]. repeat (case_match; simplify_eq/=; try done). }
  rewrite Hi, Hf, He. cbn [app]. by rewrite !app_nil_r.
Qed.

Definition json_of (v : field_value) : json :=
  match v with FUint n => JNum (appendUint n) | FBool b => JBool b | FString s => JStr s end.
Definition field_ok (v : field_value) : Prop :=
  match v with
  | FUint n => is_u64 n | FBool _ => True
  | FString s => bytes_ok s /\ ValidString s = true
  end.

Lemma scan_value_ok fuel v r :
  field_ok v -> stop r -> scan_value (S fuel) (appendValue v ++ r) = Some (json_of v, r).
Proof.
  intros Hv Hr. destruct v as [n|b|s]; cbn [appendValue json_of field_ok] in *.
  - pose proof (appendUint_digits n Hv) as Hd. generalize dependent (appendUint n). intros ds Hd.
    pose proof (scan_number_ok n ds r Hd Hr) as Hs. destruct Hd as [Hd _ (d & ds' & -> & _)].
    cbn [forallb] in Hd. bool_prop. unfold is_digit in H. bool_prop.
    assert (d = 48 \/ d = 49 \/ d = 50 \/ d = 51 \/ d = 52 \/ d = 53 \/ d = 54 \/ d = 55 \/
            d = 56 \/ d = 57) as Hc by lia.
    cbn [app] in *. cbn [scan_value skip_space].
    destruct Hc as [->|[->|[->|[->|[->|[->|[->|[->|[->| ->]]]]]]]]];
      cbn [is_space Z.eqb Pos.eqb orb]; by rewrite Hs.
  - unfold appendBool. destruct b;
      [rewrite <- (scan_lit_ok "true" (JBool true) r)|rewrite <- (scan_lit_ok "false" (JBool false) r)];
      vm_compute; reflexivity.
  - destruct Hv as [Hb Hv]. destruct (range_valid s Hb Hv) as [Hvr Hc].
    unfold appendString. cbn [app]. rewrite <- app_assoc. cbn [app scan_value skip_space].
    change (is_space 34) with false. cbv iota.
    rewrite scan_quoted_all, Hc; [done|done|].
    assert (forall l, valid_runes l -> (length l <= length (concat (quote_rune <$> l)))%nat) as Hlen.
    { induction 1 as [|c bs l _ _ Hl _ Hlow _ _ _ IH]; [done|].
      cbn [fmap list_fmap concat]. rewrite length_app. change (concat (list_fmap _ _ _ l)) with
        (concat (quote_rune <$> l)). cbn [length].
      assert (0 < length (quote_rune (c, bs)))%nat; [|lia].
      unfold quote_rune. split_ifs; simpl; lia. }
    specialize (Hlen _ Hvr). rewrite length_app. simpl. lia.
Qed.

Definition name_ok (n : string) : Prop := forallb html_safe (str n) = true.

Lemma scan_members_ok fuel l r :
  l <> [] -> Forall (fun f => name_ok (fst f) /\ field_ok (snd f)) l -> (length l < fuel)%nat ->
  scan_members fuel (appendFields l ++ 125 :: r) =
    Some ((fun f => (str (fst f), json_of (snd f))) <$> l, r).
Proof.
  intros Hne Hl. revert fuel Hne. induction Hl as [|[n v] l [Hn Hv] Hl IH]; intros fuel Hne Hf; [done|].
  destruct fuel as [|[|fuel]]; [simpl in Hf; lia..|].
  assert (forall tail, stop tail ->
    scan_members (S (S fuel)) (appendField (n, v) ++ tail) =
      match skip_space tail with
      | 125 :: r => Some ([(str n, json_of v)], r)
      | 44 :: s => match scan_members (S fuel) s with
                   | Some (l, r) => Some ((str n, json_of v) :: l, r) | None => None end
      | _ => None
      end) as Hone.
  { intros tail Ht. unfold appendField. cbn [fst snd app]. rewrite <- !app_assoc. cbn [app].
    cbn [scan_members skip_space]. change (is_space 34) with false. cbv iota.
    rewrite scan_plain by (done || (rewrite length_app; simpl; lia)).
    cbn [skip_space]. change (is_space 58) with false. cbv iota.
    rewrite scan_value_ok by done. done. }
  destruct l as [|f l].
  - cbn [appendFields]. rewrite Hone by (eexists _, _; eauto). done.
  - change (appendFields ((n, v) :: f :: l)) with (appendField (n, v) ++ 44 :: appendFields (f :: l)).
    rewrite <- app_assoc. cbn [app]. rewrite Hone by (eexists _, _; eauto).
    cbn [skip_space]. change (is_space 44) with false. cbv iota.
    rewrite IH by (done || (simpl in *; lia)). done.
Qed.

Lemma appendFields_length l : (length l <= length (appendFields l))%nat.
Proof.
  induction l as [|f [|g l] IH]; [done|simpl; lia|].
  change (appendFields (f :: g :: l)) with (appendField f ++ 44 :: appendFields (g :: l)).
  rewrite length_app. cbn [length] in *. lia.
Qed.

Lemma scan_Marshal l :
  l <> [] -> Forall (fun f => name_ok (fst f) /\ field_ok (snd f)) l ->
  scan (Marshal l) = Some (JObj ((fun f => (str (fst f), json_of (snd f))) <$> l)).
Proof.
  intros Hne Hl. unfold scan, Marshal.
  pose proof (appendFields_length l) as Hlen.
  set (fuel := length (123 :: appendFields l ++ [125])).
  assert (length l < fuel)%nat as Hf by (subst fuel; simpl; rewrite length_app; simpl; lia).
  cbn [scan_value skip_space]. change (is_space 123) with false. cbv iota.
  assert (exists s, appendFields l ++ [125] = 34 :: s) as [s Es].
  { destruct l as [|f [|g l]]; [done|eexists; reflexivity|eexists; reflexivity]. }
  rewrite Es. cbn [skip_space]. change (is_space 34) with false. cbv iota.
  rewrite <- Es, scan_members_ok by done. done.
Qed.

(** ** Unmarshal of Marshal *)

Definition same_kind (a b : field_value) : Prop :=
  match a, b with
  | FUint _, FUint _ | FBool _, FBool _ | FString _, FString _ => True | _, _ => False
  end.

Lemma set_value_ok z v : same_kind z v -> field_ok v -> set_value z (json_of v) = Some v.
Proof.
  destruct z, v; cbn [set_value json_of same_kind field_ok]; intros Hk Hv; try done. destruct (appendUint_digits n0 Hv) as [Hd Hval _].
  unfold ParseUint. rewrite Hd, Hval. unfold is_u64 in Hv.
  by rewrite (proj2 (Z.ltb_lt _ _)) by lia.
Qed.

Lemma find_field_skip p done n z l :
  (forall f, f ∈ done -> p (fst f) = false) -> p n = true ->
  find_field p (done ++ (n, z) :: l) = Some (length done).
Proof.
  intros Hd Hp. induction done as [|[m w] done IH]; cbn [app find_field length]; [by rewrite Hp|].
  pose proof (Hd (m, w) ltac:(left)) as E. cbn [fst] in E. rewrite E, IH; [done|]. intros f Hf. apply Hd. by right.
Qed.

Lemma set_members_ok done zs l :
  Forall2 (fun z f => fst z = fst f /\ same_kind (snd z) (snd f)) zs l ->
  Forall (fun f => field_ok (snd f)) l ->
  NoDup ((fun f => str (fst f)) <$> (done ++ l)) ->
  set_members (done ++ zs) ((fun f => (str (fst f), json_of (snd f))) <$> l) = Some (done ++ l).
Proof.
  intros Hz. revert done. induction Hz as [|[n z] [n' v] zs l [En Hk] Hz IH]; intros done Hok Hnd.
  { done. }
  cbn [fst snd] in *. subst n'. apply Forall_cons in Hok as [Hv Hok]. cbn [snd] in Hv.
  cbn [fmap list_fmap set_members fst snd]. unfold set_member. cbn [fst snd].
  assert (field_of (str n) (done ++ (n, z) :: zs) = Some (length done)) as ->.
  { unfold field_of. rewrite find_field_skip; [done| |by apply bool_decide_eq_true].
    intros f Hf. apply bool_decide_eq_false. intros Heq. rewrite fmap_app in Hnd.
    apply NoDup_app in Hnd as (_ & Hdis & _). apply (Hdis (str n)).
    - rewrite <- Heq. by apply (list_elem_of_fmap_2 (fun f => str (fst f))).
    - cbn. left. }
  rewrite list_lookup_middle by done. rewrite set_value_ok by done.
  rewrite <- (Nat.add_0_r (length done)), insert_app_r. cbn.
  change (list_fmap _ _ _ l) with ((fun f => (str (fst f), json_of (snd f))) <$> l).
  replace (done ++ (n, v) :: zs) with ((done ++ [(n, v)]) ++ zs) by (by rewrite <- app_assoc).
  rewrite IH; [by rewrite <- app_assoc|done|]. by rewrite <- app_assoc.
Qed.

(** [Unmarshal] recovers what [Marshal] printed. *)
Lemma Unmarshal_Marshal zero l :
  l <> [] -> Forall2 (fun z f => fst z = fst f /\ same_kind (snd z) (snd f)) zero l ->
  Forall (fun f => name_ok (fst f) /\ field_ok (snd f)) l ->
  NoDup ((fun f => str (fst f)) <$> l) ->
  Unmarshal (Marshal l) zero = Some l.
Proof.
  intros Hne Hz Hok Hnd. unfold Unmarshal. rewrite scan_Marshal by done.
  apply (set_members_ok []); [done| |done]. eapply Forall_impl; [exact Hok|]. by intros ? [].
Qed.

(** ** Bytes and sizes of what [Marshal] prints *)

Lemma is_digit_byte d : is_digit d = true -> is_byte d.
Proof. unfold is_digit, is_byte. intros. bool_prop. lia. Qed.
Lemma appendUint_ok n : is_u64 n -> bytes_ok (appendUint n).
Proof.
  intros Hn. destruct (appendUint_digits n Hn) as [Hd _ _]. apply Forall_forall. intros d Hin.
  apply is_digit_byte. rewrite forallb_forall in Hd. apply Hd. by apply list_elem_of_In.
Qed.
Lemma dec_digits_length fuel n acc : (length (dec_digits fuel n acc) <= fuel + length acc)%nat.
Proof.
  revert n acc. induction fuel as [|fuel IH]; intros n acc; cbn [dec_digits]; [lia|].
  case_match; [simpl; lia|]. etransitivity; [apply IH|]. simpl. lia.
Qed.
Lemma appendUint_length n : (length (appendUint n) <= 20)%nat.
Proof. apply (dec_digits_length 20 n []). Qed.

Lemma str_ok s : bytes_ok (str s).
Proof.
  unfold str, bytes_ok. apply Forall_fmap, Forall_true. intros a. unfold is_byte. cbn.
  pose proof (Ascii.N_ascii_bounded a). lia.
Qed.

Lemma quote_rune_ok r bs l : valid_runes ((r, bs) :: l) ->
  bytes_ok (quote_rune (r, bs)) /\ (0 < length (quote_rune (r, bs)) <= 6)%nat.
Proof.
  intros Hv. assert (bytes_ok bs /\ EncodeRune r = bs /\ (0 < length bs)%nat /\ 0 <= r)
    as (Hb & He & Hl & Hr) by (inversion Hv; subst; auto).
  assert (forall n, 0 <= n < 16 -> is_byte (hex_digit n)) as Hh.
  { intros n Hn. unfold hex_digit, is_byte. split_ifs; bool_prop; lia. }
  assert (length bs <= 4)%nat by (rewrite <- He; unfold EncodeRune; split_ifs; simpl; lia).
  unfold quote_rune. destruct (r <? 128) eqn:E; bool_prop.
  - split_ifs; (split; [|simpl; lia]); repeat (apply Forall_cons_2; [try (unfold is_byte; lia)|]);
      try apply Forall_nil_2; apply Hh; div_lia.
  - split_ifs; (split; [|simpl; lia]); try solve_bytes; [|done].
    repeat (apply Forall_cons_2; [try (unfold is_byte; lia)|]); try apply Forall_nil_2.
    apply Hh. apply Z.mod_pos_bound. lia.
Qed.
Lemma quote_runes_ok l : valid_runes l ->
  bytes_ok (concat (quote_rune <$> l)) /\ (length (concat (quote_rune <$> l)) <= 6 * length l)%nat.
Proof.
  induction l as [|[r bs] l IH]; intros Hv; [split; [constructor|done]|].
  destruct (quote_rune_ok r bs l Hv) as [Hb Hl]. inversion Hv; subst.
  destruct IH as [IHb IHl]; [done|]. rewrite fmap_cons. cbn [concat]. split; [by apply Forall_app|].
  rewrite length_app. cbn [length]. lia.
Qed.
Lemma appendString_ok s : bytes_ok s -> ValidString s = true ->
  bytes_ok (appendString s) /\ (length (appendString s) <= 6 * length s + 2)%nat.
Proof.
  intros Hb Hv. destruct (range_valid s Hb Hv) as [Hvr _].
  destruct (quote_runes_ok _ Hvr) as [H1 H2]. unfold appendString. split.
  - constructor; [unfold is_byte; lia|]. apply Forall_app; split; [done|].
    constructor; [unfold is_byte; lia|constructor].
  - simpl. rewrite length_app. simpl. pose proof (runes_count (length s) s). unfold range in *. lia.
Qed.

Lemma appendField_ok f : field_ok (snd f) -> bytes_ok (appendField f).
Proof.
  intros Hv. unfold appendField. constructor; [unfold is_byte; lia|].
  apply Forall_app; split; [apply str_ok|]. cbn [app].
  do 2 (constructor; [unfold is_byte; lia|]). destruct (snd f) as [n|b|s]; cbn [field_ok appendValue] in *.
  - by apply appendUint_ok.
  - apply str_ok.
  - destruct Hv. by apply appendString_ok.
Qed.
Lemma Marshal_ok l : Forall (fun f => field_ok (snd f)) l -> bytes_ok (Marshal l).
Proof.
  intros Hl. unfold Marshal. constructor; [unfold is_byte; lia|].
  apply Forall_app; split; [|constructor; [unfold is_byte; lia|constructor]].
  induction Hl as [|f [|g l] Hf Hl IH]; [constructor|by apply appendField_ok|].
  change (appendFields (f :: g :: l)) with (appendField f ++ 44 :: appendFields (g :: l)).
  apply Forall_app; split; [by apply appendField_ok|]. constructor; [unfold is_byte; lia|done].
Qed.

Definition field_size (f : string * field_value) : nat :=
  String.length (fst f) + 4 +
  match snd f with FUint _ => 20 | FBool _ => 5 | FString s => 6 * length s + 2 end.
Lemma Marshal_length l : Forall (fun f => field_ok (snd f)) l ->
  (length (Marshal l) <= 2 + sum_list (field_size <$> l))%nat.
Proof.
  intros Hl. unfold Marshal. cbn [length]. rewrite length_app. cbn [length].
  assert (forall f, field_ok (snd f) -> (length (appendField f) + 1 <= field_size f)%nat) as Hf.
  { intros f Hv. unfold appendField, field_size. cbn [length]. rewrite !length_app, str_length.
    destruct (snd f) as [n|b|s]; cbn [appendValue length].
    - pose proof (appendUint_length n). lia.
    - destruct b; simpl; lia.
    - destruct Hv as [Hb Hv]. destruct (appendString_ok s Hb Hv). lia. }
  assert (length (appendFields l) <= sum_list (field_size <$> l))%nat; [|lia].
  induction Hl as [|f [|g l] Hv Hl IH]; [simpl; lia| |].
  - change (appendFields [f]) with (appendField f). specialize (Hf f Hv).
    change (sum_list (field_size <$> [f])) with (field_size f + 0)%nat. lia.
  - change (appendFields (f :: g :: l)) with (appendField f ++ 44 :: appendFields (g :: l)).
    rewrite length_app, fmap_cons. specialize (Hf f Hv). cbn [length].
    change (sum_list (field_size f :: (field_size <$> g :: l)))
      with (field_size f + sum_list (field_size <$> g :: l))%nat. lia.
Qed.
