(* ===== verification/Format.v ===== *)
(** * Format: the on-disk records of a versioned DIFF.

    Models the page-level part of pkg/diffstore/internal/versioned/format.go
    (slot layout, descriptors, the JSON metadata pages for the control record and
    the checkpoint records, identities) and the B+ page codec of tree.go. *)
From stdpp Require Import base numbers list strings.
From Stdlib Require Import ZArith Lia.
From S2P Require Import Prelude Page Presence Json.

(** The errors of the package; [DiffErr] carries the text of an [fmt.Errorf]. *)
Inductive diff_error :=
| ErrFormat | ErrBusy | ErrExists | ErrNotExist | ErrRetired
| ErrEncryptionRequired | ErrAuthentication | ErrPlaintextForbidden
| ErrPresence (e : presence_error)
| ErrReservation          (* errReservation joined with the cause *)
| ErrIO                   (* an error of the file or the lock *)
| ErrCanceled             (* ctx.Err() *)
| ErrClosed               (* os.ErrClosed *)
| DiscardRedoBudget (pages limit : Z)
| DiffErr (msg : string).
Notation dres := (res diff_error).

(** [uint64] addition and subtraction wrap. *)
Definition logCommitPage : Z := 2.
Definition logIndexPage : Z := 3.
Definition logIndexPages : Z := 3.
Definition logImagesPage : Z := logIndexPage + logIndexPages.
Definition maxLogPages : Z := logIndexPages * PageSize / 8.
Definition slotAreaPage : Z := 2048.
Definition slotsPerGroup : Z := 128.
Definition descriptorSize : Z := 24.
Definition cachePages : Z := 512.
Definition maxWritableSize : Z := 32 * 2 ^ 30.

Record control := mkControl {
  Root : Z; Next : Z; Free : Z; Garbage : Z; Epoch : Z; Current : Z; Head : Z;
  Tail : Z; Protected : Z; Pending : Z; GCScan : Z; Retired : bool; Tx : Z }.

Record checkpoint := mkCheckpoint {
  cp_ID : list Z; cp_Epoch : Z; cp_Root : Z; cp_Next : Z; cp_Previous : Z; cp_Garbage : Z;
  cp_Visible : bool; cp_Retained : bool; cp_Pending : bool;
  cp_Bitmap : Z; cp_BitmapDone : Z }.

Definition kindFree : Z := 0.
Definition kindData : Z := 1.
Definition kindIndex : Z := 2.
Definition kindCheckpoint : Z := 3.
Definition kindGarbage : Z := 4.
Definition kindBitmap : Z := 5.

Record descriptor := mkDescriptor { Birth : Z; dNext : Z; Kind : Z }.

#[global] Instance control_eq_dec : EqDecision control.
Proof. solve_decision. Defined.
#[global] Instance checkpoint_eq_dec : EqDecision checkpoint.
Proof. solve_decision. Defined.

(** ** Slots *)

Definition slotPage (slot : Z) : Z :=
  let n := slot - 1 in
  slotAreaPage + n / slotsPerGroup * (slotsPerGroup + 1) + 1 + n mod slotsPerGroup.
Definition descriptorPage (slot : Z) : Z :=
  slotAreaPage + (slot - 1) / slotsPerGroup * (slotsPerGroup + 1).
Definition descriptorOffset (slot : Z) : nat :=
  Z.to_nat (16 + (slot - 1) mod slotsPerGroup * descriptorSize).

(** The largest slot whose page offset fits in an int64 (from [allocate]). *)
Definition maxSlot : Z :=
  ((2 ^ 63 - 1) / PageSize - slotAreaPage) / (slotsPerGroup + 1) * slotsPerGroup.

Lemma maxSlot_val : maxSlot = 2234344001174016.
Proof. reflexivity. Qed.

Definition get_descriptor (b : list Z) (slot : Z) : descriptor :=
  let o := descriptorOffset slot in
  mkDescriptor (getLE 8 o b) (getLE 8 (o + 8) b) (getLE 8 (o + 16) b).
Definition put_descriptor (slot : Z) (d : descriptor) (b : list Z) : list Z :=
  let o := descriptorOffset slot in
  putLE 8 (o + 16) (Kind d) (putLE 8 (o + 8) (dNext d) (putLE 8 o (Birth d) b)).
(** The page [allocate] starts a descriptor group with. *)
Definition newDescriptorPage : list Z := sealPage (put 0 (str "KDDESC4") zeroPage).

(** ** JSON metadata pages *)

Definition encodeJSON (kind : string) (v : list (string * field_value)) : dres (list Z) :=
  let p := Marshal v in
  if PageSize - 20 <? Z.of_nat (length p) then Err (DiffErr "metadata exceeds a page")
  else
    let b := put 0 (str kind) zeroPage in
    let b := putLE 4 8 (Z.of_nat (length p)) b in
    Ok (sealPage (put 12 p b)).
Definition decodeJSON (b : list Z) (kind : string) (zero : list (string * field_value))
    : dres (list (string * field_value)) :=
  if negb (checkPage b) then Err (DiffErr "metadata checksum mismatch")
  else if negb (bool_decide (slice 0 (String.length kind) b = str kind))
  then Err (DiffErr "invalid page kind")
  else
    let n := getLE 4 8 b in
    if PageSize - 20 <? n then Err (DiffErr "invalid metadata length")
    else match Unmarshal (slice 12 (Z.to_nat n) b) zero with
         | Some v => Ok v
         | None => Err (DiffErr "json")
         end.

Definition control_fields (c : control) : list (string * field_value) :=
  [("Root", FUint (Root c)); ("Next", FUint (Next c)); ("Free", FUint (Free c));
   ("Garbage", FUint (Garbage c)); ("Epoch", FUint (Epoch c)); ("Current", FUint (Current c));
   ("Head", FUint (Head c)); ("Tail", FUint (Tail c)); ("Protected", FUint (Protected c));
   ("Pending", FUint (Pending c)); ("GCScan", FUint (GCScan c)); ("Retired", FBool (Retired c));
   ("Tx", FUint (Tx c))]%string.
Definition control_of (l : list (string * field_value)) : option control :=
  match snd <$> l with
  | [FUint r; FUint n; FUint f; FUint g; FUint e; FUint c; FUint h; FUint t; FUint p; FUint pe;
     FUint gs; FBool re; FUint tx] => Some (mkControl r n f g e c h t p pe gs re tx)
  | _ => None
  end.
Definition control0 : control := mkControl 0 0 0 0 0 0 0 0 0 0 0 false 0.

Definition checkpoint_fields (c : checkpoint) : list (string * field_value) :=
  [("ID", FString (cp_ID c)); ("Epoch", FUint (cp_Epoch c)); ("Root", FUint (cp_Root c));
   ("Next", FUint (cp_Next c)); ("Previous", FUint (cp_Previous c));
   ("Garbage", FUint (cp_Garbage c)); ("Visible", FBool (cp_Visible c));
   ("Retained", FBool (cp_Retained c)); ("Pending", FBool (cp_Pending c));
   ("Bitmap", FUint (cp_Bitmap c)); ("BitmapDone", FUint (cp_BitmapDone c))]%string.
Definition checkpoint_of (l : list (string * field_value)) : option checkpoint :=
  match snd <$> l with
  | [FString i; FUint e; FUint r; FUint n; FUint p; FUint g; FBool v; FBool re; FBool pe;
     FUint b; FUint bd] => Some (mkCheckpoint i e r n p g v re pe b bd)
  | _ => None
  end.
Definition checkpoint0 : checkpoint := mkCheckpoint [] 0 0 0 0 0 false false false 0 0.

Definition encodeControl (c : control) : dres (list Z) := encodeJSON "KDCONT4" (control_fields c).
Definition decodeControl (b : list Z) : dres control :=
  let* l := decodeJSON b "KDCONT4" (control_fields control0) in
  match control_of l with Some c => Ok c | None => Err (DiffErr "json") end.
Definition encodeCheckpoint (c : checkpoint) : dres (list Z) :=
  encodeJSON "KDCP4" (checkpoint_fields c).
Definition decodeCheckpoint (b : list Z) : dres checkpoint :=
  let* l := decodeJSON b "KDCP4" (checkpoint_fields checkpoint0) in
  match checkpoint_of l with Some c => Ok c | None => Err (DiffErr "json") end.

(** ** Identities *)

(** [unicode.IsControl]. *)
Definition IsControl (r : Z) : bool := (r <? 0x20) || ((0x7F <=? r) && (r <? 0xA0)).
Definition ValidID (id : list Z) : dres unit :=
  if (Z.of_nat (length id) =? 0) || (128 <? Z.of_nat (length id)) || negb (ValidString id)
  then Err (DiffErr "checkpoint ID must be valid UTF-8 of 1-128 bytes")
  else if existsb (fun c => IsControl (fst c)) (range id)
  then Err (DiffErr "checkpoint ID contains a control character")
  else Ok tt.

(** ** B+ pages (tree.go) *)

Definition maxEntries : Z := 255.
Definition maxDepth : nat := 8.

Record entry := mkEntry { key : Z; slot : Z }.
Record node := mkNode { leaf : bool; entries : list entry }.

#[global] Instance entry_eq_dec : EqDecision entry.
Proof. solve_decision. Defined.
#[global] Instance node_eq_dec : EqDecision node.
Proof. solve_decision. Defined.

Fixpoint put_entries (off : nat) (es : list entry) (b : list Z) : list Z :=
  match es with
  | [] => b
  | e :: es => put_entries (off + 16) es (putLE 8 (off + 8) (slot e) (putLE 8 off (key e) b))
  end.
Definition node_crc (b : list Z) : Z := ChecksumIEEE (take 12 b ++ drop 16 b).
Definition encodeNode (n : node) : list Z :=
  let b := put 0 (str "KDBTREE4") zeroPage in
  let b := putLE 2 8 (Z.of_nat (length (entries n))) b in
  let b := if leaf n then put 10 [1] b else b in
  let b := put_entries 16 (entries n) b in
  putLE 4 12 (node_crc b) b.

Fixpoint get_entries (count : nat) (off : nat) (b : list Z) : list entry :=
  match count with
  | O => []
  | S count => mkEntry (getLE 8 off b) (getLE 8 (off + 8) b) :: get_entries count (off + 16) b
  end.
(** No zero slot, and every key above the one before it. *)
Fixpoint entries_ordered (prev : option Z) (es : list entry) : bool :=
  match es with
  | [] => true
  | e :: es => negb (slot e =? 0) && (match prev with Some p => p <? key e | None => true end)
               && entries_ordered (Some (key e)) es
  end.
Definition decodeNode (b : list Z) : dres node :=
  if negb (bool_decide (length b = page_len)) || negb (bool_decide (take 8 b = str "KDBTREE4"))
  then Err (DiffErr "invalid B+ page")
  else if negb (node_crc b =? getLE 4 12 b) then Err (DiffErr "B+ checksum mismatch")
  else
    let count := getLE 2 8 b in
    let lf := byte_at b 10 in
    if (count =? 0) || (maxEntries <? count) || (1 <? lf)
    then Err (DiffErr "invalid B+ occupancy")
    else
      let es := get_entries (Z.to_nat count) 16 b in
      if entries_ordered None es then Ok (mkNode (negb (lf =? 0)) es)
      else Err (DiffErr "invalid B+ ordering").

(** ** Layout *)

(** The slot area is laid out without overlap: different slots have
    different pages, no slot page is a descriptor page, slots that share a
    descriptor page have disjoint 24-byte descriptors inside the sealed part of
    that page, everything lies behind the log and presence areas, and up to the
    allocator's limit every page offset fits in an int64. *)
Theorem slot_layout s t :
  1 <= s -> 1 <= t ->
  (slotPage s = slotPage t -> s = t) /\ slotPage s <> descriptorPage t /\
  slotAreaPage <= descriptorPage s < slotPage s /\
  (16 <= descriptorOffset s /\ descriptorOffset s + 24 <= page_len - 4)%nat /\
  (descriptorPage s = descriptorPage t -> s <> t ->
   (descriptorOffset s + 24 <= descriptorOffset t)%nat \/
   (descriptorOffset t + 24 <= descriptorOffset s)%nat) /\
  (s <= maxSlot -> (slotPage s + 1) * PageSize <= 2 ^ 63).
Proof.
  intros Hs Ht. change maxSlot with 2234344001174016.
  unfold slotPage, descriptorPage, descriptorOffset, slotAreaPage, slotsPerGroup,
    descriptorSize, page_len, PageSize.
  assert (forall x, 1 <= x -> 0 <= (x - 1) / 128 /\ 0 <= (x - 1) mod 128 < 128 /\
    x - 1 = 128 * ((x - 1) / 128) + (x - 1) mod 128) as Hx.
  { intros x H. split_and!; [apply Z.div_pos; lia|apply Z.mod_pos_bound; lia..|apply Z.div_mod; lia]. }
  pose proof (Hx s Hs) as (? & ? & ?). pose proof (Hx t Ht) as (? & ? & ?).
  set (qs := (s - 1) / 128) in *. set (rs := (s - 1) mod 128) in *.
  set (qt := (t - 1) / 128) in *. set (rt := (t - 1) mod 128) in *.
  clearbody qs rs qt rt. split_and!; try lia; plia.
Qed.

Lemma slot_layout_witness :
  slotPage 128 <> slotPage 129 /\ slotPage 128 <> descriptorPage 129 /\
  slotPage 129 = slotPage 128 + 2.
Proof.
  split_and!; [|apply (slot_layout 128 129); lia|reflexivity].
  intros H. apply (slot_layout 128 129) in H; lia.
Defined.

Lemma slotPage_inj s t : 1 <= s -> 1 <= t -> slotPage s = slotPage t -> s = t.
Proof.
  unfold slotPage, slotAreaPage, slotsPerGroup. intros.
  pose proof (Z.mod_pos_bound (s - 1) 128 ltac:(lia)). pose proof (Z.mod_pos_bound (t - 1) 128 ltac:(lia)).
  pose proof (Z.div_mod (s - 1) 128 ltac:(lia)). pose proof (Z.div_mod (t - 1) 128 ltac:(lia)). lia.
Qed.
Lemma slotPage_descriptorPage s t : 1 <= s -> 1 <= t -> slotPage s <> descriptorPage t.
Proof.
  unfold slotPage, descriptorPage, slotAreaPage, slotsPerGroup. intros.
  pose proof (Z.mod_pos_bound (s - 1) 128 ltac:(lia)). lia.
Qed.
Lemma slotPage_area s : 1 <= s -> slotAreaPage < slotPage s.
Proof.
  unfold slotPage, slotsPerGroup. intros.
  pose proof (Z.mod_pos_bound (s - 1) 128 ltac:(lia)).
  pose proof (Z.div_pos (s - 1) 128 ltac:(lia) ltac:(lia)). lia.
Qed.
Lemma descriptorPage_area s : 1 <= s -> slotAreaPage <= descriptorPage s.
Proof.
  unfold descriptorPage, slotsPerGroup. intros.
  pose proof (Z.div_pos (s - 1) 128 ltac:(lia) ltac:(lia)). lia.
Qed.
Lemma descriptorOffset_range s : (16 <= descriptorOffset s /\ descriptorOffset s + 24 <= page_len - 4)%nat.
Proof.
  unfold descriptorOffset, slotsPerGroup, descriptorSize.
  pose proof (Z.mod_pos_bound (s - 1) 128 ltac:(lia)). plia.
Qed.
Lemma descriptorOffset_disjoint s t : descriptorPage s = descriptorPage t -> s <> t ->
  (descriptorOffset s + 24 <= descriptorOffset t)%nat \/
  (descriptorOffset t + 24 <= descriptorOffset s)%nat.
Proof.
  unfold descriptorPage, descriptorOffset, slotsPerGroup, descriptorSize. intros.
  pose proof (Z.mod_pos_bound (s - 1) 128 ltac:(lia)). pose proof (Z.mod_pos_bound (t - 1) 128 ltac:(lia)).
  pose proof (Z.div_mod (s - 1) 128 ltac:(lia)). pose proof (Z.div_mod (t - 1) 128 ltac:(lia)). lia.
Qed.

(** ** Descriptors *)

Definition descriptor_ok (d : descriptor) : Prop :=
  is_u64 (Birth d) /\ is_u64 (dNext d) /\ is_u64 (Kind d).

Lemma put_descriptor_page s d b : is_page b -> is_page (put_descriptor s d b).
Proof.
  intros. pose proof (descriptorOffset_range s). unfold put_descriptor.
  repeat apply putLE_page; auto; plia.
Qed.
Lemma put_descriptor_getLE s d b k off : is_page b ->
  (off + k <= descriptorOffset s)%nat \/ (descriptorOffset s + 24 <= off)%nat ->
  getLE k off (put_descriptor s d b) = getLE k off b.
Proof.
  intros [Hl _] Ho. pose proof (descriptorOffset_range s). unfold put_descriptor.
  rewrite !getLE_putLE_other by (rewrite ?putLE_length; rewrite ?putLE_length; plia). done.
Qed.
Lemma get_put_descriptor s d b :
  is_page b -> descriptor_ok d -> get_descriptor (put_descriptor s d b) s = d.
Proof.
  intros [Hl _] (H1 & H2 & H3). pose proof (descriptorOffset_range s).
  unfold get_descriptor, put_descriptor, is_u64 in *. destruct d as [bi nx ki]; cbn in *.
  assert (2 ^ 64 = 256 ^ Z.of_nat 8) as E by done.
  f_equal; rewrite ?getLE_putLE_other by (rewrite ?putLE_length; rewrite ?putLE_length; plia);
    apply getLE_putLE; rewrite ?putLE_length; rewrite ?putLE_length; plia.
Qed.
Lemma get_put_descriptor_ne s t d b : is_page b ->
  descriptorPage s = descriptorPage t -> s <> t ->
  get_descriptor (put_descriptor s d b) t = get_descriptor b t.
Proof.
  intros Hb Hp Hne. pose proof (descriptorOffset_disjoint s t Hp Hne).
  unfold get_descriptor. by rewrite !put_descriptor_getLE by page_side.
Qed.
Lemma get_descriptor_seal s b : is_page b -> get_descriptor (sealPage b) s = get_descriptor b s.
Proof.
  intros. pose proof (descriptorOffset_range s). unfold get_descriptor.
  by rewrite !sealPage_getLE by page_side.
Qed.
Lemma get_descriptor_ok s b : is_page b -> descriptor_ok (get_descriptor b s).
Proof.
  intros [Hl Hb]. pose proof (descriptorOffset_range s).
  unfold get_descriptor, descriptor_ok, is_u64. cbn. change (2 ^ 64) with (256 ^ Z.of_nat 8).
  split_and!; apply getLE_range; page_side.
Qed.
#[export] Hint Resolve put_descriptor_page get_descriptor_ok : go.

(** ** Metadata pages *)

Lemma decode_encodeJSON kind v zero :
  (String.length kind <= 8)%nat -> (length (Marshal v) <= 4076)%nat -> v <> [] ->
  Forall2 (fun z f => fst z = fst f /\ same_kind (snd z) (snd f)) zero v ->
  Forall (fun f => name_ok (fst f) /\ field_ok (snd f)) v ->
  NoDup ((fun f => str (fst f)) <$> v) ->
  exists b, encodeJSON kind v = Ok b /\ is_page b /\ checkPage b = true /\
    decodeJSON b kind zero = Ok v.
Proof.
  intros Hk Hl Hne Hz Hok Hnd. unfold encodeJSON, PageSize.
  rewrite (proj2 (Z.ltb_ge _ _)) by plia. eexists; split; [done|].
  assert (bytes_ok (Marshal v)) as Hm.
  { apply Marshal_ok. eapply Forall_impl; [exact Hok|]. by intros ? []. }
  pose proof (Unmarshal_Marshal zero v Hne Hz Hok Hnd) as Hu.
  generalize dependent (Marshal v). intros p Hl Hp Hu.
  set (b1 := put 0 (str kind) zeroPage). set (b2 := putLE 4 8 (Z.of_nat (length p)) b1).
  pose proof (str_length kind) as Hsl.
  assert (is_page b1) as P1 by (apply put_page; auto using str_ok with go; plia).
  assert (is_page b2) as P2 by (apply putLE_page; [done|plia]).
  assert (is_page (put 12 p b2)) as P3 by (apply put_page; [done|done|plia]).
  assert (length b1 = page_len /\ length b2 = page_len) as [L1 L2] by (split; [apply P1|apply P2]).
  split; [by apply sealPage_page|]. split; [by apply checkPage_seal|].
  unfold decodeJSON. rewrite checkPage_seal by done. cbn [negb].
  assert (slice 0 (String.length kind) (sealPage (put 12 p b2)) = str kind) as Ek.
  { rewrite sealPage_slice by page_side.
    rewrite slice_put_other by plia. unfold b2, putLE.
    rewrite slice_put_other by (rewrite ?le_bytes_length; plia).
    rewrite <- Hsl. apply (slice_put_same 0 (str kind)). rewrite (proj1 zeroPage_ok). plia. }
  rewrite bool_decide_true by exact Ek. cbn [negb].
  assert (getLE 4 8 (sealPage (put 12 p b2)) = Z.of_nat (length p)) as ->.
  { rewrite sealPage_getLE by page_side. unfold getLE.
    rewrite slice_put_other by plia. apply (getLE_putLE 4 8); plia. }
  rewrite (proj2 (Z.ltb_ge _ _)) by (unfold PageSize; plia).
  rewrite sealPage_slice by page_side. rewrite Nat2Z.id.
  rewrite slice_put_same by plia. by rewrite Hu.
Qed.

Definition control_ok (c : control) : Prop :=
  is_u64 (Root c) /\ is_u64 (Next c) /\ is_u64 (Free c) /\ is_u64 (Garbage c) /\ is_u64 (Epoch c) /\
  is_u64 (Current c) /\ is_u64 (Head c) /\ is_u64 (Tail c) /\ is_u64 (Protected c) /\
  is_u64 (Pending c) /\ is_u64 (GCScan c) /\ is_u64 (Tx c).
Definition checkpoint_ok (c : checkpoint) : Prop :=
  (bytes_ok (cp_ID c) /\ ValidString (cp_ID c) = true /\ (length (cp_ID c) <= 128)%nat) /\
  is_u64 (cp_Epoch c) /\ is_u64 (cp_Root c) /\ is_u64 (cp_Next c) /\ is_u64 (cp_Previous c) /\
  is_u64 (cp_Garbage c) /\ is_u64 (cp_Bitmap c) /\ is_u64 (cp_BitmapDone c).

(** Solves the side conditions of [decode_encodeJSON] for a concrete struct. *)
Ltac solve_fields :=
  first [ by repeat constructor
        | repeat (apply Forall_cons_2; [split; [reflexivity|cbn; try done; auto]|]); apply Forall_nil_2
        | apply (bool_decide_unpack _); vm_compute; exact I ].

Lemma decodeControl_encode c : control_ok c ->
  exists b, encodeControl c = Ok b /\ is_page b /\ checkPage b = true /\ decodeControl b = Ok c.
Proof.
  intros Hc. unfold control_ok in Hc. destruct_and! Hc.
  assert (Forall (fun f => name_ok (fst f) /\ field_ok (snd f)) (control_fields c)) as Hok
    by (unfold control_fields; solve_fields).
  destruct (decode_encodeJSON "KDCONT4" (control_fields c) (control_fields control0))
    as (b & He & Hp & Hck & Hd); [simpl; lia| |done|by repeat constructor|done|
      change ((fun f => str (fst f)) <$> control_fields c)
        with ((fun f => str (fst f)) <$> control_fields control0);
      apply (bool_decide_unpack _); vm_compute; exact I|].
  { etransitivity; [apply Marshal_length|cbn; lia].
    eapply Forall_impl; [exact Hok|]. by intros ? []. }
  exists b. split_and!; [done..|]. unfold decodeControl. rewrite Hd. cbn. by destruct c.
Qed.

Lemma decodeCheckpoint_encode c : checkpoint_ok c ->
  exists b, encodeCheckpoint c = Ok b /\ is_page b /\ checkPage b = true /\ decodeCheckpoint b = Ok c.
Proof.
  intros Hc. unfold checkpoint_ok in Hc. destruct_and! Hc.
  assert (Forall (fun f => name_ok (fst f) /\ field_ok (snd f)) (checkpoint_fields c)) as Hok
    by (unfold checkpoint_fields; solve_fields).
  destruct (decode_encodeJSON "KDCP4" (checkpoint_fields c) (checkpoint_fields checkpoint0))
    as (b & He & Hp & Hck & Hd); [simpl; lia| |done|by repeat constructor|done|
      change ((fun f => str (fst f)) <$> checkpoint_fields c)
        with ((fun f => str (fst f)) <$> checkpoint_fields checkpoint0);
      apply (bool_decide_unpack _); vm_compute; exact I|].
  { etransitivity; [apply Marshal_length|cbn; lia].
    eapply Forall_impl; [exact Hok|]. by intros ? []. }
  exists b. split_and!; [done..|]. unfold decodeCheckpoint. rewrite Hd. cbn. by destruct c.
Qed.

(** C40 — The metadata records survive the disk: every control record and every
    checkpoint record with a valid identity encodes to a sealed page, and decoding
    that page gives the record back. *)
Theorem metadata_roundtrip c cp :
  control_ok c -> checkpoint_ok cp ->
  (exists b, encodeControl c = Ok b /\ checkPage b = true /\ decodeControl b = Ok c) /\
  (exists b, encodeCheckpoint cp = Ok b /\ checkPage b = true /\ decodeCheckpoint b = Ok cp).
Proof.
  intros Hc Hcp. destruct (decodeControl_encode c Hc) as (b & ? & _ & ? & ?).
  destruct (decodeCheckpoint_encode cp Hcp) as (b' & ? & _ & ? & ?). eauto 10.
Qed.

Lemma metadata_roundtrip_witness :
  (exists b, encodeControl (mkControl 7 9 0 3 2 0 1 1 1 0 0 false 18446744073709551615) = Ok b /\
     decodeControl b = Ok (mkControl 7 9 0 3 2 0 1 1 1 0 0 false 18446744073709551615)) /\
  (exists b, encodeCheckpoint (mkCheckpoint [60; 195; 169; 34] 1 7 0 0 3 true true false 5 0) = Ok b /\
     decodeCheckpoint b = Ok (mkCheckpoint [60; 195; 169; 34] 1 7 0 0 3 true true false 5 0)).
Proof.
  destruct (metadata_roundtrip (mkControl 7 9 0 3 2 0 1 1 1 0 0 false 18446744073709551615)
    (mkCheckpoint [60; 195; 169; 34] 1 7 0 0 3 true true false 5 0)) as [(b & H1 & _ & H2) (b' & H3 & _ & H4)].
  - unfold control_ok, is_u64. simpl. lia.
  - unfold checkpoint_ok, is_u64. simpl. split_and!; try lia; [solve_bytes|reflexivity].
  - split; [exists b; exact (conj H1 H2)|exists b'; exact (conj H3 H4)].
Defined.

(** ** B+ pages *)

Definition entry_ok (e : entry) : Prop := is_u64 (key e) /\ is_u64 (slot e) /\ slot e <> 0.
Definition node_ok (n : node) : Prop :=
  (0 < length (entries n) <= 255)%nat /\ Forall entry_ok (entries n) /\
  entries_ordered None (entries n) = true.

Lemma put_entries_page off es b :
  is_page b -> (off + 16 * length es <= page_len)%nat -> is_page (put_entries off es b).
Proof.
  revert off b. induction es as [|e es IH]; intros off b Hb Ho; [done|].
  cbn [put_entries length] in *. apply IH; [|plia].
  repeat apply putLE_page; auto; plia.
Qed.
Lemma put_entries_slice off es b o k :
  is_page b -> (off + 16 * length es <= page_len)%nat -> (o + k <= off)%nat ->
  slice o k (put_entries off es b) = slice o k b.
Proof.
  revert off b. induction es as [|e es IH]; intros off b Hb Ho Hk; [done|].
  cbn [put_entries length] in *. destruct Hb as [Hl Hb].
  rewrite IH; [|repeat apply putLE_page; try done; plia|plia|plia].
  unfold putLE.
  rewrite !slice_put_other by (rewrite ?put_length, ?le_bytes_length by plia; plia). done.
Qed.
Lemma get_put_entries off es b :
  is_page b -> (off + 16 * length es <= page_len)%nat -> Forall entry_ok es ->
  get_entries (length es) off (put_entries off es b) = es.
Proof.
  intros Hb Ho Hes. revert off b Hb Ho. induction Hes as [|e es (Hk & Hs & _) Hes IH]; intros off b Hb Ho; [done|].
  cbn [put_entries get_entries length] in *.
  set (b1 := putLE 8 off (key e) b). set (b2 := putLE 8 (off + 8) (slot e) b1).
  assert (is_page b1) as P1 by (apply putLE_page; auto; plia).
  assert (is_page b2) as P2 by (apply putLE_page; auto; plia).
  rewrite IH by page_side. destruct e as [k s]; cbn in Hk, Hs. unfold is_u64 in *.
  assert (length b = page_len /\ length b1 = page_len) as [L L1] by (split; [apply Hb|apply P1]).
  unfold getLE. rewrite !put_entries_slice by page_side.
  fold (getLE 8 off b2) (getLE 8 (off + 8) b2). subst b2.
  rewrite getLE_putLE_other by plia. subst b1.
  rewrite !getLE_putLE by (change (256 ^ Z.of_nat 8) with (2 ^ 64); rewrite ?putLE_length; simpl; plia). done.
Qed.

Lemma get_entries_ext count off b c :
  (forall o k, (off <= o)%nat -> slice o k b = slice o k c) ->
  get_entries count off b = get_entries count off c.
Proof.
  revert off. induction count as [|count IH]; intros off H; [done|]. cbn [get_entries].
  unfold getLE. rewrite !H by lia. f_equal. apply IH. intros. apply H. lia.
Qed.
Lemma get_entries_length count off b : length (get_entries count off b) = count.
Proof. revert off. induction count; intros; cbn; auto. Qed.

(** The fields of the page [encodeNode] builds. *)
Record node_page (n : node) (b : list Z) : Prop := {
  np_page : is_page b;
  np_magic : take 8 b = str "KDBTREE4";
  np_crc : node_crc b = getLE 4 12 b;
  np_count : getLE 2 8 b = Z.of_nat (length (entries n));
  np_leaf : byte_at b 10 = if leaf n then 1 else 0;
  np_entries : get_entries (length (entries n)) 16 b = entries n }.

Lemma encodeNode_page n :
  (length (entries n) <= 255)%nat -> Forall entry_ok (entries n) -> node_page n (encodeNode n).
Proof.
  intros Hl Hes.
  set (b1 := put 0 (str "KDBTREE4") zeroPage).
  set (b2 := putLE 2 8 (Z.of_nat (length (entries n))) b1).
  set (b3 := if leaf n then put 10 [1] b2 else b2).
  set (b4 := put_entries 16 (entries n) b3).
  assert (is_page b1) as P1 by (apply put_page; auto using str_ok with go; lia).
  assert (is_page b2) as P2 by (apply putLE_page; auto; plia).
  assert (is_page b3) as P3.
  { subst b3. case_match; [|done]. apply put_page; [done|solve_bytes|plia]. }
  assert (is_page b4) as P4 by (apply put_entries_page; auto; plia).
  assert (encodeNode n = putLE 4 12 (node_crc b4) b4) as -> by done.
  set (b5 := putLE 4 12 (node_crc b4) b4).
  assert (is_page b5) as P5 by (apply putLE_page; auto; plia).
  assert (forall q, is_page q -> length q = page_len) as L by (by intros q [? _]).
  pose proof (L _ P1). pose proof (L _ P2). pose proof (L _ P3). pose proof (L _ P4). pose proof (L _ P5).
  assert (forall o k, (o + k <= 12)%nat \/ (16 <= o)%nat -> slice o k b5 = slice o k b4) as S5.
  { intros. apply slice_put_other; rewrite ?le_bytes_length; plia. }
  assert (forall o k, (o + k <= 12)%nat -> slice o k b5 = slice o k b3) as S3.
  { intros. rewrite S5 by lia. apply put_entries_slice; page_side. }
  assert (forall o k, (o + k <= 10)%nat -> slice o k b3 = slice o k b2) as S2.
  { intros. subst b3. case_match; [|done]. apply slice_put_other; simpl; plia. }
  split.
  - done.
  - change (take 8 b5) with (slice 0 8 b5). rewrite S3, S2 by lia. unfold b2, putLE.
    rewrite slice_put_other by (rewrite ?le_bytes_length; plia).
    apply (slice_put_same 0 (str "KDBTREE4")). rewrite (proj1 zeroPage_ok). simpl. plia.
  - assert (node_crc b5 = node_crc b4) as ->.
    { unfold node_crc. do 2 f_equal; [apply (S5 0%nat 12%nat); lia|].
      pose proof (S5 16%nat (length b5)) as E. unfold slice in E.
      rewrite !take_ge in E by (rewrite length_drop; plia). apply E. lia. }
    symmetry. apply getLE_putLE; [plia|]. change (256 ^ Z.of_nat 4) with (2 ^ 32).
    apply ChecksumIEEE_range. apply Forall_app; split; [apply Forall_take|apply Forall_drop]; apply P4.
  - unfold getLE. rewrite S3, S2 by lia. apply (getLE_putLE 2 8); [plia|]. simpl. lia.
  - pose proof (byte_at_slice 10 1 b5 0 ltac:(lia)) as E.
    change (Z.of_nat 10 + 0) with 10 in E. rewrite <- E, S3 by lia.
    subst b3. destruct (leaf n).
    + by rewrite (slice_put_same 10 [1]) by (simpl; plia).
    + unfold b2, putLE, b1. rewrite !slice_put_other
        by (rewrite ?put_length, ?le_bytes_length, ?(proj1 zeroPage_ok) by plia; simpl; plia).
      rewrite slice_zeroPage by plia. done.
  - rewrite (get_entries_ext _ _ b5 b4) by (intros; apply S5; lia).
    apply get_put_entries; page_side.
Qed.

Lemma decodeNode_Ok b n : is_page b -> decodeNode b = Ok n -> node_ok n.
Proof.
  intros Hb. unfold decodeNode. destruct (_ || _); [done|]. destruct (negb _); [done|].
  destruct (_ || _ || _) eqn:E; [done|]. destruct (entries_ordered _ _) eqn:Eo; [|done].
  intros [= <-]. bool_prop. unfold maxEntries in *.
  assert (0 <= getLE 2 8 b) by (apply getLE_range; [apply Hb|destruct Hb; plia]).
  unfold node_ok. cbn [entries]. rewrite get_entries_length. split_and!; auto; [lia..|].
  assert (16 + 16 * Z.to_nat (getLE 2 8 b) <= page_len)%nat as Hoff by plia.
  clear -Hb Hoff Eo. revert Hoff Eo. generalize (Z.to_nat (getLE 2 8 b)) as c.
  generalize (@None Z) as o. generalize 16%nat at 1 3 4 as off.
  intros off o c. revert off o. induction c as [|c IH]; intros off o Hoff Ho; cbn [get_entries]; [constructor|].
  cbn [get_entries entries_ordered] in Ho. bool_prop.
  constructor; [|eapply IH; [|done]; lia]. destruct Hb as [Hl Hb].
  unfold entry_ok, is_u64. change (2 ^ 64) with (256 ^ Z.of_nat 8).
  split_and!; try (apply getLE_range; (done || lia)). done.
Qed.

Lemma decode_encodeNode n : node_ok n -> decodeNode (encodeNode n) = Ok n.
Proof.
  intros (Hl & Hes & Hord). destruct (encodeNode_page n) as []; [lia|done|].
  unfold decodeNode. rewrite bool_decide_true by apply np_page0.
  rewrite bool_decide_true by done. rewrite np_crc0, Z.eqb_refl, np_count0, np_leaf0.
  cbn [negb orb]. unfold maxEntries.
  rewrite (proj2 (Z.eqb_neq _ 0)), (proj2 (Z.ltb_ge _ _)) by lia.
  rewrite Nat2Z.id, np_entries0, Hord. by destruct n as [[] ?].
Qed.

(** B+ pages round trip: every node the tree code builds (1 to 255 entries,
    nonzero slots, strictly increasing keys) decodes from its page unchanged, and
    every page [decodeNode] accepts has those properties, so no reader ever sees
    an unordered or empty node. *)
Theorem decodeNode_encodeNode n b m :
  node_ok n ->
  decodeNode (encodeNode n) = Ok n /\ is_page (encodeNode n) /\
  (is_page b -> decodeNode b = Ok m -> node_ok m).
Proof.
  intros Hn. split; [by apply decode_encodeNode|]. split.
  - apply encodeNode_page; [|apply Hn]. destruct Hn. lia.
  - apply decodeNode_Ok.
Qed.

Lemma decodeNode_encodeNode_witness :
  decodeNode (encodeNode (mkNode true [mkEntry 3 9; mkEntry 4 1])) =
    Ok (mkNode true [mkEntry 3 9; mkEntry 4 1]) /\
  (is_page zeroPage -> decodeNode zeroPage = Ok (mkNode true []) -> node_ok (mkNode true [])).
Proof.
  destruct (decodeNode_encodeNode (mkNode true [mkEntry 3 9; mkEntry 4 1]) zeroPage (mkNode true []))
    as (H1 & _ & H2); [|split; [exact H1|exact H2]].
  split; [simpl; lia|]. split; [|reflexivity].
  repeat constructor; simpl; lia.
Defined.
