(* ===== verification/Tree.v ===== *)
(** * Tree: reading the copy-on-write B+ index of a versioned DIFF.

    Models the readers of pkg/diffstore/internal/versioned/tree.go and presence.go
    over the [pageReader] interface: [inspectNode], [lookup], [successor],
    [walkTree], [payloadRange] with its boundary checks, and [scanActive].  A
    [reader] is what [inspectNode]'s type switch selects: the allocation and
    capacity bounds, the decoded nodes of a transaction, and the page source.  The
    recursion argument [lv] is [maxDepth - depth], so the depth check of the
    source is the case [O].  Contexts never expire here; the decoded-node cache is
    the subject of Cache.v. *)
From stdpp Require Import base numbers list sorting strings sets.
From Stdlib Require Import ZArith Lia.
From S2P Require Import Prelude Page Presence Json Format.

(** [sort.Search]: binary search for the first index where [f] holds. *)
Fixpoint Search_loop (fuel : nat) (f : nat -> bool) (i j : nat) : nat :=
  match fuel with
  | O => i
  | S fuel =>
      if decide (i < j)%nat then
        let h := ((i + j) / 2)%nat in
        if f h then Search_loop fuel f i h else Search_loop fuel f (S h) j
      else i
  end.
Definition Search (n : nat) (f : nat -> bool) : nat := Search_loop (S n) f 0 n.

(** [sort.Search(len(n.entries), func(i int) bool { return n.entries[i].key >= k })]. *)
Definition search (es : list entry) (k : Z) : nat :=
  Search (length es) (fun i => match es !! i with Some e => k <=? key e | None => true end).

Record reader := mkReader {
  rd_next : Z;
  rd_total : Z;
  rd_nodes : Z -> option node;
  rd_read : Z -> dres (list Z) }.

Definition inspectNode (r : reader) (s : Z) : dres node :=
  match rd_nodes r s with
  | Some n => Ok n
  | None =>
      if negb (rd_next r =? 0) && ((s =? 0) || (rd_next r <=? s))
      then Err (DiffErr "B+ slot outside allocation")
      else
        let* b := rd_read r (slotPage s) in
        let* n := decodeNode b in
        if negb (rd_next r =? 0)
           && existsb (fun e => (rd_total r <=? key e) || (rd_next r <=? slot e)) (entries n)
        then Err (DiffErr "B+ entry outside capacity or allocation")
        else Ok n
  end.
(** [readNode] returns a private copy of the entries. *)
Definition readNode (r : reader) (s : Z) : dres node := inspectNode r s.

Definition errDepth : diff_error := DiffErr "B+ depth exceeded".

Fixpoint lookup_from (lv : nat) (r : reader) (root k : Z) : dres Z :=
  if root =? 0 then Ok 0 else
  match lv with
  | O => Err errDepth
  | S lv =>
      let* n := inspectNode r root in
      match entries n !! search (entries n) k with
      | None => Ok 0
      | Some e => if leaf n then Ok (if key e =? k then slot e else 0)
                  else lookup_from lv r (slot e) k
      end
  end.
Definition lookup (r : reader) (root k : Z) : dres Z := lookup_from maxDepth r root k.

(** The loops over a node's entries, given the recursive call for a child. *)
Definition successor_children (child : Z -> dres (option entry)) : list entry -> dres (option entry) :=
  fix each es :=
    match es with
    | [] => Ok None
    | e :: es =>
        let* found := child (slot e) in
        match found with Some e => Ok (Some e) | None => each es end
    end.
Fixpoint successor (lv : nat) (r : reader) (root k : Z) : dres (option entry) :=
  if root =? 0 then Ok None else
  match lv with
  | O => Err errDepth
  | S lv =>
      let* n := inspectNode r root in
      let i := search (entries n) k in
      if leaf n then Ok (entries n !! i)
      else successor_children (fun s => successor lv r s k) (drop i (entries n))
  end.

Definition each_entry {A} (visit : A -> entry -> dres A) : list entry -> A -> dres A :=
  fix each es a :=
    match es with
    | [] => Ok a
    | e :: es => let* a := visit a e in each es a
    end.
(** [walkTree] with a visitor that threads a state and may fail. *)
Fixpoint walkTree {A} (lv : nat) (r : reader) (root : Z) (visit : A -> entry -> dres A) (a : A)
    : dres A :=
  if root =? 0 then Ok a else
  match lv with
  | O => Err errDepth
  | S lv =>
      let* n := inspectNode r root in
      each_entry (fun a e => if leaf n then visit a e else walkTree lv r (slot e) visit a)
        (entries n) a
  end.

(** ** Range queries (presence.go) *)

Definition first_key (n : node) : Z := default 0 (key <$> head (entries n)).
Definition last_key (n : node) : Z := default 0 (key <$> last (entries n)).

(** [nested] is [depth > 0]; the depth check is in the callers' [lv]. *)
Definition payloadRangeNode (r : reader) (s lower upper : Z) (nested : bool) : dres node :=
  let* n := inspectNode r s in
  if (first_key n <? lower) || (upper <? last_key n) || (nested && negb (last_key n =? upper))
  then Err (DiffErr "invalid B+ child range") else Ok n.

(** The lower bound of child [i] of [n]. *)
Definition child_lower (n : node) (i : nat) (lower : Z) : Z :=
  match i with
  | O => lower
  | S i => match entries n !! i with Some e => key e + 1 | None => lower end
  end.

Fixpoint presenceBoundary (lv : nat) (r : reader) (parent : node) (index : nat) (lower : Z)
    (right : bool) : dres unit :=
  match lv with
  | O => Err errDepth
  | S lv =>
      match entries parent !! index with
      | None => Ok tt
      | Some e =>
          let lower := child_lower parent index lower in
          let* n := payloadRangeNode r (slot e) lower (key e) true in
          if leaf n then Ok tt
          else presenceBoundary lv r n (if right then length (entries n) - 1 else 0)%nat lower right
      end
  end.

(** The loop of [payloadRange] from entry [i] on; returns where it stopped. *)
Definition range_loop (child : Z -> list bool -> Z -> Z -> dres (list bool)) (n : node)
    (start end_ lower : Z) : list entry -> nat -> list bool -> dres (list bool * nat) :=
  fix loop es i present :=
    match es with
    | [] => Ok (present, i)
    | e :: es =>
        if leaf n then
          if end_ <=? key e then Ok (present, i)
          else loop es (S i) (<[Z.to_nat (key e - start) := true]> present)
        else
          let lower' := child_lower n i lower in
          if end_ <=? lower' then Ok (present, i)
          else
            let* present := child (slot e) present lower' (key e) in
            loop es (S i) present
    end.
Fixpoint payloadRange (lv : nat) (r : reader) (s start end_ : Z) (present : list bool)
    (lower upper : Z) (nested : bool) : dres (list bool) :=
  match lv with
  | O => Err errDepth
  | S lv =>
      let* n := payloadRangeNode r s lower upper nested in
      let i := search (entries n) start in
      let* _ := if negb (leaf n) && bool_decide (0 < i)%nat
                then presenceBoundary lv r n (i - 1) lower true else Ok tt in
      let* (present, i) :=
        range_loop (fun s p lo up => payloadRange lv r s start end_ p lo up true) n
          start end_ lower (drop i (entries n)) i present in
      let* _ := if negb (leaf n) && bool_decide (i < length (entries n))%nat
                then presenceBoundary lv r n i lower false else Ok tt in
      Ok present
  end.

Definition scan_each {A} (child : Z -> Z -> Z -> A -> dres A) (n : node) (visit : A -> Z -> dres A)
    : list entry -> Z -> A -> dres A :=
  fix each es lower a :=
    match es with
    | [] => Ok a
    | e :: es =>
        if leaf n then let* a := visit a (key e) in each es lower a
        else
          let* a := child (slot e) lower (key e) a in
          each es (key e + 1) a
    end.
Fixpoint scanActive {A} (lv : nat) (r : reader) (s lower upper : Z) (nested : bool)
    (visit : A -> Z -> dres A) (a : A) : dres A :=
  match lv with
  | O => Err errDepth
  | S lv =>
      let* n := payloadRangeNode r s lower upper nested in
      scan_each (fun s lo up a => scanActive lv r s lo up true visit a) n visit (entries n) lower a
  end.

(** ** Binary search *)

Lemma Search_loop_spec fuel f i j :
  (i <= j)%nat -> (j - i < fuel)%nat ->
  (forall a b, (a <= b)%nat -> f a = true -> f b = true) ->
  let k := Search_loop fuel f i j in
  (i <= k <= j)%nat /\ (forall a, (i <= a < k)%nat -> f a = false) /\ ((k < j)%nat -> f k = true).
Proof.
  intros Hij Hf Hm. revert i j Hij Hf. induction fuel as [|fuel IH]; intros i j Hij Hf; [lia|].
  cbn [Search_loop]. case_decide as Hlt; [|split_and!; intros; lia].
  pose proof (Nat.div_mod_eq (i + j) 2). pose proof (Nat.mod_upper_bound (i + j) 2 ltac:(lia)).
  set (h := ((i + j) / 2)%nat) in *. destruct (f h) eqn:E.
  - destruct (IH i h) as (H1 & H2 & H3); [lia..|]. split_and!; [lia..|done|].
    intros _. destruct (decide (Search_loop fuel f i h = h)) as [->|]; [done|]. apply H3. lia.
  - destruct (IH (S h) j) as (H1 & H2 & H3); [lia..|]. split_and!; [lia..| |done].
    intros a Ha. destruct (decide (a <= h)%nat); [|apply H2; lia].
    destruct (f a) eqn:Ea; [|done]. by rewrite (Hm a h) in E.
Qed.

(** ** Well-formed trees *)

Definition sorted (l : list entry) : Prop := StronglySorted (fun a b => key a < key b) l.

Lemma sorted_app l1 l2 : sorted (l1 ++ l2) <->
  (forall a b, a ∈ l1 -> b ∈ l2 -> key a < key b) /\ sorted l1 /\ sorted l2.
Proof. apply StronglySorted_app. Qed.
Lemma sorted_lookup l i j a b :
  sorted l -> l !! i = Some a -> l !! j = Some b -> (i < j)%nat -> key a < key b.
Proof.
  intros Hs Hi Hj Hlt. rewrite <- (take_drop (S i) l) in Hs. apply sorted_app in Hs as (H & _).
  apply H.
  - apply list_elem_of_lookup. exists i. rewrite lookup_take_lt by lia. done.
  - apply list_elem_of_lookup. exists (j - S i)%nat. rewrite lookup_drop. rewrite <- Hj. f_equal. lia.
Qed.

Lemma search_spec es k : sorted es ->
  (search es k <= length es)%nat /\
  (forall j e, es !! j = Some e -> (j < search es k)%nat -> key e < k) /\
  (forall j e, es !! j = Some e -> (search es k <= j)%nat -> k <= key e).
Proof.
  intros Hs. unfold search, Search.
  set (f := fun i => match es !! i with Some e => k <=? key e | None => true end).
  assert (forall a b, (a <= b)%nat -> f a = true -> f b = true) as Hm.
  { intros a b Hab. unfold f. destruct (es !! b) as [eb|] eqn:Eb; [|done].
    destruct (es !! a) as [ea|] eqn:Ea.
    - intros. bool_prop. apply Z.leb_le. destruct (decide (a = b)) as [->|]; [naive_solver|].
      assert (key ea < key eb) by (eapply (sorted_lookup es a b); [done|done|done|lia]). lia.
    - apply lookup_ge_None in Ea. apply lookup_lt_Some in Eb. lia. }
  destruct (Search_loop_spec (S (length es)) f 0 (length es)) as (H1 & H2 & H3); [lia..|done|].
  set (i := Search_loop _ _ _ _) in *. split_and!; [lia| |].
  - intros j e Hj Hlt. specialize (H2 j ltac:(lia)). unfold f in H2. rewrite Hj in H2. by bool_prop.
  - intros j e Hj Hle. assert (j < length es)%nat by (by eapply lookup_lt_Some).
    specialize (H3 ltac:(lia)). specialize (Hm i j Hle H3). unfold f in Hm. rewrite Hj in Hm. by bool_prop.
Qed.

(** [tree nd h s l fp]: the subtree of height [h] at slot [s] holds the leaf
    entries [l] in order, and its nodes are the slots [fp].  Every separator is
    the last key of its child. *)
Fixpoint tree (nd : Z -> option node) (h : nat) (s : Z) (l : list entry) (fp : list Z) : Prop :=
  0 < s /\
  match h with
  | O => nd s = Some (mkNode true l) /\ l <> [] /\ fp = [s]
  | S h => exists es subs, nd s = Some (mkNode false es) /\ es <> [] /\
      Forall2 (fun e p => tree nd h (slot e) (fst p) (snd p) /\
                          key <$> last (fst p) = Some (key e)) es subs /\
      l = concat (fst <$> subs) /\ fp = s :: concat (snd <$> subs)
  end.

Fixpoint assoc (k : Z) (l : list entry) : Z :=
  match l with [] => 0 | e :: l => if key e =? k then slot e else assoc k l end.

Lemma assoc_none k l : (forall e, e ∈ l -> key e <> k) -> assoc k l = 0.
Proof.
  induction l as [|e l IH]; intros H; [done|]. cbn.
  rewrite (proj2 (Z.eqb_neq _ _)) by (apply H; left). apply IH. intros. apply H. by right.
Qed.
Lemma assoc_app_r k l1 l2 : (forall e, e ∈ l1 -> key e <> k) -> assoc k (l1 ++ l2) = assoc k l2.
Proof.
  induction l1 as [|e l1 IH]; intros H; [done|]. cbn.
  rewrite (proj2 (Z.eqb_neq _ _)) by (apply H; left). apply IH. intros. apply H. by right.
Qed.
Lemma assoc_app_l k l1 l2 : (forall e, e ∈ l2 -> key e <> k) -> assoc k (l1 ++ l2) = assoc k l1.
Proof.
  intros H. induction l1 as [|e l1 IH]; [by apply assoc_none|]. cbn. by rewrite IH.
Qed.

Lemma tree_nonempty nd h s l fp : tree nd h s l fp -> l <> [].
Proof.
  revert s l fp. induction h as [|h IH]; intros s l fp [_ Ht]; [by destruct Ht as (_ & ? & _)|].
  destruct Ht as (es & subs & _ & Hne & Hf & -> & _).
  destruct Hf as [|e p es subs [Ht _] _]; [done|]. apply IH in Ht. cbn.
  intros E. by apply app_eq_nil in E as [E _].
Qed.

Lemma last_elem_of (l : list entry) e : last l = Some e -> e ∈ l.
Proof. rewrite last_Some. intros [l' ->]. set_solver. Qed.
(** In a sorted list nothing exceeds the last key. *)
Lemma sorted_last l k e : sorted l -> key <$> last l = Some k -> e ∈ l -> key e <= k.
Proof.
  intros Hs Hl He. destruct (last l) as [x|] eqn:E; [|done]. injection Hl as <-.
  apply last_Some in E as [l' ->]. apply sorted_app in Hs as (H & _ & _).
  apply elem_of_app in He as [He|He]; [|set_solver by lia].
  specialize (H e x He ltac:(set_solver)). lia.
Qed.

(** The children of an inner node, abstracted to (separator, entries). *)
Definition seps (es : list entry) (ls : list (list entry)) : Prop :=
  Forall2 (fun e l => key <$> last l = Some (key e)) es ls.

Lemma seps_sorted es ls : seps es ls -> sorted (concat ls) -> sorted es.
Proof.
  induction 1 as [|e l es ls Hl Hf IH]; intros Hs; [constructor|].
  cbn in Hs. apply sorted_app in Hs as (H & _ & Hs). constructor; [by apply IH|].
  apply Forall_forall. intros e' He'. destruct (last l) as [x|] eqn:El; [|done].
  injection Hl as Hx. assert (x ∈ l) as Hxl by (by apply last_elem_of).
  apply list_elem_of_lookup in He' as [i Hi]. destruct (Forall2_lookup_l _ _ _ _ _ Hf Hi) as (l' & Hl' & Hk).
  destruct (last l') as [x'|] eqn:El'; [|done]. injection Hk as Hx'. rewrite <- Hx, <- Hx'.
  apply H; [done|]. apply elem_of_concat. exists l'. split; [by apply last_elem_of|].
  by eapply list_elem_of_lookup_2.
Qed.

(** What [search] in the separators says about the children. *)
Lemma seps_search es ls k : seps es ls -> sorted (concat ls) ->
  let i := search es k in
  (forall x, x ∈ concat (take i ls) -> key x < k) /\
  (i = length es -> forall x, x ∈ concat ls -> key x < k) /\
  (forall e l, es !! i = Some e -> ls !! i = Some l ->
     k <= key e /\ forall x, x ∈ concat (drop (S i) ls) -> key e < key x).
Proof.
  intros Hf Hs i. pose proof (seps_sorted es ls Hf Hs) as Hes.
  destruct (search_spec es k Hes) as (Hi & Hlow & Hhigh). fold i in Hi, Hlow, Hhigh.
  assert (forall x, x ∈ concat (take i ls) -> key x < k) as H1.
  { intros x Hx. apply elem_of_concat in Hx as (l & Hxl & Hl).
    apply list_elem_of_lookup in Hl as [j Hj]. apply lookup_take_Some in Hj as [Hj Hlt].
    destruct (Forall2_lookup_r _ _ _ _ _ Hf Hj) as (e & He & Hk).
    assert (sorted l) as Hsl.
    { rewrite <- (take_drop_middle ls j l Hj), concat_app in Hs. cbn in Hs.
      apply sorted_app in Hs as (_ & _ & Hs). by apply sorted_app in Hs as (_ & ? & _). }
    pose proof (sorted_last l (key e) x Hsl Hk Hxl). specialize (Hlow j e He Hlt). lia. }
  split_and!; [done| |].
  - intros Hlen x Hx. apply H1. rewrite take_ge; [done|].
    rewrite Hlen. apply Forall2_length in Hf. lia.
  - intros e l He Hl. split; [by eapply Hhigh|]. intros x Hx.
    destruct (Forall2_lookup_l _ _ _ _ _ Hf He) as (l' & Hl' & Hk). simplify_eq.
    destruct (last l) as [y|] eqn:El; [|done]. injection Hk as <-.
    rewrite <- (take_drop_middle ls i l Hl), concat_app in Hs. cbn in Hs.
    apply sorted_app in Hs as (_ & _ & Hs). apply sorted_app in Hs as (H & _ & _).
    apply H; [by apply last_elem_of|done].
Qed.

(** ** Readers over a well-formed tree *)

Definition nd_of (r : reader) (s : Z) : option node :=
  match inspectNode r s with Ok n => Some n | Err _ => None end.
Lemma nd_of_Some r s n : nd_of r s = Some n -> inspectNode r s = Ok n.
Proof. unfold nd_of. destruct (inspectNode r s); naive_solver. Qed.

Lemma tree_children nd h es subs :
  Forall2 (fun e (p : list entry * list Z) => tree nd h (slot e) (fst p) (snd p) /\
     key <$> last (fst p) = Some (key e)) es subs -> seps es (fst <$> subs).
Proof.
  intros H. apply Forall2_fmap_r. eapply Forall2_impl; [exact H|]. by intros ? ? [_ ?].
Qed.

Lemma lookup_from_tree r h lv root l fp k :
  tree (nd_of r) h root l fp -> sorted l -> (h < lv)%nat ->
  lookup_from lv r root k = Ok (assoc k l).
Proof.
  revert lv root l fp. induction h as [|h IH]; intros lv root l fp [Hr Ht] Hs Hlv;
    (destruct lv as [|lv]; [lia|]); cbn [lookup_from]; rewrite (proj2 (Z.eqb_neq _ _)) by lia.
  - destruct Ht as (Hn & Hne & _). rewrite (nd_of_Some _ _ _ Hn). cbn [res_bind entries leaf].
    destruct (search_spec l k Hs) as (Hi & Hlow & Hhigh). set (i := search l k) in *.
    rewrite <- (take_drop i l) at 2. rewrite assoc_app_r.
    + destruct (l !! i) as [e|] eqn:E.
      * rewrite (drop_S l e i E). cbn. destruct (key e =? k) eqn:Ek; [done|].
        rewrite assoc_none; [done|]. intros e' He'. apply list_elem_of_lookup in He' as [j Hj].
        rewrite lookup_drop in Hj. pose proof (Hhigh i e E ltac:(lia)). bool_prop.
        pose proof (sorted_lookup l i (S i + j) e e' Hs E Hj ltac:(lia)). lia.
      * apply lookup_ge_None in E. by rewrite drop_ge.
    + intros e He. apply list_elem_of_lookup in He as [j Hj]. apply lookup_take_Some in Hj as [Hj Hlt].
      specialize (Hlow j e Hj Hlt). lia.
  - destruct Ht as (es & subs & Hn & Hne & Hf & -> & _). rewrite (nd_of_Some _ _ _ Hn).
    cbn [res_bind entries leaf]. pose proof (tree_children _ _ _ _ Hf) as Hsp.
    destruct (seps_search es _ k Hsp Hs) as (Hlow & Hall & Hhigh). set (i := search es k) in *.
    destruct (es !! i) as [e|] eqn:E.
    + destruct (Forall2_lookup_l _ _ _ _ _ Hf E) as ([li fi] & Hp & Ht & Hk). cbn [fst snd] in *.
      assert ((fst <$> subs) !! i = Some li) as Hli by (by rewrite list_lookup_fmap, Hp).
      destruct (Hhigh e li eq_refl Hli) as [Hke Hgt].
      rewrite <- (take_drop_middle _ i li Hli) in Hs |- *. rewrite concat_app in Hs |- *. cbn in Hs |- *.
      apply sorted_app in Hs as (_ & _ & Hs). apply sorted_app in Hs as (_ & Hs & _).
      rewrite assoc_app_r, assoc_app_l.
      * eapply IH; [done|done|lia].
      * intros x Hx. specialize (Hgt x Hx). lia.
      * intros x Hx. specialize (Hlow x Hx). lia.
    + apply lookup_ge_None in E. assert (i = length es) as Hi.
      { pose proof (seps_sorted _ _ Hsp Hs) as Hes. destruct (search_spec es k Hes) as (? & _). lia. }
      rewrite assoc_none; [done|]. intros x Hx. specialize (Hall Hi x Hx). lia.
Qed.

(** Index lookups are exact: in a well-formed tree no deeper than the
    format's limit, [lookup] succeeds and returns the slot mapped to the key, or 0
    when the key is not mapped; the empty root maps nothing. *)
Theorem lookup_tree r h root l fp k :
  tree (nd_of r) h root l fp -> sorted l -> (h < maxDepth)%nat ->
  lookup r root k = Ok (assoc k l) /\ lookup r 0 k = Ok 0.
Proof. intros. split; [by eapply lookup_from_tree|done]. Qed.

(** ** Visits *)

Lemma each_entry_app {A} (visit : A -> entry -> dres A) l1 l2 a :
  each_entry visit (l1 ++ l2) a = let* a := each_entry visit l1 a in each_entry visit l2 a.
Proof.
  revert a. induction l1 as [|e l1 IH]; intros a; [done|]. cbn. destruct (visit a e); cbn; [apply IH|done].
Qed.

Lemma walkTree_tree {A} r h lv root l fp (visit : A -> entry -> dres A) a :
  tree (nd_of r) h root l fp -> (h < lv)%nat ->
  walkTree lv r root visit a = each_entry visit l a.
Proof.
  revert lv root l fp a. induction h as [|h IH]; intros lv root l fp a [Hr Ht] Hlv;
    (destruct lv as [|lv]; [lia|]); cbn [walkTree]; rewrite (proj2 (Z.eqb_neq _ _)) by lia.
  - destruct Ht as (Hn & _ & _). by rewrite (nd_of_Some _ _ _ Hn).
  - destruct Ht as (es & subs & Hn & _ & Hf & -> & _). rewrite (nd_of_Some _ _ _ Hn).
    cbn [res_bind entries leaf]. clear Hn. revert a. induction Hf as [|e p es subs [Ht _] Hf IHf]; intros a; [done|].
    cbn [fmap list_fmap concat each_entry]. rewrite each_entry_app, (IH _ _ _ _ _ Ht) by lia.
    destruct (each_entry visit _ a); cbn [res_bind]; [apply IHf|done].
Qed.

(** The bounds [payloadRangeNode] checks hold in a well-formed tree. *)
Definition in_bounds (l : list entry) (lower upper : Z) (nested : bool) : Prop :=
  (forall x, x ∈ l -> lower <= key x) /\
  exists k, key <$> last l = Some k /\ k <= upper /\ (nested = true -> k = upper).

Lemma last_concat (ls : list (list entry)) l x :
  last ls = Some l -> last l = Some x -> last (concat ls) = Some x.
Proof.
  rewrite !last_Some. intros [ls' ->] [l' ->]. rewrite concat_app. cbn. rewrite app_nil_r.
  eexists. by rewrite app_assoc.
Qed.

(** The node of a well-formed subtree: its last key is the subtree's, and its
    first is not below any of the subtree's lower bounds. *)
Lemma tree_node nd h s l fp : tree nd h s l fp ->
  exists n, nd s = Some n /\ key <$> last (entries n) = key <$> last l /\
    exists x, x ∈ l /\ first_key n = key x.
Proof.
  intros Ht. pose proof (tree_nonempty _ _ _ _ _ Ht) as Hne. destruct h as [|h].
  - destruct Ht as (_ & Hn & _ & _). exists (mkNode true l). split_and!; [done..|].
    destruct l as [|x l]; [done|]. exists x. split; [left|done].
  - destruct Ht as (_ & es & subs & Hn & Hes & Hf & -> & _).
    exists (mkNode false es). split; [done|]. cbn [entries]. split.
    + destruct (last es) as [e|] eqn:El; [|by apply last_None in El].
      assert (exists p, last subs = Some p /\ key <$> last (fst p) = Some (key e)) as (p & Hp & Hk).
      { apply last_Some in El as [es' ->]. apply Forall2_app_inv_l in Hf as (s1 & s2 & _ & Hf & ->).
        apply Forall2_cons_inv_l in Hf as (p & s3 & [_ Hk] & Hf & ->).
        apply Forall2_nil_inv_l in Hf as ->. exists p. by rewrite last_snoc. }
      destruct (last (fst p)) as [x|] eqn:Ex; [|done].
      rewrite (last_concat _ (fst p) x); [by rewrite Hk| |done]. by rewrite fmap_last, Hp.
    + destruct Hf as [|e p es subs [_ Hk] _]; [done|]. destruct (last (fst p)) as [x|] eqn:Ex; [|done].
      exists x. cbn. split; [apply elem_of_app; left; by apply last_elem_of|]. by injection Hk as <-.
Qed.

Lemma payloadRangeNode_tree r h s l fp lower upper nested :
  tree (nd_of r) h s l fp -> in_bounds l lower upper nested ->
  exists n, payloadRangeNode r s lower upper nested = Ok n /\ nd_of r s = Some n.
Proof.
  intros Ht (Hlow & k & Hk & Hup & Hn). destruct (tree_node _ _ _ _ _ Ht) as (n & Hs & Hl & x & Hx & Hf).
  exists n. split; [|done]. unfold payloadRangeNode. rewrite (nd_of_Some _ _ _ Hs). cbn [res_bind].
  specialize (Hlow x Hx). unfold last_key. rewrite Hl, Hk, Hf. simpl.
  rewrite (proj2 (Z.ltb_ge _ _)), (proj2 (Z.ltb_ge _ _)) by lia. cbn [orb].
  destruct nested; [|done]. by rewrite (Hn eq_refl), Z.eqb_refl.
Qed.

(** Bounds of the children of an inner node. *)
Lemma child_lower_le lf es ls i lower x :
  seps es ls -> sorted (concat ls) -> (forall x, x ∈ concat ls -> lower <= key x) ->
  x ∈ concat (drop i ls) -> child_lower (mkNode lf es) i lower <= key x.
Proof.
  intros Hf Hs Hlow Hx. assert (x ∈ concat ls) as Hx'.
  { rewrite <- (take_drop i ls), concat_app. apply elem_of_app. by right. }
  destruct i as [|i]; cbn [child_lower entries]; [by apply Hlow|].
  destruct (es !! i) as [e0|] eqn:E0; [|by apply Hlow].
  destruct (Forall2_lookup_l _ _ _ _ _ Hf E0) as (l0 & Hl0 & Hk0).
  destruct (last l0) as [y|] eqn:Ey; [|done]. injection Hk0 as <-.
  rewrite <- (take_drop_middle _ _ _ Hl0), concat_app in Hs. cbn in Hs.
  apply sorted_app in Hs as (_ & _ & Hs). apply sorted_app in Hs as (H & _ & _).
  assert (key y < key x); [|lia]. apply H; [by apply last_elem_of|done].
Qed.
Lemma child_bounds nd h lf es subs i e p lower upper nested :
  Forall2 (fun e (p : list entry * list Z) => tree nd h (slot e) (fst p) (snd p) /\
     key <$> last (fst p) = Some (key e)) es subs ->
  sorted (concat (fst <$> subs)) -> in_bounds (concat (fst <$> subs)) lower upper nested ->
  es !! i = Some e -> subs !! i = Some p ->
  tree nd h (slot e) (fst p) (snd p) /\
  in_bounds (fst p) (child_lower (mkNode lf es) i lower) (key e) true.
Proof.
  intros Hf Hs (Hlow & _) He Hp. destruct (Forall2_lookup_lr _ _ _ _ _ _ Hf He Hp) as [Ht Hk].
  split; [done|]. split; [|eauto with lia].
  intros x Hx. apply (child_lower_le lf es (fst <$> subs)); auto; [by eapply tree_children|].
  apply elem_of_concat. exists (fst p). split; [done|]. apply list_elem_of_lookup. exists 0%nat.
  rewrite lookup_drop, Nat.add_0_r, list_lookup_fmap. by rewrite Hp.
Qed.

Lemma scanActive_tree {A} r h lv s l fp lower upper nested (visit : A -> Z -> dres A) a :
  tree (nd_of r) h s l fp -> sorted l -> in_bounds l lower upper nested -> (h < lv)%nat ->
  scanActive lv r s lower upper nested visit a = each_entry (fun a e => visit a (key e)) l a.
Proof.
  revert lv s l fp lower upper nested a.
  induction h as [|h IH]; intros lv s l fp lower upper nested a Ht Hs Hb Hlv;
    (destruct lv as [|lv]; [lia|]); cbn [scanActive];
    destruct (payloadRangeNode_tree _ _ _ _ _ _ _ _ Ht Hb) as (n & -> & Hn); cbn [res_bind].
  - destruct Ht as (_ & Hn' & _). simplify_eq. cbn [entries]. clear -lv.
    generalize lower. intros lo. revert a. induction l as [|e l IHl]; intros a; [done|]. cbn.
    destruct (visit a (key e)); cbn; [apply IHl|done].
  - destruct Ht as (_ & es & subs & Hn' & _ & Hf & -> & _). simplify_eq. cbn [entries].
    destruct Hb as [Hlow _]. clear Hn'. revert lower a Hlow.
    induction Hf as [|e p es subs [Ht Hk] Hf IHf]; intros lower a Hlow; [done|].
    cbn [fmap list_fmap concat] in Hs, Hlow |- *. apply sorted_app in Hs as (Hgt & Hs1 & Hs2).
    cbn [scan_each leaf]. rewrite each_entry_app, (IH lv _ _ _ lower _ true a Ht Hs1); [|split|lia].
    + destruct (each_entry _ (fst p) a) as [a'|]; [|done]. cbn [res_bind]. apply IHf; [done|].
      intros x Hx. destruct (last (fst p)) as [y|] eqn:Ey; [|done]. injection Hk as <-.
      specialize (Hgt y x (last_elem_of _ _ Ey) Hx). lia.
    + intros x Hx. apply Hlow. set_solver.
    + eauto with lia.
Qed.

(** ** Range queries *)

(** The answer [payloadRange] owes: one flag per mapped key of the range. *)
Definition mark (start end_ : Z) (present : list bool) (l : list entry) : list bool :=
  fold_left (fun p e => if (start <=? key e) && (key e <? end_)
                        then <[Z.to_nat (key e - start) := true]> p else p) l present.

Lemma mark_app start end_ present l1 l2 :
  mark start end_ present (l1 ++ l2) = mark start end_ (mark start end_ present l1) l2.
Proof. apply fold_left_app. Qed.
Lemma mark_outside start end_ present l :
  (forall x, x ∈ l -> key x < start \/ end_ <= key x) -> mark start end_ present l = present.
Proof.
  intros H. unfold mark. revert present. induction l as [|e l IH]; intros present; [done|]. cbn.
  destruct (H e ltac:(left)) as [Hk|Hk].
  - rewrite (proj2 (Z.leb_gt _ _)) by lia. apply IH. intros; apply H; by right.
  - rewrite (proj2 (Z.ltb_ge (key e) _)) by lia. rewrite andb_false_r. apply IH. intros; apply H; by right.
Qed.

Lemma mark_spec start end_ present l i :
  mark start end_ present l !! i =
    (fun b => b || existsb (fun e => (start <=? key e) && (key e <? end_)
                                     && (Z.to_nat (key e - start) =? i)%nat) l) <$> present !! i.
Proof.
  revert present. induction l as [|e l IH]; intros present.
  - cbn. destruct (present !! i); cbn; [by rewrite orb_false_r|done].
  - cbn [existsb]. change (mark start end_ present (e :: l)) with
      (mark start end_ (if (start <=? key e) && (key e <? end_)
                        then <[Z.to_nat (key e - start) := true]> present else present) l).
    rewrite IH. destruct (_ && (key e <? end_)) eqn:E; cbn.
    + destruct (decide (Z.to_nat (key e - start) = i)) as [<-|Hne].
      * destruct (present !! _) as [b|] eqn:Ep.
        -- rewrite list_lookup_insert_eq by (by eapply lookup_lt_Some). cbn. rewrite Nat.eqb_refl. cbn.
           by rewrite orb_true_r.
        -- rewrite list_insert_ge by (by apply lookup_ge_None). by rewrite Ep.
      * rewrite list_lookup_insert_ne by done. by rewrite (proj2 (Nat.eqb_neq _ _)).
    + done.
Qed.

Lemma presenceBoundary_tree r h lv n es subs i lower upper nested right :
  n = mkNode false es ->
  Forall2 (fun e (p : list entry * list Z) => tree (nd_of r) h (slot e) (fst p) (snd p) /\
     key <$> last (fst p) = Some (key e)) es subs ->
  sorted (concat (fst <$> subs)) -> in_bounds (concat (fst <$> subs)) lower upper nested ->
  (h < lv)%nat -> presenceBoundary lv r n i lower right = Ok tt.
Proof.
  revert lv n es subs i lower upper nested. induction h as [|h IH];
    intros lv n es subs i lower upper nested -> Hf Hs Hb Hlv; (destruct lv as [|lv]; [lia|]);
    cbn [presenceBoundary entries]; destruct (es !! i) as [e|] eqn:E; try done;
    destruct (Forall2_lookup_l _ _ _ _ _ Hf E) as (p & Hp & _);
    destruct (child_bounds _ _ false _ _ _ _ _ _ _ _ Hf Hs Hb E Hp) as [Ht Hcb];
    destruct (payloadRangeNode_tree _ _ _ _ _ _ _ _ Ht Hcb) as (n & -> & Hn); cbn [res_bind].
  - destruct Ht as (_ & Hn' & _). by simplify_eq.
  - destruct Ht as (_ & es' & subs' & Hn' & _ & Hf' & El & _). simplify_eq. cbn [leaf].
    eapply IH; [done|exact Hf'| | |lia].
    + rewrite <- El. assert ((fst <$> subs) !! i = Some (fst p)) as Hi by (by rewrite list_lookup_fmap, Hp).
      rewrite <- (take_drop_middle _ _ _ Hi), concat_app in Hs. cbn in Hs.
      apply sorted_app in Hs as (_ & _ & Hs). by apply sorted_app in Hs as (_ & ? & _).
    + rewrite <- El. exact Hcb.
Qed.

Lemma range_loop_leaf child es start end_ lower l i present :
  sorted l -> (forall x, x ∈ l -> start <= key x) ->
  exists j, range_loop child (mkNode true es) start end_ lower l i present
            = Ok (mark start end_ present l, j).
Proof.
  revert i present. induction l as [|e l IH]; intros i present Hs Hlow; [by eexists|].
  cbn [range_loop leaf]. destruct (end_ <=? key e) eqn:E; bool_prop.
  - exists i. rewrite mark_outside; [done|]. intros x Hx. right.
    apply elem_of_cons in Hx as [->|Hx]; [done|]. inversion Hs as [|? ? _ Hf]; subst.
    rewrite Forall_forall in Hf. specialize (Hf x Hx). cbn in Hf. lia.
  - assert (mark start end_ present (e :: l) =
      mark start end_ (<[Z.to_nat (key e - start) := true]> present) l) as ->.
    { unfold mark. cbn [fold_left]. specialize (Hlow e ltac:(left)).
      by rewrite (proj2 (Z.leb_le _ _)), (proj2 (Z.ltb_lt (key e) _)) by lia. }
    apply IH; [by inversion Hs|]. intros x Hx. apply Hlow. by right.
Qed.

Lemma range_loop_inner r h lv n start end_ lower es subs i present :
  (forall s l fp p lo up, tree (nd_of r) h s l fp -> sorted l -> in_bounds l lo up true ->
     payloadRange lv r s start end_ p lo up true = Ok (mark start end_ p l)) ->
  leaf n = false -> drop i (entries n) = es ->
  Forall2 (fun e (p : list entry * list Z) => tree (nd_of r) h (slot e) (fst p) (snd p) /\
     key <$> last (fst p) = Some (key e)) es subs ->
  sorted (concat (fst <$> subs)) ->
  (forall x, x ∈ concat (fst <$> subs) -> child_lower n i lower <= key x) ->
  exists j, range_loop (fun s p lo up => payloadRange lv r s start end_ p lo up true) n
              start end_ lower es i present
            = Ok (mark start end_ present (concat (fst <$> subs)), j).
Proof.
  intros Hrec Hleaf. revert i present subs. induction es as [|e es IH]; intros i present subs Hd Hf Hs Hlow.
  { apply Forall2_nil_inv_l in Hf as ->. by eexists. }
  apply Forall2_cons_inv_l in Hf as (p & subs' & [Ht Hk] & Hf & ->).
  cbn [fmap list_fmap concat range_loop] in *. rewrite Hleaf.
  apply sorted_app in Hs as (Hgt & Hs1 & Hs2).
  destruct (end_ <=? child_lower n i lower) eqn:E; bool_prop.
  - exists i. rewrite mark_outside; [done|]. intros x Hx. specialize (Hlow x Hx). lia.
  - rewrite mark_app, (Hrec _ _ _ _ _ _ Ht Hs1); [cbn [res_bind]|split].
    + assert (entries n !! i = Some e) as Hi.
      { rewrite <- (Nat.add_0_r i), <- lookup_drop, Hd. done. }
      apply IH; [|done|done|].
      * rewrite <- Nat.add_1_r, <- drop_drop, Hd. done.
      * intros x Hx. cbn [child_lower]. rewrite Hi.
        destruct (last (fst p)) as [y|] eqn:Ey; [|done]. injection Hk as <-.
        specialize (Hgt y x (last_elem_of _ _ Ey) Hx). lia.
    + intros x Hx. apply Hlow. apply elem_of_app. by left.
    + eauto with lia.
Qed.

Lemma payloadRange_tree r h lv s l fp start end_ present lower upper nested :
  tree (nd_of r) h s l fp -> sorted l -> in_bounds l lower upper nested -> (h < lv)%nat ->
  payloadRange lv r s start end_ present lower upper nested = Ok (mark start end_ present l).
Proof.
  revert lv s l fp present lower upper nested.
  induction h as [|h IH]; intros lv s l fp present lower upper nested Ht Hs Hb Hlv;
    (destruct lv as [|lv]; [lia|]); cbn [payloadRange];
    destruct (payloadRangeNode_tree _ _ _ _ _ _ _ _ Ht Hb) as (n & -> & Hn); cbn [res_bind].
  - destruct Ht as (_ & Hn' & _). simplify_eq. cbn [leaf negb andb entries res_bind].
    destruct (search_spec l start Hs) as (Hi & Hlo & Hhi). set (i := search l start) in *.
    pose proof Hs as Hs'. rewrite <- (take_drop i l) in Hs'. apply sorted_app in Hs' as (_ & _ & Hsd).
    edestruct (range_loop_leaf (fun s p lo up => payloadRange lv r s start end_ p lo up true)
      l start end_ lower (drop i l) i present Hsd) as (j & ->).
    { intros x Hx. apply list_elem_of_lookup in Hx as [k Hk]. rewrite lookup_drop in Hk.
      eapply Hhi; [exact Hk|lia]. }
    cbn [res_bind]. rewrite <- (take_drop i l) at 2. rewrite mark_app, (mark_outside _ _ _ (take i l)); [done|].
    intros x Hx. apply list_elem_of_lookup in Hx as [k Hk]. apply lookup_take_Some in Hk as [Hk ?].
    left. by eapply Hlo.
  - destruct Ht as (_ & es & subs & Hn' & _ & Hf & -> & _). simplify_eq.
    cbn [leaf negb andb entries]. set (i := search es start).
    destruct (seps_search es _ start (tree_children _ _ _ _ Hf) Hs) as (Hlo & _ & _). fold i in Hlo.
    assert (forall (c : bool) j right, (if c then presenceBoundary lv r (mkNode false es) j lower right
      else Ok tt) = Ok tt) as Hbd.
    { intros [|] j right; [|done]. eapply presenceBoundary_tree; [done|exact Hf|done|exact Hb|lia]. }
    rewrite Hbd. cbn [res_bind].
    destruct (range_loop_inner r h lv (mkNode false es) start end_ lower (drop i es) (drop i subs) i present)
      as (j & ->); [intros; eapply IH; eauto; lia|done|done|by apply Forall2_drop| | |].
    + rewrite fmap_drop. rewrite <- (take_drop i (fst <$> subs)), concat_app in Hs.
      by apply sorted_app in Hs as (_ & _ & ?).
    + intros x Hx. rewrite fmap_drop in Hx. eapply child_lower_le; [|exact Hs|apply Hb|exact Hx].
      by eapply tree_children.
    + cbn [res_bind]. rewrite Hbd. cbn [res_bind]. rewrite fmap_drop.
      rewrite <- (take_drop i (fst <$> subs)) at 2. rewrite concat_app, mark_app.
      rewrite (mark_outside _ _ _ (concat (take i _))); [done|]. auto.
Qed.

(** Range queries are exact: over a well-formed tree, [payloadRange] (with all
    its boundary checks) succeeds and flags exactly the blocks of
    [[start, start + n)] that are mapped; [scanActive] visits the mapped blocks and
    [walkTree] the entries, each once and in key order. *)
Theorem range_queries r h root l fp start n total :
  tree (nd_of r) h root l fp -> sorted l -> (h < maxDepth)%nat ->
  (forall x, x ∈ l -> 0 <= key x <= total - 1) -> 0 <= start ->
  (exists present,
     payloadRange maxDepth r root start (start + Z.of_nat n) (replicate n false) 0 (total - 1) false
       = Ok present /\
     forall i, (i < n)%nat ->
       present !! i = Some (existsb (fun e => key e =? start + Z.of_nat i) l)) /\
  scanActive maxDepth r root 0 (total - 1) false (fun a k => Ok (a ++ [k])) [] = Ok (key <$> l) /\
  walkTree maxDepth r root (fun a e => Ok (a ++ [e])) [] = Ok l.
Proof.
  intros Ht Hs Hh Hk Hst.
  assert (in_bounds l 0 (total - 1) false) as Hb.
  { split; [intros x Hx; apply Hk; done|]. destruct (last l) as [e|] eqn:El.
    - exists (key e). split_and!; [done|apply Hk; by apply last_elem_of|done].
    - apply last_None in El. by apply tree_nonempty in Ht. }
  split; [|split].
  - eexists. split; [by eapply payloadRange_tree|]. intros i Hi. rewrite mark_spec.
    rewrite lookup_replicate_2 by done. cbn. f_equal. clear -Hi Hst.
    induction l as [|e l IH]; [done|]. cbn. f_equal; [|done].
    destruct (key e =? start + Z.of_nat i) eqn:E; bool_prop.
    + rewrite (proj2 (Z.leb_le _ _)), (proj2 (Z.ltb_lt _ _)) by lia. cbn. apply Nat.eqb_eq. lia.
    + destruct (start <=? key e) eqn:E1; [|done]. bool_prop. cbn.
      rewrite (proj2 (Nat.eqb_neq _ _)) by lia. by rewrite andb_false_r.
  - rewrite (scanActive_tree r h maxDepth root l fp) by done. clear.
    assert (forall a, each_entry (fun a e => Ok (a ++ [key e])) l a = Ok (a ++ (key <$> l))) as ->; [|done].
    induction l as [|e l IH]; intros a; cbn; [by rewrite app_nil_r|]. by rewrite IH, <- app_assoc.
  - rewrite (walkTree_tree r h maxDepth root l fp) by done. clear.
    assert (forall a, each_entry (fun a e => Ok (a ++ [e])) l a = Ok (a ++ l)) as ->; [|done].
    induction l as [|e l IH]; intros a; cbn; [by rewrite app_nil_r|]. by rewrite IH, <- app_assoc.
Qed.

(** The first entry at or above [k]. *)
Definition first_ge (k : Z) (l : list entry) : option entry := head (filter (fun e => k <= key e) l).

Lemma filter_below k l : (forall x, x ∈ l -> key x < k) -> filter (fun e => k <= key e) l = [].
Proof.
  intros H. induction l as [|e l IH]; [done|]. rewrite filter_cons_False.
  - apply IH. intros. apply H. by right.
  - specialize (H e ltac:(left)). lia.
Qed.
Lemma first_ge_app_r k l1 l2 : (forall x, x ∈ l1 -> key x < k) -> first_ge k (l1 ++ l2) = first_ge k l2.
Proof. intros H. unfold first_ge. by rewrite filter_app, filter_below. Qed.
Lemma first_ge_app_l k l1 l2 e : e ∈ l1 -> k <= key e -> first_ge k (l1 ++ l2) = first_ge k l1.
Proof.
  intros He Hk. unfold first_ge. rewrite filter_app.
  assert (e ∈ filter (fun e => k <= key e) l1) as H by (by apply list_elem_of_filter).
  destruct (filter _ l1); [by apply elem_of_nil in H|done].
Qed.

Lemma successor_from_tree r h lv root l fp k :
  tree (nd_of r) h root l fp -> sorted l -> (h < lv)%nat ->
  successor lv r root k = Ok (first_ge k l).
Proof.
  revert lv root l fp. induction h as [|h IH]; intros lv root l fp [Hr Ht] Hs Hlv;
    (destruct lv as [|lv]; [lia|]); cbn [successor]; rewrite (proj2 (Z.eqb_neq _ _)) by lia.
  - destruct Ht as (Hn & _ & _). rewrite (nd_of_Some _ _ _ Hn). cbn [res_bind leaf entries].
    destruct (search_spec l k Hs) as (Hi & Hlo & Hhi). set (i := search l k) in *. f_equal.
    rewrite <- (take_drop i l) at 2. rewrite first_ge_app_r.
    + destruct (l !! i) as [e|] eqn:E.
      * rewrite (drop_S l e i E). unfold first_ge. rewrite filter_cons_True; [done|]. by eapply Hhi.
      * apply lookup_ge_None in E. by rewrite drop_ge.
    + intros x Hx. apply list_elem_of_lookup in Hx as [j Hj]. apply lookup_take_Some in Hj as [Hj ?].
      by eapply Hlo.
  - destruct Ht as (es & subs & Hn & _ & Hf & -> & _). rewrite (nd_of_Some _ _ _ Hn).
    cbn [res_bind leaf entries]. pose proof (tree_children _ _ _ _ Hf) as Hsp.
    destruct (seps_search es _ k Hsp Hs) as (Hlo & Hall & Hhi). set (i := search es k) in *.
    destruct (es !! i) as [e|] eqn:E.
    + destruct (Forall2_lookup_l _ _ _ _ _ Hf E) as ([li fi] & Hp & Ht & Hk). cbn [fst snd] in *.
      assert ((fst <$> subs) !! i = Some li) as Hli by (by rewrite list_lookup_fmap, Hp).
      destruct (Hhi e li eq_refl Hli) as [Hke _]. rewrite (drop_S es e i E). cbn [successor_children].
      rewrite <- (take_drop_middle _ i li Hli) in Hs |- *. rewrite concat_app in Hs |- *.
      cbn [concat] in Hs |- *. apply sorted_app in Hs as (_ & _ & Hs). apply sorted_app in Hs as (_ & Hs & _).
      destruct (last li) as [y|] eqn:Ey; [|done]. injection Hk as Hy.
      rewrite first_ge_app_r by done. rewrite (first_ge_app_l k li _ y) by (by apply last_elem_of || lia).
      rewrite (IH lv _ _ _ Ht Hs) by lia. cbn [res_bind].
      destruct (first_ge k li) eqn:Eg; [done|]. exfalso. unfold first_ge in Eg.
      assert (y ∈ filter (fun e => k <= key e) li) as H.
      { apply list_elem_of_filter. split; [lia|by apply last_elem_of]. }
      destruct (filter _ li); [by apply elem_of_nil in H|done].
    + apply lookup_ge_None in E. assert (i = length es) as Hi.
      { pose proof (seps_sorted _ _ Hsp Hs) as Hes. destruct (search_spec es k Hes) as (? & _). lia. }
      rewrite drop_ge by lia. cbn [successor_children]. unfold first_ge. by rewrite filter_below by auto.
Qed.

(** ** A concrete index *)

Definition demo_nodes (s : Z) : option node :=
  if s =? 1 then Some (mkNode false [mkEntry 5 2; mkEntry 9 3])
  else if s =? 2 then Some (mkNode true [mkEntry 2 4; mkEntry 5 6])
  else if s =? 3 then Some (mkNode true [mkEntry 9 7]) else None.
(** The three nodes as pages of a file. *)
Definition demo_reader : reader :=
  mkReader 10 100 (fun _ => None)
    (fun p => if p =? slotPage 1 then Ok (encodeNode (mkNode false [mkEntry 5 2; mkEntry 9 3]))
              else if p =? slotPage 2 then Ok (encodeNode (mkNode true [mkEntry 2 4; mkEntry 5 6]))
              else if p =? slotPage 3 then Ok (encodeNode (mkNode true [mkEntry 9 7]))
              else Err ErrIO).

Lemma demo_inspect s : s = 1 \/ s = 2 \/ s = 3 -> nd_of demo_reader s = demo_nodes s.
Proof. intros [->|[->| ->]]; vm_compute; reflexivity. Qed.

Lemma demo_tree :
  tree (nd_of demo_reader) 1 1 [mkEntry 2 4; mkEntry 5 6; mkEntry 9 7] [1; 2; 3].
Proof.
  split; [done|].
  exists [mkEntry 5 2; mkEntry 9 3],
    [([mkEntry 2 4; mkEntry 5 6], [2]); ([mkEntry 9 7], [3])].
  split; [by rewrite demo_inspect by auto|]. split; [done|]. split; [|done].
  apply Forall2_cons_2; [|apply Forall2_cons_2; [|apply Forall2_nil_2]]; cbn [slot fst snd].
  - split; [|done]. split; [done|]. split; [|done]. by rewrite demo_inspect by auto.
  - split; [|done]. split; [done|]. split; [|done]. by rewrite demo_inspect by auto.
Qed.
Lemma demo_sorted : sorted [mkEntry 2 4; mkEntry 5 6; mkEntry 9 7].
Proof. repeat constructor. Qed.

Lemma lookup_tree_witness :
  lookup demo_reader 1 5 = Ok 6 /\ lookup demo_reader 1 6 = Ok 0.
Proof.
  assert (1 < maxDepth)%nat as H by (unfold maxDepth; lia). split.
  - exact (proj1 (lookup_tree demo_reader 1 1 _ _ 5 demo_tree demo_sorted H)).
  - exact (proj1 (lookup_tree demo_reader 1 1 _ _ 6 demo_tree demo_sorted H)).
Defined.

Lemma range_queries_witness : exists present,
  payloadRange maxDepth demo_reader 1 4 (4 + Z.of_nat 3) (replicate 3 false) 0 99 false = Ok present /\
  present !! 1%nat = Some true /\ present !! 2%nat = Some false.
Proof.
  destruct (range_queries demo_reader 1 1 _ _ 4 3 100 demo_tree demo_sorted)
    as [(present & Hp & Hi) _]; [unfold maxDepth; lia| |lia|].
  - intros x Hx. repeat (apply elem_of_cons in Hx as [->|Hx]; [simpl; lia|]). by apply elem_of_nil in Hx.
  - exists present. split_and!; [exact Hp|apply (Hi 1%nat); lia|apply (Hi 2%nat); lia].
Defined.
