(* ===== verification/Tx.v ===== *)
(** * Tx: the metadata transaction of a versioned DIFF.

    Models the transaction of pkg/diffstore/internal/versioned/transaction.go as
    explicit state: private page images and decoded nodes over the store's file,
    slot descriptors, allocation from the free list or the end of the slot area,
    and retirement under the protected checkpoint's epoch.  A page read goes to
    the file; that the page cache in front of it is invisible is the theorem of
    Cache.v.  I/O statistics are not modelled. *)
From stdpp Require Import base numbers list gmap strings sorting.
From Stdlib Require Import ZArith Lia.
From S2P Require Import Prelude Page Presence Json Format Tree.

(** ** The data file (direct_linux.go) *)

(** Pages below [flen]; one never written reads as zeros. *)
Record file := mkFile { fpages : gmap Z (list Z); flen : Z }.

Definition page_at (f : file) (p : Z) : list Z := default zeroPage (fpages f !! p).
(** [directRead] of [n] pages: a short read is an error. *)
Definition directRead (f : file) (n : nat) (page : Z) : dres (list (list Z)) :=
  if (page <? 0) || (flen f <? page + Z.of_nat n) then Err ErrIO
  else Ok ((fun i => page_at f (page + Z.of_nat i)) <$> seq 0 n).
Definition readFull (f : file) (page : Z) : dres (list Z) :=
  if (page <? 0) || (flen f <? page + 1) then Err ErrIO else Ok (page_at f page).
Definition writePage (f : file) (page : Z) (b : list Z) : file :=
  mkFile (<[page := b]> (fpages f)) (Z.max (flen f) (page + 1)).
(** [writeFull] of consecutive pages, in order. *)
Fixpoint writeFull (f : file) (page : Z) (bs : list (list Z)) : file :=
  match bs with [] => f | b :: bs => writeFull (writePage f page b) (page + 1) bs end.
(** [punch] and the hole punching of [gcRelease]: the page reads as zeros. *)
Definition punchPage (f : file) (page : Z) : file := mkFile (delete page (fpages f)) (flen f).

(** Where the presence bitmap lives (bitmap.go). *)
Definition presenceAreaPage : Z := 1600.
Definition presencePage (page size : Z) : bool :=
  (presenceAreaPage <=? page) && (page - presenceAreaPage <? Pages size).

Record Store := mkStore {
  s_file : file;
  s_ctrl : control;
  s_presence : list Z;
  s_size : Z }.

Record dataWrite := mkDataWrite { dw_slot : Z; dw_block : Z; dw_data : list Z }.

Record transaction := mkTx {
  store : Store;
  t_ctrl : control;
  t_pages : gmap Z (list Z);
  t_nodes : gmap Z node;
  protectedKnown : bool;
  protectedValue : Z;
  fresh : gset Z;
  allocated : list Z;
  t_data : list dataWrite }.

Definition begin (s : Store) : transaction := mkTx s (s_ctrl s) ∅ ∅ false 0 ∅ [] [].

(** Field updates. *)
Definition set_ctrl (c : control) (t : transaction) : transaction :=
  mkTx (store t) c (t_pages t) (t_nodes t) (protectedKnown t) (protectedValue t) (fresh t)
    (allocated t) (t_data t).
Definition set_page (p : Z) (b : list Z) (t : transaction) : transaction :=
  mkTx (store t) (t_ctrl t) (<[p := b]> (t_pages t)) (t_nodes t) (protectedKnown t)
    (protectedValue t) (fresh t) (allocated t) (t_data t).
Definition set_node (s : Z) (n : node) (t : transaction) : transaction :=
  mkTx (store t) (t_ctrl t) (t_pages t) (<[s := n]> (t_nodes t)) (protectedKnown t)
    (protectedValue t) (fresh t) (allocated t) (t_data t).
Definition drop_node (s : Z) (t : transaction) : transaction :=
  mkTx (store t) (t_ctrl t) (delete (slotPage s) (t_pages t)) (delete s (t_nodes t))
    (protectedKnown t) (protectedValue t) (fresh t) (allocated t) (t_data t).
Definition set_known (e : Z) (t : transaction) : transaction :=
  mkTx (store t) (t_ctrl t) (t_pages t) (t_nodes t) true e (fresh t) (allocated t) (t_data t).
Definition add_fresh (p : Z) (t : transaction) : transaction :=
  mkTx (store t) (t_ctrl t) (t_pages t) (t_nodes t) (protectedKnown t) (protectedValue t)
    ({[p]} ∪ fresh t) (allocated t) (t_data t).
Definition add_allocated (s : Z) (t : transaction) : transaction :=
  mkTx (store t) (t_ctrl t) (t_pages t) (t_nodes t) (protectedKnown t) (protectedValue t)
    ({[slotPage s]} ∪ fresh t) (allocated t ++ [s]) (t_data t).

Definition set_Free (f : Z) (c : control) : control :=
  mkControl (Root c) (Next c) f (Garbage c) (Epoch c) (Current c) (Head c) (Tail c) (Protected c)
    (Pending c) (GCScan c) (Retired c) (Tx c).
Definition set_Next (n : Z) (c : control) : control :=
  mkControl (Root c) n (Free c) (Garbage c) (Epoch c) (Current c) (Head c) (Tail c) (Protected c)
    (Pending c) (GCScan c) (Retired c) (Tx c).
Definition set_Garbage (g : Z) (c : control) : control :=
  mkControl (Root c) (Next c) (Free c) g (Epoch c) (Current c) (Head c) (Tail c) (Protected c)
    (Pending c) (GCScan c) (Retired c) (Tx c).
Definition set_Root (r : Z) (c : control) : control :=
  mkControl r (Next c) (Free c) (Garbage c) (Epoch c) (Current c) (Head c) (Tail c) (Protected c)
    (Pending c) (GCScan c) (Retired c) (Tx c).
Definition set_cpGarbage (g : Z) (cp : checkpoint) : checkpoint :=
  mkCheckpoint (cp_ID cp) (cp_Epoch cp) (cp_Root cp) (cp_Next cp) (cp_Previous cp) g
    (cp_Visible cp) (cp_Retained cp) (cp_Pending cp) (cp_Bitmap cp) (cp_BitmapDone cp).

(** ** Pages and descriptors *)

Definition read (t : transaction) (page : Z) : dres (list Z) :=
  match t_pages t !! page with Some b => Ok b | None => readFull (s_file (store t)) page end.
Definition edit (t : transaction) (page : Z) : dres (list Z * transaction) :=
  match t_pages t !! page with
  | Some b => Ok (b, t)
  | None => let* b := read t page in Ok (b, set_page page b t)
  end.

Definition tx_reader (t : transaction) : reader :=
  mkReader (Next (t_ctrl t)) (s_size (store t) / PageSize) (fun s => t_nodes t !! s) (read t).

Definition desc (t : transaction) (s : Z) : dres descriptor :=
  if (s =? 0) || (Next (t_ctrl t) <=? s) then Err (DiffErr "slot out of bounds")
  else
    let* b := read t (descriptorPage s) in
    if negb (checkPage b) then Err (DiffErr "metadata checksum mismatch")
    else Ok (get_descriptor b s).
Definition setDesc (t : transaction) (s : Z) (d : descriptor) : dres transaction :=
  let p := descriptorPage s in
  let* (b, t) := edit t p in
  Ok (set_page p (sealPage (put_descriptor s d b)) t).

Definition allocate (t : transaction) (kind : Z) : dres (Z * transaction) :=
  let* (s, t) :=
    if negb (Free (t_ctrl t) =? 0) then
      let s := Free (t_ctrl t) in
      let* d := desc t s in
      if negb (Kind d =? kindFree) then Err (DiffErr "free chain contains allocated slot")
      else Ok (s, set_ctrl (set_Free (dNext d) (t_ctrl t)) t)
    else
      let s := Next (t_ctrl t) in
      if maxSlot <? s then Err (DiffErr "physical address exhausted")
      else
        let t := set_ctrl (set_Next (u64 (s + 1)) (t_ctrl t)) t in
        Ok (s, if (s - 1) mod slotsPerGroup =? 0
               then add_fresh (descriptorPage s) (set_page (descriptorPage s) newDescriptorPage t)
               else t) in
  let* t := setDesc t s (mkDescriptor (Epoch (t_ctrl t)) 0 kind) in
  Ok (s, add_allocated s t).

(** ** Checkpoints and retirement *)

Definition readCheckpoint (t : transaction) (s : Z) : dres checkpoint :=
  let* b := read t (slotPage s) in decodeCheckpoint b.
Definition putCheckpoint (t : transaction) (s : Z) (cp : checkpoint) : dres transaction :=
  let* b := encodeCheckpoint cp in Ok (set_page (slotPage s) b t).

Definition protectedEpoch (t : transaction) : dres (Z * transaction) :=
  if protectedKnown t then Ok (protectedValue t, t)
  else if Protected (t_ctrl t) =? 0 then
    Ok (0, mkTx (store t) (t_ctrl t) (t_pages t) (t_nodes t) true (protectedValue t) (fresh t)
             (allocated t) (t_data t))
  else
    let* cp := readCheckpoint t (Protected (t_ctrl t)) in
    Ok (cp_Epoch cp, set_known (cp_Epoch cp) t).
(** Named [private] in the source. *)
Definition private_ (t : transaction) (s : Z) : dres (bool * transaction) :=
  let* d := desc t s in
  let* (e, t) := protectedEpoch t in
  Ok (e <? Birth d, t).

Definition retire (t : transaction) (s : Z) : dres transaction :=
  if s =? 0 then Ok t else
  let* d := desc t s in
  if (Kind d =? kindGarbage) || (Kind d =? kindFree)
  then Err (DiffErr "double retirement of slot")
  else
    let t := if Kind d =? kindIndex then drop_node s t else t in
    let* (e, t) := protectedEpoch t in
    let p := Protected (t_ctrl t) in
    let* (next, t) :=
      if negb (p =? 0) && (Birth d <=? e) then
        let* cp := readCheckpoint t p in
        let* t := putCheckpoint t p (set_cpGarbage s cp) in
        Ok (cp_Garbage cp, t)
      else Ok (Garbage (t_ctrl t), set_ctrl (set_Garbage s (t_ctrl t)) t) in
    setDesc t s (mkDescriptor (Birth d) next kindGarbage).

(** ** What a transaction shows *)

Definition dsc (t : transaction) (s : Z) : option descriptor :=
  if 1 <=? s then match desc t s with Ok d => Some d | Err _ => None end else None.
Definition nd (t : transaction) : Z -> option node := nd_of (tx_reader t).
(** The epoch up to which slots belong to a retained checkpoint. *)
Definition pe (t : transaction) : Z :=
  if Protected (t_ctrl t) =? 0 then 0
  else match readCheckpoint t (Protected (t_ctrl t)) with Ok cp => cp_Epoch cp | Err _ => 0 end.
Definition total (t : transaction) : Z := s_size (store t) / PageSize.

(** A chain of slots of one kind linked through their descriptors. *)
Fixpoint chain (D : Z -> option descriptor) (kind : Z) (s : Z) (l : list Z) : Prop :=
  match l with
  | [] => s = 0
  | x :: l => s = x /\ x <> 0 /\ exists d, D x = Some d /\ Kind d = kind /\ chain D kind (dNext d) l
  end.

Definition node_in (t : transaction) (n : node) : Prop :=
  Forall (fun e => 0 <= key e < total t /\ slot e < Next (t_ctrl t)) (entries n).

(** A page with a home outside the header, control and redo pages, at an offset
    that fits in an int64. *)
Definition home_page (size page : Z) : Prop :=
  slotAreaPage <= page < 2 ^ 52 \/ presencePage page size = true.

Lemma home_descriptor size s : 1 <= s <= maxSlot -> home_page size (descriptorPage s).
Proof.
  intros Hs. left. split; [apply descriptorPage_area; lia|]. rewrite maxSlot_val in Hs.
  unfold descriptorPage, slotAreaPage, slotsPerGroup. div_lia.
Qed.
Lemma home_slot size s : 1 <= s <= maxSlot -> home_page size (slotPage s).
Proof.
  intros Hs. left. split; [pose proof (slotPage_area s); lia|]. rewrite maxSlot_val in Hs.
  unfold slotPage, slotAreaPage, slotsPerGroup. div_lia.
Qed.

Record tx_wf (t : transaction) : Prop := {
  w_ctrl : control_ok (t_ctrl t);
  w_next : 1 <= Next (t_ctrl t) <= maxSlot + 1;
  w_file : forall p b, fpages (s_file (store t)) !! p = Some b -> is_page b;
  w_pages : forall p b, t_pages t !! p = Some b -> is_page b /\ home_page (s_size (store t)) p;
  w_desc : forall s, 1 <= s < Next (t_ctrl t) ->
    exists b, read t (descriptorPage s) = Ok b /\ checkPage b = true;
  w_prot : Protected (t_ctrl t) <> 0 -> 1 <= Protected (t_ctrl t) < Next (t_ctrl t) /\
    (exists cp, readCheckpoint t (Protected (t_ctrl t)) = Ok cp /\ checkpoint_ok cp) /\
    (exists d, dsc t (Protected (t_ctrl t)) = Some d /\ Kind d = kindCheckpoint);
  w_epoch : 0 <= pe t < Epoch (t_ctrl t);
  w_known : protectedKnown t = true -> protectedValue t = pe t;
  w_value : protectedKnown t = false -> protectedValue t = 0;
  w_slotpages : forall s b, 1 <= s -> t_pages t !! slotPage s = Some b ->
    exists d, dsc t s = Some d /\ (Kind d = kindCheckpoint \/ Kind d = kindBitmap);
  w_nodes : forall s n, t_nodes t !! s = Some n ->
    (exists d, dsc t s = Some d /\ Kind d = kindIndex /\ pe t < Birth d) /\ node_ok n /\ node_in t n;
  w_free : exists l, chain (dsc t) kindFree (Free (t_ctrl t)) l /\ NoDup l }.

Lemma read_set_page p b t q :
  read (set_page p b t) q = if decide (q = p) then Ok b else read t q.
Proof.
  unfold read, set_page; cbn. case_decide as E.
  - subst. by rewrite lookup_insert_eq.
  - by rewrite lookup_insert_ne by done.
Qed.

Lemma readFull_page f p b : (forall p b, fpages f !! p = Some b -> is_page b) ->
  readFull f p = Ok b -> is_page b.
Proof.
  intros Hf. unfold readFull, page_at. case_match; [done|]. intros [= <-].
  destruct (fpages f !! p) eqn:E; cbn; [by eapply Hf|auto with go].
Qed.
Lemma read_page t p b : tx_wf t -> read t p = Ok b -> is_page b.
Proof.
  intros []. unfold read. destruct (t_pages t !! p) eqn:E; [intros [= <-]; by apply (w_pages0 p)|].
  by apply readFull_page.
Qed.

Lemma dsc_Some t s d : dsc t s = Some d <->
  1 <= s < Next (t_ctrl t) /\
  exists b, read t (descriptorPage s) = Ok b /\ checkPage b = true /\ d = get_descriptor b s.
Proof.
  unfold dsc, desc. destruct (1 <=? s) eqn:E; bool_prop; [|split; [done|lia]].
  rewrite (proj2 (Z.eqb_neq _ _)) by lia. cbn [orb].
  destruct (Next _ <=? s) eqn:E2; bool_prop; [split; [done|lia]|].
  destruct (read t _) as [b|]; cbn [res_bind]; [|naive_solver].
  destruct (checkPage b) eqn:Ec; cbn [negb]; split.
  - intros [= <-]. split; [lia|]. eauto.
  - intros (_ & b' & [= <-] & _ & ->). done.
  - done.
  - intros (_ & b' & [= <-] & Hc & _). congruence.
Qed.
Lemma dsc_desc t s d : dsc t s = Some d -> desc t s = Ok d.
Proof. unfold dsc. case_match; [|done]. destruct (desc t s); naive_solver. Qed.
Lemma dsc_bound t s d : dsc t s = Some d -> 1 <= s < Next (t_ctrl t).
Proof. by intros [? _]%dsc_Some. Qed.
Lemma dsc_ok t s d : tx_wf t -> dsc t s = Some d -> descriptor_ok d.
Proof.
  intros Hwf (_ & b & Hb & _ & ->)%dsc_Some. apply get_descriptor_ok. by eapply read_page.
Qed.
Lemma dsc_total t s : tx_wf t -> 1 <= s < Next (t_ctrl t) -> exists d, dsc t s = Some d.
Proof.
  intros Hwf Hs. destruct (w_desc t Hwf s Hs) as (b & Hb & Hc). eexists. apply dsc_Some. eauto.
Qed.

(** [setDesc] replaces one descriptor and nothing else. *)
Lemma setDesc_eq t s d b : read t (descriptorPage s) = Ok b ->
  setDesc t s d = Ok (set_page (descriptorPage s) (sealPage (put_descriptor s d b)) t).
Proof.
  unfold setDesc, edit, read. intros Hb. destruct (t_pages t !! _) as [b'|] eqn:E.
  - by injection Hb as ->.
  - rewrite Hb. cbn [res_bind]. unfold set_page; cbn. by rewrite insert_insert_eq.
Qed.

Section set_descriptor.
Context (t : transaction) (s : Z) (d : descriptor) (b : list Z).
Context (Hs : 1 <= s < Next (t_ctrl t)) (Hb : read t (descriptorPage s) = Ok b).
Context (Hp : is_page b) (Hd : descriptor_ok d).
Context (Hall : forall x, 1 <= x < Next (t_ctrl t) ->
  exists b, read t (descriptorPage x) = Ok b /\ checkPage b = true).
Let t' := set_page (descriptorPage s) (sealPage (put_descriptor s d b)) t.

Lemma set_descriptor_dsc x : dsc t' x = if decide (x = s) then Some d else dsc t x.
Proof.
  assert (is_page (put_descriptor s d b)) as Hpp by auto with go.
  case_decide as E.
  - subst x. apply dsc_Some. split; [done|]. eexists. unfold t'.
    rewrite read_set_page, decide_True by done. split_and!; [done|by apply checkPage_seal|].
    by rewrite get_descriptor_seal, get_put_descriptor by done.
  - apply option_eq. intros d'. rewrite !dsc_Some. unfold t'. cbn [t_ctrl set_page].
    rewrite read_set_page. case_decide as Ep; [|done].
    split; intros (Hx & b' & Hb' & Hc & ->); (split; [done|]).
    + injection Hb' as <-. destruct (Hall x Hx) as (bx & Hbx & Hcx). exists bx.
      split_and!; [done..|]. rewrite Ep, Hb in Hbx. injection Hbx as <-.
      rewrite get_descriptor_seal by done. by rewrite get_put_descriptor_ne.
    + eexists. split_and!; [done|by apply checkPage_seal|]. rewrite Ep, Hb in Hb'. injection Hb' as <-.
      rewrite get_descriptor_seal by done. by rewrite get_put_descriptor_ne.
Qed.
Lemma set_descriptor_read x : (forall s, 1 <= s -> x <> descriptorPage s) -> read t' x = read t x.
Proof. intros Hx. unfold t'. rewrite read_set_page, decide_False; [done|]. apply Hx. lia. Qed.
Lemma set_descriptor_nd x : 1 <= x -> nd t' x = nd t x.
Proof.
  intros Hx. unfold nd, nd_of, inspectNode.
  cbn [tx_reader rd_nodes rd_next rd_read rd_total]. cbn [t' t_nodes t_ctrl store set_page].
  destruct (t_nodes t !! x); [done|]. rewrite set_descriptor_read; [done|].
  intros. by apply slotPage_descriptorPage.
Qed.
Lemma set_descriptor_cp x : 1 <= x -> readCheckpoint t' x = readCheckpoint t x.
Proof.
  intros Hx. unfold readCheckpoint. rewrite set_descriptor_read; [done|].
  intros. by apply slotPage_descriptorPage.
Qed.
End set_descriptor.

Lemma chain_ext D D' kind s l :
  (forall x, x ∈ l -> D' x = D x) -> chain D kind s l -> chain D' kind s l.
Proof.
  revert s. induction l as [|x l IH]; intros s Hx; [done|]. cbn.
  intros (-> & Hn & d & Hd & Hk & Hc). split_and!; auto. exists d. rewrite Hx by left.
  split_and!; auto. apply IH; [|done]. intros y Hy. apply Hx. by right.
Qed.
Lemma chain_kind D kind s l x : chain D kind s l -> x ∈ l -> exists d, D x = Some d /\ Kind d = kind.
Proof.
  revert s. induction l as [|y l IH]; intros s Hc Hx; [by apply elem_of_nil in Hx|].
  destruct Hc as (_ & _ & d & Hd & Hk & Hc). apply elem_of_cons in Hx as [->|Hx]; eauto.
Qed.

(** Two transactions with the same pages, nodes and protection. *)
Lemma pe_ext t t' :
  Protected (t_ctrl t') = Protected (t_ctrl t) ->
  (Protected (t_ctrl t) <> 0 ->
   readCheckpoint t' (Protected (t_ctrl t)) = readCheckpoint t (Protected (t_ctrl t))) ->
  pe t' = pe t.
Proof.
  intros Hp Hc. unfold pe. rewrite Hp. destruct (_ =? 0) eqn:E; [done|]. bool_prop. by rewrite Hc.
Qed.

(** Changing one descriptor keeps a transaction well-formed. *)
Lemma wf_set_descriptor t s d b :
  tx_wf t -> 1 <= s < Next (t_ctrl t) -> read t (descriptorPage s) = Ok b -> descriptor_ok d ->
  (t_nodes t !! s = None \/ (Kind d = kindIndex /\ pe t < Birth d)) ->
  (t_pages t !! slotPage s = None \/ Kind d = kindCheckpoint \/ Kind d = kindBitmap) ->
  (s = Protected (t_ctrl t) -> Kind d = kindCheckpoint) ->
  (exists l, chain (dsc t) kindFree (Free (t_ctrl t)) l /\ NoDup l /\ s ∉ l) ->
  tx_wf (set_page (descriptorPage s) (sealPage (put_descriptor s d b)) t).
Proof.
  intros Hwf Hs Hb Hd Hnode Hpage Hprot (l & Hl & Hnd & Hsl).
  assert (is_page b) as Hp by (by eapply read_page).
  set (t' := set_page _ _ t).
  pose proof (set_descriptor_dsc t s d b Hs Hb Hp Hd (w_desc t Hwf)) as Hdsc. fold t' in Hdsc.
  assert (pe t' = pe t) as Hpe.
  { apply pe_ext; [done|]. intros H0. apply set_descriptor_cp; [done|].
    destruct (w_prot t Hwf H0) as (? & _). lia. }
  split; cbn [t' t_ctrl store t_nodes t_pages protectedKnown protectedValue set_page].
  - apply Hwf.
  - apply Hwf.
  - apply Hwf.
  - intros p b'. destruct (decide (p = descriptorPage s)) as [->|].
    + rewrite lookup_insert_eq. intros [= <-]. split; [auto with go|]. apply home_descriptor.
      pose proof (w_next t Hwf). lia.
    + rewrite lookup_insert_ne by done. apply Hwf.
  - intros x Hx. destruct (dsc_total t x Hwf Hx) as [dx Hdx].
    assert (exists d', dsc t' x = Some d') as [d' Hd'] by (rewrite Hdsc; case_decide; eauto).
    apply dsc_Some in Hd' as (_ & b' & ? & ? & _). eauto.
  - intros H0. destruct (w_prot t Hwf H0) as (Hr & (cp & Hcp & Hok) & dp & Hdp & Hkp).
    split; [done|]. split; [exists cp; split; [|done]; rewrite <- Hcp; apply set_descriptor_cp; [done|lia]|].
    rewrite Hdsc. case_decide; [eauto|eauto].
  - rewrite Hpe. apply Hwf.
  - rewrite Hpe. apply Hwf.
  - apply Hwf.
  - intros x b' Hx. rewrite lookup_insert_ne by (intros E; apply (slotPage_descriptorPage x s); [done|lia|done]).
    intros Hb'. destruct (w_slotpages t Hwf x b' Hx Hb') as (dx & Hdx & Hkx). rewrite Hdsc.
    case_decide; [|eauto]. subst x. destruct Hpage as [Hpage|Hpage]; [congruence|eauto].
  - intros x n Hn. destruct (w_nodes t Hwf x n Hn) as ((dx & Hdx & Hkx & Hbx) & Hok & Hin).
    rewrite Hpe, Hdsc. split; [|done]. case_decide; [|eauto]. subst x.
    destruct Hnode as [Hnode|Hnode]; [congruence|eauto].
  - exists l. split; [|done]. eapply chain_ext; [|done]. intros x Hx. rewrite Hdsc, decide_False; [done|].
    by intros ->.
Qed.

(** A transaction whose decoded nodes are private has its other index nodes on
    the file. *)
Lemma nd_ok t s n : tx_wf t -> nd t s = Some n -> node_ok n /\ node_in t n /\ s <> 0.
Proof.
  intros Hwf Hn. unfold nd in Hn. apply nd_of_Some in Hn. unfold inspectNode in Hn.
  cbn [tx_reader rd_nodes rd_next rd_read rd_total] in Hn.
  destruct (t_nodes t !! s) as [m|] eqn:E.
  - injection Hn as <-. destruct (w_nodes t Hwf s m E) as ((d & Hd & _) & ? & ?).
    apply dsc_bound in Hd. split_and!; auto. lia.
  - pose proof (w_next t Hwf). rewrite (proj2 (Z.eqb_neq (Next _) 0)) in Hn by lia. cbn [negb andb] in Hn.
    destruct (_ || _) eqn:Es; [done|]. apply res_bind_Ok in Hn as (b & Hb & Hn).
    apply res_bind_Ok in Hn as (m & Hm & Hn). destruct (existsb _ _) eqn:Ee; [done|]. injection Hn as <-.
    assert (is_page b) as Hp by (by eapply read_page).
    pose proof (decodeNode_Ok b m Hp Hm) as Hok. split_and!; [done| |bool_prop; done].
    apply Forall_forall. intros e He. destruct Hok as (_ & Hes & _). rewrite Forall_forall in Hes.
    destruct (Hes e He) as ((? & _) & _).
    assert ((s_size (store t) / PageSize <=? key e) || (Next (t_ctrl t) <=? slot e) = false) as Hf.
    { apply not_true_iff_false. intros Ef. apply not_true_iff_false in Ee. apply Ee.
      apply existsb_exists. exists e. split; [by apply list_elem_of_In|done]. }
    bool_prop. unfold total. lia.
Qed.

(** Reading an index node that the transaction has not changed. *)
Lemma nd_from_file t s n : t_nodes t !! s = None -> nd t s = Some n ->
  exists b, read t (slotPage s) = Ok b /\ decodeNode b = Ok n.
Proof.
  intros E Hn. apply nd_of_Some in Hn. unfold inspectNode in Hn.
  cbn [tx_reader rd_nodes rd_next rd_read rd_total] in Hn. rewrite E in Hn.
  destruct (_ && _); [done|]. apply res_bind_Ok in Hn as (b & Hb & Hn).
  apply res_bind_Ok in Hn as (m & Hm & Hn). destruct (_ && _); [done|]. injection Hn as <-. eauto.
Qed.
Lemma nd_mono t t' s n :
  tx_wf t -> nd t s = Some n -> t_nodes t' !! s = t_nodes t !! s ->
  read t' (slotPage s) = read t (slotPage s) -> store t' = store t ->
  Next (t_ctrl t) <= Next (t_ctrl t') -> nd t' s = Some n.
Proof.
  intros Hwf Hn Hnodes Hread Hst Hnext. pose proof (nd_ok t s n Hwf Hn) as (Hok & Hin & Hs0).
  destruct (t_nodes t !! s) as [m|] eqn:E.
  - unfold nd, nd_of, inspectNode in *. cbn [tx_reader rd_nodes] in *. rewrite Hnodes. by rewrite E in Hn.
  - destruct (nd_from_file t s n E Hn) as (b & Hb & Hd). pose proof Hn as Hn0.
    apply nd_of_Some in Hn. unfold inspectNode in Hn. unfold nd, nd_of, inspectNode.
    cbn [tx_reader rd_nodes rd_next rd_read rd_total] in *. rewrite E in Hn. rewrite Hnodes.
    pose proof (w_next t Hwf). rewrite (proj2 (Z.eqb_neq (Next (t_ctrl t)) 0)) in Hn by lia.
    cbn [negb andb] in Hn. destruct (_ || _) eqn:Es in Hn; [done|]. bool_prop.
    rewrite (proj2 (Z.eqb_neq (Next (t_ctrl t')) 0)), (proj2 (Z.eqb_neq s 0)), (proj2 (Z.leb_gt _ _)) by lia.
    cbn [negb andb orb]. rewrite Hread, Hb. cbn [res_bind]. rewrite Hd. cbn [res_bind].
    destruct (existsb _ (entries n)) eqn:Hex; [|done]. exfalso.
    apply existsb_exists in Hex as (e & He & Hbad).
    apply list_elem_of_In in He. unfold node_in in Hin. rewrite Forall_forall in Hin.
    specialize (Hin e He). unfold total in Hin. rewrite Hst in Hbad.
    apply orb_true_iff in Hbad as [Hbad|Hbad]; bool_prop; lia.
Qed.

(** ** Allocation *)

(** A slot that no record of the store uses. *)
Definition unused (t : transaction) (s : Z) : Prop :=
  dsc t s = None \/ exists d, dsc t s = Some d /\ Kind d = kindFree.

(** The control fields that slot management leaves alone. *)
Definition ctrl_frame (c c' : control) : Prop :=
  Root c' = Root c /\ Epoch c' = Epoch c /\ Current c' = Current c /\ Head c' = Head c /\
  Tail c' = Tail c /\ Protected c' = Protected c /\ Pending c' = Pending c /\
  GCScan c' = GCScan c /\ Retired c' = Retired c /\ Tx c' = Tx c.

(** The pages below the slot area are as they were. *)
Definition low_same (t t' : transaction) : Prop :=
  forall q, q < slotAreaPage -> t_pages t' !! q = t_pages t !! q.

Record alloc_fx (t : transaction) (s kind : Z) (t' : transaction) : Prop := {
  al_wf : tx_wf t';
  al_pos : 1 <= s;
  al_unused : unused t s;
  al_dsc : dsc t' s = Some (mkDescriptor (Epoch (t_ctrl t)) 0 kind);
  al_other : forall x, x <> s -> dsc t' x = dsc t x;
  al_nd : forall x n, 1 <= x -> nd t x = Some n -> nd t' x = Some n;
  al_read : forall x, 1 <= x -> read t' (slotPage x) = read t (slotPage x);
  al_nodes : t_nodes t' = t_nodes t;
  al_pe : pe t' = pe t;
  al_ctrl : ctrl_frame (t_ctrl t) (t_ctrl t');
  al_garbage : Garbage (t_ctrl t') = Garbage (t_ctrl t);
  al_store : store t' = store t;
  al_next : Next (t_ctrl t) <= Next (t_ctrl t') <= Next (t_ctrl t) + 1;
  al_fresh : fresh t ⊆ fresh t' /\ slotPage s ∈ fresh t';
  al_fresh_only : forall p, p ∈ fresh t' -> p ∈ fresh t \/ p = slotPage s \/
    (p = descriptorPage s /\ Next (t_ctrl t) <= s /\ (s - 1) mod slotsPerGroup = 0);
  al_data : t_data t' = t_data t;
  al_low : low_same t t';
  al_pages : forall x, 1 <= x -> t_pages t' !! slotPage x = t_pages t !! slotPage x;
  al_allocated : allocated t' = allocated t ++ [s];
  al_known : protectedKnown t' = protectedKnown t }.

(** The state between taking a slot and writing its descriptor. *)
Lemma alloc_finish t t1 s kind :
  tx_wf t1 -> 1 <= s < Next (t_ctrl t1) -> is_u64 kind ->
  unused t s -> (forall x, x <> s -> dsc t1 x = dsc t x) ->
  t_nodes t1 !! s = None -> t_pages t1 !! slotPage s = None -> s <> Protected (t_ctrl t1) ->
  (exists l, chain (dsc t1) kindFree (Free (t_ctrl t1)) l /\ NoDup l /\ s ∉ l) ->
  (forall x, 1 <= x -> read t1 (slotPage x) = read t (slotPage x)) ->
  t_nodes t1 = t_nodes t -> store t1 = store t -> ctrl_frame (t_ctrl t) (t_ctrl t1) ->
  Garbage (t_ctrl t1) = Garbage (t_ctrl t) ->
  Next (t_ctrl t) <= Next (t_ctrl t1) <= Next (t_ctrl t) + 1 -> tx_wf t ->
  fresh t ⊆ fresh t1 ->
  (forall p, p ∈ fresh t1 -> p ∈ fresh t \/
    (p = descriptorPage s /\ Next (t_ctrl t) <= s /\ (s - 1) mod slotsPerGroup = 0)) ->
  t_data t1 = t_data t -> low_same t t1 -> protectedKnown t1 = protectedKnown t ->
  (forall x, 1 <= x -> t_pages t1 !! slotPage x = t_pages t !! slotPage x) -> allocated t1 = allocated t ->
  exists t2, setDesc t1 s (mkDescriptor (Epoch (t_ctrl t1)) 0 kind) = Ok t2 /\
    alloc_fx t s kind (add_allocated s t2).
Proof.
  intros Hwf Hs Hk Hun Hoth Hn Hp Hpr Hch Hrd Hnodes Hst Hcf Hg Hnx Hwf0 Hfr Hfr1 Hda Hlow Hkn Hpgs Hal.
  destruct (w_desc t1 Hwf s Hs) as (b & Hb & Hc).
  assert (is_page b) as Hpg by exact (read_page t1 _ b Hwf Hb).
  assert (Epoch (t_ctrl t1) = Epoch (t_ctrl t)) as HE by apply Hcf.
  assert (descriptor_ok (mkDescriptor (Epoch (t_ctrl t1)) 0 kind)) as Hd.
  { split_and!; cbn; [apply Hwf|unfold is_u64; lia|done]. }
  rewrite (setDesc_eq _ _ _ _ Hb). eexists; split; [done|].
  set (t2 := set_page _ _ t1).
  pose proof (set_descriptor_dsc t1 s _ b Hs Hb Hpg Hd (w_desc t1 Hwf)) as Hdsc. fold t2 in Hdsc.
  assert (tx_wf t2) as Hwf2 by (apply wf_set_descriptor; auto; by intros E).
  assert (forall x, 1 <= x -> read t2 (slotPage x) = read t (slotPage x)) as Hrd2.
  { intros x Hx. rewrite <- Hrd by done. apply set_descriptor_read; [done|].
    intros. by apply slotPage_descriptorPage. }
  assert (t_nodes t2 = t_nodes t) as Hn2 by exact Hnodes.
  split; cbn [add_allocated t_ctrl store t_nodes fresh t_data].
  - destruct Hwf2. by split.
  - lia.
  - done.
  - change (dsc (add_allocated s t2) s) with (dsc t2 s). by rewrite Hdsc, decide_True, <- HE by done.
  - intros x Hx. change (dsc (add_allocated s t2) x) with (dsc t2 x).
    rewrite Hdsc, decide_False by done. by apply Hoth.
  - intros x n Hx1 Hx. change (nd (add_allocated s t2) x) with (nd t2 x).
    eapply nd_mono; [exact Hwf0|done|by rewrite Hn2|by apply Hrd2|done|]. cbn. lia.
  - done.
  - done.
  - change (pe (add_allocated s t2)) with (pe t2). apply pe_ext; [apply Hcf|]. intros H0.
    unfold readCheckpoint. rewrite Hrd2; [done|]. destruct (w_prot t Hwf0 H0) as (? & _). lia.
  - done.
  - done.
  - done.
  - done.
  - cbn. set_solver.
  - intros p Hpf. apply elem_of_union in Hpf as [Hpf|Hpf]; [set_solver|]. destruct (Hfr1 p Hpf); auto.
  - done.
  - intros q Hq. rewrite <- (Hlow q Hq). cbn. apply lookup_insert_ne. pose proof (descriptorPage_area s). lia.
  - intros x Hx. rewrite <- Hpgs by done. cbn. apply lookup_insert_ne. intros E. apply (slotPage_descriptorPage x s); [lia..|done].
  - cbn. by rewrite Hal.
  - done.
Qed.

(** Taking the head of the free list. *)
Lemma wf_set_Free t s d l :
  tx_wf t -> dsc t s = Some d -> chain (dsc t) kindFree (dNext d) l -> NoDup l -> is_u64 (dNext d) ->
  tx_wf (set_ctrl (set_Free (dNext d) (t_ctrl t)) t).
Proof.
  intros [] Hd Hl Hnd Hu. unfold control_ok in w_ctrl0. destruct_and! w_ctrl0.
  split; auto; [by unfold control_ok; cbn; auto 20|]. by exists l.
Qed.

(** Extending the slot area by one slot. *)
Definition extend (t : transaction) : transaction :=
  let s := Next (t_ctrl t) in
  let t := set_ctrl (set_Next (u64 (s + 1)) (t_ctrl t)) t in
  if (s - 1) mod slotsPerGroup =? 0
  then add_fresh (descriptorPage s) (set_page (descriptorPage s) newDescriptorPage t) else t.

Lemma newDescriptorPage_ok : is_page newDescriptorPage /\ checkPage newDescriptorPage = true.
Proof.
  assert (is_page (put 0 (str "KDDESC4") zeroPage)) by (apply put_page; auto using str_ok with go; lia).
  split; [by apply sealPage_page|by apply checkPage_seal].
Qed.

Section extend.
Context (t : transaction) (Hwf : tx_wf t) (Hroom : Next (t_ctrl t) <= maxSlot).
Let s := Next (t_ctrl t).

Lemma extend_next : Next (t_ctrl (extend t)) = s + 1.
Proof.
  pose proof (w_next t Hwf). assert (u64 (s + 1) = s + 1) as E.
  { apply u64_id. pose proof maxSlot_val. unfold is_u64, s. lia. }
  unfold extend. fold s. case_match; cbn; exact E.
Qed.
Lemma extend_read p :
  (forall x, 1 <= x <= s -> (s - 1) mod slotsPerGroup = 0 -> descriptorPage x = p -> x = s -> False) ->
  read (extend t) p = read t p.
Proof.
  intros Hp. unfold extend. fold s. destruct (_ =? 0) eqn:E; [|done]. bool_prop.
  change (read (add_fresh _ ?x) p) with (read x p). rewrite read_set_page.
  rewrite decide_False; [done|]. intros ->. pose proof (w_next t Hwf). eapply (Hp s); unfold s in *; (done || lia).
Qed.
Lemma descriptorPage_before x : 1 <= x < s -> (s - 1) mod slotsPerGroup = 0 ->
  descriptorPage x <> descriptorPage s.
Proof.
  unfold descriptorPage, slotsPerGroup. intros Hx Hm.
  pose proof (Z.div_mod (s - 1) 128 ltac:(lia)). pose proof (Z.div_mod (x - 1) 128 ltac:(lia)).
  pose proof (Z.mod_pos_bound (x - 1) 128 ltac:(lia)). lia.
Qed.
Lemma descriptorPage_same : 1 < s -> (s - 1) mod slotsPerGroup <> 0 ->
  descriptorPage (s - 1) = descriptorPage s.
Proof.
  unfold descriptorPage, slotsPerGroup. intros Hx Hm.
  pose proof (Z.div_mod (s - 1) 128 ltac:(lia)). pose proof (Z.mod_pos_bound (s - 1) 128 ltac:(lia)).
  assert ((s - 1 - 1) / 128 = (s - 1) / 128) as ->; [|done].
  symmetry. apply (Z.div_unique _ _ _ ((s - 1) mod 128 - 1)); lia.
Qed.
Lemma extend_slot_read x : 1 <= x -> read (extend t) (slotPage x) = read t (slotPage x).
Proof.
  intros Hx. apply extend_read. intros y Hy _ E _. apply (slotPage_descriptorPage x y); [lia..|done].
Qed.
Lemma extend_desc_read x : 1 <= x < s -> read (extend t) (descriptorPage x) = read t (descriptorPage x).
Proof.
  intros Hx. apply extend_read. intros y Hy Hm E ->. by apply (descriptorPage_before x) in Hm.
Qed.
Lemma extend_new : exists b, read (extend t) (descriptorPage s) = Ok b /\ checkPage b = true.
Proof.
  pose proof (w_next t Hwf). destruct ((s - 1) mod slotsPerGroup =? 0) eqn:E.
  - exists newDescriptorPage. split; [|apply newDescriptorPage_ok]. unfold extend. fold s. rewrite E.
    change (read (add_fresh _ ?x) ?p) with (read x p). by rewrite read_set_page, decide_True.
  - bool_prop. assert (1 < s) as Hs.
    { destruct (decide (s = 1)) as [->|]; [done|]. unfold s in *. lia. }
    rewrite <- descriptorPage_same by done. rewrite extend_desc_read by lia.
    apply (w_desc t Hwf). unfold s in *. lia.
Qed.
Lemma extend_dsc x : x <> s -> dsc (extend t) x = dsc t x.
Proof.
  intros Hx. apply option_eq. intros d. rewrite !dsc_Some, extend_next. split.
  - intros (Hb & b & Hr & ?). assert (1 <= x < s) by lia. rewrite extend_desc_read in Hr by done. eauto.
  - intros (Hb & b & Hr & ?). fold s in Hb. split; [lia|]. exists b. by rewrite extend_desc_read.
Qed.
Lemma extend_dsc_old x d : dsc t x = Some d -> dsc (extend t) x = Some d.
Proof. intros Hd. rewrite extend_dsc; [done|]. apply dsc_bound in Hd. unfold s in *. lia. Qed.
Lemma extend_fields : store (extend t) = store t /\ t_nodes (extend t) = t_nodes t /\
  ctrl_frame (t_ctrl t) (t_ctrl (extend t)) /\ Free (t_ctrl (extend t)) = Free (t_ctrl t) /\
  Garbage (t_ctrl (extend t)) = Garbage (t_ctrl t) /\
  protectedKnown (extend t) = protectedKnown t /\ protectedValue (extend t) = protectedValue t /\
  fresh t ⊆ fresh (extend t) /\ t_data (extend t) = t_data t.
Proof.
  unfold extend, ctrl_frame. case_match; cbn; split_and!; try done; set_solver.
Qed.
Lemma extend_fresh p : p ∈ fresh (extend t) ->
  p ∈ fresh t \/ (p = descriptorPage s /\ Next (t_ctrl t) <= s /\ (s - 1) mod slotsPerGroup = 0).
Proof.
  unfold extend. fold s. destruct (_ =? 0) eqn:E; [|by left]. bool_prop. cbn.
  intros [Hp|Hp]%elem_of_union; [|by left]. apply elem_of_singleton in Hp as ->. right.
  split_and!; [done|unfold s; lia|done].
Qed.
Lemma extend_pages x : 1 <= x -> t_pages (extend t) !! slotPage x = t_pages t !! slotPage x.
Proof.
  intros Hx. pose proof (w_next t Hwf). unfold extend. fold s. case_match; [|done]. cbn. apply lookup_insert_ne.
  intros E. apply (slotPage_descriptorPage x s); unfold s in *; [lia..|done].
Qed.
Lemma extend_allocated : allocated (extend t) = allocated t.
Proof. unfold extend. by case_match. Qed.
Lemma extend_pe : pe (extend t) = pe t.
Proof.
  destruct extend_fields as (_ & _ & Hc & _). apply pe_ext; [apply Hc|]. intros H0.
  unfold readCheckpoint. rewrite extend_slot_read; [done|]. destruct (w_prot t Hwf H0). lia.
Qed.
Lemma extend_wf : tx_wf (extend t).
Proof.
  destruct extend_fields as (Hst & Hn & Hcf & HF & HG & Hk & Hv & _).
  pose proof extend_next as HN. pose proof (w_next t Hwf) as Hnx.
  assert (Protected (t_ctrl (extend t)) = Protected (t_ctrl t)) as HP by apply Hcf.
  split.
  - pose proof (w_ctrl t Hwf) as Hc. unfold control_ok, ctrl_frame in *. destruct_and! Hc. destruct_and! Hcf.
    rewrite HN, HF, HG. repeat match goal with H : _ (t_ctrl (extend t)) = _ |- _ => rewrite H; clear H end.
    pose proof maxSlot_val. unfold is_u64, s in *. split_and!; try done; lia.
  - rewrite HN. unfold s. lia.
  - rewrite Hst. apply Hwf.
  - intros p b. unfold extend. case_match; [|apply Hwf]. cbn. fold s.
    destruct (decide (p = descriptorPage s)) as [->|].
    + rewrite lookup_insert_eq. intros [= <-]. split; [apply newDescriptorPage_ok|].
      apply home_descriptor. unfold s in *. lia.
    + rewrite lookup_insert_ne by done. apply Hwf.
  - intros x Hx. destruct (decide (x = s)) as [->|]; [apply extend_new|].
    rewrite extend_desc_read by lia. apply (w_desc t Hwf). unfold s in *. lia.
  - rewrite HP, HN. intros H0. destruct (w_prot t Hwf H0) as (Hr & (cp & Hcp & Hok) & d & Hd & Hkd).
    split; [unfold s; lia|]. split; [|exists d; split; [by apply extend_dsc_old|done]].
    exists cp. split; [|done]. unfold readCheckpoint. rewrite extend_slot_read by lia. done.
  - rewrite extend_pe. replace (Epoch (t_ctrl (extend t))) with (Epoch (t_ctrl t)); [apply Hwf|].
    symmetry. apply Hcf.
  - rewrite Hk, Hv, extend_pe. apply Hwf.
  - rewrite Hk, Hv. apply Hwf.
  - intros x b Hx Hb. assert (t_pages t !! slotPage x = Some b) as Hb'.
    { revert Hb. unfold extend. case_match; [|done]. cbn. rewrite lookup_insert_ne; [done|].
      intros E. apply (slotPage_descriptorPage x s); unfold s in *; [lia..|done]. }
    destruct (w_slotpages t Hwf x b Hx Hb') as (d & Hd & Hkd). exists d. split; [by apply extend_dsc_old|done].
  - intros x n. rewrite Hn. intros Hx. destruct (w_nodes t Hwf x n Hx) as ((d & Hd & Hkd & Hb) & Hok & Hin).
    rewrite extend_pe. split; [exists d; split; [by apply extend_dsc_old|done]|]. split; [done|].
    eapply Forall_impl; [exact Hin|]. intros e [? ?]. unfold total. rewrite Hst, HN. unfold total, s in *. lia.
  - rewrite HF. destruct (w_free t Hwf) as (l & Hl & Hnd). exists l. split; [|done].
    eapply chain_ext; [|exact Hl]. intros x Hx. destruct (chain_kind _ _ _ _ _ Hl Hx) as (d & Hd & _).
    rewrite Hd. by apply extend_dsc_old.
Qed.
End extend.

Lemma chain_head_u64 t l : tx_wf t -> chain (dsc t) kindFree (Free (t_ctrl t)) l ->
  Free (t_ctrl t) <> 0 ->
  exists d l', l = Free (t_ctrl t) :: l' /\ dsc t (Free (t_ctrl t)) = Some d /\
    Kind d = kindFree /\ chain (dsc t) kindFree (dNext d) l' /\ is_u64 (dNext d).
Proof.
  intros Hwf Hc Hf. destruct l as [|x l]; [done|]. destruct Hc as (<- & _ & d & Hd & Hk & Hc).
  exists d, l. split_and!; auto. by apply (dsc_ok t _ _ Hwf Hd).
Qed.

Lemma allocate_spec t kind :
  tx_wf t -> Next (t_ctrl t) <= maxSlot -> is_u64 kind ->
  exists s t', allocate t kind = Ok (s, t') /\ alloc_fx t s kind t'.
Proof.
  intros Hwf Hroom Hk. unfold allocate. destruct (w_free t Hwf) as (l & Hl & Hnd).
  assert (forall s d, dsc t s = Some d -> Kind d = kindFree ->
    t_nodes t !! s = None /\ t_pages t !! slotPage s = None /\ s <> Protected (t_ctrl t)) as Hfree.
  { intros s d Hd Hkd. split_and!.
    - destruct (t_nodes t !! s) as [n|] eqn:E; [|done].
      destruct (w_nodes t Hwf s n E) as ((d' & Hd' & Hk' & _) & _). simplify_eq. by rewrite Hkd in Hk'.
    - destruct (t_pages t !! slotPage s) as [b|] eqn:E; [|done]. pose proof (dsc_bound _ _ _ Hd).
      destruct (w_slotpages t Hwf s b ltac:(lia) E) as (d' & Hd' & Hk'). simplify_eq.
      rewrite Hkd in Hk'. by destruct Hk'.
    - intros ->. pose proof (dsc_bound _ _ _ Hd).
      destruct (w_prot t Hwf ltac:(lia)) as (_ & _ & d' & Hd' & Hk'). simplify_eq. by rewrite Hkd in Hk'. }
  destruct (Free (t_ctrl t) =? 0) eqn:E; bool_prop; cbn [negb].
  - pose proof (w_next t Hwf). pose proof (extend_next t Hwf Hroom) as HN.
    destruct (extend_fields t Hwf Hroom) as (Hst & Hn & Hcf & HF & HG & Hkn & _ & Hfr & Hda).
    rewrite (proj2 (Z.ltb_ge _ _)) by lia. cbn [res_bind]. fold (extend t).
    set (s := Next (t_ctrl t)) in *.
    assert (dsc t s = None) as Hnone.
    { destruct (dsc t s) eqn:Ed; [|done]. apply dsc_bound in Ed. unfold s in *. lia. }
    destruct (alloc_finish t (extend t) s kind) as (t2 & -> & Hfx); try done.
    + by apply extend_wf.
    + lia.
    + by left.
    + intros. by apply extend_dsc.
    + rewrite Hn. destruct (t_nodes t !! s) as [n|] eqn:En; [|done].
      destruct (w_nodes t Hwf s n En) as ((d & Hd & _) & _). congruence.
    + destruct (t_pages (extend t) !! slotPage s) as [b|] eqn:Eb; [|done].
      assert (t_pages t !! slotPage s = Some b) as Hb.
      { revert Eb. unfold extend. case_match; [|done]. cbn. rewrite lookup_insert_ne; [done|].
        intros Ep. apply (slotPage_descriptorPage s s); [lia..|done]. }
      destruct (w_slotpages t Hwf s b ltac:(lia) Hb) as (d & Hd & _). congruence.
    + replace (Protected (t_ctrl (extend t))) with (Protected (t_ctrl t)) by (symmetry; apply Hcf).
      intros Es. destruct (w_prot t Hwf) as (? & _); unfold s in *; lia.
    + exists l. rewrite HF. split_and!; [|done|].
      * eapply chain_ext; [|exact Hl]. intros x Hx. destruct (chain_kind _ _ _ _ _ Hl Hx) as (d & Hd & _).
        rewrite Hd. by apply extend_dsc_old.
      * intros Hs. destruct (chain_kind _ _ _ _ _ Hl Hs) as (d & Hd & _). congruence.
    + intros. by apply extend_slot_read.
    + rewrite HN. lia.
    + intros p. by apply extend_fresh.
    + intros q Hq. unfold extend. case_match; [|done]. cbn. apply lookup_insert_ne.
      pose proof (descriptorPage_area (Next (t_ctrl t))). lia.
    + intros. by apply extend_pages.
    + apply extend_allocated.
    + cbn [res_bind]. by exists s, (add_allocated s t2).
  - destruct (chain_head_u64 t l Hwf Hl E) as (d & l' & -> & Hd & Hkd & Hc & Hu).
    set (s := Free (t_ctrl t)) in *. rewrite (dsc_desc _ _ _ Hd). cbn [res_bind]. rewrite Hkd. cbn [res_bind].
    apply NoDup_cons in Hnd as [Hsl Hnd]. destruct (Hfree s d Hd Hkd) as (Hn & Hp & Hpr).
    set (t1 := set_ctrl (set_Free (dNext d) (t_ctrl t)) t).
    destruct (alloc_finish t t1 s kind) as (t2 & HsD & Hfx); try done.
    + by eapply wf_set_Free.
    + by apply dsc_bound in Hd.
    + right. eauto.
    + by exists l'.
    + cbn. lia.
    + by left.
    + change (kindFree =? kindFree) with true. cbn [negb]. cbn [res_bind]. fold t1. rewrite HsD. cbn [res_bind].
      by exists s, (add_allocated s t2).
Qed.

(** ** Retirement *)

(** Where a slot goes: to the protected checkpoint when it may use the slot, to the
    global list when no checkpoint can. *)
Definition owner_of (t : transaction) (s : Z) (d : descriptor) (next : Z) (t' : transaction) : Prop :=
  (Protected (t_ctrl t) <> 0 /\ Birth d <= pe t /\ Garbage (t_ctrl t') = Garbage (t_ctrl t) /\
    exists cp, readCheckpoint t (Protected (t_ctrl t)) = Ok cp /\ checkpoint_ok (set_cpGarbage s cp) /\
      readCheckpoint t' (Protected (t_ctrl t)) = Ok (set_cpGarbage s cp) /\ next = cp_Garbage cp) \/
  ((Protected (t_ctrl t) = 0 \/ pe t < Birth d) /\ Garbage (t_ctrl t') = s /\ next = Garbage (t_ctrl t) /\
    forall x, 1 <= x -> read t' (slotPage x) = read t (slotPage x)).
Record retire_fx (t : transaction) (s : Z) (t' : transaction) : Prop := {
  rt_wf : tx_wf t';
  rt_dsc : exists d d', dsc t s = Some d /\ dsc t' s = Some d' /\ Birth d' = Birth d /\
             Kind d' = kindGarbage;
  rt_other : forall x, x <> s -> dsc t' x = dsc t x;
  rt_nodes : t_nodes t' = delete s (t_nodes t);
  rt_read : forall x, 1 <= x -> x <> Protected (t_ctrl t) -> read t' (slotPage x) = read t (slotPage x);
  rt_pe : pe t' = pe t;
  rt_ctrl : ctrl_frame (t_ctrl t) (t_ctrl t');
  rt_free : Free (t_ctrl t') = Free (t_ctrl t);
  rt_next : Next (t_ctrl t') = Next (t_ctrl t);
  rt_store : store t' = store t;
  rt_fresh : fresh t' = fresh t;
  rt_data : t_data t' = t_data t;
  rt_low : low_same t t';
  rt_pages : forall x, 1 <= x -> x <> Protected (t_ctrl t) -> t_pages t' !! slotPage x = t_pages t !! slotPage x;
  rt_allocated : allocated t' = allocated t;
  rt_owner : exists d next, dsc t s = Some d /\ (Kind d = kindIndex \/ Kind d = kindData) /\
    dsc t' s = Some (mkDescriptor (Birth d) next kindGarbage) /\ owner_of t s d next t' }.

(** The protected epoch is read once. *)
Lemma protectedEpoch_spec t : tx_wf t -> exists t', protectedEpoch t = Ok (pe t, t') /\
  tx_wf t' /\ store t' = store t /\ t_ctrl t' = t_ctrl t /\ t_pages t' = t_pages t /\
  t_nodes t' = t_nodes t /\ fresh t' = fresh t /\ t_data t' = t_data t /\ allocated t' = allocated t.
Proof.
  intros Hwf. unfold protectedEpoch. destruct (protectedKnown t) eqn:Ek.
  { rewrite (w_known t Hwf Ek). eauto 15. }
  assert (forall v, v = pe t -> tx_wf (set_known v t)) as Hset.
  { intros v ->. destruct Hwf. split; auto. done. }
  pose proof (w_value t Hwf Ek) as Hv.
  unfold pe at 1. destruct (Protected (t_ctrl t) =? 0) eqn:E.
  - assert (pe t = 0) as Hpe by (unfold pe; by rewrite E). rewrite Hv.
    exists (set_known 0 t). split_and!; auto.
  - bool_prop. destruct (w_prot t Hwf E) as (_ & (cp & Hcp & _) & _). rewrite Hcp. cbn [res_bind].
    eexists; split; [done|]. split_and!; try done. apply Hset. unfold pe.
    by rewrite (proj2 (Z.eqb_neq _ _)), Hcp.
Qed.

(** Slot pages are not descriptor pages, so descriptors do not see them change. *)
Lemma dsc_set_slotpage t s b x : 1 <= s -> dsc (set_page (slotPage s) b t) x = dsc t x.
Proof.
  intros Hs. apply option_eq. intros d. rewrite !dsc_Some. cbn [set_page t_ctrl].
  rewrite read_set_page. case_decide as E; [|done].
  split; intros (Hx & _); exfalso; apply (slotPage_descriptorPage s x); (done || lia).
Qed.

(** Rewriting the protected checkpoint under the same epoch. *)
Lemma wf_put_protected t cp cp' b :
  tx_wf t -> Protected (t_ctrl t) <> 0 -> readCheckpoint t (Protected (t_ctrl t)) = Ok cp ->
  checkpoint_ok cp' -> cp_Epoch cp' = cp_Epoch cp -> is_page b -> decodeCheckpoint b = Ok cp' ->
  let t' := set_page (slotPage (Protected (t_ctrl t))) b t in
  tx_wf t' /\ pe t' = pe t /\ readCheckpoint t' (Protected (t_ctrl t)) = Ok cp'.
Proof.
  intros Hwf H0 Hcp Hok He Hb Hd t'. destruct (w_prot t Hwf H0) as (Hr & _ & dp & Hdp & Hkp).
  assert (forall x, dsc t' x = dsc t x) as Hdsc by (intros; apply dsc_set_slotpage; lia).
  assert (readCheckpoint t' (Protected (t_ctrl t)) = Ok cp') as Hcp'.
  { unfold readCheckpoint, t'. by rewrite read_set_page, decide_True. }
  assert (pe t' = pe t) as Hpe.
  { unfold pe. cbn [t' t_ctrl set_page]. fold t'. rewrite (proj2 (Z.eqb_neq _ _)) by done.
    by rewrite Hcp', Hcp. }
  split; [|done]. destruct Hwf. split; try done.
  - intros p b' Hp. cbn in Hp. destruct (decide (p = slotPage (Protected (t_ctrl t)))) as [->|].
    + rewrite lookup_insert_eq in Hp. injection Hp as <-. split; [done|]. apply home_slot. lia.
    + rewrite lookup_insert_ne in Hp by done. by apply w_pages0.
  - intros x Hx. unfold t'. rewrite read_set_page, decide_False; [by apply w_desc0|].
    intros E. apply (slotPage_descriptorPage (Protected (t_ctrl t)) x); cbn in Hx; (done || lia).
  - intros _. split; [done|]. split; [by eexists|]. exists dp. by rewrite Hdsc.
  - by rewrite Hpe.
  - intros. by rewrite Hpe; apply w_known0.
  - intros x b' Hx Hp. rewrite Hdsc. cbn in Hp.
    destruct (decide (x = Protected (t_ctrl t))) as [->|Hne]; [eauto|].
    rewrite lookup_insert_ne in Hp; [by eapply w_slotpages0|]. intros E. apply Hne.
    by apply slotPage_inj in E; [|lia|lia].
  - intros x n Hn. rewrite Hpe, Hdsc. by apply w_nodes0.
  - destruct w_free0 as (l & Hl & Hnd). exists l. split; [|done]. by eapply chain_ext; [|exact Hl].
Qed.

Lemma wf_drop_node t s d : tx_wf t -> dsc t s = Some d -> Kind d = kindIndex ->
  tx_wf (drop_node s t) /\ t_pages (drop_node s t) = t_pages t.
Proof.
  intros Hwf Hd Hk. pose proof (dsc_bound _ _ _ Hd) as Hs.
  assert (t_pages t !! slotPage s = None) as Hp.
  { destruct (t_pages t !! slotPage s) as [b|] eqn:E; [|done].
    destruct (w_slotpages t Hwf s b ltac:(lia) E) as (d' & Hd' & Hk'). simplify_eq.
    rewrite Hk in Hk'. by destruct Hk'. }
  assert (t_pages (drop_node s t) = t_pages t) as Hpp by (by apply delete_id).
  split; [|done].
  assert (forall p, read (drop_node s t) p = read t p) as Hrd by (intros; unfold read; by rewrite Hpp).
  assert (forall x, dsc (drop_node s t) x = dsc t x) as Hdsc.
  { intros x. apply option_eq. intros d'. rewrite !dsc_Some. by rewrite Hrd. }
  assert (pe (drop_node s t) = pe t) as Hpe.
  { apply pe_ext; [done|]. intros. unfold readCheckpoint. by rewrite Hrd. }
  destruct Hwf. split; try done.
  - intros p b. rewrite Hpp. apply w_pages0.
  - intros x Hx. rewrite Hrd. by apply w_desc0.
  - intros H0. destruct (w_prot0 H0) as (? & (cp & ? & ?) & dp & ? & ?).
    split; [done|]. split; [|exists dp; by rewrite Hdsc].
    exists cp. unfold readCheckpoint in *. by rewrite Hrd.
  - by rewrite Hpe.
  - rewrite Hpe. apply w_known0.
  - intros x b Hx. rewrite Hpp, Hdsc. by apply w_slotpages0.
  - intros x n Hn. rewrite Hpe, Hdsc. cbn in Hn. apply lookup_delete_Some in Hn as [_ Hn]. by apply w_nodes0.
  - destruct w_free0 as (l & Hl & Hnd). exists l. split; [|done]. by eapply chain_ext; [|exact Hl].
Qed.

Lemma wf_set_Garbage t g : tx_wf t -> is_u64 g -> tx_wf (set_ctrl (set_Garbage g (t_ctrl t)) t).
Proof.
  intros [] Hg. unfold control_ok in w_ctrl0. destruct_and! w_ctrl0.
  split; auto. unfold control_ok; cbn; auto 20.
Qed.

(** A retired slot leaves the private state and joins a garbage chain. *)
Record retire_pre (t : transaction) (s : Z) (t2 : transaction) : Prop := {
  rp_wf : tx_wf t2;
  rp_dsc : forall x, dsc t2 x = dsc t x;
  rp_nodes : t_nodes t2 = delete s (t_nodes t);
  rp_read : forall x, 1 <= x -> x <> Protected (t_ctrl t) -> read t2 (slotPage x) = read t (slotPage x);
  rp_pe : pe t2 = pe t;
  rp_ctrl : ctrl_frame (t_ctrl t) (t_ctrl t2);
  rp_free : Free (t_ctrl t2) = Free (t_ctrl t);
  rp_next : Next (t_ctrl t2) = Next (t_ctrl t);
  rp_store : store t2 = store t;
  rp_fresh : fresh t2 = fresh t;
  rp_data : t_data t2 = t_data t;
  rp_low : low_same t t2;
  rp_pages : forall x, 1 <= x -> x <> Protected (t_ctrl t) -> t_pages t2 !! slotPage x = t_pages t !! slotPage x;
  rp_allocated : allocated t2 = allocated t }.

Lemma retire_finish t t2 s d next :
  retire_pre t s t2 -> dsc t s = Some d -> Kind d = kindIndex \/ Kind d = kindData -> is_u64 next -> owner_of t s d next t2 ->
  exists t', setDesc t2 s (mkDescriptor (Birth d) next kindGarbage) = Ok t' /\ retire_fx t s t'.
Proof.
  intros [Hwf Hdsc Hn Hrd Hpe Hcf Hfree Hnext Hst Hfr Hda Hlow Hpgs Hal] Hd Hk Hg How.
  assert (dsc t2 s = Some d) as Hd2 by (by rewrite Hdsc).
  pose proof (dsc_bound _ _ _ Hd2) as Hs. pose proof (dsc_ok _ _ _ Hwf Hd2) as Hdok.
  destruct (w_desc t2 Hwf s Hs) as (b & Hb & Hc).
  assert (is_page b) as Hpg by exact (read_page t2 _ b Hwf Hb).
  assert (descriptor_ok (mkDescriptor (Birth d) next kindGarbage)) as Hd'.
  { destruct Hdok as (? & ? & ?). split_and!; cbn; [done|done|]. unfold is_u64, kindGarbage. lia. }
  rewrite (setDesc_eq _ _ _ _ Hb). eexists; split; [done|]. set (t3 := set_page _ _ t2).
  pose proof (set_descriptor_dsc t2 s _ b Hs Hb Hpg Hd' (w_desc t2 Hwf)) as Hdsc3. fold t3 in Hdsc3.
  assert (t_pages t2 !! slotPage s = None) as Hp.
  { destruct (t_pages t2 !! slotPage s) as [b'|] eqn:E; [|done].
    destruct (w_slotpages t2 Hwf s b' ltac:(lia) E) as (d' & Hd2' & Hk'). simplify_eq.
    by destruct Hk as [Hk|Hk]; rewrite Hk in Hk'; destruct Hk'. }
  assert (s <> Protected (t_ctrl t2)) as Hpr.
  { intros E. destruct (w_prot t2 Hwf ltac:(lia)) as (_ & _ & dp & Hdp & Hkp). rewrite <- E in Hdp.
    simplify_eq. by destruct Hk as [Hk|Hk]; rewrite Hk in Hkp. }
  assert (tx_wf t3) as Hwf3.
  { apply wf_set_descriptor; auto; [left; rewrite Hn; apply lookup_delete_eq|done|].
    destruct (w_free t2 Hwf) as (l & Hl & Hnd). exists l. split_and!; [done..|]. intros Hin.
    destruct (chain_kind _ _ _ _ _ Hl Hin) as (d' & Hd2' & Hk'). simplify_eq.
    by destruct Hk as [Hk|Hk]; rewrite Hk in Hk'. }
  split; try done.
  - exists d; eexists; split; [done|]. rewrite Hdsc3, decide_True by done. by split_and!.
  - intros x Hx. by rewrite Hdsc3, decide_False, Hdsc.
  - intros x Hx Hxp. rewrite <- Hrd by done. apply set_descriptor_read; [done|].
    intros. by apply slotPage_descriptorPage.
  - rewrite <- Hpe. apply pe_ext; [done|]. intros H0. apply set_descriptor_cp; [done|].
    destruct (w_prot t2 Hwf H0) as (? & _). lia.
  - intros q Hq. rewrite <- (Hlow q Hq). cbn. apply lookup_insert_ne. pose proof (descriptorPage_area s). lia.
  - intros x Hx Hxp. rewrite <- Hpgs by done. cbn. apply lookup_insert_ne. intros E. apply (slotPage_descriptorPage x s); [lia..|done].
  - exists d, next. split; [done|]. split; [done|]. split; [by rewrite Hdsc3, decide_True|].
    assert (forall x, 1 <= x -> read t3 (slotPage x) = read t2 (slotPage x)) as Hrd3.
    { intros x Hx. apply set_descriptor_read; [done|]. intros. by apply slotPage_descriptorPage. }
    assert (Protected (t_ctrl t2) = Protected (t_ctrl t)) as HP by apply Hcf.
    destruct How as [(H0 & Hb0 & HG & cp & Hc0 & Hok & Hc2 & ->)|(H0 & HG & -> & Hr)]; [left|right].
    + split_and!; try done. exists cp. split_and!; try done. unfold readCheckpoint in *. rewrite Hrd3; [done|].
      rewrite <- HP in *. destruct (w_prot t2 Hwf H0). lia.
    + split_and!; try done. intros x Hx. rewrite Hrd3 by done. by apply Hr.
Qed.

(** Dropping the private copy and learning the protected epoch. *)
Lemma retire_begin t s d :
  tx_wf t -> dsc t s = Some d -> Kind d = kindIndex \/ Kind d = kindData ->
  exists t1, protectedEpoch (if Kind d =? kindIndex then drop_node s t else t) = Ok (pe t, t1) /\
    retire_pre t s t1 /\ t_ctrl t1 = t_ctrl t /\ t_pages t1 = t_pages t.
Proof.
  intros Hwf Hd Hk. set (t0 := if Kind d =? kindIndex then drop_node s t else t).
  assert (tx_wf t0 /\ t_pages t0 = t_pages t /\ t_nodes t0 = delete s (t_nodes t) /\
    t_ctrl t0 = t_ctrl t /\ store t0 = store t /\ fresh t0 = fresh t /\ t_data t0 = t_data t /\ allocated t0 = allocated t)
    as (Hwf0 & Hpg0 & Hnd0 & Hct0 & Hst0 & Hfr0 & Hda0 & Hal0).
  { subst t0. destruct Hk as [Hk|Hk]; rewrite Hk; cbn.
    - destruct (wf_drop_node t s d Hwf Hd Hk). by split_and!.
    - split_and!; try done. symmetry. apply delete_id.
      destruct (t_nodes t !! s) as [n|] eqn:E; [|done].
      destruct (w_nodes t Hwf s n E) as ((d' & Hd' & Hk' & _) & _). simplify_eq. by rewrite Hk in Hk'. }
  clearbody t0.
  destruct (protectedEpoch_spec t0 Hwf0) as (t1 & Hpe1 & Hwf1 & Hst1 & Hct1 & Hpg1 & Hnd1 & Hfr1 & Hda1 & Hal1).
  assert (forall p, read t1 p = read t p) as Hrd.
  { intros p. unfold read. by rewrite Hpg1, Hpg0, Hst1, Hst0. }
  assert (t_ctrl t1 = t_ctrl t) as Hct by congruence.
  assert (forall t', t_ctrl t' = t_ctrl t -> (forall p, read t' p = read t p) -> pe t' = pe t) as Hpe.
  { intros t' Hc Hr. apply pe_ext; [by rewrite Hc|]. intros _. unfold readCheckpoint. by rewrite Hr. }
  exists t1. rewrite Hpe1, (Hpe t0); [|done|intros p; unfold read; by rewrite Hpg0, Hst0].
  split; [done|]. split; [|split; congruence].
  split; try congruence.
  - intros x. apply option_eq. intros d'. rewrite !dsc_Some. by rewrite Hrd, Hct.
  - by apply Hpe.
  - rewrite Hct. by repeat split.
Qed.

Lemma retire_spec t s d :
  tx_wf t -> dsc t s = Some d -> Kind d = kindIndex \/ Kind d = kindData ->
  exists t', retire t s = Ok t' /\ retire_fx t s t'.
Proof.
  intros Hwf Hd Hk. pose proof (dsc_bound _ _ _ Hd) as Hs.
  assert (is_u64 s) as Hsu by (pose proof (w_next t Hwf); unfold is_u64; rewrite maxSlot_val in *; lia).
  unfold retire. rewrite (proj2 (Z.eqb_neq _ _)), (dsc_desc _ _ _ Hd) by lia. cbn [res_bind].
  assert ((Kind d =? kindGarbage) || (Kind d =? kindFree) = false) as ->
    by (by destruct Hk as [-> | ->]).
  destruct (retire_begin t s d Hwf Hd Hk) as (t1 & -> & Hpre & Hct & Hpg). cbn [res_bind].
  pose proof Hpre as [Hwf1 Hdsc1 Hnd1 Hrd1 Hpe1 Hcf1 Hfree1 Hnext1 Hst1 Hfr1 Hda1 Hlow1 Hpgs1 Hal1].
  assert (forall p, read t1 p = read t p) as Hrd by (intros p; unfold read; by rewrite Hpg, Hst1).
  destruct (negb _ && _) eqn:E.
  - apply andb_true_iff in E as [E Eb]. bool_prop.
    destruct (w_prot t1 Hwf1 E) as (Hr & (cp & Hcp & Hok) & _). rewrite Hcp. cbn [res_bind].
    assert (checkpoint_ok (set_cpGarbage s cp)) as Hok'.
    { unfold checkpoint_ok in *. destruct_and! Hok. cbn. split_and!; auto. }
    destruct (decodeCheckpoint_encode _ Hok') as (b & Hb & Hpb & _ & Hdb). unfold putCheckpoint. rewrite Hb.
    cbn [res_bind].
    destruct (wf_put_protected t1 cp _ b Hwf1 E Hcp Hok' eq_refl Hpb Hdb) as (Hwf2 & Hpe2 & Hcp2).
    apply retire_finish; auto; [|unfold checkpoint_ok in Hok; tauto|].
    2: { left. rewrite Hct in *. split_and!; [done|lia|cbn; by rewrite Hct|]. exists cp. unfold readCheckpoint in *. rewrite Hrd in Hcp. by split_and!. }
    split; auto; try congruence.
    + intros x. rewrite dsc_set_slotpage by lia. apply Hdsc1.
    + intros x Hx Hxp. rewrite read_set_page, decide_False, Hrd1; auto.
      intros Ex. apply slotPage_inj in Ex; [|lia|lia]. rewrite Hct in Ex. congruence.
    + intros q Hq. rewrite <- (Hlow1 q Hq). cbn. apply lookup_insert_ne.
      pose proof (slotPage_area (Protected (t_ctrl t1))). lia.
    + intros x Hx Hxp. rewrite <- Hpgs1 by done. cbn. apply lookup_insert_ne. intros Ex. apply slotPage_inj in Ex; [|lia|lia]. rewrite Hct in Ex. congruence.
  - cbn [res_bind]. apply retire_finish; auto; [|pose proof (w_ctrl t1 Hwf1) as Hc; unfold control_ok in Hc; tauto|].
    { pose proof (wf_set_Garbage t1 s Hwf1 Hsu). split; auto. }
    { right. rewrite Hct in *. split; [|split; [done|split; [done|intros x _; apply Hrd]]].
      destruct (decide (Protected (t_ctrl t) = 0)) as [|Hne]; [by left|right].
      rewrite (proj2 (Z.eqb_neq _ _) Hne) in E. cbn in E. by apply Z.leb_gt in E. }
Qed.
