(* ===== verification/Demo.v ===== *)
(** * Demo: a small versioned DIFF.

    A store with one retained checkpoint, used as the concrete input of the
    witnesses of the components above the transaction: slot 1 holds the payload
    of block 5, slot 2 the leaf that maps it, slot 3 the protected checkpoint of
    epoch 1; the store is in epoch 2. *)
From stdpp Require Import base numbers list gmap strings sorting.
From Stdlib Require Import ZArith Lia.
From S2P Require Import Prelude Page Presence Json Format Tree Tx.

Definition demo_leaf : node := mkNode true [mkEntry 5 1].
Definition demo_cp : checkpoint := mkCheckpoint (str "base") 1 2 0 0 0 true true false 0 0.
Definition demo_cp_page : list Z :=
  match encodeCheckpoint demo_cp with Ok b => b | Err _ => zeroPage end.
Definition demo_desc (s : Z) : descriptor :=
  mkDescriptor 1 0 (if s =? 1 then kindData else if s =? 2 then kindIndex else kindCheckpoint).
Definition demo_desc_page : list Z :=
  sealPage (put_descriptor 3 (demo_desc 3) (put_descriptor 2 (demo_desc 2)
    (put_descriptor 1 (demo_desc 1) newDescriptorPage))).
Definition demo_ctrl : control := mkControl 2 4 0 0 2 0 3 3 3 0 0 false 1.
Definition demo_ctrl_page : list Z := match encodeControl demo_ctrl with Ok b => b | Err _ => zeroPage end.
Definition demo_size : Z := 16 * PageSize.
Definition demo_presence : list Z := [0; 0].
Definition demo_presence_page : list Z :=
  match Encode demo_presence demo_size 0 with Ok b => b | Err _ => zeroPage end.
Definition demo_data : list Z := zeroPage.
Definition demo_file : file :=
  mkFile (<[2048 := demo_desc_page]> (<[2049 := demo_data]> (<[2050 := encodeNode demo_leaf]>
    (<[2051 := demo_cp_page]> (<[1600 := demo_presence_page]> {[1 := demo_ctrl_page]}))))) 5000.
Definition demo_store : Store := mkStore demo_file demo_ctrl demo_presence demo_size.
Definition demo_tx : transaction := begin demo_store.

Lemma demo_entries_ok : Forall entry_ok (entries demo_leaf).
Proof. apply Forall_singleton. unfold entry_ok, is_u64; cbn. lia. Qed.
Lemma demo_leaf_ok : node_ok demo_leaf.
Proof. split; [cbn; lia|]. split; [apply demo_entries_ok|done]. Qed.
Lemma demo_cp_ok : checkpoint_ok demo_cp.
Proof.
  unfold checkpoint_ok, is_u64; cbn [demo_cp cp_ID cp_Epoch cp_Root cp_Next cp_Previous cp_Garbage cp_Bitmap cp_BitmapDone].
  split_and!; try lia; [by repeat constructor|done|cbn; lia].
Qed.
Lemma demo_cp_page_ok : is_page demo_cp_page /\ decodeCheckpoint demo_cp_page = Ok demo_cp.
Proof.
  unfold demo_cp_page. destruct (decodeCheckpoint_encode _ demo_cp_ok) as (b & -> & ? & _ & ?). by split.
Qed.
Lemma demo_ctrl_ok : control_ok demo_ctrl.
Proof. unfold control_ok, is_u64. cbn. split_and!; lia. Qed.
Lemma demo_ctrl_page_ok : is_page demo_ctrl_page /\ decodeControl demo_ctrl_page = Ok demo_ctrl.
Proof.
  unfold demo_ctrl_page. destruct (decodeControl_encode _ demo_ctrl_ok) as (b & -> & ? & _ & ?). by split.
Qed.
Lemma demo_valid_size : valid_size demo_size.
Proof. split; [split; [reflexivity|discriminate]|reflexivity]. Qed.
Lemma demo_bitmap_ok : bitmap_ok demo_size demo_presence.
Proof.
  split; [by repeat constructor|]. split; [reflexivity|]. intros block _. unfold Has, byte_at, demo_presence.
  destruct (Z.to_nat (block / 8)) as [|[|n]]; reflexivity.
Qed.
Lemma demo_presence_encoded : encoded demo_presence demo_size 0 demo_presence_page.
Proof.
  destruct demo_bitmap_ok as (Hb & Hl & _).
  destruct (Encode_encoded demo_presence demo_size 0 Hb Hl demo_valid_size) as (b & He & H); [split; [discriminate|reflexivity]|].
  unfold demo_presence_page. by rewrite He.
Qed.
Lemma newDescriptorPage_page : is_page newDescriptorPage.
Proof. apply sealPage_page, put_page; [apply zeroPage_ok|by repeat constructor|plia]. Qed.
Lemma demo_desc_page_ok : is_page demo_desc_page /\ checkPage demo_desc_page = true /\
  forall s, 1 <= s < 4 -> get_descriptor demo_desc_page s = demo_desc s.
Proof.
  unfold demo_desc_page. set (b1 := put_descriptor 1 _ _). set (b2 := put_descriptor 2 _ b1).
  set (b3 := put_descriptor 3 _ b2).
  assert (is_page b1) as H1 by (apply put_descriptor_page, newDescriptorPage_page).
  assert (is_page b2) as H2 by (by apply put_descriptor_page).
  assert (is_page b3) as H3 by (by apply put_descriptor_page).
  assert (forall s, descriptor_ok (demo_desc s)) as Hok.
  { intros s. unfold descriptor_ok, demo_desc, is_u64; cbn [Birth dNext Kind].
    unfold kindData, kindIndex, kindCheckpoint. repeat case_match; lia. }
  split; [by apply sealPage_page|]. split; [by apply checkPage_seal|]. intros s Hs.
  rewrite get_descriptor_seal by done.
  assert (s = 1 \/ s = 2 \/ s = 3) as [-> | [-> | ->]] by lia.
  - unfold b3. rewrite get_put_descriptor_ne by done. unfold b2. rewrite get_put_descriptor_ne by done.
    apply get_put_descriptor; [apply newDescriptorPage_page|done].
  - unfold b3. rewrite get_put_descriptor_ne by done. by apply get_put_descriptor.
  - by apply get_put_descriptor.
Qed.

Lemma demo_page_read p b : fpages demo_file !! p = Some b -> 0 <= p < 5000 -> read demo_tx p = Ok b.
Proof.
  intros Hp Hr. unfold read, demo_tx, begin. cbn [t_pages store s_file demo_store]. rewrite lookup_empty.
  unfold readFull, page_at. rewrite Hp. cbn [flen demo_file].
  rewrite (proj2 (Z.ltb_ge p 0)), (proj2 (Z.ltb_ge 5000 (p + 1))) by lia. done.
Qed.
Lemma demo_node_page : fpages demo_file !! 2050 = Some (encodeNode demo_leaf).
Proof. cbn [demo_file fpages]. rewrite !lookup_insert_ne by done. apply lookup_insert_eq. Qed.
Lemma demo_checkpoint_page : fpages demo_file !! 2051 = Some demo_cp_page.
Proof. cbn [demo_file fpages]. rewrite !lookup_insert_ne by done. apply lookup_insert_eq. Qed.
Lemma demo_area_page : fpages demo_file !! 1600 = Some demo_presence_page.
Proof. cbn [demo_file fpages]. rewrite !lookup_insert_ne by done. apply lookup_insert_eq. Qed.
Lemma demo_control_page : fpages demo_file !! 1 = Some demo_ctrl_page.
Proof. cbn [demo_file fpages]. rewrite !lookup_insert_ne by done. apply lookup_singleton_eq. Qed.
Lemma demo_dsc s : 1 <= s < 4 -> dsc demo_tx s = Some (demo_desc s).
Proof.
  intros Hs. destruct demo_desc_page_ok as (_ & Hc & Hg). apply dsc_Some. split; [done|].
  exists demo_desc_page. split_and!; [|done|by rewrite Hg].
  assert (descriptorPage s = 2048) as -> by (assert (s = 1 \/ s = 2 \/ s = 3) as [-> | [-> | ->]] by lia; done).
  apply demo_page_read; [|lia]. apply lookup_insert_eq.
Qed.
Lemma demo_readCheckpoint : readCheckpoint demo_tx 3 = Ok demo_cp.
Proof.
  unfold readCheckpoint. change (slotPage 3) with 2051. rewrite (demo_page_read _ _ demo_checkpoint_page) by lia.
  exact (proj2 demo_cp_page_ok).
Qed.
Lemma demo_pe : pe demo_tx = 1.
Proof. unfold pe. cbn [demo_tx begin t_ctrl s_ctrl demo_store Protected demo_ctrl]. change (3 =? 0) with false. by rewrite demo_readCheckpoint. Qed.

Lemma demo_wf : tx_wf demo_tx.
Proof.
  split.
  - apply demo_ctrl_ok.
  - rewrite maxSlot_val. cbn. lia.
  - intros p b. cbn [demo_tx begin store s_file demo_store demo_file fpages].
    rewrite !lookup_insert_Some. intros [[_ <-]|[_ [[_ <-]|[_ [[_ <-]|[_ [[_ <-]|[_ [[_ <-]|[_ Hb]]]]]]]]]].
    + apply demo_desc_page_ok.
    + apply zeroPage_ok.
    + apply (encodeNode_page demo_leaf); [cbn; lia|apply demo_entries_ok].
    + apply demo_cp_page_ok.
    + apply (en_page _ _ _ _ demo_presence_encoded).
    + apply lookup_singleton_Some in Hb as [_ <-]. apply demo_ctrl_page_ok.
  - intros p b. cbn. by rewrite lookup_empty.
  - intros s Hs. pose proof (demo_dsc s Hs) as Hd. apply dsc_Some in Hd as (_ & b & ? & ? & _). eauto.
  - intros _. split; [cbn; lia|]. split; [exists demo_cp; split; [apply demo_readCheckpoint|apply demo_cp_ok]|].
    exists (demo_desc 3). split; [apply demo_dsc; lia|done].
  - rewrite demo_pe. cbn. lia.
  - done.
  - done.
  - intros s b _. cbn. by rewrite lookup_empty.
  - intros s n. cbn. by rewrite lookup_empty.
  - exists []. split; [done|constructor].
Qed.

Lemma demo_nd : nd demo_tx 2 = Some demo_leaf.
Proof.
  unfold nd, nd_of, inspectNode. cbn [tx_reader rd_nodes rd_next rd_read rd_total].
  cbn [demo_tx begin t_nodes]. rewrite lookup_empty. change (slotPage 2) with 2050. fold demo_tx.
  rewrite (demo_page_read _ _ demo_node_page) by lia. cbn [res_bind].
  rewrite decode_encodeNode by apply demo_leaf_ok. done.
Qed.
Lemma demo_leaf_tree : tree (nd demo_tx) 0 2 [mkEntry 5 1] [2].
Proof. split; [lia|]. split_and!; [apply demo_nd|done|done]. Qed.

(** A transaction with a change of the control only. *)
Definition demo_change : transaction := set_ctrl (set_Garbage 2 demo_ctrl) demo_tx.
Lemma demo_change_wf : tx_wf demo_change.
Proof. apply (wf_set_Garbage demo_tx 2 demo_wf). unfold is_u64. lia. Qed.
