(* ===== verification/TreeWrite.v ===== *)
(** * TreeWrite: copy-on-write updates of the version tree.

    Models [writable], [put], [set], [removeRange] and [unsetRange] of
    pkg/diffstore/internal/versioned/tree.go over the transaction of Tx.v.  A
    node born after the protected epoch is changed in place; an older one is
    copied to a fresh slot and retired.  The theorems give the effect on the
    mapping, and that every tree a retained checkpoint reaches stays as it was. *)
From stdpp Require Import base numbers list gmap strings sorting.
From Stdlib Require Import ZArith Lia.
From S2P Require Import Prelude Page Presence Json Format Tree Tx Demo.

(** ** Operations *)

Definition writable (t : transaction) (s : Z) (n : node) : dres (Z * transaction) :=
  let* (private, t) := private_ t s in
  if (private : bool) then Ok (s, t)
  else
    let* (fresh, t) := allocate t kindIndex in
    let* t := retire t s in
    Ok (fresh, set_node fresh n t).

(** The leaf update of [put] at index [i]. *)
Definition leaf_put (es : list entry) (i : nat) (k v : Z) : list entry :=
  match es !! i with
  | Some e => if key e =? k then <[i := mkEntry (key e) v]> es
              else take i es ++ mkEntry k v :: drop i es
  | None => take i es ++ mkEntry k v :: drop i es
  end.
Definition max_key (es : list entry) : Z := default 0 (key <$> last es).
(** The end of [put]: store the entries, splitting an overfull node. *)
Definition put_entries_at (t : transaction) (s : Z) (lf : bool) (es : list entry)
    : dres (list entry * transaction) :=
  if Z.of_nat (length es) <=? maxEntries
  then Ok ([mkEntry (max_key es) s], set_node s (mkNode lf es) t)
  else
    let mid := (length es / 2)%nat in
    let* (rt, t) := allocate t kindIndex in
    Ok ([mkEntry (max_key (take mid es)) s; mkEntry (max_key es) rt],
        set_node rt (mkNode lf (drop mid es)) (set_node s (mkNode lf (take mid es)) t)).

Fixpoint put (lv : nat) (t : transaction) (root k v : Z) : dres (list entry * transaction) :=
  match lv with
  | O => Err errDepth
  | S lv =>
      if root =? 0 then
        let* (s, t) := allocate t kindIndex in
        Ok ([mkEntry k s], set_node s (mkNode true [mkEntry k v]) t)
      else
        let* n := readNode (tx_reader t) root in
        let* (s, t) := writable t root n in
        let i := search (entries n) k in
        if leaf n then put_entries_at t s true (leaf_put (entries n) i k v)
        else
          let i := if (i =? length (entries n))%nat then (i - 1)%nat else i in
          match entries n !! i with
          | None => Err (DiffErr "index out of range") (* a decoded node is never empty *)
          | Some e =>
              let* (children, t) := put lv t (slot e) k v in
              put_entries_at t s false (take i (entries n) ++ children ++ drop (S i) (entries n))
          end
  end.

Definition set (t : transaction) (k v : Z) : dres transaction :=
  let* (children, t) := put maxDepth t (Root (t_ctrl t)) k v in
  match children with
  | [c] => Ok (set_ctrl (set_Root (slot c) (t_ctrl t)) t)
  | _ =>
      let* (root, t) := allocate t kindIndex in
      let t := set_node root (mkNode false children) t in
      Ok (set_ctrl (set_Root root (t_ctrl t)) t)
  end.

(** ** The effect of a tree update *)

(** A page that holds no record of the transaction's state: the page of an unused
    slot, or the first descriptor page beyond the allocated slots. *)
Definition spare (t : transaction) (p : Z) : Prop :=
  exists s, 1 <= s /\ ((unused t s /\ p = slotPage s) \/
    (Next (t_ctrl t) <= s /\ p = descriptorPage s /\ (s - 1) mod slotsPerGroup = 0)).

(** The control fields other than the root and the slot lists. *)
Definition ctrl_rest (c c' : control) : Prop :=
  Epoch c' = Epoch c /\ Current c' = Current c /\ Head c' = Head c /\ Tail c' = Tail c /\
  Protected c' = Protected c /\ Pending c' = Pending c /\ GCScan c' = GCScan c /\
  Retired c' = Retired c /\ Tx c' = Tx c.

(** Nothing is younger than the current epoch. *)
Definition born (t : transaction) : Prop := forall x d, dsc t x = Some d -> Birth d <= Epoch (t_ctrl t).

(** The steps every update is made of: a slot is allocated, a slot is retired, only
    decoded nodes and the root change, or a fresh bitmap slot is filled in. *)
Inductive prim (t t' : transaction) : Prop :=
| prim_allocate s kind : alloc_fx t s kind t' -> prim t t'
| prim_retire s : retire_fx t s t' -> prim t t'
| prim_quiet : t_ctrl t' = set_Root (Root (t_ctrl t')) (t_ctrl t) -> store t' = store t -> t_pages t' = t_pages t ->
    fresh t' = fresh t -> allocated t' = allocated t -> prim t t'
| prim_snapshot s d : 1 <= s -> slotPage s ∈ fresh t -> dsc t s = Some d -> Kind d = kindBitmap ->
    t_ctrl t' = t_ctrl t -> store t' = store t -> fresh t' = fresh t -> allocated t' = allocated t ->
    (forall x, x <> s -> dsc t' x = dsc t x) -> (exists d', dsc t' s = Some d' /\ Kind d' = kindBitmap) ->
    (forall x, 1 <= x -> x <> s -> t_pages t' !! slotPage x = t_pages t !! slotPage x) -> prim t t'.

(** [tree_fx t fp t']: from [t] to [t'] only the slots of [fp] and unused slots
    changed.  A slot of [fp] may have been retired, and its node rewritten when it
    was born after the protected epoch. *)
Record tree_fx (t : transaction) (fp : list Z) (t' : transaction) : Prop := {
  fx_wf : tx_wf t';
  fx_store : store t' = store t;
  fx_pe : pe t' = pe t;
  fx_ctrl : ctrl_rest (t_ctrl t) (t_ctrl t');
  fx_next : Next (t_ctrl t) <= Next (t_ctrl t');
  fx_data : t_data t' = t_data t;
  fx_fresh : forall p, p ∈ fresh t' -> p ∈ fresh t \/ spare t p;
  fx_live : forall x d, dsc t x = Some d -> Kind d <> kindFree ->
    exists d', dsc t' x = Some d' /\ Birth d' = Birth d /\
      (d' = d \/ x ∈ fp /\ Kind d' = kindGarbage);
  fx_nd : forall x d n, dsc t x = Some d -> Kind d <> kindFree -> Kind d <> kindCheckpoint ->
    x ∉ fp \/ Birth d <= pe t -> nd t x = Some n -> nd t' x = Some n;
  fx_born : born t -> born t';
  fx_low : low_same t t';
  fx_steps : rtc prim t t' }.

Lemma ctrl_rest_refl c : ctrl_rest c c.
Proof. by repeat split. Qed.
Lemma ctrl_rest_frame c c' : ctrl_frame c c' -> ctrl_rest c c'.
Proof. unfold ctrl_frame, ctrl_rest. tauto. Qed.
Lemma ctrl_rest_trans c c1 c2 : ctrl_rest c c1 -> ctrl_rest c1 c2 -> ctrl_rest c c2.
Proof. unfold ctrl_rest. intros H1 H2. destruct_and! H1. destruct_and! H2. split_and!; congruence. Qed.
#[export] Hint Resolve ctrl_rest_refl ctrl_rest_frame : go.

Lemma fx_unused t fp t' x : tree_fx t fp t' -> unused t' x -> unused t x.
Proof.
  intros Hfx Hun. unfold unused. destruct (dsc t x) as [d|] eqn:Hd; [|by left]. right. exists d.
  split; [done|]. destruct (decide (Kind d = kindFree)) as [|Hk]; [done|]. exfalso.
  destruct (fx_live _ _ _ Hfx x d Hd Hk) as (d' & Hd' & _ & Hc).
  destruct Hun as [Hn|(d2 & Hd2 & Hk2)]; [congruence|]. simplify_eq.
  destruct Hc as [->|[_ Hg]]; [done|]. by rewrite Hg in Hk2.
Qed.
Lemma unused_live t x d : unused t x -> dsc t x = Some d -> Kind d = kindFree.
Proof. intros [?|(? & ? & ?)]; congruence. Qed.

Lemma fx_spare t fp t' p : tree_fx t fp t' -> spare t' p -> spare t p.
Proof.
  intros Hfx (s & Hs & Hc). exists s. split; [done|]. pose proof (fx_next _ _ _ Hfx).
  destruct Hc as [[Hun ->]|(? & -> & ?)]; [left; split; [by eapply fx_unused|done]|right; split_and!; auto; lia].
Qed.

Lemma fx_trans t fp t1 fp1 t2 :
  tree_fx t fp t1 -> tree_fx t1 fp1 t2 -> (forall x, x ∈ fp1 -> x ∈ fp \/ unused t x) ->
  tree_fx t fp t2.
Proof.
  intros H1 H2 Hsub. split.
  - apply H2.
  - by rewrite (fx_store _ _ _ H2), (fx_store _ _ _ H1).
  - by rewrite (fx_pe _ _ _ H2), (fx_pe _ _ _ H1).
  - eapply ctrl_rest_trans; [apply H1|apply H2].
  - pose proof (fx_next _ _ _ H1). pose proof (fx_next _ _ _ H2). lia.
  - by rewrite (fx_data _ _ _ H2), (fx_data _ _ _ H1).
  - intros p Hp. destruct (fx_fresh _ _ _ H2 p Hp) as [Hp1|Hp1]; [by apply H1|]. right. by eapply fx_spare.
  - intros x d Hd Hk. destruct (fx_live _ _ _ H1 x d Hd Hk) as (d1 & Hd1 & Hb1 & Hc1).
    assert (Kind d1 <> kindFree) as Hk1 by (destruct Hc1 as [->|[_ ->]]; done).
    destruct (fx_live _ _ _ H2 x d1 Hd1 Hk1) as (d2 & Hd2 & Hb2 & Hc2).
    exists d2. split; [done|]. split; [congruence|].
    destruct Hc2 as [->|[Hx Hg]]; [done|]. right. split; [|done].
    destruct (Hsub x Hx) as [|Hun]; [done|]. by apply (unused_live _ _ _ Hun) in Hd.
  - intros x d n Hd Hk Hkc Hx Hn.
    pose proof (fx_nd _ _ _ H1 x d n Hd Hk Hkc Hx Hn) as Hn1.
    destruct (fx_live _ _ _ H1 x d Hd Hk) as (d1 & Hd1 & Hb1 & Hc1).
    apply (fx_nd _ _ _ H2 x d1 n Hd1); [| | |done].
    + destruct Hc1 as [->|[_ ->]]; done.
    + destruct Hc1 as [->|[_ ->]]; done.
    + rewrite Hb1, (fx_pe _ _ _ H1). destruct Hx as [Hx|Hx]; [|by right]. left. intros Hx1.
      destruct (Hsub x Hx1) as [|Hun]; [done|]. by apply (unused_live _ _ _ Hun) in Hd.
  - intros Hb. by apply (fx_born _ _ _ H2), (fx_born _ _ _ H1).
  - intros q Hq. by rewrite (fx_low _ _ _ H2 q Hq), (fx_low _ _ _ H1 q Hq).
  - eapply rtc_trans; [apply H1|apply H2].
Qed.
Lemma fx_weaken t fp fp' t' : tree_fx t fp t' -> (forall x, x ∈ fp -> x ∈ fp') -> tree_fx t fp' t'.
Proof.
  intros [] Hs. split; try done.
  - intros x d Hd Hk. destruct (fx_live0 x d Hd Hk) as (d' & ? & ? & Hc). exists d'.
    split_and!; [done..|]. destruct Hc as [|[? ?]]; auto.
  - intros x d n Hd Hk Hkc Hx. apply (fx_nd0 x d); auto. destruct Hx; auto.
Qed.

Lemma fx_allocate t s kind t' : tx_wf t -> alloc_fx t s kind t' -> tree_fx t [] t'.
Proof.
  intros Hwf Hal. pose proof (rtc_once _ _ (prim_allocate t t' s kind Hal)). destruct Hal. split; auto with go; try lia.
  - intros p Hp. destruct (al_fresh_only p Hp) as [?|[->|(-> & ? & ?)]]; [by left|right; exists s; auto..].
  - intros x d Hd Hk. exists d. split_and!; [|done|by left]. rewrite al_other; [done|].
    intros ->. by apply (unused_live _ _ _ al_unused) in Hd.
  - intros x d n Hd Hk Hkc _ Hn. apply al_nd; [|done]. apply dsc_bound in Hd. lia.
  - intros Hb x d Hd. assert (Epoch (t_ctrl t') = Epoch (t_ctrl t)) as -> by apply al_ctrl.
    destruct (decide (x = s)) as [->|]; [|rewrite al_other in Hd by done; by apply (Hb x)].
    rewrite al_dsc in Hd. injection Hd as <-. cbn. lia.
Qed.
Lemma fx_retire t s t' : tx_wf t -> retire_fx t s t' -> tree_fx t [s] t'.
Proof.
  intros Hwf Hrt. pose proof (rtc_once _ _ (prim_retire t t' s Hrt)).
  destruct Hrt as [Hwf' (ds & ds' & Hds & Hds' & Hbs & Hks) Hoth Hnodes Hrd Hpe Hcf Hfree Hnext Hst Hfr Hda Hlow _ _ _].
  split; auto with go; try lia.
  - rewrite Hfr. auto.
  - intros x d Hd Hk. destruct (decide (x = s)) as [->|Hne].
    + simplify_eq. exists ds'. split_and!; auto. right. split; [by left|done].
    + exists d. rewrite Hoth by done. split_and!; auto.
  - intros x d n Hd Hk Hkc Hx Hn. apply dsc_bound in Hd as Hb.
    apply (nd_mono t t'); auto; try lia.
    + rewrite Hnodes. destruct (decide (x = s)) as [->|Hne]; [|by rewrite lookup_delete_ne].
      rewrite lookup_delete_eq. destruct (t_nodes t !! s) as [m|] eqn:E; [|done].
      destruct (w_nodes t Hwf s m E) as ((d2 & Hd2 & _ & Hb2) & _). simplify_eq.
      destruct Hx as [Hx|Hx]; [|lia]. exfalso. apply Hx. by left.
    + apply Hrd; [lia|]. intros ->. destruct (w_prot t Hwf ltac:(lia)) as (_ & _ & dp & Hdp & Hkp).
      congruence.
  - intros Hb x d Hd. assert (Epoch (t_ctrl t') = Epoch (t_ctrl t)) as -> by apply Hcf.
    destruct (decide (x = s)) as [->|]; [|rewrite Hoth in Hd by done; by apply (Hb x)].
    simplify_eq. rewrite Hbs. by apply (Hb s).
Qed.
(** Slots that hold index nodes and may be rewritten in place. *)
Definition own (t : transaction) (s : Z) : Prop :=
  exists d, dsc t s = Some d /\ Kind d = kindIndex /\ pe t < Birth d.
Lemma wf_set_node t s n : tx_wf t -> own t s -> node_ok n -> node_in t n -> tx_wf (set_node s n t).
Proof.
  intros Hwf Hown Hok Hin. destruct Hwf. split; auto. cbn [set_node t_nodes]. intros x m.
  destruct (decide (x = s)) as [->|Hne].
  - rewrite lookup_insert_eq. intros [= <-]. by split.
  - rewrite lookup_insert_ne by done. apply w_nodes.
Qed.
Lemma nd_set_node t s n : nd (set_node s n t) s = Some n.
Proof. unfold nd, nd_of, inspectNode. cbn. by rewrite lookup_insert_eq. Qed.
Lemma nd_set_node_ne t s n x : x <> s -> nd (set_node s n t) x = nd t x.
Proof. intros. unfold nd, nd_of, inspectNode. cbn. by rewrite lookup_insert_ne. Qed.
Lemma fx_set_node t s n : tx_wf t -> own t s -> node_ok n -> node_in t n ->
  tree_fx t [s] (set_node s n t).
Proof.
  intros Hwf Hown Hok Hin. split; try done.
  - by apply wf_set_node.
  - by left.
  - intros x d Hd Hk. exists d. split_and!; auto.
  - intros x d m Hd Hk Hkc Hx Hn. destruct (decide (x = s)) as [->|Hne]; [|by rewrite nd_set_node_ne].
    exfalso. destruct Hown as (d' & Hd' & _ & Hb). simplify_eq. destruct Hx as [Hx|?]; [|lia].
    apply Hx. by left.
  - apply rtc_once, prim_quiet; try done. cbn. by destruct (t_ctrl t).
Qed.
Lemma fx_refl t fp : tx_wf t -> tree_fx t fp t.
Proof. intros. split; auto using ctrl_rest_refl; [lia|intros x d Hd _; exists d; auto|done|apply rtc_refl]. Qed.

(** [t'] is [t] with the protected epoch looked up. *)
Lemma private_spec t s d : tx_wf t -> dsc t s = Some d ->
  exists t', private_ t s = Ok (pe t <? Birth d, t') /\ tree_fx t [] t' /\
    (forall x, dsc t' x = dsc t x) /\ (forall x, nd t' x = nd t x) /\ t_ctrl t' = t_ctrl t.
Proof.
  intros Hwf Hd. unfold private_. rewrite (dsc_desc _ _ _ Hd). cbn [res_bind].
  destruct (protectedEpoch_spec t Hwf) as (t' & -> & Hwf' & Hst & Hct & Hpg & Hnd & Hfr & Hda & Hal).
  exists t'. split; [done|].
  assert (forall p, read t' p = read t p) as Hrd by (intros; unfold read; by rewrite Hpg, Hst).
  assert (forall x, dsc t' x = dsc t x) as Hdsc.
  { intros x. apply option_eq. intros d'. rewrite !dsc_Some. by rewrite Hrd, Hct. }
  assert (forall x, nd t' x = nd t x) as Hndx.
  { intros x. unfold nd, nd_of, inspectNode. cbn [tx_reader rd_nodes rd_next rd_read rd_total].
    by rewrite Hnd, Hct, Hst, Hrd. }
  split_and!; auto. split; auto.
  - apply pe_ext; [by rewrite Hct|]. intros _. unfold readCheckpoint. by rewrite Hrd.
  - rewrite Hct. apply ctrl_rest_refl.
  - rewrite Hct. lia.
  - rewrite Hfr. auto.
  - intros x d' Hd' _. exists d'. rewrite Hdsc. auto.
  - intros x d' n _ _ _ _. by rewrite Hndx.
  - intros Hb x d'. rewrite Hdsc, Hct. apply Hb.
  - intros q _. by rewrite Hpg.
  - apply rtc_once, prim_quiet; try done. rewrite Hct. by destruct (t_ctrl t).
Qed.

(** A writable slot: the node's own when it is private, a fresh one otherwise. *)
Lemma writable_spec t s d n : tx_wf t -> dsc t s = Some d -> Kind d = kindIndex ->
  node_ok n -> node_in t n -> Next (t_ctrl t) <= maxSlot ->
  exists s' t', writable t s n = Ok (s', t') /\ tree_fx t [s] t' /\ own t' s' /\
    (s' = s \/ unused t s') /\ Next (t_ctrl t') <= Next (t_ctrl t) + 1.
Proof.
  intros Hwf Hd Hk Hok Hin Hroom. unfold writable.
  destruct (private_spec t s d Hwf Hd) as (t1 & -> & Hfx1 & Hdsc1 & _ & Hct1). cbn [res_bind].
  destruct (pe t <? Birth d) eqn:Hp; bool_prop.
  { exists s, t1. split; [done|]. split_and!.
    - eapply fx_weaken; [done|]. set_solver.
    - exists d. by rewrite Hdsc1, (fx_pe _ _ _ Hfx1).
    - by left.
    - rewrite Hct1. lia. }
  destruct (allocate_spec t1 kindIndex (fx_wf _ _ _ Hfx1)) as (s' & t2 & Ha & Hal);
    [by rewrite Hct1|done|]. rewrite Ha. cbn [res_bind].
  pose proof (fx_allocate _ _ _ _ (fx_wf _ _ _ Hfx1) Hal) as Hfx2.
  assert (dsc t1 s = Some d) as Hd1 by (by rewrite Hdsc1).
  assert (s <> s') as Hne.
  { intros <-. pose proof (unused_live _ _ _ (al_unused _ _ _ _ Hal) Hd1) as Hf. by rewrite Hk in Hf. }
  assert (dsc t2 s = Some d) as Hd2 by (by rewrite (al_other _ _ _ _ Hal)).
  destruct (retire_spec t2 s d (fx_wf _ _ _ Hfx2) Hd2) as (t3 & Hr & Hrt); [by left|].
  rewrite Hr. cbn [res_bind]. pose proof (fx_retire _ _ _ (fx_wf _ _ _ Hfx2) Hrt) as Hfx3.
  assert (unused t s') as Hun by (apply (fx_unused _ _ _ _ Hfx1), Hal).
  assert (tree_fx t [s] t3) as Hfx.
  { eapply fx_trans; [eapply fx_trans; [eapply fx_weaken; [exact Hfx1|set_solver]|exact Hfx2|set_solver]|
      exact Hfx3|set_solver]. }
  assert (own t3 s') as Hown.
  { exists (mkDescriptor (Epoch (t_ctrl t1)) 0 kindIndex).
    rewrite (rt_other _ _ _ Hrt), (al_dsc _ _ _ _ Hal) by done. split_and!; [done..|]. cbn [Birth].
    rewrite (rt_pe _ _ _ Hrt), (al_pe _ _ _ _ Hal). pose proof (w_epoch _ (fx_wf _ _ _ Hfx1)). lia. }
  assert (node_in t3 n) as Hin3.
  { unfold node_in, total in *. rewrite (fx_store _ _ _ Hfx). eapply Forall_impl; [exact Hin|].
    intros e [? ?]. pose proof (fx_next _ _ _ Hfx). split; [done|lia]. }
  pose proof (fx_set_node t3 s' n (fx_wf _ _ _ Hfx) Hown Hok Hin3) as Hfx4.
  exists s', (set_node s' n t3). split; [done|]. split_and!.
  - eapply fx_trans; [exact Hfx|exact Hfx4|]. intros x Hx. right.
    by apply list_elem_of_singleton in Hx as ->.
  - done.
  - by right.
  - cbn. rewrite (rt_next _ _ _ Hrt). pose proof (al_next _ _ _ _ Hal). rewrite Hct1 in *. lia.
Qed.

(** ** The contents of a node *)

(** [body nd h es l fp]: the entries [es] of a node at height [h] lead to the leaf
    entries [l] through the nodes [fp]. *)
Definition body (nd : Z -> option node) (h : nat) (es l : list entry) (fp : list Z) : Prop :=
  match h with
  | O => es = l /\ fp = []
  | S h => exists subs, Forall2 (fun e p => tree nd h (slot e) (fst p) (snd p) /\
                                   key <$> last (fst p) = Some (key e)) es subs /\
      l = concat (fst <$> subs) /\ fp = concat (snd <$> subs)
  end.
Definition is_leaf (h : nat) : bool := match h with O => true | S _ => false end.

Lemma tree_body nd h s l fp : tree nd h s l fp <->
  0 < s /\ exists es fp', nd s = Some (mkNode (is_leaf h) es) /\ es <> [] /\ body nd h es l fp' /\ fp = s :: fp'.
Proof.
  destruct h as [|h]; cbn.
  - split; intros [Hs H]; (split; [done|]).
    + destruct H as (? & ? & ->). by exists l, [].
    + destruct H as (es & fp' & ? & ? & [-> ->] & ->). done.
  - split; intros [Hs H]; (split; [done|]).
    + destruct H as (es & subs & ? & ? & Hf & -> & ->). exists es, (concat (snd <$> subs)).
      split_and!; [done..| |done]. by exists subs.
    + destruct H as (es & fp' & ? & ? & (subs & Hf & -> & ->) & ->). by exists es, subs.
Qed.

Lemma body_app nd h es1 es2 l fp : body nd h (es1 ++ es2) l fp <->
  exists l1 l2 fp1 fp2, body nd h es1 l1 fp1 /\ body nd h es2 l2 fp2 /\ l = l1 ++ l2 /\ fp = fp1 ++ fp2.
Proof.
  destruct h as [|h]; cbn.
  - split; [intros [<- ->]; by exists es1, es2, [], []|].
    by intros (l1 & l2 & fp1 & fp2 & [-> ->] & [-> ->] & -> & ->).
  - split.
    + intros (subs & Hf & -> & ->). apply Forall2_app_inv_l in Hf as (s1 & s2 & H1 & H2 & ->).
      rewrite !fmap_app, !concat_app. do 4 eexists. split_and!; [by exists s1|by exists s2|done|done].
    + intros (l1 & l2 & fp1 & fp2 & (s1 & H1 & -> & ->) & (s2 & H2 & -> & ->) & -> & ->).
      exists (s1 ++ s2). rewrite !fmap_app, !concat_app. split_and!; [by apply Forall2_app|done|done].
Qed.
Lemma body_one nd h e l fp : tree nd h (slot e) l fp -> key <$> last l = Some (key e) ->
  body nd (S h) [e] l fp.
Proof. intros. exists [(l, fp)]. cbn. rewrite !app_nil_r. split_and!; auto. Qed.
Lemma body_one_inv nd h e l fp : body nd (S h) [e] l fp ->
  tree nd h (slot e) l fp /\ key <$> last l = Some (key e).
Proof.
  intros (subs & Hf & -> & ->). apply Forall2_cons_inv_l in Hf as (p & s3 & [? Hk] & Hf & ->).
  apply Forall2_nil_inv_l in Hf as ->. cbn. by rewrite !app_nil_r.
Qed.
Lemma body_last nd h es l fp : body nd h es l fp -> key <$> last es = key <$> last l.
Proof.
  destruct h as [|h]; [by intros [-> _]|]. intros (subs & Hf & -> & _).
  destruct (last es) as [e|] eqn:El.
  - apply last_Some in El as [es' ->]. apply Forall2_app_inv_l in Hf as (s1 & s2 & _ & Hf & ->).
    apply Forall2_cons_inv_l in Hf as (p & s3 & [_ Hk] & Hf & ->). apply Forall2_nil_inv_l in Hf as ->.
    destruct (last (fst p)) as [x|] eqn:Ex; [|done].
    rewrite (last_concat _ (fst p) x); [by rewrite Hk| |done]. by rewrite fmap_last, last_snoc.
  - apply last_None in El as ->. by apply Forall2_nil_inv_l in Hf as ->.
Qed.
Lemma body_sorted nd h es l fp : body nd h es l fp -> sorted l -> sorted es.
Proof.
  destruct h as [|h]; [by intros [-> _]|]. intros (subs & Hf & -> & _). apply seps_sorted.
  by apply (tree_children _ _ _ _ Hf).
Qed.

(** A tree depends only on its own nodes. *)
Lemma tree_ext nd nd' h s l fp : (forall x n, x ∈ fp -> nd x = Some n -> nd' x = Some n) ->
  tree nd h s l fp -> tree nd' h s l fp.
Proof.
  revert s l fp. induction h as [|h IH]; intros s l fp Hx [Hs Ht]; (split; [done|]).
  - destruct Ht as (Hn & Hne & ->). split_and!; [apply Hx; [left|done]|done|done].
  - destruct Ht as (es & subs & Hn & Hne & Hf & -> & ->). exists es, subs.
    split_and!; [apply Hx; [left|done]|done| |done|done].
    assert (forall p, p ∈ subs -> forall x n, x ∈ snd p -> nd x = Some n -> nd' x = Some n) as Hsub.
    { intros p Hp x n Hxp. apply Hx. right. apply elem_of_concat. exists (snd p). split; [done|].
      by apply list_elem_of_fmap_2. }
    clear Hx Hn Hne. induction Hf as [|e p es subs [Ht Hk] Hf IHf]; constructor.
    + split; [|done]. apply IH; [|done]. apply Hsub. left.
    + apply IHf. intros q Hq. apply Hsub. by right.
Qed.
Lemma body_ext nd nd' h es l fp : (forall x n, x ∈ fp -> nd x = Some n -> nd' x = Some n) ->
  body nd h es l fp -> body nd' h es l fp.
Proof.
  destruct h as [|h]; [done|]. intros Hx (subs & Hf & -> & ->). exists subs. split; [|done].
  apply Forall2_same_length_lookup. split; [by eapply Forall2_length|]. intros i e p He Hp.
  destruct (Forall2_lookup_lr _ _ _ _ _ _ Hf He Hp) as [Ht Hk]. split; [|done].
  eapply tree_ext; [|exact Ht]. intros x n Hxp. apply Hx. apply elem_of_concat. exists (snd p).
  split; [done|]. apply list_elem_of_fmap_2. by eapply list_elem_of_lookup_2.
Qed.

(** ** Live nodes *)

Definition live (t : transaction) (fp : list Z) : Prop :=
  forall s, s ∈ fp -> exists d, dsc t s = Some d /\ Kind d = kindIndex.
Definition entry_in (t : transaction) (e : entry) : Prop :=
  0 <= key e < total t /\ is_u64 (key e) /\ 1 <= slot e < Next (t_ctrl t).

Lemma fx_live_keep t fp t' fq : tree_fx t fp t' -> live t fq -> (forall x, x ∈ fq -> x ∉ fp) -> live t' fq.
Proof.
  intros Hfx Hl Hd x Hx. destruct (Hl x Hx) as (d & Hdx & Hk).
  destruct (fx_live _ _ _ Hfx x d Hdx) as (d' & Hd' & _ & Hc); [by rewrite Hk|].
  exists d'. split; [done|]. destruct Hc as [->|[Hin _]]; [done|]. by destruct (Hd x Hx).
Qed.
Lemma fx_body t fp t' fq h es l : tree_fx t fp t' -> live t fq -> (forall x, x ∈ fq -> x ∉ fp) ->
  body (nd t) h es l fq -> body (nd t') h es l fq.
Proof.
  intros Hfx Hl Hd. apply body_ext. intros x n Hx. destruct (Hl x Hx) as (d & Hdx & Hk).
  apply (fx_nd _ _ _ Hfx x d); [done|by rewrite Hk|by rewrite Hk|]. left. by apply Hd.
Qed.
Lemma live_unused t fp x : live t fp -> x ∈ fp -> ~ unused t x.
Proof. intros Hl Hx Hun. destruct (Hl x Hx) as (d & Hd & Hk). apply (unused_live _ _ _ Hun) in Hd. by rewrite Hk in Hd. Qed.
Lemma fx_entry_in t fp t' e : tree_fx t fp t' -> entry_in t e -> entry_in t' e.
Proof.
  intros Hfx (? & ? & ?). unfold entry_in, total in *. rewrite (fx_store _ _ _ Hfx).
  pose proof (fx_next _ _ _ Hfx). split_and!; auto; lia.
Qed.
Lemma own_live t s : own t s -> live t [s].
Proof. intros (d & ? & ? & _) x Hx. apply list_elem_of_singleton in Hx as ->. eauto. Qed.

Lemma tree_entries t h s l fp : tx_wf t -> tree (nd t) h s l fp -> Forall (entry_in t) l.
Proof.
  intros Hwf. revert s l fp. induction h as [|h IH]; intros s l fp [Hs Ht].
  - destruct Ht as (Hn & _ & _). destruct (nd_ok t s _ Hwf Hn) as ((_ & Hok & _) & Hin & _).
    unfold node_in in Hin. cbn [entries] in *. rewrite Forall_forall in *. intros e He.
    destruct (Hok e He) as (Hu & Hu2 & ?), (Hin e He) as ((? & ?) & ?). unfold is_u64 in Hu2.
    split_and!; auto; lia.
  - destruct Ht as (es & subs & _ & _ & Hf & -> & _). apply Forall_concat, Forall_fmap.
    induction Hf as [|e p es subs [Ht _] Hf IHf]; constructor; [|done]. by eapply IH.
Qed.
Lemma body_entries t h es l fp : tx_wf t -> body (nd t) (S h) es l fp -> Forall (entry_in t) l.
Proof.
  intros Hwf (subs & Hf & -> & _). apply Forall_concat, Forall_fmap.
  induction Hf as [|e p es subs [Ht _] Hf IHf]; constructor; [|done]. by eapply tree_entries.
Qed.

Lemma sorted_ordered es prev : sorted es -> (forall p e, prev = Some p -> e ∈ es -> p < key e) ->
  Forall entry_ok es -> entries_ordered prev es = true.
Proof.
  revert prev. induction es as [|e es IH]; intros prev Hs Hp Hok; [done|]. inversion Hs; subst.
  inversion Hok as [|? ? (_ & _ & H0) Hok']; subst. cbn.
  assert (match prev with Some p => p <? key e | None => true end = true) as Hpe.
  { destruct prev as [p|]; [|done]. apply Z.ltb_lt, (Hp p); [done|left]. }
  rewrite IH; auto.
  - by rewrite Hpe, (proj2 (Z.eqb_neq _ _) H0).
  - intros p e' [= <-] He'. rewrite Forall_forall in *. auto.
Qed.
Lemma body_node t h es l fp lf : tx_wf t -> body (nd t) h es l fp -> live t fp ->
  Forall (entry_in t) l -> sorted l -> (0 < length es <= 255)%nat ->
  node_ok (mkNode lf es) /\ node_in t (mkNode lf es).
Proof.
  intros Hwf Hb Hl Hin Hs Hlen.
  assert (Forall (entry_in t) es) as Hes.
  { destruct h as [|h]; [by destruct Hb as [-> _]|]. destruct Hb as (subs & Hf & -> & ->).
    apply Forall_forall. intros e He. apply list_elem_of_lookup in He as [i Hi].
    destruct (Forall2_lookup_l _ _ _ _ _ Hf Hi) as (p & Hp & Ht & Hk).
    assert (p ∈ subs) as Hps by (by eapply list_elem_of_lookup_2).
    destruct (last (fst p)) as [x|] eqn:Ex; [|done]. injection Hk as Hk.
    rewrite Forall_forall in Hin. destruct (Hin x) as (? & ? & _).
    { apply elem_of_concat. exists (fst p). split; [by apply last_elem_of|by apply list_elem_of_fmap_2]. }
    rewrite Hk in *. split_and!; auto; try lia.
    - apply tree_body in Ht as [? _]. lia.
    - apply tree_body in Ht as (_ & es' & fp' & _ & _ & _ & Hfp). destruct (Hl (slot e)) as (d & Hd & _).
      + apply elem_of_concat. exists (snd p). rewrite Hfp. split; [left|]. rewrite <- Hfp.
        by apply list_elem_of_fmap_2.
      + apply dsc_bound in Hd. lia. }
  assert (Forall entry_ok es) as Hok.
  { eapply Forall_impl; [exact Hes|]. intros e (_ & ? & ?). split; [done|].
    pose proof (w_next t Hwf). rewrite maxSlot_val in *. unfold is_u64. lia. }
  split; [split_and!; cbn; auto; try lia|].
  - apply sorted_ordered; [by eapply body_sorted|done|done].
  - eapply Forall_impl; [exact Hes|]. intros e (? & _ & ?). split; [done|lia].
Qed.

(** Storing a node makes a tree of what its entries lead to. *)
Lemma store_node t s h es l fp : tx_wf t -> own t s -> body (nd t) h es l fp -> live t fp ->
  s ∉ fp -> sorted l -> Forall (entry_in t) l -> (0 < length es <= 255)%nat ->
  let t' := set_node s (mkNode (is_leaf h) es) t in
  tree_fx t [s] t' /\ tree (nd t') h s l (s :: fp).
Proof.
  intros Hwf Hown Hb Hl Hs Hso Hin Hlen t'.
  destruct (body_node t h es l fp (is_leaf h) Hwf Hb Hl Hin Hso Hlen) as [Hok Hni].
  split; [by apply fx_set_node|]. apply tree_body. split.
  { destruct Hown as (d & Hd & _). apply dsc_bound in Hd. lia. }
  exists es, fp. split_and!; [apply nd_set_node|by intros ->; cbn in Hlen; lia| |done].
  eapply body_ext; [|exact Hb]. intros x n Hx. unfold t'. rewrite nd_set_node_ne; [done|]. by intros ->.
Qed.
Lemma max_key_last es e : last es = Some e -> max_key es = key e.
Proof. intros H. unfold max_key. by rewrite H. Qed.
Lemma max_key_drop n es : (n < length es)%nat -> max_key (drop n es) = max_key es.
Proof.
  intros Hn. unfold max_key. rewrite !last_lookup, lookup_drop, length_drop. do 3 f_equal. lia.
Qed.
Lemma max_key_body nd h es l fp : es <> [] -> body nd h es l fp -> key <$> last l = Some (max_key es).
Proof.
  intros Hne Hb. rewrite <- (body_last _ _ _ _ _ Hb). unfold max_key.
  destruct (last es) eqn:E; [done|]. by apply last_None in E.
Qed.

(** What a write to a subtree returns: its replacement nodes. *)
Definition replaced (t : transaction) (h : nat) (fp : list Z) (es l : list entry) (t' : transaction) : Prop :=
  exists fp', tree_fx t fp t' /\ body (nd t') (S h) es l fp' /\ NoDup fp' /\ live t' fp' /\
    (forall x, x ∈ fp' -> x ∈ fp \/ unused t x).

Lemma replaced_one t s h es l fp : tx_wf t -> own t s -> body (nd t) h es l fp -> live t fp ->
  s ∉ fp -> NoDup fp -> sorted l -> Forall (entry_in t) l -> (0 < length es <= 255)%nat ->
  replaced t h (s :: fp) [mkEntry (max_key es) s] l (set_node s (mkNode (is_leaf h) es) t).
Proof.
  intros Hwf Hown Hb Hl Hs Hnd Hso Hin Hlen.
  destruct (store_node t s h es l fp Hwf Hown Hb Hl Hs Hso Hin Hlen) as [Hfx Ht].
  exists (s :: fp). split_and!.
  - eapply fx_weaken; [exact Hfx|]. set_solver.
  - apply body_one; [done|]. eapply max_key_body; [|exact Hb]. intros ->; cbn in Hlen; lia.
  - by constructor.
  - intros x Hx. apply elem_of_cons in Hx as [->|Hx]; [apply (own_live t s Hown); left|by apply Hl].
  - auto.
Qed.

(** Storing two nodes side by side. *)
Lemma store_two t s rt h es1 es2 l1 l2 f1 f2 :
  tx_wf t -> own t s -> own t rt -> body (nd t) h es1 l1 f1 -> body (nd t) h es2 l2 f2 ->
  live t (f1 ++ f2) -> NoDup (s :: f1 ++ rt :: f2) -> sorted l1 -> sorted l2 ->
  Forall (entry_in t) l1 -> Forall (entry_in t) l2 ->
  (0 < length es1 <= 255)%nat -> (0 < length es2 <= 255)%nat ->
  let t' := set_node rt (mkNode (is_leaf h) es2) (set_node s (mkNode (is_leaf h) es1) t) in
  tree_fx t [s; rt] t' /\
  body (nd t') (S h) [mkEntry (max_key es1) s; mkEntry (max_key es2) rt] (l1 ++ l2)
    (s :: f1 ++ rt :: f2).
Proof.
  intros Hwf Hs Hr Hb1 Hb2 Hl Hnd Hs1 Hs2 Hin1 Hin2 Hl1 Hl2 t'.
  apply NoDup_cons in Hnd as [Hsn Hnd]. apply NoDup_app in Hnd as (Hnd1 & Hdis & Hnd2).
  apply NoDup_cons in Hnd2 as [Hrn Hnd2].
  assert (live t f1 /\ live t f2) as [Hlf1 Hlf2] by (split; intros x Hx; apply Hl; set_solver).
  destruct (store_node t s h es1 l1 f1) as [Hfx1 Ht1]; auto; [set_solver|].
  set (t1 := set_node s _ t) in *. pose proof (fx_wf _ _ _ Hfx1) as Hwf1.
  assert (live t1 f2) as Hlf2' by (eapply fx_live_keep; [exact Hfx1|done|set_solver]).
  assert (body (nd t1) h es2 l2 f2) as Hb2' by (eapply fx_body; [exact Hfx1|exact Hlf2|set_solver|done]).
  destruct (store_node t1 rt h es2 l2 f2) as [Hfx2 Ht2]; auto.
  split.
  - eapply fx_trans; [eapply fx_weaken; [exact Hfx1|set_solver]|exact Hfx2|set_solver].
  - change (s :: f1 ++ rt :: f2) with ((s :: f1) ++ (rt :: f2)).
    apply (body_app _ (S h) [_] [_]). exists l1, l2, (s :: f1), (rt :: f2).
    split_and!; [| |done|done]; apply body_one; cbn [slot key]; auto.
    + eapply tree_ext; [|exact Ht1]. intros x n Hx. unfold t'. fold t1. rewrite nd_set_node_ne; [done|].
      intros ->. apply elem_of_cons in Hx as [->|Hx]; set_solver.
    + eapply max_key_body; [|exact Hb1]. intros ->; cbn in Hl1; lia.
    + eapply max_key_body; [|exact Hb2]. intros ->; cbn in Hl2; lia.
Qed.

Lemma put_entries_at_spec t s h es l fp : tx_wf t -> own t s -> body (nd t) h es l fp -> live t fp ->
  s ∉ fp -> NoDup fp -> sorted l -> Forall (entry_in t) l -> (0 < length es <= 256)%nat ->
  Next (t_ctrl t) <= maxSlot ->
  exists cs t', put_entries_at t s (is_leaf h) es = Ok (cs, t') /\ replaced t h (s :: fp) cs l t' /\
    (0 < length cs <= 2)%nat /\ Next (t_ctrl t') <= Next (t_ctrl t) + 1.
Proof.
  intros Hwf Hown Hb Hl Hs Hnd Hso Hin Hlen Hroom. unfold put_entries_at.
  destruct (Z.of_nat (length es) <=? maxEntries) eqn:E; unfold maxEntries in E; bool_prop.
  { do 2 eexists. split; [done|]. split; [apply replaced_one; auto; lia|]. cbn. split; lia. }
  destruct (allocate_spec t kindIndex Hwf Hroom) as (rt & t1 & -> & Hal); [done|]. cbn [res_bind].
  assert (length es / 2 = 128)%nat as Hmid by (replace (length es) with 256%nat by lia; done).
  rewrite Hmid. pose proof (fx_allocate _ _ _ _ Hwf Hal) as Hfx1.
  pose proof (al_unused _ _ _ _ Hal) as Hun.
  assert (rt ∉ s :: fp) as Hrf.
  { intros Hx. apply elem_of_cons in Hx as [->|Hx]; [|by apply (live_unused t fp rt Hl)].
    by apply (live_unused t [s] s (own_live _ _ Hown)); [left|]. }
  assert (own t1 s) as Hown1.
  { destruct Hown as (d & Hd & Hk & Hbt). exists d. rewrite (al_other _ _ _ _ Hal) by set_solver.
    by rewrite (al_pe _ _ _ _ Hal). }
  assert (own t1 rt) as Hownr.
  { eexists. split; [apply Hal|]. split; [done|]. cbn. rewrite (al_pe _ _ _ _ Hal).
    pose proof (w_epoch _ Hwf). lia. }
  assert (body (nd t1) h es l fp) as Hb1 by (eapply fx_body; [exact Hfx1|done|set_solver|done]).
  assert (live t1 fp) as Hl1 by (eapply fx_live_keep; [exact Hfx1|done|set_solver]).
  rewrite <- (take_drop 128 es) in Hb1. apply body_app in Hb1 as (l1 & l2 & f1 & f2 & Hb1 & Hb2 & -> & ->).
  apply sorted_app in Hso as (_ & Hso1 & Hso2).
  assert (Forall (entry_in t1) (l1 ++ l2)) as [Hin1 Hin2]%Forall_app.
  { eapply Forall_impl; [exact Hin|]. intros. by eapply fx_entry_in. }
  assert (NoDup (s :: f1 ++ rt :: f2)) as Hnd'.
  { apply NoDup_app in Hnd as (? & ? & ?). apply NoDup_cons. split; [set_solver|].
    apply NoDup_app. split_and!; [done|set_solver|]. apply NoDup_cons. set_solver. }
  destruct (store_two t1 s rt h (take 128 es) (drop 128 es) l1 l2 f1 f2) as [Hfx2 Hb']; auto.
  { apply Hfx1. }
  { rewrite length_take. lia. }
  { rewrite length_drop. lia. }
  do 2 eexists. split; [done|]. split; [|split; [cbn; lia|pose proof (al_next _ _ _ _ Hal); cbn; lia]].
  exists (s :: f1 ++ rt :: f2). split_and!; [| |done| |].
  - eapply fx_trans; [eapply fx_weaken; [exact Hfx1|set_solver]|exact Hfx2|]. set_solver.
  - by rewrite max_key_drop in Hb' by lia.
  - intros x Hx. assert (live t1 (s :: rt :: f1 ++ f2)) as Hlv; [|apply Hlv; set_solver].
    intros y Hy. rewrite !elem_of_cons in Hy. destruct Hy as [->|[->|Hy]]; [| |by apply Hl1].
    + by apply (own_live t1 s Hown1); left.
    + by apply (own_live t1 rt Hownr); left.
  - intros x Hx. rewrite elem_of_cons, elem_of_app, elem_of_cons in Hx. set_solver.
Qed.

(** ** Insertion into a sorted mapping *)

Definition insert_entry (k v : Z) (l : list entry) : list entry :=
  filter (fun e => key e < k) l ++ mkEntry k v :: filter (fun e => k < key e) l.

Lemma filter_all (P : entry -> Prop) `{forall x, Decision (P x)} (l : list entry) :
  (forall x, x ∈ l -> P x) -> filter P l = l.
Proof.
  induction l as [|x l IH]; intros Hx; [done|]. rewrite filter_cons_True by (apply Hx; left).
  f_equal. apply IH. intros. apply Hx. by right.
Qed.
Lemma filter_none (P : entry -> Prop) `{forall x, Decision (P x)} (l : list entry) :
  (forall x, x ∈ l -> ~ P x) -> filter P l = [].
Proof.
  induction l as [|x l IH]; intros Hx; [done|]. rewrite filter_cons_False by (apply Hx; left).
  apply IH. intros. apply Hx. by right.
Qed.

Lemma insert_entry_app k v l1 l l2 :
  (forall x, x ∈ l1 -> key x < k) -> (forall x, x ∈ l2 -> k < key x) ->
  insert_entry k v (l1 ++ l ++ l2) = l1 ++ insert_entry k v l ++ l2.
Proof.
  intros H1 H2. unfold insert_entry. rewrite !filter_app.
  rewrite (filter_all _ l1), (filter_none (fun e => key e < k) l2), (filter_none (fun e => k < key e) l1),
    (filter_all (fun e => k < key e) l2); auto.
  - by rewrite app_nil_r, <- !app_assoc.
  - intros x Hx. apply H1 in Hx. lia.
  - intros x Hx. apply H2 in Hx. lia.
Qed.
Lemma sorted_filter (P : entry -> Prop) `{forall x, Decision (P x)} (l : list entry) : sorted l -> sorted (filter P l).
Proof.
  induction 1 as [|x l Hs IH Hx]; [constructor|]. rewrite filter_cons. case_decide; [|done].
  constructor; [done|]. apply Forall_forall. intros y Hy. apply list_elem_of_filter in Hy as [_ Hy].
  rewrite Forall_forall in Hx. by apply Hx.
Qed.
Lemma insert_entry_sorted k v l : sorted l -> sorted (insert_entry k v l).
Proof.
  intros Hs. apply sorted_app. split_and!.
  - intros a b Ha Hb. apply list_elem_of_filter in Ha as [Ha _]. apply elem_of_cons in Hb as [->|Hb]; [done|].
    apply list_elem_of_filter in Hb as [Hb _]. lia.
  - by apply sorted_filter.
  - constructor; [by apply sorted_filter|]. apply Forall_forall. intros y Hy.
    by apply list_elem_of_filter in Hy as [Hy _].
Qed.
Lemma assoc_filter (P : entry -> Prop) `{forall x, Decision (P x)} k (l : list entry) :
  (forall e, key e = k -> P e) -> assoc k (filter P l) = assoc k l.
Proof.
  intros HP. induction l as [|e l IH]; [done|]. rewrite filter_cons. cbn [assoc].
  destruct (key e =? k) eqn:E; bool_prop.
  - rewrite decide_True by auto. cbn [assoc]. by rewrite (proj2 (Z.eqb_eq _ _)).
  - case_decide; [|done]. cbn [assoc]. by rewrite (proj2 (Z.eqb_neq _ _)), IH.
Qed.
Lemma assoc_insert k v l k' : assoc k' (insert_entry k v l) = if k' =? k then v else assoc k' l.
Proof.
  unfold insert_entry. destruct (Z.eqb_spec k' k) as [->|Hne].
  - rewrite assoc_app_r; [cbn; by rewrite Z.eqb_refl|]. intros e He.
    apply list_elem_of_filter in He as [He _]. lia.
  - destruct (decide (k' < k)).
    + rewrite assoc_app_l; [apply assoc_filter; intros; lia|]. intros e He.
      apply elem_of_cons in He as [->|He]; [done|]. apply list_elem_of_filter in He as [He _]. lia.
    + rewrite assoc_app_r.
      * cbn. rewrite (proj2 (Z.eqb_neq _ _)) by done. apply assoc_filter. intros; lia.
      * intros e He. apply list_elem_of_filter in He as [He _]. lia.
Qed.

Lemma search_split es k : sorted es ->
  (forall x, x ∈ take (search es k) es -> key x < k) /\
  (forall x, x ∈ drop (search es k) es -> k <= key x).
Proof.
  intros Hs. destruct (search_spec es k Hs) as (_ & Hlo & Hhi). split; intros x Hx;
    apply list_elem_of_lookup in Hx as [i Hi].
  - apply lookup_take_Some in Hi as [Hi Hlt]. eauto.
  - rewrite lookup_drop in Hi. eapply Hhi; [exact Hi|lia].
Qed.
Lemma leaf_put_insert es k v : sorted es -> leaf_put es (search es k) k v = insert_entry k v es.
Proof.
  intros Hs. destruct (search_split es k Hs) as [Hlo Hhi]. revert Hlo Hhi.
  generalize (search es k) as i. intros i Hlo Hhi. unfold leaf_put.
  destruct (es !! i) as [e|] eqn:E.
  - pose proof (take_drop_middle _ _ _ E) as Hes. rewrite (drop_S _ _ _ E) in Hhi |- *.
    assert (forall x, x ∈ drop (S i) es -> key e < key x) as Hgt.
    { rewrite <- Hes in Hs. apply sorted_app in Hs as (_ & _ & Hs). inversion Hs as [|? ? _ Hf]; subst.
      by rewrite Forall_forall in Hf. }
    assert (k <= key e) by (apply Hhi; left).
    destruct (key e =? k) eqn:Ek; bool_prop.
    + transitivity (insert_entry k v (take i es ++ [e] ++ drop (S i) es)); [|by f_equal].
      rewrite insert_entry_app; [|done|intros x Hx; apply Hgt in Hx; lia].
      rewrite <- Ek. unfold insert_entry. rewrite !filter_cons_False, !filter_nil by lia.
      rewrite insert_take_drop; [done|]. by eapply lookup_lt_Some.
    + transitivity (insert_entry k v (take i es ++ [] ++ e :: drop (S i) es)); [|by f_equal].
      rewrite insert_entry_app; [done|done|].
      intros x Hx. apply elem_of_cons in Hx as [->|Hx]; [lia|]. apply Hgt in Hx. lia.
  - apply lookup_ge_None in E. rewrite take_ge, drop_ge by done.
    rewrite take_ge in Hlo by done. unfold insert_entry. rewrite filter_all, filter_none; auto.
    intros x Hx. apply Hlo in Hx. lia.
Qed.
Lemma leaf_put_length es i k v : (length es <= length (leaf_put es i k v) <= S (length es))%nat.
Proof.
  unfold leaf_put. repeat case_match; rewrite ?length_insert, ?length_app; cbn;
    rewrite ?length_take, ?length_drop; lia.
Qed.

(** ** [put] *)

Lemma fx_own t fp t' s : tree_fx t fp t' -> own t s -> s ∉ fp -> own t' s.
Proof.
  intros Hfx (d & Hd & Hk & Hb) Hs. destruct (fx_live _ _ _ Hfx s d Hd) as (d' & Hd' & Hb' & Hc); [by rewrite Hk|].
  exists d'. rewrite (fx_pe _ _ _ Hfx). destruct Hc as [->|[? _]]; done.
Qed.
Lemma replaced_pre t fp t1 h fp1 cs l t2 :
  tree_fx t fp t1 -> replaced t1 h fp1 cs l t2 -> (forall x, x ∈ fp1 -> x ∈ fp \/ unused t x) ->
  replaced t h fp cs l t2.
Proof.
  intros Hfx (fp' & Hfx' & Hb & Hnd & Hl & Hsub) Hs. exists fp'. split_and!; auto.
  - by eapply fx_trans.
  - intros x Hx. destruct (Hsub x Hx) as [?|Hun]; [by apply Hs|]. right. by eapply fx_unused.
Qed.
Lemma insert_entry_in t k v l :
  entry_in t (mkEntry k v) -> Forall (entry_in t) l -> Forall (entry_in t) (insert_entry k v l).
Proof.
  intros Hk Hl. apply Forall_app. split; [|constructor; [done|]]; apply Forall_forall; intros x Hx;
    apply list_elem_of_filter in Hx as [_ Hx]; rewrite Forall_forall in Hl; auto.
Qed.

(** The child [put] descends to splits the entries around the key. *)
Lemma put_child nd h es l fp k i : body nd (S h) es l fp -> sorted l -> es <> [] ->
  i = (if (search es k =? length es)%nat then (search es k - 1)%nat else search es k) ->
  exists e l1 l2 l3 f1 f2 f3, es !! i = Some e /\
    body nd (S h) (take i es) l1 f1 /\ tree nd h (slot e) l2 f2 /\ body nd (S h) (drop (S i) es) l3 f3 /\
    l = l1 ++ l2 ++ l3 /\ fp = f1 ++ f2 ++ f3 /\
    (forall x, x ∈ l1 -> key x < k) /\ (forall x, x ∈ l3 -> k < key x).
Proof.
  intros Hb Hs Hne Hi. pose proof (body_sorted _ _ _ _ _ Hb Hs) as Hes.
  destruct (search_spec es k Hes) as (Hle & Hlo & Hhi).
  assert (i < length es)%nat as Hlt.
  { destruct es; [done|]. destruct (Nat.eqb_spec (search (e :: es) k) (length (e :: es))); cbn in *; lia. }
  destruct (lookup_lt_is_Some_2 es i Hlt) as [e He].
  rewrite <- (take_drop_middle _ _ _ He) in Hb. apply (body_app _ _ (take i es) (e :: drop (S i) es)) in Hb.
  destruct Hb as (l1 & lr & f1 & fr & Hb1 & Hb & -> & ->).
  apply (body_app _ _ [e]) in Hb as (l2 & l3 & f2 & f3 & Hb2 & Hb3 & -> & ->).
  apply body_one_inv in Hb2 as [Ht2 Hk2].
  exists e, l1, l2, l3, f1, f2, f3. split_and!; auto.
  - intros x Hx. apply sorted_app in Hs as (_ & Hs1 & _).
    destruct (last (take i es)) as [e1|] eqn:El.
    + pose proof (body_last _ _ _ _ _ Hb1) as Hlast. rewrite El in Hlast. cbn in Hlast. symmetry in Hlast.
      pose proof (sorted_last l1 (key e1) x Hs1 Hlast Hx).
      apply last_elem_of, list_elem_of_lookup in El as [j Hj]. apply lookup_take_Some in Hj as [Hj Hji].
      enough (key e1 < k) by lia. eapply Hlo; [exact Hj|]. destruct (Nat.eqb_spec (search es k) (length es)); lia.
    + apply last_None in El. rewrite El in Hb1. destruct Hb1 as (subs & Hf & -> & _).
      apply Forall2_nil_inv_l in Hf as ->. by apply elem_of_nil in Hx.
  - intros x Hx. destruct (Nat.eqb_spec (search es k) (length es)) as [E|E].
    + rewrite drop_ge in Hb3 by lia. destruct Hb3 as (subs & Hf & -> & _).
      apply Forall2_nil_inv_l in Hf as ->. by apply elem_of_nil in Hx.
    + assert (k <= key e) by (eapply Hhi; [exact He|lia]).
      destruct (last l2) as [y|] eqn:El; [|done]. injection Hk2 as Hk2. apply last_elem_of in El.
      apply sorted_app in Hs as (_ & _ & Hs). apply sorted_app in Hs as (Hlt2 & _ & _).
      specialize (Hlt2 y x El Hx). lia.
Qed.

(** Replacing one child's subtree by its replacement. *)
Lemma replaced_child t h f1 f2 f3 es1 es3 cs l1 l2 l3 t' :
  replaced t h f2 cs l2 t' -> body (nd t) (S h) es1 l1 f1 -> body (nd t) (S h) es3 l3 f3 ->
  NoDup (f1 ++ f2 ++ f3) -> live t (f1 ++ f3) ->
  exists fp, body (nd t') (S h) (es1 ++ cs ++ es3) (l1 ++ l2 ++ l3) fp /\ NoDup fp /\ live t' fp /\
    (forall x, x ∈ fp -> x ∈ f1 ++ f2 ++ f3 \/ unused t x).
Proof.
  intros (fc & Hfx & Hbc & Hndc & Hlc & Hsub) Hb1 Hb3 Hnd Hl.
  apply NoDup_app in Hnd as (Hnd1 & Hd1 & Hnd). apply NoDup_app in Hnd as (Hnd2 & Hd2 & Hnd3).
  assert (live t f1 /\ live t f3) as [Hl1 Hl3] by (split; intros x Hx; apply Hl; set_solver).
  assert (forall x, x ∈ f1 -> x ∉ f2) as H12 by set_solver.
  assert (forall x, x ∈ f3 -> x ∉ f2) as H32 by set_solver.
  assert (forall x, x ∈ fc -> x ∉ f1 /\ x ∉ f3) as Hc.
  { intros x Hx. destruct (Hsub x Hx) as [Hx2|Hun]; [set_solver|].
    split; intros ?; by apply (live_unused t (f1 ++ f3) x Hl); [set_solver|]. }
  exists (f1 ++ fc ++ f3). split_and!.
  - apply body_app. exists l1, (l2 ++ l3), f1, (fc ++ f3). split_and!; [by eapply fx_body| |done|done].
    apply body_app. exists l2, l3, fc, f3. split_and!; [done|by eapply fx_body|done|done].
  - apply NoDup_app. split_and!; [done|set_solver|]. apply NoDup_app. split_and!; [done|set_solver|done].
  - intros x Hx. rewrite !elem_of_app in Hx. destruct Hx as [Hx|[Hx|Hx]].
    + by apply (fx_live_keep _ _ _ _ Hfx Hl1 H12).
    + by apply Hlc.
    + by apply (fx_live_keep _ _ _ _ Hfx Hl3 H32).
  - intros x Hx. rewrite !elem_of_app in Hx |- *. destruct Hx as [?|[Hx|?]]; auto.
    destruct (Hsub x Hx); auto.
Qed.

(** Opening a node for writing: its slot, or a fresh copy, and the same children. *)
Record opened (t : transaction) (h : nat) (root : Z) (l : list entry) (fp : list Z)
    (es : list entry) (s : Z) (t1 : transaction) (fp' : list Z) : Prop := {
  op_node : inspectNode (tx_reader t) root = Ok (mkNode (is_leaf h) es);
  op_writable : writable t root (mkNode (is_leaf h) es) = Ok (s, t1);
  op_fx : tree_fx t fp t1;
  op_own : own t1 s;
  op_body : body (nd t1) h es l fp';
  op_live : live t1 fp';
  op_slot : s ∉ fp';
  op_nodup : NoDup fp';
  op_len : (0 < length es <= 255)%nat;
  op_next : Next (t_ctrl t1) <= Next (t_ctrl t) + 1;
  op_sub : forall x, x ∈ s :: fp' -> x ∈ fp \/ unused t x }.

Lemma open_node t h root l fp :
  tx_wf t -> tree (nd t) h root l fp -> NoDup fp -> live t fp -> Next (t_ctrl t) <= maxSlot ->
  exists es s t1 fp', opened t h root l fp es s t1 fp'.
Proof.
  intros Hwf Ht Hnd Hl Hroom. apply tree_body in Ht as (Hr & es & fp' & Hn & Hne & Hb & ->).
  destruct (nd_ok t root _ Hwf Hn) as (Hok & Hin & _).
  destruct (Hl root) as (d & Hd & Hk); [left|].
  destruct (writable_spec t root d _ Hwf Hd Hk Hok Hin Hroom) as (s & t1 & Hw & Hfx & Hown & Hs & Hnx).
  apply NoDup_cons in Hnd as [Hrf Hnd].
  assert (live t fp') as Hl' by (intros x Hx; apply Hl; by right).
  assert (forall x, x ∈ fp' -> x ∉ [root]) as Hdis by set_solver.
  exists es, s, t1, fp'. split; auto.
  - by apply nd_of_Some.
  - eapply fx_weaken; [exact Hfx|set_solver].
  - by eapply fx_body.
  - by eapply fx_live_keep.
  - intros Hx. destruct Hs as [->|Hun]; [done|]. by apply (live_unused t fp' s Hl').
  - apply Hok.
  - set_solver.
Qed.

Lemma put_spec h lv t root l fp k v :
  tx_wf t -> tree (nd t) h root l fp -> sorted l -> NoDup fp -> live t fp -> (h < lv)%nat ->
  Next (t_ctrl t) + 2 * (Z.of_nat h + 1) <= maxSlot + 1 -> entry_in t (mkEntry k v) ->
  exists cs t', put lv t root k v = Ok (cs, t') /\ replaced t h fp cs (insert_entry k v l) t' /\
    (0 < length cs <= 2)%nat /\ Next (t_ctrl t') <= Next (t_ctrl t) + 2 * (Z.of_nat h + 1).
Proof.
  revert lv t root l fp. induction h as [|h IH]; intros lv t root l fp Hwf Ht Hso Hnd Hl Hlv Hroom Hkv;
    (destruct lv as [|lv]; [lia|]); pose proof (tree_entries _ _ _ _ _ Hwf Ht) as Hin;
    pose proof Ht as (Hr & _);
    destruct (open_node _ _ _ _ _ Hwf Ht Hnd Hl ltac:(lia)) as (es & s & t1 & fp' & []);
    pose proof (fx_wf _ _ _ op_fx0) as Hwf1; pose proof (fx_entry_in _ _ _ _ op_fx0 Hkv) as Hkv1;
    cbn [put]; rewrite (proj2 (Z.eqb_neq _ _)) by lia; unfold readNode; rewrite op_node0; cbn [res_bind];
    rewrite op_writable0; cbn [res_bind leaf entries is_leaf].
  - destruct op_body0 as [-> ->]. rewrite leaf_put_insert by done.
    pose proof (leaf_put_length l (search l k) k v) as Hll. rewrite leaf_put_insert in Hll by done.
    destruct (put_entries_at_spec t1 s 0 (insert_entry k v l) (insert_entry k v l) [])
      as (cs & t2 & Hput & Hg & Hc & Hnx2); auto using insert_entry_sorted; try lia; [done| |].
    { apply insert_entry_in; [done|]. eapply Forall_impl; [exact Hin|]. intros; by eapply fx_entry_in. }
    exists cs, t2. split; [exact Hput|]. split_and!; [|lia|lia|lia].
    eapply replaced_pre; [exact op_fx0|exact Hg|done].
  - set (i := if (search es k =? length es)%nat then (search es k - 1)%nat else search es k).
    destruct (put_child _ _ _ _ _ k i op_body0 Hso) as
      (e & l1 & l2 & l3 & f1 & f2 & f3 & He & Hb1 & Ht2 & Hb3 & -> & -> & Hlt & Hgt);
      [by intros ->; cbn in op_len0; lia|done|].
    rewrite He. apply lookup_lt_Some in He as Hi.
    pose proof op_nodup0 as (_ & _ & (Hnd2 & _ & _)%NoDup_app)%NoDup_app.
    assert (live t1 f2 /\ live t1 (f1 ++ f3)) as [Hl2 Hl13] by (split; intros x Hx; apply op_live0; set_solver).
    pose proof Hso as (_ & _ & (_ & Hso2 & _)%sorted_app)%sorted_app.
    destruct (IH lv t1 (slot e) l2 f2) as (cs & t2 & -> & Hg & Hcs & Hnx2); auto; try lia.
    cbn [res_bind]. pose proof (insert_entry_sorted k v _ Hso) as Hso'. rewrite insert_entry_app in * by done.
    destruct (replaced_child _ _ _ _ _ _ _ _ _ _ _ _ Hg Hb1 Hb3 op_nodup0 Hl13) as (fc & Hbc & Hndc & Hlc & Hsub).
    pose proof Hg as (_ & Hfx2 & _). pose proof (fx_wf _ _ _ Hfx2) as Hwf2.
    assert (own t2 s) as Hown2 by (eapply fx_own; [exact Hfx2|done|set_solver]).
    assert (s ∉ fc) as Hsc.
    { intros Hx. destruct (Hsub s Hx) as [?|Hun]; [done|].
      by apply (live_unused t1 [s] s (own_live _ _ op_own0)); [left|]. }
    destruct (put_entries_at_spec t2 s (S h) _ _ fc Hwf2 Hown2 Hbc Hlc Hsc Hndc Hso')
      as (cs' & t3 & Hput & Hg' & Hc' & Hnx3);
      [by eapply body_entries|rewrite !length_app, length_take, length_drop; lia|lia|].
    exists cs', t3. split; [exact Hput|]. split_and!; [|lia|lia|lia].
    eapply replaced_pre; [exact op_fx0| |exact op_sub0].
    eapply replaced_pre; [eapply fx_weaken; [exact Hfx2|set_solver]|exact Hg'|]. set_solver.
Qed.

(** ** The active mapping *)

(** [mapping t levels root l fp]: the mapping [l] stored below [root] in fewer than
    [levels] levels, with no node shared or retired. *)
Record mapping (t : transaction) (levels : nat) (root : Z) (l : list entry) (fp : list Z) : Prop := {
  mp_tree : (root = 0 /\ l = [] /\ fp = []) \/ exists h, (h < levels)%nat /\ tree (nd t) h root l fp;
  mp_sorted : sorted l;
  mp_nodup : NoDup fp;
  mp_live : live t fp }.
Definition set_root (r : Z) (t : transaction) : transaction := set_ctrl (set_Root r (t_ctrl t)) t.

Lemma wf_set_root r t : tx_wf t -> is_u64 r -> tx_wf (set_root r t).
Proof.
  intros [] Hr. unfold control_ok in w_ctrl. destruct_and! w_ctrl.
  split; auto. unfold control_ok; cbn; auto 20.
Qed.
Lemma fx_set_root t r : tx_wf t -> is_u64 r -> tree_fx t [] (set_root r t).
Proof.
  intros Hwf Hr. split; auto using wf_set_root; [by repeat split|cbn; lia| |done|].
  - intros x d Hd _. exists d. auto.
  - by apply rtc_once, prim_quiet.
Qed.
Lemma slot_u64 t s d : tx_wf t -> dsc t s = Some d -> is_u64 s.
Proof.
  intros Hw Hd. apply dsc_bound in Hd. pose proof (w_next t Hw). rewrite maxSlot_val in *.
  unfold is_u64. lia.
Qed.
Lemma tree_live_root t h r l fp : tree (nd t) h r l fp -> live t fp -> exists d, dsc t r = Some d /\ Kind d = kindIndex.
Proof. intros Ht Hl. apply tree_body in Ht as (_ & ? & ? & _ & _ & _ & ->). apply Hl. left. Qed.
Lemma mapping_lookup t levels root l fp k : mapping t levels root l fp -> (levels <= maxDepth)%nat ->
  lookup (tx_reader t) root k = Ok (assoc k l).
Proof.
  intros [[(-> & -> & _)|(h & Hh & Ht)] Hs _ _] Hlv; [done|].
  unfold lookup. eapply lookup_from_tree; [exact Ht|done|]. unfold maxDepth in *. lia.
Qed.

Lemma alloc_own t s t' : tx_wf t -> alloc_fx t s kindIndex t' -> own t' s.
Proof.
  intros Hwf Hal. eexists. split; [apply Hal|]. split; [done|]. cbn [Birth]. rewrite (al_pe _ _ _ _ Hal).
  pose proof (w_epoch _ Hwf). lia.
Qed.
Lemma alloc_unused_own t s t' : alloc_fx t s kindIndex t' -> forall fp, live t fp -> s ∉ fp.
Proof. intros Hal fp Hl Hx. by apply (live_unused t fp s Hl), Hal. Qed.

(** [put] at the root, of an empty or a populated mapping. *)
Lemma put_root t levels l fp k v :
  tx_wf t -> mapping t levels (Root (t_ctrl t)) l fp -> (levels < maxDepth)%nat ->
  Next (t_ctrl t) + 2 * Z.of_nat levels + 2 <= maxSlot + 1 -> entry_in t (mkEntry k v) ->
  exists h cs t', put maxDepth t (Root (t_ctrl t)) k v = Ok (cs, t') /\
    replaced t h fp cs (insert_entry k v l) t' /\ (0 < length cs <= 2)%nat /\
    (h + length cs <= S levels)%nat /\ Next (t_ctrl t') <= Next (t_ctrl t) + 2 * Z.of_nat levels + 1.
Proof.
  intros Hwf [Hm Hso Hnd Hl] Hlv Hroom Hkv. destruct Hm as [(Hr & -> & ->)|(h & Hh & Ht)].
  - rewrite Hr. change maxDepth with (S 7). cbn [put]. rewrite Z.eqb_refl.
    destruct (allocate_spec t kindIndex Hwf) as (s & t1 & -> & Hal); [lia|done|]. cbn [res_bind].
    pose proof (fx_allocate _ _ _ _ Hwf Hal) as Hfx. pose proof (al_next _ _ _ _ Hal).
    exists 0%nat. do 2 eexists. split; [done|]. split_and!; cbn; try lia.
    eapply (replaced_pre _ _ _ _ [s]); [exact Hfx| |intros x Hx; apply list_elem_of_singleton in Hx as ->; right; apply Hal].
    apply (replaced_one t1 s 0 [mkEntry k v] [mkEntry k v] []); cbn; auto; try lia.
    + apply Hfx.
    + by eapply alloc_own.
    + intros x Hx. by apply elem_of_nil in Hx.
    + set_solver.
    + repeat constructor.
    + repeat constructor; by eapply fx_entry_in.
  - destruct (put_spec h maxDepth t (Root (t_ctrl t)) l fp k v) as (cs & t' & ? & ? & ? & ?); auto; try lia.
    exists h, cs, t'. split_and!; auto; lia.
Qed.

(** The end of [set]: the replacement of the root, or a new root above both halves. *)
Lemma set_finish t h fp cs l t1 : replaced t h fp cs l t1 -> sorted l -> (0 < length cs <= 2)%nat -> Next (t_ctrl t1) <= maxSlot ->
  exists t' fp', match cs with
      | [c] => Ok (set_root (slot c) t1)
      | _ => let* (root, t) := allocate t1 kindIndex in Ok (set_root root (set_node root (mkNode false cs) t))
      end = Ok t' /\
    tree_fx t fp t' /\ tree (nd t') (pred (h + length cs)) (Root (t_ctrl t')) l fp' /\ NoDup fp' /\ live t' fp' /\
    (forall x, x ∈ fp' -> x ∈ fp \/ unused t x) /\ Next (t_ctrl t') <= Next (t_ctrl t1) + 1 /\
    nd t' (Root (t_ctrl t')) = match cs with [c] => nd t1 (slot c) | _ => Some (mkNode false cs) end.
Proof.
  intros (fp' & Hfx & Hb & Hnd & Hl & Hsub) Hso Hcs Hroom. pose proof (fx_wf _ _ _ Hfx) as Hwf1.
  destruct cs as [|c cs]; [cbn in Hcs; lia|]. destruct cs as [|c2 cs].
  - apply body_one_inv in Hb as [Ht _]. destruct (tree_live_root _ _ _ _ _ Ht Hl) as (d & Hd & _).
    exists (set_root (slot c) t1), fp'. split; [done|]. cbn [length pred]. rewrite Nat.add_1_r. cbn [pred].
    split_and!; [|done|done|done|done|cbn; lia|done].
    eapply fx_trans; [exact Hfx|apply fx_set_root; [done|by eapply slot_u64]|set_solver].
  - assert (cs = []) as -> by (destruct cs; [done|cbn in Hcs; lia]). cbn [length]. replace (pred (h + 2)) with (S h) by lia.
    destruct (allocate_spec t1 kindIndex Hwf1 Hroom) as (r & t2 & -> & Hal); [done|]. cbn [res_bind].
    pose proof (fx_allocate _ _ _ _ Hwf1 Hal) as Hfx2. pose proof (al_next _ _ _ _ Hal).
    assert (forall x, x ∈ fp' -> x ∉ []) as Hno by (intros; apply not_elem_of_nil).
    pose proof (fx_body _ _ _ _ _ _ _ Hfx2 Hl Hno Hb) as Hb2.
    pose proof (fx_live_keep _ _ _ _ Hfx2 Hl Hno) as Hl2.
    pose proof (alloc_own _ _ _ Hwf1 Hal) as Hown. pose proof (alloc_unused_own _ _ _ Hal _ Hl) as Hr.
    destruct (store_node t2 r (S h) [c; c2] l fp') as [Hfx3 Ht]; auto;
      [apply Hfx2|eapply body_entries; [apply Hfx2|exact Hb2]|cbn; lia|].
    cbn [is_leaf] in *. set (t3 := set_node r _ t2) in *.
    assert (unused t r) as Hun by (eapply fx_unused; [exact Hfx|apply Hal]).
    pose proof Hown as (d & Hd & _). exists (set_root r t3), (r :: fp'). split; [done|]. split_and!.
    + eapply fx_trans; [eapply fx_trans; [eapply fx_trans; [exact Hfx|exact Hfx2|]|exact Hfx3|]|
        apply fx_set_root; [apply Hfx3|by apply (slot_u64 t2 r d); [apply Hfx2|]]|]; set_solver.
    + exact Ht.
    + by constructor.
    + intros x Hx. apply elem_of_cons in Hx as [->|Hx]; [apply (own_live t2 r Hown); left|by apply Hl2].
    + set_solver.
    + cbn. lia.
    + unfold nd, nd_of, inspectNode. cbn [tx_reader rd_nodes set_root set_ctrl set_node t3 t_nodes t_ctrl set_Root Root]. by rewrite lookup_insert_eq.
Qed.
Lemma set_spec t levels l fp k v :
  tx_wf t -> mapping t levels (Root (t_ctrl t)) l fp -> (levels < maxDepth)%nat ->
  Next (t_ctrl t) + 2 * Z.of_nat levels + 2 <= maxSlot + 1 -> entry_in t (mkEntry k v) ->
  exists t' fp', set t k v = Ok t' /\ tree_fx t fp t' /\
    mapping t' (S levels) (Root (t_ctrl t')) (insert_entry k v l) fp' /\
    (forall x, x ∈ fp' -> x ∈ fp \/ unused t x) /\
    Next (t_ctrl t') <= Next (t_ctrl t) + 2 * Z.of_nat levels + 2.
Proof.
  intros Hwf Hm Hlv Hroom Hkv. unfold set.
  destruct (put_root t levels l fp k v Hwf Hm Hlv Hroom Hkv) as (h & cs & t1 & -> & Hg & Hcs & Hh & Hnx).
  cbn [res_bind]. pose proof (insert_entry_sorted k v _ (mp_sorted _ _ _ _ _ Hm)) as Hso.
  destruct (set_finish _ _ _ _ _ _ Hg Hso Hcs ltac:(lia)) as (t' & fp' & Hok & Hfx & Ht & Hnd & Hl & Hsub & Hnx' & _).
  exists t', fp'. split; [exact Hok|]. split; [done|]. split; [|split; [done|lia]].
  split; auto. right. exists (pred (h + length cs)). split; [lia|done].
Qed.

(** ** Retained checkpoints *)

(** The tree below [r] holds [l] and belongs to a retained checkpoint: every node
    was born at or before the protected epoch.  A later update may have retired
    some of them. *)
Definition retained (t : transaction) (r : Z) (l : list entry) : Prop :=
  exists h f, tree (nd t) h r l f /\ forall x, x ∈ f ->
    exists d, dsc t x = Some d /\ (Kind d = kindIndex \/ Kind d = kindGarbage) /\ Birth d <= pe t.

Lemma fx_retained t fp t' r l : tree_fx t fp t' -> retained t r l -> retained t' r l.
Proof.
  intros Hfx (h & f & Ht & Hf). exists h, f. split.
  - eapply tree_ext; [|exact Ht]. intros x n Hx. destruct (Hf x Hx) as (d & Hd & Hk & Hb).
    apply (fx_nd _ _ _ Hfx x d); [done|..|by right]; destruct Hk as [-> | ->]; done.
  - intros x Hx. destruct (Hf x Hx) as (d & Hd & Hk & Hb).
    destruct (fx_live _ _ _ Hfx x d Hd) as (d' & Hd' & Hb' & Hc); [by destruct Hk as [-> | ->]|].
    exists d'. rewrite (fx_pe _ _ _ Hfx), Hb'. split_and!; auto. destruct Hc as [->|[_ ?]]; auto.
Qed.

(** C38 — Setting a mapping: on a well-formed transaction with room for the new
    nodes, [set] succeeds, the result is well-formed, a lookup of any key finds
    the new slot for the key that was set and the old answer for every other key,
    and the tree of every retained checkpoint still holds exactly what it held,
    whether its nodes were shared with the active tree or not. *)
Theorem set_updates t levels l fp k v :
  tx_wf t -> mapping t levels (Root (t_ctrl t)) l fp -> (levels < maxDepth)%nat ->
  Next (t_ctrl t) + 2 * Z.of_nat levels + 2 <= maxSlot + 1 -> entry_in t (mkEntry k v) ->
  exists t' fp', set t k v = Ok t' /\ tx_wf t' /\
    mapping t' (S levels) (Root (t_ctrl t')) (insert_entry k v l) fp' /\
    (forall k', lookup (tx_reader t') (Root (t_ctrl t')) k' = Ok (if k' =? k then v else assoc k' l)) /\
    (forall r l', retained t r l' -> retained t' r l').
Proof.
  intros Hwf Hm Hlv Hroom Hkv.
  destruct (set_spec t levels l fp k v Hwf Hm Hlv Hroom Hkv) as (t' & fp' & Hs & Hfx & Hm' & _).
  exists t', fp'. split_and!; auto; [apply Hfx| |].
  - intros k'. rewrite (mapping_lookup _ _ _ _ _ k' Hm') by lia. by rewrite assoc_insert.
  - intros r l'. by apply fx_retained with (fp := fp).
Qed.

Lemma demo_mapping : mapping demo_tx 1 2 [mkEntry 5 1] [2].
Proof.
  split.
  - right. exists 0%nat. split; [lia|apply demo_leaf_tree].
  - repeat constructor.
  - apply NoDup_singleton.
  - intros x Hx. apply list_elem_of_singleton in Hx as ->. exists (demo_desc 2).
    split; [apply demo_dsc; lia|done].
Qed.
Lemma demo_retained : retained demo_tx 2 [mkEntry 5 1].
Proof.
  exists 0%nat, [2]. split; [apply demo_leaf_tree|]. intros x Hx. apply list_elem_of_singleton in Hx as ->.
  exists (demo_desc 2). rewrite demo_pe. split_and!; [apply demo_dsc; lia|by left|cbn; lia].
Qed.
Lemma set_updates_witness : exists t', set demo_tx 7 1 = Ok t' /\
  lookup (tx_reader t') (Root (t_ctrl t')) 7 = Ok 1 /\ lookup (tx_reader t') (Root (t_ctrl t')) 5 = Ok 1 /\
  lookup (tx_reader t') (Root (t_ctrl t')) 6 = Ok 0 /\ retained t' 2 [mkEntry 5 1].
Proof.
  destruct (set_updates demo_tx 1 [mkEntry 5 1] [2] 7 1) as (t' & fp' & Hs & _ & _ & Hl & Hr).
  - apply demo_wf.
  - exact demo_mapping.
  - unfold maxDepth. lia.
  - rewrite maxSlot_val. cbn. lia.
  - unfold entry_in, is_u64. change (total demo_tx) with 16. cbn. lia.
  - exists t'. split; [exact Hs|]. split; [exact (Hl 7)|]. split; [exact (Hl 5)|].
    split; [exact (Hl 6)|]. apply Hr, demo_retained.
Defined.
