(* ===== verification/Retire.v ===== *)
(** * Retire: batched retirement of payload slots.

    Models [retirePayloads] of pkg/diffstore/internal/versioned/transaction.go,
    which sorts the slots, rewrites each descriptor page once and encodes the
    protected checkpoint once.  The theorem: on a well-formed transaction it
    produces exactly the transaction that retiring the slots one at a time in
    increasing order produces. *)
From stdpp Require Import base numbers list gmap strings sorting.
From Stdlib Require Import ZArith Lia.
From S2P Require Import Prelude Page Presence Json Format Tree Tx Demo TreeWrite.

(** ** Operations *)

(** The first check loop: bounds, and no slot twice in the sorted list. *)
Fixpoint check_payloads (next : Z) (prev : option Z) (slots : list Z) : dres unit :=
  match slots with
  | [] => Ok tt
  | s :: slots =>
      if (s =? 0) || (next <=? s) then Err (DiffErr "slot out of bounds")
      else if match prev with Some p => p =? s | None => false end
      then Err (DiffErr "double retirement of slot")
      else check_payloads next (Some s) slots
  end.

(** The slots of one descriptor page [b]; [cp] is the protected checkpoint once it
    has been read. *)
Fixpoint retire_slots (epoch : Z) (b : list Z) (cp : option checkpoint) (t : transaction)
    (slots : list Z) : dres (list Z * option checkpoint * transaction) :=
  match slots with
  | [] => Ok (b, cp, t)
  | s :: slots =>
      let d := get_descriptor b s in
      if (Kind d =? kindGarbage) || (Kind d =? kindFree)
      then Err (DiffErr "double retirement of slot")
      else if negb (Kind d =? kindData) then Err (DiffErr "non-data slot in payload mapping")
      else
        let p := Protected (t_ctrl t) in
        if negb (p =? 0) && (Birth d <=? epoch) then
          let* c := match cp with Some c => Ok c | None => readCheckpoint t p end in
          retire_slots epoch (put_descriptor s (mkDescriptor (Birth d) (cp_Garbage c) kindGarbage) b)
            (Some (set_cpGarbage s c)) t slots
        else
          retire_slots epoch
            (put_descriptor s (mkDescriptor (Birth d) (Garbage (t_ctrl t)) kindGarbage) b)
            cp (set_ctrl (set_Garbage s (t_ctrl t)) t) slots
  end.

(** [slots[first:last]] with the page of [slots[first]], and the rest. *)
Fixpoint same_page (page : Z) (slots : list Z) : list Z * list Z :=
  match slots with
  | [] => ([], [])
  | s :: rest => if descriptorPage s =? page
                 then let (a, b) := same_page page rest in (s :: a, b)
                 else ([], slots)
  end.
(** Each round takes at least one slot: the length of the list is enough fuel. *)
Fixpoint retire_pages (fuel : nat) (epoch : Z) (cp : option checkpoint) (t : transaction)
    (slots : list Z) : dres (option checkpoint * transaction) :=
  match fuel, slots with
  | _, [] => Ok (cp, t)
  | O, _ => Err (DiffErr "out of fuel")
  | S fuel, s :: _ =>
      let page := descriptorPage s in
      let (group, rest) := same_page page slots in
      let* (b, t) := edit t page in
      if negb (checkPage b) then Err (DiffErr "metadata checksum mismatch")
      else
        let* (b, cp, t) := retire_slots epoch b cp t group in
        retire_pages fuel epoch cp (set_page page (sealPage b) t) rest
  end.

Definition retirePayloads (t : transaction) (slots : list Z) : dres transaction :=
  match slots with
  | [] => Ok t
  | _ =>
      let slots := merge_sort Z.le slots in
      let* _ := check_payloads (Next (t_ctrl t)) None slots in
      let* (epoch, t) := protectedEpoch t in
      let* (cp, t) := retire_pages (length slots) epoch None t slots in
      match cp with
      | Some c => putCheckpoint t (Protected (t_ctrl t)) c
      | None => Ok t
      end
  end.

(** The reference: one [retire] per slot. *)
Fixpoint retire_each (t : transaction) (slots : list Z) : dres transaction :=
  match slots with [] => Ok t | s :: slots => let* t := retire t s in retire_each t slots end.

(** ** Resealing *)

Lemma put_take_ext off p b b' n :
  length b = length b' -> (off + length p <= n)%nat -> (n <= length b)%nat ->
  take n b = take n b' -> take n (Page.put off p b) = take n (Page.put off p b').
Proof.
  intros Hl Ho Hn Ht. apply list_eq. intros i. destruct (decide (i < n)%nat).
  - rewrite !lookup_take_lt, !put_lookup by lia. case_decide; [done|].
    by rewrite <- (lookup_take_lt b n), Ht, lookup_take_lt by done.
  - by rewrite !lookup_take_ge by lia.
Qed.
Lemma sealPage_ext b b' : is_page b -> is_page b' ->
  take (page_len - 4) b = take (page_len - 4) b' -> sealPage b = sealPage b'.
Proof.
  intros [Hl _] [Hl' _] Ht. unfold sealPage, putLE. rewrite Ht. unfold Page.put. rewrite Ht, Hl, Hl'.
  rewrite !le_bytes_length, !drop_ge by plia. done.
Qed.
Lemma seal_put_descriptor s d b : is_page b ->
  sealPage (put_descriptor s d (sealPage b)) = sealPage (put_descriptor s d b).
Proof.
  intros Hb. pose proof (descriptorOffset_range s) as Ho. pose proof (sealPage_page b Hb) as Hs.
  apply sealPage_ext; [by apply put_descriptor_page..|]. unfold put_descriptor, putLE.
  pose proof Hb as [Hl _]. pose proof Hs as [Hl' _].
  do 3 (apply put_take_ext; [rewrite ?put_length; rewrite ?put_length; plia| | |];
    [rewrite le_bytes_length; plia|rewrite ?put_length; rewrite ?put_length; plia|]).
  apply sealPage_take; page_side.
Qed.

(** ** Batched and single retirement agree *)

(** The transaction that the batched state [b], [cp], [t] of descriptor page [page]
    stands for. *)
Definition flush_cp (cp : option checkpoint) (t : transaction) : transaction :=
  match cp with
  | Some c => match encodeCheckpoint c with
              | Ok b => set_page (slotPage (Protected (t_ctrl t))) b t
              | Err _ => t
              end
  | None => t
  end.
Definition flush (page : Z) (b : list Z) (cp : option checkpoint) (t : transaction) : transaction :=
  set_page page (sealPage b) (flush_cp cp t).

(** The facts of a well-formed transaction that the batch relies on. *)
Record batch_ok (epoch : Z) (cp : option checkpoint) (t : transaction) : Prop := {
  bt_known : protectedKnown t = true;
  bt_epoch : protectedValue t = epoch;
  bt_protected : Protected (t_ctrl t) <> 0 -> 1 <= Protected (t_ctrl t);
  bt_cp : forall c, cp = Some c -> checkpoint_ok c /\ Protected (t_ctrl t) <> 0;
  bt_read : Protected (t_ctrl t) <> 0 ->
    exists c, readCheckpoint t (Protected (t_ctrl t)) = Ok c /\ checkpoint_ok c }.

Lemma flush_desc page b cp t s : is_page b -> page = descriptorPage s -> 1 <= s < Next (t_ctrl t) ->
  desc (flush page b cp t) s = Ok (get_descriptor b s).
Proof.
  intros Hb -> Hs. unfold desc.
  assert (t_ctrl (flush (descriptorPage s) b cp t) = t_ctrl t) as ->.
  { unfold flush, flush_cp. destruct cp as [c|]; [|done]. by destruct (encodeCheckpoint c). }
  rewrite (proj2 (Z.eqb_neq _ _)), (proj2 (Z.leb_gt _ _)) by lia. cbn [orb].
  unfold flush. rewrite read_set_page, decide_True by done. cbn [res_bind].
  rewrite checkPage_seal, get_descriptor_seal by done. done.
Qed.

Lemma set_page_twice p b b' t : set_page p b (set_page p b' t) = set_page p b t.
Proof. unfold set_page; cbn. by rewrite insert_insert_eq. Qed.
Lemma set_page_comm p q b c t : p <> q -> set_page p b (set_page q c t) = set_page q c (set_page p b t).
Proof. intros. unfold set_page; cbn. by rewrite insert_insert_ne. Qed.

Lemma flush_ctrl page b cp t : t_ctrl (flush page b cp t) = t_ctrl t.
Proof. unfold flush, flush_cp. destruct cp as [c|]; [|done]. by destruct (encodeCheckpoint c). Qed.
Lemma flush_known page b cp t : protectedKnown (flush page b cp t) = protectedKnown t /\
  protectedValue (flush page b cp t) = protectedValue t.
Proof. unfold flush, flush_cp. destruct cp as [c|]; [|done]. by destruct (encodeCheckpoint c). Qed.

(** The checkpoint the batch has in hand is the one a reader would find. *)
Lemma flush_checkpoint epoch s b cp t : batch_ok epoch cp t -> 1 <= s ->
  Protected (t_ctrl t) <> 0 ->
  exists c, match cp with Some c => Ok c | None => readCheckpoint t (Protected (t_ctrl t)) end = Ok c /\
    readCheckpoint (flush (descriptorPage s) b cp t) (Protected (t_ctrl t)) = Ok c /\ checkpoint_ok c.
Proof.
  intros Hb Hs H0. pose proof (bt_protected _ _ _ Hb H0) as Hp.
  unfold readCheckpoint, flush. rewrite read_set_page, decide_False by (by apply slotPage_descriptorPage).
  destruct cp as [c|]; cbn [flush_cp].
  - destruct (bt_cp _ _ _ Hb c eq_refl) as [Hok _]. exists c. split_and!; [done| |done].
    destruct (decodeCheckpoint_encode c Hok) as (bb & -> & _ & _ & Hd).
    by rewrite read_set_page, decide_True.
  - destruct (bt_read _ _ _ Hb H0) as (c & Hc & Hok). eauto.
Qed.

(** One slot: the batch step, and [retire] on the state the batch stands for. *)
Lemma retire_step epoch s b cp t slots :
  batch_ok epoch cp t -> is_page b -> 1 <= s < Next (t_ctrl t) -> is_u64 s ->
  Kind (get_descriptor b s) = kindData ->
  exists d' cp' t', Kind d' = kindGarbage /\
    retire_slots epoch b cp t (s :: slots) = retire_slots epoch (put_descriptor s d' b) cp' t' slots /\
    retire (flush (descriptorPage s) b cp t) s = Ok (flush (descriptorPage s) (put_descriptor s d' b) cp' t') /\
    batch_ok epoch cp' t' /\
    Next (t_ctrl t') = Next (t_ctrl t) /\ t_pages t' = t_pages t /\ store t' = store t.
Proof.
  intros Hb Hp Hs Hu Hk.
  cbn [retire_slots]. unfold retire. rewrite (proj2 (Z.eqb_neq s 0)) by lia.
  rewrite flush_desc by done. cbn [res_bind]. rewrite Hk.
  change ((kindData =? kindGarbage) || (kindData =? kindFree)) with false.
  change (kindData =? kindData) with true. change (kindData =? kindIndex) with false. cbn [negb].
  assert (protectedEpoch (flush (descriptorPage s) b cp t) = Ok (epoch, flush (descriptorPage s) b cp t)) as ->.
  { unfold protectedEpoch. destruct (flush_known (descriptorPage s) b cp t) as [-> ->].
    by rewrite (bt_known _ _ _ Hb), (bt_epoch _ _ _ Hb). }
  cbn [res_bind]. rewrite flush_ctrl.
  set (d := get_descriptor b s) in *.
  destruct (negb (Protected (t_ctrl t) =? 0) && (Birth d <=? epoch)) eqn:E.
  - apply andb_true_iff in E as [E _]. bool_prop.
    destruct (flush_checkpoint epoch s b cp t Hb ltac:(lia) E) as (c & -> & -> & Hc). cbn [res_bind].
    assert (checkpoint_ok (set_cpGarbage s c)) as Hc'.
    { unfold checkpoint_ok in *. destruct_and! Hc. cbn. split_and!; auto. }
    destruct (decodeCheckpoint_encode _ Hc') as (bb & He & _). unfold putCheckpoint. rewrite He.
    cbn [res_bind]. exists (mkDescriptor (Birth d) (cp_Garbage c) kindGarbage), (Some (set_cpGarbage s c)), t.
    split; [done|]. split; [done|].
    assert (slotPage (Protected (t_ctrl t)) <> descriptorPage s) as Hne.
    { apply slotPage_descriptorPage; [by apply (bt_protected _ _ _ Hb)|lia]. }
    split_and!; [|split; try apply Hb|done..].
    + rewrite (setDesc_eq _ _ _ (sealPage b)).
      * f_equal. unfold flush. cbn [flush_cp]. rewrite He, seal_put_descriptor by done.
        rewrite (set_page_comm (slotPage _)), set_page_twice by done. f_equal.
        destruct cp as [c0|]; [|done]. cbn [flush_cp]. destruct (encodeCheckpoint c0); [|done].
        by rewrite set_page_twice.
      * unfold flush. rewrite read_set_page, decide_False by done. by rewrite read_set_page, decide_True.
    + intros c0 [= <-]. done.
  - cbn [res_bind]. exists (mkDescriptor (Birth d) (Garbage (t_ctrl t)) kindGarbage), cp,
      (set_ctrl (set_Garbage s (t_ctrl t)) t).
    split; [done|]. split; [done|]. split_and!; [|split; try apply Hb|done..].
    + rewrite (setDesc_eq _ _ _ (sealPage b)).
      * f_equal. unfold flush. rewrite seal_put_descriptor by done. unfold flush_cp.
        destruct cp as [c0|]; [destruct (encodeCheckpoint c0)|]; unfold set_page, set_ctrl; cbn;
          by rewrite insert_insert_eq.
      * unfold flush, set_ctrl, read; cbn. by rewrite lookup_insert_eq.
Qed.

Lemma retire_group epoch page b cp t group :
  batch_ok epoch cp t -> is_page b -> NoDup group ->
  (forall s, s ∈ group -> descriptorPage s = page /\ 1 <= s < Next (t_ctrl t) /\ is_u64 s /\
     Kind (get_descriptor b s) = kindData) ->
  exists b' cp' t', retire_slots epoch b cp t group = Ok (b', cp', t') /\
    retire_each (flush page b cp t) group = Ok (flush page b' cp' t') /\
    batch_ok epoch cp' t' /\ is_page b' /\ Next (t_ctrl t') = Next (t_ctrl t).
Proof.
  revert b cp t. induction group as [|s group IH]; intros b cp t Hb Hp Hnd Hg.
  - exists b, cp, t. split_and!; auto.
  - apply NoDup_cons in Hnd as [Hs Hnd]. destruct (Hg s) as (<- & Hr & Hu & Hk); [left|].
    destruct (retire_step epoch s b cp t group Hb Hp Hr Hu Hk)
      as (d' & cp1 & t1 & Hkd & -> & Hre & Hb1 & Hct & Hpg & Hst).
    cbn [retire_each]. rewrite Hre. cbn [res_bind].
    destruct (IH (put_descriptor s d' b) cp1 t1) as (b2 & cp2 & t2 & ? & ? & ? & ? & Hc2); auto with go.
    { intros x Hx. destruct (Hg x) as (Hpx & Hrx & Hux & Hkx); [by right|].
      rewrite Hct. split_and!; auto; try lia.
      rewrite get_put_descriptor_ne; [done|done|done|]. by intros ->. }
    exists b2, cp2, t2. split_and!; auto. lia.
Qed.

(** Loading a descriptor page first changes nothing. *)
Lemma retire_loaded t s b : read t (descriptorPage s) = Ok b -> 1 <= s ->
  Kind (get_descriptor b s) <> kindIndex -> protectedKnown t = true ->
  (Protected (t_ctrl t) <> 0 -> 1 <= Protected (t_ctrl t)) ->
  retire (set_page (descriptorPage s) b t) s = retire t s.
Proof.
  intros Hb Hs Hk Hkn Hpr. unfold retire. rewrite (proj2 (Z.eqb_neq s 0)) by lia.
  assert (forall p, read (set_page (descriptorPage s) b t) p = read t p) as Hrd.
  { intros p. rewrite read_set_page. by case_decide; subst. }
  assert (desc (set_page (descriptorPage s) b t) s = desc t s) as ->.
  { unfold desc. by rewrite Hrd. }
  destruct (desc t s) as [d|] eqn:Hd; [|done]. cbn [res_bind].
  assert (d = get_descriptor b s) as ->.
  { unfold desc in Hd. case_match; [done|]. rewrite Hb in Hd. cbn [res_bind] in Hd. case_match; congruence. }
  case_match; [done|]. rewrite (proj2 (Z.eqb_neq _ kindIndex)) by done.
  assert (forall u d', read u (descriptorPage s) = Ok b ->
    setDesc (set_page (descriptorPage s) b u) s d' = setDesc u s d') as Hset.
  { intros u d' Hu. rewrite (setDesc_eq u _ _ b Hu), (setDesc_eq _ _ _ b), set_page_twice; [done|].
    by rewrite read_set_page, decide_True. }
  unfold protectedEpoch. cbn [protectedKnown protectedValue set_page]. rewrite Hkn. cbn [res_bind].
  change (t_ctrl (set_page (descriptorPage s) b t)) with (t_ctrl t).
  destruct (negb (Protected (t_ctrl t) =? 0) && _) eqn:E.
  - apply andb_true_iff in E as [E _]. bool_prop. unfold readCheckpoint. rewrite Hrd.
    destruct (read t (slotPage _)) as [bc|]; [|done]. cbn [res_bind].
    destruct (decodeCheckpoint bc) as [c|]; [|done]. cbn [res_bind]. unfold putCheckpoint.
    destruct (encodeCheckpoint _) as [bb|]; [|done]. cbn [res_bind].
    pose proof (slotPage_descriptorPage (Protected (t_ctrl t)) s ltac:(auto) Hs).
    rewrite set_page_comm by done. apply Hset. rewrite read_set_page, decide_False; auto.
  - cbn [res_bind]. apply (Hset (set_ctrl _ t)). exact Hb.
Qed.

(** A page whose checksum holds is its own sealed form. *)
Lemma sealPage_checked b : is_page b -> checkPage b = true -> sealPage b = b.
Proof.
  intros [Hl Hb] Hc. unfold checkPage in Hc. bool_prop.
  unfold sealPage, putLE. replace (ChecksumIEEE _) with (getLE 4 (page_len - 4) b) by done.
  pose proof (le_bytes_val (slice (page_len - 4) 4 b) (slice_ok _ _ _ Hb)) as Hv.
  rewrite slice_length in Hv by plia. unfold getLE. rewrite Hv. unfold Page.put. rewrite slice_length, drop_ge, app_nil_r by plia.
  rewrite (take_ge (slice _ _ _)) by (rewrite slice_length; plia). unfold slice.
  rewrite (take_ge (drop _ _)) by (rewrite length_drop; plia). apply take_drop.
Qed.

(** The slots of a list of pending retirements. *)
Definition payload_slots (t : transaction) (slots : list Z) : Prop :=
  NoDup slots /\ forall s, s ∈ slots -> exists d, dsc t s = Some d /\ Kind d = kindData.

Lemma same_page_app page slots : let (a, b) := same_page page slots in
  slots = a ++ b /\ (forall s, s ∈ a -> descriptorPage s = page).
Proof.
  induction slots as [|s slots IH]; cbn; [split; [done|]; intros ? ?%elem_of_nil; done|].
  destruct (descriptorPage s =? page) eqn:E.
  - bool_prop. destruct (same_page page slots) as [a b]. destruct IH as [-> IH]. split; [done|].
    intros x Hx. apply elem_of_cons in Hx as [->|Hx]; auto.
  - split; [done|]. intros x Hx. by apply elem_of_nil in Hx.
Qed.

(** Retiring slots one at a time succeeds and leaves the others alone. *)
Record retired (t : transaction) (slots : list Z) (t' : transaction) : Prop := {
  rd_fx : tree_fx t slots t';
  rd_next' : Next (t_ctrl t') = Next (t_ctrl t);
  rd_root : Root (t_ctrl t') = Root (t_ctrl t);
  rd_gone : forall s, s ∈ slots -> exists d', dsc t' s = Some d' /\ Kind d' = kindGarbage;
  rd_other : forall x, x ∉ slots -> dsc t' x = dsc t x }.

Lemma retire_each_spec t slots : tx_wf t -> payload_slots t slots ->
  exists t', retire_each t slots = Ok t' /\ retired t slots t'.
Proof.
  revert t. induction slots as [|s slots IH]; intros t Hwf [Hnd Hs].
  - exists t. split; [done|]. split; auto using fx_refl. by intros ? ?%elem_of_nil.
  - apply NoDup_cons in Hnd as [Hn Hnd]. destruct (Hs s) as (d & Hd & Hk); [left|].
    destruct (retire_spec t s d Hwf Hd) as (t1 & Hr & Hrt); [by right|]. cbn [retire_each]. rewrite Hr.
    cbn [res_bind]. destruct (IH t1) as (t2 & -> & Hrd).
    + apply Hrt.
    + split; [done|]. intros x Hx. rewrite (rt_other _ _ _ Hrt) by (by intros ->). apply Hs. by right.
    + exists t2. split; [done|]. destruct Hrd as [Hfx Hnx Hroot Hgone Hoth]. split.
      * eapply fx_trans; [eapply fx_weaken; [by apply fx_retire|]|exact Hfx|]; set_solver.
      * rewrite Hnx. apply Hrt.
      * rewrite Hroot. apply (rt_ctrl _ _ _ Hrt).
      * intros x Hx. apply elem_of_cons in Hx as [->|Hx]; [|by apply Hgone].
        rewrite Hoth by done. destruct (rt_dsc _ _ _ Hrt) as (_ & d' & _ & ? & _ & ?). eauto.
      * intros x Hx. apply not_elem_of_cons in Hx as [Hx1 Hx2]. by rewrite Hoth, (rt_other _ _ _ Hrt).
Qed.
Lemma retire_each_app t l1 l2 : retire_each t (l1 ++ l2) = (let* t := retire_each t l1 in retire_each t l2).
Proof.
  revert t. induction l1 as [|s l1 IH]; intros t; [done|]. cbn [app retire_each].
  destruct (retire t s); cbn [res_bind]; auto.
Qed.

Lemma flush_comm s b cp t : 1 <= s -> (Protected (t_ctrl t) <> 0 -> 1 <= Protected (t_ctrl t)) ->
  (forall c, cp = Some c -> Protected (t_ctrl t) <> 0) ->
  set_page (descriptorPage s) b (flush_cp cp t) = flush_cp cp (set_page (descriptorPage s) b t).
Proof.
  intros Hs Hp Hc. unfold flush_cp. destruct cp as [c|]; [|done]. destruct (encodeCheckpoint c); [|done].
  cbn [t_ctrl set_page]. apply set_page_comm. apply not_eq_sym, slotPage_descriptorPage; eauto.
Qed.
Lemma flush_read s cp t : 1 <= s -> (Protected (t_ctrl t) <> 0 -> 1 <= Protected (t_ctrl t)) ->
  (forall c, cp = Some c -> Protected (t_ctrl t) <> 0) ->
  read (flush_cp cp t) (descriptorPage s) = read t (descriptorPage s).
Proof.
  intros Hs Hp Hc. unfold flush_cp. destruct cp as [c|]; [|done]. destruct (encodeCheckpoint c); [|done].
  rewrite read_set_page, decide_False; [done|]. apply not_eq_sym, slotPage_descriptorPage; eauto.
Qed.
Lemma batch_set_page epoch cp t s b : 1 <= s -> batch_ok epoch cp t ->
  batch_ok epoch cp (set_page (descriptorPage s) b t).
Proof.
  intros Hs []. split; try done. intros H0. destruct (bt_read0 H0) as (c & Hc & Hok). exists c.
  split; [|done]. unfold readCheckpoint in *. cbn [t_ctrl set_page]. rewrite read_set_page, decide_False; [done|].
  apply slotPage_descriptorPage; auto.
Qed.
Lemma flush_cp_ctrl cp t : t_ctrl (flush_cp cp t) = t_ctrl t /\
  protectedKnown (flush_cp cp t) = protectedKnown t.
Proof. unfold flush_cp. destruct cp as [c|]; [|done]. by destruct (encodeCheckpoint c). Qed.

(** One descriptor page of the batch. *)
Lemma retire_page epoch cp t s group :
  batch_ok epoch cp t -> tx_wf (flush_cp cp t) -> payload_slots (flush_cp cp t) (s :: group) ->
  (forall x, x ∈ s :: group -> descriptorPage x = descriptorPage s) ->
  exists b t1 b' cp' t', edit t (descriptorPage s) = Ok (b, t1) /\ checkPage b = true /\
    retire_slots epoch b cp t1 (s :: group) = Ok (b', cp', t') /\
    retire_each (flush_cp cp t) (s :: group) =
      Ok (flush_cp cp' (set_page (descriptorPage s) (sealPage b') t')) /\
    batch_ok epoch cp' (set_page (descriptorPage s) (sealPage b') t').
Proof.
  intros Hb Hwf [Hnd Hsl] Hpg. destruct (Hsl s) as (d & Hd & Hk); [left|].
  pose proof (bt_protected _ _ _ Hb) as Hpr.
  assert (forall c, cp = Some c -> Protected (t_ctrl t) <> 0) as Hcp by (intros c ->; by apply (bt_cp _ _ _ Hb c)).
  destruct (flush_cp_ctrl cp t) as [Hct Hkn].
  apply dsc_Some in Hd as (Hs & b & Hrb & Hcb & ->). rewrite Hct in Hs.
  assert (is_page b) as Hpb by exact (read_page _ _ b Hwf Hrb).
  assert (read t (descriptorPage s) = Ok b) as Hrt by (by rewrite flush_read in Hrb by (auto; lia)).
  assert (exists t1, edit t (descriptorPage s) = Ok (b, t1) /\ batch_ok epoch cp t1 /\ t_ctrl t1 = t_ctrl t /\
    set_page (descriptorPage s) b t1 = set_page (descriptorPage s) b t) as (t1 & Hed & Hb1 & Hct1 & Heq).
  { unfold edit. unfold read in Hrt. destruct (t_pages t !! descriptorPage s) eqn:E.
    - injection Hrt as ->. by exists t.
    - unfold read. rewrite E, Hrt. cbn [res_bind]. eexists. split; [done|].
      split; [apply batch_set_page; [lia|done]|]. split; [done|]. apply set_page_twice. }
  assert (flush (descriptorPage s) b cp t1 = set_page (descriptorPage s) b (flush_cp cp t)) as Hfl.
  { unfold flush. rewrite sealPage_checked by done. rewrite !flush_comm by (rewrite ?Hct1; auto; lia).
    by rewrite Heq. }
  destruct (retire_group epoch (descriptorPage s) b cp t1 (s :: group) Hb1 Hpb Hnd) as
    (b' & cp' & t' & Hrs & Hre & Hb' & Hpb' & _).
  { intros x Hx. rewrite Hct1. destruct (Hsl x Hx) as (dx & Hdx & Hkx).
    apply dsc_Some in Hdx as (Hsx & bx & Hbx & _ & ->). rewrite Hct in Hsx. rewrite Hpg, Hrb in Hbx by done.
    injection Hbx as <-. pose proof (w_next _ Hwf) as Hn. rewrite Hct, maxSlot_val in Hn.
    split_and!; auto; unfold is_u64; lia. }
  exists b, t1, b', cp', t'. split_and!; auto.
  - rewrite <- flush_comm; [|lia|apply Hb'|intros c ->; by apply (bt_cp _ _ _ Hb' c)].
    rewrite Hfl in Hre. cbn [retire_each] in Hre |- *. rewrite retire_loaded in Hre; auto; [lia|by rewrite Hk| |by rewrite Hct].
    rewrite Hkn. apply Hb.
  - apply batch_set_page; [lia|done].
Qed.

Lemma retire_pages_spec epoch fuel cp t slots :
  batch_ok epoch cp t -> tx_wf (flush_cp cp t) -> payload_slots (flush_cp cp t) slots ->
  (length slots <= fuel)%nat ->
  exists cp' t', retire_pages fuel epoch cp t slots = Ok (cp', t') /\
    retire_each (flush_cp cp t) slots = Ok (flush_cp cp' t') /\ batch_ok epoch cp' t'.
Proof.
  revert cp t slots. induction fuel as [|fuel IH]; intros cp t slots Hb Hwf Hsl Hf;
    (destruct slots as [|s slots]; [by exists cp, t|]); [cbn in Hf; lia|].
  cbn [retire_pages]. pose proof (same_page_app (descriptorPage s) (s :: slots)) as Hsp.
  cbn [same_page] in Hsp |- *. rewrite Z.eqb_refl in Hsp |- *.
  destruct (same_page (descriptorPage s) slots) as [group rest]. destruct Hsp as [Heq Hpg].
  injection Heq as ->. destruct Hsl as [Hnd Hsl].
  assert (payload_slots (flush_cp cp t) (s :: group)) as Hg.
  { split; [by apply (NoDup_app (s :: group) rest) in Hnd as (? & _)|]. intros x Hx. apply Hsl. set_solver. }
  destruct (retire_page epoch cp t s group Hb Hwf Hg Hpg) as (b & t1 & b' & cp' & t' & -> & Hc & Hrs & Hre & Hb').
  cbn [res_bind]. rewrite Hc. cbn [negb]. rewrite Hrs. cbn [res_bind].
  destruct (retire_each_spec _ _ Hwf Hg) as (te & Hte & Hrd). rewrite Hre in Hte. injection Hte as <-.
  destruct (IH cp' (set_page (descriptorPage s) (sealPage b') t') rest Hb') as (cp2 & t2 & -> & Hre2 & Hb2).
  - apply Hrd.
  - apply (NoDup_app (s :: group) rest) in Hnd as (_ & Hdis & Hndr). split; [done|]. intros x Hx.
    rewrite (rd_other _ _ _ Hrd); [apply Hsl; set_solver|]. intros Hx'. by apply (Hdis x).
  - cbn in Hf. rewrite length_app in Hf. lia.
  - exists cp2, t2. split; [done|]. split; [|done].
    change (s :: group ++ rest) with ((s :: group) ++ rest). rewrite retire_each_app, Hre. done.
Qed.

Lemma check_payloads_ok next prev slots : Sorted Z.le slots -> NoDup slots ->
  (forall s, s ∈ slots -> 1 <= s < next /\ prev <> Some s) -> check_payloads next prev slots = Ok tt.
Proof.
  revert prev. induction slots as [|s slots IH]; intros prev Hso Hnd Hs; [done|]. cbn.
  destruct (Hs s) as [Hr Hp]; [left|]. apply NoDup_cons in Hnd as [Hn Hnd].
  rewrite (proj2 (Z.eqb_neq _ _)), (proj2 (Z.leb_gt _ _)) by lia. cbn [orb].
  assert (match prev with Some p => p =? s | None => false end = false) as ->.
  { destruct prev as [p|]; [|done]. apply Z.eqb_neq. congruence. }
  apply IH; [by inversion Hso|done|]. intros x Hx. split; [apply Hs; by right|]. intros [= ->]. done.
Qed.

Lemma protectedEpoch_known t e t1 : tx_wf t -> protectedEpoch t = Ok (e, t1) ->
  protectedKnown t1 = true /\ protectedValue t1 = e.
Proof.
  intros Hwf. unfold protectedEpoch. destruct (protectedKnown t) eqn:Ek; [by intros [= <- <-]|].
  case_match; [intros [= <- <-]; split; [done|]; cbn; by apply w_value|].
  destruct (readCheckpoint t _); [|done]. by intros [= <- <-].
Qed.
(** Knowing the protected epoch beforehand does not change a retirement. *)
Lemma retire_known t t1 s d : tx_wf t -> protectedEpoch t = Ok (pe t, t1) -> dsc t s = Some d ->
  desc t1 s = desc t s -> Kind d = kindData -> retire t1 s = retire t s.
Proof.
  intros Hwf Hpe Hd Hds Hk. unfold retire. rewrite Hds, (dsc_desc _ _ _ Hd). cbn [res_bind]. rewrite Hk.
  change (kindData =? kindIndex) with false. cbn iota.
  destruct (protectedEpoch_known t _ t1 Hwf Hpe) as [Hkn Hv].
  assert (protectedEpoch t1 = Ok (pe t, t1)) as -> by (unfold protectedEpoch; by rewrite Hkn, Hv).
  rewrite Hpe. pose proof (dsc_bound _ _ _ Hd). by rewrite (proj2 (Z.eqb_neq s 0)) by lia.
Qed.
Lemma protected_batch t t1 : tx_wf t1 -> protectedKnown t1 = true -> protectedValue t1 = pe t ->
  batch_ok (pe t) None t1.
Proof.
  intros Hwf Hkn Hv. split; auto; [|done|]; intros H0; destruct (w_prot t1 Hwf H0) as (? & Hc & _); [lia|done].
Qed.

Lemma retirePayloads_eq t slots :
  tx_wf t -> payload_slots t slots ->
  exists t', retirePayloads t slots = Ok t' /\ retire_each t (merge_sort Z.le slots) = Ok t'.
Proof.
  intros Hwf Hps. destruct (decide (slots = [])) as [->|Hne]; [by exists t|].
  pose proof (merge_sort_Permutation Z.le slots) as Hperm. set (sl := merge_sort Z.le slots) in *.
  assert (payload_slots t sl) as [Hnd Hsl].
  { destruct Hps as [Hnd Hs]. split; [by rewrite Hperm|]. intros s Hin. apply Hs. by rewrite <- Hperm. }
  destruct (protectedEpoch_spec t Hwf) as (t1 & Hpe & Hwf1 & Hst & Hct & Hpg & _).
  destruct (protectedEpoch_known t _ t1 Hwf Hpe) as [Hkn Hv].
  assert (forall x, desc t1 x = desc t x) as Hdesc.
  { intros x. unfold desc, read. by rewrite Hct, Hpg, Hst. }
  assert (forall x, dsc t1 x = dsc t x) as Hdsc by (intros x; unfold dsc; by rewrite Hdesc).
  destruct (retire_pages_spec (pe t) (length sl) None t1 sl) as (cp' & t' & Hrp & Hre & Hb').
  { by apply protected_batch. }
  { done. }
  { split; [done|]. intros s Hs. cbn [flush_cp]. rewrite Hdsc. auto. }
  { done. }
  cbn [flush_cp] in Hre. exists (flush_cp cp' t'). split.
  - unfold retirePayloads. destruct slots as [|s0 slots0]; [done|]. fold sl.
    rewrite check_payloads_ok; [|apply Sorted_merge_sort; intros x y; lia|done|].
    + cbn [res_bind]. rewrite Hpe. cbn [res_bind]. rewrite Hrp. cbn [res_bind].
      destruct cp' as [c|]; [|done]. unfold putCheckpoint, flush_cp.
      destruct (bt_cp _ _ _ Hb' c eq_refl) as [Hok _].
      by destruct (decodeCheckpoint_encode c Hok) as (bb & -> & _).
    + intros s Hs. split; [|done]. destruct (Hsl s Hs) as (d & Hd & _). by apply dsc_bound in Hd.
  - destruct sl as [|s sl']; [by apply Permutation_nil in Hperm|]. cbn [retire_each] in Hre |- *.
    destruct (Hsl s) as (d & Hd & Hk); [left|]. by rewrite <- (retire_known t t1 s d).
Qed.

Lemma retirePayloads_spec t slots : tx_wf t -> payload_slots t slots ->
  exists t', retirePayloads t slots = Ok t' /\ retired t slots t'.
Proof.
  intros Hwf Hps. destruct (retirePayloads_eq t slots Hwf Hps) as (t' & Hr & Hre). exists t'. split; [done|].
  pose proof (merge_sort_Permutation Z.le slots) as Hperm. destruct Hps as [Hnd Hs].
  destruct (retire_each_spec t (merge_sort Z.le slots) Hwf) as (t2 & Hre2 & Hrd).
  { split; [by rewrite Hperm|]. intros s Hin. apply Hs. by rewrite <- Hperm. }
  rewrite Hre in Hre2. injection Hre2 as <-. destruct Hrd as [Hfx Hnx Hroot Hgone Hoth].
  split; [|done|done| |]; [eapply fx_weaken; [exact Hfx|]| |]; intros x Hx.
  - by rewrite <- Hperm.
  - apply Hgone. by rewrite Hperm.
  - apply Hoth. by rewrite Hperm.
Qed.

(** Batched retirement is retirement: on a well-formed transaction whose
    removed payload slots are distinct data slots, [retirePayloads] succeeds, and
    its result is exactly the transaction obtained by retiring the slots one at a
    time in increasing order, although it rewrites each descriptor page and the
    protected checkpoint only once. *)
Theorem retirePayloads_each t slots :
  tx_wf t -> payload_slots t slots ->
  exists t', retirePayloads t slots = Ok t' /\ retire_each t (merge_sort Z.le slots) = Ok t'.
Proof. apply retirePayloads_eq. Qed.

Lemma demo_payloads : payload_slots demo_tx [1].
Proof.
  split; [apply NoDup_singleton|]. intros s Hs. apply list_elem_of_singleton in Hs as ->.
  exists (demo_desc 1). split; [apply demo_dsc; lia|done].
Qed.
Lemma retirePayloads_each_witness : exists t', retirePayloads demo_tx [1] = Ok t' /\
  retire_each demo_tx (merge_sort Z.le [1]) = Ok t'.
Proof. apply (retirePayloads_each demo_tx [1] demo_wf demo_payloads). Defined.
