(* ===== verification/TreeRemove.v ===== *)
(** * TreeRemove: removing a range from the version tree.

    Models [removeRange] and [unsetRange] of
    pkg/diffstore/internal/versioned/tree.go: the leaves lose the keys of the
    range, emptied nodes are retired, adjacent small siblings are compacted, a
    root with one child collapses, and the payload slots are retired in one
    batch (Retire.v). *)
From stdpp Require Import base numbers list gmap strings sorting.
From Stdlib Require Import ZArith Lia.
From S2P Require Import Prelude Page Presence Json Format Tree Tx Demo TreeWrite Retire.

(** ** Operations *)

(** The entries kept, whether anything changed, the payload slots removed. *)
Definition removal : Type := list entry * bool * list Z * transaction.

(** The loop over the children from [es] on; [prev] is the separator before them.
    Returns the collected entries and the children not visited. *)
Definition remove_each (child : transaction -> Z -> list Z -> dres removal) (end_ : Z) :=
  fix each (t : transaction) (prev : option Z) (es acc : list entry) (changed : bool)
      (payloads : list Z) : dres (list entry * removal) :=
    match es with
    | [] => Ok ([], (acc, changed, payloads, t))
    | e :: rest =>
        if match prev with Some p => end_ - 1 <=? p | None => false end
        then Ok (es, (acc, changed, payloads, t))
        else
          let* (children, childChanged, payloads, t) := child t (slot e) payloads in
          each t (Some (key e)) rest (acc ++ children) (changed || childChanged) payloads
    end.

(** The compaction loop.  Each round advances [i] or shortens [es]: the length of
    [es] is enough fuel. *)
Fixpoint compact (fuel : nat) (t : transaction) (es : list entry) (i affectedEnd : nat)
    : dres (list entry * transaction) :=
  match es !! i, es !! S i with
  | Some el, Some er =>
      if (i <? affectedEnd)%nat then
        match fuel with
        | O => Err (DiffErr "out of fuel")
        | S fuel =>
            let* nl := inspectNode (tx_reader t) (slot el) in
            let* nr := inspectNode (tx_reader t) (slot er) in
            if negb (Bool.eqb (leaf nl) (leaf nr)) then Err (DiffErr "inconsistent B+ levels")
            else if maxEntries <? Z.of_nat (length (entries nl) + length (entries nr))
            then compact fuel t es (S i) affectedEnd
            else
              let merged := mkNode (leaf nl) (entries nl ++ entries nr) in
              let* (s, t) := writable t (slot el) merged in
              let* t := retire t (slot er) in
              compact fuel (set_node s merged t)
                (take i es ++ mkEntry (max_key (entries merged)) s :: drop (S (S i)) es)
                i (affectedEnd - 1)
        end
      else Ok (es, t)
  | _, _ => Ok (es, t)
  end.

(** The end of [removeRange]: an emptied node is retired, another one stored. *)
Definition remove_finish (t : transaction) (root : Z) (lf : bool) (es : list entry)
    (payloads : list Z) : dres removal :=
  match es with
  | [] => let* t := retire t root in Ok ([], true, payloads, t)
  | _ =>
      let* (s, t) := writable t root (mkNode lf es) in
      Ok ([mkEntry (max_key es) s], true, payloads, set_node s (mkNode lf es) t)
  end.

Fixpoint removeRange (lv : nat) (t : transaction) (root start end_ : Z) (payloads : list Z)
    : dres removal :=
  if root =? 0 then Ok ([], false, payloads, t) else
  match lv with
  | O => Err errDepth
  | S lv =>
      let* n := inspectNode (tx_reader t) root in
      let es := entries n in
      let unchanged ps t := Ok ([mkEntry (max_key es) root], false, ps, t) in
      let first := search es start in
      if (first =? length es)%nat then unchanged payloads t
      else if leaf n then
        let last := search es end_ in
        if (first =? last)%nat then unchanged payloads t
        else remove_finish t root true (take first es ++ drop last es)
               (payloads ++ (slot <$> take (last - first) (drop first es)))
      else
        let prev := match first with O => None | S i => key <$> es !! i end in
        let* (rest, (acc, changed, payloads, t)) :=
          remove_each (fun t s ps => removeRange lv t s start end_ ps) end_
            t prev (drop first es) (take first es) false payloads in
        if negb changed then unchanged payloads t
        else
          let all := acc ++ rest in
          let* (es, t) := compact (length all) t all (first - 1) (length acc) in
          remove_finish t root false es payloads
  end.

(** The root collapse loop of [unsetRange].  Every round retires another slot. *)
Fixpoint collapse (fuel : nat) (t : transaction) : dres transaction :=
  let root := Root (t_ctrl t) in
  if root =? 0 then Ok t else
  let* n := inspectNode (tx_reader t) root in
  match leaf n, entries n with
  | false, [e] =>
      match fuel with
      | O => Err (DiffErr "out of fuel")
      | S fuel => let* t := retire (set_root (slot e) t) root in collapse fuel t
      end
  | _, _ => Ok t
  end.

Definition unsetRange (t : transaction) (start end_ : Z) : dres transaction :=
  if end_ <=? start then Ok t else
  let* (children, changed, payloads, t) := removeRange maxDepth t (Root (t_ctrl t)) start end_ [] in
  if negb changed then Ok t
  else
    let* t :=
      match children with
      | [] => Ok (set_root 0 t)
      | c :: _ => collapse (Z.to_nat (Next (t_ctrl t))) (set_root (slot c) t)
      end in
    retirePayloads t payloads.

(** ** The range *)

Definition in_range (start end_ : Z) (e : entry) : Prop := start <= key e < end_.
#[export] Instance in_range_dec start end_ e : Decision (in_range start end_ e) := _.
Definition removed (start end_ : Z) (l : list entry) : list entry := filter (in_range start end_) l.
Definition kept (start end_ : Z) (l : list entry) : list entry :=
  filter (fun e => ~ in_range start end_ e) l.

Lemma removed_app start end_ l1 l2 : removed start end_ (l1 ++ l2) = removed start end_ l1 ++ removed start end_ l2.
Proof. apply filter_app. Qed.
Lemma kept_app start end_ l1 l2 : kept start end_ (l1 ++ l2) = kept start end_ l1 ++ kept start end_ l2.
Proof. apply filter_app. Qed.
Lemma kept_sorted start end_ l : sorted l -> sorted (kept start end_ l).
Proof. apply sorted_filter. Qed.
Lemma outside_kept start end_ l : (forall x, x ∈ l -> key x < start \/ end_ <= key x) ->
  kept start end_ l = l /\ removed start end_ l = [].
Proof.
  intros H. split; [apply filter_all|apply filter_none]; intros x Hx; unfold in_range; specialize (H x Hx); lia.
Qed.
Lemma inside_removed start end_ l : (forall x, x ∈ l -> in_range start end_ x) ->
  removed start end_ l = l /\ kept start end_ l = [].
Proof. intros H. split; [apply filter_all; auto|apply filter_none; intros x Hx Hn; by apply Hn, H]. Qed.
Lemma removed_nil_kept start end_ l : removed start end_ l = [] -> kept start end_ l = l.
Proof.
  intros H. apply filter_all. intros x Hx Hin. assert (x ∈ removed start end_ l) as Hr.
  { by apply list_elem_of_filter. } rewrite H in Hr. by apply elem_of_nil in Hr.
Qed.
Lemma assoc_kept start end_ l k :
  assoc k (kept start end_ l) = if (start <=? k) && (k <? end_) then 0 else assoc k l.
Proof.
  destruct ((start <=? k) && (k <? end_)) eqn:E.
  - apply assoc_none. intros e He. apply list_elem_of_filter in He as [He _]. bool_prop. unfold in_range in He. lia.
  - apply assoc_filter. intros e <- [? ?]. apply andb_false_iff in E as [E|E]; bool_prop; lia.
Qed.

(** The leaf case: what lies between the two searches. *)
Lemma leaf_remove es start end_ : sorted es -> start < end_ ->
  let first := search es start in let last := search es end_ in
  (first <= last <= length es)%nat /\
  kept start end_ es = take first es ++ drop last es /\
  removed start end_ es = take (last - first) (drop first es).
Proof.
  intros Hs Hlt first last. destruct (search_spec es start Hs) as (Hf & Hfl & Hfh).
  destruct (search_spec es end_ Hs) as (Hl & Hll & Hlh). fold first in Hf, Hfl, Hfh. fold last in Hl, Hll, Hlh.
  assert (first <= last)%nat as Hle.
  { destruct (decide (last < first)%nat) as [Hn|]; [|lia].
    destruct (lookup_lt_is_Some_2 es last) as [e He]; [lia|].
    specialize (Hlh last e He ltac:(lia)). specialize (Hfl last e He Hn). lia. }
  split; [lia|].
  assert (es = take first es ++ take (last - first) (drop first es) ++ drop last es) as Hes.
  { rewrite <- (take_drop first es) at 1. f_equal. rewrite <- (take_drop (last - first) (drop first es)) at 1.
    f_equal. rewrite drop_drop. f_equal. lia. }
  destruct (outside_kept start end_ (take first es)) as [Ha Hb].
  { intros x Hx. left. apply list_elem_of_lookup in Hx as [i Hi]. apply lookup_take_Some in Hi as [Hi ?]. eauto. }
  destruct (outside_kept start end_ (drop last es)) as [Hc Hd].
  { intros x Hx. right. apply list_elem_of_lookup in Hx as [i Hi]. rewrite lookup_drop in Hi.
    eapply Hlh; [exact Hi|lia]. }
  destruct (inside_removed start end_ (take (last - first) (drop first es))) as [He Hg].
  { intros x Hx. apply list_elem_of_lookup in Hx as [i Hi]. apply lookup_take_Some in Hi as [Hi ?].
    rewrite lookup_drop in Hi. split; [eapply Hfh; [exact Hi|lia]|eapply Hll; [exact Hi|lia]]. }
  rewrite Hes at 1. rewrite !kept_app, Ha, Hg, Hc. split; [done|].
  rewrite Hes at 1. rewrite !removed_app, Hb, He, Hd. by rewrite app_nil_r.
Qed.

(** ** Replacing subtrees *)

(** Two disjoint subtrees replaced one after the other. *)
Lemma replaced_app t h f1 cs1 l1 t1 f2 cs2 l2 t2 :
  replaced t h f1 cs1 l1 t1 -> replaced t1 h f2 cs2 l2 t2 -> NoDup (f1 ++ f2) -> live t f2 ->
  replaced t h (f1 ++ f2) (cs1 ++ cs2) (l1 ++ l2) t2.
Proof.
  intros (g1 & Hfx1 & Hb1 & Hnd1 & Hl1 & Hs1) (g2 & Hfx2 & Hb2 & Hnd2 & Hl2 & Hs2) Hnd Hl.
  apply NoDup_app in Hnd as (_ & Hdis & _).
  assert (forall x, x ∈ g1 -> x ∉ f2) as H12.
  { intros x Hx Hx2. destruct (Hs1 x Hx) as [?|Hun]; [set_solver|]. by apply (live_unused t f2 x Hl). }
  assert (forall x, x ∈ g2 -> x ∉ g1) as H21.
  { intros x Hx Hx1. destruct (Hs2 x Hx) as [?|Hun]; [set_solver|]. by apply (live_unused t1 g1 x Hl1). }
  exists (g1 ++ g2). split_and!.
  - eapply fx_trans; [eapply fx_weaken; [exact Hfx1|]|exact Hfx2|]; set_solver.
  - apply body_app. exists l1, l2, g1, g2. split_and!; auto. by eapply fx_body.
  - apply NoDup_app. split_and!; auto. set_solver.
  - intros x Hx. apply elem_of_app in Hx as [Hx|Hx]; [|by apply Hl2].
    by apply (fx_live_keep _ _ _ _ Hfx2 Hl1 H12).
  - intros x Hx. apply elem_of_app in Hx as [Hx|Hx]; [set_solver|].
    destruct (Hs2 x Hx) as [?|Hun]; [set_solver|]. right. by eapply fx_unused.
Qed.
Lemma replaced_refl t h es l f : tx_wf t -> body (nd t) (S h) es l f -> NoDup f -> live t f ->
  replaced t h f es l t.
Proof. intros. exists f. split_and!; auto using fx_refl. Qed.

(** The end of a removal. *)
Lemma remove_finish_spec t root h es l f ps :
  tx_wf t -> live t [root] -> root ∉ f -> body (nd t) h es l f -> NoDup f -> live t f -> sorted l ->
  Forall (entry_in t) l -> (length es <= 255)%nat -> Next (t_ctrl t) <= maxSlot ->
  exists cs t', remove_finish t root (is_leaf h) es ps = Ok (cs, true, ps, t') /\
    replaced t h (root :: f) cs l t' /\ (length cs <= 1)%nat /\ Next (t_ctrl t') <= Next (t_ctrl t) + 1.
Proof.
  intros Hwf Hlr Hr Hb Hnd Hl Hso Hin Hlen Hroom. destruct (Hlr root) as (d & Hd & Hk); [left|].
  unfold remove_finish. destruct es as [|e es'].
  - destruct (retire_spec t root d Hwf Hd) as (t' & -> & Hrt); [by left|]. cbn [res_bind].
    assert (l = [] /\ f = []) as [-> ->].
    { destruct h; [by destruct Hb as [<- ->]|]. destruct Hb as (subs & Hf & -> & ->).
      by apply Forall2_nil_inv_l in Hf as ->. }
    exists [], t'. split; [done|]. split_and!; [|cbn; lia|rewrite (rt_next _ _ _ Hrt); lia].
    exists []. split_and!; [by apply fx_retire|by exists []|constructor|by intros ? ?%elem_of_nil|by intros ? ?%elem_of_nil].
  - set (es := e :: es') in *.
    destruct (body_node t h es l f (is_leaf h) Hwf Hb Hl Hin Hso) as [Hok Hni]; [unfold es in *; cbn in *; lia|].
    destruct (writable_spec t root d _ Hwf Hd Hk Hok Hni Hroom) as (s & t1 & -> & Hfx & Hown & Hs & Hnx).
    cbn [res_bind]. assert (forall x, x ∈ f -> x ∉ [root]) as Hdis by set_solver.
    assert (s ∉ f) as Hsf by (intros Hx; destruct Hs as [->|Hun]; [done|by apply (live_unused t f s Hl)]).
    exists [mkEntry (max_key es) s]. eexists. split; [done|]. split_and!; [|cbn; lia|cbn; lia].
    eapply (replaced_pre _ _ _ _ (s :: f)); [eapply fx_weaken; [exact Hfx|set_solver]| |set_solver].
    apply replaced_one; auto.
    + apply Hfx.
    + by eapply fx_body.
    + by eapply fx_live_keep.
    + eapply Forall_impl; [exact Hin|]. intros. by eapply fx_entry_in.
    + unfold es in *; cbn in *; lia.
Qed.

(** Merging two adjacent nodes of one level. *)
Lemma merge_spec t h sl sr esl esr l1 l2 g1 g2 :
  tx_wf t -> body (nd t) h esl l1 g1 -> body (nd t) h esr l2 g2 ->
  NoDup ((sl :: g1) ++ (sr :: g2)) -> live t ((sl :: g1) ++ (sr :: g2)) -> sorted (l1 ++ l2) ->
  Forall (entry_in t) (l1 ++ l2) -> (0 < length esl)%nat -> (length esl + length esr <= 255)%nat ->
  Next (t_ctrl t) <= maxSlot ->
  let merged := mkNode (is_leaf h) (esl ++ esr) in
  exists s t1 t2, writable t sl merged = Ok (s, t1) /\ retire t1 sr = Ok t2 /\
    replaced t h ((sl :: g1) ++ (sr :: g2)) [mkEntry (max_key (esl ++ esr)) s] (l1 ++ l2)
      (set_node s merged t2) /\ Next (t_ctrl t2) <= Next (t_ctrl t) + 1.
Proof.
  intros Hwf Hb1 Hb2 Hnd Hl Hso Hin Hne Hlen Hroom merged.
  assert (body (nd t) h (esl ++ esr) (l1 ++ l2) (g1 ++ g2)) as Hb by (apply body_app; eauto 10).
  assert (live t (g1 ++ g2)) as Hlg by (intros x Hx; apply Hl; set_solver).
  assert (NoDup (sl :: sr :: g1 ++ g2)) as Hnd'.
  { assert ((sl :: g1) ++ sr :: g2 ≡ₚ sl :: sr :: g1 ++ g2) as <- by (cbn; constructor; symmetry; apply Permutation_middle).
    done. }
  apply NoDup_cons in Hnd' as [Hsl Hnd']. apply NoDup_cons in Hnd' as [Hsr Hnd'].
  destruct (body_node t h (esl ++ esr) (l1 ++ l2) (g1 ++ g2) (is_leaf h) Hwf Hb Hlg Hin Hso) as [Hok Hni];
    [rewrite length_app; lia|].
  destruct (Hl sl) as (dl & Hdl & Hkl); [set_solver|]. destruct (Hl sr) as (dr & Hdr & Hkr); [set_solver|].
  destruct (writable_spec t sl dl _ Hwf Hdl Hkl Hok Hni Hroom) as (s & t1 & Hw & Hfx & Hown & Hs & Hnx).
  assert (live t1 (sr :: g1 ++ g2)) as Hl1.
  { eapply fx_live_keep; [exact Hfx| |set_solver]. intros x Hx. apply Hl. set_solver. }
  destruct (Hl1 sr) as (dr1 & Hdr1 & Hkr1); [left|].
  destruct (retire_spec t1 sr dr1 (fx_wf _ _ _ Hfx) Hdr1) as (t2 & Hr & Hrt); [by left|].
  pose proof (fx_retire _ _ _ (fx_wf _ _ _ Hfx) Hrt) as Hfx2.
  assert (s ∉ sr :: g1 ++ g2) as Hsn.
  { intros Hx. destruct Hs as [->|Hun]; [set_solver|].
    by apply (live_unused t ((sl :: g1) ++ (sr :: g2)) s Hl); [set_solver|]. }
  assert (tree_fx t ((sl :: g1) ++ (sr :: g2)) t2) as Hfx12.
  { eapply fx_trans; [eapply fx_weaken; [exact Hfx|set_solver]|exact Hfx2|set_solver]. }
  exists s, t1, t2. split; [done|]. split; [done|]. split; [|rewrite (rt_next _ _ _ Hrt); lia].
  eapply (replaced_pre _ _ _ _ (s :: g1 ++ g2)); [exact Hfx12| |].
  - apply replaced_one; auto.
    + apply Hfx2.
    + eapply fx_own; [exact Hfx2|done|set_solver].
    + eapply (fx_body t1); [exact Hfx2| |set_solver|]; [intros x Hx; apply Hl1; by right|].
      eapply (fx_body t); [exact Hfx|done|set_solver|done].
    + eapply fx_live_keep; [exact Hfx2| |set_solver]. intros x Hx. apply Hl1. by right.
    + set_solver.
    + eapply Forall_impl; [exact Hin|]. intros. by eapply (fx_entry_in t).
    + rewrite length_app. lia.
  - intros x Hx. destruct Hs as [->|Hun]; set_solver.
Qed.

Lemma replaced_middle t h f1 f2 f3 es1 es3 cs l1 l2 l3 t' :
  replaced t h f2 cs l2 t' -> body (nd t) (S h) es1 l1 f1 -> body (nd t) (S h) es3 l3 f3 ->
  NoDup (f1 ++ f2 ++ f3) -> live t (f1 ++ f3) ->
  replaced t h (f1 ++ f2 ++ f3) (es1 ++ cs ++ es3) (l1 ++ l2 ++ l3) t'.
Proof.
  intros Hr Hb1 Hb3 Hnd Hl. destruct (replaced_child _ _ _ _ _ _ _ _ _ _ _ _ Hr Hb1 Hb3 Hnd Hl)
    as (fp & ? & ? & ? & ?). destruct Hr as (_ & Hfx & _). exists fp. split_and!; auto.
  eapply fx_weaken; [exact Hfx|]. set_solver.
Qed.

Lemma compact_spec h fuel t es l f i ae :
  tx_wf t -> body (nd t) (S h) es l f -> NoDup f -> live t f -> sorted l ->
  (length es <= S (i + fuel))%nat -> Next (t_ctrl t) + Z.of_nat (length es) <= maxSlot + 2 ->
  exists es' t', compact fuel t es i ae = Ok (es', t') /\ replaced t h f es' l t' /\
    Next (t_ctrl t') + Z.of_nat (length es') <= Next (t_ctrl t) + Z.of_nat (length es) /\
    (length es' <= length es)%nat.
Proof.
  revert t es f i ae. induction fuel as [|fuel IH]; intros t es f i ae Hwf Hb Hnd Hl Hso Hf Hroom.
  all: assert (exists es' t', (Ok (es, t) : dres _) = Ok (es', t') /\ replaced t h f es' l t' /\
         Next (t_ctrl t') + Z.of_nat (length es') <= Next (t_ctrl t) + Z.of_nat (length es) /\
         (length es' <= length es)%nat) as Hstop
         by (exists es, t; split; [done|]; split; [by apply replaced_refl|lia]).
  all: cbn [compact]; destruct (es !! i) as [el|] eqn:Hel; [|done];
    (destruct (es !! S i) as [er|] eqn:Her; [|done]); apply lookup_lt_Some in Her as Hlt.
  { lia. }
  destruct (i <? ae)%nat; [|done].
  assert (es = take i es ++ [el; er] ++ drop (S (S i)) es) as Hes.
  { rewrite <- (take_drop_middle es i el Hel) at 1. f_equal. cbn. f_equal. symmetry. by apply drop_S in Her as ->. }
  assert (length (take i es) = i /\ length (drop (S (S i)) es) = length es - S (S i))%nat as [Hlt1 Hlt2]
    by (rewrite length_take, length_drop; lia).
  pose proof Hb as Hb0. rewrite Hes in Hb0. apply body_app in Hb0 as (la & lr & fa & fr & Hba & Hb0 & -> & ->).
  apply body_app in Hb0 as (lm & lc & fm & fc & Hbm & Hbc & -> & ->).
  apply (body_app _ _ [el] [er]) in Hbm as (l1 & l2 & f1 & f2 & Hb1 & Hb2 & -> & ->).
  apply body_one_inv in Hb1 as [Ht1 _]. apply body_one_inv in Hb2 as [Ht2 _].
  assert (sorted (l1 ++ l2)) as Hso12.
  { apply sorted_app in Hso as (_ & _ & Hso). by apply sorted_app in Hso as (_ & Hso & _). }
  assert (Forall (entry_in t) (l1 ++ l2)) as Hin12.
  { pose proof (body_entries _ _ _ _ _ Hwf Hb) as Hin. apply Forall_app in Hin as [_ Hin]. by apply Forall_app in Hin as [Hin _]. }
  apply tree_body in Ht1 as (_ & esl & g1 & Hn1 & Hne1 & Hbl & ->).
  apply tree_body in Ht2 as (_ & esr & g2 & Hn2 & Hne2 & Hbr & ->).
  rewrite (nd_of_Some _ _ _ Hn1), (nd_of_Some _ _ _ Hn2). cbn [res_bind leaf entries].
  rewrite Bool.eqb_reflx. cbn [negb].
  destruct (maxEntries <? _) eqn:Em; unfold maxEntries in Em; bool_prop; [apply IH; auto; lia|].
  assert (NoDup ((slot el :: g1) ++ slot er :: g2)) as Hnd12.
  { apply NoDup_app in Hnd as (_ & _ & Hnd). by apply NoDup_app in Hnd as (Hnd & _). }
  destruct (merge_spec t h (slot el) (slot er) esl esr l1 l2 g1 g2) as (s & t1 & t2 & -> & Hre & Hr & Hnx); auto;
    [intros x Hx; apply Hl; set_solver|destruct esl; [done|cbn; lia]|lia|lia|].
  cbn [res_bind]. rewrite Hre. cbn [res_bind entries].
  apply (replaced_middle t h fa _ fc (take i es) (drop (S (S i)) es) _ la _ lc) in Hr; auto;
    [|intros x Hx; apply Hl; set_solver].
  destruct Hr as (f3 & Hfx3 & Hb3 & Hnd3 & Hl3 & Hs3).
  destruct (IH _ _ _ i (ae - 1)%nat (fx_wf _ _ _ Hfx3) Hb3 Hnd3 Hl3 Hso) as (es' & t' & Hc & Hr' & Hn' & Hl').
  - rewrite !length_app, Hlt1. cbn [length]. lia.
  - cbn [t_ctrl set_node] in *. rewrite !length_app, Hlt1. cbn [length]. lia.
  - exists es', t'. split; [exact Hc|]. split; [by eapply replaced_pre|].
    cbn [t_ctrl set_node] in *. rewrite !length_app, Hlt1 in Hn', Hl'. cbn [length] in Hn', Hl'. lia.
Qed.

(** ** The recursive removal *)

Section range.
Context (start end_ : Z) (Hrange : start < end_).

(** What removing the range from a subtree yields. *)
Definition shrunk (t : transaction) (h : nat) (f : list Z) (l cs : list entry) (ch : bool)
    (t' : transaction) : Prop :=
  replaced t h f cs (kept start end_ l) t' /\ (length cs <= 1)%nat /\
  Next (t_ctrl t') + 1 <= Next (t_ctrl t) + 2 * Z.of_nat (length f) /\
  (ch = false -> t' = t /\ removed start end_ l = []).

(** The contract of a recursive call at height [h]. *)
Definition removes (h : nat) (child : transaction -> Z -> list Z -> dres removal) : Prop :=
  forall t root l f ps, tx_wf t -> tree (nd t) h root l f -> sorted l -> NoDup f -> live t f ->
  Next (t_ctrl t) + 2 * Z.of_nat (length f) <= maxSlot + 2 ->
  exists cs ch t', child t root ps = Ok (cs, ch, ps ++ (slot <$> removed start end_ l), t') /\
    shrunk t h f l cs ch t'.

Lemma body_length nd h es l f : body nd (S h) es l f -> (length es <= length f)%nat.
Proof.
  intros (subs & Hf & _ & ->). induction Hf as [|e p es subs [Ht _] Hf IH]; cbn; [lia|].
  apply tree_body in Ht as (_ & ? & ? & _ & _ & _ & ->). rewrite length_app. cbn. lia.
Qed.

Lemma remove_each_spec h child : removes h child -> forall es t prev acc ch ps l f,
  tx_wf t -> body (nd t) (S h) es l f -> sorted l -> NoDup f -> live t f ->
  (forall p x, prev = Some p -> x ∈ l -> p < key x) ->
  Next (t_ctrl t) + 2 * Z.of_nat (length f) <= maxSlot + 1 + Z.of_nat (length es) ->
  exists new rest ch' t',
    remove_each child end_ t prev es acc ch ps =
      Ok (rest, (acc ++ new, ch || ch', ps ++ (slot <$> removed start end_ l), t')) /\
    replaced t h f (new ++ rest) (kept start end_ l) t' /\ (length new + length rest <= length es)%nat /\
    Next (t_ctrl t') + Z.of_nat (length es) <= Next (t_ctrl t) + 2 * Z.of_nat (length f) /\
    (ch' = false -> t' = t /\ removed start end_ l = []).
Proof.
  intros Hchild es. induction es as [|e es IH]; intros t prev acc ch ps l f Hwf Hb Hso Hnd Hl Hprev Hroom.
  { destruct Hb as (subs & Hf & -> & ->). apply Forall2_nil_inv_l in Hf as ->.
    exists [], [], false, t. cbn. rewrite !app_nil_r, orb_false_r. split; [done|].
    split; [apply replaced_refl; auto; by exists []|]. split_and!; auto; lia. }
  cbn [remove_each].
  destruct (match prev with Some p => end_ - 1 <=? p | None => false end) eqn:Estop.
  { destruct prev as [p|]; [|done]. bool_prop.
    destruct (outside_kept start end_ l) as [Hk Hr].
    { intros x Hx. right. specialize (Hprev p x eq_refl Hx). lia. }
    pose proof (body_length _ _ _ _ _ Hb).
    exists [], (e :: es), false, t. rewrite Hk, Hr. cbn [app fmap list_fmap]. rewrite !app_nil_r, orb_false_r.
    split; [done|]. split; [by apply replaced_refl|]. split_and!; [cbn; lia|cbn in *; lia|done]. }
  apply (body_app _ _ [e]) in Hb as (l1 & l2 & f1 & f2 & Hb1 & Hb2 & -> & ->).
  apply body_one_inv in Hb1 as [Ht1 Hk1]. pose proof Hnd as (Hnd1 & Hdis & Hnd2)%NoDup_app.
  pose proof Hso as (Hlt & Hso1 & Hso2)%sorted_app.
  assert (live t f1 /\ live t f2) as [Hl1 Hl2] by (split; intros x Hx; apply Hl; set_solver).
  pose proof (body_length _ _ _ _ _ Hb2) as Hlen2. rewrite length_app in Hroom |- *. cbn [length] in *.
  destruct (Hchild t (slot e) l1 f1 ps) as (cs & ch1 & t1 & -> & Hr1 & Hcs & Hnx1 & Hch1); auto; [lia|].
  cbn [res_bind]. pose proof Hr1 as (_ & Hfx1 & _).
  destruct (IH t1 (Some (key e)) (acc ++ cs) (ch || ch1) (ps ++ (slot <$> removed start end_ l1)) l2 f2)
    as (new & rest & ch2 & t2 & -> & Hr2 & Hlen & Hnx2 & Hch2); auto.
  { apply Hfx1. }
  { eapply fx_body; [exact Hfx1|done|set_solver|done]. }
  { eapply fx_live_keep; [exact Hfx1|done|set_solver]. }
  { intros p x [= <-] Hx. destruct (last l1) as [y|] eqn:El; [|done]. injection Hk1 as <-.
    apply Hlt; [by apply last_elem_of|done]. }
  { lia. }
  exists (cs ++ new), rest, (ch1 || ch2), t2. rewrite removed_app, kept_app, fmap_app, <- !app_assoc, orb_assoc.
  split; [done|]. split; [by eapply replaced_app|]. split_and!; [rewrite length_app; lia|lia|].
  intros [E1 E2]%orb_false_iff. destruct (Hch1 E1) as [-> ->], (Hch2 E2) as [-> ->]. done.
Qed.

Lemma body_before nd h es l f k : body nd h es l f -> sorted l ->
  (forall e, e ∈ es -> key e < k) -> forall x, x ∈ l -> key x < k.
Proof.
  intros Hb Hso Hk x Hx. pose proof (body_last _ _ _ _ _ Hb) as Hlast.
  destruct (last es) as [e|] eqn:El; cbn in Hlast.
  - pose proof (sorted_last l (key e) x Hso (eq_sym Hlast) Hx). apply last_elem_of in El. specialize (Hk e El). lia.
  - destruct (last l) eqn:El2; [done|]. apply last_None in El2 as ->. by apply elem_of_nil in Hx.
Qed.
Lemma unchanged_ok t h root l f es f' : tx_wf t -> tree (nd t) h root l f -> NoDup f -> live t f ->
  es <> [] -> body (nd t) h es l f' -> removed start end_ l = [] -> (0 < length f)%nat ->
  shrunk t h f l [mkEntry (max_key es) root] false t.
Proof.
  intros Hwf Ht Hnd Hl Hne Hb Hr Hf. unfold shrunk. rewrite removed_nil_kept by done.
  split_and!; auto; [|cbn; lia]. apply replaced_refl; auto. apply body_one; [done|].
  eapply max_key_body; [done|exact Hb].
Qed.
(** What precedes and follows the first child the range can touch. *)
Lemma split_first nd h es l f : body nd (S h) es l f -> sorted l ->
  exists l1 l2 f1 f2, body nd (S h) (take (search es start) es) l1 f1 /\
    body nd (S h) (drop (search es start) es) l2 f2 /\ l = l1 ++ l2 /\ f = f1 ++ f2 /\
    (forall x, x ∈ l1 -> key x < start) /\
    (forall p x, match search es start with O => None | S i => key <$> es !! i end = Some p ->
       x ∈ l2 -> p < key x).
Proof.
  intros Hb Hso. pose proof (body_sorted _ _ _ _ _ Hb Hso) as Hes.
  destruct (search_split es start Hes) as [Hlo _].
  destruct (search_spec es start Hes) as [Hle _]. revert Hlo Hle.
  generalize (search es start) as i. intros i Hlo Hle.
  rewrite <- (take_drop i es) in Hb at 1. apply body_app in Hb as (l1 & l2 & f1 & f2 & Hb1 & Hb2 & -> & ->).
  exists l1, l2, f1, f2. apply sorted_app in Hso as (Hlt & Hso1 & Hso2). split_and!; auto.
  - by eapply body_before.
  - intros p x Hp Hx. destruct i as [|i]; [done|].
    assert (key <$> last l1 = Some p) as Hl1.
    { rewrite <- (body_last _ _ _ _ _ Hb1), last_lookup, length_take.
      replace (Nat.pred (S i `min` length es)) with i by lia. by rewrite lookup_take_lt by lia. }
    destruct (last l1) as [y|] eqn:Ey; [|done]. injection Hl1 as <-. apply Hlt; [by apply last_elem_of|done].
Qed.
End range.

(** The inner case: visit, compact, store. *)
Lemma remove_inner start end_ h child t root es l f ps :
  start < end_ -> removes start end_ h child -> tx_wf t -> tree (nd t) (S h) root l (root :: f) ->
  nd t root = Some (mkNode false es) -> body (nd t) (S h) es l f -> sorted l -> NoDup (root :: f) ->
  live t (root :: f) -> (length es <= 255)%nat -> es <> [] ->
  Next (t_ctrl t) + 2 * Z.of_nat (length (root :: f)) <= maxSlot + 2 ->
  let first := search es start in
  exists cs ch t', (
    let prev := match first with O => None | S i => key <$> es !! i end in
    let* (rest, (acc, changed, payloads, t)) :=
      remove_each child end_ t prev (drop first es) (take first es) false ps in
    if negb changed then Ok ([mkEntry (max_key es) root], false, payloads, t)
    else
      let all := acc ++ rest in
      let* (es, t) := compact (length all) t all (first - 1) (length acc) in
      remove_finish t root false es payloads)
    = Ok (cs, ch, ps ++ (slot <$> removed start end_ l), t') /\
    shrunk start end_ t (S h) (root :: f) l cs ch t'.
Proof.
  intros Hrange Hchild Hwf Ht Hn Hb Hso Hnd Hl Hlen Hne Hroom first. cbn zeta.
  destruct (split_first start (nd t) h es l f Hb Hso) as (l1 & l2 & f1 & f2 & Hb1 & Hb2 & -> & -> & Hlt & Hprev).
  fold first in Hb1, Hb2, Hprev. pose proof Hnd as [Hrf Hndf]%NoDup_cons.
  pose proof Hndf as (Hnd1 & Hdis & Hnd2)%NoDup_app. pose proof Hso as (_ & Hso1 & Hso2)%sorted_app.
  assert (live t f1 /\ live t f2 /\ live t [root]) as (Hl1 & Hl2 & Hlr)
    by (split_and!; intros x Hx; apply Hl; set_solver).
  pose proof (body_length _ _ _ _ _ Hb1) as Hlen1. pose proof (body_length _ _ _ _ _ Hb2) as Hlen2.
  cbn [length] in Hroom. rewrite length_app in Hroom.
  destruct (outside_kept start end_ l1) as [Hk1 Hr1]; [intros x Hx; left; by apply Hlt|].
  destruct (remove_each_spec start end_ Hrange h child Hchild (drop first es) t
    (match first with O => None | S i => key <$> es !! i end) (take first es) false ps l2 f2)
    as (new & rest & ch & t1 & -> & Hrep & Hlr' & Hnx1 & Hch); auto; [lia|].
  cbn [res_bind orb]. rewrite removed_app, Hr1. cbn [app].
  destruct ch; cbn [negb].
  2:{ destruct (Hch eq_refl) as [-> Hr2]. exists [mkEntry (max_key es) root], false, t. split; [done|].
      eapply unchanged_ok; eauto; [|cbn; lia]. by rewrite removed_app, Hr1, Hr2. }
  assert (replaced t h (f1 ++ f2) ((take first es ++ new) ++ rest) (kept start end_ (l1 ++ l2)) t1) as Hrep1.
  { pose proof (replaced_middle t h f1 f2 [] (take first es) [] (new ++ rest) l1 _ [] t1 Hrep Hb1) as Hm.
    rewrite !app_nil_r in Hm. rewrite <- app_assoc, kept_app, Hk1. apply Hm; auto. by exists []. }
  destruct Hrep1 as (f3 & Hfx1 & Hb3 & Hnd3 & Hl3 & Hs3). pose proof (kept_sorted start end_ _ Hso) as Hsk.
  assert (length ((take first es ++ new) ++ rest) <= length (take first es) + length (drop first es))%nat
    as Hall by (rewrite !length_app; lia).
  assert (length (take first es) + length (drop first es) = length es)%nat as Htd
    by (rewrite length_take, length_drop; lia).
  destruct (compact_spec h (length ((take first es ++ new) ++ rest)) t1 _ _ f3 (first - 1) (length (take first es ++ new))
    (fx_wf _ _ _ Hfx1) Hb3 Hnd3 Hl3 Hsk) as (es2 & t2 & -> & Hrep2 & Hnx2 & Hlen2'); [lia|lia|].
  cbn [res_bind]. destruct Hrep2 as (f4 & Hfx2 & Hb4 & Hnd4 & Hl4 & Hs4).
  assert (tree_fx t (f1 ++ f2) t2) as Hfx12 by (by eapply fx_trans).
  assert (forall x, x ∈ f4 -> x ∈ f1 ++ f2 \/ unused t x) as Hsub.
  { intros x Hx. destruct (Hs4 x Hx) as [?|Hun]; [by apply Hs3|]. right. exact (fx_unused _ _ _ _ Hfx1 Hun). }
  destruct (remove_finish_spec t2 root (S h) es2 (kept start end_ (l1 ++ l2)) f4 (ps ++ (slot <$> removed start end_ l2)))
    as (cs & t3 & Hfin & Hrep3 & Hcs & Hnx3); auto; [apply Hfx12| | | |lia|lia|].
  { eapply fx_live_keep; [exact Hfx12|done|set_solver]. }
  { intros Hx. destruct (Hsub root Hx) as [?|Hun]; [done|]. by apply (live_unused t [root] root Hlr); [left|]. }
  { eapply body_entries; [apply Hfx12|exact Hb4]. }
  exists cs, true, t3. split; [exact Hfin|]. split_and!; [|done|cbn [length]; rewrite length_app; lia|done].
  eapply (replaced_pre _ _ t2); [eapply fx_weaken; [exact Hfx12|set_solver]|exact Hrep3|].
  intros x Hx. apply elem_of_cons in Hx as [->|Hx]; [left; left|]. destruct (Hsub x Hx); [left; by right|by right].
Qed.

Lemma removeRange_spec start end_ h lv : start < end_ -> (h < lv)%nat ->
  removes start end_ h (fun t s ps => removeRange lv t s start end_ ps).
Proof.
  intros Hrange. revert lv. induction h as [|h IH]; intros lv Hlv t root l f ps Hwf Ht Hso Hnd Hl Hroom;
    (destruct lv as [|lv]; [lia|]); pose proof Ht as Ht0;
    apply tree_body in Ht0 as (Hr & es & f' & Hn & Hne & Hb & ->);
    destruct (nd_ok t root _ Hwf Hn) as ((Hlen & _) & _); cbn [entries is_leaf] in *;
    cbn [removeRange]; rewrite (proj2 (Z.eqb_neq root 0)) by lia;
    rewrite (nd_of_Some _ _ _ Hn); cbn [res_bind entries leaf];
    pose proof (body_sorted _ _ _ _ _ Hb Hso) as Hes; destruct (search_split es start Hes) as [Hlo _];
    (destruct (search es start =? length es)%nat eqn:Efirst;
      [apply Nat.eqb_eq in Efirst; rewrite Efirst, take_ge in Hlo by lia;
       destruct (outside_kept start end_ l) as [_ Hrm];
         [intros x Hx; left; by eapply body_before|];
       exists [mkEntry (max_key es) root], false, t; rewrite Hrm; cbn; rewrite app_nil_r; split; [done|];
       eapply unchanged_ok; eauto; cbn; lia|]).
  - destruct Hb as [-> ->]. destruct (leaf_remove l start end_ Hso Hrange) as (Hle & Hkept & Hrem).
    destruct (search l start =? search l end_)%nat eqn:E.
    + apply Nat.eqb_eq in E. rewrite E, Nat.sub_diag, take_0 in Hrem.
      exists [mkEntry (max_key l) root], false, t. rewrite Hrem. cbn. rewrite app_nil_r. split; [done|].
      eapply unchanged_ok; eauto; try (cbn; lia); by split.
    + rewrite <- Hkept, <- Hrem. cbn [length] in Hroom.
      destruct (remove_finish_spec t root 0 (kept start end_ l) (kept start end_ l) []
        (ps ++ (slot <$> removed start end_ l))) as (cs & t' & Hfin & Hrep & Hcs & Hnx); auto;
        [apply not_elem_of_nil|done|constructor|by intros ? ?%elem_of_nil|by apply kept_sorted| | |lia|].
      * pose proof (tree_entries _ _ _ _ _ Hwf Ht) as Hin. apply Forall_forall. intros x Hx.
        apply list_elem_of_filter in Hx as [_ Hx]. rewrite Forall_forall in Hin. auto.
      * pose proof (length_filter (fun e => ~ in_range start end_ e) l). unfold kept. lia.
      * exists cs, true, t'. split; [exact Hfin|]. split_and!; auto; [cbn; lia|done].
  - apply (remove_inner start end_ h (fun t s ps => removeRange lv t s start end_ ps)); auto; [apply IH; lia|lia].
Qed.

(** ** [unsetRange] *)

Lemma tree_height nd h s l f : tree nd h s l f -> (h < length f)%nat.
Proof.
  revert s l f. induction h as [|h IH]; intros s l f (_ & Ht).
  - destruct Ht as (_ & _ & ->). cbn. lia.
  - destruct Ht as (es & subs & _ & Hne & Hf & _ & ->). destruct Hf as [|e p es subs [Ht _] _]; [done|].
    apply IH in Ht. cbn. rewrite length_app. lia.
Qed.
(** Distinct allocated slots are fewer than [Next]. *)
Lemma live_length t f : tx_wf t -> NoDup f -> live t f -> Z.of_nat (length f) < Next (t_ctrl t).
Proof.
  intros Hwf Hnd Hl. pose proof (w_next t Hwf).
  assert (f ⊆+ seqZ 1 (Next (t_ctrl t) - 1)) as Hsub.
  { apply NoDup_submseteq; [done|]. intros x Hx. destruct (Hl x Hx) as (d & Hd & _).
    apply dsc_bound in Hd. apply elem_of_seqZ. lia. }
  apply submseteq_length in Hsub. rewrite length_seqZ in Hsub. lia.
Qed.

Lemma collapse_spec fuel t h l f :
  tx_wf t -> tree (nd t) h (Root (t_ctrl t)) l f -> NoDup f -> live t f -> (h <= fuel)%nat ->
  exists t' h' f', collapse fuel t = Ok t' /\ tree_fx t f t' /\ (h' <= h)%nat /\
    tree (nd t') h' (Root (t_ctrl t')) l f' /\ NoDup f' /\ live t' f' /\ (forall x, x ∈ f' -> x ∈ f) /\
    Next (t_ctrl t') = Next (t_ctrl t).
Proof.
  revert t h l f. induction fuel as [|fuel IH]; intros t h l f Hwf Ht Hnd Hl Hh.
  all: assert (exists t' h' f', (Ok t : dres _) = Ok t' /\ tree_fx t f t' /\ (h' <= h)%nat /\
    tree (nd t') h' (Root (t_ctrl t')) l f' /\ NoDup f' /\ live t' f' /\ (forall x, x ∈ f' -> x ∈ f) /\
    Next (t_ctrl t') = Next (t_ctrl t)) as Hstop
    by (exists t, h, f; split_and!; auto using fx_refl).
  all: pose proof Ht as Ht0; apply tree_body in Ht0 as (Hr & es & f' & Hn & Hne & Hb & ->);
    cbn [collapse]; rewrite (proj2 (Z.eqb_neq _ 0)) by lia; rewrite (nd_of_Some _ _ _ Hn);
    cbn [res_bind leaf entries]; (destruct h as [|h]; cbn [is_leaf]; [done|]).
  { lia. }
  destruct es as [|e [|e2 es]]; [done| |done].
  apply body_one_inv in Hb as [Ht1 _]. apply NoDup_cons in Hnd as [Hrn Hnd].
  assert (live t f') as Hl' by (intros x Hx; apply Hl; by right).
  destruct (tree_live_root _ _ _ _ _ Ht1 Hl') as (de & Hde & _).
  destruct (Hl (Root (t_ctrl t))) as (d & Hd & Hk); [left|].
  pose proof (fx_set_root t (slot e) Hwf (slot_u64 _ _ _ Hwf Hde)) as Hfx0.
  destruct (retire_spec (set_root (slot e) t) (Root (t_ctrl t)) d (fx_wf _ _ _ Hfx0) Hd) as (t1 & -> & Hrt);
    [by left|]. cbn [res_bind].
  pose proof (fx_retire _ _ _ (fx_wf _ _ _ Hfx0) Hrt) as Hfx1.
  assert (tree_fx t [Root (t_ctrl t)] t1) as Hfx.
  { eapply fx_trans; [eapply fx_weaken; [exact Hfx0|set_solver]|exact Hfx1|auto]. }
  assert (forall x, x ∈ f' -> x ∉ [Root (t_ctrl t)]) as Hdis by set_solver.
  assert (Root (t_ctrl t1) = slot e) as Hroot by apply (rt_ctrl _ _ _ Hrt).
  destruct (IH t1 h l f') as (t2 & h2 & f2 & Hc & Hfx2 & Hh2 & Ht2 & Hnd2 & Hl2 & Hs2 & Hnx2); auto.
  - apply Hfx.
  - rewrite Hroot. eapply tree_ext; [|exact Ht1]. intros x n Hx. destruct (Hl' x Hx) as (dx & Hdx & Hkx).
    apply (fx_nd _ _ _ Hfx x dx); [done|by rewrite Hkx|by rewrite Hkx|left; by apply Hdis].
  - by eapply fx_live_keep.
  - lia.
  - exists t2, h2, f2. split; [exact Hc|]. split_and!; auto.
    + eapply fx_trans; [eapply fx_weaken; [exact Hfx|set_solver]|exact Hfx2|set_solver].
    + set_solver.
    + rewrite Hnx2. apply (rt_next _ _ _ Hrt).
Qed.

(** Payload slots outside the footprint are untouched. *)
Lemma fx_payload t fp t' slots : tree_fx t fp t' -> (forall x, x ∈ slots -> x ∉ fp) ->
  payload_slots t slots -> payload_slots t' slots.
Proof.
  intros Hfx Hdis [Hnd Hs]. split; [done|]. intros s Hin. destruct (Hs s Hin) as (d & Hd & Hk).
  destruct (fx_live _ _ _ Hfx s d Hd) as (d' & Hd' & _ & Hc); [by rewrite Hk|]. exists d'. split; [done|].
  destruct Hc as [->|[Hx _]]; [done|]. by destruct (Hdis s Hin).
Qed.
Lemma live_not_payload t f slots : live t f -> payload_slots t slots -> forall x, x ∈ slots -> x ∉ f.
Proof.
  intros Hl [_ Hs] x Hx Hf. destruct (Hl x Hf) as (d & Hd & Hk), (Hs x Hx) as (d' & Hd' & Hk').
  simplify_eq. by rewrite Hk in Hk'.
Qed.
Lemma payload_sub t l l' : payload_slots t (slot <$> l) -> l' `sublist_of` l -> payload_slots t (slot <$> l').
Proof.
  intros [Hnd Hs] Hsub.
  assert ((slot <$> l') `sublist_of` (slot <$> l)) as Hsub' by (clear Hs Hnd; induction Hsub; cbn; by constructor).
  split; [by eapply sublist_NoDup|]. intros s Hin. apply Hs. by eapply elem_of_sublist.
Qed.
(** Distinct slots: what is kept and what is removed do not meet. *)
Lemma kept_removed_slots start end_ l : NoDup (slot <$> l) ->
  forall x, x ∈ slot <$> kept start end_ l -> x ∉ slot <$> removed start end_ l.
Proof.
  intros Hnd x Hk Hr. apply list_elem_of_fmap in Hk as (a & -> & Ha), Hr as (b & Hab & Hb).
  apply list_elem_of_filter in Ha as [Hna Ha], Hb as [Hnb Hb].
  assert (a = b) as ->; [|done].
  apply list_elem_of_lookup in Ha as [i Hi], Hb as [j Hj].
  assert (i = j) as ->; [|congruence].
  eapply NoDup_lookup; [exact Hnd| |]; rewrite list_lookup_fmap, ?Hi, ?Hj; cbn; [done|by rewrite Hab].
Qed.

(** After the tree change: the payload slots are retired in one batch. *)
Lemma unset_finish t0 fp t1 start end_ levels l f1 :
  tree_fx t0 fp t1 -> live t0 fp -> payload_slots t0 (slot <$> l) ->
  mapping t1 levels (Root (t_ctrl t1)) (kept start end_ l) f1 ->
  exists t', retirePayloads t1 (slot <$> removed start end_ l) = Ok t' /\
    tree_fx t0 (fp ++ (slot <$> removed start end_ l)) t' /\
    mapping t' levels (Root (t_ctrl t')) (kept start end_ l) f1 /\
    payload_slots t' (slot <$> kept start end_ l) /\ Next (t_ctrl t') = Next (t_ctrl t1).
Proof.
  intros Hfx Hl Hps [Hm Hso Hnd Hlm].
  pose proof (fx_payload _ _ _ _ Hfx (live_not_payload _ _ _ Hl Hps) Hps) as Hps1.
  pose proof (payload_sub _ _ _ Hps1 (sublist_filter (in_range start end_) l)) as Hpr.
  pose proof (payload_sub _ _ _ Hps1 (sublist_filter (fun e => ~ in_range start end_ e) l)) as Hpk.
  destruct (retirePayloads_spec t1 _ (fx_wf _ _ _ Hfx) Hpr) as (t' & Hr & Hrd).
  pose proof (rd_fx _ _ _ Hrd) as Hfx1.
  assert (forall x, x ∈ f1 -> x ∉ slot <$> removed start end_ l) as Hdis.
  { intros x Hx Hx'. by apply (live_not_payload _ _ _ Hlm Hpr x). }
  exists t'. split; [done|]. rewrite (rd_root _ _ _ Hrd). split_and!.
  - eapply fx_trans; [eapply fx_weaken; [exact Hfx|]|exact Hfx1|]; set_solver.
  - split; auto; [|by eapply fx_live_keep]. destruct Hm as [?|(h & Hh & Ht)]; [by left|]. right. exists h.
    split; [done|]. eapply tree_ext; [|exact Ht]. intros x n Hx. destruct (Hlm x Hx) as (dx & Hdx & Hkx).
    apply (fx_nd _ _ _ Hfx1 x dx); [done|by rewrite Hkx|by rewrite Hkx|left; by apply Hdis].
  - eapply fx_payload; [exact Hfx1| |done]. apply kept_removed_slots. apply Hps.
  - apply Hrd.
Qed.

Lemma unsetRange_spec t levels l fp start end_ :
  tx_wf t -> mapping t levels (Root (t_ctrl t)) l fp -> (levels <= maxDepth)%nat ->
  payload_slots t (slot <$> l) -> Next (t_ctrl t) + 2 * Z.of_nat (length fp) <= maxSlot + 2 ->
  start < end_ ->
  exists t' fp', unsetRange t start end_ = Ok t' /\
    tree_fx t (fp ++ (slot <$> removed start end_ l)) t' /\
    mapping t' levels (Root (t_ctrl t')) (kept start end_ l) fp' /\
    payload_slots t' (slot <$> kept start end_ l) /\
    (forall x, x ∈ fp' -> x ∈ fp \/ unused t x) /\
    Next (t_ctrl t') <= Next (t_ctrl t) + 2 * Z.of_nat (length fp).
Proof.
  intros Hwf Hm Hlv Hps Hroom Hrange. unfold unsetRange. rewrite (proj2 (Z.leb_gt _ _)) by lia.
  pose proof Hm as [Htree Hso Hnd Hl].
  assert (removed start end_ l = [] -> exists t' fp', (Ok t : dres _) = Ok t' /\
    tree_fx t (fp ++ (slot <$> removed start end_ l)) t' /\
    mapping t' levels (Root (t_ctrl t')) (kept start end_ l) fp' /\
    payload_slots t' (slot <$> kept start end_ l) /\
    (forall x, x ∈ fp' -> x ∈ fp \/ unused t x) /\
    Next (t_ctrl t') <= Next (t_ctrl t) + 2 * Z.of_nat (length fp)) as Hsame.
  { intros Hr. exists t, fp. rewrite removed_nil_kept by done. split_and!; auto using fx_refl; lia. }
  destruct Htree as [(Hr0 & -> & ->)|(h & Hh & Ht)].
  { rewrite Hr0. change maxDepth with (S 7). cbn [removeRange]. rewrite Z.eqb_refl. cbn [res_bind negb]. by apply Hsame. }
  destruct (removeRange_spec start end_ h maxDepth Hrange ltac:(lia) t _ l fp [] Hwf Ht Hso Hnd Hl Hroom)
    as (cs & ch & t1 & -> & Hrep & Hcs & Hnx & Hch). cbn [res_bind app].
  destruct ch; cbn [negb]; [|destruct (Hch eq_refl) as [-> Hr]; by apply Hsame].
  destruct Hrep as (f1 & Hfx & Hb & Hnd1 & Hl1 & Hs1). pose proof (kept_sorted start end_ l Hso) as Hsk.
  assert (exists t2 f2, match cs with [] => Ok (set_root 0 t1)
      | c :: _ => collapse (Z.to_nat (Next (t_ctrl t1))) (set_root (slot c) t1) end = Ok t2 /\
    tree_fx t fp t2 /\ mapping t2 levels (Root (t_ctrl t2)) (kept start end_ l) f2 /\
    (forall x, x ∈ f2 -> x ∈ fp \/ unused t x) /\ Next (t_ctrl t2) = Next (t_ctrl t1))
    as (t2 & f2 & -> & Hfx2 & Hm2 & Hs2 & Hnx2).
  { destruct cs as [|c [|]]; [| |cbn in Hcs; lia].
    - exists (set_root 0 t1), []. destruct Hb as (subs & Hf & Hk & Hf1). apply Forall2_nil_inv_l in Hf as ->.
      split; [done|]. split_and!; [|split; auto|set_solver|done].
      + eapply fx_trans; [exact Hfx|apply fx_set_root; [apply Hfx|unfold is_u64; lia]|set_solver].
      + constructor.
      + by intros ? ?%elem_of_nil.
    - apply body_one_inv in Hb as [Ht1 _]. destruct (tree_live_root _ _ _ _ _ Ht1 Hl1) as (d & Hd & _).
      pose proof (fx_set_root t1 (slot c) (fx_wf _ _ _ Hfx) (slot_u64 _ _ _ (fx_wf _ _ _ Hfx) Hd)) as Hfxr.
      pose proof (tree_height _ _ _ _ _ Ht1). pose proof (live_length t1 f1 (fx_wf _ _ _ Hfx) Hnd1 Hl1).
      destruct (collapse_spec (Z.to_nat (Next (t_ctrl t1))) (set_root (slot c) t1) h (kept start end_ l) f1)
        as (t2 & h2 & f2 & -> & Hfx2 & Hh2 & Ht2 & Hnd2 & Hl2 & Hsub2 & Hnx2); auto; [apply Hfxr|lia|].
      exists t2, f2. split; [done|]. split_and!; [|split; auto|auto|done].
      + eapply fx_trans; [eapply fx_trans; [exact Hfx|exact Hfxr|set_solver]|exact Hfx2|done].
      + right. exists h2. split; [lia|done]. }
  cbn [res_bind].
  destruct (unset_finish t fp t2 start end_ levels l f2 Hfx2 Hl Hps Hm2) as (t' & -> & Hfx' & Hm' & Hp' & Hnx').
  exists t', f2. split_and!; auto. lia.
Qed.

(** C39 — Removing a range: on a well-formed transaction whose mapped slots are
    distinct data slots, [unsetRange] succeeds, the result is well-formed, a
    lookup finds nothing inside the range and the old answer outside it, the
    payload slots that are still mapped are still data slots, and the tree of
    every retained checkpoint still holds exactly what it held. *)
Theorem unsetRange_removes t levels l fp start end_ :
  tx_wf t -> mapping t levels (Root (t_ctrl t)) l fp -> (levels <= maxDepth)%nat ->
  payload_slots t (slot <$> l) -> Next (t_ctrl t) + 2 * Z.of_nat (length fp) <= maxSlot + 2 ->
  start < end_ ->
  exists t' fp', unsetRange t start end_ = Ok t' /\ tx_wf t' /\
    mapping t' levels (Root (t_ctrl t')) (kept start end_ l) fp' /\
    payload_slots t' (slot <$> kept start end_ l) /\
    (forall k, lookup (tx_reader t') (Root (t_ctrl t')) k =
               Ok (if (start <=? k) && (k <? end_) then 0 else assoc k l)) /\
    (forall r l', retained t r l' -> retained t' r l').
Proof.
  intros Hwf Hm Hlv Hps Hroom Hr.
  destruct (unsetRange_spec t levels l fp start end_ Hwf Hm Hlv Hps Hroom Hr)
    as (t' & fp' & Hu & Hfx & Hm' & Hp' & _).
  exists t', fp'. split_and!; auto; [apply Hfx| |].
  - intros k. rewrite (mapping_lookup _ _ _ _ _ k Hm') by lia. by rewrite assoc_kept.
  - intros r l'. eapply fx_retained, Hfx.
Qed.

Lemma unsetRange_removes_witness : exists t', unsetRange demo_tx 3 9 = Ok t' /\
  lookup (tx_reader t') (Root (t_ctrl t')) 5 = Ok 0 /\ retained t' 2 [mkEntry 5 1].
Proof.
  destruct (unsetRange_removes demo_tx 1 [mkEntry 5 1] [2] 3 9) as (t' & fp' & Hs & _ & _ & _ & Hl & Hr).
  - apply demo_wf.
  - exact demo_mapping.
  - unfold maxDepth. lia.
  - exact demo_payloads.
  - rewrite maxSlot_val. cbn. lia.
  - lia.
  - exists t'. split; [exact Hs|]. split; [exact (Hl 5)|]. apply Hr, demo_retained.
Defined.
