(* ===== verification/Sha256.v ===== *)
(** * Sha256: the digest of crypto/sha256 that seals the redo log.

    The standard algorithm on lists of byte values; the commit protocol only
    relies on its being a function of the bytes with a 32-byte result. *)
From stdpp Require Import base numbers list.
From Stdlib Require Import ZArith Lia.
From S2P Require Import Prelude.

Definition w32 (x : Z) : Z := x mod 2 ^ 32.
Definition rotr (n x : Z) : Z := Z.lor (Z.shiftr x n) (w32 (Z.shiftl x (32 - n))).
Definition not32 (x : Z) : Z := 2 ^ 32 - 1 - x.

(** The constants of FIPS 180-4, from their definition: the first 32 bits of the
    fractional parts of the cube roots of the first 64 primes (rounds) and of the
    square roots of the first eight (initial state). *)
Definition is_prime (n : Z) : bool :=
  forallb (fun d => negb (n mod Z.of_nat d =? 0)) (seq 2 (Z.to_nat n - 2)).
Definition primes (bound : nat) : list Z := filter (fun n => is_prime n = true) (Z.of_nat <$> seq 2 bound).
(** The largest [r] below [2 ^ bits] with [r ^ 3 <= n], one bit at a time. *)
Fixpoint cube_root (bits : nat) (n r : Z) : Z :=
  match bits with
  | O => r
  | S b => let r' := r + 2 ^ Z.of_nat b in cube_root b n (if r' ^ 3 <=? n then r' else r)
  end.
Definition sha_k : list Z :=
  Eval vm_compute in (fun p => w32 (cube_root 36 (p * 2 ^ 96) 0)) <$> primes 310.
Definition sha_h0 : list Z :=
  Eval vm_compute in (fun p => w32 (Z.sqrt (p * 2 ^ 64))) <$> take 8 (primes 310).
Lemma sha_constants : length sha_k = 64%nat /\ length sha_h0 = 8%nat.
Proof. done. Qed.

(** The 16 big-endian words of a block, and the 48 that extend them. *)
Fixpoint be_words (n : nat) (b : list Z) : list Z :=
  match n with O => [] | S n => be_val (take 4 b) :: be_words n (drop 4 b) end.
Definition sha_extend (w : list Z) : list Z :=
  let n := length w in
  let at_ i := default 0 (w !! (n - i)%nat) in
  let s0 := let x := at_ 15%nat in Z.lxor (rotr 7 x) (Z.lxor (rotr 18 x) (Z.shiftr x 3)) in
  let s1 := let x := at_ 2%nat in Z.lxor (rotr 17 x) (Z.lxor (rotr 19 x) (Z.shiftr x 10)) in
  w ++ [w32 (at_ 16%nat + s0 + at_ 7%nat + s1)].

Definition sha_round (st : list Z) (kw : Z * Z) : list Z :=
  match st with
  | [a; b; c; d; e; f; g; h] =>
      let s1 := Z.lxor (rotr 6 e) (Z.lxor (rotr 11 e) (rotr 25 e)) in
      let ch := Z.lxor (Z.land e f) (Z.land (not32 e) g) in
      let t1 := w32 (h + s1 + ch + fst kw + snd kw) in
      let s0 := Z.lxor (rotr 2 a) (Z.lxor (rotr 13 a) (rotr 22 a)) in
      let mj := Z.lxor (Z.land a b) (Z.lxor (Z.land a c) (Z.land b c)) in
      [w32 (t1 + s0 + mj); a; b; c; w32 (d + t1); e; f; g]
  | _ => st
  end.
Definition sha_block (st : list Z) (b : list Z) : list Z :=
  let w := Nat.iter 48 sha_extend (be_words 16 b) in
  zip_with (fun x y => w32 (x + y)) st (fold_left sha_round (zip sha_k w) st).

Fixpoint sha_blocks (n : nat) (st : list Z) (b : list Z) : list Z :=
  match n with O => st | S n => sha_blocks n (sha_block st (take 64 b)) (drop 64 b) end.

(** The message, a 1 bit, zeros, and the bit length in 64 bits. *)
Definition sha_pad (b : list Z) : list Z :=
  let n := Z.of_nat (length b) in
  b ++ 128 :: replicate (Z.to_nat ((55 - n) mod 64)) 0 ++ be_bytes 8 (u64 (8 * n)).

Definition Sum256 (b : list Z) : list Z :=
  let p := sha_pad b in
  let st := sha_blocks (length p / 64) sha_h0 p in
  take 32 (concat (be_bytes 4 <$> st) ++ replicate 32 0).

Lemma Sum256_length b : length (Sum256 b) = 32%nat.
Proof. unfold Sum256. rewrite length_take, length_app, length_replicate. lia. Qed.
Lemma Sum256_ok b : bytes_ok (Sum256 b).
Proof.
  apply Forall_take, Forall_app. split; [|apply Forall_replicate; unfold is_byte; lia].
  apply Forall_concat, Forall_fmap, Forall_true. intros. apply be_bytes_ok.
Qed.

(** The digests of the empty string and of "abc". *)
Lemma Sum256_empty : be_val (Sum256 []) = 0xe3b0c44298fc1c149afbf4c8996fb92427ae41e4649b934ca495991b7852b855.
Proof. vm_compute. reflexivity. Qed.
Lemma Sum256_abc : be_val (Sum256 [97; 98; 99]) =
  0xba7816bf8f01cfea414140de5dae2223b00361a396177a9cb410ff61f20015ad.
Proof. vm_compute. reflexivity. Qed.
