(* ===== verification/Commit.v ===== *)
(** * Commit: publishing a transaction through the redo log.

    Models [commit], [writeData] and [readRedo] of
    pkg/diffstore/internal/versioned/transaction.go, the recovery part of
    [openStore] (format.go) and internal/sectorcrypt.  A commit is the list of
    positioned writes it issues, in order; a crash stops the list anywhere, and the
    write it interrupts may have reached any of its 512-byte sectors.  The XTS
    cipher (golang.org/x/crypto/xts) is a parameter.  [reserve], which
    changes no content, is in Ops.v; I/O statistics are not modelled. *)
From stdpp Require Import base numbers list gmap strings sorting.
From Stdlib Require Import ZArith Lia.
From S2P Require Import Prelude Page Presence Json Format Tree Tx Demo TreeWrite Sha256.

(** ** Sector encryption (sectorcrypt.Transform) *)

Definition UnitSize : Z := 512.
Definition unit_len : nat := Z.to_nat UnitSize.
(** An XTS cipher: in-place transforms of one sector under its number. *)
Record xts_cipher := mkCipher {
  Encrypt : list Z -> Z -> list Z;
  Decrypt : list Z -> Z -> list Z }.

Fixpoint sectors (n : nat) (f : list Z -> Z -> list Z) (number : Z) (data : list Z) : list Z :=
  match n with
  | O => data
  | S n => f (take unit_len data) number ++ sectors n f (u64 (number + 1)) (drop unit_len data)
  end.
(** [data] holds complete sectors. *)
Definition Transform (c : option xts_cipher) (data : list Z) (first : Z) (encrypt : bool) : list Z :=
  match c with
  | None => data
  | Some c => sectors (length data / unit_len) (if encrypt then Encrypt c else Decrypt c) first data
  end.
Definition crypt (c : option xts_cipher) (b : list Z) (block : Z) (encrypt : bool) : list Z :=
  Transform c b (u64 (block * (PageSize / UnitSize))) encrypt.

(** ** Writes *)

(** One positioned write of consecutive pages. *)
Record write := mkWrite { wr_page : Z; wr_data : list (list Z) }.
Definition apply_write (f : file) (w : write) : file := writeFull f (wr_page w) (wr_data w).
Definition apply_writes (ws : list write) (f : file) : file := fold_left apply_write ws f.

(** [writeData]: the payload in slot order, physically adjacent slots in one write. *)
#[export] Instance dw_le_dec : RelDecision (fun a b => dw_slot a <= dw_slot b).
Proof. intros a b. apply Z_le_dec. Defined.
Fixpoint data_runs (l : list dataWrite) : list (list dataWrite) :=
  match l with
  | [] => []
  | d :: rest =>
      match data_runs rest with
      | (e :: g) :: gs =>
          if slotPage (dw_slot e) =? slotPage (dw_slot d) + 1
          then (d :: e :: g) :: gs else [d] :: (e :: g) :: gs
      | gs => [d] :: gs
      end
  end.
Definition run_write (c : option xts_cipher) (run : list dataWrite) : write :=
  mkWrite (match run with d :: _ => slotPage (dw_slot d) | [] => 0 end)
    ((fun d => crypt c (dw_data d) (dw_block d) true) <$> run).
Definition writeData (c : option xts_cipher) (t : transaction) : list write :=
  run_write c <$> data_runs (merge_sort (fun a b => dw_slot a <= dw_slot b) (t_data t)).

(** ** Commit *)

Notation record := (Z * list Z)%type.
#[export] Instance record_le_dec : RelDecision (fun a b : record => fst a <= fst b).
Proof. intros a b. apply Z_le_dec. Defined.

(** The pages with the changed nodes encoded into them. *)
Definition all_pages (t : transaction) : gmap Z (list Z) :=
  map_fold (fun s n m => <[slotPage s := encodeNode n]> m) (t_pages t) (t_nodes t).
Definition sorted_records (m : gmap Z (list Z)) : list record :=
  merge_sort (fun a b => fst a <= fst b) (map_to_list m).
Definition bump_Tx (c : control) : control :=
  mkControl (Root c) (Next c) (Free c) (Garbage c) (Epoch c) (Current c) (Head c) (Tail c)
    (Protected c) (Pending c) (GCScan c) (Retired c) (u64 (Tx c + 1)).

(** The three index pages and the commit page of the redo log. *)
Definition redo_index (ps : list Z) : list Z :=
  Page.put 0 (concat (le_bytes 8 <$> ps)) (replicate (3 * page_len) 0).
Definition page_split (n : nat) (b : list Z) : list (list Z) :=
  (fun i => slice (i * page_len) page_len b) <$> seq 0 n.
Definition commit_page (tx count : Z) (hash : list Z) : list Z :=
  sealPage (Page.put 24 hash (putLE 8 16 count (putLE 8 8 tx (Page.put 0 (str "KDREDO4") zeroPage)))).

(** What a commit publishes. *)
Record plan := mkPlan { pl_new : list record; pl_existing : list record; pl_ctrl : control }.
Definition commit_plan (t : transaction) : dres (option plan) :=
  let pages := all_pages t in
  if bool_decide (pages = ∅) && bool_decide (t_ctrl t = s_ctrl (store t)) then Ok None
  else
    let ctrl := bump_Tx (t_ctrl t) in
    let* b := encodeControl ctrl in
    let all := sorted_records (<[1 := b]> pages) in
    let existing := filter (fun r => fst r ∉ fresh t) all in
    let new := filter (fun r => fst r ∈ fresh t) all in
    if maxLogPages <? Z.of_nat (length existing)
    then Err (DiffErr "transaction exceeds redo budget")
    else Ok (Some (mkPlan new existing ctrl)).

(** The existing pages a commit would publish, counted without building them. *)
Definition redoPages (t : transaction) : Z :=
  if bool_decide (t_pages t = ∅) && bool_decide (t_nodes t = ∅) && bool_decide (t_ctrl t = s_ctrl (store t)) then 0
  else
    1 + Z.of_nat (length (filter (fun r => fst r <> 1 /\ fst r ∉ fresh t) (map_to_list (t_pages t))))
    + Z.of_nat (length (filter (fun r => t_pages t !! slotPage (fst r) = None /\ slotPage (fst r) ∉ fresh t)
        (map_to_list (t_nodes t)))).

Definition home_writes (rs : list record) : list write := (fun r => mkWrite (fst r) [snd r]) <$> rs.
Definition redo_commit (p : plan) : list Z :=
  let index := redo_index (fst <$> pl_existing p) in
  let hash := Sum256 (index ++ concat (snd <$> pl_existing p)) in
  commit_page (Tx (pl_ctrl p)) (Z.of_nat (length (pl_existing p))) hash.
(** Everything before the commit page is written, and everything after. *)
Definition redo_prepare (p : plan) : list write :=
  [ mkWrite logCommitPage [zeroPage];
    mkWrite logIndexPage (page_split 3 (redo_index (fst <$> pl_existing p)));
    mkWrite logImagesPage (snd <$> pl_existing p) ].
Definition redo_publish (p : plan) : write := mkWrite logCommitPage [redo_commit p].
Definition redo_apply (p : plan) : list write := home_writes (pl_existing p) ++ [mkWrite logCommitPage [zeroPage]].

Definition commit_writes (c : option xts_cipher) (t : transaction) (pl : option plan) : list write :=
  match pl with
  | None => writeData c t
  | Some p => writeData c t ++ home_writes (pl_new p) ++ redo_prepare p ++ [redo_publish p] ++ redo_apply p
  end.

(** The in-memory presence after a commit. *)
Definition merge_presence (size : Z) (presence : list Z) (r : record) : list Z :=
  if presencePage (fst r) size then
    let i := Z.to_nat ((fst r - presenceAreaPage) * PayloadSize) in
    let n := Z.to_nat (Z.min PayloadSize (Z.of_nat (length presence) - Z.of_nat i)) in
    Page.put i (slice HeaderSize n (snd r)) presence
  else presence.
Definition commit (c : option xts_cipher) (t : transaction) : dres Store :=
  let s := store t in
  let* pl := commit_plan t in
  let f := apply_writes (commit_writes c t pl) (s_file s) in
  match pl with
  | None => Ok (mkStore f (s_ctrl s) (s_presence s) (s_size s))
  | Some p =>
      Ok (mkStore f (pl_ctrl p)
            (fold_left (merge_presence (s_size s)) (pl_new p ++ pl_existing p) (s_presence s)) (s_size s))
  end.

(** ** Recovery *)

Fixpoint redo_records (size : Z) (seen : gset Z) (ps : list Z) (body : list (list Z)) : dres (list record) :=
  match ps, body with
  | p :: ps, b :: body =>
      if (p =? 0) || ((logCommitPage <=? p) && (p <? slotAreaPage) && negb (presencePage p size))
         || bool_decide (p ∈ seen)
      then Err (DiffErr "invalid redo destination")
      else let* rs := redo_records size ({[p]} ∪ seen) ps body in Ok ((p, b) :: rs)
  | _, _ => Ok []
  end.
Definition index_entries (count : nat) (index : list Z) : list Z :=
  (fun i => getLE 8 (i * 8) index) <$> seq 0 count.

Definition readRedo (f : file) (size : Z) : dres (list record) :=
  let* commit := readFull f logCommitPage in
  if isZero commit then Ok []
  else if negb (checkPage commit) || negb (bool_decide (take 7 commit = str "KDREDO4")) then Ok []
  else
    let count := getLE 8 16 commit in
    if (count =? 0) || (maxLogPages <? count) then Err (DiffErr "invalid redo count")
    else
      let* index := directRead f 3 logIndexPage in
      let* body := directRead f (Z.to_nat count) logImagesPage in
      let index := concat index in
      if negb (bool_decide (Sum256 (index ++ concat body) = slice 24 32 commit))
      then Err (DiffErr "committed redo checksum mismatch")
      else redo_records size ∅ (index_entries (Z.to_nat count) index) body.

(** The part of [openStore] under the metadata lock: replay, clear, read the control. *)
Definition recovery_writes (records : list record) : list write :=
  home_writes records ++ match records with [] => [] | _ => [mkWrite logCommitPage [zeroPage]] end.
Definition recover (f : file) (size : Z) : dres (file * control) :=
  let* records := readRedo f size in
  let f := apply_writes (recovery_writes records) f in
  let* b := readFull f 1 in
  let* c := decodeControl b in
  Ok (f, c).

(** ** Contents of the file after writes *)

Definition covers (w : write) (q : Z) : Prop := wr_page w <= q < wr_page w + Z.of_nat (length (wr_data w)).

Lemma page_at_writeFull f p bs q :
  page_at (writeFull f p bs) q =
    if decide (p <= q < p + Z.of_nat (length bs)) then default zeroPage (bs !! Z.to_nat (q - p)) else page_at f q.
Proof.
  revert f p. induction bs as [|b bs IH]; intros f p; cbn [writeFull length].
  { rewrite decide_False by lia. done. }
  rewrite IH. destruct (decide (q = p)) as [->|Hq].
  - rewrite decide_False, decide_True by lia. rewrite Z.sub_diag. cbn. unfold page_at. cbn.
    by rewrite lookup_insert_eq.
  - destruct (decide (p + 1 <= q < p + 1 + Z.of_nat (length bs))).
    + rewrite decide_True by lia. replace (Z.to_nat (q - p)) with (S (Z.to_nat (q - (p + 1)))) by lia. done.
    + rewrite decide_False by lia. unfold page_at. cbn. by rewrite lookup_insert_ne by done.
Qed.
Lemma flen_writeFull f p bs : flen f <= flen (writeFull f p bs) /\
  (bs <> [] -> p + Z.of_nat (length bs) <= flen (writeFull f p bs)).
Proof.
  revert f p. induction bs as [|b bs IH]; intros f p; cbn [writeFull length]; [split; [lia|done]|].
  destruct (IH (writePage f p b) (p + 1)) as [H1 H2]. cbn [writePage flen] in H1. split; [lia|]. intros _.
  destruct bs; [cbn in *; lia|]. specialize (H2 ltac:(done)). lia.
Qed.
Lemma apply_write_other f w q : ~ covers w q -> page_at (apply_write f w) q = page_at f q.
Proof. intros H. unfold apply_write. rewrite page_at_writeFull, decide_False; [done|exact H]. Qed.
Lemma apply_writes_app ws ws' f : apply_writes (ws ++ ws') f = apply_writes ws' (apply_writes ws f).
Proof. apply fold_left_app. Qed.
Lemma apply_writes_other ws f q : (forall w, w ∈ ws -> ~ covers w q) ->
  page_at (apply_writes ws f) q = page_at f q.
Proof.
  revert f. induction ws as [|w ws IH]; intros f H; [done|]. cbn. rewrite IH.
  - apply apply_write_other, H. by left.
  - intros w' Hw. apply H. by right.
Qed.
Lemma flen_apply_writes ws f : flen f <= flen (apply_writes ws f).
Proof.
  revert f. induction ws as [|w ws IH]; intros f; [cbn; lia|]. cbn.
  etransitivity; [|apply IH]. apply flen_writeFull.
Qed.

Lemma home_writes_covers rs w q : w ∈ home_writes rs -> covers w q -> q ∈ rs.*1.
Proof.
  unfold home_writes, covers. intros ([p b] & -> & Hr)%list_elem_of_fmap H. cbn in H.
  replace q with p by lia. apply list_elem_of_fmap. by exists (p, b).
Qed.
(** Home writes of distinct pages: every record lands, nothing else changes. *)
Lemma apply_home_other rs f q : q ∉ rs.*1 -> page_at (apply_writes (home_writes rs) f) q = page_at f q.
Proof. intros H. apply apply_writes_other. intros w Hw Hc. apply H. by eapply home_writes_covers. Qed.
Lemma apply_home_same rs f q b : NoDup rs.*1 -> (q, b) ∈ rs ->
  page_at (apply_writes (home_writes rs) f) q = b.
Proof.
  revert f. induction rs as [|[p c] rs IH]; intros f Hnd Hin; [by apply elem_of_nil in Hin|].
  cbn in Hnd. apply NoDup_cons in Hnd as [Hp Hnd]. change (home_writes ((p, c) :: rs)) with (mkWrite p [c] :: home_writes rs).
  cbn [apply_writes fold_left]. apply elem_of_cons in Hin as [[= -> ->]|Hin]; [|by apply IH].
  change (fold_left apply_write (home_writes rs) ?g) with (apply_writes (home_writes rs) g).
  rewrite apply_home_other by done. unfold apply_write. rewrite page_at_writeFull. cbn.
  rewrite decide_True by lia. by rewrite Z.sub_diag.
Qed.

(** ** What a plan contains *)

Lemma node_pages_lookup (m : gmap Z node) (pages : gmap Z (list Z)) q b :
  (forall s n, m !! s = Some n -> 1 <= s) ->
  map_fold (fun s n r => <[slotPage s := encodeNode n]> r) pages m !! q = Some b <->
  (exists s n, m !! s = Some n /\ q = slotPage s /\ b = encodeNode n) \/
  (pages !! q = Some b /\ forall s n, m !! s = Some n -> q <> slotPage s).
Proof.
  revert q b. apply (map_fold_weak_ind (fun r m => forall q b, (forall s n, m !! s = Some n -> 1 <= s) ->
    r !! q = Some b <-> (exists s n, m !! s = Some n /\ q = slotPage s /\ b = encodeNode n) \/
    (pages !! q = Some b /\ forall s n, m !! s = Some n -> q <> slotPage s))).
  { intros q b _. split; [intros H; right; split; [done|]|intros [(s & n & Hs & _)|[H _]]; [|done]].
    - intros s n Hs. by rewrite lookup_empty in Hs.
    - by rewrite lookup_empty in Hs. }
  intros s n m' r Hs IH q b Hpos.
  assert (1 <= s) as H1 by (apply (Hpos s n); by rewrite lookup_insert_eq).
  assert (forall s' n', m' !! s' = Some n' -> 1 <= s' /\ <[s := n]> m' !! s' = Some n' /\ slotPage s <> slotPage s') as Hold.
  { intros s' n' Hs'. assert (s <> s') as Hne by congruence.
    assert (<[s := n]> m' !! s' = Some n') as Hl by (by rewrite lookup_insert_ne by done).
    pose proof (Hpos s' n' Hl). split_and!; [done..|]. intros He. by apply slotPage_inj in He. }
  assert (forall s' n', m' !! s' = Some n' -> 1 <= s') as Hpos' by (intros s' n' Hs'; by apply (Hold s' n')).
  destruct (decide (slotPage s = q)) as [<-|Hq].
  - rewrite lookup_insert_eq. split.
    + intros [= <-]. left. exists s, n. by rewrite lookup_insert_eq.
    + intros [(s' & n' & Hs' & He & ->)|[_ Hno]].
      * apply slotPage_inj in He as <-; [|done|by eapply Hpos]. rewrite lookup_insert_eq in Hs'. congruence.
      * exfalso. apply (Hno s n); [by rewrite lookup_insert_eq|done].
  - rewrite lookup_insert_ne by done. rewrite (IH q b Hpos'). split.
    + intros [(s' & n' & Hs' & -> & ->)|[Hp Hno]].
      * left. exists s', n'. split; [by apply Hold|done].
      * right. split; [done|]. intros s' n' Hs' ->. destruct (decide (s = s')) as [->|]; [done|].
        rewrite lookup_insert_ne in Hs' by done. by apply (Hno s' n').
    + intros [(s' & n' & Hs' & -> & ->)|[Hp Hno]].
      * left. exists s', n'. rewrite lookup_insert_ne in Hs' by congruence. done.
      * right. split; [done|]. intros s' n' Hs'. apply (Hno s' n'). by apply Hold.
Qed.

Lemma node_slot t s n : tx_wf t -> t_nodes t !! s = Some n -> 1 <= s < Next (t_ctrl t).
Proof. intros Hwf Hn. destruct (w_nodes t Hwf s n Hn) as ((d & Hd & _) & _). by eapply dsc_bound. Qed.
Lemma all_pages_lookup t q b : tx_wf t -> all_pages t !! q = Some b <->
  (exists s n, t_nodes t !! s = Some n /\ q = slotPage s /\ b = encodeNode n) \/
  (t_pages t !! q = Some b /\ forall s n, t_nodes t !! s = Some n -> q <> slotPage s).
Proof. intros Hwf. apply node_pages_lookup. intros s n Hn. apply (node_slot t s n Hwf) in Hn. lia. Qed.
Lemma all_pages_home t q b : tx_wf t -> all_pages t !! q = Some b ->
  is_page b /\ home_page (s_size (store t)) q.
Proof.
  intros Hwf H. apply all_pages_lookup in H as [(s & n & Hn & -> & ->)|[Hp _]]; [|by eapply w_pages|done].
  pose proof (node_slot t s n Hwf Hn). pose proof (w_next t Hwf).
  split; [|apply home_slot; lia]. destruct (w_nodes t Hwf s n Hn) as (_ & (Hl & Hes & _) & _).
  apply (np_page n), encodeNode_page; [lia|done].
Qed.

Lemma sorted_records_elem m q b : (q, b) ∈ sorted_records m <-> m !! q = Some b.
Proof. unfold sorted_records. rewrite merge_sort_Permutation. apply elem_of_map_to_list. Qed.
Lemma sorted_records_nodup m : NoDup (sorted_records m).*1.
Proof. unfold sorted_records. rewrite merge_sort_Permutation. apply NoDup_fst_map_to_list. Qed.
Lemma NoDup_fst_filter (P : record -> Prop) `{!forall r, Decision (P r)} (l : list record) :
  NoDup l.*1 -> NoDup (filter P l).*1.
Proof. intros Hl. eapply sublist_NoDup; [exact Hl|]. apply fmap_sublist, sublist_filter. Qed.

(** New pages are in the slot area. *)
Definition fresh_ok (t : transaction) : Prop := forall p, p ∈ fresh t -> slotAreaPage <= p.

Record plan_ok (t : transaction) (p : plan) : Prop := {
  po_ctrl : control_ok (pl_ctrl p) /\ pl_ctrl p = bump_Tx (t_ctrl t);
  po_page1 : exists b, (1, b) ∈ pl_existing p /\ decodeControl b = Ok (pl_ctrl p);
  po_existing : forall q b, (q, b) ∈ pl_existing p <->
    q ∉ fresh t /\ ((q = 1 /\ encodeControl (pl_ctrl p) = Ok b) \/ all_pages t !! q = Some b);
  po_new : forall q b, (q, b) ∈ pl_new p <-> q ∈ fresh t /\ all_pages t !! q = Some b;
  po_home : forall q b, (q, b) ∈ pl_existing p ++ pl_new p ->
    is_page b /\ (q = 1 \/ home_page (s_size (store t)) q);
  po_nodup : NoDup (pl_existing p).*1 /\ NoDup (pl_new p).*1;
  po_count : 0 < Z.of_nat (length (pl_existing p)) <= maxLogPages }.

Lemma home_not_1 size q : home_page size q -> q <> 1.
Proof. unfold home_page, presencePage, slotAreaPage, presenceAreaPage. intros [H|H]; bool_prop; lia. Qed.

Lemma bump_ok c : control_ok c -> control_ok (bump_Tx c).
Proof. unfold control_ok, bump_Tx. cbn. intuition auto with go. Qed.

Lemma commit_plan_ok t p : tx_wf t -> fresh_ok t -> commit_plan t = Ok (Some p) -> plan_ok t p.
Proof.
  intros Hwf Hfr. unfold commit_plan. destruct (_ && _); [done|].
  destruct (decodeControl_encode (bump_Tx (t_ctrl t))) as (b & He & Hb & _ & Hd); [apply bump_ok, Hwf|].
  rewrite He. cbn [res_bind]. destruct (_ <? _) eqn:Hlen; [done|]. intros [= <-]. bool_prop.
  assert (1 ∉ fresh t) as H1 by (intros H%Hfr; unfold slotAreaPage in H; lia).
  set (all := sorted_records _) in *.
  assert (forall q c, (q, c) ∈ all <-> (q = 1 /\ b = c) \/ all_pages t !! q = Some c) as Hall.
  { intros q c. unfold all. rewrite sorted_records_elem. destruct (decide (q = 1)) as [->|Hq].
    - rewrite lookup_insert_eq. split; [intros [= ->]; by left|]. intros [[_ ->]|Hp]; [done|].
      by apply (all_pages_home t 1 c Hwf) in Hp as [_ ?%home_not_1].
    - rewrite lookup_insert_ne by done. naive_solver. }
  assert ((1, b) ∈ filter (fun r : record => fst r ∉ fresh t) all) as Hin.
  { apply list_elem_of_filter. split; [done|]. apply Hall. by left. }
  split; cbn [pl_ctrl pl_existing pl_new].
  - split; [apply bump_ok, Hwf|done].
  - exists b. done.
  - intros q c. rewrite list_elem_of_filter, Hall. cbn. rewrite He. naive_solver.
  - intros q c. rewrite list_elem_of_filter, Hall. cbn. naive_solver.
  - intros q c [[_ H]%list_elem_of_filter|[_ H]%list_elem_of_filter]%elem_of_app; apply Hall in H as [[-> ->]|H];
      auto; destruct (all_pages_home t q c Hwf H); auto.
  - split; apply NoDup_fst_filter, sorted_records_nodup.
  - split; [|lia]. destruct (filter _ all) eqn:E in Hin |- *; [by apply elem_of_nil in Hin|]. cbn [length]. lia.
Qed.

(** ** Payload writes *)

Definition data_page (t : transaction) (q : Z) : Prop := exists d, d ∈ t_data t /\ q = slotPage (dw_slot d).
(** The slots of a run are on consecutive pages. *)
Fixpoint adjacent (l : list dataWrite) : Prop :=
  match l with
  | d :: (e :: _) as rest => slotPage (dw_slot e) = slotPage (dw_slot d) + 1 /\ adjacent rest
  | _ => True
  end.
Lemma data_runs_spec l : concat (data_runs l) = l /\ Forall (fun r => r <> [] /\ adjacent r) (data_runs l).
Proof.
  induction l as [|d l [IHc IHa]]; [by split|]. cbn [data_runs].
  destruct (data_runs l) as [|[|e g] gs] eqn:E.
  - cbn in *. subst. split; [done|]. by apply Forall_singleton.
  - apply Forall_cons in IHa as [[? _] _]. done.
  - destruct (_ =? _) eqn:Ee; bool_prop.
    + split; [cbn in *; by rewrite IHc|]. apply Forall_cons in IHa as [[_ Ha] Hr].
      apply Forall_cons. by split_and!.
    + split; [cbn in *; by rewrite IHc|]. apply Forall_cons. by split_and!.
Qed.
Lemma adjacent_lookup d l i e : adjacent (d :: l) -> (d :: l) !! i = Some e ->
  slotPage (dw_slot e) = slotPage (dw_slot d) + Z.of_nat i.
Proof.
  revert d i. induction l as [|x l IH]; intros d [|i] Ha Hi; cbn in Hi; try (injection Hi as ->; lia); [done|].
  destruct Ha as [Hx Ha]. rewrite (IH x i Ha Hi). lia.
Qed.
Lemma writeData_run c t w : w ∈ writeData c t -> exists d l, w = run_write c (d :: l) /\ adjacent (d :: l) /\
  forall e, e ∈ d :: l -> e ∈ t_data t.
Proof.
  unfold writeData. intros (r & -> & Hr)%list_elem_of_fmap.
  destruct (data_runs_spec (merge_sort (fun a b => dw_slot a <= dw_slot b) (t_data t))) as [Hc Ha].
  rewrite Forall_forall in Ha. destruct (Ha r Hr) as [Hne Had]. destruct r as [|d l]; [done|].
  exists d, l. split_and!; [done..|]. intros e He.
  rewrite <- (merge_sort_Permutation (fun a b => dw_slot a <= dw_slot b) (t_data t)), <- Hc.
  apply elem_of_concat. eauto.
Qed.
Lemma writeData_covers c t w q : w ∈ writeData c t -> covers w q -> data_page t q.
Proof.
  intros (d & l & -> & Ha & Hin)%writeData_run. unfold covers. cbn [run_write wr_page wr_data].
  rewrite length_fmap. intros Hq. destruct (lookup_lt_is_Some_2 (d :: l) (Z.to_nat (q - slotPage (dw_slot d)))) as [e He]; [lia|].
  exists e. split; [apply Hin; by eapply list_elem_of_lookup_2|].
  rewrite (adjacent_lookup d l _ e Ha He). lia.
Qed.

(** ** The redo budget *)

Definition page_keys (t : transaction) : list Z :=
  (filter (fun r => fst r <> 1 /\ fst r ∉ fresh t) (map_to_list (t_pages t))).*1.
Definition node_keys (t : transaction) : list Z :=
  (filter (fun r => t_pages t !! slotPage (fst r) = None /\ slotPage (fst r) ∉ fresh t) (map_to_list (t_nodes t))).*1.

Lemma page_keys_elem t q : q ∈ page_keys t <-> q <> 1 /\ q ∉ fresh t /\ is_Some (t_pages t !! q).
Proof.
  unfold page_keys. rewrite list_elem_of_fmap. split.
  - intros ([q' b] & -> & [[? ?] Hin]%list_elem_of_filter). apply elem_of_map_to_list in Hin. cbn in *. eauto.
  - intros (? & ? & b & Hb). exists (q, b). split; [done|]. apply list_elem_of_filter.
    split; [done|]. by apply elem_of_map_to_list.
Qed.
Lemma node_keys_elem t s : s ∈ node_keys t <->
  t_pages t !! slotPage s = None /\ slotPage s ∉ fresh t /\ is_Some (t_nodes t !! s).
Proof.
  unfold node_keys. rewrite list_elem_of_fmap. split.
  - intros ([s' n] & -> & [[? ?] Hin]%list_elem_of_filter). apply elem_of_map_to_list in Hin. cbn in *. eauto.
  - intros (? & ? & n & Hn). exists (s, n). split; [done|]. apply list_elem_of_filter.
    split; [done|]. by apply elem_of_map_to_list.
Qed.
Lemma filter_keys_nodup {B} (P : Z * B -> Prop) `{!forall r, Decision (P r)} (m : gmap Z B) :
  NoDup (filter P (map_to_list m)).*1.
Proof.
  eapply sublist_NoDup; [apply (NoDup_fst_map_to_list m)|]. apply fmap_sublist, sublist_filter.
Qed.

Lemma redo_keys t : tx_wf t -> fresh_ok t ->
  NoDup (1 :: page_keys t ++ (slotPage <$> node_keys t)) /\
  forall q, q ∈ 1 :: page_keys t ++ (slotPage <$> node_keys t) <->
    q ∉ fresh t /\ (q = 1 \/ is_Some (all_pages t !! q)).
Proof.
  intros Hwf Hfr. assert (1 ∉ fresh t) as H1 by (intros H%Hfr; unfold slotAreaPage in H; lia).
  assert (forall s, s ∈ node_keys t -> 1 <= s) as Hpos.
  { intros s (_ & _ & n & Hn)%node_keys_elem. apply (node_slot t s n Hwf) in Hn. lia. }
  split.
  - apply NoDup_cons. split.
    + intros [[? _]%page_keys_elem|(s & He & Hs)%list_elem_of_fmap]%elem_of_app; [done|].
      pose proof (slotPage_area s (Hpos s Hs)). unfold slotAreaPage in *. lia.
    + apply NoDup_app. split_and!.
      * apply filter_keys_nodup.
      * intros q (_ & _ & b & Hb)%page_keys_elem (s & -> & (Hs & _)%node_keys_elem)%list_elem_of_fmap. congruence.
      * assert (NoDup (node_keys t)) as Hnd by apply filter_keys_nodup. revert Hnd Hpos.
        generalize (node_keys t). induction l as [|s l IH]; intros Hnd Hpos; [constructor|].
        apply NoDup_cons in Hnd as [Hs Hnd]. cbn. apply NoDup_cons. split.
        -- intros (s' & He & Hs')%list_elem_of_fmap. apply slotPage_inj in He as ->; [done|apply Hpos; set_solver..].
        -- apply IH; [done|]. intros. apply Hpos. by right.
  - intros q. rewrite elem_of_cons, elem_of_app, page_keys_elem, list_elem_of_fmap. split.
    + intros [->|[(? & ? & b & Hb)|(s & -> & (Hs & Hf & n & Hn)%node_keys_elem)]].
      * split; [done|by left].
      * split; [done|]. right. destruct (all_pages t !! q) as [c|] eqn:E; [eauto|]. exfalso.
        assert (exists c, all_pages t !! q = Some c) as [c Hc]; [|congruence].
        destruct (decide (Exists (fun s => q = slotPage s) (map_to_list (t_nodes t)).*1)) as [He|He].
        -- apply Exists_exists in He as (s & ([s' n] & -> & Hin)%list_elem_of_fmap & ->).
           apply elem_of_map_to_list in Hin. exists (encodeNode n). apply all_pages_lookup; [done|]. left. eauto.
        -- exists b. apply all_pages_lookup; [done|]. right. split; [done|]. intros s n Hn ->. apply He, Exists_exists.
           exists s. split; [|done]. apply list_elem_of_fmap. exists (s, n). split; [done|]. by apply elem_of_map_to_list.
      * split; [done|]. right. exists (encodeNode n). apply all_pages_lookup; [done|]. left. eauto.
    + intros [Hf [->|[b Hb]]]; [by left|]. pose proof (proj2 (all_pages_home t q b Hwf Hb)) as Hq1%home_not_1.
      right. destruct (t_pages t !! q) as [c|] eqn:E; [left; eauto|right].
      apply all_pages_lookup in Hb as [(s & n & Hn & -> & _)|[? _]]; [|congruence|done].
      exists s. split; [done|]. apply node_keys_elem. eauto.
Qed.

Lemma existing_count t b : tx_wf t -> fresh_ok t ->
  length (filter (fun r : record => fst r ∉ fresh t) (sorted_records (<[1 := b]> (all_pages t)))) =
  S (length (page_keys t) + length (node_keys t)).
Proof.
  intros Hwf Hfr. destruct (redo_keys t Hwf Hfr) as [Hnd Hin].
  transitivity (length (1 :: page_keys t ++ (slotPage <$> node_keys t)));
    [|cbn; by rewrite length_app, length_fmap].
  rewrite <- (length_fmap fst). apply Permutation_length, NoDup_Permutation; [|done|].
  - apply NoDup_fst_filter, sorted_records_nodup.
  - intros q. rewrite Hin, list_elem_of_fmap. split.
    + intros ([q' c] & -> & [Hf Hc]%list_elem_of_filter). apply sorted_records_elem in Hc. split; [done|].
      cbn in *. destruct (decide (q' = 1)) as [->|Hq]; [by left|right]. rewrite lookup_insert_ne in Hc by done. eauto.
    + intros [Hf Hq]. assert (exists c, <[1 := b]> (all_pages t) !! q = Some c) as [c Hc].
      { destruct (decide (q = 1)) as [->|Hq1]; [rewrite lookup_insert_eq; eauto|]. rewrite lookup_insert_ne by done.
        destruct Hq as [?|[c Hc]]; [done|eauto]. }
      exists (q, c). split; [done|]. apply list_elem_of_filter. split; [done|]. by apply sorted_records_elem.
Qed.
Lemma all_pages_empty t : tx_wf t -> all_pages t = ∅ <-> t_pages t = ∅ /\ t_nodes t = ∅.
Proof.
  intros Hwf. split.
  - intros He. assert (t_nodes t = ∅) as Hn.
    { apply map_empty. intros s. destruct (t_nodes t !! s) as [n|] eqn:E; [|done]. exfalso.
      assert (all_pages t !! slotPage s = Some (encodeNode n)) as Hp by (apply all_pages_lookup; [done|left; eauto]).
      by rewrite He, lookup_empty in Hp. }
    split; [|done]. unfold all_pages in He. by rewrite Hn, map_fold_empty in He.
  - intros [Hp Hn]. unfold all_pages. by rewrite Hn, map_fold_empty.
Qed.

Lemma redo_count t : tx_wf t -> fresh_ok t ->
  match commit_plan t with
  | Ok None => redoPages t = 0
  | Ok (Some p) => redoPages t = Z.of_nat (length (pl_existing p)) /\ redoPages t <= maxLogPages
  | Err _ => maxLogPages < redoPages t
  end.
Proof.
  intros Hwf Hfr. unfold commit_plan, redoPages.
  assert (bool_decide (t_pages t = ∅) && bool_decide (t_nodes t = ∅) = bool_decide (all_pages t = ∅)) as ->.
  { apply eq_true_iff_eq. rewrite andb_true_iff, !bool_decide_eq_true. symmetry. by apply all_pages_empty. }
  destruct (_ && _); [done|].
  destruct (decodeControl_encode (bump_Tx (t_ctrl t))) as (b & He & _); [apply bump_ok, Hwf|].
  rewrite He. cbn [res_bind]. pose proof (existing_count t b Hwf Hfr) as Hc.
  rewrite <- (length_fmap fst (filter _ (map_to_list (t_pages t)))), <- (length_fmap fst (filter _ (map_to_list (t_nodes t)))).
  fold (page_keys t) (node_keys t). destruct (_ <? _) eqn:Hlt; bool_prop; cbn [pl_existing]; rewrite Hc in *; lia.
Qed.
(** The redo budget: [redoPages], which the write path consults before it
    builds anything, is exactly the number of existing pages the commit publishes
    through the redo log, and the commit is refused exactly when it exceeds the
    log's capacity of 1536 pages. *)
Theorem redoPages_exact t : tx_wf t -> fresh_ok t ->
  match commit_plan t with
  | Ok None => redoPages t = 0
  | Ok (Some p) => redoPages t = Z.of_nat (length (pl_existing p)) /\ redoPages t <= maxLogPages
  | Err _ => maxLogPages < redoPages t
  end.
Proof. apply redo_count. Qed.

Lemma demo_change_fresh : fresh_ok demo_change.
Proof. intros q Hq. unfold demo_change in Hq. cbn in Hq. set_solver. Qed.
Lemma redoPages_exact_witness : tx_wf demo_change /\ fresh_ok demo_change /\
  match commit_plan demo_change with
  | Ok None => redoPages demo_change = 0
  | Ok (Some p) => redoPages demo_change = Z.of_nat (length (pl_existing p)) /\ redoPages demo_change <= maxLogPages
  | Err _ => maxLogPages < redoPages demo_change
  end.
Proof.
  split; [apply demo_change_wf|]. split; [apply demo_change_fresh|].
  exact (redoPages_exact demo_change demo_change_wf demo_change_fresh).
Defined.
