(* ===== verification/Crash.v ===== *)
(** * Crash: a commit interrupted anywhere is all or nothing.

    A crash stops the ordered writes of a commit (Commit.v) at any point; of the
    write it interrupts, every 512-byte sector is either the old or the new one.
    Opening the store afterwards may itself be interrupted, any number of times.
    The theorem: recovery then succeeds and yields the store before the
    transaction, or the store after it. *)
From stdpp Require Import base numbers list gmap strings sorting relations.
From Stdlib Require Import ZArith Lia.
From S2P Require Import Prelude Page Presence Json Format Tree Tx TreeWrite Demo Sha256 Commit.

#[local] Opaque Sum256 sealPage checkPage Page.put.

(** ** The crash model *)

Definition sector (k : nat) (b : list Z) : list Z := slice (k * unit_len) unit_len b.
Definition torn_page (old new r : list Z) : Prop :=
  length r = page_len /\ forall k, (k < 8)%nat -> sector k r = sector k old \/ sector k r = sector k new.
Definition torn_write (f : file) (w : write) (f' : file) : Prop :=
  flen f <= flen f' /\
  forall q, (~ covers w q /\ page_at f' q = page_at f q) \/
    (covers w q /\ torn_page (page_at f q) (page_at (apply_write f w) q) (page_at f' q)).

(** The file a crash may leave of a list of writes. *)
Inductive crashed : file -> list write -> file -> Prop :=
| crashed_before f ws : crashed f ws f
| crashed_during f w ws f' : torn_write f w f' -> crashed f (w :: ws) f'
| crashed_after f w ws f' : crashed (apply_write f w) ws f' -> crashed f (w :: ws) f'.

(** An opening of the store that crashed during recovery. *)
Definition interrupted (size : Z) (f f' : file) : Prop :=
  exists records, readRedo f size = Ok records /\ crashed f (recovery_writes records) f'.

(** A commit page that recovery ignores, and that stays so while it is cleared. *)
Definition quiet (b : list Z) : bool :=
  isZero b || negb (checkPage b) || negb (bool_decide (take 7 b = str "KDREDO4")).
Definition log_idle (b : list Z) : Prop :=
  quiet b = true /\ forall r, torn_page b zeroPage r -> quiet r = true.

(** The pages of the redo log. *)
Definition log_page (q : Z) : Prop := logCommitPage <= q < logImagesPage + maxLogPages.

(** ** Crashes *)

Lemma crashed_app f ws ws' f' : crashed f (ws ++ ws') f' ->
  crashed f ws f' \/ crashed (apply_writes ws f) ws' f'.
Proof.
  revert f. induction ws as [|w ws IH]; intros f H; [by right|]. cbn in H. inversion H; subst.
  - left. constructor.
  - left. by constructor.
  - destruct (IH _ H4) as [?|?]; [left; by constructor|by right].
Qed.
Lemma crashed_other f ws f' q : crashed f ws f' -> (forall w, w ∈ ws -> ~ covers w q) ->
  page_at f' q = page_at f q.
Proof.
  induction 1 as [| f w ws f' [_ Ht] | f w ws f' _ IH]; intros Hw; [done| |].
  - destruct (Ht q) as [[_ ?]|[Hc _]]; [done|]. exfalso. apply (Hw w); [by left|done].
  - rewrite IH; [|intros w' ?; apply Hw; by right]. apply apply_write_other, Hw. by left.
Qed.
Lemma crashed_flen f ws f' : crashed f ws f' -> flen f <= flen f'.
Proof.
  induction 1 as [| f w ws f' [Ht _] | f w ws f' _ IH]; [lia|done|].
  etransitivity; [|exact IH]. apply flen_writeFull.
Qed.
Lemma flen_apply_mono ws f g : flen f <= flen g -> flen (apply_writes ws f) <= flen (apply_writes ws g).
Proof.
  revert f g. induction ws as [|w ws IH]; intros f g H; [done|]. cbn. apply IH. unfold apply_write.
  generalize (wr_page w). intros q. revert f g q H. induction (wr_data w) as [|b bs IHb]; intros f g q H; [done|].
  cbn [writeFull]. apply IHb. cbn. lia.
Qed.
Lemma crashed_all f ws : crashed f ws (apply_writes ws f).
Proof. revert f. induction ws as [|w ws IH]; intros f; [constructor|]. apply crashed_after, IH. Qed.
Lemma crashed_nil f f' : crashed f [] f' -> f' = f.
Proof. by inversion 1. Qed.

Lemma torn_sym a b r : torn_page a b r -> torn_page b a r.
Proof. intros [Hl Hs]. split; [done|]. intros k Hk. destruct (Hs k Hk); auto. Qed.
Lemma torn_trans a b r r' : torn_page a b r -> torn_page r b r' -> torn_page a b r'.
Proof.
  intros [_ H1] [Hl H2]. split; [done|]. intros k Hk. destruct (H2 k Hk) as [->|]; [by apply H1|by right].
Qed.

Lemma sector_ext a b : length a = page_len -> length b = page_len ->
  (forall k, (k < 8)%nat -> sector k a = sector k b) -> a = b.
Proof.
  intros Ha Hb H. apply list_eq. intros i. destruct (decide (i < page_len)%nat) as [Hi|Hi].
  - pose proof (Nat.div_mod_eq i unit_len) as Hm.
    assert (i mod unit_len < unit_len)%nat by (apply Nat.mod_upper_bound; unfold unit_len, UnitSize; lia).
    assert (i / unit_len < 8)%nat as Hk by (apply Nat.Div0.div_lt_upper_bound; unfold unit_len, UnitSize; plia).
    specialize (H _ Hk). apply (f_equal (fun l => l !! (i mod unit_len)%nat)) in H. unfold sector in H.
    rewrite !slice_lookup in H. rewrite !decide_True in H by done.
    replace (i / unit_len * unit_len + i mod unit_len)%nat with i in H by lia. exact H.
  - rewrite !lookup_ge_None_2 by lia. done.
Qed.

(** ** The commit page *)

Record published (count : Z) (hash r : list Z) : Prop := {
  pb_check : checkPage r = true;
  pb_magic : take 7 r = str "KDREDO4";
  pb_count : getLE 8 16 r = count;
  pb_hash : slice 24 32 r = hash }.

Lemma sector0_slice a b off k : sector 0 a = sector 0 b -> (off + k <= unit_len)%nat ->
  slice off k a = slice off k b.
Proof.
  intros H Hk. assert (forall l, slice off k l = slice off k (sector 0 l)) as Hs.
  { intros l. unfold sector. rewrite slice_slice by lia. done. }
  by rewrite Hs, H, <- Hs.
Qed.
Lemma unit_le off k : (off + k <= 512)%nat -> (off + k <= unit_len)%nat.
Proof. unfold unit_len, UnitSize. lia. Qed.
Lemma published_sector0 count hash a r : published count hash a -> sector 0 r = sector 0 a ->
  checkPage r = true -> published count hash r.
Proof.
  intros [_ Hm Hc Hh] Hs Hk. split; [done|..].
  - change (take 7 r) with (slice 0 7 r). rewrite (sector0_slice r a) by (done || apply unit_le; lia). done.
  - unfold getLE in *. rewrite (sector0_slice r a) by (done || apply unit_le; lia). done.
  - rewrite (sector0_slice r a) by (done || apply unit_le; lia). done.
Qed.
Lemma published_loud count hash r : published count hash r -> quiet r = false.
Proof.
  intros [Hk Hm _ _]. unfold quiet. rewrite Hk, Hm. rewrite bool_decide_eq_true_2 by done.
  destruct r as [|x r]; [done|]. injection Hm as -> _. done.
Qed.
Lemma quiet_sector0 r : sector 0 r = sector 0 zeroPage -> quiet r = true.
Proof.
  intros H. unfold quiet. rewrite (bool_decide_eq_false_2 (take 7 r = _)); [by rewrite !orb_true_r|].
  change (take 7 r) with (slice 0 7 r). rewrite (sector0_slice r zeroPage) by (done || apply unit_le; lia).
  rewrite slice_zeroPage by plia. done.
Qed.
Lemma log_idle_zero : log_idle zeroPage.
Proof.
  split; [by apply quiet_sector0|]. intros r [_ H]. apply quiet_sector0. destruct (H 0%nat); [lia|done..].
Qed.
Lemma log_idle_torn b r : log_idle b -> torn_page b zeroPage r -> log_idle r.
Proof. intros [_ H] Ht. split; [by apply H|]. intros r2 H2. apply H. by eapply torn_trans. Qed.

Lemma commit_page_fields tx count hash : is_u64 count -> bytes_ok hash -> length hash = 32%nat ->
  let c := commit_page tx count hash in
  is_page c /\ published count hash c /\ forall k, (1 <= k < 7)%nat -> sector k c = sector k zeroPage.
Proof.
  intros Hc Hh Hl c. set (b1 := Page.put 0 (str "KDREDO4") zeroPage).
  assert (length (str "KDREDO4") = 7%nat) as H7 by done.
  assert (is_page b1) as Hb1 by (apply put_page; [apply zeroPage_ok|by repeat constructor|plia]).
  set (b2 := putLE 8 8 tx b1). assert (is_page b2) as Hb2 by (apply putLE_page; [done|plia]).
  set (b3 := putLE 8 16 count b2). assert (is_page b3) as Hb3 by (apply putLE_page; [done|plia]).
  set (b4 := Page.put 24 hash b3). assert (is_page b4) as Hb4 by (apply put_page; [done|done|plia]).
  assert (c = sealPage b4) as -> by done.
  pose proof (proj1 zeroPage_ok) as L0. pose proof (proj1 Hb1) as L1. pose proof (proj1 Hb2) as L2.
  pose proof (proj1 Hb3) as L3. pose proof (proj1 Hb4) as L4.
  split; [by apply sealPage_page|]. split; [split|].
  - by apply checkPage_seal.
  - change (take 7 (sealPage b4)) with (slice 0 7 (sealPage b4)). rewrite sealPage_slice by (exact Hb4 || plia).
    unfold b4. rewrite slice_put_other by plia. unfold b3, putLE.
    rewrite slice_put_other by (rewrite le_bytes_length; plia). unfold b2, putLE.
    rewrite slice_put_other by (rewrite le_bytes_length; plia). unfold b1. rewrite <- H7. rewrite slice_put_same; [done|plia].
  - unfold getLE. rewrite sealPage_slice by (exact Hb4 || plia). unfold b4.
    rewrite slice_put_other by plia. apply getLE_putLE; [plia|exact Hc].
  - rewrite sealPage_slice by (exact Hb4 || plia). unfold b4. rewrite <- Hl at 1. rewrite slice_put_same; [done|plia].
  - intros k Hk. unfold sector. assert (unit_len = 512%nat) as Hu by done.
    rewrite sealPage_slice by (exact Hb4 || plia).
    unfold b4. rewrite slice_put_other by plia. unfold b3, putLE.
    rewrite slice_put_other by (rewrite le_bytes_length; plia). unfold b2, putLE.
    rewrite slice_put_other by (rewrite le_bytes_length; plia). unfold b1. by rewrite slice_put_other by plia.
Qed.

(** A torn commit page is ignored for good, or reads as the whole one. *)
Lemma torn_commit count hash c r : length c = page_len -> published count hash c ->
  (forall k, (1 <= k < 7)%nat -> sector k c = sector k zeroPage) -> torn_page zeroPage c r ->
  log_idle r \/ published count hash r.
Proof.
  intros Hlc Hc Hz [Hl Ht]. destruct (Ht 0%nat) as [H0|H0]; [lia| |].
  { left. split; [by apply quiet_sector0|]. intros r2 [_ H2]. apply quiet_sector0. destruct (H2 0%nat) as [->| ->]; [lia|done|done]. }
  destruct (checkPage r) eqn:Ek; [right; by eapply published_sector0|left].
  assert (forall k, (1 <= k < 7)%nat -> sector k r = sector k zeroPage) as Hmid.
  { intros k Hk. destruct (Ht k) as [->| ->]; [lia|done|by apply Hz]. }
  assert (sector 7 r = sector 7 zeroPage) as H7.
  { destruct (Ht 7%nat) as [H7|H7]; [lia|done|]. exfalso. assert (r = c) as ->; [|by rewrite (pb_check _ _ _ Hc) in Ek].
    apply sector_ext; [done..|]. intros k Hk. destruct (decide (k = 0%nat)) as [->|]; [done|].
    destruct (decide (k = 7%nat)) as [->|]; [done|]. rewrite Hmid, Hz by lia. done. }
  assert (quiet r = true) as Hq by (unfold quiet; rewrite Ek; by rewrite orb_true_r).
  split; [done|]. intros r2 [Hl2 H2]. destruct (H2 0%nat) as [H20|H20]; [lia| |by apply quiet_sector0].
  assert (r2 = r) as ->; [|done].
  apply sector_ext; [done..|]. intros k Hk. destruct (H2 k Hk) as [?|Hk2]; [done|]. rewrite Hk2.
  destruct (decide (k = 0%nat)) as [->|]; [congruence|].
  destruct (decide (k = 7%nat)) as [->|]; [done|]. rewrite Hmid by lia. done.
Qed.

(** ** Reading the log *)

Lemma readRedo_quiet f size : 3 <= flen f -> quiet (page_at f logCommitPage) = true -> readRedo f size = Ok [].
Proof.
  intros Hl Hq. unfold readRedo, readFull. rewrite (proj2 (Z.ltb_ge (flen f) _)) by (unfold logCommitPage; lia).
  cbn [orb Z.ltb logCommitPage Z.compare]. cbn [res_bind]. unfold quiet in Hq.
  destruct (isZero _); [done|]. cbn [orb] in Hq. by rewrite Hq.
Qed.

Lemma concat_page_split n b : length b = (n * page_len)%nat -> concat (page_split n b) = b.
Proof.
  intros Hb. assert (forall m, (m <= n)%nat -> concat (page_split m b) = take (m * page_len) b) as H.
  { induction m as [|m IH]; intros Hm; [done|]. unfold page_split in *. rewrite seq_S, fmap_app, concat_app, IH by lia.
    cbn [Nat.add fmap list_fmap concat]. rewrite app_nil_r. unfold slice.
    replace (S m * page_len)%nat with (m * page_len + page_len)%nat by lia. by rewrite take_take_drop. }
  rewrite H by done. rewrite <- Hb. apply firstn_all.
Qed.
Lemma concat_le_length ps : length (concat (le_bytes 8 <$> ps)) = (8 * length ps)%nat.
Proof.
  induction ps as [|p ps IH]; [done|]. change (concat (le_bytes 8 <$> p :: ps)) with (le_bytes 8 p ++ concat (le_bytes 8 <$> ps)).
  rewrite length_app, IH, le_bytes_length. cbn [length]. lia.
Qed.
Lemma redo_index_length ps : length (redo_index ps) = (3 * page_len)%nat.
Proof. unfold redo_index. rewrite put_length; rewrite length_replicate; lia. Qed.
Lemma slice_concat_le ps i p : ps !! i = Some p -> slice (i * 8) 8 (concat (le_bytes 8 <$> ps)) = le_bytes 8 p.
Proof.
  revert i. induction ps as [|x ps IH]; intros i Hi; [done|].
  change (concat (le_bytes 8 <$> x :: ps)) with (le_bytes 8 x ++ concat (le_bytes 8 <$> ps)).
  destruct i as [|i]; cbn in Hi.
  - injection Hi as ->. unfold slice. rewrite drop_0, take_app_le by (rewrite le_bytes_length; lia).
    rewrite take_ge; [done|by rewrite le_bytes_length].
  - unfold slice. rewrite drop_app_ge by (rewrite le_bytes_length; lia). rewrite le_bytes_length.
    replace (S i * 8 - 8)%nat with (i * 8)%nat by lia. by apply IH.
Qed.
Lemma index_entries_redo ps : Forall is_u64 ps -> (8 * length ps <= 3 * page_len)%nat ->
  index_entries (length ps) (redo_index ps) = ps.
Proof.
  intros Hu Hl. apply list_eq. intros i. unfold index_entries. rewrite list_lookup_fmap.
  destruct (ps !! i) as [p|] eqn:Ei.
  - pose proof (lookup_lt_Some _ _ _ Ei) as Hi. rewrite lookup_seq_lt by done. cbn [fmap option_fmap option_map Nat.add].
    f_equal. unfold getLE, redo_index. set (l := concat _).
    assert (length l = 8 * length ps)%nat as Hll by apply concat_le_length.
    assert (slice (i * 8) 8 (Page.put 0 l (replicate (3 * page_len) 0)) = slice (i * 8) 8 l) as ->.
    { rewrite <- (slice_put_same 0 l (replicate (3 * page_len) 0)) at 2 by (rewrite length_replicate; lia).
      rewrite slice_slice by lia. done. }
    unfold l. rewrite (slice_concat_le _ _ _ Ei). apply le_val_bytes.
    rewrite Forall_forall in Hu. apply (Hu p). by eapply list_elem_of_lookup_2.
  - apply lookup_ge_None in Ei. rewrite lookup_seq_ge by done. done.
Qed.

Lemma redo_records_ok size rs seen : NoDup rs.*1 ->
  (forall q, q ∈ rs.*1 -> (q = 1 \/ home_page size q) /\ q ∉ seen) ->
  redo_records size seen rs.*1 rs.*2 = Ok rs.
Proof.
  revert seen. induction rs as [|[q b] rs IH]; intros seen Hnd Hq; [done|].
  cbn [fmap list_fmap fst snd redo_records] in *. apply NoDup_cons in Hnd as [Hn Hnd].
  destruct (Hq q) as [Hh Hs]; [by left|]. rewrite (bool_decide_eq_false_2 (q ∈ seen)) by done.
  assert ((q =? 0) || (logCommitPage <=? q) && (q <? slotAreaPage) && negb (presencePage q size) = false) as ->.
  { unfold logCommitPage, slotAreaPage. destruct Hh as [->|[Hh|Hh]]; [done| |].
    - unfold slotAreaPage in Hh. rewrite (proj2 (Z.ltb_ge q _)), (proj2 (Z.eqb_neq q 0)) by lia. by rewrite andb_false_r.
    - rewrite Hh. rewrite andb_false_r, orb_false_r. apply Z.eqb_neq. unfold presencePage, presenceAreaPage in Hh.
      bool_prop. lia. }
  cbn [orb]. rewrite IH; [done|done|]. intros q' Hq'. destruct (Hq q') as [? ?]; [by right|].
  split; [done|]. apply not_elem_of_union. split; [|done]. apply not_elem_of_singleton. congruence.
Qed.

(** A size [create] accepts for a writable store. *)
Definition writable_size (size : Z) : Prop := valid_size size /\ size <= maxWritableSize.
Lemma size_pages size : writable_size size -> 0 < Pages size <= 448.
Proof.
  intros [[[? _] Hm] Hx]. unfold Pages, Bytes, PayloadSize, maxWritableSize, PageSize in *.
  split; [|change (32 * 2 ^ 30) with 34359738368 in Hx]; div_lia.
Qed.

(** The redo records of a plan are in the log of [f]. *)
Definition plan_hash (p : plan) : list Z := Sum256 (redo_index (pl_existing p).*1 ++ concat (pl_existing p).*2).
Record logged (p : plan) (f : file) : Prop := {
  lg_flen : logImagesPage + Z.of_nat (length (pl_existing p)) <= flen f;
  lg_index : forall i, (i < 3)%nat ->
    page_at f (logIndexPage + Z.of_nat i) = slice (i * page_len) page_len (redo_index (pl_existing p).*1);
  lg_images : forall i b, (pl_existing p).*2 !! i = Some b -> page_at f (logImagesPage + Z.of_nat i) = b }.

Section Plan.
Context (t : transaction) (p : plan) (Hp : plan_ok t p).
Local Notation size := (s_size (store t)).
Context (Hsize : writable_size size).
Local Notation count := (Z.of_nat (length (pl_existing p))).

Lemma plan_dest q : q ∈ (pl_existing p).*1 -> (q = 1 \/ home_page size q).
Proof. intros ([q' b] & -> & H)%list_elem_of_fmap. apply (po_home _ _ Hp q' b), elem_of_app. by left. Qed.
Lemma plan_new_dest q : q ∈ (pl_new p).*1 -> (q = 1 \/ home_page size q).
Proof. intros ([q' b] & -> & H)%list_elem_of_fmap. apply (po_home _ _ Hp q' b), elem_of_app. by right. Qed.
Lemma home_not_log q : (q = 1 \/ home_page size q) -> ~ log_page q.
Proof.
  unfold home_page, log_page, presencePage, presenceAreaPage, slotAreaPage.
  change (logImagesPage + maxLogPages) with 1542. unfold logCommitPage.
  intros [->|[H|H]]; bool_prop; lia.
Qed.

Lemma directRead_pages f n page (l : list (list Z)) : 0 <= page -> length l = n -> page + Z.of_nat n <= flen f ->
  (forall i b, l !! i = Some b -> page_at f (page + Z.of_nat i) = b) -> directRead f n page = Ok l.
Proof.
  intros H0 Hn Hl H. unfold directRead. rewrite (proj2 (Z.ltb_ge _ _)), (proj2 (Z.ltb_ge (flen f) _)) by lia.
  cbn [orb]. f_equal. apply list_eq. intros i. rewrite list_lookup_fmap. destruct (l !! i) as [b|] eqn:E.
  - pose proof (lookup_lt_Some _ _ _ E). rewrite lookup_seq_lt by lia. cbn. f_equal. by apply H.
  - apply lookup_ge_None in E. by rewrite lookup_seq_ge by lia.
Qed.

Lemma readRedo_logged f : logged p f -> published count (plan_hash p) (page_at f logCommitPage) ->
  readRedo f size = Ok (pl_existing p).
Proof.
  intros [Hl Hi Hm] Hpb. pose proof (published_loud _ _ _ Hpb) as Hq. destruct (po_count _ _ Hp) as [Hc0 Hc1].
  change logImagesPage with 6 in *. change maxLogPages with 1536 in *.
  unfold readRedo, readFull. rewrite (proj2 (Z.ltb_ge (flen f) _)) by (unfold logCommitPage; lia).
  cbn [orb Z.ltb logCommitPage Z.compare res_bind]. unfold quiet in Hq.
  destruct (isZero _); [done|]. cbn [orb] in Hq. change 2 with logCommitPage. rewrite Hq.
  rewrite (pb_count _ _ _ Hpb). change maxLogPages with 1536.
  rewrite (proj2 (Z.eqb_neq count 0)), (proj2 (Z.ltb_ge 1536 count)) by lia. cbn [orb].
  rewrite (directRead_pages f 3 logIndexPage (page_split 3 (redo_index (pl_existing p).*1)));
    [|done|done|unfold logIndexPage; lia|].
  2:{ intros i b. unfold page_split. rewrite list_lookup_fmap. destruct (decide (i < 3)%nat).
      - rewrite lookup_seq_lt by done. intros [= <-]. by apply Hi.
      - by rewrite lookup_seq_ge by lia. }
  cbn [res_bind]. rewrite Nat2Z.id.
  rewrite (directRead_pages f _ logImagesPage (pl_existing p).*2);
    [|done|by rewrite length_fmap|change logImagesPage with 6; lia|done].
  cbn [res_bind]. rewrite concat_page_split by apply redo_index_length.
  rewrite (bool_decide_eq_true_2 (Sum256 _ = _)) by (rewrite (pb_hash _ _ _ Hpb); reflexivity). cbn [negb].
  rewrite <- (length_fmap fst (pl_existing p)), index_entries_redo.
  - apply redo_records_ok; [apply Hp|]. intros q Hq'. split; [by apply plan_dest|set_solver].
  - apply Forall_forall. intros q Hq'%plan_dest. unfold home_page, presencePage, presenceAreaPage, slotAreaPage in Hq'.
    apply size_pages in Hsize. unfold is_u64. destruct Hq' as [->|[H|H]]; bool_prop; lia.
  - rewrite length_fmap. plia.
Qed.

(** ** The phases of a commit *)

Context (c : option xts_cipher) (Hfr : fresh_ok t) (Hdata : forall d, d ∈ t_data t -> 1 <= dw_slot d).
Local Notation f0 := (s_file (store t)).
Context (Hlen : slotAreaPage <= flen f0) (Hidle : log_idle (page_at f0 logCommitPage)).
Local Notation pre_writes := (writeData c t ++ home_writes (pl_new p) ++ redo_prepare p).
Local Notation f_pre := (apply_writes pre_writes f0).
Local Notation f_home := (apply_writes (home_writes (pl_existing p)) f_pre).

Record old_state (f : file) : Prop := {
  os_flen : slotAreaPage <= flen f;
  os_full : flen f0 <= flen f;
  os_idle : log_idle (page_at f logCommitPage);
  os_pages : forall q, ~ log_page q -> q ∉ fresh t -> ~ data_page t q -> page_at f q = page_at f0 q }.
Record mid_state (f : file) : Prop := {
  ms_flen : slotAreaPage <= flen f;
  ms_full : flen f_pre <= flen f;
  ms_logged : logged p f;
  ms_torn : torn_page zeroPage (redo_commit p) (page_at f logCommitPage);
  ms_published : published count (plan_hash p) (page_at f logCommitPage);
  ms_pages : forall q, ~ log_page q -> q ∉ (pl_existing p).*1 -> page_at f q = page_at f_pre q }.
Record new_state (f : file) : Prop := {
  ns_flen : slotAreaPage <= flen f;
  ns_full : flen f_home <= flen f;
  ns_idle : log_idle (page_at f logCommitPage);
  ns_pages : forall q, ~ log_page q -> page_at f q = page_at f_home q }.

Lemma log_2 : log_page logCommitPage.
Proof. unfold log_page. change (logImagesPage + maxLogPages) with 1542. unfold logCommitPage. lia. Qed.
Lemma data_not_log q : data_page t q -> ~ log_page q.
Proof.
  intros (d & Hd & ->). pose proof (slotPage_area (dw_slot d) (Hdata d Hd)). unfold log_page.
  change (logImagesPage + maxLogPages) with 1542. unfold slotAreaPage in *. lia.
Qed.
Lemma new_fresh q : q ∈ (pl_new p).*1 -> q ∈ fresh t.
Proof. intros ([q' b] & -> & H)%list_elem_of_fmap. by apply (po_new _ _ Hp q' b). Qed.
Lemma existing_not_log q : q ∈ (pl_existing p).*1 -> ~ log_page q.
Proof. intros H. by apply home_not_log, plan_dest. Qed.
Lemma new_not_log q : q ∈ (pl_new p).*1 -> ~ log_page q.
Proof. intros H. by apply home_not_log, plan_new_dest. Qed.
Lemma prepare_log w q : w ∈ redo_prepare p -> covers w q -> log_page q.
Proof.
  destruct (po_count _ _ Hp) as [_ Hc]. unfold log_page, covers, redo_prepare.
  change (logImagesPage + maxLogPages) with 1542. change maxLogPages with 1536 in Hc. unfold logCommitPage.
  rewrite !elem_of_cons, elem_of_nil. intros [->|[->|[->|[]]]]; cbn [wr_page wr_data length page_split fmap list_fmap seq];
    rewrite ?length_fmap; change logImagesPage with 6; change logIndexPage with 3; lia.
Qed.

(** What the writes before the commit page leave alone. *)
Lemma pre_covers w q : w ∈ pre_writes -> covers w q -> data_page t q \/ q ∈ fresh t \/ log_page q.
Proof.
  intros [H|[H|H]%elem_of_app]%elem_of_app Hc.
  - left. by eapply writeData_covers.
  - right; left. by eapply new_fresh, home_writes_covers.
  - right; right. by eapply prepare_log.
Qed.

Lemma pre_crash f : crashed f0 pre_writes f -> old_state f.
Proof.
  intros Hc. pose proof (crashed_flen _ _ _ Hc) as Hf. split; [lia|done|..].
  - rewrite app_assoc in Hc. set (ws := writeData c t ++ home_writes (pl_new p)) in Hc.
    assert (forall w, w ∈ ws -> ~ covers w logCommitPage) as Hws.
    { intros w [H|H]%elem_of_app Hcv.
      - by eapply data_not_log, log_2; eapply writeData_covers.
      - by eapply new_not_log, log_2; eapply home_writes_covers. }
    apply crashed_app in Hc as [Hc|Hc]; [by rewrite (crashed_other _ _ _ _ Hc Hws)|].
    assert (log_idle (page_at (apply_writes ws f0) logCommitPage)) as Hi
      by (by rewrite (apply_writes_other _ _ _ Hws)).
    unfold redo_prepare in Hc. inversion Hc as [|? ? ? ? [_ Ht]|? ? ? ? Hc']; subst; [done| |].
    + destruct (Ht logCommitPage) as [[_ ->]|[_ H]]; [done|]. unfold apply_write in H.
      rewrite page_at_writeFull in H. cbn [wr_page wr_data length] in H. rewrite decide_True, Z.sub_diag in H by lia.
      by eapply log_idle_torn.
    + rewrite (crashed_other _ _ _ _ Hc').
      * unfold apply_write. rewrite page_at_writeFull. cbn [wr_page wr_data length].
        rewrite decide_True, Z.sub_diag by lia. apply log_idle_zero.
      * intros w. rewrite !elem_of_cons, elem_of_nil. unfold covers, logCommitPage.
        change logImagesPage with 6. change logIndexPage with 3. intros [->|[->|[]]]; cbn [wr_page]; lia.
  - intros q Hl Hq Hd. apply (crashed_other _ _ _ _ Hc). intros w Hw Hcv.
    destruct (pre_covers w q Hw Hcv) as [?|[?|?]]; done.
Qed.

Lemma pre_logged : logged p f_pre /\ page_at f_pre logCommitPage = zeroPage.
Proof.
  rewrite app_assoc, apply_writes_app. set (g := apply_writes (_ ++ _) f0). pose proof (proj1 (po_count _ _ Hp)) as Hc.
  unfold redo_prepare, apply_writes. cbn [fold_left]. unfold apply_write. cbn [wr_page wr_data].
  change logImagesPage with 6. change logIndexPage with 3. unfold logCommitPage.
  set (idx := page_split 3 _). assert (length idx = 3%nat) as Hi by done.
  split; [split|].
  - rewrite <- (length_fmap snd). apply flen_writeFull. intros H. apply fmap_nil_inv in H. rewrite H in Hc. cbn in Hc. lia.
  - intros i Hi3. change logIndexPage with 3. rewrite !page_at_writeFull. rewrite decide_False, decide_True by lia.
    replace (Z.to_nat (3 + Z.of_nat i - 3)) with i by lia. unfold idx, page_split.
    rewrite list_lookup_fmap, lookup_seq_lt by done. done.
  - intros i b Hb. change logImagesPage with 6. rewrite !page_at_writeFull. pose proof (lookup_lt_Some _ _ _ Hb).
    rewrite decide_True by lia. replace (Z.to_nat (6 + Z.of_nat i - 6)) with i by lia. by rewrite Hb.
  - rewrite !page_at_writeFull. cbn [length]. rewrite decide_False, decide_False, decide_True by lia. done.
Qed.

Lemma redo_commit_fields : is_page (redo_commit p) /\ published count (plan_hash p) (redo_commit p) /\
  forall k, (1 <= k < 7)%nat -> sector k (redo_commit p) = sector k zeroPage.
Proof.
  destruct (po_count _ _ Hp). change maxLogPages with 1536 in *.
  apply commit_page_fields; [unfold is_u64; lia|apply Sum256_ok|apply Sum256_length].
Qed.
Lemma torn_redo_commit r : torn_page zeroPage (redo_commit p) r ->
  log_idle r \/ published count (plan_hash p) r.
Proof. destruct redo_commit_fields as ([Hl _] & Hpb & Hz). by apply torn_commit. Qed.
Lemma torn_redo_clear r r' : torn_page zeroPage (redo_commit p) r -> torn_page r zeroPage r' ->
  torn_page zeroPage (redo_commit p) r'.
Proof. intros H H'. apply torn_sym. eapply torn_trans; [by apply torn_sym|done]. Qed.
Lemma torn_whole a b : length b = page_len -> torn_page a b b.
Proof. intros H. split; [done|]. auto. Qed.

Lemma logged_frame g f : logged p g -> flen g <= flen f ->
  (forall q, log_page q -> q <> logCommitPage -> page_at f q = page_at g q) -> logged p f.
Proof.
  intros [Hl Hi Hm] Hf H. destruct (po_count _ _ Hp) as [_ Hc]. unfold log_page in H.
  change (logImagesPage + maxLogPages) with 1542 in H. change maxLogPages with 1536 in Hc.
  change logImagesPage with 6 in *. change logIndexPage with 3 in *. unfold logCommitPage in H.
  split; change logImagesPage with 6; change logIndexPage with 3; [lia|..].
  - intros i Hi3. rewrite H by lia. by apply Hi.
  - intros i b Hb. pose proof (lookup_lt_Some _ _ _ Hb) as Hlt. rewrite length_fmap in Hlt.
    rewrite H by lia. by apply Hm.
Qed.
Lemma clear_page f : page_at (apply_write f (mkWrite logCommitPage [zeroPage])) logCommitPage = zeroPage.
Proof. unfold apply_write. rewrite page_at_writeFull. cbn [wr_page wr_data length]. rewrite decide_True by lia. done. Qed.
Lemma clear_covers b q : covers (mkWrite logCommitPage [b]) q <-> q = logCommitPage.
Proof. unfold covers. cbn [wr_page wr_data length]. lia. Qed.
Lemma home_log f q : log_page q -> page_at (apply_writes (home_writes (pl_existing p)) f) q = page_at f q.
Proof. intros Hq. apply apply_home_other. intros H. by apply existing_not_log in H. Qed.

(** Replaying over a published log gives the committed pages. *)
Lemma mid_home f q : mid_state f -> ~ log_page q ->
  page_at (apply_writes (home_writes (pl_existing p)) f) q = page_at f_home q.
Proof.
  intros Hm Hq. destruct (decide (q ∈ (pl_existing p).*1)) as [Hin|Hin].
  - apply list_elem_of_fmap in Hin as ([q' b] & -> & Hin). cbn [fst].
    rewrite !(apply_home_same _ _ _ b); [done|apply Hp|done|apply Hp|done].
  - rewrite !apply_home_other by done. by apply Hm.
Qed.
Lemma mid_after_home f : mid_state f -> mid_state (apply_writes (home_writes (pl_existing p)) f).
Proof.
  intros Hm. pose proof (flen_apply_writes (home_writes (pl_existing p)) f). pose proof (ms_flen f Hm).
  pose proof (ms_full f Hm). split; [lia|lia|..].
  - eapply logged_frame; [by apply ms_logged|done|]. intros q Hq _. by apply home_log.
  - rewrite home_log by apply log_2. apply Hm.
  - rewrite home_log by apply log_2. apply Hm.
  - intros q Hq Hn. rewrite apply_home_other by done. by apply Hm.
Qed.

(** A published log whose commit page alone has changed since. *)
Lemma mid_commit_page g f : mid_state g -> flen g <= flen f ->
  (forall q, q <> logCommitPage -> page_at f q = page_at g q) ->
  torn_page zeroPage (redo_commit p) (page_at f logCommitPage) ->
  published count (plan_hash p) (page_at f logCommitPage) -> mid_state f.
Proof.
  intros Hm Hf Hq Ht Hpb. pose proof (ms_flen g Hm). pose proof (ms_full g Hm). split; [lia|lia| |done|done|].
  - eapply logged_frame; [by apply ms_logged|done|]. intros q _. apply Hq.
  - intros q Hl Hn. rewrite Hq; [by apply Hm|]. intros ->. by apply Hl, log_2.
Qed.
Lemma mid_new f f' : mid_state f -> flen (apply_writes (home_writes (pl_existing p)) f) <= flen f' -> log_idle (page_at f' logCommitPage) ->
  (forall q, q <> logCommitPage -> page_at f' q = page_at (apply_writes (home_writes (pl_existing p)) f) q) ->
  new_state f'.
Proof.
  intros Hm Hl Hi Hq. pose proof (ms_flen f Hm). pose proof (flen_apply_writes (home_writes (pl_existing p)) f).
  pose proof (flen_apply_mono (home_writes (pl_existing p)) _ _ (ms_full f Hm)). split; [lia|lia|done|]. intros q Hlq. rewrite Hq; [by apply mid_home|].
  intros ->. by apply Hlq, log_2.
Qed.

Lemma mid_crash f f' : mid_state f -> crashed f (redo_apply p) f' -> mid_state f' \/ new_state f'.
Proof.
  intros Hm Hc. pose proof (ms_flen f Hm) as Hl1. pose proof (ms_full f Hm) as Hl2. pose proof (crashed_flen _ _ _ Hc) as Hl3.
  unfold redo_apply in Hc. apply crashed_app in Hc as [Hc|Hc].
  { left. assert (forall q, q ∉ (pl_existing p).*1 -> page_at f' q = page_at f q) as Hq.
    { intros q Hq. apply (crashed_other _ _ _ _ Hc). intros w Hw Hcv. by eapply Hq, home_writes_covers. }
    assert (forall q, log_page q -> page_at f' q = page_at f q) as Hlog.
    { intros q Hl. apply Hq. intros H'. by apply existing_not_log in H'. }
    split; [lia|lia|..].
    - eapply logged_frame; [by apply ms_logged|done|]. auto.
    - rewrite Hlog by apply log_2. apply Hm.
    - rewrite Hlog by apply log_2. apply Hm.
    - intros q Hl Hn. rewrite Hq by done. by apply Hm. }
  pose proof (mid_after_home f Hm) as Hg. pose proof (crashed_flen _ _ _ Hc).
  inversion Hc as [|? ? ? ? [_ Ht]|? ? ? ? Hc']; subst.
  - by left.
  - assert (forall q, q <> logCommitPage ->
      page_at f' q = page_at (apply_writes (home_writes (pl_existing p)) f) q) as Hq.
    { intros q Hq. destruct (Ht q) as [[_ ?]|[H' _]]; [done|]. by apply clear_covers in H'. }
    destruct (Ht logCommitPage) as [[Hn _]|[_ H']]; [exfalso; by apply Hn, clear_covers|].
    rewrite clear_page in H'. pose proof (torn_redo_clear _ _ (ms_torn _ Hg) H') as Ht'.
    destruct (torn_redo_commit _ Ht'); [right; apply (mid_new f); [done|lia|done|done]|left; by eapply mid_commit_page].
  - apply crashed_nil in Hc' as ->. right. apply (mid_new f); [done|lia|rewrite clear_page; apply log_idle_zero|].
    intros q Hq. apply apply_write_other. by rewrite clear_covers.
Qed.

Lemma publish_page f : page_at (apply_write f (redo_publish p)) logCommitPage = redo_commit p.
Proof. unfold apply_write. rewrite page_at_writeFull. cbn [redo_publish wr_page wr_data length]. rewrite decide_True by lia. done. Qed.
Lemma mid_publish f : flen f_pre <= flen f -> (forall q, q <> logCommitPage -> page_at f q = page_at f_pre q) ->
  torn_page zeroPage (redo_commit p) (page_at f logCommitPage) -> old_state f \/ mid_state f.
Proof.
  intros Hf Hq Ht. pose proof (flen_apply_writes pre_writes f0) as Hl. destruct (torn_redo_commit _ Ht) as [Hi|Hpb].
  - left. split; [lia|lia|done|]. intros q Hlq Hfq Hdq. rewrite Hq by (intros ->; by apply Hlq, log_2).
    by apply (pre_crash f_pre (crashed_all _ _)).
  - right. split; [lia|lia| |done|done|].
    + eapply logged_frame; [apply pre_logged|done|]. intros q _. apply Hq.
    + intros q Hlq _. apply Hq. intros ->. by apply Hlq, log_2.
Qed.

Lemma commit_writes_eq : commit_writes c t (Some p) = pre_writes ++ redo_publish p :: redo_apply p.
Proof. unfold commit_writes. by rewrite <- !app_assoc. Qed.
Lemma commit_crash f : crashed f0 (commit_writes c t (Some p)) f -> old_state f \/ mid_state f \/ new_state f.
Proof.
  rewrite commit_writes_eq. intros Hc. apply crashed_app in Hc as [Hc|Hc]; [left; by apply pre_crash|].
  inversion Hc as [|? ? ? ? [Hl Ht]|? ? ? ? Hc']; subst.
  - left. apply pre_crash, crashed_all.
  - assert (old_state f \/ mid_state f) as []; [|by left|by right; left]. apply mid_publish; [done|..].
    + intros q Hq. destruct (Ht q) as [[_ ?]|[H' _]]; [done|]. by apply clear_covers in H'.
    + destruct (Ht logCommitPage) as [[Hn _]|[_ H']]; [exfalso; by apply Hn, clear_covers|].
      by rewrite publish_page, (proj2 pre_logged) in H'.
  - right. eapply mid_crash; [|exact Hc']. destruct redo_commit_fields as ([Hlc _] & Hpb & _).
    pose proof (proj1 (flen_writeFull f_pre logCommitPage [redo_commit p])).
    destruct (mid_publish (apply_write f_pre (redo_publish p))) as [H'|]; [done|..|done].
    + intros q Hq. apply apply_write_other. unfold redo_publish. by rewrite clear_covers.
    + rewrite publish_page. by apply torn_whole.
    + destruct (os_idle _ H') as [Hq _]. rewrite publish_page, (published_loud _ _ _ Hpb) in Hq. done.
Qed.

Lemma recovery_redo : recovery_writes (pl_existing p) = redo_apply p.
Proof. unfold recovery_writes, redo_apply. destruct (pl_existing p) eqn:E; [|done]. pose proof (proj1 (po_count _ _ Hp)) as H. rewrite E in H. cbn in H. lia. Qed.
Lemma idle_readRedo f : slotAreaPage <= flen f -> log_idle (page_at f logCommitPage) -> readRedo f size = Ok [].
Proof. unfold slotAreaPage. intros Hl [Hq _]. apply readRedo_quiet; [lia|done]. Qed.
Lemma interrupted_idle f f' : slotAreaPage <= flen f -> log_idle (page_at f logCommitPage) ->
  interrupted size f f' -> f' = f.
Proof. intros Hl Hi (rs & Hr & Hc). rewrite idle_readRedo in Hr by done. injection Hr as <-. by apply crashed_nil. Qed.

(** Any number of interrupted recoveries keeps the outcome. *)
Lemma interrupted_states f f' : rtc (interrupted size) f f' ->
  old_state f \/ mid_state f \/ new_state f -> old_state f' \/ mid_state f' \/ new_state f'.
Proof.
  induction 1 as [|f g f' Hi _ IH]; [done|]. intros Hst. apply IH. destruct Hst as [H|[H|H]].
  - rewrite (interrupted_idle f g (os_flen f H) (os_idle f H) Hi). by left.
  - destruct Hi as (rs & Hr & Hc). rewrite (readRedo_logged f (ms_logged f H) (ms_published f H)) in Hr.
    injection Hr as <-. rewrite recovery_redo in Hc. destruct (mid_crash f g H Hc); auto.
  - rewrite (interrupted_idle f g (ns_flen f H) (ns_idle f H) Hi). auto.
Qed.

Lemma final_pages q : ~ log_page q -> page_at (apply_writes (commit_writes c t (Some p)) f0) q = page_at f_home q.
Proof.
  intros Hq. rewrite commit_writes_eq, apply_writes_app. cbn [apply_writes fold_left].
  change (fold_left apply_write (redo_apply p) ?g) with (apply_writes (redo_apply p) g).
  unfold redo_apply. rewrite apply_writes_app. cbn [apply_writes fold_left].
  assert (q <> logCommitPage) as H2 by (intros ->; by apply Hq, log_2).
  rewrite apply_write_other by (by rewrite clear_covers).
  change (fold_left apply_write (home_writes (pl_existing p)) ?g) with (apply_writes (home_writes (pl_existing p)) g).
  destruct (decide (q ∈ (pl_existing p).*1)) as [Hin|Hin].
  - apply list_elem_of_fmap in Hin as ([q' b] & -> & Hin). cbn [fst].
    rewrite !(apply_home_same _ _ _ b); [done|apply Hp|done|apply Hp|done].
  - rewrite !apply_home_other by done. apply apply_write_other. unfold redo_publish. by rewrite clear_covers.
Qed.

Lemma final_flen : flen (apply_writes (commit_writes c t (Some p)) f0) = flen f_home.
Proof.
  rewrite commit_writes_eq, apply_writes_app. unfold redo_apply, apply_writes at 1. cbn [fold_left].
  rewrite (fold_left_app _ (home_writes _)). cbn [fold_left]. unfold apply_write at 1. cbn [wr_page wr_data writeFull writePage flen].
  change (fold_left apply_write (home_writes (pl_existing p)) ?g) with (apply_writes (home_writes (pl_existing p)) g).
  pose proof (flen_apply_writes pre_writes f0) as H1. pose proof (flen_apply_writes (home_writes (pl_existing p)) f_pre) as H2.
  assert (flen (apply_write f_pre (redo_publish p)) = flen f_pre) as H3.
  { cbn [apply_write redo_publish wr_page wr_data writeFull writePage flen]. unfold slotAreaPage, logCommitPage in *. lia. }
  pose proof (flen_apply_mono (home_writes (pl_existing p)) (apply_write f_pre (redo_publish p)) f_pre ltac:(lia)).
  pose proof (flen_apply_mono (home_writes (pl_existing p)) f_pre (apply_write f_pre (redo_publish p)) ltac:(lia)).
  unfold slotAreaPage, logCommitPage in *. lia.
Qed.
Definition recovered_old (g : file) (ctrl : control) : Prop :=
  ctrl = s_ctrl (store t) /\ flen f0 <= flen g /\
  forall q, ~ log_page q -> q ∉ fresh t -> ~ data_page t q -> page_at g q = page_at f0 q.
Definition recovered_new (g : file) (ctrl : control) : Prop :=
  ctrl = pl_ctrl p /\ flen (apply_writes (commit_writes c t (Some p)) f0) <= flen g /\
  forall q, ~ log_page q -> page_at g q = page_at (apply_writes (commit_writes c t (Some p)) f0) q.

Lemma not_log_1 : ~ log_page 1.
Proof. unfold log_page, logCommitPage. lia. Qed.
Lemma home_ctrl : decodeControl (page_at f_home 1) = Ok (pl_ctrl p).
Proof. destruct (po_page1 _ _ Hp) as (b & Hb & Hd). rewrite (apply_home_same _ _ _ b); [exact Hd|apply Hp|exact Hb]. Qed.

Lemma recover_idle f ctrl : slotAreaPage <= flen f -> log_idle (page_at f logCommitPage) ->
  decodeControl (page_at f 1) = Ok ctrl -> recover f size = Ok (f, ctrl).
Proof.
  intros Hl Hi Hd. unfold recover. rewrite idle_readRedo by done. cbn [res_bind recovery_writes home_writes fmap list_fmap app].
  unfold readFull. cbn [apply_writes fold_left]. unfold slotAreaPage in Hl.
  rewrite (proj2 (Z.ltb_ge (flen f) _)) by lia. cbn [orb Z.ltb Z.compare res_bind]. by rewrite Hd.
Qed.
Lemma recover_new f : new_state f -> recover f size = Ok (f, pl_ctrl p) /\ recovered_new f (pl_ctrl p).
Proof.
  intros [Hl Hu Hi Hq]. split.
  - apply recover_idle; [done..|]. rewrite Hq by apply not_log_1. apply home_ctrl.
  - split; [done|]. split; [by rewrite final_flen|]. intros q Hlq. by rewrite final_pages, Hq.
Qed.
Lemma recover_mid f : mid_state f -> exists g, recover f size = Ok (g, pl_ctrl p) /\ new_state g.
Proof.
  intros Hm. exists (apply_writes (redo_apply p) f). pose proof (flen_apply_writes (redo_apply p) f) as Hf.
  pose proof (ms_flen f Hm) as Hl.
  assert (new_state (apply_writes (redo_apply p) f)) as Hn.
  { unfold redo_apply in *. rewrite apply_writes_app in *. cbn [apply_writes fold_left] in *.
    apply (mid_new f); [done|apply flen_writeFull|rewrite clear_page; apply log_idle_zero|].
    intros q Hq. apply apply_write_other. by rewrite clear_covers. }
  split; [|done]. unfold recover. rewrite (readRedo_logged f (ms_logged f Hm) (ms_published f Hm)).
  cbn [res_bind]. rewrite recovery_redo. unfold readFull. unfold slotAreaPage in Hl.
  rewrite (proj2 (Z.ltb_ge (flen _) _)) by lia. cbn [orb Z.ltb Z.compare res_bind].
  rewrite (ns_pages _ Hn) by apply not_log_1. by rewrite home_ctrl.
Qed.
End Plan.

(** ** The theorem *)

(** A transaction that is about to commit, on an open store. *)
Record ready (t : transaction) : Prop := {
  rd_wf : tx_wf t;
  rd_fresh : fresh_ok t;
  rd_data : forall d, d ∈ t_data t -> 1 <= dw_slot d;
  rd_size : writable_size (s_size (store t));
  rd_flen : slotAreaPage <= flen (s_file (store t));
  rd_idle : log_idle (page_at (s_file (store t)) logCommitPage);
  rd_ctrl : decodeControl (page_at (s_file (store t)) 1) = Ok (s_ctrl (store t)) }.

Lemma old_ctrl t : ready t -> decodeControl (page_at (s_file (store t)) 1) = Ok (s_ctrl (store t)) /\
  1 ∉ fresh t /\ ~ data_page t 1.
Proof.
  intros Hr. split; [apply Hr|]. split.
  - intros H%(rd_fresh t Hr). unfold slotAreaPage in H. lia.
  - intros (d & Hd & He). pose proof (slotPage_area _ (rd_data t Hr d Hd)). unfold slotAreaPage in *. lia.
Qed.
Lemma recover_old t f : ready t -> old_state t f ->
  recover f (s_size (store t)) = Ok (f, s_ctrl (store t)) /\ recovered_old t f (s_ctrl (store t)).
Proof.
  intros Hr [Hl Hu Hi Hq]. destruct (old_ctrl t Hr) as (Hd & Hf & Hp). split; [|by split].
  apply recover_idle; [done..|]. rewrite Hq; [done|apply not_log_1|done..].
Qed.
Lemma data_crash c t f : ready t -> crashed (s_file (store t)) (writeData c t) f -> old_state t f.
Proof.
  intros Hr Hc. pose proof (crashed_flen _ _ _ Hc). pose proof (rd_flen t Hr). split; [lia|done|..].
  - rewrite (crashed_other _ _ _ _ Hc); [apply Hr|]. intros w Hw Hcv.
    eapply data_not_log, log_2; [apply Hr|by eapply writeData_covers].
  - intros q _ _ Hd. apply (crashed_other _ _ _ _ Hc). intros w Hw Hcv. by eapply Hd, writeData_covers.
Qed.

Lemma commit_recovers c t pl f f' :
  ready t -> commit_plan t = Ok pl ->
  crashed (s_file (store t)) (commit_writes c t pl) f ->
  rtc (interrupted (s_size (store t))) f f' ->
  exists g ctrl, recover f' (s_size (store t)) = Ok (g, ctrl) /\
    slotAreaPage <= flen g /\ log_idle (page_at g logCommitPage) /\
    (recovered_old t g ctrl \/ exists p, pl = Some p /\ recovered_new t p c g ctrl).
Proof.
  intros Hr Hpl Hc Hi. destruct pl as [p|].
  - pose proof (commit_plan_ok t p (rd_wf t Hr) (rd_fresh t Hr) Hpl) as Hp. destruct Hr as [? ? ? ? ? ? ?] eqn:E.
    clear E. apply interrupted_states with (p := p) (c := c) in Hi; [|done..|by apply commit_crash].
    destruct Hi as [H|[H|H]].
    + destruct (recover_old t f') as [Hrec Ho]; [done..|]. exists f', (s_ctrl (store t)). split_and!; [done|apply H|apply H|by left].
    + destruct (recover_mid t p Hp rd_size0 c f' H) as (g & Hrec & Hn). exists g, (pl_ctrl p).
      destruct (recover_new t p Hp c rd_flen0 g Hn). split_and!; [done|apply Hn|apply Hn|right; by exists p].
    + destruct (recover_new t p Hp c rd_flen0 f' H). exists f', (pl_ctrl p). split_and!; [done|apply H|apply H|right; by exists p].
  - pose proof (data_crash c t f Hr Hc) as Hs. assert (f' = f) as ->.
    { induction Hi as [|f g f' Hi _ IH]; [done|]. 
      apply (interrupted_idle t) in Hi as ->; [|apply Hs|apply Hs]. by apply IH. }
    destruct (recover_old t f Hr Hs). exists f, (s_ctrl (store t)). split_and!; [done|apply Hs|apply Hs|by left].
Qed.

(** Crash atomicity: interrupt the writes of a commit anywhere, with the write
    in progress torn at any sector, and then any number of recoveries anywhere.
    Opening the store then succeeds, leaves an idle redo log, and finds either the
    control of before the transaction and every page that the transaction had not
    newly allocated or rewritten as payload, or the control and all the pages of the
    completed commit. *)
Theorem commit_atomic c t pl f f' :
  ready t -> commit_plan t = Ok pl ->
  crashed (s_file (store t)) (commit_writes c t pl) f ->
  rtc (interrupted (s_size (store t))) f f' ->
  exists g ctrl, recover f' (s_size (store t)) = Ok (g, ctrl) /\
    slotAreaPage <= flen g /\ log_idle (page_at g logCommitPage) /\
    (recovered_old t g ctrl \/ exists p, pl = Some p /\ recovered_new t p c g ctrl).
Proof. apply commit_recovers. Qed.

Lemma demo_page_zero q : fpages demo_file !! q = None -> page_at demo_file q = zeroPage.
Proof. intros H. unfold page_at. by rewrite H. Qed.
Lemma demo_log_page : page_at demo_file logCommitPage = zeroPage.
Proof.
  apply demo_page_zero. cbn [demo_file fpages]. unfold logCommitPage.
  rewrite !lookup_insert_ne by done. by rewrite lookup_singleton_ne by done.
Qed.
Lemma demo_writable : writable_size demo_size.
Proof. split; [apply demo_valid_size|discriminate]. Qed.
Lemma demo_ready : ready demo_change.
Proof.
  split; cbn [demo_change demo_tx begin set_ctrl store s_file s_size s_ctrl demo_store].
  - apply demo_change_wf.
  - apply demo_change_fresh.
  - intros d Hd. cbn in Hd. by apply elem_of_nil in Hd.
  - apply demo_writable.
  - discriminate.
  - rewrite demo_log_page. apply log_idle_zero.
  - unfold page_at. rewrite demo_control_page. apply demo_ctrl_page_ok.
Qed.
Lemma demo_plan : exists p, commit_plan demo_change = Ok (Some p).
Proof.
  unfold commit_plan. rewrite (bool_decide_eq_false_2 (t_ctrl demo_change = _)) by discriminate. rewrite andb_false_r.
  destruct (decodeControl_encode (bump_Tx (t_ctrl demo_change))) as (b & -> & _); [apply bump_ok, demo_change_wf|].
  cbn [res_bind]. rewrite existing_count by (apply demo_change_wf || apply demo_change_fresh). eexists. reflexivity.
Qed.

(** The demo commit, interrupted after its last write. *)
Lemma commit_atomic_witness : exists p g ctrl,
  let f := apply_writes (commit_writes None demo_change (Some p)) demo_file in
  commit_plan demo_change = Ok (Some p) /\ recover f demo_size = Ok (g, ctrl) /\
  slotAreaPage <= flen g /\ log_idle (page_at g logCommitPage) /\
  (recovered_old demo_change g ctrl \/ exists p', Some p = Some p' /\ recovered_new demo_change p' None g ctrl).
Proof.
  destruct demo_plan as [p Hp].
  destruct (commit_atomic None demo_change (Some p) _ _ demo_ready Hp (crashed_all _ _) (rtc_refl _ _))
    as (g & ctrl & H). exists p, g, ctrl. split; [exact Hp|exact H].
Defined.
