(* ===== verification/Publish.v ===== *)
(** * Publish: what a store shows after a commit.

    Joins the transaction (Tx.v, TreeWrite.v) with the redo log (Commit.v,
    Crash.v): the next transaction over the committed file reads the descriptors,
    nodes and checkpoints of the one that committed, so the theorems on tree
    operations chain across commits, and a crash shows all of them or none. *)
From stdpp Require Import base numbers list gmap strings sorting relations.
From Stdlib Require Import ZArith Lia.
From S2P Require Import Prelude Page Presence Json Format Tree Tx Demo TreeWrite Sha256 Commit Crash.

#[local] Opaque Sum256 sealPage checkPage Page.put.

(** A cipher that maps sectors to sectors; [None] is a plaintext store. *)
Definition is_sector (b : list Z) : Prop := length b = unit_len /\ bytes_ok b.
Definition cipher_ok (c : option xts_cipher) : Prop :=
  match c with
  | None => True
  | Some c => (forall b n, is_sector b -> is_sector (Encrypt c b n)) /\
      (forall b n, is_sector b -> Decrypt c (Encrypt c b n) n = b)
  end.
(** Payload goes to data slots that no retained checkpoint shares. *)
Definition data_ok (t : transaction) : Prop := forall d, d ∈ t_data t ->
  is_page (dw_data d) /\ exists de, dsc t (dw_slot d) = Some de /\ Kind de = kindData /\ pe t < Birth de.

Lemma sectors_page n f number b : (forall b n, is_sector b -> is_sector (f b n)) ->
  length b = (n * unit_len)%nat -> bytes_ok b ->
  length (sectors n f number b) = (n * unit_len)%nat /\ bytes_ok (sectors n f number b).
Proof.
  intros Hf. revert number b. induction n as [|n IH]; intros number b Hl Hb; [done|]. cbn [sectors].
  assert (is_sector (take unit_len b)) as Hs by (split; [rewrite length_take; lia|by apply Forall_take]).
  destruct (Hf _ number Hs) as [Hfl Hfb]. destruct (IH (u64 (number + 1)) (drop unit_len b)) as [Hl2 Hb2].
  { rewrite length_drop. lia. }
  { by apply Forall_drop. }
  split; [rewrite length_app; lia|by apply Forall_app].
Qed.
Lemma page_sectors (b : list Z) : length b = page_len -> length b = (length b / unit_len * unit_len)%nat.
Proof. intros ->. done. Qed.
Lemma crypt_page c b block : cipher_ok c -> is_page b -> is_page (crypt c b block true).
Proof.
  intros Hc [Hl Hb]. unfold crypt, Transform. destruct c as [c|]; [|done]. destruct Hc as [He _].
  pose proof (page_sectors b Hl) as Hs. destruct (sectors_page _ _ (u64 (block * (PageSize / UnitSize))) b He Hs Hb).
  split; [congruence|done].
Qed.

(** Decryption under the same logical block undoes encryption. *)
Lemma sectors_inverse n f g number b : (forall b n, is_sector b -> is_sector (f b n)) ->
  (forall b n, is_sector b -> g (f b n) n = b) -> length b = (n * unit_len)%nat -> bytes_ok b ->
  sectors n g number (sectors n f number b) = b.
Proof.
  intros Hf Hg. revert number b. induction n as [|n IH]; intros number b Hl Hb; [done|]. cbn [sectors].
  assert (is_sector (take unit_len b)) as Hs by (split; [rewrite length_take; lia|by apply Forall_take]).
  destruct (Hf _ number Hs) as [Hfl _]. rewrite take_app_length', drop_app_length' by done.
  rewrite Hg, IH; [apply take_drop|rewrite length_drop; lia|by apply Forall_drop|done].
Qed.
Lemma crypt_inverse c b block : cipher_ok c -> is_page b -> crypt c (crypt c b block true) block false = b.
Proof.
  intros Hc Hb. pose proof (crypt_page c b block Hc Hb) as [Hl' _]. destruct Hb as [Hl Hb].
  unfold crypt, Transform in *. destruct c as [c|]; [|done]. destruct Hc as [He Hd].
  rewrite Hl', <- Hl. apply sectors_inverse; [done..| |done]. by apply page_sectors.
Qed.

Lemma Ok_inj {E A} (a b : A) : @Ok E A a = Ok b -> a = b.
Proof. congruence. Qed.

(** ** The pages of a committed transaction *)

(** Pages that no descriptor, node or checkpoint of [t] is read from: those of
    payload and free slots, and the descriptor groups past the allocation. *)
Definition scratch (t : transaction) (X : Z -> Prop) : Prop := forall q, X q ->
  (exists x, 1 <= x /\ q = slotPage x /\ forall d, dsc t x = Some d -> Kind d = kindData \/ Kind d = kindFree) \/
  (exists x, Next (t_ctrl t) <= x /\ 1 <= x /\ q = descriptorPage x /\ (x - 1) mod slotsPerGroup = 0).

Record publishes (t : transaction) (X : Z -> Prop) (s : Store) : Prop := {
  pu_size : s_size s = s_size (store t);
  pu_ctrl : s_ctrl s = t_ctrl t \/ s_ctrl s = bump_Tx (t_ctrl t);
  pu_changed : forall q b, all_pages t !! q = Some b -> readFull (s_file s) q = Ok b;
  pu_kept : forall q b, all_pages t !! q = None -> q <> 1 -> ~ log_page q -> ~ X q ->
    readFull (s_file (store t)) q = Ok b -> readFull (s_file s) q = Ok b;
  pu_file : forall q, is_page (page_at (s_file s) q) }.

Lemma readFull_Ok f q b : readFull f q = Ok b <-> 0 <= q < flen f /\ page_at f q = b.
Proof.
  unfold readFull. destruct (_ || _) eqn:E.
  - split; [done|]. intros [? _]. apply orb_true_iff in E as [E|E]; bool_prop; lia.
  - bool_prop. split; [intros [= <-]; split; [lia|done]|by intros [_ ->]].
Qed.
Lemma flen_home rs f q : q ∈ rs.*1 -> q + 1 <= flen (apply_writes (home_writes rs) f).
Proof.
  revert f. induction rs as [|[p b] rs IH]; intros f Hq; [by apply elem_of_nil in Hq|].
  change (home_writes ((p, b) :: rs)) with (mkWrite p [b] :: home_writes rs). cbn [apply_writes fold_left].
  change (fold_left apply_write (home_writes rs) ?g) with (apply_writes (home_writes rs) g).
  cbn in Hq. apply elem_of_cons in Hq as [->|Hq]; [|by apply IH].
  etransitivity; [|apply flen_apply_writes]. unfold apply_write. cbn. lia.
Qed.

(** ** Files of whole pages *)

Definition paged (f : file) : Prop := forall q, is_page (page_at f q).
Definition paged_write (w : write) : Prop := Forall is_page (wr_data w).

Lemma paged_file f : paged f <-> forall q b, fpages f !! q = Some b -> is_page b.
Proof.
  unfold paged, page_at. split.
  - intros H q b Hb. specialize (H q). by rewrite Hb in H.
  - intros H q. destruct (fpages f !! q) eqn:E; [by eapply H|apply zeroPage_ok].
Qed.
Lemma paged_apply_write f w : paged f -> paged_write w -> paged (apply_write f w).
Proof.
  intros Hf Hw q. unfold apply_write. rewrite page_at_writeFull. case_decide; [|apply Hf].
  destruct (wr_data w !! _) eqn:E; [by eapply Forall_lookup_1|apply zeroPage_ok].
Qed.
Lemma paged_apply f ws : paged f -> Forall paged_write ws -> paged (apply_writes ws f).
Proof.
  revert f. induction ws as [|w ws IH]; intros f Hf Hw; [done|]. apply Forall_cons in Hw as [Hw Hws].
  cbn. apply IH; [by apply paged_apply_write|done].
Qed.
Lemma torn_is_page a b r : is_page a -> is_page b -> torn_page a b r -> is_page r.
Proof.
  intros [_ Ha] [_ Hb] [Hl Ht]. split; [done|]. apply Forall_lookup_2. intros i x Hi.
  pose proof (lookup_lt_Some _ _ _ Hi) as Hlt. pose proof (Nat.div_mod_eq i unit_len) as Hm.
  assert (i mod unit_len < unit_len)%nat by (apply Nat.mod_upper_bound; unfold unit_len, UnitSize; lia).
  assert (i / unit_len < 8)%nat as Hk by (apply Nat.Div0.div_lt_upper_bound; unfold unit_len, UnitSize; plia).
  assert (sector (i / unit_len) r !! (i mod unit_len)%nat = Some x) as Hx.
  { unfold sector. rewrite slice_lookup, decide_True by done. by replace (_ + _)%nat with i by lia. }
  destruct (Ht _ Hk) as [E|E]; rewrite E in Hx; eapply Forall_lookup_1; [|exact Hx| |exact Hx]; by apply slice_ok.
Qed.
Lemma paged_crashed f ws f' : crashed f ws f' -> paged f -> Forall paged_write ws -> paged f'.
Proof.
  induction 1 as [| f w ws f' [_ Ht] | f w ws f' _ IH]; intros Hf Hw; [done| |];
    apply Forall_cons in Hw as [Hw Hws]; pose proof (paged_apply_write f w Hf Hw) as Ha.
  - intros q. destruct (Ht q) as [[_ ->]|[_ H]]; [apply Hf|]. eapply torn_is_page; [apply Hf|apply Ha|done].
  - by apply IH.
Qed.
Lemma paged_home rs : (forall q b, (q, b) ∈ rs -> is_page b) -> Forall paged_write (home_writes rs).
Proof.
  intros H. apply Forall_forall. intros w ([q b] & -> & Hin)%list_elem_of_fmap. apply Forall_singleton. by eapply H.
Qed.
Lemma paged_zero : paged_write (mkWrite logCommitPage [zeroPage]).
Proof. apply Forall_singleton, zeroPage_ok. Qed.
Lemma redo_index_ok ps : bytes_ok (redo_index ps).
Proof.
  unfold redo_index. apply put_ok; [|apply Forall_replicate; unfold is_byte; lia].
  apply Forall_concat, Forall_fmap, Forall_true. intros. apply le_bytes_ok.
Qed.
Lemma paged_prepare t p : plan_ok t p -> Forall paged_write (redo_prepare p).
Proof.
  intros Hp. unfold redo_prepare. rewrite !Forall_cons. split; [apply paged_zero|]. split; [|split; [|by apply Forall_nil]].
  - unfold paged_write. cbn [wr_data]. unfold page_split. apply Forall_fmap, Forall_forall. intros i Hi%elem_of_seq. split.
    + apply slice_length. rewrite redo_index_length. nia.
    + apply slice_ok, redo_index_ok.
  - unfold paged_write. cbn [wr_data]. apply Forall_fmap, Forall_forall. intros [q b] Hin.
    apply (po_home _ _ Hp q b), elem_of_app. by left.
Qed.
Lemma paged_data c t : cipher_ok c -> data_ok t -> Forall paged_write (writeData c t).
Proof.
  intros Hc Hd. apply Forall_forall. intros w (d & l & -> & _ & Hin)%writeData_run.
  unfold paged_write. cbn [run_write wr_data]. apply Forall_fmap, Forall_forall. intros e He.
  apply crypt_page; [done|]. by apply Hd, Hin.
Qed.
Lemma paged_commit c t pl : ready t -> cipher_ok c -> data_ok t -> commit_plan t = Ok pl ->
  Forall paged_write (commit_writes c t pl).
Proof.
  intros Hr Hc Hd Hpl. destruct pl as [p|]; [|by apply paged_data].
  pose proof (commit_plan_ok t p (rd_wf t Hr) (rd_fresh t Hr) Hpl) as Hp.
  assert (Forall paged_write (home_writes (pl_existing p)) /\ Forall paged_write (home_writes (pl_new p))) as [He Hn].
  { split; apply paged_home; intros q b Hin; apply (po_home _ _ Hp q b), elem_of_app; auto. }
  unfold commit_writes, redo_apply. rewrite !Forall_app. split_and!; [by apply paged_data|done|by eapply paged_prepare|..|done|].
  - apply Forall_singleton, Forall_singleton, (redo_commit_fields t p Hp).
  - apply Forall_singleton, paged_zero.
Qed.

Section Committed.
Context (t : transaction) (p : plan) (Hr : ready t) (Hp : plan_ok t p) (c : option xts_cipher).
Local Notation f0 := (s_file (store t)).
Local Notation f1 := (apply_writes (commit_writes c t (Some p)) f0).
Local Notation pre := (apply_writes (writeData c t ++ home_writes (pl_new p) ++ redo_prepare p) f0).

Lemma new_kept q b : (q, b) ∈ pl_new p -> page_at pre q = b.
Proof.
  intros Hin. rewrite !apply_writes_app. assert (q ∈ (pl_new p).*1) as Hq by (apply list_elem_of_fmap; by exists (q, b)).
  rewrite apply_writes_other.
  - apply apply_home_same; [apply Hp|done].
  - intros w Hw Hc. eapply (new_not_log t p Hp q Hq), prepare_log; done.
Qed.
Lemma pre_other q : q ∉ (pl_new p).*1 -> ~ data_page t q -> ~ log_page q -> page_at pre q = page_at f0 q.
Proof.
  intros Hn Hd Hl. apply apply_writes_other. intros w [H|[H|H]%elem_of_app]%elem_of_app Hc.
  - by eapply Hd, writeData_covers.
  - by eapply Hn, home_writes_covers.
  - by eapply Hl, prepare_log.
Qed.
Lemma commit_file : f1 = apply_write (apply_writes (home_writes (pl_existing p)) (apply_write pre (redo_publish p)))
  (mkWrite logCommitPage [zeroPage]).
Proof.
  rewrite commit_writes_eq, apply_writes_app. unfold redo_apply, apply_writes. cbn [fold_left].
  by rewrite (fold_left_app _ (home_writes _)).
Qed.
Lemma committed_flen q : q ∈ (pl_new p).*1 \/ q ∈ (pl_existing p).*1 -> q < flen f1.
Proof.
  intros Hq. rewrite commit_file. set (g := apply_write pre _).
  pose proof (proj1 (flen_writeFull (apply_writes (home_writes (pl_existing p)) g) logCommitPage [zeroPage])) as H1.
  pose proof (flen_apply_writes (home_writes (pl_existing p)) g) as H2.
  unfold apply_write at 1. cbn [wr_page wr_data]. destruct Hq as [Hq|Hq].
  - pose proof (proj1 (flen_writeFull pre logCommitPage [redo_commit p])) as H3.
    pose proof (flen_home (pl_new p) (apply_writes (writeData c t) f0) q Hq) as H4.
    pose proof (flen_apply_writes (redo_prepare p) (apply_writes (home_writes (pl_new p)) (apply_writes (writeData c t) f0))) as H5.
    rewrite <- !apply_writes_app, <- app_assoc in H5. rewrite <- apply_writes_app in H4.
    change (flen (writeFull pre logCommitPage [redo_commit p])) with (flen g) in H3. lia.
  - pose proof (flen_home (pl_existing p) g q Hq). lia.
Qed.
Lemma committed_changed q b : all_pages t !! q = Some b -> page_at f1 q = b /\ q < flen f1.
Proof.
  intros Hb. pose proof (all_pages_home t q b (rd_wf t Hr) Hb) as [_ Hh].
  assert (~ log_page q) as Hl by (apply (home_not_log t); by right).
  rewrite (final_pages t p Hp) by done. destruct (decide (q ∈ fresh t)) as [Hf|Hf].
  - assert ((q, b) ∈ pl_new p) as Hin by (by apply Hp). split.
    + rewrite apply_home_other; [by apply new_kept|]. intros ([q' b'] & -> & H)%list_elem_of_fmap.
      apply (po_existing _ _ Hp) in H. tauto.
    + apply committed_flen. left. apply list_elem_of_fmap. by exists (q, b).
  - assert ((q, b) ∈ pl_existing p) as Hin by (apply Hp; auto). split; [apply apply_home_same; [apply Hp|done]|].
    apply committed_flen. right. apply list_elem_of_fmap. by exists (q, b).
Qed.
Lemma committed_other q : all_pages t !! q = None -> q <> 1 -> ~ log_page q -> ~ data_page t q ->
  page_at f1 q = page_at f0 q.
Proof.
  intros Hb H1 Hl Hd. rewrite (final_pages t p Hp) by done. rewrite apply_home_other.
  - apply pre_other; [|done..]. intros ([q' b'] & -> & H)%list_elem_of_fmap. apply (po_new _ _ Hp) in H as [_ H].
    cbn in Hb. congruence.
  - intros ([q' b'] & -> & H)%list_elem_of_fmap. apply (po_existing _ _ Hp) in H as (_ & [[? _]|H]); [done|].
    cbn in Hb. congruence.
Qed.
Lemma committed_ctrl : decodeControl (page_at f1 1) = Ok (pl_ctrl p).
Proof. rewrite (final_pages t p Hp) by apply not_log_1. by apply home_ctrl. Qed.
End Committed.

Lemma publishes_pages t p c g ctrl pr : ready t -> plan_ok t p -> recovered_new t p c g ctrl -> paged g ->
  publishes t (data_page t) (mkStore g ctrl pr (s_size (store t))).
Proof.
  intros Hr Hp (Hc & Hl & Hq) Hg. split; cbn [s_size s_ctrl s_file]; [done| | | |done].
  - right. rewrite Hc. apply Hp.
  - intros q b Hb. pose proof (all_pages_home t q b (rd_wf t Hr) Hb) as [_ Hh].
    destruct (committed_changed t p Hr Hp c q b Hb) as [Hpg Hlt]. apply readFull_Ok.
    split; [split; [|lia]|rewrite Hq; [done|apply (home_not_log t); by right]].
    unfold home_page, slotAreaPage, presencePage, presenceAreaPage in Hh. destruct Hh as [?|?]; bool_prop; lia.
  - intros q b Hb H1 Hlq Hd [Hr0 <-]%readFull_Ok. apply readFull_Ok. rewrite Hq by done.
    split; [split; [lia|]|by apply committed_other].
    pose proof (flen_apply_writes (commit_writes c t (Some p)) (s_file (store t))). lia.
Qed.

Section Published.
Context (t : transaction) (s : Store) (Hr : ready t) (X : Z -> Prop) (Hd : scratch t X) (Hpu : publishes t X s).
Local Notation t' := (begin s).

Lemma pu_field {A} (fld : control -> A) : (forall c, fld (bump_Tx c) = fld c) -> fld (t_ctrl t') = fld (t_ctrl t).
Proof. intros H. cbn [begin t_ctrl]. destruct (pu_ctrl t X s Hpu) as [->| ->]; [done|apply H]. Qed.
Lemma pu_total : total t' = total t.
Proof. unfold total. cbn [begin store]. by rewrite (pu_size t X s Hpu). Qed.

Lemma read_published q b : read t q = Ok b -> q <> 1 -> ~ log_page q ->
  (forall x n, t_nodes t !! x = Some n -> q <> slotPage x) -> ~ X q -> read t' q = Ok b.
Proof.
  intros Hb H1 Hl Hn Hdp. unfold read in *. cbn [begin t_pages store]. rewrite lookup_empty.
  destruct (t_pages t !! q) as [b'|] eqn:E.
  - injection Hb as <-. apply (pu_changed t X s Hpu). apply all_pages_lookup; [apply Hr|]. by right.
  - apply (pu_kept t X s Hpu); [|done..]. apply eq_None_not_Some. intros (b' & Hb').
    apply all_pages_lookup in Hb' as [(x & n & Hx & He & _)|[? _]]; [by eapply Hn|congruence|apply Hr].
Qed.
Lemma slot_page_ok x : 1 <= x -> slotPage x <> 1 /\ ~ log_page (slotPage x).
Proof.
  intros Hx. pose proof (slotPage_area x Hx). unfold log_page, slotAreaPage in *.
  change (logImagesPage + maxLogPages) with 1542. lia.
Qed.
Lemma read_slot_published x d b : dsc t x = Some d -> Kind d <> kindData -> Kind d <> kindFree -> t_nodes t !! x = None ->
  read t (slotPage x) = Ok b -> read t' (slotPage x) = Ok b.
Proof.
  intros Hx Hk Hk' Hn Hb. pose proof (dsc_bound _ _ _ Hx) as Hbd. destruct (slot_page_ok x) as [? ?]; [lia|].
  apply read_published; [done..| |].
  - intros y n Hy He. pose proof (node_slot t y n (rd_wf t Hr) Hy). apply slotPage_inj in He as ->; [|lia..]. congruence.
  - intros [(y & Hy & He & Hyd)|(y & _ & Hy & He & _)]%Hd; [|apply slotPage_descriptorPage in He; [done|lia..]].
    apply slotPage_inj in He as <-; [|lia..]. by destruct (Hyd d Hx).
Qed.
Lemma read_desc_published x b : 1 <= x < Next (t_ctrl t) -> read t (descriptorPage x) = Ok b -> read t' (descriptorPage x) = Ok b.
Proof.
  intros Hx Hb. pose proof (descriptorPage_area x (proj1 Hx)) as Ha. unfold slotAreaPage in Ha.
  apply read_published; [done|lia| | |].
  - unfold log_page. change (logImagesPage + maxLogPages) with 1542. lia.
  - intros y n Hy He. pose proof (node_slot t y n (rd_wf t Hr) Hy). symmetry in He.
    apply slotPage_descriptorPage in He; [done|lia..].
  - intros [(y & Hy & He & _)|(y & Hny & Hy & He & Hm)]%Hd.
    + symmetry in He. apply slotPage_descriptorPage in He; [done|lia..].
    + revert He Hm. unfold descriptorPage, slotsPerGroup. intros. div_lia.
Qed.

Lemma dsc_published x : dsc t' x = dsc t x.
Proof.
  destruct (dsc t x) as [d|] eqn:E.
  - apply dsc_Some in E as (Hx & b & Hb & Hc & ->). apply dsc_Some. rewrite (pu_field Next) by done.
    split; [done|]. exists b. split_and!; [by apply read_desc_published|done..].
  - apply eq_None_not_Some. intros (d & Hd'). pose proof (dsc_bound _ _ _ Hd') as Hx.
    rewrite (pu_field Next) in Hx by done. destruct (dsc_total t x (rd_wf t Hr) Hx). congruence.
Qed.
Lemma checkpoint_published x d cp : dsc t x = Some d -> Kind d = kindCheckpoint ->
  readCheckpoint t x = Ok cp -> readCheckpoint t' x = Ok cp.
Proof.
  intros Hx Hk Hcp. unfold readCheckpoint in *. apply res_bind_Ok in Hcp as (b & Hb & Hcp).
  rewrite (read_slot_published x d b); [by cbn [res_bind]|done|by rewrite Hk|by rewrite Hk| |done].
  destruct (t_nodes t !! x) eqn:E; [|done]. destruct (w_nodes t (rd_wf t Hr) x _ E) as ((d' & ? & Hk' & _) & _).
  simplify_eq. by rewrite Hk in Hk'.
Qed.
Lemma pe_published : pe t' = pe t.
Proof.
  unfold pe. rewrite (pu_field Protected) by done. destruct (Z.eqb_spec (Protected (t_ctrl t)) 0) as [|H0]; [done|].
  destruct (w_prot t (rd_wf t Hr) H0) as (_ & (cp & Hcp & _) & d & Hdp & Hk).
  by rewrite (checkpoint_published _ d cp), Hcp.
Qed.

Lemma nd_intro (u : transaction) x n b : t_nodes u !! x = None -> 1 <= x < Next (t_ctrl u) ->
  read u (slotPage x) = Ok b -> decodeNode b = Ok n -> node_in u n -> nd u x = Some n.
Proof.
  intros E Hx Hb Hn Hin. unfold nd, nd_of, inspectNode. cbn [tx_reader rd_nodes rd_next rd_read rd_total].
  rewrite E. rewrite (proj2 (Z.eqb_neq (Next (t_ctrl u)) 0)), (proj2 (Z.eqb_neq x 0)), (proj2 (Z.leb_gt _ _)) by lia.
  cbn [negb andb orb]. rewrite Hb. cbn [res_bind]. rewrite Hn. cbn [res_bind].
  destruct (existsb _ (entries n)) eqn:Hex; [|done]. exfalso.
  apply existsb_exists in Hex as (e & He & Hbad). apply list_elem_of_In in He.
  unfold node_in in Hin. rewrite Forall_forall in Hin. specialize (Hin e He). unfold total in Hin.
  apply orb_true_iff in Hbad as [Hbad|Hbad]; bool_prop; lia.
Qed.
Lemma node_in_published n : node_in t n -> node_in t' n.
Proof. unfold node_in. by rewrite pu_total, (pu_field Next). Qed.
Lemma nd_published x d n : dsc t x = Some d -> Kind d <> kindData -> Kind d <> kindFree -> nd t x = Some n -> nd t' x = Some n.
Proof.
  intros Hx Hk Hkf Hn. destruct (nd_ok t x n (rd_wf t Hr) Hn) as (Hok & Hin & _). pose proof (dsc_bound _ _ _ Hx) as Hb.
  assert (exists b, read t' (slotPage x) = Ok b /\ decodeNode b = Ok n) as (b & Hrd & Hdec).
  { destruct (t_nodes t !! x) as [m|] eqn:E.
    - assert (m = n) as ->.
      { apply nd_of_Some in Hn. unfold inspectNode in Hn. cbn [tx_reader rd_nodes] in Hn. rewrite E in Hn. congruence. }
      exists (encodeNode n). split; [|by apply decode_encodeNode]. unfold read. cbn [begin t_pages store].
      rewrite lookup_empty. apply (pu_changed t X s Hpu), all_pages_lookup; [apply Hr|]. left. by exists x, n.
    - destruct (nd_from_file t x n E Hn) as (b & Hrd & Hdec). exists b. split; [|done].
      by apply (read_slot_published x d). }
  apply (nd_intro t' x n b); [done|by rewrite (pu_field Next)|done..|by apply node_in_published].
Qed.

Lemma wf_published : tx_wf t'.
Proof.
  pose proof (rd_wf t Hr) as Hwf. split.
  - cbn [begin t_ctrl]. destruct (pu_ctrl t X s Hpu) as [->| ->]; [apply Hwf|apply bump_ok, Hwf].
  - rewrite (pu_field Next) by done. apply Hwf.
  - cbn [begin store]. apply paged_file. exact (pu_file t X s Hpu).
  - intros q b. cbn [begin t_pages]. by rewrite lookup_empty.
  - intros x Hx. rewrite (pu_field Next) in Hx by done. destruct (w_desc t Hwf x Hx) as (b & Hb & Hc).
    exists b. split; [by apply read_desc_published|done].
  - rewrite (pu_field Protected), (pu_field Next) by done. intros H0.
    destruct (w_prot t Hwf H0) as (Hp & (cp & Hcp & Hok) & d & Hdp & Hk). split; [done|]. split.
    + exists cp. split; [by eapply checkpoint_published|done].
    + exists d. by rewrite dsc_published.
  - rewrite pe_published, (pu_field Epoch) by done. apply Hwf.
  - done.
  - done.
  - intros x b _. cbn [begin t_pages]. by rewrite lookup_empty.
  - intros x n. cbn [begin t_nodes]. by rewrite lookup_empty.
  - rewrite (pu_field Free) by done. destruct (w_free t Hwf) as (l & Hl & Hnd). exists l. split; [|done].
    eapply chain_ext; [|exact Hl]. intros x _. apply dsc_published.
Qed.

Lemma mapping_published levels root l fp : mapping t levels root l fp -> mapping t' levels root l fp.
Proof.
  intros [Ht Hs Hn Hl]. split; [|done..|].
  - destruct Ht as [?|(h & Hh & Ht)]; [by left|right]. exists h. split; [done|]. eapply tree_ext; [|exact Ht].
    intros x n Hx. destruct (Hl x Hx) as (d & Hdx & Hk). by apply nd_published with (d := d); [|rewrite Hk..].
  - intros x Hx. rewrite dsc_published. by apply Hl.
Qed.
Lemma retained_published r l : retained t r l -> retained t' r l.
Proof.
  intros (h & f & Ht & Hf). exists h, f. split.
  - eapply tree_ext; [|exact Ht]. intros x n Hx. destruct (Hf x Hx) as (d & Hdx & Hk & _).
    by apply nd_published with (d := d); [|destruct Hk as [-> | ->]..].
  - intros x Hx. rewrite dsc_published, pe_published. by apply Hf.
Qed.
End Published.

(** ** Payload read-back *)

Lemma run_covers c r q : adjacent r -> covers (run_write c r) q -> exists d, d ∈ r /\ q = slotPage (dw_slot d).
Proof.
  intros Ha Hq. unfold covers, run_write in Hq. cbn [wr_page wr_data] in Hq. rewrite length_fmap in Hq.
  destruct r as [|d l]; [cbn in Hq; lia|].
  destruct (lookup_lt_is_Some_2 (d :: l) (Z.to_nat (q - slotPage (dw_slot d)))) as [e He]; [lia|].
  exists e. split; [by eapply list_elem_of_lookup_2|]. rewrite (adjacent_lookup d l _ e Ha He). lia.
Qed.
Lemma run_written c r f d : adjacent r -> NoDup (dw_slot <$> r) -> d ∈ r ->
  page_at (apply_write f (run_write c r)) (slotPage (dw_slot d)) = crypt c (dw_data d) (dw_block d) true.
Proof.
  intros Ha Hn Hin. apply list_elem_of_lookup_1 in Hin as [i Hi]. destruct r as [|e l]; [done|].
  pose proof (adjacent_lookup e l i d Ha Hi) as Hp. pose proof (lookup_lt_Some _ _ _ Hi).
  unfold apply_write. rewrite page_at_writeFull. unfold run_write. cbn [wr_page wr_data]. rewrite length_fmap.
  rewrite decide_True by lia. rewrite Hp. replace (Z.to_nat _) with i by lia.
  by rewrite list_lookup_fmap, Hi.
Qed.
Lemma runs_written c rs f d : Forall (fun r => r <> [] /\ adjacent r) rs -> NoDup (dw_slot <$> concat rs) ->
  (forall e, e ∈ concat rs -> 1 <= dw_slot e) -> d ∈ concat rs ->
  page_at (apply_writes (run_write c <$> rs) f) (slotPage (dw_slot d)) = crypt c (dw_data d) (dw_block d) true.
Proof.
  revert f. induction rs as [|r rs IH]; intros f Ha Hn Hs Hin; [by apply elem_of_nil in Hin|].
  apply Forall_cons in Ha as [[_ Har] Ha]. cbn [concat] in *. rewrite fmap_app in Hn.
  apply NoDup_app in Hn as (Hnr & Hdis & Hn). cbn [fmap list_fmap apply_writes fold_left].
  change (fold_left apply_write (run_write c <$> rs) ?g) with (apply_writes (run_write c <$> rs) g).
  destruct (decide (dw_slot d ∈ dw_slot <$> r)) as [Hr|Hr].
  - assert (dw_slot d ∉ dw_slot <$> concat rs) as Hd by (by apply Hdis).
    rewrite apply_writes_other.
    + apply run_written; [done..|]. apply elem_of_app in Hin as [?|Hin]; [done|].
      exfalso. apply Hd, list_elem_of_fmap. eauto.
    + intros w (r' & -> & Hr')%list_elem_of_fmap Hc. rewrite Forall_forall in Ha.
      apply run_covers in Hc as (e & He & Hpg); [|by apply Ha].
      assert (e ∈ concat rs) as Hec by (apply elem_of_concat; eauto).
      apply slotPage_inj in Hpg; [|apply Hs; set_solver..].
      apply Hd. rewrite Hpg. apply list_elem_of_fmap. eauto.
  - apply IH; [done..| |].
    + intros e He. apply Hs. set_solver.
    + apply elem_of_app in Hin as [Hin|?]; [|done]. exfalso. apply Hr, list_elem_of_fmap. eauto.
Qed.
Lemma data_written c t f d : NoDup (dw_slot <$> t_data t) -> (forall e, e ∈ t_data t -> 1 <= dw_slot e) ->
  d ∈ t_data t ->
  page_at (apply_writes (writeData c t) f) (slotPage (dw_slot d)) = crypt c (dw_data d) (dw_block d) true.
Proof.
  intros Hn Hs Hin. unfold writeData. set (l := merge_sort _ _).
  assert (l ≡ₚ t_data t) as Hl by apply merge_sort_Permutation.
  destruct (data_runs_spec l) as [Hc Ha]. apply runs_written; [done|..]; rewrite Hc.
  - by rewrite Hl.
  - intros e. rewrite Hl. apply Hs.
  - by rewrite Hl.
Qed.

Lemma data_scratch t : data_ok t -> scratch t (data_page t).
Proof.
  intros Hd q (e & He & ->). destruct (Hd e He) as (_ & de & Hde & Hk & _). pose proof (dsc_bound _ _ _ Hde).
  left. exists (dw_slot e). split_and!; [lia|done|]. intros d Hx. left. congruence.
Qed.
(** Payload pages hold no metadata of the transaction. *)
Lemma data_no_page t q : tx_wf t -> data_ok t -> data_page t q -> all_pages t !! q = None.
Proof.
  intros Hwf Hd (e & He & ->). destruct (Hd e He) as (_ & de & Hde & Hk & _). pose proof (dsc_bound _ _ _ Hde) as Hb.
  apply eq_None_not_Some. intros (b & Hpg). apply all_pages_lookup in Hpg as [(x & n & Hx & Hpg & _)|[Hpg _]]; [| |done].
  - pose proof (node_slot t x n Hwf Hx). apply slotPage_inj in Hpg as <-; [|lia..].
    destruct (w_nodes t Hwf _ n Hx) as ((d & Hd' & Hk' & _) & _). simplify_eq. by rewrite Hk in Hk'.
  - destruct (w_slotpages t Hwf (dw_slot e) b) as (d & Hd' & Hk'); [lia|done|]. simplify_eq. rewrite Hk in Hk'. naive_solver.
Qed.
Lemma plan_cases t pl : commit_plan t = Ok pl ->
  (pl = None /\ all_pages t = ∅ /\ t_ctrl t = s_ctrl (store t)) \/ exists p, pl = Some p.
Proof.
  unfold commit_plan. destruct (_ && _) eqn:E.
  - intros [= <-]. left. bool_prop. by split_and!.
  - destruct (encodeControl _); [|done]. cbn [res_bind]. case_match; [done|]. intros [= <-]. eauto.
Qed.

Lemma committed_payload c t p d : ready t -> data_ok t -> plan_ok t p -> NoDup (dw_slot <$> t_data t) -> d ∈ t_data t ->
  page_at (apply_writes (commit_writes c t (Some p)) (s_file (store t))) (slotPage (dw_slot d)) =
    crypt c (dw_data d) (dw_block d) true.
Proof.
  intros Hr Hd Hp Hn Hin. set (q := slotPage (dw_slot d)).
  assert (data_page t q) as Hdq by (by exists d).
  pose proof (data_no_page t q (rd_wf t Hr) Hd Hdq) as Hno.
  pose proof (data_not_log t (rd_data t Hr) q Hdq) as Hl.
  assert (q <> 1) as H1 by (intros He; by apply (proj2 (proj2 (old_ctrl t Hr))); rewrite <- He).
  rewrite (final_pages t p Hp) by done. rewrite apply_home_other.
  - rewrite !apply_writes_app, apply_writes_other, apply_home_other.
    + apply data_written; [done|apply Hr|done].
    + intros ([q' b] & He & H)%list_elem_of_fmap. apply (po_new _ _ Hp) in H as [_ H]. cbn in He. congruence.
    + intros w Hw Hc. by eapply Hl, prepare_log.
  - intros ([q' b] & He & H)%list_elem_of_fmap. apply (po_existing _ _ Hp) in H as (_ & [[? _]|H]); cbn in He; congruence.
Qed.

Record committed (c : option xts_cipher) (t : transaction) (s : Store) : Prop := {
  cm_publishes : publishes t (data_page t) s;
  cm_ready : ready (begin s);
  cm_payload : NoDup (dw_slot <$> t_data t) -> forall d, d ∈ t_data t ->
    page_at (s_file s) (slotPage (dw_slot d)) = crypt c (dw_data d) (dw_block d) true }.

Lemma ready_begin t X s : ready t -> scratch t X -> publishes t X s -> slotAreaPage <= flen (s_file s) ->
  log_idle (page_at (s_file s) logCommitPage) -> decodeControl (page_at (s_file s) 1) = Ok (s_ctrl s) -> ready (begin s).
Proof.
  intros Hr HX Hpu Hl Hi Hc. split; cbn [begin store]; [by eapply wf_published| | |by rewrite (pu_size _ _ _ Hpu); apply Hr|done..].
  - intros q Hq. cbn [begin fresh] in Hq. set_solver.
  - intros d Hd. by apply elem_of_nil in Hd.
Qed.
Lemma commit_committed c t s : ready t -> cipher_ok c -> data_ok t -> commit c t = Ok s -> committed c t s.
Proof.
  intros Hr Hc Hd Hcm. unfold commit in Hcm. apply res_bind_Ok in Hcm as (pl & Hpl & Hcm).
  set (f0 := s_file (store t)) in *.
  assert (paged (apply_writes (commit_writes c t pl) f0)) as Hpg.
  { apply paged_apply; [apply paged_file, Hr|by apply paged_commit]. }
  pose proof (flen_apply_writes (commit_writes c t pl) f0) as Hfl. pose proof (rd_flen t Hr) as Hfl0. fold f0 in Hfl0.
  destruct (plan_cases t pl Hpl) as [(-> & Hno & Hctrl)|(p & ->)].
  - injection Hcm as <-. cbn [commit_writes] in *.
    assert (forall q, ~ data_page t q -> page_at (apply_writes (writeData c t) f0) q = page_at f0 q) as Hq.
    { intros q Hdq. apply apply_writes_other. intros w Hw Hcv. by eapply Hdq, writeData_covers. }
    assert (publishes t (data_page t) (mkStore (apply_writes (writeData c t) f0) (s_ctrl (store t)) (s_presence (store t)) (s_size (store t)))) as Hpu.
    { split; cbn [s_size s_ctrl s_file]; [done|by left|by rewrite Hno|  |done].
      intros q b _ _ _ Hdq [Hb <-]%readFull_Ok. apply readFull_Ok. fold f0 in Hb |- *. split; [lia|by apply Hq]. }
    split; [done| |intros; by apply data_written; [|apply Hr|]].
    eapply ready_begin; [done|by apply data_scratch|done|cbn [s_file]; lia|..]; cbn [s_file s_ctrl]; rewrite Hq; try apply Hr.
    + intros H. eapply data_not_log, log_2; [apply Hr|done].
    + by apply old_ctrl.
  - pose proof (commit_plan_ok t p (rd_wf t Hr) (rd_fresh t Hr) Hpl) as Hp. apply Ok_inj in Hcm as <-.
    assert (forall pr, publishes t (data_page t) (mkStore (apply_writes (commit_writes c t (Some p)) f0) (pl_ctrl p) pr (s_size (store t)))) as Hpu.
    { intros pr. apply (publishes_pages t p c); [done..|by split_and!|done]. }
    split; [apply Hpu| |intros; by apply committed_payload].
    eapply ready_begin; [done|by apply data_scratch|apply Hpu|cbn [s_file]; lia|..]; cbn [s_file s_ctrl].
    + unfold f0. rewrite commit_file, clear_page. apply log_idle_zero.
    + by apply committed_ctrl.
Qed.

(** ** Recovery reads whole pages *)

Lemma redo_records_pages size seen ps body rs q b : redo_records size seen ps body = Ok rs ->
  (q, b) ∈ rs -> b ∈ body.
Proof.
  revert seen ps rs. induction body as [|c body IH]; intros seen [|p ps] rs; cbn; try (intros [= <-] H; by apply elem_of_nil in H).
  destruct (_ || _); [done|]. intros H. apply res_bind_Ok in H as (rs' & Hrs & [= <-]).
  intros [[= -> ->]|Hin]%elem_of_cons; [by left|right; by eapply IH].
Qed.
Lemma readRedo_paged f size rs : paged f -> readRedo f size = Ok rs -> forall q b, (q, b) ∈ rs -> is_page b.
Proof.
  intros Hf H q b Hin. unfold readRedo in H. apply res_bind_Ok in H as (cm & _ & H).
  destruct (isZero cm); [injection H as <-; by apply elem_of_nil in Hin|].
  destruct (_ || _); [injection H as <-; by apply elem_of_nil in Hin|]. destruct (_ || _); [done|].
  apply res_bind_Ok in H as (idx & _ & H). apply res_bind_Ok in H as (body & Hb & H).
  destruct (negb _); [done|]. apply (redo_records_pages _ _ _ _ _ q b) in H; [|done].
  unfold directRead in Hb. destruct (_ || _); [done|]. apply Ok_inj in Hb as <-.
  apply list_elem_of_fmap in H as (i & -> & _). apply Hf.
Qed.
Lemma paged_recovery rs : (forall q b, (q, b) ∈ rs -> is_page b) -> Forall paged_write (recovery_writes rs).
Proof.
  intros H. unfold recovery_writes. apply Forall_app. split; [by apply paged_home|].
  destruct rs; [by apply Forall_nil|]. apply Forall_singleton, paged_zero.
Qed.
Lemma paged_interrupted size f f' : rtc (interrupted size) f f' -> paged f -> paged f'.
Proof.
  induction 1 as [|f g f' (rs & Hrs & Hc) _ IH]; [done|]. intros Hf. apply IH.
  eapply paged_crashed; [exact Hc|done|]. apply paged_recovery. by eapply readRedo_paged.
Qed.
Lemma paged_recover size f g ctrl : recover f size = Ok (g, ctrl) -> paged f ->
  paged g /\ decodeControl (page_at g 1) = Ok ctrl.
Proof.
  unfold recover. intros H Hf. apply res_bind_Ok in H as (rs & Hrs & H).
  apply res_bind_Ok in H as (b & Hb & H). apply res_bind_Ok in H as (cc & Hcc & H). apply Ok_inj in H.
  injection H as <- <-. apply readFull_Ok in Hb as [_ <-]. split; [|done].
  apply paged_apply; [done|]. apply paged_recovery. by eapply readRedo_paged.
Qed.

(** ** The theorems *)

(** [u] shows the metadata of [t]: the same root, descriptors and protected epoch,
    the same trees and checkpoints. *)
Record shows (t u : transaction) : Prop := {
  sh_ctrl : t_ctrl u = t_ctrl t \/ t_ctrl u = bump_Tx (t_ctrl t);
  sh_dsc : forall x, dsc u x = dsc t x;
  sh_pe : pe u = pe t;
  sh_checkpoint : forall x d cp, dsc t x = Some d -> Kind d = kindCheckpoint ->
    readCheckpoint t x = Ok cp -> readCheckpoint u x = Ok cp;
  sh_mapping : forall levels root l fp, mapping t levels root l fp -> mapping u levels root l fp;
  sh_retained : forall r l, retained t r l -> retained u r l }.
Lemma publishes_shows t X s : ready t -> scratch t X -> publishes t X s -> shows t (begin s).
Proof.
  intros Hr HX Hpu. split.
  - apply (pu_ctrl t X s Hpu).
  - intros x. by eapply dsc_published.
  - by eapply pe_published.
  - intros x d cp. by apply (checkpoint_published t s Hr X HX Hpu).
  - intros levels root l fp. by apply (mapping_published t s Hr X HX Hpu).
  - intros r l. by apply (retained_published t s Hr X HX Hpu).
Qed.


(** The pages a transaction may write in place hold no metadata of its store. *)
Definition shadowed (t : transaction) : Prop :=
  scratch (begin (store t)) (fun q => q ∈ fresh t \/ data_page t q).

Lemma begin_ready t : ready t -> tx_wf (begin (store t)) -> ready (begin (store t)).
Proof.
  intros [] Hwf. split; cbn [begin store]; [done| | |done..].
  - intros q Hq. cbn [begin fresh] in Hq. set_solver.
  - intros d Hd. by apply elem_of_nil in Hd.
Qed.
Lemma publishes_old t g ctrl pr : ready t -> recovered_old t g ctrl -> paged g ->
  publishes (begin (store t)) (fun q => q ∈ fresh t \/ data_page t q) (mkStore g ctrl pr (s_size (store t))).
Proof.
  intros Hr (-> & Hl & Hq) Hg. split; cbn [s_size s_ctrl s_file begin store t_ctrl]; [done|by left| | |done].
  - intros q b Hb. unfold all_pages in Hb. cbn [begin t_pages t_nodes] in Hb. by rewrite map_fold_empty, lookup_empty in Hb.
  - intros q b _ _ Hlq HX [Hb <-]%readFull_Ok. apply readFull_Ok. split; [lia|]. apply Hq; [done|tauto..].
Qed.

(** C8 — Crash consistency of the store: whatever point a commit and then any
    number of recoveries were interrupted at, opening the store succeeds, the
    opened store is well-formed and ready for the next transaction, and it shows
    either the metadata of the store before the transaction or all of the
    transaction's: the root, the active tree, every checkpoint and its tree. *)
Theorem crash_consistent c t pl f f' pr :
  ready t -> tx_wf (begin (store t)) -> cipher_ok c -> data_ok t -> shadowed t -> commit_plan t = Ok pl ->
  crashed (s_file (store t)) (commit_writes c t pl) f -> rtc (interrupted (s_size (store t))) f f' ->
  exists g ctrl, recover f' (s_size (store t)) = Ok (g, ctrl) /\
    let u := begin (mkStore g ctrl pr (s_size (store t))) in
    ready u /\ (shows (begin (store t)) u \/ shows t u).
Proof.
  intros Hr Hb Hc Hd Hsh Hpl Hcr Hi.
  destruct (commit_recovers c t pl f f' Hr Hpl Hcr Hi) as (g & ctrl & Hrec & Hl & Hidle & Hout).
  exists g, ctrl. split; [done|]. cbn zeta.
  assert (paged g /\ decodeControl (page_at g 1) = Ok ctrl) as [Hg Hct].
  { eapply paged_recover; [exact Hrec|]. eapply paged_interrupted; [exact Hi|].
    eapply paged_crashed; [exact Hcr|apply paged_file, Hr|by apply paged_commit]. }
  destruct Hout as [Ho|(p & -> & Hn)].
  - pose proof (publishes_old t g ctrl pr Hr Ho Hg) as Hpu. pose proof (begin_ready t Hr Hb) as Hr0.
    split; [by eapply ready_begin|left; by eapply publishes_shows].
  - pose proof (commit_plan_ok t p (rd_wf t Hr) (rd_fresh t Hr) Hpl) as Hp.
    pose proof (publishes_pages t p c g ctrl pr Hr Hp Hn Hg) as Hpu. pose proof (data_scratch t Hd).
    split; [by eapply ready_begin|right; by eapply publishes_shows].
Qed.

Lemma demo_commit : exists s, commit None demo_change = Ok s.
Proof. unfold commit. destruct demo_plan as [p ->]. cbn [res_bind]. eauto. Qed.
Lemma demo_data_ok : data_ok demo_change.
Proof. intros d Hd. by apply elem_of_nil in Hd. Qed.
Lemma demo_shadowed : shadowed demo_change.
Proof. intros q [Hq|(d & Hd & _)]; [cbn in Hq; set_solver|by apply elem_of_nil in Hd]. Qed.
Lemma crash_consistent_witness : exists p g ctrl,
  let f := apply_writes (commit_writes None demo_change (Some p)) demo_file in
  commit_plan demo_change = Ok (Some p) /\ recover f demo_size = Ok (g, ctrl) /\
  let u := begin (mkStore g ctrl demo_presence demo_size) in
  ready u /\ (shows demo_tx u \/ shows demo_change u).
Proof.
  destruct demo_plan as [p Hp].
  destruct (crash_consistent None demo_change (Some p) _ _ demo_presence demo_ready demo_wf I demo_data_ok demo_shadowed Hp
    (crashed_all _ _) (rtc_refl _ _)) as (g & ctrl & H). exists p, g, ctrl. split; [exact Hp|exact H].
Defined.
