(* ===== verification/Bitmap.v ===== *)
(** * Bitmap: logical presence inside transactions and checkpoints.

    Models bitmap.go of the versioned store: the bitmap of owned blocks lives in
    its own page area, is edited page by page inside a transaction, is loaded back
    when the store opens, and is copied to a chain of slots by every checkpoint.
    [Encode] of the source panics on an impossible page; here that is an error. *)
From stdpp Require Import base numbers list gmap strings sorting.
From Stdlib Require Import ZArith Lia.
From S2P Require Import Prelude Page Presence Json Format Tree Tx Demo TreeWrite Sha256 Commit Crash Publish.

#[local] Opaque Sum256 sealPage checkPage Page.put.

Definition encode_page (bitmap : list Z) (size index : Z) : dres (list Z) :=
  match Encode bitmap size index with Ok b => Ok b | Err e => Err (ErrPresence e) end.
Definition decode_page (b : list Z) (size index : Z) : dres (list Z) :=
  match Decode b size index with Ok p => Ok p | Err e => Err (ErrPresence e) end.

(** The payload bytes of an encoded page, and writing them back. *)
Definition payload_len : nat := page_len - 4 - HeaderSize.
Definition page_part (b : list Z) : list Z := slice HeaderSize payload_len b.
Definition set_bit (b : list Z) (bit : Z) : list Z := Page.put HeaderSize (BitSet (page_part b) bit) b.

Definition page_index (block : Z) : Z := block / 8 / PayloadSize.
Definition page_base (index : Z) : Z := index * PayloadSize * 8.

(** [writeInitialPresence]: all the pages of a bitmap in one write. *)
Fixpoint encode_pages (bitmap : list Z) (size : Z) (ords : list Z) : dres (list (list Z)) :=
  match ords with
  | [] => Ok []
  | i :: ords =>
      let* b := encode_page bitmap size i in
      let* bs := encode_pages bitmap size ords in
      Ok (b :: bs)
  end.
Definition ordinals (size : Z) : list Z := Z.of_nat <$> seq 0 (Z.to_nat (Pages size)).
Definition writeInitialPresence (f : file) (bitmap : list Z) (size : Z) : dres file :=
  let* bs := encode_pages bitmap size (ordinals size) in
  Ok (writeFull f presenceAreaPage bs).

Fixpoint load_pages (read : Z -> dres (list Z)) (size : Z) (ords : list Z) (bitmap : list Z) : dres (list Z) :=
  match ords with
  | [] => Ok bitmap
  | i :: ords =>
      let* b := read (presenceAreaPage + i) in
      let* part := decode_page b size i in
      load_pages read size ords (Page.put (Z.to_nat (i * PayloadSize)) part bitmap)
  end.
Definition loadPresence (read : Z -> dres (list Z)) (size : Z) : dres (list Z) :=
  load_pages read size (ordinals size) (replicate (Z.to_nat (Bytes size)) 0).

Definition setPresence (t : transaction) (block : Z) : dres transaction :=
  let index := page_index block in
  let page := presenceAreaPage + index in
  let edit b := Ok (set_page page (sealPage (set_bit b (block - page_base index))) t) in
  match t_pages t !! page with
  | Some b => edit b
  | None =>
      if Has (s_presence (store t)) block then Ok t
      else
        let* b := encode_page (s_presence (store t)) (s_size (store t)) index in
        edit b
  end.

(** The blocks of one page in [setPresenceRange]; [None] is the nil slice. *)
Fixpoint range_blocks (t : transaction) (index : Z) (blocks : list Z) (b : option (list Z)) (changed : bool)
    : dres (option (list Z) * bool) :=
  match blocks with
  | [] => Ok (b, changed)
  | block :: rest =>
      let edit b :=
        let bit := block - page_base index in
        if Has (page_part b) bit then range_blocks t index rest (Some b) changed
        else range_blocks t index rest (Some (set_bit b bit)) true in
      match b with
      | Some b => edit b
      | None =>
          if Has (s_presence (store t)) block then range_blocks t index rest None changed
          else
            let* b := encode_page (s_presence (store t)) (s_size (store t)) index in
            edit b
      end
  end.
Definition z_range (start stop : Z) : list Z := (fun i => start + Z.of_nat i) <$> seq 0 (Z.to_nat (stop - start)).
Fixpoint setPresenceRange (fuel : nat) (t : transaction) (start stop : Z) : dres transaction :=
  if stop <=? start then Ok t else
  match fuel with
  | O => Err (DiffErr "out of fuel")
  | S fuel =>
      let index := page_index start in
      let limit := Z.min stop (page_base index + PayloadSize * 8) in
      let page := presenceAreaPage + index in
      let* (b, changed) := range_blocks t index (z_range start limit) (t_pages t !! page) false in
      let t := match b with
               | None => t
               | Some b => set_page page (if changed then sealPage b else b) t
               end in
      setPresenceRange fuel t limit stop
  end.

(** [snapshotPresence]: a chain of bitmap slots, one per page. *)
Fixpoint snapshot_pages (t : transaction) (ords : list Z) (head previous : Z) : dres (Z * transaction) :=
  match ords with
  | [] => Ok (head, t)
  | i :: ords =>
      let* (s, t) := allocate t kindBitmap in
      let* b := encode_page (s_presence (store t)) (s_size (store t)) i in
      let t := set_page (slotPage s) b t in
      if previous =? 0 then snapshot_pages t ords s s
      else
        let* d := desc t previous in
        let* t := setDesc t previous (mkDescriptor (Birth d) s (Kind d)) in
        snapshot_pages t ords head s
  end.
Definition snapshotPresence (t : transaction) : dres (Z * transaction) :=
  snapshot_pages t (ordinals (s_size (store t))) 0 0.

Fixpoint snapshot_load (read : Z -> dres (list Z)) (epoch size next : Z) (ords : list Z) (s : Z) (bitmap : list Z)
    : dres (list Z) :=
  match ords with
  | [] => if s =? 0 then Ok bitmap else Err (DiffErr "diffstore: excess checkpoint bitmap link")
  | i :: ords =>
      if (s =? 0) || (next <=? s) then Err (DiffErr "diffstore: invalid checkpoint bitmap link")
      else
        let* b := read (descriptorPage s) in
        if negb (checkPage b) then Err (DiffErr "metadata checksum mismatch")
        else
          let d := get_descriptor b s in
          if negb (Birth d =? epoch) || negb (Kind d =? kindBitmap)
          then Err (DiffErr "diffstore: checkpoint bitmap ownership mismatch")
          else
            let* b := read (slotPage s) in
            let* part := decode_page b size i in
            snapshot_load read epoch size next ords (dNext d) (Page.put (Z.to_nat (i * PayloadSize)) part bitmap)
  end.
Definition readSnapshotPresence (read : Z -> dres (list Z)) (cp : checkpoint) (size next : Z) : dres (list Z) :=
  if negb (cp_BitmapDone cp =? 0) then Err (DiffErr "diffstore: checkpoint bitmap is being reclaimed")
  else snapshot_load read (cp_Epoch cp) size next (ordinals size) (cp_Bitmap cp)
         (replicate (Z.to_nat (Bytes size)) 0).

(** [releaseBitmap]: at most [budget] pages move to the garbage list. *)
Definition set_bitmap (head done : Z) (cp : checkpoint) : checkpoint :=
  mkCheckpoint (cp_ID cp) (cp_Epoch cp) (cp_Root cp) (cp_Next cp) (cp_Previous cp) (cp_Garbage cp)
    (cp_Visible cp) (cp_Retained cp) (cp_Pending cp) head done.
Fixpoint release_pages (budget : nat) (t : transaction) (cp : checkpoint) (done : nat)
    : dres (nat * checkpoint * transaction) :=
  match budget with
  | O => Ok (done, cp, t)
  | S budget =>
      if cp_Bitmap cp =? 0 then Ok (done, cp, t)
      else if Pages (s_size (store t)) <=? cp_BitmapDone cp then Err (DiffErr "diffstore: excess checkpoint bitmap")
      else
        let s := cp_Bitmap cp in
        let* d := desc t s in
        if negb (Kind d =? kindBitmap) || negb (Birth d =? cp_Epoch cp) || (dNext d =? s)
        then Err (DiffErr "diffstore: invalid checkpoint bitmap ownership")
        else
          let* b := read t (slotPage s) in
          let* _ := decode_page b (s_size (store t)) (cp_BitmapDone cp) in
          let cp := set_bitmap (dNext d) (cp_BitmapDone cp + 1) cp in
          let d := mkDescriptor (Birth d) (Garbage (t_ctrl t)) kindGarbage in
          let t := set_ctrl (set_Garbage s (t_ctrl t)) t in
          let* t := setDesc t s d in
          release_pages budget t cp (S done)
  end.
Definition releaseBitmap (t : transaction) (cp : checkpoint) (budget : nat) : dres (nat * checkpoint * transaction) :=
  let* (done, cp, t) := release_pages budget t cp 0 in
  if (cp_Bitmap cp =? 0) && negb (cp_BitmapDone cp =? Pages (s_size (store t)))
  then Err (DiffErr "diffstore: truncated checkpoint bitmap") else Ok (done, cp, t).

(** ** Bits of a part of the bitmap *)

Lemma slice_BitSet off k p block : Z.of_nat off * 8 <= block ->
  slice off k (BitSet p block) =
    if decide (block < Z.of_nat (off + k) * 8) then BitSet (slice off k p) (block - Z.of_nat off * 8) else slice off k p.
Proof.
  intros Hb. assert ((block - Z.of_nat off * 8) mod 8 = block mod 8) as Hm by div_lia.
  assert ((block - Z.of_nat off * 8) / 8 = block / 8 - Z.of_nat off) as Hd by div_lia.
  case_decide as Hlt; apply list_eq; intros i; unfold BitSet; rewrite ?Hm, ?Hd.
  - destruct (decide (i = Z.to_nat (block / 8 - Z.of_nat off))) as [->|Hi].
    + rewrite list_lookup_alter_eq, !slice_lookup. assert (block / 8 < Z.of_nat (off + k)) by div_lia.
      assert (Z.of_nat off <= block / 8) by div_lia. rewrite !decide_True by lia.
      replace (off + Z.to_nat (block / 8 - Z.of_nat off))%nat with (Z.to_nat (block / 8)) by lia.
      by rewrite list_lookup_alter_eq.
    + rewrite list_lookup_alter_ne by done. rewrite !slice_lookup. case_decide; [|done].
      apply list_lookup_alter_ne. assert (Z.of_nat off <= block / 8) by div_lia. lia.
  - rewrite !slice_lookup. case_decide; [|done]. apply list_lookup_alter_ne.
    assert (Z.of_nat (off + k) <= block / 8) by div_lia. lia.
Qed.
Lemma slice_BitSet_low off k p block : 0 <= block < Z.of_nat off * 8 -> slice off k (BitSet p block) = slice off k p.
Proof.
  intros Hb. apply list_eq. intros i. rewrite !slice_lookup. case_decide; [|done]. unfold BitSet.
  apply list_lookup_alter_ne. assert (block / 8 < Z.of_nat off) by div_lia. lia.
Qed.
Lemma BitSet_present p block : 0 <= block -> Has p block = true -> BitSet p block = p.
Proof.
  intros Hb Hh. unfold BitSet. apply list_eq. intros i. destruct (decide (i = Z.to_nat (block / 8))) as [->|Hi];
    [|by rewrite list_lookup_alter_ne]. rewrite list_lookup_alter_eq. rewrite Has_testbit in Hh. unfold byte_at in Hh.
  destruct (p !! Z.to_nat (block / 8)) as [v|]; cbn in *; [|done]. f_equal. apply Z.bits_inj'. intros n Hn.
  rewrite Z.lor_spec, Z.shiftl_1_l, Z.pow2_bits_eqb by div_lia.
  destruct (Z.eqb_spec (block mod 8) n) as [<-|]; [by rewrite Hh|by rewrite orb_false_r].
Qed.

(** ** Editing an encoded page *)

Lemma payload_len_val : payload_len = Z.to_nat PayloadSize.
Proof. done. Qed.
(** [block] is on page [i]. *)
Definition on_page (i block : Z) : Prop := page_base i <= block < page_base (i + 1).
Lemma page_index_on block : 0 <= block -> on_page (page_index block) block.
Proof. intros. unfold on_page, page_base, page_index, PayloadSize. div_lia. Qed.

Lemma part_BitSet B size i block : 0 <= i -> on_page i block -> block / 8 < Bytes size ->
  part (BitSet B block) size i = BitSet (part B size i) (block - page_base i).
Proof.
  unfold on_page, page_base, part, part_len, PayloadSize. intros Hi Hb Hs.
  rewrite slice_BitSet by lia. rewrite decide_True by div_lia. f_equal. lia.
Qed.
Lemma part_BitSet_other B size i block : 0 <= i -> 0 <= block -> ~ on_page i block ->
  part (BitSet B block) size i = part B size i.
Proof.
  unfold on_page, page_base, part, part_len, PayloadSize. intros Hi Hb Hn.
  destruct (Z.lt_ge_cases block (i * 4060 * 8)) as [Hlt|Hge].
  - apply slice_BitSet_low. lia.
  - rewrite slice_BitSet by lia. rewrite decide_False by lia. done.
Qed.

Lemma page_part_length b : is_page b -> length (page_part b) = payload_len.
Proof. intros [Hl _]. unfold page_part. apply slice_length. unfold payload_len, HeaderSize. plia. Qed.
Lemma set_bit_page b bit : is_page b -> 0 <= bit -> is_page (set_bit b bit).
Proof.
  intros Hb Hbit. pose proof (page_part_length b Hb). unfold set_bit.
  apply put_page; [done|apply BitSet_ok; [apply slice_ok, Hb|done]|unfold HeaderSize; plia].
Qed.

(** An encoded page up to its checksum. *)
Definition encoded_body (B : list Z) (size i : Z) (b : list Z) : Prop := is_page b /\ encoded B size i (sealPage b).
Lemma encoded_body_of B size i b : 0 < part_len size i <= PayloadSize -> encoded B size i b -> encoded_body B size i b.
Proof.
  intros Hp []. split; [done|]. unfold PayloadSize in *. unfold HeaderSize in *.
  assert (forall off k, (off + k <= page_len - 4)%nat -> slice off k (sealPage b) = slice off k b) as Hs
    by (intros; by apply sealPage_slice).
  unfold getLE in *. split; unfold getLE, PayloadSize, HeaderSize; try (rewrite Hs by plia; done).
  - by apply sealPage_page.
  - by apply (sealPage_crc b).
Qed.

Lemma encoded_body_set B size i b block : valid_size size -> 0 <= i < Pages size -> on_page i block ->
  0 <= block < size / PageSize -> encoded_body B size i b ->
  encoded_body (BitSet B block) size i (set_bit b (block - page_base i)).
Proof.
  intros Hs Hi Hb Hblk [Hpg He]. set (bit := block - page_base i).
  assert (0 <= bit) as Hbit by (unfold bit, on_page in *; lia).
  pose proof (set_bit_page b bit Hpg Hbit) as Hpg'. split; [done|].
  destruct (part_len_bounds size i Hs Hi) as (Hp & Hp' & _).
  assert (block / 8 < Bytes size) as Hby by (unfold Bytes; unfold valid_size, PageSize in *; div_lia).
  pose proof (page_part_length b Hpg) as Hpl. rewrite payload_len_val in Hpl. destruct Hpg as [Hl Hbo].
  assert (forall c off k, is_page c -> (off + k <= page_len - 4)%nat -> slice off k (sealPage c) = slice off k c) as Hseal
    by (intros; by apply sealPage_slice).
  assert (forall off k, (off + k <= 32)%nat -> slice off k (sealPage (set_bit b bit)) = slice off k (sealPage b)) as Hhead.
  { intros. rewrite !Hseal by (done || plia). unfold set_bit. apply slice_put_other; unfold HeaderSize in *.
    - rewrite BitSet_length, Hpl. unfold PayloadSize. plia.
    - lia. }
  assert (forall off k, (off + k <= 4060)%nat ->
    slice (32 + off) k (sealPage (set_bit b bit)) = slice off k (BitSet (page_part b) bit)) as Hbody.
  { intros off k Hk. rewrite Hseal by (done || plia). unfold set_bit.
    rewrite <- (slice_slice 32 4060) by lia. f_equal. unfold HeaderSize.
    assert (length (BitSet (page_part b) bit) = 4060%nat) as <- by (rewrite BitSet_length, Hpl; done).
    rewrite slice_put_same; [done|]. rewrite BitSet_length, Hpl. unfold PayloadSize. plia. }
  assert (bit < part_len size i * 8) as Hlt.
  { unfold bit, on_page, page_base, part_len, PayloadSize in *. div_lia. }
  destruct He. unfold HeaderSize, PayloadSize in *. unfold getLE in *.
  split; unfold HeaderSize, PayloadSize, getLE; try (rewrite Hhead by plia; done).
  - by apply sealPage_page.
  - by apply (sealPage_crc (set_bit b bit)).
  - replace 32%nat with (32 + 0)%nat by lia. rewrite Hbody by lia. rewrite slice_BitSet by lia.
    rewrite decide_True by lia. unfold page_part, HeaderSize. rewrite slice_slice by (rewrite payload_len_val; unfold PayloadSize; lia).
    rewrite part_BitSet by (assumption || lia). f_equal; [|unfold bit; lia].
    rewrite <- en_part, Hseal by (done || plia). done.
  - rewrite Hbody by lia. rewrite slice_BitSet_low by lia.
    unfold page_part, HeaderSize. rewrite slice_slice by (rewrite payload_len_val; unfold PayloadSize; lia).
    rewrite <- en_pad, Hseal by (done || plia). done.
Qed.

(** ** Editing the presence area inside a transaction *)

(** [t'] shows the same metadata as [t]: only presence pages differ. *)
Record same_view (t t' : transaction) : Prop := {
  sv_wf : tx_wf t';
  sv_store : store t' = store t;
  sv_ctrl : t_ctrl t' = t_ctrl t;
  sv_pe : pe t' = pe t;
  sv_dsc : forall x, dsc t' x = dsc t x;
  sv_nd : forall x, 1 <= x -> nd t' x = nd t x;
  sv_checkpoint : forall x, 1 <= x -> readCheckpoint t' x = readCheckpoint t x;
  sv_nodes : t_nodes t' = t_nodes t;
  sv_fresh : fresh t' = fresh t;
  sv_data : t_data t' = t_data t;
  sv_allocated : allocated t' = allocated t;
  sv_slot : forall x, 1 <= x -> t_pages t' !! slotPage x = t_pages t !! slotPage x }.
Lemma view_refl t : tx_wf t -> same_view t t.
Proof. by split. Qed.
Lemma view_trans t t1 t2 : same_view t t1 -> same_view t1 t2 -> same_view t t2.
Proof.
  intros [] []. split; try congruence; intros.
  - rewrite sv_nd1 by done. auto.
  - rewrite sv_checkpoint1 by done. auto.
  - rewrite sv_slot1 by done. auto.
Qed.

Section PresencePage.
Context (t : transaction) (i : Z) (b : list Z).
Context (Hwf : tx_wf t) (Hsize : writable_size (s_size (store t))) (Hi : 0 <= i < Pages (s_size (store t))) (Hb : is_page b).
Local Notation t' := (set_page (presenceAreaPage + i) b t).

Lemma presence_below : presenceAreaPage + i < slotAreaPage.
Proof. pose proof (size_pages _ Hsize). unfold presenceAreaPage, slotAreaPage. lia. Qed.
Lemma presence_read q : slotAreaPage <= q -> read t' q = read t q.
Proof. intros Hq. rewrite read_set_page, decide_False; [done|]. pose proof presence_below. lia. Qed.
Lemma presence_dsc x : dsc t' x = dsc t x.
Proof.
  apply option_eq. intros d. rewrite !dsc_Some. cbn [set_page t_ctrl].
  split; intros (Hx & c & Hc & ?); (split; [done|]); exists c; revert Hc;
    rewrite presence_read by (apply descriptorPage_area; lia); done.
Qed.
Lemma presence_slot x : 1 <= x -> read t' (slotPage x) = read t (slotPage x).
Proof. intros Hx. apply presence_read. pose proof (slotPage_area x Hx). lia. Qed.
Lemma presence_pe : pe t' = pe t.
Proof.
  unfold pe. cbn [set_page t_ctrl]. destruct (Z.eqb_spec (Protected (t_ctrl t)) 0) as [|H0]; [done|].
  destruct (w_prot t Hwf H0) as (? & _). unfold readCheckpoint. by rewrite presence_slot by lia.
Qed.
Lemma presence_wf : tx_wf t'.
Proof.
  pose proof presence_pe as Hpe. pose proof presence_below as Hlt. destruct Hwf. split; try done.
  - intros p c Hc. cbn [set_page t_pages] in Hc. destruct (decide (p = presenceAreaPage + i)) as [->|].
    + rewrite lookup_insert_eq in Hc. injection Hc as <-. split; [done|]. right. unfold presencePage.
      cbn [set_page store]. apply andb_true_iff. split; [apply Z.leb_le|apply Z.ltb_lt]; lia.
    + rewrite lookup_insert_ne in Hc by done. by apply w_pages.
  - intros s Hs. rewrite presence_read by (apply descriptorPage_area; lia). by apply w_desc.
  - intros H0. destruct (w_prot H0) as (? & (cp & ? & ?) & d & ? & ?). split; [done|]. split.
    + exists cp. split; [|done]. unfold readCheckpoint. by rewrite presence_slot by (cbn; lia).
    + exists d. by rewrite presence_dsc.
  - by rewrite Hpe.
  - by rewrite Hpe.
  - intros s c Hs Hc. cbn [set_page t_pages] in Hc. pose proof (slotPage_area s Hs).
    rewrite lookup_insert_ne in Hc by lia. rewrite presence_dsc. by eapply w_slotpages.
  - intros s n Hn. destruct (w_nodes s n Hn) as ((d & ? & ? & ?) & ? & ?). split; [|done].
    exists d. by rewrite presence_dsc, Hpe.
  - destruct w_free as (l & Hl & ?). exists l. split; [|done]. eapply chain_ext; [|exact Hl]. intros x _. apply presence_dsc.
Qed.
Lemma presence_nd x : 1 <= x -> nd t' x = nd t x.
Proof.
  intros Hx. unfold nd, nd_of, inspectNode. cbn [tx_reader rd_nodes rd_next rd_read rd_total].
  cbn [set_page t_nodes t_ctrl store]. by rewrite presence_slot by done.
Qed.
Lemma presence_view : same_view t t'.
Proof.
  split; [apply presence_wf|done|done|apply presence_pe|apply presence_dsc|apply presence_nd| |done..|].
  - intros x Hx. unfold readCheckpoint. by rewrite presence_slot.
  - intros x Hx. cbn. apply lookup_insert_ne. pose proof presence_below. pose proof (slotPage_area x Hx). lia.
Qed.
End PresencePage.

(** The bitmap a transaction shows: its edited pages over the committed bitmap. *)
Record pres (t : transaction) (B : list Z) : Prop := {
  pr_size : writable_size (s_size (store t));
  pr_ok : bitmap_ok (s_size (store t)) B;
  pr_store : bitmap_ok (s_size (store t)) (s_presence (store t));
  pr_page : forall i, 0 <= i < Pages (s_size (store t)) ->
    match t_pages t !! (presenceAreaPage + i) with
    | Some b => encoded B (s_size (store t)) i b
    | None => part B (s_size (store t)) i = part (s_presence (store t)) (s_size (store t)) i
    end }.

Lemma block_page size block : writable_size size -> 0 <= block < size / PageSize -> 0 <= page_index block < Pages size.
Proof.
  intros [[[? ?] Hm] _] Hb. unfold page_index, Pages, Bytes, PayloadSize, PageSize in *.
  set (q := size / 4096) in *. clearbody q. div_lia.
Qed.
Lemma bitmap_BitSet size B block : valid_size size -> bitmap_ok size B -> 0 <= block < size / PageSize ->
  bitmap_ok size (BitSet B block).
Proof.
  intros Hs (Hb & Hl & Hout) Hblk. split_and!; [apply BitSet_ok; [done|lia]|by rewrite BitSet_length|].
  intros x Hx. assert (block < 8 * Z.of_nat (length B)) by (rewrite Hl; unfold Bytes; div_lia).
  rewrite Has_BitSet by lia. rewrite Hout by done. by rewrite (proj2 (Z.eqb_neq x block)) by lia.
Qed.
Lemma encode_page_Ok size B i : writable_size size -> bitmap_ok size B -> 0 <= i < Pages size ->
  exists b, encode_page B size i = Ok b /\ encoded B size i b.
Proof.
  intros [Hs _] (Hb & Hl & _) Hi. destruct (Encode_encoded B size i Hb Hl Hs Hi) as (b & He & ?).
  exists b. unfold encode_page. by rewrite He.
Qed.
(** Equal parts hold equal bits. *)
Lemma Has_part size B i block : writable_size size -> 0 <= i < Pages size -> on_page i block -> 0 <= block < size / PageSize ->
  Has B block = Has (part B size i) (block - page_base i).
Proof.
  intros [Hs _] Hi Hon Hblk. destruct (part_len_bounds size i Hs Hi) as (Hp & Hp' & _).
  unfold on_page, page_base, PayloadSize in *. unfold Has, part.
  assert ((block - i * 4060 * 8) / 8 = block / 8 - i * 4060) as -> by div_lia.
  assert ((block - i * 4060 * 8) mod 8 = block mod 8) as -> by div_lia.
  assert (block / 8 < Bytes size) by (unfold Bytes, PageSize in *; div_lia).
  assert (i * 4060 <= block / 8) by div_lia.
  rewrite byte_at_slice by (unfold part_len, PayloadSize in *; div_lia).
  unfold PayloadSize. by replace (Z.of_nat (Z.to_nat (i * 4060)) + (block / 8 - i * 4060)) with (block / 8) by lia.
Qed.

Lemma pres_update t B B' i b : pres t B -> bitmap_ok (s_size (store t)) B' ->
  (forall j, 0 <= j -> j <> i -> part B' (s_size (store t)) j = part B (s_size (store t)) j) ->
  encoded B' (s_size (store t)) i b -> pres (set_page (presenceAreaPage + i) b t) B'.
Proof.
  intros [Hs Hok Hst Hpg] HB Hpart He. split; cbn [set_page store t_pages]; [done..|].
  intros j Hj. destruct (decide (j = i)) as [->|Hne]; [by rewrite lookup_insert_eq|].
  rewrite lookup_insert_ne by lia. specialize (Hpg j Hj). specialize (Hpart j ltac:(lia) Hne).
  destruct (t_pages t !! _) as [c|]; [|congruence].
  destruct Hpg. split; try done. by rewrite Hpart.
Qed.
Lemma pres_set_page t B i block b : pres t B -> 0 <= i < Pages (s_size (store t)) -> on_page i block ->
  0 <= block < s_size (store t) / PageSize -> encoded (BitSet B block) (s_size (store t)) i b ->
  pres (set_page (presenceAreaPage + i) b t) (BitSet B block).
Proof.
  intros Hp Hi Hon Hblk He. apply (pres_update t B); [done|apply bitmap_BitSet; [apply Hp|apply Hp|done]| |done].
  intros j Hj Hne. apply part_BitSet_other; [lia..|]. unfold on_page, page_base, PayloadSize in *. lia.
Qed.
Lemma pres_absent t B i block : pres t B -> 0 <= i < Pages (s_size (store t)) -> on_page i block ->
  0 <= block < s_size (store t) / PageSize -> t_pages t !! (presenceAreaPage + i) = None ->
  Has (s_presence (store t)) block = Has B block /\
  exists b, encode_page (s_presence (store t)) (s_size (store t)) i = Ok b /\ encoded B (s_size (store t)) i b.
Proof.
  intros [Hs Hok Hst Hpg] Hi Hon Hblk Hn. specialize (Hpg i Hi). rewrite Hn in Hpg. split.
  - by rewrite !(Has_part (s_size (store t)) _ i block), Hpg.
  - destruct (encode_page_Ok _ _ i Hs Hst Hi) as (b & Hb & He). exists b. split; [done|]. destruct He. split; try done.
    by rewrite Hpg.
Qed.

Lemma setPresence_spec t B block : tx_wf t -> pres t B -> 0 <= block < s_size (store t) / PageSize ->
  exists t', setPresence t block = Ok t' /\ same_view t t' /\ pres t' (BitSet B block).
Proof.
  intros Hwf Hp Hblk. pose proof (block_page _ block (pr_size t B Hp) Hblk) as Hi.
  pose proof (page_index_on block ltac:(lia)) as Hon. set (i := page_index block) in *.
  pose proof (pr_size t B Hp) as [Hvs _]. destruct (part_len_bounds _ i Hvs Hi) as (Hpl & _).
  assert (forall b, encoded B (s_size (store t)) i b ->
    let b' := sealPage (set_bit b (block - page_base i)) in
    same_view t (set_page (presenceAreaPage + i) b' t) /\ pres (set_page (presenceAreaPage + i) b' t) (BitSet B block)) as Hed.
  { intros b He b'. destruct (encoded_body_set B _ i b block Hvs Hi Hon Hblk) as [Hpg He']; [by apply encoded_body_of|].
    split; [|by apply pres_set_page]. apply presence_view; [done|apply Hp|done|by apply sealPage_page]. }
  unfold setPresence. fold i. cbn zeta. destruct (t_pages t !! (presenceAreaPage + i)) as [b|] eqn:E.
  - pose proof (pr_page t B Hp i Hi) as He. rewrite E in He. destruct (Hed b He). eauto.
  - destruct (pres_absent t B i block Hp Hi Hon Hblk E) as (Hhas & b & Hb & He). rewrite Hhas.
    destruct (Has B block) eqn:Eh.
    + exists t. split; [done|]. split; [by apply view_refl|]. by rewrite BitSet_present by (lia || done).
    + rewrite Hb. cbn [res_bind]. destruct (Hed b He). eauto.
Qed.

(** ** Ranges *)

Definition set_blocks (blocks : list Z) (B : list Z) : list Z := fold_left BitSet blocks B.
Lemma set_blocks_ok size blocks B : valid_size size -> bitmap_ok size B ->
  Forall (fun x => 0 <= x < size / PageSize) blocks -> bitmap_ok size (set_blocks blocks B).
Proof.
  intros Hs. revert B. induction blocks as [|x l IH]; intros B HB Hl; [done|]. apply Forall_cons in Hl as [Hx Hl].
  cbn. apply IH; [by apply bitmap_BitSet|done].
Qed.
Lemma Has_set_blocks size blocks B x : bitmap_ok size B -> valid_size size ->
  Forall (fun x => 0 <= x < size / PageSize) blocks -> 0 <= x ->
  Has (set_blocks blocks B) x = bool_decide (x ∈ blocks) || Has B x.
Proof.
  intros HB Hs. revert B HB. induction blocks as [|y l IH]; intros B HB Hl Hx.
  { rewrite bool_decide_eq_false_2; [done|apply not_elem_of_nil]. }
  apply Forall_cons in Hl as [Hy Hl]. cbn. rewrite IH; [|by apply bitmap_BitSet|done..].
  pose proof HB as (_ & Hlen & _). rewrite Has_BitSet by (rewrite ?Hlen; unfold Bytes; div_lia || lia).
  destruct (Z.eqb_spec x y) as [->|Hne].
  - rewrite (bool_decide_eq_true_2 (y ∈ y :: l)) by (by left). by rewrite orb_true_r.
  - cbn [orb]. f_equal. apply bool_decide_ext. rewrite elem_of_cons. naive_solver.
Qed.
Lemma part_set_blocks size blocks B i j : 0 <= j -> j <> i -> Forall (fun x => 0 <= x /\ on_page i x) blocks ->
  part (set_blocks blocks B) size j = part B size j.
Proof.
  intros Hj Hne. revert B. induction blocks as [|x l IH]; intros B Hl; [done|]. apply Forall_cons in Hl as [[Hx Hon] Hl].
  cbn. rewrite IH by done. apply part_BitSet_other; [done..|]. unfold on_page, page_base, PayloadSize in *. lia.
Qed.
Lemma z_range_elem start stop x : x ∈ z_range start stop <-> start <= x < stop.
Proof.
  unfold z_range. rewrite list_elem_of_fmap. split.
  - intros (i & -> & Hi%elem_of_seq). lia.
  - intros Hx. exists (Z.to_nat (x - start)). split; [lia|]. apply elem_of_seq. lia.
Qed.
Lemma z_range_app a b c : a <= b <= c -> z_range a c = z_range a b ++ z_range b c.
Proof.
  intros H. unfold z_range. replace (Z.to_nat (c - a)) with (Z.to_nat (b - a) + Z.to_nat (c - b))%nat by lia.
  rewrite seq_app, fmap_app. f_equal.
  replace (seq (0 + Z.to_nat (b - a)) (Z.to_nat (c - b))) with (Nat.add (Z.to_nat (b - a)) <$> seq 0 (Z.to_nat (c - b)))
    by (rewrite fmap_add_seq; f_equal; lia).
  rewrite <- list_fmap_compose. apply list_fmap_ext. intros i x _. cbn. lia.
Qed.

(** The page buffer of [setPresenceRange] holds the bitmap [B]. *)
Definition holds (t : transaction) (i : Z) (B : list Z) (b : option (list Z)) (changed : bool) : Prop :=
  match b with
  | None => changed = false /\ pres t B /\ t_pages t !! (presenceAreaPage + i) = None
  | Some c => encoded_body B (s_size (store t)) i c /\ (changed = false -> encoded B (s_size (store t)) i c)
  end.
Lemma Has_page_part B size i c block : writable_size size -> 0 <= i < Pages size -> on_page i block ->
  0 <= block < size / PageSize -> encoded_body B size i c -> Has (page_part c) (block - page_base i) = Has B block.
Proof.
  intros Hs Hi Hon Hblk [Hpg He]. rewrite (Has_part size B i block Hs Hi Hon Hblk). destruct Hs as [Hs _].
  destruct (part_len_bounds size i Hs Hi) as (Hp & Hp' & _). destruct He. rewrite <- en_part.
  rewrite sealPage_slice by (done || (unfold HeaderSize, PayloadSize in *; plia)).
  unfold Has, page_part. assert (0 <= (block - page_base i) / 8 < part_len size i) as Hbd.
  { unfold on_page, page_base, part_len, Bytes, PayloadSize, PageSize in *. div_lia. }
  rewrite !byte_at_slice by (rewrite ?payload_len_val; lia). done.
Qed.

Lemma range_blocks_spec t i blocks B b changed : 0 <= i < Pages (s_size (store t)) -> writable_size (s_size (store t)) ->
  Forall (fun x => 0 <= x < s_size (store t) / PageSize /\ on_page i x) blocks -> holds t i B b changed ->
  exists b' changed', range_blocks t i blocks b changed = Ok (b', changed') /\ holds t i (set_blocks blocks B) b' changed'.
Proof.
  intros Hi Hs. revert B b changed. induction blocks as [|x l IH]; intros B b changed Hl Hh; [by exists b, changed|].
  apply Forall_cons in Hl as [[Hx Hon] Hl]. pose proof Hs as [Hvs _]. cbn [range_blocks set_blocks fold_left].
  assert (forall c ch, encoded_body B (s_size (store t)) i c -> (ch = false -> encoded B (s_size (store t)) i c) ->
    exists b' changed', (if Has (page_part c) (x - page_base i) then range_blocks t i l (Some c) ch
      else range_blocks t i l (Some (set_bit c (x - page_base i))) true) = Ok (b', changed') /\
      holds t i (fold_left BitSet l (BitSet B x)) b' changed') as Hed.
  { intros c ch Hc Hch. rewrite (Has_page_part B (s_size (store t)) i c x) by done. destruct (Has B x) eqn:Eh.
    - rewrite (BitSet_present B x) by (lia || done). by apply IH.
    - apply IH; [done|]. split; [by apply encoded_body_set|done]. }
  destruct b as [c|]; [destruct Hh; by apply Hed|]. destruct Hh as (-> & Hp & Hn).
  destruct (pres_absent t B i x Hp Hi Hon Hx Hn) as (Hhas & c & Hc & He). rewrite Hhas. destruct (Has B x) eqn:Eh.
  - rewrite (BitSet_present B x) by (lia || done). by apply IH.
  - rewrite Hc. cbn [res_bind]. destruct (part_len_bounds _ i Hvs Hi) as (Hpl & _). apply Hed; [by apply encoded_body_of|done].
Qed.

Lemma setPresenceRange_spec fuel t B start stop : tx_wf t -> pres t B -> 0 <= start ->
  stop <= s_size (store t) / PageSize -> stop - start <= Z.of_nat fuel ->
  exists t', setPresenceRange fuel t start stop = Ok t' /\ same_view t t' /\ pres t' (set_blocks (z_range start stop) B).
Proof.
  revert t B start. induction fuel as [|fuel IH]; intros t B start Hwf Hp H0 Hst Hf; cbn [setPresenceRange].
  all: destruct (Z.leb_spec stop start) as [Hle|Hlt].
  1,3: exists t; split; [done|]; split; [by apply view_refl|];
    unfold z_range; by replace (Z.to_nat (stop - start)) with 0%nat by lia.
  { lia. }
  pose proof (pr_size t B Hp) as Hs. pose proof (block_page _ start Hs ltac:(lia)) as Hi.
  pose proof (page_index_on start H0) as Hon. set (i := page_index start) in *.
  set (limit := Z.min stop (page_base i + PayloadSize * 8)).
  assert (start < limit <= stop /\ limit <= page_base (i + 1)) as [Hlim Hlim'].
  { unfold limit, on_page, page_base, PayloadSize in *. lia. }
  assert (Forall (fun x => 0 <= x < s_size (store t) / PageSize /\ on_page i x) (z_range start limit)) as Hall.
  { apply Forall_forall. intros x Hx%z_range_elem. unfold on_page in *. lia. }
  assert (holds t i B (t_pages t !! (presenceAreaPage + i)) false) as Hh.
  { pose proof (pr_page t B Hp i Hi) as Hpg. unfold holds. destruct (t_pages t !! _) as [c|] eqn:E; [|done].
    split; [|done]. destruct (part_len_bounds _ i (proj1 Hs) Hi) as (? & _). by apply encoded_body_of. }
  destruct (range_blocks_spec t i _ B _ _ Hi Hs Hall Hh) as (b & ch & Hrb & Hh'). rewrite Hrb. cbn [res_bind].
  set (B1 := set_blocks (z_range start limit) B) in *.
  set (t1 := match b with Some c => set_page _ _ t | None => t end).
  assert (same_view t t1 /\ pres t1 B1 /\ store t1 = store t) as (Hfx & Hp1 & Hst1).
  { unfold t1. destruct b as [c|]; [|split_and!; [by apply view_refl|apply Hh'|done]]. destruct Hh' as [[Hpg He] Hch].
    assert (encoded B1 (s_size (store t)) i (if ch then sealPage c else c)) as He1 by (destruct ch; auto).
    split_and!; [|apply (pres_update t B); [done| |intros j Hj Hne; apply part_set_blocks with (i := i); [done..|]|done]|done].
    - apply presence_view; [done..|]. destruct ch; [by apply sealPage_page|done].
    - apply set_blocks_ok; [apply Hs|apply Hp|]. eapply Forall_impl; [exact Hall|]. naive_solver.
    - eapply Forall_impl; [exact Hall|]. intros x [? ?]. split; [lia|done]. }
  destruct (IH t1 B1 limit) as (t2 & Ht2 & Hfx2 & Hp2); [apply Hfx|done|lia|by rewrite Hst1|lia|].
  exists t2. split; [done|]. split.
  - by eapply view_trans.
  - rewrite (z_range_app start limit stop) by lia. unfold set_blocks. by rewrite fold_left_app.
Qed.

(** ** Reassembling a bitmap from its parts *)

Lemma ordinals_elem size i : i ∈ ordinals size <-> 0 <= i < Pages size.
Proof.
  unfold ordinals. rewrite list_elem_of_fmap. split.
  - intros (k & -> & Hk%elem_of_seq). lia.
  - intros Hi. exists (Z.to_nat i). split; [lia|]. apply elem_of_seq. lia.
Qed.
Lemma ordinals_range size : Forall (fun i => 0 <= i < Pages size) (ordinals size).
Proof. apply Forall_forall. intros i. apply ordinals_elem. Qed.

Section Parts.
Context (size : Z) (Hs : valid_size size) (B : list Z) (HB : Z.of_nat (length B) = Bytes size).

Lemma part_length A i : Z.of_nat (length A) = Bytes size -> 0 <= i < Pages size ->
  length (part A size i) = Z.to_nat (part_len size i).
Proof.
  intros HA Hi. destruct (part_len_bounds size i Hs Hi) as (? & ? & _). unfold part. apply slice_length.
  unfold PayloadSize in *. lia.
Qed.
Lemma part_put A i j : Z.of_nat (length A) = Bytes size -> 0 <= i < Pages size -> 0 <= j < Pages size ->
  part (Page.put (Z.to_nat (i * PayloadSize)) (part B size i) A) size j =
    if decide (j = i) then part B size i else part A size j.
Proof.
  intros HA Hi Hj. pose proof (part_length B i HB Hi) as Hpl. destruct (part_len_bounds size i Hs Hi) as (? & ? & _).
  destruct (part_len_bounds size j Hs Hj) as (? & ? & _). unfold PayloadSize in *.
  case_decide as E.
  - subst j. unfold part at 1. unfold PayloadSize. rewrite <- Hpl. apply slice_put_same. lia.
  - unfold part at 1 3. unfold PayloadSize. apply slice_put_other; rewrite Hpl; unfold part_len, PayloadSize in *; lia.
Qed.
Lemma put_part_length A i : Z.of_nat (length A) = Bytes size -> 0 <= i < Pages size ->
  Z.of_nat (length (Page.put (Z.to_nat (i * PayloadSize)) (part B size i) A)) = Bytes size.
Proof.
  intros HA Hi. destruct (part_len_bounds size i Hs Hi) as (? & ? & _). rewrite put_length; [done|].
  unfold PayloadSize in *. lia.
Qed.
Lemma parts_eq A : Z.of_nat (length A) = Bytes size -> (forall i, 0 <= i < Pages size -> part A size i = part B size i) -> A = B.
Proof.
  intros HA H. apply list_eq. intros k. destruct (decide (Z.of_nat k < Bytes size)) as [Hk|Hk].
  - set (i := Z.of_nat k / PayloadSize). destruct (size_bounds size Hs) as (_ & _ & _ & Hb).
    assert (0 <= i < Pages size) as Hi.
    { unfold i, PayloadSize in *. split; [div_lia|]. apply Z.div_lt_upper_bound; lia. }
    specialize (H i Hi). apply (f_equal (fun l => l !! (k - Z.to_nat (i * PayloadSize))%nat)) in H. unfold part in H.
    rewrite !slice_lookup in H. assert (i * PayloadSize <= Z.of_nat k < i * PayloadSize + PayloadSize) as Hr
      by (unfold i, PayloadSize; div_lia).
    rewrite !decide_True in H by (unfold part_len; lia).
    by replace (Z.to_nat (i * PayloadSize) + (k - Z.to_nat (i * PayloadSize)))%nat with k in H by lia.
  - rewrite !lookup_ge_None_2 by lia. done.
Qed.

(** Putting the parts of the pages of [l] over [A]. *)
Lemma put_parts l A : Z.of_nat (length A) = Bytes size -> Forall (fun i => 0 <= i < Pages size) l ->
  let A' := fold_left (fun A i => Page.put (Z.to_nat (i * PayloadSize)) (part B size i) A) l A in
  Z.of_nat (length A') = Bytes size /\
  forall j, 0 <= j < Pages size -> part A' size j = if decide (j ∈ l) then part B size j else part A size j.
Proof.
  revert A. induction l as [|i l IH]; intros A HA Hl.
  { split; [done|]. intros j Hj. rewrite decide_False; [done|apply not_elem_of_nil]. }
  apply Forall_cons in Hl as [Hi Hl]. cbn [fold_left].
  destruct (IH _ (put_part_length A i HA Hi) Hl) as [Hlen Hp]. split; [done|]. intros j Hj. rewrite Hp by done.
  rewrite part_put by done. destruct (decide (j ∈ l)) as [Hin|Hin], (decide (j = i)) as [->|Hne].
  - by rewrite decide_True by (by left).
  - by rewrite decide_True by (by right).
  - by rewrite decide_True by (by left).
  - rewrite decide_False; [done|]. by apply not_elem_of_cons.
Qed.
Lemma put_all A : Z.of_nat (length A) = Bytes size ->
  fold_left (fun A i => Page.put (Z.to_nat (i * PayloadSize)) (part B size i) A) (ordinals size) A = B.
Proof.
  intros HA. destruct (put_parts (ordinals size) A HA (ordinals_range size)) as [Hl Hp]. apply parts_eq; [done|].
  intros i Hi. rewrite Hp by done. by rewrite decide_True by (by apply ordinals_elem).
Qed.
End Parts.

(** ** Loading *)

Definition file_pres (read : Z -> dres (list Z)) (size : Z) (B : list Z) : Prop :=
  forall i, 0 <= i < Pages size -> exists b, read (presenceAreaPage + i) = Ok b /\ encoded B size i b.

Lemma decode_page_encoded B size i b : valid_size size -> bitmap_ok size B -> 0 <= i < Pages size -> encoded B size i b ->
  decode_page b size i = Ok (part B size i).
Proof. intros. unfold decode_page. by rewrite (Decode_encoded B size i b). Qed.
Lemma loadPresence_Ok read size B : valid_size size -> bitmap_ok size B -> file_pres read size B ->
  loadPresence read size = Ok B.
Proof.
  intros Hs HB Hf. unfold loadPresence.
  assert (forall l A, Forall (fun i => 0 <= i < Pages size) l -> load_pages read size l A =
    Ok (fold_left (fun A i => Page.put (Z.to_nat (i * PayloadSize)) (part B size i) A) l A)) as H.
  { induction l as [|i l IH]; intros A Hl; [done|]. apply Forall_cons in Hl as [Hi Hl]. cbn [load_pages fold_left].
    destruct (Hf i Hi) as (b & -> & He). cbn [res_bind]. rewrite (decode_page_encoded B) by done. cbn [res_bind]. by apply IH. }
  rewrite H; [|apply (ordinals_range size)]. f_equal. destruct (size_bounds size Hs) as (? & _).
  apply put_all; [done|apply HB|]. rewrite length_replicate. lia.
Qed.

(** ** Presence across a commit *)

Definition presence_ords (size : Z) (rs : list record) : list Z :=
  (fun r => fst r - presenceAreaPage) <$> filter (fun r => presencePage (fst r) size = true) rs.
Lemma presencePage_ord size q : presencePage q size = true <-> 0 <= q - presenceAreaPage < Pages size.
Proof. unfold presencePage. rewrite andb_true_iff, Z.leb_le, Z.ltb_lt. lia. Qed.
Lemma merge_fold size B rs A : valid_size size -> Z.of_nat (length B) = Bytes size -> Z.of_nat (length A) = Bytes size ->
  (forall i b, 0 <= i < Pages size -> (presenceAreaPage + i, b) ∈ rs -> encoded B size i b) ->
  fold_left (merge_presence size) rs A =
  fold_left (fun A i => Page.put (Z.to_nat (i * PayloadSize)) (part B size i) A) (presence_ords size rs) A.
Proof.
  intros Hs HB. revert A. induction rs as [|[q b] rs IH]; intros A HA Hrs; [done|]. cbn [fold_left].
  assert (forall i c, 0 <= i < Pages size -> (presenceAreaPage + i, c) ∈ rs -> encoded B size i c) as Hrs'
    by (intros i c Hi Hin; apply Hrs; [done|by right]).
  unfold presence_ords. rewrite filter_cons. cbn [fst]. unfold merge_presence at 2. cbn [fst snd].
  destruct (presencePage q size) eqn:E; [|rewrite decide_False by done; by apply IH].
  rewrite decide_True by done. cbn [fmap list_fmap fold_left fst]. apply presencePage_ord in E. set (i := q - presenceAreaPage) in *.
  assert (encoded B size i b) as [_ _ _ _ _ _ _ Hpart _].
  { apply Hrs; [done|]. unfold i. replace (presenceAreaPage + (q - presenceAreaPage)) with q by lia. by left. }
  replace (Z.to_nat (Z.min PayloadSize (Z.of_nat (length A) - Z.of_nat (Z.to_nat (i * PayloadSize)))))
    with (Z.to_nat (part_len size i)) by (unfold part_len; rewrite HA; unfold PayloadSize in *; lia).
  rewrite Hpart. apply IH; [|done]. by apply put_part_length.
Qed.

Lemma presence_all_pages t i b : tx_wf t -> writable_size (s_size (store t)) -> 0 <= i < Pages (s_size (store t)) ->
  all_pages t !! (presenceAreaPage + i) = Some b <-> t_pages t !! (presenceAreaPage + i) = Some b.
Proof.
  intros Hwf Hs Hi. assert (forall x n, t_nodes t !! x = Some n -> presenceAreaPage + i <> slotPage x) as Hne.
  { intros x n Hx He. pose proof (node_slot t x n Hwf Hx). pose proof (slotPage_area x ltac:(lia)).
    pose proof (presence_below t i Hs Hi). lia. }
  rewrite all_pages_lookup by done. split; [|by auto]. intros [(x & n & Hx & He & _)|[? _]]; [by destruct (Hne x n Hx)|done].
Qed.

Record presence_kept (t : transaction) (B : list Z) (s : Store) : Prop := {
  pk_memory : s_presence s = B;
  pk_disk : file_pres (readFull (s_file s)) (s_size (store t)) B }.

Lemma commit_memory c t B s : ready t -> pres t B -> commit c t = Ok s -> s_presence s = B.
Proof.
  intros Hr Hp Hcm. pose proof (pr_size t B Hp) as Hs. pose proof Hs as [Hvs _]. pose proof (rd_wf t Hr) as Hwf.
  pose proof (pr_ok t B Hp) as (_ & HlB & _). pose proof (pr_store t B Hp) as (_ & HlS & _).
  unfold commit in Hcm. apply res_bind_Ok in Hcm as (pl & Hpl & Hcm).
  destruct (plan_cases t pl Hpl) as [(-> & Hno & _)|(p & ->)].
  - injection Hcm as <-. cbn. apply (parts_eq _ Hvs B HlB); [done|]. intros i Hi. symmetry.
    pose proof (pr_page t B Hp i Hi) as Hpg. destruct (t_pages t !! _) as [b|] eqn:E; [|done]. exfalso.
    apply presence_all_pages in E; [|done..]. by rewrite Hno, lookup_empty in E.
  - pose proof (commit_plan_ok t p Hwf (rd_fresh t Hr) Hpl) as Hpo. apply Ok_inj in Hcm as <-. cbn [s_presence].
    assert (forall i b, 0 <= i < Pages (s_size (store t)) ->
      (presenceAreaPage + i, b) ∈ pl_new p ++ pl_existing p <-> t_pages t !! (presenceAreaPage + i) = Some b) as Hin.
    { intros i b Hi. rewrite <- presence_all_pages by done. rewrite elem_of_app, (po_new _ _ Hpo), (po_existing _ _ Hpo).
      destruct (decide (presenceAreaPage + i ∈ fresh t)); split; [naive_solver|naive_solver| |naive_solver].
      intros [[]|(_ & [[He _]|?])]; [done| |done]. unfold presenceAreaPage in He. lia. }
    rewrite (merge_fold _ B); [|done..|].
    2:{ intros i b Hi H. apply Hin in H; [|done]. pose proof (pr_page t B Hp i Hi) as Hpg. by rewrite H in Hpg. }
    destruct (put_parts _ Hvs B HlB (presence_ords (s_size (store t)) (pl_new p ++ pl_existing p)) _ HlS) as [Hl Hpt].
    { apply Forall_forall. intros i ([q b] & -> & [Hq _]%list_elem_of_filter)%list_elem_of_fmap. by apply presencePage_ord. }
    apply (parts_eq _ Hvs B HlB); [done|]. intros i Hi. rewrite Hpt by done. case_decide as Hord; [done|].
    pose proof (pr_page t B Hp i Hi) as Hpg. destruct (t_pages t !! _) as [b|] eqn:E; [|done]. exfalso. apply Hord.
    apply Hin in E; [|done]. apply list_elem_of_fmap. exists (presenceAreaPage + i, b). split; [cbn; lia|].
    apply list_elem_of_filter. split; [|done]. apply presencePage_ord. cbn. lia.
Qed.
Lemma commit_disk t B s : ready t -> publishes t (data_page t) s -> pres t B ->
  file_pres (readFull (s_file (store t))) (s_size (store t)) (s_presence (store t)) ->
  file_pres (readFull (s_file s)) (s_size (store t)) B.
Proof.
  intros Hr Hpu Hp Hf. pose proof (pr_size t B Hp) as Hs. pose proof (rd_wf t Hr) as Hwf.
  intros i Hi. pose proof (pr_page t B Hp i Hi) as Hpg. pose proof (presence_below t i Hs Hi) as Hlt.
  destruct (t_pages t !! (presenceAreaPage + i)) as [b|] eqn:E.
  - exists b. split; [|done]. apply (pu_changed _ _ _ Hpu). by apply presence_all_pages.
  - destruct (Hf i Hi) as (b & Hb & He). exists b. split; [|destruct He; split; try done; by rewrite Hpg].
    apply (pu_kept _ _ _ Hpu); [|unfold presenceAreaPage; lia| | |done].
    + apply eq_None_not_Some. intros [c' Hc']. apply presence_all_pages in Hc'; [|done..]. congruence.
    + unfold log_page, presenceAreaPage. change (logImagesPage + maxLogPages) with 1542. lia.
    + intros (d & Hd' & He'). pose proof (slotPage_area _ (rd_data t Hr d Hd')). lia.
Qed.
Lemma commit_presence c t B s : ready t -> cipher_ok c -> data_ok t -> pres t B ->
  file_pres (readFull (s_file (store t))) (s_size (store t)) (s_presence (store t)) ->
  commit c t = Ok s -> presence_kept t B s.
Proof.
  intros Hr Hc Hd Hp Hf Hcm. split; [by eapply commit_memory|].
  apply (commit_disk t B); [done|by eapply cm_publishes, commit_committed|done..].
Qed.

(** ** Presence pages and the tree operations *)

Lemma fx_pres t fp t' B : tree_fx t fp t' -> pres t B -> pres t' B.
Proof.
  intros Hfx [Hs Hok Hst Hpg]. split; rewrite ?(fx_store _ _ _ Hfx); [done..|].
  intros i Hi. rewrite (fx_low _ _ _ Hfx); [by apply Hpg|]. by apply (presence_below t).
Qed.
Lemma view_mapping t t' levels root l fp : same_view t t' -> mapping t levels root l fp -> mapping t' levels root l fp.
Proof.
  intros Hv [Ht Hs Hn Hl]. split; [|done..|].
  - destruct Ht as [?|(h & Hh & Ht)]; [by left|right]. exists h. split; [done|]. eapply tree_ext; [|exact Ht].
    intros x n Hx Hnd. destruct (Hl x Hx) as (d & Hd & _). apply dsc_bound in Hd. by rewrite (sv_nd _ _ Hv) by lia.
  - intros x Hx. rewrite (sv_dsc _ _ Hv). by apply Hl.
Qed.
Lemma view_retained t t' r l : same_view t t' -> retained t r l -> retained t' r l.
Proof.
  intros Hv (h & f & Ht & Hf). exists h, f. split.
  - eapply tree_ext; [|exact Ht]. intros x n Hx Hnd. destruct (Hf x Hx) as (d & Hd & _). apply dsc_bound in Hd.
    by rewrite (sv_nd _ _ Hv) by lia.
  - intros x Hx. rewrite (sv_dsc _ _ Hv), (sv_pe _ _ Hv). by apply Hf.
Qed.

(** ** Snapshots of the bitmap *)

(** Changes of slots that were unused in [t]. *)
Lemma fx_touch t t1 t2 : tree_fx t [] t1 -> tx_wf t2 -> store t2 = store t1 -> pe t2 = pe t1 -> t_ctrl t2 = t_ctrl t1 ->
  t_data t2 = t_data t1 -> fresh t2 = fresh t1 -> (forall x, ~ unused t x -> dsc t2 x = dsc t1 x) ->
  (forall x n, ~ unused t x -> 1 <= x -> nd t1 x = Some n -> nd t2 x = Some n) -> (born t1 -> born t2) ->
  low_same t1 t2 -> prim t1 t2 -> tree_fx t [] t2.
Proof.
  intros Hfx Hwf Hst Hpe Hct Hda Hfr Hd Hn Hb Hl Hp.
  assert (forall x d, dsc t x = Some d -> Kind d <> kindFree -> ~ unused t x) as Hun.
  { intros x d Hx Hk Hu. by apply (unused_live _ _ _ Hu) in Hx. }
  destruct Hfx. split; rewrite ?Hst, ?Hpe, ?Hct, ?Hda, ?Hfr; auto.
  - intros x d Hx Hk. rewrite Hd by (by eapply Hun). by apply fx_live.
  - intros x d n Hx Hk Hkc Hc Hnd. apply Hn; [by eapply Hun|apply dsc_bound in Hx; lia|]. by eapply fx_nd.
  - intros q Hq. rewrite (Hl q Hq). by apply fx_low.
  - by eapply rtc_r.
Qed.

(** The private decoded state is untouched. *)
Definition same_private (t u : transaction) : Prop := protectedKnown u = protectedKnown t /\ t_nodes u = t_nodes t.

(** Filling the page of a checkpoint or bitmap slot other than the protected one. *)
Section MetaSlot.
Context (t : transaction) (s : Z) (d : descriptor) (b : list Z).
Context (Hwf : tx_wf t) (Hd : dsc t s = Some d) (Hk : Kind d = kindCheckpoint \/ Kind d = kindBitmap).
Context (Hnp : s <> Protected (t_ctrl t)) (Hb : is_page b).
Local Notation t' := (set_page (slotPage s) b t).
Lemma meta_dsc x : dsc t' x = dsc t x.
Proof. pose proof (dsc_bound _ _ _ Hd). apply dsc_set_slotpage. lia. Qed.
Lemma meta_read x : 1 <= x -> x <> s -> read t' (slotPage x) = read t (slotPage x).
Proof.
  pose proof (dsc_bound _ _ _ Hd). intros Hx Hne. rewrite read_set_page, decide_False; [done|].
  intros E. apply slotPage_inj in E; lia.
Qed.
Lemma meta_nd x : 1 <= x -> x <> s -> nd t' x = nd t x.
Proof.
  intros Hx Hne. unfold nd, nd_of, inspectNode. cbn [tx_reader rd_nodes rd_next rd_read rd_total].
  cbn [set_page t_nodes t_ctrl store]. by rewrite meta_read.
Qed.
Lemma meta_protected : Protected (t_ctrl t) <> 0 ->
  readCheckpoint t' (Protected (t_ctrl t)) = readCheckpoint t (Protected (t_ctrl t)).
Proof.
  intros H0. destruct (w_prot t Hwf H0) as (? & _). unfold readCheckpoint. rewrite meta_read; [done|lia|congruence].
Qed.
Lemma meta_pe : pe t' = pe t.
Proof. apply pe_ext; [done|apply meta_protected]. Qed.
Lemma meta_wf : tx_wf t'.
Proof.
  pose proof (dsc_bound _ _ _ Hd) as Hs. pose proof meta_pe as Hpe. pose proof meta_protected as Hcp. destruct Hwf. split; try done.
  - intros p c Hc. cbn [set_page t_pages] in Hc. destruct (decide (p = slotPage s)) as [->|].
    + rewrite lookup_insert_eq in Hc. injection Hc as <-. split; [done|]. apply home_slot. lia.
    + rewrite lookup_insert_ne in Hc by done. by apply w_pages.
  - intros x Hx. rewrite read_set_page, decide_False; [by apply w_desc|]. intros E. symmetry in E.
    apply slotPage_descriptorPage in E; [done|lia..].
  - intros H0. destruct (w_prot H0) as (? & (cp & ? & ?) & dp & ? & ?). split; [done|]. split.
    + exists cp. split; [|done]. cbn [set_page t_ctrl] in *. by rewrite Hcp.
    + exists dp. by rewrite meta_dsc.
  - by rewrite Hpe.
  - by rewrite Hpe.
  - intros x c Hx Hc. rewrite meta_dsc. destruct (decide (x = s)) as [->|Hne]; [exists d; auto|].
    cbn [set_page t_pages] in Hc. rewrite lookup_insert_ne in Hc; [by eapply w_slotpages|].
    intros E. apply slotPage_inj in E; lia.
  - intros x n Hn. destruct (w_nodes x n Hn) as ((dx & ? & ? & ?) & ? & ?). split; [|done]. exists dx. by rewrite meta_dsc, Hpe.
  - destruct w_free as (l & Hl & ?). exists l. split; [|done]. eapply chain_ext; [|exact Hl]. intros x _. apply meta_dsc.
Qed.
End MetaSlot.

Section BitmapSlot.
Context (t : transaction) (s : Z) (d : descriptor) (Hwf : tx_wf t) (Hd : dsc t s = Some d) (Hk : Kind d = kindBitmap).

Lemma bitmap_not_node : t_nodes t !! s = None.
Proof.
  destruct (t_nodes t !! s) as [n|] eqn:E; [|done]. destruct (w_nodes t Hwf s n E) as ((d' & Hd' & Hk' & _) & _).
  simplify_eq. by rewrite Hk in Hk'.
Qed.
Lemma bitmap_not_protected : s <> Protected (t_ctrl t).
Proof.
  intros E. pose proof (dsc_bound _ _ _ Hd). destruct (w_prot t Hwf ltac:(lia)) as (_ & _ & d' & Hd' & Hk').
  rewrite <- E in Hd'. simplify_eq. by rewrite Hk in Hk'.
Qed.
(** Linking it to the next slot. *)
Lemma bitmap_link next : is_u64 next ->
  exists t', setDesc t s (mkDescriptor (Birth d) next (Kind d)) = Ok t' /\ tx_wf t' /\ pe t' = pe t /\
    store t' = store t /\ t_ctrl t' = t_ctrl t /\ t_data t' = t_data t /\ fresh t' = fresh t /\ low_same t t' /\
    (forall x, dsc t' x = if decide (x = s) then Some (mkDescriptor (Birth d) next (Kind d)) else dsc t x) /\
    (forall x, 1 <= x -> nd t' x = nd t x) /\ (forall x, 1 <= x -> t_pages t' !! slotPage x = t_pages t !! slotPage x) /\
    same_private t t' /\ allocated t' = allocated t.
Proof.
  intros Hn. pose proof (dsc_bound _ _ _ Hd) as Hs. pose proof (dsc_ok _ _ _ Hwf Hd) as (Hb1 & _ & Hb3).
  destruct (w_desc t Hwf s Hs) as (b & Hb & Hc). assert (is_page b) as Hpg by exact (read_page t _ b Hwf Hb).
  assert (descriptor_ok (mkDescriptor (Birth d) next (Kind d))) as Hok by (split_and!; cbn; done).
  rewrite (setDesc_eq _ _ _ _ Hb). eexists. split; [done|]. set (t' := set_page _ _ t).
  pose proof (set_descriptor_dsc t s _ b Hs Hb Hpg Hok (w_desc t Hwf)) as Hdsc. fold t' in Hdsc.
  pose proof (descriptorPage_area s ltac:(lia)) as Ha.
  split_and!; [|apply pe_ext; [done|]; intros H0; apply set_descriptor_cp; [done|]; destruct (w_prot t Hwf H0); lia|done..| |done| | |done|done].
  - apply wf_set_descriptor; [done..|left; apply bitmap_not_node|right; by right|intros E; by apply bitmap_not_protected in E|].
    destruct (w_free t Hwf) as (l & Hl & Hnd). exists l. split_and!; [done..|]. intros Hin.
    destruct (chain_kind _ _ _ _ _ Hl Hin) as (d' & Hd' & Hk'). simplify_eq. by rewrite Hk in Hk'.
  - intros q Hq. cbn. apply lookup_insert_ne. lia.
  - intros x Hx. by apply set_descriptor_nd.
  - intros x Hx. cbn. apply lookup_insert_ne. intros E. symmetry in E. apply slotPage_descriptorPage in E; [done|lia..].
Qed.
End BitmapSlot.

(** The slots [l] hold the first pages of the bitmap [P], linked in order. *)
Record snap (t : transaction) (P : list Z) (l : list Z) (tk : transaction) : Prop := {
  sn_fx : tree_fx t [] tk;
  sn_nodup : NoDup l;
  sn_fresh : forall s, s ∈ l -> slotPage s ∈ fresh tk;
  sn_unused : forall s, s ∈ l -> unused t s;
  sn_next : Next (t_ctrl tk) <= Next (t_ctrl t) + Z.of_nat (length l);
  sn_garbage : Garbage (t_ctrl tk) = Garbage (t_ctrl t) /\ Root (t_ctrl tk) = Root (t_ctrl t);
  sn_known : same_private t tk;
  sn_other : forall x, 1 <= x -> x ∉ l -> read tk (slotPage x) = read t (slotPage x);
  sn_link : forall j s, l !! j = Some s ->
    dsc tk s = Some (mkDescriptor (Epoch (t_ctrl t)) (default 0 (l !! S j)) kindBitmap);
  sn_page : forall j s, l !! j = Some s ->
    exists b, read tk (slotPage s) = Ok b /\ encoded P (s_size (store t)) (Z.of_nat j) b }.

(** A new slot at the end, its page filled and not yet linked. *)
Lemma snap_slot t P l tk b : snap t P l tk -> Next (t_ctrl tk) <= maxSlot ->
  encoded P (s_size (store t)) (Z.of_nat (length l)) b ->
  exists s t1, allocate tk kindBitmap = Ok (s, t1) /\ store t1 = store t /\ s ∉ l /\ unused t s /\ is_u64 s /\ 1 <= s /\
    let t2 := set_page (slotPage s) b t1 in
    tree_fx t [] t2 /\ Next (t_ctrl t2) <= Next (t_ctrl t) + Z.of_nat (S (length l)) /\
    Garbage (t_ctrl t2) = Garbage (t_ctrl t) /\ Root (t_ctrl t2) = Root (t_ctrl t) /\ same_private t t2 /\
    dsc t2 s = Some (mkDescriptor (Epoch (t_ctrl t)) 0 kindBitmap) /\
    (forall x, x <> s -> dsc t2 x = dsc tk x) /\
    (slotPage s ∈ fresh t2 /\ fresh tk ⊆ fresh t2) /\
    read t2 (slotPage s) = Ok b /\
    (forall x, 1 <= x -> x <> s -> read t2 (slotPage x) = read tk (slotPage x)).
Proof.
  intros [Hfx Hnd Hfrs Hun Hnx [Hg Hrt] [Hkn Hnn] _ Hlk Hpg] Hroom He. pose proof (fx_wf _ _ _ Hfx) as Hwf.
  destruct (allocate_spec tk kindBitmap Hwf Hroom) as (s & t1 & Hal & Hafx); [unfold is_u64, kindBitmap; lia|].
  exists s, t1. pose proof Hafx as [Hwf1 Hpos Hun1 Hd1 Hoth _ _ Hnn1 _ Hcf Hg1 Hst1 Hnx1 [Hfs1 Hfs2] _ _ _ _ _ Hkn1].
  assert (s ∉ l) as Hnin.
  { intros [j Hj]%list_elem_of_lookup_1. pose proof (unused_live _ _ _ Hun1 (Hlk j s Hj)) as E. done. }
  assert (unused t s) as Hut by exact (fx_unused _ _ _ _ Hfx Hun1).
  assert (Epoch (t_ctrl tk) = Epoch (t_ctrl t)) as HE by apply (fx_ctrl _ _ _ Hfx).
  assert (tree_fx t [] t1) as Hfx1.
  { eapply fx_trans; [exact Hfx|by eapply fx_allocate|]. intros x Hx. by apply elem_of_nil in Hx. }
  pose proof (dsc_bound _ _ _ Hd1) as Hb1. pose proof (w_next t1 Hwf1) as Hmx. rewrite maxSlot_val in Hmx.
  pose proof (bitmap_not_protected t1 s _ Hwf1 Hd1 eq_refl) as Hnp1.
  assert (Kind (mkDescriptor (Epoch (t_ctrl tk)) 0 kindBitmap) = kindCheckpoint \/
    Kind (mkDescriptor (Epoch (t_ctrl tk)) 0 kindBitmap) = kindBitmap) as Hkk by (by right).
  pose proof (meta_wf t1 s _ b Hwf1 Hd1 Hkk Hnp1 (en_page _ _ _ _ He)) as Hwf2.
  pose proof (meta_pe t1 s _ b Hwf1 Hd1 Hnp1) as Hpe2. pose proof (meta_dsc t1 s _ b Hd1) as Hdsc2.
  pose proof (meta_nd t1 s _ b Hd1) as Hnd2.
  split_and!; [done|by rewrite Hst1, (fx_store _ _ _ Hfx)|done|done|unfold is_u64; lia|done|].
  cbn zeta. split_and!.
  - apply (fx_touch t t1); [done|done|done|done|done|done|done| | | | |].
    + intros x _. apply Hdsc2.
    + intros x n Hx H1 Hn. rewrite Hnd2; [done..|]. by intros ->.
    + intros Hbn x d. rewrite Hdsc2. apply Hbn.
    + intros q Hq. cbn. apply lookup_insert_ne. pose proof (slotPage_area s Hpos). lia.
    + apply (prim_snapshot _ _ s _ Hpos Hfs2 Hd1); try done; [eexists; by rewrite Hdsc2|]. intros x Hx Hne. cbn. apply lookup_insert_ne. intros E. by apply slotPage_inj in E.
  - cbn [set_page t_ctrl]. lia.
  - cbn [set_page t_ctrl]. congruence.
  - cbn [set_page t_ctrl]. rewrite <- Hrt. apply Hcf.
  - split; cbn [set_page protectedKnown t_nodes]; congruence.
  - rewrite Hdsc2, Hd1. by rewrite HE.
  - intros x Hx. rewrite Hdsc2. by apply Hoth.
  - done.
  - done.
  - by rewrite read_set_page, decide_True.
  - intros x Hx Hne. rewrite read_set_page, decide_False; [by apply (al_read _ _ _ _ Hafx)|].
    intros E. by apply slotPage_inj in E.
Qed.

Lemma lookup_snoc (l : list Z) s j x : (l ++ [s]) !! j = Some x <-> l !! j = Some x \/ (j = length l /\ x = s).
Proof.
  destruct (decide (j < length l)%nat) as [Hj|Hj].
  - rewrite lookup_app_l by done. split; [by left|]. intros [?|[-> _]]; [done|lia].
  - rewrite lookup_app_r by lia. destruct (decide (j = length l)) as [->|Hne].
    + rewrite Nat.sub_diag. cbn. rewrite (lookup_ge_None_2 l) by lia. split; [intros [= ->]; auto|intros [?|[_ ->]]; done].
    + rewrite lookup_ge_None_2 by (cbn; lia). rewrite (lookup_ge_None_2 l) by lia. split; [done|]. intros [?|[? _]]; done.
Qed.
Lemma snap_first t P s t2 b : tree_fx t [] t2 -> unused t s -> Next (t_ctrl t2) <= Next (t_ctrl t) + 1 ->
  Garbage (t_ctrl t2) = Garbage (t_ctrl t) -> Root (t_ctrl t2) = Root (t_ctrl t) -> same_private t t2 ->
  dsc t2 s = Some (mkDescriptor (Epoch (t_ctrl t)) 0 kindBitmap) -> read t2 (slotPage s) = Ok b ->
  encoded P (s_size (store t)) 0 b -> slotPage s ∈ fresh t2 ->
  (forall x, 1 <= x -> x <> s -> read t2 (slotPage x) = read t (slotPage x)) -> snap t P [s] t2.
Proof.
  intros Hfx Hun Hnx Hg Hrt Hkn Hd Hb He Hfr Ho. split; [done|apply NoDup_singleton| | |cbn; lia|done|done| | |].
  - by intros x ->%list_elem_of_singleton.
  - by intros x ->%list_elem_of_singleton.
  - intros x Hx Hn. apply Ho; [done|]. intros ->. apply Hn. by left.
  - intros [|j] x Hx; [|discriminate]. injection Hx as <-. done.
  - intros [|j] x Hx; [|discriminate]. injection Hx as <-. eauto.
Qed.

(** Linking the last slot of [l] to a new one. *)
Lemma snap_extend t P l prev tk s t2 b : snap t P (l ++ [prev]) tk -> tree_fx t [] t2 -> unused t s -> s ∉ l ++ [prev] ->
  is_u64 s -> Next (t_ctrl t2) <= Next (t_ctrl t) + Z.of_nat (S (length (l ++ [prev]))) ->
  Garbage (t_ctrl t2) = Garbage (t_ctrl t) -> Root (t_ctrl t2) = Root (t_ctrl t) -> same_private t t2 ->
  dsc t2 s = Some (mkDescriptor (Epoch (t_ctrl t)) 0 kindBitmap) -> (forall x, x <> s -> dsc t2 x = dsc tk x) ->
  slotPage s ∈ fresh t2 /\ fresh tk ⊆ fresh t2 -> read t2 (slotPage s) = Ok b -> (forall x, 1 <= x -> x <> s -> read t2 (slotPage x) = read tk (slotPage x)) ->
  encoded P (s_size (store t)) (Z.of_nat (length (l ++ [prev]))) b ->
  exists t3, setDesc t2 prev (mkDescriptor (Epoch (t_ctrl t)) s kindBitmap) = Ok t3 /\
    desc t2 prev = Ok (mkDescriptor (Epoch (t_ctrl t)) 0 kindBitmap) /\ snap t P ((l ++ [prev]) ++ [s]) t3.
Proof.
  intros [_ Hnd Hfrs Hun _ _ _ Hot Hlk Hpg] Hfx Hus Hs Hu Hnx Hg Hrt [Hkn Hnn] Hds Hoth [Hf1 Hf2] Hb Hrd He. set (l1 := l ++ [prev]) in *.
  assert (l1 !! length l = Some prev) as Hlast by (apply lookup_snoc; auto).
  assert (prev ∈ l1) as Hpin by (by eapply list_elem_of_lookup_2).
  assert (length l1 = S (length l)) as Hlen by (unfold l1; rewrite length_app; cbn; lia).
  assert (prev <> s) as Hne by congruence.
  assert (dsc t2 prev = Some (mkDescriptor (Epoch (t_ctrl t)) 0 kindBitmap)) as Hdp.
  { rewrite Hoth by done. rewrite (Hlk _ _ Hlast). rewrite (lookup_ge_None_2 l1) by lia. done. }
  destruct (bitmap_link t2 prev _ (fx_wf _ _ _ Hfx) Hdp eq_refl s Hu)
    as (t3 & Hsd & Hwf3 & Hpe3 & Hst3 & Hct3 & Hda3 & Hfr3 & Hlow3 & Hdsc3 & Hnd3 & Hpg3 & [Hkn3 Hnn3] & Hal3). cbn [Birth Kind] in *.
  assert (forall x, 1 <= x -> read t3 (slotPage x) = read t2 (slotPage x)) as Hrd3.
  { intros x Hx. unfold read. by rewrite Hpg3, Hst3. }
  assert (forall j x, l1 !! j = Some x -> 1 <= x) as Hpos by (intros j x Hj; pose proof (dsc_bound _ _ _ (Hlk j x Hj)); lia).
  exists t3. split; [done|]. split; [by apply dsc_desc|]. split.
  - apply (fx_touch t t2); [done..| | | |done|].
    + intros x Hx. rewrite Hdsc3, decide_False; [done|]. intros ->. by apply Hx, Hun.
    + intros x n _ H1 Hn. by rewrite Hnd3.
    + intros Hbn x d. rewrite Hdsc3, Hct3. case_decide as E; [|apply Hbn]. intros [= <-]. cbn.
      pose proof (Hbn _ _ Hdp). done.
    + apply (prim_snapshot _ _ prev _ (Hpos _ _ Hlast) (Hf2 _ (Hfrs _ Hpin)) Hdp); try done; [|eexists; by rewrite Hdsc3, decide_True|auto].
      intros x Hx. by rewrite Hdsc3, decide_False.
  - apply NoDup_app. split_and!; [done| |apply NoDup_singleton]. by intros x Hx ->%list_elem_of_singleton.
  - intros x [Hx| ->%list_elem_of_singleton]%elem_of_app; rewrite Hfr3; auto.
  - intros x [?| ->%list_elem_of_singleton]%elem_of_app; auto.
  - rewrite Hct3, length_app. cbn. lia.
  - by rewrite Hct3.
  - split; congruence.
  - intros x Hx [Hn Hn1]%not_elem_of_app. rewrite Hrd3, Hrd by (done || (intros ->; apply Hn1; by left)). by apply Hot.
  - intros j x Hj. rewrite Hdsc3. apply lookup_snoc in Hj as [Hj|[-> ->]].
    + case_decide as E.
      * subst x. assert (j = length l) as -> by (eapply NoDup_lookup; eauto).
        rewrite (proj2 (lookup_snoc l1 s (S (length l)) s)); [done|]. right. by split.
      * rewrite Hoth by (intros ->; apply Hs; by eapply list_elem_of_lookup_2). rewrite (Hlk j x Hj).
        pose proof (lookup_lt_Some _ _ _ Hj). assert (j <> length l) by (intros ->; congruence).
        by rewrite (lookup_app_l l1 [s] (S j)) by lia.
    + rewrite decide_False by done. rewrite Hds. by rewrite (lookup_ge_None_2 (l1 ++ [s])) by (rewrite length_app; cbn; lia).
  - intros j x Hj. apply lookup_snoc in Hj as [Hj|[-> ->]].
    + destruct (Hpg j x Hj) as (c & Hc & ?). exists c. split; [|done]. rewrite Hrd3 by (by eapply Hpos).
      rewrite Hrd; [done|by eapply Hpos|]. intros ->. apply Hs. by eapply list_elem_of_lookup_2.
    + exists b. split; [|done]. rewrite Hrd3; [done|]. pose proof (dsc_bound _ _ _ Hds). lia.
Qed.

Lemma snapshot_pages_spec n t l tk : writable_size (s_size (store t)) ->
  bitmap_ok (s_size (store t)) (s_presence (store t)) -> snap t (s_presence (store t)) l tk ->
  Z.of_nat (length l + n) = Pages (s_size (store t)) ->
  Next (t_ctrl t) + Pages (s_size (store t)) <= maxSlot + 1 ->
  exists l' t', snapshot_pages tk (Z.of_nat <$> seq (length l) n) (default 0 (head l)) (default 0 (last l)) =
      Ok (default 0 (head l'), t') /\
    snap t (s_presence (store t)) l' t' /\ Z.of_nat (length l') = Pages (s_size (store t)).
Proof.
  intros Hs HP. revert l tk. induction n as [|n IH]; intros l tk Hsn Hlen Hroom.
  { exists l, tk. split_and!; [done..|lia]. }
  cbn [seq fmap list_fmap snapshot_pages].
  destruct (encode_page_Ok _ _ (Z.of_nat (length l)) Hs HP ltac:(lia)) as (b & Hb & He).
  destruct (snap_slot t _ l tk b Hsn) as (s & t1 & Hal & Hst & Hnin & Hun & Hu & Hpos & Hfx & Hnx & Hg & Hrt & Hkn & Hds & Hoth & Hfrs & Hrs & Hrd);
    [pose proof (sn_next _ _ _ _ Hsn); lia|done|].
  rewrite Hal. cbn [res_bind]. rewrite Hst, Hb. cbn [res_bind].
  destruct l as [|prev l0 _] using rev_ind.
  - cbn [length Z.of_nat] in *. cbn [last default Z.eqb].
    destruct (IH [s] (set_page (slotPage s) b t1)) as (l' & t' & Hok & ? & ?); [|cbn; lia|done|by exists l', t'].
    destruct Hfrs. eapply snap_first; eauto. intros x Hx Hne. rewrite Hrd by done. apply (sn_other _ _ _ _ Hsn); [done|apply not_elem_of_nil].
  - rewrite last_snoc. cbn [default from_option id].
    assert (1 <= prev) as Hprev.
    { pose proof (sn_link _ _ _ _ Hsn (length l0) prev) as Hd. rewrite lookup_snoc in Hd.
      pose proof (dsc_bound _ _ _ (Hd (or_intror (conj eq_refl eq_refl)))). lia. }
    rewrite (proj2 (Z.eqb_neq prev 0)) by lia.
    destruct (snap_extend t _ l0 prev tk s _ b Hsn Hfx Hun Hnin Hu Hnx Hg Hrt Hkn Hds Hoth Hfrs Hrs Hrd He) as (t3 & Hsd & Hde & Hsn3).
    rewrite Hde. cbn [res_bind Birth Kind]. rewrite Hsd. cbn [res_bind].
    destruct (IH ((l0 ++ [prev]) ++ [s]) t3 Hsn3) as (l' & t' & Hok & ? & ?); [rewrite length_app; cbn; lia|done|].
    exists l', t'. split_and!; [|done..]. rewrite <- Hok. rewrite last_snoc. cbn [default from_option id].
    f_equal; [|by destruct l0]. do 2 f_equal. rewrite (length_app (l0 ++ [prev])). cbn. lia.
Qed.
Lemma snapshotPresence_spec t : tx_wf t -> writable_size (s_size (store t)) ->
  bitmap_ok (s_size (store t)) (s_presence (store t)) -> Next (t_ctrl t) + Pages (s_size (store t)) <= maxSlot + 1 ->
  exists l t', snapshotPresence t = Ok (default 0 (head l), t') /\
    snap t (s_presence (store t)) l t' /\ Z.of_nat (length l) = Pages (s_size (store t)).
Proof.
  intros Hwf Hs HP Hroom. pose proof (size_pages _ Hs).
  apply (snapshot_pages_spec (Z.to_nat (Pages (s_size (store t)))) t [] t Hs HP); [|cbn; lia|done].
  split; [by apply fx_refl|constructor| | |cbn; lia|done|done|done|done|done]; intros s Hin; by apply elem_of_nil in Hin.
Qed.

(** Reading a snapshot back: [rd] reads the descriptors and pages of [l]. *)
Lemma snapshot_load_spec rd epoch size next B n l A : valid_size size -> bitmap_ok size B ->
  (forall j s, l !! j = Some s -> 1 <= s < next /\
    (exists b, rd (descriptorPage s) = Ok b /\ checkPage b = true /\
      get_descriptor b s = mkDescriptor epoch (default 0 (l !! S j)) kindBitmap) /\
    exists b, rd (slotPage s) = Ok b /\ encoded B size (Z.of_nat (n + j)) b) ->
  Z.of_nat (n + length l) = Pages size ->
  snapshot_load rd epoch size next (Z.of_nat <$> seq n (length l)) (default 0 (head l)) A =
    Ok (fold_left (fun A i => Page.put (Z.to_nat (i * PayloadSize)) (part B size i) A) (Z.of_nat <$> seq n (length l)) A).
Proof.
  intros Hs HB. revert n A. induction l as [|s l IH]; intros n A Hl Hn; [done|].
  cbn [length seq fmap list_fmap snapshot_load head default from_option id fold_left].
  destruct (Hl 0%nat s eq_refl) as (Hb & (bd & Hbd & Hck & Hgd) & b & Hrb & He). rewrite Nat.add_0_r in He.
  rewrite (proj2 (Z.eqb_neq s 0)), (proj2 (Z.leb_gt next s)) by lia. cbn [orb].
  rewrite Hbd. cbn [res_bind]. rewrite Hck, Hgd. cbn [negb Birth Kind dNext]. rewrite !Z.eqb_refl. cbn [negb orb].
  rewrite Hrb. cbn [res_bind]. cbn [length] in Hn. rewrite (decode_page_encoded B) by (done || lia). cbn [res_bind].
  replace (default 0 ((s :: l) !! 1%nat)) with (default 0 (head l)) by (by destruct l).
  apply (IH (S n)); [|lia]. intros j x Hj. destruct (Hl (S j) x Hj) as (? & ? & c & ? & ?).
  split; [done|]. split; [done|]. exists c. split; [done|]. by replace (S n + j)%nat with (n + S j)%nat by lia.
Qed.

Lemma snapshot_links_read tk size P epoch l : writable_size size -> bitmap_ok size P ->
  (forall j s, l !! j = Some s -> dsc tk s = Some (mkDescriptor epoch (default 0 (l !! S j)) kindBitmap)) ->
  (forall j s, l !! j = Some s -> exists b, read tk (slotPage s) = Ok b /\ encoded P size (Z.of_nat j) b) ->
  Z.of_nat (length l) = Pages size -> forall cp, cp_BitmapDone cp = 0 -> cp_Epoch cp = epoch ->
  cp_Bitmap cp = default 0 (head l) ->
  readSnapshotPresence (read tk) cp size (Next (t_ctrl tk)) = Ok P.
Proof.
  intros [Hs _] HP Hlk Hpg Hl cp Hdone He Hbm. unfold readSnapshotPresence. rewrite Hdone, He, Hbm. cbn [Z.eqb negb].
  unfold ordinals. replace (Z.to_nat (Pages size)) with (length l) by lia.
  rewrite (snapshot_load_spec _ _ _ _ P); [|done|done| |cbn; lia].
  - f_equal. pose proof (size_bounds _ Hs) as ([? _] & _). destruct HP as (_ & HlP & _).
    replace (length l) with (Z.to_nat (Pages size)) by lia.
    apply (put_all _ Hs _ HlP). rewrite length_replicate. lia.
  - intros j s Hj. pose proof (Hlk j s Hj) as Hd. pose proof (dsc_bound _ _ _ Hd) as Hb. split; [done|].
    apply dsc_Some in Hd as (_ & b & Hrb & Hck & Hgd). split; [by exists b|].
    destruct (Hpg j s Hj) as (c & Hc & Henc). by exists c.
Qed.
Lemma snapshot_read t l tk : writable_size (s_size (store t)) ->
  bitmap_ok (s_size (store t)) (s_presence (store t)) -> snap t (s_presence (store t)) l tk ->
  Z.of_nat (length l) = Pages (s_size (store t)) -> forall cp, cp_BitmapDone cp = 0 -> cp_Epoch cp = Epoch (t_ctrl t) ->
  cp_Bitmap cp = default 0 (head l) ->
  readSnapshotPresence (read tk) cp (s_size (store t)) (Next (t_ctrl tk)) = Ok (s_presence (store t)).
Proof. intros Hs HP Hsn. eapply snapshot_links_read; [done|done|apply Hsn|apply Hsn]. Qed.

(** ** The theorems *)

(** Marking a range of blocks as owned: inside any well-formed transaction the
    call terminates with success, afterwards a block is owned exactly when it was
    before or lies in the range, whatever pages the transaction had already edited,
    and nothing else the transaction shows has changed. *)
Theorem setPresenceRange_marks t B start stop : tx_wf t -> pres t B -> 0 <= start -> stop <= s_size (store t) / PageSize ->
  exists t' B', setPresenceRange (Z.to_nat (stop - start)) t start stop = Ok t' /\ same_view t t' /\ pres t' B' /\
    forall x, 0 <= x -> Has B' x = bool_decide (start <= x < stop) || Has B x.
Proof.
  intros Hwf Hp H0 Hst. destruct (setPresenceRange_spec (Z.to_nat (stop - start)) t B start stop Hwf Hp H0 Hst)
    as (t' & Hok & Hv & Hp'); [lia|]. exists t', (set_blocks (z_range start stop) B). split_and!; [done..|].
  intros x Hx. rewrite (Has_set_blocks (s_size (store t))); [|apply Hp|apply Hp| |done].
  - f_equal. apply bool_decide_ext, z_range_elem.
  - apply Forall_forall. intros y Hy%z_range_elem. lia.
Qed.

(** C25 — Ownership survives a commit and a reopening: after a commit the bitmap in
    memory is the one the transaction showed, and loading the presence pages of the
    committed file gives the same bitmap back. *)
Theorem presence_commits c t B s : ready t -> cipher_ok c -> data_ok t -> pres t B ->
  file_pres (readFull (s_file (store t))) (s_size (store t)) (s_presence (store t)) -> commit c t = Ok s ->
  s_presence s = B /\ loadPresence (readFull (s_file s)) (s_size s) = Ok B.
Proof.
  intros Hr Hc Hd Hp Hf Hcm. destruct (commit_presence c t B s Hr Hc Hd Hp Hf Hcm) as [Hm Hdk]. split; [done|].
  rewrite (pu_size _ _ _ (cm_publishes _ _ _ (commit_committed c t s Hr Hc Hd Hcm))).
  apply loadPresence_Ok; [apply Hp|apply Hp|done].
Qed.

(** C26 — A checkpoint's copy of the bitmap: [snapshotPresence] succeeds while slots
    remain, touches only slots that were unused, and the chain it returns reads back
    as exactly the committed bitmap under the checkpoint's epoch. *)
Theorem snapshot_roundtrip t cp : tx_wf t -> writable_size (s_size (store t)) ->
  bitmap_ok (s_size (store t)) (s_presence (store t)) -> Next (t_ctrl t) + Pages (s_size (store t)) <= maxSlot + 1 ->
  cp_BitmapDone cp = 0 -> cp_Epoch cp = Epoch (t_ctrl t) ->
  exists h t', snapshotPresence t = Ok (h, t') /\ tree_fx t [] t' /\
    (cp_Bitmap cp = h -> readSnapshotPresence (read t') cp (s_size (store t)) (Next (t_ctrl t')) = Ok (s_presence (store t))).
Proof.
  intros Hwf Hs HP Hroom Hd He. destruct (snapshotPresence_spec t Hwf Hs HP Hroom) as (l & t' & Hok & Hsn & Hl).
  exists (default 0 (head l)), t'. split; [done|]. split; [apply Hsn|]. intros Hb. by apply (snapshot_read t l).
Qed.

Lemma demo_pres t : store t = demo_store -> t_pages t = ∅ -> pres t demo_presence.
Proof.
  intros Hst Hpg. split; rewrite Hst; [apply demo_writable|apply demo_bitmap_ok|apply demo_bitmap_ok|].
  intros i _. by rewrite Hpg, lookup_empty.
Qed.
Lemma setPresenceRange_marks_witness : exists t' B', setPresenceRange (Z.to_nat (9 - 3)) demo_tx 3 9 = Ok t' /\
  same_view demo_tx t' /\ pres t' B' /\ forall x, 0 <= x -> Has B' x = bool_decide (3 <= x < 9) || Has demo_presence x.
Proof.
  apply (setPresenceRange_marks demo_tx demo_presence 3 9 demo_wf (demo_pres demo_tx eq_refl eq_refl)); discriminate.
Defined.
Lemma demo_file_pres : file_pres (readFull demo_file) demo_size demo_presence.
Proof.
  intros i Hi. assert (Pages demo_size = 1) as HP by reflexivity. assert (i = 0) as -> by lia.
  exists demo_presence_page. split; [|apply demo_presence_encoded]. apply readFull_Ok. split; [split; [discriminate|reflexivity]|].
  change (presenceAreaPage + 0) with 1600. unfold page_at. by rewrite demo_area_page.
Qed.
Lemma presence_commits_witness : exists s, commit None demo_change = Ok s /\
  s_presence s = demo_presence /\ loadPresence (readFull (s_file s)) (s_size s) = Ok demo_presence.
Proof.
  destruct demo_commit as [s Hs]. exists s. split; [exact Hs|].
  exact (presence_commits None demo_change demo_presence s demo_ready I demo_data_ok
    (demo_pres demo_change eq_refl eq_refl) demo_file_pres Hs).
Defined.
Definition demo_new_cp : checkpoint := mkCheckpoint (str "next") 2 2 0 3 0 true true false 4 0.
Lemma snapshot_roundtrip_witness : exists h t', snapshotPresence demo_tx = Ok (h, t') /\ tree_fx demo_tx [] t' /\
  (cp_Bitmap demo_new_cp = h ->
    readSnapshotPresence (read t') demo_new_cp demo_size (Next (t_ctrl t')) = Ok demo_presence).
Proof.
  apply (snapshot_roundtrip demo_tx demo_new_cp demo_wf demo_writable demo_bitmap_ok); [discriminate|reflexivity|reflexivity].
Defined.
