(* ===== verification/Cache.v ===== *)
(** * Cache: the metadata page cache of a versioned DIFF.

    Models cache.go, [readPage] (format.go) and the cached path of [inspectNode]
    (tree.go).  The map and the linked list of the code are one list in recency
    order, most recent first.  The cache is coherent with the file when every entry
    holds the page on disk; a coherent cache is invisible, which is what lets the
    transaction model (Tx.v) read the file directly. *)
From stdpp Require Import base numbers list gmap strings sorting.
From Stdlib Require Import ZArith Lia.
From S2P Require Import Prelude Page Presence Json Format Tree Tx Demo TreeWrite Sha256 Commit Crash Publish.

Record cacheEntry := mkEntryC { ce_page : Z; ce_data : list Z; decoded : option node }.
Record pageCache := mkCache { capacity : nat; lru : list cacheEntry }.
Definition newCache (n : nat) : pageCache := mkCache n [].

Definition find_page (l : list cacheEntry) (page : Z) : option cacheEntry :=
  head (filter (fun e => ce_page e = page) l).
Definition without (l : list cacheEntry) (page : Z) : list cacheEntry := filter (fun e => ce_page e <> page) l.

Definition get (c : pageCache) (page : Z) : option (list Z) * pageCache :=
  match find_page (lru c) page with
  | None => (None, c)
  | Some e => (Some (ce_data e), mkCache (capacity c) (e :: without (lru c) page))
  end.
Definition cache_put (c : pageCache) (page : Z) (b : list Z) : pageCache :=
  let e := mkEntryC page b None in
  match find_page (lru c) page with
  | Some _ => mkCache (capacity c) (e :: without (lru c) page)
  | None =>
      let l := e :: lru c in
      mkCache (capacity c) (if (capacity c <? length l)%nat then removelast l else l)
  end.
Definition getNode (c : pageCache) (page : Z) : option node * pageCache :=
  match find_page (lru c) page with
  | None => (None, c)
  | Some e =>
      match decoded e with
      | None => (None, c)
      | Some n => (Some n, mkCache (capacity c) (e :: without (lru c) page))
      end
  end.
Definition putNode (c : pageCache) (page : Z) (n : node) : pageCache :=
  mkCache (capacity c)
    ((fun e => if ce_page e =? page then mkEntryC (ce_page e) (ce_data e) (Some n) else e) <$> lru c).
Definition cache_remove (c : pageCache) (page : Z) : pageCache := mkCache (capacity c) (without (lru c) page).

(** [readPage]: through the cache, filling it on a miss. *)
Definition readPage (f : file) (c : pageCache) (page : Z) : dres (list Z) * pageCache :=
  match get c page with
  | (Some b, c) => (Ok b, c)
  | (None, c) =>
      match readFull f page with
      | Err e => (Err e, c)
      | Ok b => (Ok b, cache_put c page b)
      end
  end.
(** [transaction.read] over the cached store. *)
Definition read_cached (t : transaction) (c : pageCache) (page : Z) : dres (list Z) * pageCache :=
  match t_pages t !! page with
  | Some b => (Ok b, c)
  | None => readPage (s_file (store t)) c page
  end.
(** [inspectNode] for a transaction, with the decoded nodes of the cache. *)
Definition inspectNode_cached (t : transaction) (c : pageCache) (s : Z) : dres node * pageCache :=
  match t_nodes t !! s with
  | Some n => (Ok n, c)
  | None =>
      let next := Next (t_ctrl t) in
      if negb (next =? 0) && ((s =? 0) || (next <=? s))
      then (Err (DiffErr "B+ slot outside allocation"), c)
      else
        match getNode c (slotPage s) with
        | (Some n, c) => (Ok n, c)
        | (None, c) =>
            match read_cached t c (slotPage s) with
            | (Err e, c) => (Err e, c)
            | (Ok b, c) =>
                match decodeNode b with
                | Err e => (Err e, c)
                | Ok n =>
                    if negb (next =? 0) && existsb (fun e => (total t <=? key e) || (next <=? slot e)) (entries n)
                    then (Err (DiffErr "B+ entry outside capacity or allocation"), c)
                    else (Ok n, putNode c (slotPage s) n)
                end
            end
        end
  end.
(** The cache update at the end of [commit]. *)
Definition commit_cache (t : transaction) (p : plan) (c : pageCache) : pageCache :=
  fold_left (fun c r => cache_put c (fst r) (snd r)) (pl_new p ++ pl_existing p) c.

(** ** Coherence *)

Definition cache_pages (c : pageCache) : list Z := ce_page <$> lru c.
Record cache_wf (c : pageCache) : Prop := {
  cw_nodup : NoDup (cache_pages c);
  cw_size : (length (lru c) <= capacity c)%nat }.
(** An entry holds the page on disk; its decoded node is that of the page, with
    keys and slots inside the capacity and the allocation. *)
Record entry_coherent (f : file) (total next : Z) (e : cacheEntry) : Prop := {
  ec_data : readFull f (ce_page e) = Ok (ce_data e);
  ec_node : forall n, decoded e = Some n -> decodeNode (ce_data e) = Ok n /\
    Forall (fun x => key x < total /\ slot x < next) (entries n) }.
Definition coherent (f : file) (total next : Z) (c : pageCache) : Prop :=
  Forall (entry_coherent f total next) (lru c).

Lemma find_page_Some l page e : find_page l page = Some e -> e ∈ l /\ ce_page e = page.
Proof.
  unfold find_page. intros H. assert (e ∈ filter (fun e => ce_page e = page) l) as Hin.
  { destruct (filter _ l) as [|x l'] eqn:E; [done|]. injection H as ->. by left. }
  apply list_elem_of_filter in Hin. tauto.
Qed.
Lemma find_page_None l page : find_page l page = None -> page ∉ ce_page <$> l.
Proof.
  unfold find_page. intros H (e & -> & He)%list_elem_of_fmap.
  assert (e ∈ filter (fun e' => ce_page e' = ce_page e) l) as Hin by (by apply list_elem_of_filter).
  destruct (filter _ l); [by apply elem_of_nil in Hin|done].
Qed.
Lemma without_pages l page : ce_page <$> without l page = filter (fun q => q <> page) (ce_page <$> l).
Proof.
  unfold without. induction l as [|e l IH]; [done|]. cbn [fmap list_fmap]. rewrite !filter_cons.
  destruct (decide (ce_page e <> page)); cbn; by rewrite IH.
Qed.
Lemma without_length l page e : e ∈ l -> ce_page e = page -> (length (without l page) < length l)%nat.
Proof.
  intros He Hp. induction l as [|x l IH]; [by apply elem_of_nil in He|]. unfold without in *. rewrite filter_cons.
  apply elem_of_cons in He as [->|He].
  - rewrite decide_False by (by intros []). cbn. pose proof (length_filter (fun e => ce_page e <> page) l). lia.
  - specialize (IH He). destruct (decide _); cbn; lia.
Qed.

(** Moving an entry for [page] to the front, and putting one there. *)
Lemma front_wf c e e' : cache_wf c -> e ∈ lru c -> ce_page e' = ce_page e ->
  cache_wf (mkCache (capacity c) (e' :: without (lru c) (ce_page e))).
Proof.
  intros [Hn Hs] He Hp. split.
  - unfold cache_pages. cbn [lru fmap list_fmap]. rewrite without_pages, Hp. apply NoDup_cons. split.
    + rewrite list_elem_of_filter. naive_solver.
    + by apply NoDup_filter.
  - cbn. pose proof (without_length (lru c) _ e He eq_refl). lia.
Qed.
Lemma front_coherent f tot nx c e' page : coherent f tot nx c -> entry_coherent f tot nx e' ->
  coherent f tot nx (mkCache (capacity c) (e' :: without (lru c) page)).
Proof.
  intros Hc He. apply Forall_cons. split; [done|]. unfold coherent in Hc. rewrite Forall_forall in Hc.
  apply Forall_forall. intros x [_ Hx]%list_elem_of_filter. by apply Hc.
Qed.
Lemma removelast_sublist {A} (l : list A) : removelast l `sublist_of` l.
Proof.
  induction l as [|x [|y l] IH]; [done|apply sublist_nil_l|]. cbn [removelast] in *. by apply sublist_skip.
Qed.

Lemma get_spec f tot nx c page : cache_wf c -> coherent f tot nx c ->
  cache_wf (snd (get c page)) /\ coherent f tot nx (snd (get c page)) /\
  forall b, fst (get c page) = Some b -> readFull f page = Ok b.
Proof.
  intros Hw Hc. unfold get. destruct (find_page (lru c) page) as [e|] eqn:E; [|by split_and!].
  apply find_page_Some in E as [He <-]. unfold coherent in Hc. pose proof Hc as Hc'. rewrite Forall_forall in Hc'.
  pose proof (Hc' e He) as Hec. split_and!; [by apply front_wf|by apply front_coherent|].
  intros b [= <-]. apply Hec.
Qed.
Lemma put_wf c page b : (0 < capacity c)%nat -> cache_wf c ->
  cache_wf (cache_put c page b) /\ capacity (cache_put c page b) = capacity c.
Proof.
  intros Hcap Hw. unfold cache_put. destruct (find_page (lru c) page) as [e|] eqn:E.
  - apply find_page_Some in E as [He <-]. split; [by apply front_wf|done].
  - apply find_page_None in E. destruct Hw as [Hn Hs]. set (l := mkEntryC page b None :: lru c).
    assert (NoDup (ce_page <$> l)) as Hnl by (by apply NoDup_cons).
    destruct (Nat.ltb_spec (capacity c) (length l)) as [Ec|Ec]; (split; [split|done]); cbn [lru capacity]; [..|done|done].
    + eapply sublist_NoDup; [exact Hnl|]. apply fmap_sublist, removelast_sublist.
    + unfold l in *. cbn [length] in *. rewrite removelast_firstn_len. rewrite length_take. cbn [length]. lia.
Qed.
Lemma put_elem c page b e : e ∈ lru (cache_put c page b) ->
  e = mkEntryC page b None \/ e ∈ lru c /\ ce_page e <> page.
Proof.
  unfold cache_put. destruct (find_page (lru c) page) as [x|] eqn:E; cbn [lru].
  - intros [->|[? ?]%list_elem_of_filter]%elem_of_cons; auto.
  - intros He. assert (e ∈ mkEntryC page b None :: lru c) as Hin.
    { destruct (_ <? _)%nat; [|done]. eapply elem_of_sublist; [exact He|apply removelast_sublist]. }
    apply elem_of_cons in Hin as [->|Hin]; [by left|right]. split; [done|]. intros <-.
    apply find_page_None in E. apply E, list_elem_of_fmap. eauto.
Qed.
Lemma cache_put_spec f tot nx c page b : (0 < capacity c)%nat -> cache_wf c -> coherent f tot nx c -> readFull f page = Ok b ->
  cache_wf (cache_put c page b) /\ coherent f tot nx (cache_put c page b) /\ capacity (cache_put c page b) = capacity c.
Proof.
  intros Hcap Hw Hc Hb. destruct (put_wf c page b Hcap Hw). split_and!; [done| |done].
  unfold coherent in *. rewrite Forall_forall in *. intros e [->|[He _]]%put_elem; [by split|by apply Hc].
Qed.
Lemma getNode_spec f tot nx c page : cache_wf c -> coherent f tot nx c ->
  cache_wf (snd (getNode c page)) /\ coherent f tot nx (snd (getNode c page)) /\
  capacity (snd (getNode c page)) = capacity c /\
  forall n, fst (getNode c page) = Some n -> exists b, readFull f page = Ok b /\ decodeNode b = Ok n /\
    Forall (fun x => key x < tot /\ slot x < nx) (entries n).
Proof.
  intros Hw Hc. unfold getNode. destruct (find_page (lru c) page) as [e|] eqn:E; [|by split_and!].
  destruct (decoded e) as [n|] eqn:En; [|by split_and!].
  apply find_page_Some in E as [He <-]. pose proof Hc as Hc'. unfold coherent in Hc'. rewrite Forall_forall in Hc'.
  pose proof (Hc' e He) as Hec. split_and!; [by apply front_wf|by apply front_coherent|done|].
  intros m [= <-]. destruct (ec_node _ _ _ _ Hec n En). exists (ce_data e). split_and!; [apply Hec|done..].
Qed.
Lemma putNode_spec f tot nx c page b n : cache_wf c -> coherent f tot nx c -> readFull f page = Ok b ->
  decodeNode b = Ok n -> Forall (fun x => key x < tot /\ slot x < nx) (entries n) ->
  cache_wf (putNode c page n) /\ coherent f tot nx (putNode c page n).
Proof.
  intros [Hn Hs] Hc Hb Hd Hin. split; [split|].
  - unfold cache_pages, putNode. cbn [lru]. rewrite <- list_fmap_compose.
    erewrite list_fmap_ext; [exact Hn|]. intros i e _. cbn. by destruct (_ =? _).
  - unfold putNode. cbn. by rewrite length_fmap.
  - unfold coherent, putNode in *. cbn [lru]. apply Forall_fmap. eapply Forall_impl; [exact Hc|].
    intros e He. cbn. destruct (Z.eqb_spec (ce_page e) page) as [<-|]; [|done].
    split; cbn; [apply He|]. intros m [= <-]. rewrite (ec_data _ _ _ _ He) in Hb. by injection Hb as ->.
Qed.
Lemma coherent_mono f tot nx nx' c : nx <= nx' -> coherent f tot nx c -> coherent f tot nx' c.
Proof.
  intros Hle Hc. eapply Forall_impl; [exact Hc|]. intros e [Hd Hn]. split; [done|]. intros n En.
  destruct (Hn n En) as [? Hf]. split; [done|]. eapply Forall_impl; [exact Hf|]. cbn. lia.
Qed.
Lemma readPage_spec f tot nx c page : (0 < capacity c)%nat -> cache_wf c -> coherent f tot nx c ->
  fst (readPage f c page) = readFull f page /\
  cache_wf (snd (readPage f c page)) /\ coherent f tot nx (snd (readPage f c page)) /\
  capacity (snd (readPage f c page)) = capacity c.
Proof.
  intros Hcap Hw Hc. unfold readPage. destruct (get_spec f tot nx c page Hw Hc) as (Hw' & Hc' & Hg).
  assert (capacity (snd (get c page)) = capacity c) as Hk by (unfold get; by destruct (find_page _ _)).
  destruct (get c page) as [[b|] c'] eqn:E; cbn [fst snd] in *.
  - split_and!; [symmetry; by apply Hg|done..].
  - destruct (readFull f page) as [b|err] eqn:Eb; cbn [fst snd]; [|done].
    rewrite <- Hk in Hcap. destruct (cache_put_spec f tot nx c' page b Hcap Hw' Hc' Eb) as (? & ? & ?). split_and!; [done..|congruence].
Qed.

(** ** The cache is invisible *)

Definition cache_ok (t : transaction) (c : pageCache) : Prop :=
  (0 < capacity c)%nat /\ cache_wf c /\ 1 <= Next (t_ctrl t) /\
  coherent (s_file (store t)) (total t) (Next (t_ctrl t)) c.

Lemma read_cached_spec t c page : cache_ok t c ->
  fst (read_cached t c page) = read t page /\ cache_ok t (snd (read_cached t c page)).
Proof.
  intros (Hcap & Hw & Hn & Hc). unfold read_cached, read. destruct (t_pages t !! page); [by split_and!|].
  destruct (readPage_spec _ _ _ _ page Hcap Hw Hc) as (-> & ? & ? & Hk). split; [done|].
  split_and!; [by rewrite Hk|done..].
Qed.
Lemma bounds_existsb tot nx es :
  existsb (fun e => (tot <=? key e) || (nx <=? slot e)) es = false -> Forall (fun x => key x < tot /\ slot x < nx) es.
Proof.
  induction es as [|e es IH]; [constructor|]. cbn. intros H. apply orb_false_iff in H as [H1 H2].
  apply Forall_cons. split; [bool_prop; lia|by apply IH].
Qed.
Lemma existsb_bounds tot nx es : Forall (fun x => key x < tot /\ slot x < nx) es ->
  existsb (fun e => (tot <=? key e) || (nx <=? slot e)) es = false.
Proof.
  induction 1 as [|e es [H1 H2] _ IH]; [done|]. cbn. rewrite IH.
  by rewrite (proj2 (Z.leb_gt tot (key e))), (proj2 (Z.leb_gt nx (slot e))) by lia.
Qed.
Lemma inspectNode_cached_spec t c s : cache_ok t c -> t_pages t !! slotPage s = None ->
  fst (inspectNode_cached t c s) = inspectNode (tx_reader t) s /\ cache_ok t (snd (inspectNode_cached t c s)).
Proof.
  intros Hok Hp. unfold inspectNode_cached, inspectNode. cbn [tx_reader rd_nodes rd_next rd_read rd_total].
  destruct (t_nodes t !! s) as [n|] eqn:En; [done|]. cbn zeta. destruct (_ && _); [done|].
  pose proof Hok as (Hcap & Hw & Hn & Hc). destruct (getNode_spec _ _ _ _ (slotPage s) Hw Hc) as (Hw1 & Hc1 & Hk1 & Hg).
  fold (total t). rewrite (proj2 (Z.eqb_neq (Next (t_ctrl t)) 0)) by lia. cbn [negb andb].
  destruct (getNode c (slotPage s)) as [[n|] c1] eqn:Eg; cbn [fst snd] in *.
  - destruct (Hg n eq_refl) as (b & Hb & Hd & Hbd). unfold read. rewrite Hp, Hb. cbn [res_bind]. rewrite Hd. cbn [res_bind].
    rewrite existsb_bounds by done. split; [done|]. split_and!; [by rewrite Hk1|done..].
  - assert (cache_ok t c1) as Hok1 by (split_and!; [by rewrite Hk1|done..]).
    destruct (read_cached_spec t c1 (slotPage s) Hok1) as [Hr Hok2].
    destruct (read_cached t c1 (slotPage s)) as [[b|err] c2]; cbn [fst snd] in *; rewrite <- Hr; cbn [res_bind]; [|done].
    destruct (decodeNode b) as [n|err] eqn:Ed; cbn [res_bind]; [|done].
    destruct (existsb _ _) eqn:Ex; [done|]. cbn [fst snd]. split; [done|].
    destruct Hok2 as (Hcap2 & Hw2 & _ & Hc2). unfold read in Hr. rewrite Hp in Hr.
    destruct (putNode_spec _ _ _ c2 (slotPage s) b n Hw2 Hc2 (eq_sym Hr) Ed (bounds_existsb _ _ _ Ex)).
    by split_and!.
Qed.

(** ** Commits keep the cache coherent *)

Lemma put_fold f tot nx rs c : (0 < capacity c)%nat -> cache_wf c -> NoDup rs.*1 ->
  (forall q b, (q, b) ∈ rs -> readFull f q = Ok b) ->
  Forall (fun e => ce_page e ∉ rs.*1 -> entry_coherent f tot nx e) (lru c) ->
  let c' := fold_left (fun c r => cache_put c (fst r) (snd r)) rs c in
  cache_wf c' /\ coherent f tot nx c' /\ capacity c' = capacity c.
Proof.
  revert c. induction rs as [|[q b] rs IH]; intros c Hcap Hw Hnd Hrs Hc.
  { split_and!; [done| |done]. eapply Forall_impl; [exact Hc|]. intros e He. apply He. apply not_elem_of_nil. }
  cbn [fold_left fst snd]. cbn [fmap list_fmap fst] in Hnd, Hc. apply NoDup_cons in Hnd as [Hq Hnd].
  destruct (put_wf c q b Hcap Hw) as [Hw1 Hk1].
  destruct (IH (cache_put c q b)) as (? & ? & ?); [by rewrite Hk1|done|done| | |split_and!; [done..|congruence]].
  - intros q' b' Hin. apply Hrs. by right.
  - rewrite Forall_forall in *. intros e [->|[He Hne]]%put_elem Hnin.
    + split; [|done]. apply Hrs. by left.
    + apply Hc; [done|]. by apply not_elem_of_cons.
Qed.

Lemma NoDup_plan t p : plan_ok t p -> NoDup (pl_new p ++ pl_existing p).*1.
Proof.
  intros Hp. rewrite fmap_app. apply NoDup_app. split_and!; [apply Hp| |apply Hp].
  intros q ([q1 b1] & -> & H1)%list_elem_of_fmap ([q2 b2] & He & H2)%list_elem_of_fmap.
  apply (po_new _ _ Hp) in H1. apply (po_existing _ _ Hp) in H2. cbn in He. subst. tauto.
Qed.
Lemma commit_cache_spec c0 t p c pr : ready t -> plan_ok t p -> cache_ok t c ->
  (forall q, q ∈ cache_pages c -> ~ log_page q /\ ~ data_page t q) ->
  cache_ok (begin (mkStore (apply_writes (commit_writes c0 t (Some p)) (s_file (store t))) (pl_ctrl p) pr (s_size (store t))))
    (commit_cache t p c).
Proof.
  intros Hr Hp (Hcap & Hw & Hn & Hc) Hq. set (f1 := apply_writes _ _).
  destruct (put_fold f1 (total t) (Next (t_ctrl t)) (pl_new p ++ pl_existing p) c Hcap Hw (NoDup_plan t p Hp))
    as (Hw' & Hc' & Hk').
  - intros q b Hin. apply readFull_Ok.
    assert ((q = 1 /\ encodeControl (pl_ctrl p) = Ok b /\ (q, b) ∈ pl_existing p) \/ all_pages t !! q = Some b) as Hcase.
    { apply elem_of_app in Hin as [Hin|Hin]; [right; by apply (po_new _ _ Hp)|].
      destruct (proj1 (po_existing _ _ Hp q b) Hin) as (_ & [[? ?]|?]); auto. }
    destruct Hcase as [(-> & He & Hin1)|Hb].
    + pose proof (flen_apply_writes (commit_writes c0 t (Some p)) (s_file (store t))) as Hfl. pose proof (rd_flen t Hr) as Hf0.
      unfold slotAreaPage in Hf0. split; [unfold f1; lia|]. unfold f1. rewrite (final_pages t p Hp) by apply not_log_1.
      apply apply_home_same; [apply Hp|done].
    + destruct (committed_changed t p Hr Hp c0 q b Hb) as [? ?]. split; [|done]. split; [|done].
      destruct (all_pages_home t q b (rd_wf t Hr) Hb) as [_ Hh].
      unfold home_page, slotAreaPage, presencePage, presenceAreaPage in Hh. destruct Hh; bool_prop; lia.
  - unfold coherent in Hc. rewrite Forall_forall in *. intros e He Hnin. destruct (Hc e He) as [Hd Hnd]. split; [|done].
    destruct (Hq (ce_page e)) as [Hl Hdp]; [apply list_elem_of_fmap; eauto|].
    apply readFull_Ok in Hd as [Hb <-]. apply readFull_Ok.
    pose proof (flen_apply_writes (commit_writes c0 t (Some p)) (s_file (store t))). split; [unfold f1; lia|].
    unfold f1. destruct (po_page1 _ _ Hp) as (b1 & Hb1 & _).
    assert (ce_page e <> 1) as H1.
    { intros E1. apply Hnin. rewrite E1. apply list_elem_of_fmap. exists (1, b1). split; [done|]. apply elem_of_app. by right. }
    apply (committed_other t p Hp c0); [|done..]. apply eq_None_not_Some. intros [b Hb']. apply Hnin.
    apply list_elem_of_fmap. exists (ce_page e, b). split; [done|]. apply elem_of_app.
    destruct (decide (ce_page e ∈ fresh t)); [left; by apply (po_new _ _ Hp)|right; apply (po_existing _ _ Hp); auto].
  - split_and!; [by unfold commit_cache; rewrite Hk'|done| |].
    + cbn [begin t_ctrl s_ctrl]. rewrite (proj2 (po_ctrl _ _ Hp)). exact Hn.
    + cbn [begin t_ctrl s_ctrl store s_file s_size total]. unfold total in *. cbn [begin store s_size].
      rewrite (proj2 (po_ctrl _ _ Hp)). exact Hc'.
Qed.

(** C23 — The page cache is invisible: over a coherent cache, reading a page or an
    index node returns exactly what the uncached transaction of Tx.v reads, whether
    it hits or misses, the LRU list stays within its capacity and without
    duplicates, and the cache stays coherent. *)
Theorem cache_invisible t c s page : cache_ok t c -> t_pages t !! slotPage s = None ->
  (fst (read_cached t c page) = read t page /\ cache_ok t (snd (read_cached t c page))) /\
  (fst (inspectNode_cached t c s) = inspectNode (tx_reader t) s /\ cache_ok t (snd (inspectNode_cached t c s))).
Proof. intros Hc Hp. split; [by apply read_cached_spec|by apply inspectNode_cached_spec]. Qed.
Lemma empty_cache_ok t n : (0 < n)%nat -> 1 <= Next (t_ctrl t) -> cache_ok t (newCache n).
Proof. intros Hn Ht. split_and!; [done|split; [constructor|cbn; lia]|done|constructor]. Qed.
Lemma demo_cache_ok : cache_ok demo_tx (newCache 4).
Proof. apply empty_cache_ok; [lia|done]. Qed.
Lemma cache_invisible_witness :
  (fst (read_cached demo_tx (newCache 4) 2050) = read demo_tx 2050 /\
   cache_ok demo_tx (snd (read_cached demo_tx (newCache 4) 2050))) /\
  (fst (inspectNode_cached demo_tx (newCache 4) 2) = inspectNode (tx_reader demo_tx) 2 /\
   cache_ok demo_tx (snd (inspectNode_cached demo_tx (newCache 4) 2))).
Proof. apply (cache_invisible demo_tx (newCache 4) 2 2050 demo_cache_ok). reflexivity. Defined.

