(* ===== verification/Checkpoint.v ===== *)
(** * Checkpoint: naming, listing and deleting retained versions.

    Models checkpoint.go: the doubly linked list of checkpoint records, the
    transaction bodies of [Checkpoint] and [DeleteCheckpoints], and the lookups on
    the list.  Whether a reader still holds a checkpoint's lock is the parameter
    [pinned] of a deletion. *)
From stdpp Require Import base numbers list gmap strings sorting.
From Stdlib Require Import ZArith Lia.
From S2P Require Import Prelude Page Presence Json Format Tree Tx Demo TreeWrite Sha256 Commit Crash Publish Bitmap.

#[local] Opaque Sum256 sealPage checkPage Page.put.

Definition errChain : diff_error := DiffErr "diffstore: checkpoint chain cycle".

(** The loop of [findCheckpoint]: [fuel] is what is left of [next] turns. *)
Fixpoint find_from (fuel : nat) (t : transaction) (id : list Z) (s : Z) : dres (Z * checkpoint) :=
  if s =? 0 then Err ErrNotExist else
  match fuel with
  | O => Err errChain
  | S fuel =>
      if Next (t_ctrl t) <=? s then Err errChain
      else
        let* cp := readCheckpoint t s in
        if bool_decide (cp_ID cp = id) then Ok (s, cp) else find_from fuel t id (cp_Next cp)
  end.
Definition findCheckpoint (t : transaction) (id : list Z) : dres (Z * checkpoint) :=
  find_from (Z.to_nat (Next (t_ctrl t))) t id (Head (t_ctrl t)).

Fixpoint list_from (fuel : nat) (t : transaction) (s : Z) : dres (list (list Z)) :=
  if s =? 0 then Ok [] else
  match fuel with
  | O => Err errChain
  | S fuel =>
      if Next (t_ctrl t) <=? s then Err errChain
      else
        let* cp := readCheckpoint t s in
        let* out := list_from fuel t (cp_Next cp) in
        Ok (if cp_Visible cp then cp_ID cp :: out else out)
  end.
Definition ListCheckpoints (t : transaction) : dres (list (list Z)) :=
  list_from (Z.to_nat (Next (t_ctrl t))) t (Head (t_ctrl t)).

(** The nearest retained version at or before a slot; zero when there is none. *)
Fixpoint predecessor_from (fuel : nat) (t : transaction) (s : Z) : dres (Z * checkpoint) :=
  if s =? 0 then Ok (0, checkpoint0) else
  match fuel with
  | O => Err (DiffErr "diffstore: checkpoint predecessor cycle")
  | S fuel =>
      let* cp := readCheckpoint t s in
      if cp_Retained cp then Ok (s, cp) else predecessor_from fuel t (cp_Previous cp)
  end.
Definition predecessor (t : transaction) (s : Z) : dres (Z * checkpoint) :=
  predecessor_from (Z.to_nat (Next (t_ctrl t))) t s.

(** Field updates. *)
Definition set_cpNext (n : Z) (cp : checkpoint) : checkpoint :=
  mkCheckpoint (cp_ID cp) (cp_Epoch cp) (cp_Root cp) n (cp_Previous cp) (cp_Garbage cp)
    (cp_Visible cp) (cp_Retained cp) (cp_Pending cp) (cp_Bitmap cp) (cp_BitmapDone cp).
Definition set_flags (visible retained pending : bool) (cp : checkpoint) : checkpoint :=
  mkCheckpoint (cp_ID cp) (cp_Epoch cp) (cp_Root cp) (cp_Next cp) (cp_Previous cp) (cp_Garbage cp)
    visible retained pending (cp_Bitmap cp) (cp_BitmapDone cp).
Definition set_Head (h : Z) (c : control) : control :=
  mkControl (Root c) (Next c) (Free c) (Garbage c) (Epoch c) (Current c) h (Tail c)
    (Protected c) (Pending c) (GCScan c) (Retired c) (Tx c).
Definition set_Current (s : Z) (c : control) : control :=
  mkControl (Root c) (Next c) (Free c) (Garbage c) (Epoch c) s (Head c) (Tail c)
    (Protected c) (Pending c) (GCScan c) (Retired c) (Tx c).
Definition set_Protected (s : Z) (c : control) : control :=
  mkControl (Root c) (Next c) (Free c) (Garbage c) (Epoch c) (Current c) (Head c) (Tail c)
    s (Pending c) (GCScan c) (Retired c) (Tx c).
Definition set_Pending (n : Z) (c : control) : control :=
  mkControl (Root c) (Next c) (Free c) (Garbage c) (Epoch c) (Current c) (Head c) (Tail c)
    (Protected c) n (GCScan c) (Retired c) (Tx c).
Definition publish_version (s : Z) (c : control) : control :=
  mkControl (Root c) (Next c) (Free c) (Garbage c) (u64 (Epoch c + 1)) s (Head c) s
    s (Pending c) (GCScan c) (Retired c) (Tx c).

(** The transaction body of [Checkpoint]. *)
Definition checkpoint_body (t : transaction) (id : list Z) : dres transaction :=
  let* (s, t) := allocate t kindCheckpoint in
  let* (bitmap, t) := snapshotPresence t in
  let c := t_ctrl t in
  let cp := mkCheckpoint id (Epoch c) (Root c) 0 (Tail c) 0 true true false bitmap 0 in
  let* t :=
    if negb (Tail c =? 0) then
      let* last := readCheckpoint t (Tail c) in
      putCheckpoint t (Tail c) (set_cpNext s last)
    else Ok (set_ctrl (set_Head s c) t) in
  let* t := putCheckpoint t s cp in
  let t := set_ctrl (publish_version s (t_ctrl t)) t in
  if Epoch (t_ctrl t) =? 0 then Err (DiffErr "diffstore: generation exhausted") else Ok t.
(** [Checkpoint] up to the commit, on the store's current transaction view. *)
Definition Checkpoint (t : transaction) (id : list Z) : dres transaction :=
  let* _ := ValidID id in
  match findCheckpoint t id with
  | Ok _ => Err ErrExists
  | Err ErrNotExist => checkpoint_body t id
  | Err e => Err e
  end.

(** Withdrawing one name in the transaction body of [DeleteCheckpoints].  [pin s] is
    the outcome of trying the lock of the checkpoint in slot [s]: [ErrBusy] when
    another process reads that version. *)
Definition withdraw_record (pin : Z -> dres unit) (t : transaction) (s : Z) (cp : checkpoint) : dres (checkpoint * transaction) :=
  let t := set_ctrl (set_Pending (u64 (Pending (t_ctrl t) + 1)) (t_ctrl t)) t in
  let* retained :=
    match pin s with
    | Ok _ => Ok false
    | Err ErrBusy => Ok (cp_Retained cp)
    | Err e => Err e
    end in
  let cp := set_flags false retained true cp in
  let t := if Current (t_ctrl t) =? s then set_ctrl (set_Current 0 (t_ctrl t)) t else t in
  let* t := putCheckpoint t s cp in
  Ok (cp, t).
Definition withdraw (pin : Z -> dres unit) (t : transaction) (s : Z) (cp : checkpoint) : dres transaction :=
  let* (cp, t) := withdraw_record pin t s cp in
  if (Protected (t_ctrl t) =? s) && negb (cp_Retained cp) then
    let* (prev, _) := predecessor t (cp_Previous cp) in
    Ok (set_ctrl (set_Protected prev (t_ctrl t)) t)
  else Ok t.
(** [deletions] is the store's counter [gcDeletion], which a failing batch has
    already advanced. *)
Definition delete_one (pin : Z -> dres unit) (deletions : Z) (t : transaction) (id : list Z) : Z * dres transaction :=
  match findCheckpoint t id with
  | Err e => (deletions, Err e)
  | Ok (s, cp) => if negb (cp_Visible cp) then (deletions, Ok t) else (u64 (deletions + 1), withdraw pin t s cp)
  end.
Fixpoint delete_body (pin : Z -> dres unit) (deletions : Z) (t : transaction) (ids : list (list Z))
    : Z * dres transaction :=
  match ids with
  | [] => (deletions, Ok t)
  | id :: ids =>
      match delete_one pin deletions t id with
      | (deletions, Ok t) => delete_body pin deletions t ids
      | (deletions, Err e) => (deletions, Err e)
      end
  end.

(** ** Changes of version metadata *)

(** [meta_fx t t']: only pages of checkpoint slots and control fields that describe
    versions changed. *)
Record meta_fx (t t' : transaction) : Prop := {
  mf_wf : tx_wf t';
  mf_store : store t' = store t;
  mf_dsc : forall x, dsc t' x = dsc t x;
  mf_nd : forall x d, dsc t x = Some d -> Kind d <> kindCheckpoint -> nd t' x = nd t x;
  mf_ctrl : Root (t_ctrl t') = Root (t_ctrl t) /\ Next (t_ctrl t') = Next (t_ctrl t) /\
    Free (t_ctrl t') = Free (t_ctrl t) /\ Garbage (t_ctrl t') = Garbage (t_ctrl t);
  mf_epoch : Epoch (t_ctrl t) <= Epoch (t_ctrl t');
  mf_read : forall x d, dsc t x = Some d -> Kind d <> kindCheckpoint -> read t' (slotPage x) = read t (slotPage x);
  mf_desc : forall x, 1 <= x -> read t' (descriptorPage x) = read t (descriptorPage x);
  mf_data : t_data t' = t_data t;
  mf_fresh : fresh t' = fresh t;
  mf_private : same_private t t';
  mf_low : low_same t t';
  mf_allocated : allocated t' = allocated t }.
Lemma meta_refl t : tx_wf t -> meta_fx t t.
Proof. intros. by split; try done; lia. Qed.
Lemma meta_trans t t1 t2 : meta_fx t t1 -> meta_fx t1 t2 -> meta_fx t t2.
Proof.
  intros [] [W2 S2 D2 N2 (? & ? & ? & ?) E2 R2 DP2 DA2 F2 [? ?] L2 AL2].
  destruct mf_ctrl0 as (? & ? & ? & ?), mf_private0 as [? ?]. split; try done; try congruence.
  - intros x d Hx Hk. rewrite (N2 x d); [by eapply mf_nd0|by rewrite mf_dsc0|done].
  - split_and!; congruence.
  - lia.
  - intros x d Hx Hk. rewrite (R2 x d); [by eapply mf_read0|by rewrite mf_dsc0|done].
  - intros x Hx. by rewrite DP2, mf_desc0.
  - split; congruence.
  - intros q Hq. by rewrite L2, mf_low0.
Qed.
Lemma meta_born t t' : meta_fx t t' -> born t -> born t'.
Proof. intros Hm Hb x d. rewrite (mf_dsc _ _ Hm). intros Hd. pose proof (Hb x d Hd). pose proof (mf_epoch _ _ Hm). lia. Qed.

(** The tree below [r] holds [l], and every node of it was born by epoch [e]. *)
Definition frozen (t : transaction) (e r : Z) (l : list entry) : Prop :=
  exists h f, tree (nd t) h r l f /\ forall x, x ∈ f ->
    exists d, dsc t x = Some d /\ (Kind d = kindIndex \/ Kind d = kindGarbage) /\ Birth d <= e.
Lemma frozen_retained t r l : frozen t (pe t) r l <-> retained t r l.
Proof. done. Qed.
Lemma frozen_weaken t e e' r l : frozen t e r l -> e <= e' -> frozen t e' r l.
Proof.
  intros (h & f & Ht & Hf) He. exists h, f. split; [done|]. intros x Hx. destruct (Hf x Hx) as (d & ? & ? & ?).
  exists d. split_and!; [done..|lia].
Qed.
Lemma meta_frozen t t' e r l : meta_fx t t' -> frozen t e r l -> frozen t' e r l.
Proof.
  intros Hm (h & f & Ht & Hf). exists h, f. split.
  - eapply tree_ext; [|exact Ht]. intros x n Hx Hn. destruct (Hf x Hx) as (d & Hd & Hk & _).
    by rewrite (mf_nd _ _ Hm x d Hd) by (by destruct Hk as [-> | ->]).
  - intros x Hx. rewrite (mf_dsc _ _ Hm). by apply Hf.
Qed.
Lemma meta_mapping t t' levels root l fp : meta_fx t t' -> mapping t levels root l fp -> mapping t' levels root l fp.
Proof.
  intros Hm [Ht Hs Hn Hl]. split; [|done|done|].
  - destruct Ht as [?|(h & Hh & Ht)]; [by left|]. right. exists h. split; [done|].
    eapply tree_ext; [|exact Ht]. intros x n Hx Hnd. destruct (Hl x Hx) as (d & Hd & Hk).
    by rewrite (mf_nd _ _ Hm x d Hd) by (by rewrite Hk).
  - intros x Hx. rewrite (mf_dsc _ _ Hm). by apply Hl.
Qed.

(** Rewriting the record of a checkpoint slot. *)
Lemma put_checkpoint t s d cp : tx_wf t -> dsc t s = Some d -> Kind d = kindCheckpoint -> checkpoint_ok cp ->
  (s = Protected (t_ctrl t) -> cp_Epoch cp = pe t) ->
  exists t', putCheckpoint t s cp = Ok t' /\ meta_fx t t' /\ t_ctrl t' = t_ctrl t /\ pe t' = pe t /\
    readCheckpoint t' s = Ok cp /\ (forall x, 1 <= x -> x <> s -> read t' (slotPage x) = read t (slotPage x)).
Proof.
  intros Hwf Hd Hk Hok Hp. pose proof (dsc_bound _ _ _ Hd) as Hs.
  destruct (decodeCheckpoint_encode cp Hok) as (b & Hb & Hpg & _ & Hdec). unfold putCheckpoint. rewrite Hb. cbn [res_bind].
  set (t' := set_page (slotPage s) b t). exists t'. split; [done|].
  assert (tx_wf t' /\ pe t' = pe t) as [Hwf' Hpe].
  { destruct (decide (s = Protected (t_ctrl t))) as [E|Hne].
    - assert (Protected (t_ctrl t) <> 0) as H0 by lia. destruct (w_prot t Hwf H0) as (_ & (cp0 & Hcp0 & _) & _).
      assert (cp_Epoch cp = cp_Epoch cp0) as He.
      { rewrite (Hp E). unfold pe. by rewrite (proj2 (Z.eqb_neq _ _)), Hcp0. }
      unfold t'. rewrite E. by destruct (wf_put_protected t cp0 cp b Hwf H0 Hcp0 Hok He Hpg Hdec) as (? & ? & _).
    - split; [eapply meta_wf; eauto|by eapply meta_pe]. }
  pose proof (meta_read t s d b Hd) as Hrd. pose proof (meta_dsc t s d b Hd) as Hdsc. fold t' in Hrd, Hdsc.
  assert (forall x d', dsc t x = Some d' -> Kind d' <> kindCheckpoint -> 1 <= x /\ x <> s) as Hne.
  { intros x d' Hx Hk'. apply dsc_bound in Hx as Hb'. split; [lia|]. intros ->. congruence. }
  split_and!; [|done|done| |done].
  - split; try done; try lia.
    + intros x d' Hx Hk'. destruct (Hne x d' Hx Hk'). by apply (meta_nd t s d b Hd).
    + intros x d' Hx Hk'. destruct (Hne x d' Hx Hk'). by apply Hrd.
    + intros x Hx. unfold t'. rewrite read_set_page, decide_False; [done|]. intros E. symmetry in E.
      apply slotPage_descriptorPage in E; [done|lia..].
    + intros q Hq. cbn. apply lookup_insert_ne. pose proof (slotPage_area s). lia.
  - unfold readCheckpoint, t'. by rewrite read_set_page, decide_True.
Qed.

(** The control names a newest retained version in slot [s]. *)
Definition protects (t : transaction) (s : Z) : Prop :=
  s = 0 \/ exists d cp, dsc t s = Some d /\ Kind d = kindCheckpoint /\ readCheckpoint t s = Ok cp /\ checkpoint_ok cp.
Definition epoch_of (t : transaction) (s : Z) : Z :=
  if s =? 0 then 0 else match readCheckpoint t s with Ok cp => cp_Epoch cp | Err _ => 0 end.
Lemma meta_control t c : tx_wf t -> protectedKnown t = false -> t_nodes t = ∅ -> control_ok c ->
  Root c = Root (t_ctrl t) -> Next c = Next (t_ctrl t) -> Free c = Free (t_ctrl t) -> Garbage c = Garbage (t_ctrl t) ->
  Epoch (t_ctrl t) <= Epoch c -> protects t (Protected c) -> 0 <= epoch_of t (Protected c) < Epoch c ->
  meta_fx t (set_ctrl c t) /\ pe (set_ctrl c t) = epoch_of t (Protected c).
Proof.
  intros Hwf Hkn Hnn Hc Hr Hn Hf Hg He Hp Hpe. split; [|done].
  assert (forall x, dsc (set_ctrl c t) x = dsc t x) as Hdsc.
  { intros x. apply option_eq. intros d. rewrite !dsc_Some. cbn [set_ctrl t_ctrl]. by rewrite Hn. }
  destruct Hwf. split; try done.
  - split; try done.
    + cbn. by rewrite Hn.
    + cbn. by rewrite Hn.
    + intros H0. destruct Hp as [?|(d & cp & Hd & Hk & Hcp & Hok)]; [done|]. cbn [set_ctrl t_ctrl] in *.
      split; [rewrite Hn; by eapply dsc_bound|]. split; [by exists cp|]. exists d. by rewrite Hdsc.
    + intros E. cbn in E. congruence.
    + intros x b Hx. rewrite Hdsc. by apply w_slotpages.
    + cbn. rewrite Hnn. by intros x n ?%lookup_empty_Some.
    + destruct w_free as (l & Hl & ?). exists l. split; [|done]. cbn [set_ctrl t_ctrl]. rewrite Hf.
      eapply chain_ext; [|exact Hl]. intros x _. apply Hdsc.
  - intros x d Hd _. unfold nd, nd_of, inspectNode, tx_reader. cbn [rd_nodes rd_next rd_read rd_total set_ctrl t_nodes t_ctrl store].
    by rewrite Hn.
Qed.

(** ** The list of versions *)

Definition holds_cp (t : transaction) (x : Z) (cp : checkpoint) : Prop :=
  (exists d, dsc t x = Some d /\ Kind d = kindCheckpoint) /\ readCheckpoint t x = Ok cp /\ checkpoint_ok cp.
Definition slots (L : list (Z * checkpoint)) : list Z := L.*1.
Definition slot_at (L : list (Z * checkpoint)) (i : nat) : Z := default 0 (slots L !! i).
Definition slot_before (L : list (Z * checkpoint)) (i : nat) : Z := match i with O => 0 | S j => slot_at L j end.
Definition is_retained (p : Z * checkpoint) : Prop := cp_Retained p.2 = true.
Definition is_pending (p : Z * checkpoint) : Prop := cp_Pending p.2 = true.
#[global] Instance is_retained_dec p : Decision (is_retained p).
Proof. unfold is_retained. apply _. Defined.
#[global] Instance is_pending_dec p : Decision (is_pending p).
Proof. unfold is_pending. apply _. Defined.
(** No retained version comes after the one in slot [s]. *)
Definition shields (L : list (Z * checkpoint)) (s : Z) : Prop :=
  (s = 0 /\ forall k p, L !! k = Some p -> ~ is_retained p) \/
  exists j cp, L !! j = Some (s, cp) /\ forall k p, L !! k = Some p -> is_retained p -> (k <= j)%nat.
(** The retained version nearest before place [i]. *)
Definition nearest (L : list (Z * checkpoint)) (i : nat) (s : Z) (cp : checkpoint) : Prop :=
  (s = 0 /\ forall k p, L !! k = Some p -> (k < i)%nat -> ~ is_retained p) \/
  exists j, (j < i)%nat /\ L !! j = Some (s, cp) /\ is_retained (s, cp) /\
    forall k p, L !! k = Some p -> (k < i)%nat -> is_retained p -> (k <= j)%nat.
Definition names (L : list (Z * checkpoint)) : list (list Z) := cp_ID ∘ snd <$> L.
Definition visible (L : list (Z * checkpoint)) : list (list Z) := names (filter (fun p => cp_Visible p.2 = true) L).
Definition named (id : list Z) (L : list (Z * checkpoint)) : option (Z * checkpoint) :=
  head (filter (fun p => cp_ID p.2 = id) L).

(** [listing c L]: the control [c] describes the versions [L], oldest first. *)
Record listing (c : control) (L : list (Z * checkpoint)) : Prop := {
  cat_nodup : NoDup (slots L);
  cat_names : NoDup (names L);
  cat_head : Head c = slot_at L 0;
  cat_tail : Tail c = default 0 (last (slots L));
  cat_next : forall i x cp, L !! i = Some (x, cp) -> cp_Next cp = slot_at L (S i);
  cat_prev : forall i x cp, L !! i = Some (x, cp) -> cp_Previous cp = slot_before L i;
  cat_epochs : forall i j x y cp cq, L !! i = Some (x, cp) -> L !! j = Some (y, cq) -> (i < j)%nat ->
    cp_Epoch cp < cp_Epoch cq;
  cat_before : forall x cp, (x, cp) ∈ L -> cp_Epoch cp < Epoch c;
  cat_protected : shields L (Protected c);
  cat_pending : Pending c = Z.of_nat (length (filter is_pending L));
  cat_visible : forall x cp, (x, cp) ∈ L -> cp_Visible cp = true -> cp_Retained cp = true /\ cp_Pending cp = false }.
(** [catalog t L]: they are the versions of [t]. *)
Record catalog (t : transaction) (L : list (Z * checkpoint)) : Prop := {
  cat_listing :> listing (t_ctrl t) L;
  cat_cp : forall x cp, (x, cp) ∈ L -> holds_cp t x cp }.

Lemma slots_lookup L i x cp : L !! i = Some (x, cp) -> slots L !! i = Some x.
Proof. intros Hi. unfold slots. by rewrite list_lookup_fmap, Hi. Qed.
Lemma slot_at_lookup L i x cp : L !! i = Some (x, cp) -> slot_at L i = x.
Proof. intros Hi. unfold slot_at. by rewrite (slots_lookup _ _ _ _ Hi). Qed.
Lemma slot_at_end L i : (length L <= i)%nat -> slot_at L i = 0.
Proof. intros Hi. unfold slot_at, slots. rewrite lookup_ge_None_2; [done|]. by rewrite length_fmap. Qed.
Lemma bounded_length (l : list Z) n : NoDup l -> (forall x, x ∈ l -> 1 <= x < n) -> (length l < Z.to_nat n)%nat \/ l = [].
Proof.
  intros Hnd Hb. destruct l as [|y l0]; [by right|]. left.
  assert (1 <= y < n) by (apply Hb; left).
  assert ((y :: l0) ⊆+ z_range 1 n) as Hs%submseteq_length.
  { apply NoDup_submseteq; [done|]. intros x Hx. by apply z_range_elem, Hb. }
  unfold z_range in Hs. rewrite length_fmap, length_seq in Hs. lia.
Qed.

Section Lookups.
Context (t : transaction) (L : list (Z * checkpoint)) (Hcat : catalog t L).

Lemma catalog_slot i x cp : L !! i = Some (x, cp) -> 1 <= x < Next (t_ctrl t) /\ readCheckpoint t x = Ok cp /\ checkpoint_ok cp.
Proof.
  intros Hi. destruct (cat_cp _ _ Hcat x cp) as ((d & Hd & _) & ? & ?); [by eapply list_elem_of_lookup_2|].
  split; [by eapply dsc_bound|done].
Qed.
Lemma catalog_length : (length L <= Z.to_nat (Next (t_ctrl t)))%nat.
Proof.
  destruct (bounded_length (slots L) (Next (t_ctrl t)) (cat_nodup _ _ Hcat)) as [Hl|Hl].
  - intros x ([y cp] & -> & Hx)%list_elem_of_fmap. apply list_elem_of_lookup_1 in Hx as [i Hi]. by eapply catalog_slot.
  - unfold slots in Hl. rewrite length_fmap in Hl. lia.
  - apply fmap_nil_inv in Hl as ->. cbn. lia.
Qed.

Lemma find_from_spec id fuel i : (length L - i <= fuel)%nat -> (i <= length L)%nat ->
  find_from fuel t id (slot_at L i) = match named id (drop i L) with Some p => Ok p | None => Err ErrNotExist end.
Proof.
  revert i. induction fuel as [|fuel IH]; intros i Hf Hi.
  - rewrite slot_at_end, drop_ge by lia. done.
  - destruct (L !! i) as [[x cp]|] eqn:E; [|apply lookup_ge_None_1 in E; by rewrite slot_at_end, drop_ge by done].
    destruct (catalog_slot i x cp E) as (Hb & Hcp & _). rewrite (slot_at_lookup _ _ _ _ E). cbn [find_from].
    rewrite (proj2 (Z.eqb_neq x 0)), (proj2 (Z.leb_gt _ x)) by lia. rewrite Hcp. cbn [res_bind].
    rewrite (drop_S _ _ _ E). unfold named. rewrite filter_cons. cbn [snd].
    case_bool_decide as Hid; [by rewrite decide_True|rewrite decide_False by done].
    rewrite (cat_next _ _ Hcat i x cp E). apply lookup_lt_Some in E. apply IH; lia.
Qed.
Lemma findCheckpoint_spec id :
  findCheckpoint t id = match named id L with Some p => Ok p | None => Err ErrNotExist end.
Proof.
  unfold findCheckpoint. rewrite (cat_head _ _ Hcat), find_from_spec by (pose proof catalog_length; lia). done.
Qed.

Lemma list_from_spec fuel i : (length L - i <= fuel)%nat -> (i <= length L)%nat ->
  list_from fuel t (slot_at L i) = Ok (visible (drop i L)).
Proof.
  revert i. induction fuel as [|fuel IH]; intros i Hf Hi.
  - rewrite slot_at_end, drop_ge by lia. done.
  - destruct (L !! i) as [[x cp]|] eqn:E; [|apply lookup_ge_None_1 in E; by rewrite slot_at_end, drop_ge by done].
    destruct (catalog_slot i x cp E) as (Hb & Hcp & _). rewrite (slot_at_lookup _ _ _ _ E). cbn [list_from].
    rewrite (proj2 (Z.eqb_neq x 0)), (proj2 (Z.leb_gt _ x)) by lia. rewrite Hcp. cbn [res_bind].
    rewrite (cat_next _ _ Hcat i x cp E). apply lookup_lt_Some in E as ?. rewrite IH by lia. cbn [res_bind].
    rewrite (drop_S _ _ _ E). unfold visible, names. rewrite filter_cons. cbn [snd].
    destruct (cp_Visible cp); [by rewrite decide_True|by rewrite decide_False].
Qed.
Lemma ListCheckpoints_spec : ListCheckpoints t = Ok (visible L).
Proof.
  unfold ListCheckpoints. rewrite (cat_head _ _ Hcat), list_from_spec by (pose proof catalog_length; lia). done.
Qed.
End Lookups.

(** [predecessor] reads the links of the records, whatever the control says. *)
Lemma predecessor_from_spec t L fuel i :
  (forall j x cp, L !! j = Some (x, cp) -> (j < i)%nat -> x <> 0 /\ readCheckpoint t x = Ok cp /\ cp_Previous cp = slot_before L j) ->
  (i <= fuel)%nat -> (i <= length L)%nat ->
  exists s cp, predecessor_from fuel t (slot_before L i) = Ok (s, cp) /\ nearest L i s cp.
Proof.
  revert i. induction fuel as [|fuel IH]; intros i Hl Hf Hi.
  { replace i with 0%nat by lia. exists 0, checkpoint0. split; [done|]. left. split; [done|lia]. }
  destruct i as [|i]; [exists 0, checkpoint0; split; [done|]; left; split; [done|lia]|]. cbn [slot_before].
  destruct (lookup_lt_is_Some_2 L i) as [[x cp] E]; [lia|].
  destruct (Hl i x cp E ltac:(lia)) as (H0 & Hcp & Hprev). rewrite (slot_at_lookup _ _ _ _ E). cbn [predecessor_from].
  rewrite (proj2 (Z.eqb_neq x 0)) by done. rewrite Hcp. cbn [res_bind]. rewrite Hprev. destruct (cp_Retained cp) eqn:Er.
  - exists x, cp. split; [done|]. right. exists i. split_and!; [lia|done..|]. lia.
  - destruct (IH i) as (s & cq & Hok & Hn); [intros j y cq Hj Hji; apply Hl; [done|lia]|lia..|]. exists s, cq. split; [done|].
    assert (forall k p, L !! k = Some p -> (k < S i)%nat -> is_retained p -> (k < i)%nat) as Hlt.
    { intros k p Hk Hki Hp. destruct (decide (k = i)) as [->|]; [|lia]. simplify_eq. unfold is_retained in Hp. cbn in Hp. congruence. }
    destruct Hn as [[-> Hn]|(j & Hj & HL & Hr & Hn)]; [left; split; [done|]; intros k p Hk Hki Hp; by apply (Hn k p Hk (Hlt k p Hk Hki Hp))|].
    right. exists j. split_and!; [lia|done..|]. intros k p Hk Hki Hp. by apply (Hn k p Hk (Hlt k p Hk Hki Hp)).
Qed.

(** ** Taking a checkpoint *)

(** The list after its last record is linked to slot [s]. *)
Definition link_last (s : Z) (L : list (Z * checkpoint)) : list (Z * checkpoint) :=
  alter (fun p => (p.1, set_cpNext s p.2)) (pred (length L)) L.
Lemma link_last_lookup s L i x cp : link_last s L !! i = Some (x, cp) ->
  exists cp0, L !! i = Some (x, cp0) /\ cp = if decide (S i = length L) then set_cpNext s cp0 else cp0.
Proof.
  unfold link_last. intros Hi. destruct (decide (i = pred (length L))) as [->|Hne].
  - rewrite list_lookup_alter_eq in Hi. destruct (L !! pred (length L)) as [[y c]|] eqn:E; [|done].
    injection Hi as <- <-. exists c. split; [done|]. apply lookup_lt_Some in E. by rewrite decide_True by lia.
  - rewrite list_lookup_alter_ne in Hi by done. exists cp. split; [done|]. by rewrite decide_False by lia.
Qed.
Lemma link_last_map {A} (f : Z * checkpoint -> A) s L : (forall x cp, f (x, set_cpNext s cp) = f (x, cp)) ->
  f <$> link_last s L = f <$> L.
Proof.
  intros Hf. unfold link_last. generalize (pred (length L)). induction L as [|[x cp] L IH]; [done|]. intros [|n]; cbn.
  - by rewrite Hf.
  - f_equal. apply IH.
Qed.
Lemma filter_length_map {A B} (P : A -> Prop) `{forall x, Decision (P x)} (f : A -> B) (Q : B -> Prop)
    `{forall x, Decision (Q x)} (l : list A) : (forall x, P x <-> Q (f x)) ->
  length (filter P l) = length (filter Q (f <$> l)).
Proof.
  intros Heq. induction l as [|x l IH]; [done|]. rewrite fmap_cons, !filter_cons.
  destruct (decide (P x)); [rewrite decide_True by (by apply Heq)|rewrite decide_False by (by rewrite <- Heq)]; cbn; lia.
Qed.
Lemma pending_map L L' : cp_Pending ∘ snd <$> L = cp_Pending ∘ snd <$> L' ->
  length (filter is_pending L) = length (filter is_pending L').
Proof.
  intros E. rewrite !(filter_length_map is_pending (cp_Pending ∘ snd) (fun b => b = true)) by done. by rewrite E.
Qed.
Lemma visible_map L L' : (fun p => (cp_ID p.2, cp_Visible p.2)) <$> L = (fun p => (cp_ID p.2, cp_Visible p.2)) <$> L' ->
  visible L = visible L'.
Proof.
  revert L'. induction L as [|[x cp] L IH]; intros [|[y cq] L']; try done. rewrite !fmap_cons. intros [= E1 E2 E%IH].
  unfold visible, names in *. rewrite !filter_cons. cbn [snd]. rewrite E2. case_decide; cbn; [by rewrite E1, E|done].
Qed.
Section Snoc.
Context (t t' : transaction) (L : list (Z * checkpoint)) (s : Z) (cp : checkpoint) (Hcat : catalog t L).
Local Notation L' := (link_last s L ++ [(s, cp)]).
Lemma link_slots : slots (link_last s L) = slots L.
Proof. by apply link_last_map. Qed.
Lemma link_length : length (link_last s L) = length L.
Proof. unfold link_last. apply length_alter. Qed.
Lemma snoc_lookup i x c : L' !! i = Some (x, c) ->
  (exists c0, L !! i = Some (x, c0) /\ c = if decide (S i = length L) then set_cpNext s c0 else c0) \/
  (i = length L /\ x = s /\ c = cp).
Proof.
  intros Hi. apply lookup_app_Some in Hi as [Hi|[Hl Hi]]; [left; by apply link_last_lookup|].
  rewrite link_length in *. apply list_lookup_singleton_Some in Hi as [? [= -> ->]]. right. split_and!; [lia|done..].
Qed.
Lemma snoc_slot_at i : slot_at L' i = if decide (i = length L) then s else slot_at L i.
Proof.
  unfold slot_at, slots. rewrite fmap_app. fold (slots (link_last s L)). rewrite link_slots. cbn [fmap list_fmap fst].
  unfold slots. case_decide as E.
  - subst i. rewrite lookup_app_r by (by rewrite length_fmap). by rewrite length_fmap, Nat.sub_diag.
  - destruct (decide (i < length L)%nat).
    + by rewrite lookup_app_l by (rewrite length_fmap; lia).
    + rewrite lookup_app_r by (rewrite length_fmap; lia). rewrite length_fmap.
      rewrite !lookup_ge_None_2; [done|rewrite length_fmap; lia|cbn; lia].
Qed.
Lemma catalog_snoc : (forall x c, (x, c) ∈ L' -> holds_cp t' x c) -> s ∉ slots L -> cp_ID cp ∉ names L ->
  cp_Next cp = 0 -> cp_Previous cp = Tail (t_ctrl t) -> cp_Epoch cp = Epoch (t_ctrl t) -> cp_Retained cp = true ->
  cp_Pending cp = false -> Head (t_ctrl t') = slot_at L' 0 -> Tail (t_ctrl t') = s -> Protected (t_ctrl t') = s ->
  Epoch (t_ctrl t') = Epoch (t_ctrl t) + 1 -> Pending (t_ctrl t') = Pending (t_ctrl t) -> catalog t' L'.
Proof.
  intros Hcp Hs Hid Hn Hp He Hr Hpd Hhd Htl Hpr Hep Hpe. destruct Hcat as [[] _]. split; [split; try done|done].
  - unfold slots. rewrite fmap_app. fold (slots (link_last s L)). rewrite link_slots. apply NoDup_app.
    split_and!; [done| |apply NoDup_singleton]. by intros x Hx ->%list_elem_of_singleton.
  - unfold names. rewrite fmap_app, link_last_map by done. apply NoDup_app.
    split_and!; [done| |apply NoDup_singleton]. by intros x Hx ->%list_elem_of_singleton.
  - rewrite Htl. unfold slots. rewrite fmap_app. cbn [fmap list_fmap fst]. by rewrite last_snoc.
  - intros i x c [(c0 & Hi & ->)|(-> & -> & ->)]%snoc_lookup; rewrite snoc_slot_at.
    + destruct (decide (S i = length L)); [done|by apply (cat_next0 i x)].
    + rewrite decide_False by lia. by rewrite slot_at_end by lia.
  - intros i x c [(c0 & Hi & ->)|(-> & -> & ->)]%snoc_lookup.
    + replace (cp_Previous _) with (cp_Previous c0) by (by case_decide). rewrite (cat_prev0 i x c0 Hi).
      destruct i as [|i]; [done|]. cbn [slot_before]. rewrite snoc_slot_at, decide_False; [done|].
      apply lookup_lt_Some in Hi. lia.
    + rewrite Hp, cat_tail0. destruct L as [|p L0] eqn:EL; [done|]. rewrite <- EL. replace (length L) with (S (length L0)) by (by subst).
      cbn [slot_before]. rewrite snoc_slot_at, decide_False by (subst; cbn; lia). unfold slot_at. rewrite last_lookup.
      unfold slots. rewrite length_fmap. by replace (pred (length L)) with (length L0) by (by subst).
  - intros i j x y c cq [(c0 & Hi & ->)|(-> & -> & ->)]%snoc_lookup [(c1 & Hj & ->)|(-> & -> & ->)]%snoc_lookup Hij; [| | |lia].
    + pose proof (cat_epochs0 i j x y c0 c1 Hi Hj Hij). by repeat case_decide.
    + rewrite He. pose proof (cat_before0 x c0). destruct (decide (S i = length L)); apply H; by eapply list_elem_of_lookup_2.
    + apply lookup_lt_Some in Hj. lia.
  - intros x c [i Hi]%list_elem_of_lookup_1. rewrite Hep. apply snoc_lookup in Hi as [(c0 & Hi & ->)|(-> & -> & ->)]; [|lia].
    pose proof (cat_before0 x c0 ltac:(by eapply list_elem_of_lookup_2)). case_decide; cbn; lia.
  - right. exists (length L), cp. rewrite lookup_app_r by (by rewrite link_length). rewrite link_length, Nat.sub_diag.
    split; [by rewrite Hpr|]. intros k q Hk _. apply lookup_lt_Some in Hk. rewrite length_app, link_length in Hk. cbn in Hk. lia.
  - rewrite Hpe, cat_pending0, filter_app, filter_cons, filter_nil, decide_False, app_nil_r by (unfold is_pending; cbn; congruence).
    f_equal. apply pending_map. symmetry. by apply link_last_map.
  - intros x c [i Hi]%list_elem_of_lookup_1 Hv. apply snoc_lookup in Hi as [(c0 & Hi & ->)|(-> & -> & ->)]; [|done].
    destruct (cat_visible0 x c0 ltac:(by eapply list_elem_of_lookup_2)); [|by case_decide]. by case_decide.
Qed.
End Snoc.

Lemma holds_unused t s x cp : unused t s -> holds_cp t x cp -> x <> s.
Proof. intros Hun ((d & Hd & Hk) & _) ->. by rewrite (unused_live _ _ _ Hun Hd) in Hk. Qed.
(** Records of live slots survive what touches unused slots only. *)
Lemma holds_fx t t' x cp : tree_fx t [] t' -> read t' (slotPage x) = read t (slotPage x) -> holds_cp t x cp -> holds_cp t' x cp.
Proof.
  intros Hfx Hr ((d & Hd & Hk) & Hcp & Hok). split; [|unfold readCheckpoint; by rewrite Hr].
  destruct (fx_live _ _ _ Hfx x d Hd) as (d' & Hd' & _ & [->|[Hx _]]); [by rewrite Hk|eauto|by apply elem_of_nil in Hx].
Qed.
Lemma holds_meta t t' x cp : meta_fx t t' -> read t' (slotPage x) = read t (slotPage x) -> holds_cp t x cp -> holds_cp t' x cp.
Proof. intros Hm Hr (Hd & Hcp & Hok). split; [by rewrite (mf_dsc _ _ Hm)|]. unfold readCheckpoint. by rewrite Hr. Qed.

(** The new slot and the copy of the presence bitmap. *)
Record prepared (t : transaction) (s bitmap : Z) (t2 : transaction) : Prop := {
  pr_fx : tree_fx t [] t2;
  pr_unused : unused t s;
  pr_dsc : exists d, dsc t2 s = Some d /\ Kind d = kindCheckpoint;
  pr_read : forall x, 1 <= x -> ~ unused t x -> read t2 (slotPage x) = read t (slotPage x);
  pr_ctrl : Root (t_ctrl t2) = Root (t_ctrl t) /\ Garbage (t_ctrl t2) = Garbage (t_ctrl t) /\ is_u64 bitmap;
  pr_private : same_private t t2;
  pr_snapshot : forall t5 cp, meta_fx t2 t5 -> cp_BitmapDone cp = 0 -> cp_Epoch cp = Epoch (t_ctrl t) -> cp_Bitmap cp = bitmap ->
    readSnapshotPresence (read t5) cp (s_size (store t)) (Next (t_ctrl t5)) = Ok (s_presence (store t));
  pr_links : exists l, bitmap = default 0 (head l) /\ Z.of_nat (length l) = Pages (s_size (store t)) /\ NoDup l /\
    forall j x, l !! j = Some x -> unused t x /\ dsc t2 x = Some (mkDescriptor (Epoch (t_ctrl t)) (default 0 (l !! S j)) kindBitmap) /\
      exists b, read t2 (slotPage x) = Ok b /\ encoded (s_presence (store t)) (s_size (store t)) (Z.of_nat j) b }.
Lemma checkpoint_prepare t : tx_wf t -> writable_size (s_size (store t)) ->
  bitmap_ok (s_size (store t)) (s_presence (store t)) -> Next (t_ctrl t) + 1 + Pages (s_size (store t)) <= maxSlot + 1 ->
  exists s t1 bitmap t2, allocate t kindCheckpoint = Ok (s, t1) /\ snapshotPresence t1 = Ok (bitmap, t2) /\ prepared t s bitmap t2.
Proof.
  intros Hwf Hs HP Hroom. pose proof (size_pages _ Hs).
  destruct (allocate_spec t kindCheckpoint Hwf) as (s & t1 & Hal & Ha); [lia|unfold is_u64, kindCheckpoint; lia|].
  pose proof (fx_allocate _ _ _ _ Hwf Ha) as Hfx1. pose proof Ha as [Hwf1 Hpos Hun Hd1 Hoth _ Hrd Hnn _ Hcf Hg Hst Hnx _ _ _ _ _ _ Hkn].
  destruct (snapshotPresence_spec t1) as (l & t2 & Hsp & Hsn & Hl); [done|by rewrite Hst..|rewrite Hst; lia|].
  pose proof Hsn as [Hfx2 Hnd2 _ Hu2 _ [Hg2 Hr2] [Hk2 Hn2] Ho2 Hlk2 Hpg2]. rewrite Hst in *.
  exists s, t1, (default 0 (head l)), t2. split; [done|]. split; [done|].
  assert (tree_fx t [] t2) as Hfx by (eapply fx_trans; [exact Hfx1|exact Hfx2|intros x Hx; by apply elem_of_nil in Hx]).
  assert (Epoch (t_ctrl t1) = Epoch (t_ctrl t)) as HE by apply Hcf.
  split; [done|done| | | | | |].
  - destruct (fx_live _ _ _ Hfx2 s _ Hd1) as (d' & Hd' & _ & [->|[Hx _]]); [done|eauto|by apply elem_of_nil in Hx].
  - intros x Hx Hnu. rewrite Ho2; [by apply Hrd|done|]. intros Hin. apply Hnu.
    eapply fx_unused; [exact Hfx1|]. by apply Hu2.
  - split_and!; [rewrite Hr2; apply Hcf|congruence|]. destruct l as [|b0 l]; [cbn in Hl; lia|].
    apply (slot_u64 t2 b0 _ (fx_wf _ _ _ Hfx2) (Hlk2 0%nat b0 eq_refl)).
  - split; congruence.
  - intros t5 cp Hm Hdone He Hbm. rewrite <- Hst.
    assert (forall j x, l !! j = Some x -> Kind (mkDescriptor (Epoch (t_ctrl t1)) (default 0 (l !! S j)) kindBitmap) <> kindCheckpoint) by done.
    apply (snapshot_links_read t5 _ _ (Epoch (t_ctrl t)) l); rewrite ?Hst; [done|done| |intros j x Hj|done..].
    + intros j x Hj. rewrite (mf_dsc _ _ Hm), <- HE. by apply Hlk2.
    + destruct (Hpg2 j x Hj) as (b & Hb & ?). exists b. split; [|done].
      rewrite (mf_read _ _ Hm x _ (Hlk2 j x Hj)); [done|by eapply H0].
  - exists l. split_and!; [done..|]. intros j x Hj. split_and!; [|rewrite <- HE; by apply Hlk2|by apply Hpg2].
    eapply fx_unused; [exact Hfx1|]. apply Hu2. by eapply list_elem_of_lookup_2.
Qed.

(** The last record is linked to the new one, or the new one becomes the head. *)
Lemma checkpoint_link t t2 L s bitmap : catalog t L -> prepared t s bitmap t2 -> protectedKnown t = false -> t_nodes t = ∅ ->
  exists t3, (if negb (Tail (t_ctrl t2) =? 0) then
      let* last := readCheckpoint t2 (Tail (t_ctrl t2)) in putCheckpoint t2 (Tail (t_ctrl t2)) (set_cpNext s last)
    else Ok (set_ctrl (set_Head s (t_ctrl t2)) t2)) = Ok t3 /\
    meta_fx t2 t3 /\ pe t3 = pe t2 /\ (forall x cp, (x, cp) ∈ link_last s L -> holds_cp t3 x cp) /\
    (forall cp, Head (t_ctrl t3) = slot_at (link_last s L ++ [(s, cp)]) 0) /\ Epoch (t_ctrl t3) = Epoch (t_ctrl t) /\
    Protected (t_ctrl t3) = Protected (t_ctrl t) /\ Pending (t_ctrl t3) = Pending (t_ctrl t).
Proof.
  intros Hcat [Hfx Hun (ds & Hds & Hks) Hrd (Hr & Hg & _) [Hkn Hnn] _] Hk0 Hn0. pose proof (fx_wf _ _ _ Hfx) as Hwf2.
  pose proof (fx_ctrl _ _ _ Hfx) as (HE & _ & Hhd & Htl & Hpr & Hpd & _).
  assert (forall x cp, (x, cp) ∈ L -> holds_cp t2 x cp) as Hold.
  { intros x cp Hin. pose proof (cat_cp _ _ Hcat x cp Hin) as Hh. pose proof Hh as ((d & Hd & Hk) & _).
    apply (holds_fx t); [done| |done]. apply Hrd; [apply dsc_bound in Hd; lia|].
    intros Hu. by rewrite (unused_live _ _ _ Hu Hd) in Hk. }
  assert (is_u64 s) as Hus by (by eapply slot_u64).
  destruct L as [|[x cp] L0 _] using rev_ind.
  - rewrite Htl, (cat_tail _ _ Hcat). cbn [slots fmap list_fmap last default Z.eqb negb].
    pose proof (w_ctrl _ Hwf2) as Hc. unfold control_ok in Hc. destruct_and! Hc.
    destruct (meta_control t2 (set_Head s (t_ctrl t2))) as [Hm Hpe]; try done; try congruence.
    + cbn. destruct (decide (Protected (t_ctrl t2) = 0)) as [E|E]; [by left|right].
      destruct (w_prot _ Hwf2 E) as (_ & (cp & ? & ?) & d & ? & ?). by exists d, cp.
    + apply (w_epoch _ Hwf2).
    + eexists. split; [done|]. split; [done|]. split; [done|]. split; [intros x cp Hx; by apply elem_of_nil in Hx|].
      split_and!; [done..|by cbn; congruence|by cbn; congruence|by cbn; congruence].
  - rewrite Htl, (cat_tail _ _ Hcat). unfold slots. rewrite fmap_app. cbn [fmap list_fmap fst]. rewrite last_snoc.
    cbn [default from_option id]. destruct (Hold x cp) as ((d & Hd & Hk) & Hcp & Hok); [apply elem_of_app; right; by left|].
    apply dsc_bound in Hd as Hb. rewrite (proj2 (Z.eqb_neq x 0)) by lia. cbn [negb]. rewrite Hcp. cbn [res_bind].
    destruct (put_checkpoint t2 x d (set_cpNext s cp)) as (t3 & Hput & Hm & Hct & Hpe & Hcp3 & Ho); try done.
    + unfold checkpoint_ok in *. destruct_and! Hok. cbn. split_and!; done.
    + intros E. cbn. unfold pe. rewrite <- E, (proj2 (Z.eqb_neq x 0)) by lia. by rewrite Hcp.
    + exists t3. split; [done|]. split; [done|]. split; [done|].
      assert (link_last s (L0 ++ [(x, cp)]) = L0 ++ [(x, set_cpNext s cp)]) as Hlk.
      { unfold link_last. rewrite length_app. cbn [length]. rewrite Nat.add_1_r. cbn [pred].
        replace (length L0) with (length L0 + 0)%nat by lia. rewrite alter_app_r. done. }
      rewrite Hlk, Hct. split; [|split_and!; [|congruence..]].
      * intros y cq [Hy|[= -> ->]%list_elem_of_singleton]%elem_of_app.
        -- assert (y <> x) as Hne.
           { intros ->. pose proof (cat_nodup _ _ Hcat) as Hnd. unfold slots in Hnd. rewrite fmap_app in Hnd.
             apply NoDup_app in Hnd as (_ & Hnd & _). apply (Hnd x); [|by left]. apply list_elem_of_fmap. by exists (x, cq). }
           pose proof (Hold y cq ltac:(apply elem_of_app; by left)) as Hh. pose proof Hh as ((dy & Hdy & _) & _).
           apply dsc_bound in Hdy. apply (holds_meta t2); [done|apply Ho; [lia|done]|done].
        -- split; [rewrite (mf_dsc _ _ Hm); eauto|]. split; [done|]. unfold checkpoint_ok in *. destruct_and! Hok. cbn. split_and!; done.
      * intros cn. rewrite Hhd, (cat_head _ _ Hcat), <- Hlk, snoc_slot_at, decide_False; [done|]. rewrite length_app. cbn. lia.
Qed.

(** [taken t id L t' L']: [t'] is [t] with a version named [id] of its current state. *)
Record taken (t : transaction) (id : list Z) (L : list (Z * checkpoint)) (t' : transaction) (L' : list (Z * checkpoint)) : Prop := {
  tk_mid : exists t2, tree_fx t [] t2 /\ meta_fx t2 t';
  tk_pe : pe t' = Epoch (t_ctrl t);
  tk_root : Root (t_ctrl t') = Root (t_ctrl t);
  tk_catalog : catalog t' L';
  tk_garbage : Garbage (t_ctrl t') = Garbage (t_ctrl t);
  tk_private : same_private t t';
  tk_read : forall x d, dsc t x = Some d -> Kind d <> kindFree -> Kind d <> kindCheckpoint -> read t' (slotPage x) = read t (slotPage x);
  tk_list : exists s cp, L' = link_last s L ++ [(s, cp)] /\ cp_ID cp = id /\ cp_Visible cp = true /\ cp_Retained cp = true /\
    cp_Epoch cp = Epoch (t_ctrl t) /\ cp_Root cp = Root (t_ctrl t) /\
    readSnapshotPresence (read t') cp (s_size (store t)) (Next (t_ctrl t')) = Ok (s_presence (store t)) /\
    unused t s /\ cp_Garbage cp = 0 /\ cp_BitmapDone cp = 0 /\
    exists l, cp_Bitmap cp = default 0 (head l) /\ Z.of_nat (length l) = Pages (s_size (store t)) /\ NoDup l /\
      forall j x, l !! j = Some x -> unused t x /\ dsc t' x = Some (mkDescriptor (Epoch (t_ctrl t)) (default 0 (l !! S j)) kindBitmap) /\
        exists b, read t' (slotPage x) = Ok b /\ encoded (s_presence (store t)) (s_size (store t)) (Z.of_nat j) b }.

Lemma checkpoint_body_spec t id L : tx_wf t -> protectedKnown t = false -> t_nodes t = ∅ -> catalog t L ->
  writable_size (s_size (store t)) -> bitmap_ok (s_size (store t)) (s_presence (store t)) ->
  Next (t_ctrl t) + 1 + Pages (s_size (store t)) <= maxSlot + 1 -> Epoch (t_ctrl t) + 1 < 2 ^ 64 ->
  bytes_ok id -> ValidString id = true -> (length id <= 128)%nat -> id ∉ names L ->
  exists t' L', checkpoint_body t id = Ok t' /\ taken t id L t' L'.
Proof.
  intros Hwf Hkn Hnn Hcat Hs HP Hroom Hep Hb Hv Hlen Hid. unfold checkpoint_body.
  destruct (checkpoint_prepare t Hwf Hs HP Hroom) as (s & t1 & bitmap & t2 & -> & Hsp & Hpre). cbn [res_bind].
  rewrite Hsp. cbn [res_bind]. cbn zeta.
  destruct (checkpoint_link t t2 L s bitmap Hcat Hpre Hkn Hnn) as (t3 & -> & Hm3 & Hpe3 & Hold3 & Hhd3 & HE3 & Hpr3 & Hpd3). cbn [res_bind].
  pose proof Hpre as [Hfx Hun (d & Hd & Hk) _ (Hr & Hg & Hub) [Hkn2 Hnn2] Hsnap].
  pose proof (fx_ctrl _ _ _ Hfx) as (HE & _ & _ & Htl & Hpr & _ & _).
  set (cp := mkCheckpoint id (Epoch (t_ctrl t2)) (Root (t_ctrl t2)) 0 (Tail (t_ctrl t2)) 0 true true false bitmap 0).
  pose proof (w_ctrl _ (fx_wf _ _ _ Hfx)) as Hc. unfold control_ok in Hc. destruct_and! Hc.
  assert (checkpoint_ok cp) as Hok by (unfold checkpoint_ok; cbn; unfold is_u64 in *; split_and!; (done || lia)).
  assert (s ∉ slots L) as Hns.
  { intros ([x c] & Hx & Hin)%list_elem_of_fmap. cbn in Hx. subst x. by apply (holds_unused t s s c Hun (cat_cp _ _ Hcat s c Hin)). }
  assert (s <> Protected (t_ctrl t3)) as Hsp3.
  { rewrite Hpr3. intros E. apply dsc_bound in Hd as ?. destruct (w_prot t Hwf ltac:(lia)) as (_ & _ & dp & Hdp & Hkp).
    rewrite <- E in Hdp. by rewrite (unused_live _ _ _ Hun Hdp) in Hkp. }
  assert (dsc t3 s = Some d) as Hd3 by (by rewrite (mf_dsc _ _ Hm3)).
  destruct (put_checkpoint t3 s d cp) as (t4 & -> & Hm4 & Hct4 & Hpe4 & Hcp4 & Ho4); [apply Hm3|done..|]. cbn [res_bind].
  set (c' := publish_version s (t_ctrl t4)). set (L' := link_last s L ++ [(s, cp)]). cbn [set_ctrl t_ctrl].
  assert (Epoch c' = Epoch (t_ctrl t) + 1) as HE'.
  { unfold c', publish_version. cbn [Epoch]. rewrite Hct4, HE3. unfold u64. rewrite Z.mod_small; [done|].
    pose proof (w_epoch _ Hwf). lia. }
  pose proof (w_epoch _ Hwf) as Hpe0. destruct (mf_private _ _ Hm3), (mf_private _ _ Hm4).
  pose proof (w_ctrl _ (mf_wf _ _ Hm4)) as Hc4. unfold control_ok in Hc4. destruct_and! Hc4.
  assert (dsc t4 s = Some d) as Hd4 by (by rewrite (mf_dsc _ _ Hm4)).
  assert (is_u64 s) as Hus by (by apply (slot_u64 t4 s d (mf_wf _ _ Hm4))). apply dsc_bound in Hd4 as Hbs.
  assert (epoch_of t4 s = Epoch (t_ctrl t)) as Heo.
  { unfold epoch_of. rewrite (proj2 (Z.eqb_neq s 0)) by lia. rewrite Hcp4. done. }
  destruct (meta_control t4 c') as [Hm5 Hpe5]; try done; try congruence.
  - apply Hm4.
  - assert (is_u64 (Epoch c')) as Hue by (rewrite HE'; unfold is_u64; lia).
    unfold control_ok. repeat (split; [first [assumption|exact Hue|exact Hus]|]). assumption.
  - rewrite HE', Hct4, HE3. lia.
  - right. exists d, cp. done.
  - change (Protected c') with s. rewrite Heo, HE'. lia.
  - change (Protected c') with s in Hpe5. rewrite Heo in Hpe5.
    rewrite (proj2 (Z.eqb_neq (Epoch c') 0)) by lia. exists (set_ctrl c' t4), L'. split; [done|].
    assert (meta_fx t2 (set_ctrl c' t4)) as Hm by (eapply meta_trans; [exact Hm3|by eapply meta_trans]).
    split; [by exists t2|done| | | | | |].
    + destruct (mf_ctrl _ _ Hm) as (-> & _). done.
    + apply (catalog_snoc t); try done; try congruence.
      * intros x c [Hin|[= -> ->]%list_elem_of_singleton]%elem_of_app.
        -- pose proof (Hold3 x c Hin) as Hh. assert (x <> s) as Hne.
           { intros ->. apply Hns. rewrite <- (link_slots L s). apply list_elem_of_fmap. by exists (s, c). }
           apply (holds_meta t4); [done|done|]. apply (holds_meta t3); [done| |done]. apply Ho4; [|done].
           destruct Hh as ((dx & Hdx & _) & _). apply dsc_bound in Hdx. lia.
        -- split; [|done]. exists d. by rewrite (mf_dsc _ _ Hm5).
      * unfold c'. cbn. rewrite Hct4. apply Hhd3.
      * unfold c'. cbn. rewrite Hct4. done.
    + destruct (mf_ctrl _ _ Hm) as (_ & _ & _ & ->). done.
    + destruct (mf_private _ _ Hm). split; congruence.
    + intros x dx Hx Hkf Hkc. destruct (fx_live _ _ _ Hfx x dx Hx Hkf) as (dx' & Hx' & _ & [->|[?%elem_of_nil _]]); [|done].
      rewrite (mf_read _ _ Hm x dx Hx' Hkc). apply (pr_read _ _ _ _ Hpre); [apply dsc_bound in Hx; lia|]. intros Hu. by apply (unused_live _ _ _ Hu) in Hx.
    + exists s, cp. destruct (pr_links _ _ _ _ Hpre) as (l & Hh & Hln & Hnd & Hl). split_and!; try done; [by apply Hsnap|]. exists l. split_and!; try done.
      intros j x Hj. destruct (Hl j x Hj) as (Hux & Hdx & b & Hbx & Hex). split; [done|]. split; [by rewrite (mf_dsc _ _ Hm)|].
      exists b. split; [|done]. by rewrite (mf_read _ _ Hm x _ Hdx).
Qed.

(** What a version of the current state keeps. *)
Lemma taken_frozen t id L t' L' e r l : taken t id L t' L' -> frozen t e r l -> frozen t' e r l.
Proof.
  intros [(t2 & Hfx & Hm) _ _ _ _ _ _ _] (h & f & Ht & Hf). apply (meta_frozen t2); [done|]. exists h, f. split.
  - eapply tree_ext; [|exact Ht]. intros x n Hx. destruct (Hf x Hx) as (d & Hd & Hk & Hb).
    apply (fx_nd _ _ _ Hfx x d); [done|by destruct Hk as [-> | ->]..|left; apply not_elem_of_nil].
  - intros x Hx. destruct (Hf x Hx) as (d & Hd & Hk & Hb).
    destruct (fx_live _ _ _ Hfx x d Hd) as (d' & Hd' & Hb' & [->|[Hx' _]]); [by destruct Hk as [-> | ->]|eauto|].
    by apply elem_of_nil in Hx'.
Qed.
Lemma taken_mapping t id L t' L' levels root l fp : taken t id L t' L' -> mapping t levels root l fp -> mapping t' levels root l fp.
Proof.
  intros [(t2 & Hfx & Hm) _ _ _ _ _ _ _] [Ht Hs Hn Hl]. apply (meta_mapping t2); [done|]. split; [|done|done|].
  - destruct Ht as [?|(h & Hh & Ht)]; [by left|]. right. exists h. split; [done|]. eapply tree_ext; [|exact Ht].
    intros x n Hx. destruct (Hl x Hx) as (d & Hd & Hk).
    apply (fx_nd _ _ _ Hfx x d); [done|by rewrite Hk..|left; apply not_elem_of_nil].
  - eapply fx_live_keep; [exact Hfx|done|]. intros x _. apply not_elem_of_nil.
Qed.
(** The active tree becomes a retained one. *)
Lemma mapping_frozen t levels root l fp : born t -> mapping t levels root l fp -> root <> 0 -> frozen t (Epoch (t_ctrl t)) root l.
Proof.
  intros Hb [[(? & _)|(h & _ & Ht)] _ _ Hl] H0; [done|]. exists h, fp. split; [done|]. intros x Hx.
  destruct (Hl x Hx) as (d & Hd & Hk). exists d. split_and!; [done|by left|by eapply Hb].
Qed.
Lemma taken_born t id L t' L' : taken t id L t' L' -> born t -> born t'.
Proof. intros [(t2 & Hfx & Hm) _ _ _ _ _ _ _] Hb. by apply (meta_born t2), (fx_born _ _ _ Hfx). Qed.
Lemma ValidID_ok id : ValidID id = Ok tt -> ValidString id = true /\ (length id <= 128)%nat.
Proof.
  unfold ValidID. repeat case_match; try done. intros _. bool_prop. destruct (ValidString id); [|done]. split; [done|lia].
Qed.
Lemma named_None id L : id ∉ names L -> named id L = None.
Proof.
  intros Hid. unfold named. destruct (filter _ L) as [|[x cp] l] eqn:E; [done|]. exfalso. apply Hid.
  assert ((x, cp) ∈ filter (fun p => cp_ID p.2 = id) L) as [Hi Hin]%list_elem_of_filter by (rewrite E; by left).
  apply list_elem_of_fmap. exists (x, cp). split; [done|done].
Qed.

(** ** Withdrawing versions *)

Lemma insert_map {A} (f : Z * checkpoint -> A) (L : list (Z * checkpoint)) (i : nat) p q : L !! i = Some p -> f q = f p -> f <$> <[i := q]> L = f <$> L.
Proof. intros Hi Hf. rewrite list_fmap_insert. apply list_insert_id. by rewrite list_lookup_fmap, Hi, Hf. Qed.

(** Changing the flags, the bitmap or the garbage of one version. *)
Lemma insert_lookup L i s cp cp' j x c : NoDup (slots L) -> L !! i = Some (s, cp) -> <[i := (s, cp')]> L !! j = Some (x, c) ->
  (j <> i /\ x <> s /\ L !! j = Some (x, c)) \/ (j = i /\ x = s /\ c = cp').
Proof.
  intros Hnd Hi Hj. destruct (decide (j = i)) as [->|Hne].
  - rewrite list_lookup_insert_eq in Hj by (by eapply lookup_lt_Some). injection Hj as <- <-. by right.
  - rewrite list_lookup_insert_ne in Hj by done. left. split_and!; [done| |done]. intros ->. apply Hne.
    eapply NoDup_lookup; [exact Hnd|by eapply slots_lookup|by eapply slots_lookup].
Qed.
Lemma listing_update c c' L i s cp cp' : listing c L -> L !! i = Some (s, cp) ->
  cp_ID cp' = cp_ID cp -> cp_Next cp' = cp_Next cp -> cp_Previous cp' = cp_Previous cp -> cp_Epoch cp' = cp_Epoch cp ->
  (cp_Visible cp' = true -> cp_Retained cp' = true /\ cp_Pending cp' = false) ->
  Head c' = Head c -> Tail c' = Tail c -> Epoch c' = Epoch c -> shields (<[i := (s, cp')]> L) (Protected c') ->
  Pending c' = Z.of_nat (length (filter is_pending (<[i := (s, cp')]> L))) -> listing c' (<[i := (s, cp')]> L).
Proof.
  intros Hcat Hi Hid Hn Hp He Hv Hhd Htl Hep Hpr Hpd.
  assert (slots (<[i := (s, cp')]> L) = slots L) as Hsl by (by eapply insert_map).
  assert (forall j, slot_at (<[i := (s, cp')]> L) j = slot_at L j) as Hat by (intros; unfold slot_at; by rewrite Hsl).
  assert (forall j x c, <[i := (s, cp')]> L !! j = Some (x, c) -> exists c0, L !! j = Some (x, c0) /\
    cp_Next c = cp_Next c0 /\ cp_Previous c = cp_Previous c0 /\ cp_Epoch c = cp_Epoch c0 /\ (c = c0 \/ c = cp')) as Hlk.
  { intros j x c0 Hj. destruct (insert_lookup L i s cp cp' j x c0) as [(_ & _ & ?)|(-> & -> & ->)]; [apply Hcat|done|done| |];
      [exists c0; auto 10|exists cp; auto 10]. }
  destruct Hcat. split; try done.
  - by rewrite Hsl.
  - unfold names. rewrite (insert_map _ _ _ _ _ Hi); [done|]. cbn. done.
  - by rewrite Hhd, Hat.
  - by rewrite Htl, Hsl.
  - intros j x c0 Hj. destruct (Hlk j x c0 Hj) as (c1 & Hj0 & -> & _). rewrite Hat. by eapply cat_next0.
  - intros j x c0 Hj. destruct (Hlk j x c0 Hj) as (c1 & Hj0 & _ & -> & _). rewrite (cat_prev0 j x c1 Hj0).
    destruct j; [done|]. cbn [slot_before]. by rewrite Hat.
  - intros j k x y c0 c2 Hj Hk Hjk. destruct (Hlk j x c0 Hj) as (c1 & Hj0 & _ & _ & -> & _).
    destruct (Hlk k y c2 Hk) as (c3 & Hk1 & _ & _ & -> & _). by eapply cat_epochs0.
  - intros x c0 [j Hj]%list_elem_of_lookup_1. destruct (Hlk j x c0 Hj) as (c1 & Hj0 & _ & _ & -> & _). rewrite Hep.
    eapply cat_before0. by eapply list_elem_of_lookup_2.
  - intros x c0 [j Hj]%list_elem_of_lookup_1. destruct (Hlk j x c0 Hj) as (c1 & Hj0 & _ & _ & _ & [->| ->]); [|done].
    eapply cat_visible0. by eapply list_elem_of_lookup_2.
Qed.
Lemma catalog_update t t' L i s cp cp' : catalog t L -> L !! i = Some (s, cp) -> listing (t_ctrl t') (<[i := (s, cp')]> L) ->
  holds_cp t' s cp' -> (forall x c, x <> s -> holds_cp t x c -> holds_cp t' x c) -> catalog t' (<[i := (s, cp')]> L).
Proof.
  intros Hcat Hi Hls Hs Ho. split; [done|]. intros x c [j Hj]%list_elem_of_lookup_1.
  destruct (insert_lookup L i s cp cp' j x c) as [(_ & Hne & Hj')|(-> & -> & ->)]; [apply Hcat|done|done| |done].
  apply Ho; [done|]. apply (cat_cp _ _ Hcat). by eapply list_elem_of_lookup_2.
Qed.
(** Every retained version is at or before the protected epoch. *)
Lemma catalog_pe t L x cp : catalog t L -> (x, cp) ∈ L -> cp_Retained cp = true -> cp_Epoch cp <= pe t.
Proof.
  intros Hcat Hin Hr. apply list_elem_of_lookup_1 in Hin as [i Hi].
  destruct (cat_protected _ _ Hcat) as [[_ Hn]|(j & cq & Hj & Hn)]; [by destruct (Hn i (x, cp) Hi)|].
  pose proof (Hn i (x, cp) Hi Hr) as Hij. set (y := Protected (t_ctrl t)) in *.
  destruct (catalog_slot t L Hcat j y cq Hj) as (Hb & Hcp & _).
  unfold pe. fold y. rewrite (proj2 (Z.eqb_neq y 0)), Hcp by lia.
  destruct (decide (i = j)) as [->|]; [simplify_eq; lia|].
  pose proof (cat_epochs _ _ Hcat i j x y cp cq Hi Hj). lia.
Qed.

Definition pinnable (pin : Z -> dres unit) : Prop := forall s, pin s = Ok tt \/ pin s = Err ErrBusy.
Definition still_read (pin : Z -> dres unit) (s : Z) (cp : checkpoint) : bool :=
  match pin s with Ok _ => false | Err _ => cp_Retained cp end.
(** What a withdrawal of the names [ids] makes of a record. *)
Definition withdrawn (pin : Z -> dres unit) (ids : list (list Z)) (p : Z * checkpoint) : Z * checkpoint :=
  if bool_decide (cp_ID p.2 ∈ ids) && cp_Visible p.2 then (p.1, set_flags false (still_read pin p.1 p.2) true p.2) else p.

(** A change of control fields that describe no version's place. *)
Lemma ctrl_flags t c L : tx_wf t -> protectedKnown t = false -> t_nodes t = ∅ -> catalog t L -> control_ok c ->
  Root c = Root (t_ctrl t) -> Next c = Next (t_ctrl t) -> Free c = Free (t_ctrl t) -> Garbage c = Garbage (t_ctrl t) ->
  Epoch c = Epoch (t_ctrl t) -> Protected c = Protected (t_ctrl t) ->
  meta_fx t (set_ctrl c t) /\ pe (set_ctrl c t) = pe t.
Proof.
  intros Hwf Hkn Hnn Hcat Hc Hr Hn Hf Hg He Hp.
  destruct (meta_control t c) as [Hm Hpe]; try done; try lia.
  - rewrite Hp. destruct (decide (Protected (t_ctrl t) = 0)) as [E|E]; [by left|right].
    destruct (w_prot _ Hwf E) as (_ & (cp & ? & ?) & d & ? & ?). by exists d, cp.
  - rewrite Hp, He. apply (w_epoch _ Hwf).
  - split; [done|]. rewrite Hpe, Hp. done.
Qed.
Lemma pending_insert L i s cp cp' : L !! i = Some (s, cp) -> cp_Pending cp = false -> cp_Pending cp' = true ->
  length (filter is_pending (<[i := (s, cp')]> L)) = S (length (filter is_pending L)).
Proof.
  intros Hi H0 H1. rewrite <- (take_drop_middle L i (s, cp) Hi) at 2. rewrite insert_take_drop by (by eapply lookup_lt_Some).
  rewrite !filter_app, !filter_cons, !length_app.
  rewrite (decide_True (P := is_pending (s, cp'))), (decide_False (P := is_pending (s, cp))); [cbn; lia|unfold is_pending; cbn; congruence|done].
Qed.
(** Fewer retained versions need no more protection. *)
Lemma shields_insert L i s cp cp' x : L !! i = Some (s, cp) -> (cp_Retained cp' = true -> cp_Retained cp = true) ->
  shields L x -> shields (<[i := (s, cp')]> L) x.
Proof.
  intros Hi Hr Hs. assert (forall k p, <[i := (s, cp')]> L !! k = Some p -> is_retained p -> exists q, L !! k = Some q /\ is_retained q) as Hk.
  { intros k p Hk Hp. destruct (decide (k = i)) as [->|].
    - rewrite list_lookup_insert_eq in Hk by (by eapply lookup_lt_Some). injection Hk as <-. exists (s, cp). split; [done|by apply Hr].
    - rewrite list_lookup_insert_ne in Hk by done. by exists p. }
  destruct Hs as [[-> Hn]|(j & cq & Hj & Hn)].
  - left. split; [done|]. intros k p Hkp Hp. destruct (Hk k p Hkp Hp) as (q & Hq & Hrq). by apply (Hn k q).
  - right. exists j, (if decide (j = i) then cp' else cq). split.
    + case_decide; [|by rewrite list_lookup_insert_ne]. subst j. rewrite Hi in Hj. injection Hj as <- <-.
      by rewrite list_lookup_insert_eq by (by eapply lookup_lt_Some).
    + intros k p Hkp Hp. destruct (Hk k p Hkp Hp) as (q & Hq & Hrq). by eapply Hn.
Qed.
(** The version in slot [s] is replaced by the nearest one before it. *)
Lemma shields_nearest L i s cp cp' x cx : L !! i = Some (s, cp) -> cp_Retained cp' = false -> NoDup (slots L) ->
  (s <> 0) -> shields L s -> nearest L i x cx -> shields (<[i := (s, cp')]> L) x.
Proof.
  intros Hi Hr Hnd H0 Hs Hn. destruct Hs as [[? _]|(j & cq & Hj & Hs)]; [done|].
  assert (j = i) as -> by (eapply NoDup_lookup; [exact Hnd|by eapply slots_lookup..]).
  assert (forall k p, <[i := (s, cp')]> L !! k = Some p -> is_retained p -> L !! k = Some p /\ (k < i)%nat) as Hk.
  { intros k p Hk Hp. destruct (decide (k = i)) as [->|Hne].
    - rewrite list_lookup_insert_eq in Hk by (by eapply lookup_lt_Some). injection Hk as <-. unfold is_retained in Hp. cbn in Hp. congruence.
    - rewrite list_lookup_insert_ne in Hk by done. split; [done|]. pose proof (Hs k p Hk Hp). lia. }
  destruct Hn as [[-> Hn]|(j & Hji & HL & _ & Hn)].
  - left. split; [done|]. intros k p Hkp Hp. destruct (Hk k p Hkp Hp) as [Hkl Hki]. by apply (Hn k p Hkl Hki).
  - right. exists j, cx. rewrite list_lookup_insert_ne by lia. split; [done|]. intros k p Hkp Hp.
    destruct (Hk k p Hkp Hp) as [Hkl Hki]. by apply (Hn k p Hkl Hki).
Qed.
Lemma nearest_holds t L i x cp : catalog t L -> nearest L i x cp ->
  x = 0 \/ (x, cp) ∈ L /\ (forall s c, L !! i = Some (s, c) -> x <> s) /\ cp_Retained cp = true.
Proof.
  intros Hcat [[-> _]|(j & Hji & HL & Hr & _)]; [by left|]. right. split; [by eapply list_elem_of_lookup_2|]. split; [|done].
  intros s c Hi ->. assert (i = j); [|lia]. eapply NoDup_lookup; [exact (cat_nodup _ _ Hcat)|by eapply slots_lookup..].
Qed.

(** Naming another version as the newest retained one. *)
Lemma ctrl_protect t prev : tx_wf t -> protectedKnown t = false -> t_nodes t = ∅ ->
  (prev = 0 \/ exists cp, holds_cp t prev cp /\ cp_Epoch cp < Epoch (t_ctrl t)) ->
  meta_fx t (set_ctrl (set_Protected prev (t_ctrl t)) t).
Proof.
  intros Hwf Hkn Hnn Hp. pose proof (w_ctrl _ Hwf) as Hc. unfold control_ok in Hc. destruct_and! Hc.
  pose proof (w_epoch _ Hwf). apply meta_control; cbn; try done; try lia.
  - unfold control_ok. cbn. split_and!; try done. destruct Hp as [->|(cp & ((d & Hd & _) & _) & _)]; [unfold is_u64; lia|by eapply slot_u64].
  - destruct Hp as [->|(cp & ((d & Hd & Hk) & ? & ?) & _)]; [by left|]. right. by exists d, cp.
  - unfold epoch_of. destruct Hp as [->|(cp & ((d & Hd & Hk) & -> & Hok) & ?)]; [cbn; lia|]. apply dsc_bound in Hd.
    rewrite (proj2 (Z.eqb_neq prev 0)) by lia. unfold checkpoint_ok, is_u64 in Hok. lia.
Qed.

Section Withdraw.
Context (pin : Z -> dres unit) (t : transaction) (L : list (Z * checkpoint)) (i : nat) (s : Z) (cp : checkpoint).
Context (Hwf : tx_wf t) (Hkn : protectedKnown t = false) (Hnn : t_nodes t = ∅) (Hcat : catalog t L) (Hpin : pinnable pin).
Context (Hi : L !! i = Some (s, cp)) (Hv : cp_Visible cp = true).
Local Notation cp' := (set_flags false (still_read pin s cp) true cp).

Record recorded (t3 : transaction) : Prop := {
  re_fx : meta_fx t t3;
  re_ctrl : Head (t_ctrl t3) = Head (t_ctrl t) /\ Tail (t_ctrl t3) = Tail (t_ctrl t) /\ Epoch (t_ctrl t3) = Epoch (t_ctrl t) /\
    Protected (t_ctrl t3) = Protected (t_ctrl t) /\ Pending (t_ctrl t3) = Pending (t_ctrl t) + 1;
  re_record : holds_cp t3 s cp';
  re_other : forall x c, x <> s -> holds_cp t x c -> holds_cp t3 x c }.
Lemma withdraw_recorded : exists t3, withdraw_record pin t s cp = Ok (cp', t3) /\ recorded t3.
Proof.
  unfold withdraw_record. assert ((s, cp) ∈ L) as Hin by (by eapply list_elem_of_lookup_2).
  destruct (cat_cp _ _ Hcat s cp Hin) as ((d & Hd & Hk) & Hcp & Hok).
  apply dsc_bound in Hd as Hb. pose proof (w_next _ Hwf) as Hnx. rewrite maxSlot_val in Hnx.
  assert (u64 (Pending (t_ctrl t) + 1) = Pending (t_ctrl t) + 1 /\ is_u64 (Pending (t_ctrl t) + 1)) as [-> Hup].
  { rewrite (cat_pending _ _ Hcat). pose proof (length_filter is_pending L). pose proof (catalog_length t L Hcat).
    unfold u64, is_u64. split; [rewrite Z.mod_small|]; lia. }
  set (c1 := set_Pending (Pending (t_ctrl t) + 1) (t_ctrl t)). cbn zeta. cbn [set_ctrl t_ctrl].
  replace (match pin s with Ok _ => Ok false | Err ErrBusy => Ok (cp_Retained cp) | Err e => Err e end)
    with (Ok (still_read pin s cp) : dres bool) by (unfold still_read; by destruct (Hpin s) as [-> | ->]). cbn [res_bind].
  pose (c2 := if Current c1 =? s then set_Current 0 c1 else c1).
  replace (if Current c1 =? s then set_ctrl (set_Current 0 c1) (set_ctrl c1 t) else set_ctrl c1 t) with (set_ctrl c2 t)
    by (unfold c2; by destruct (Current c1 =? s)).
  pose proof (w_ctrl _ Hwf) as Hc. unfold control_ok in Hc. destruct_and! Hc.
  assert (control_ok c2 /\ Root c2 = Root (t_ctrl t) /\ Next c2 = Next (t_ctrl t) /\ Free c2 = Free (t_ctrl t) /\
    Garbage c2 = Garbage (t_ctrl t) /\ Epoch c2 = Epoch (t_ctrl t) /\ Protected c2 = Protected (t_ctrl t) /\
    Head c2 = Head (t_ctrl t) /\ Tail c2 = Tail (t_ctrl t) /\ Pending c2 = Pending (t_ctrl t) + 1)
    as (Hc2 & Hr2 & Hn2 & Hf2 & Hg2 & He2 & Hp2 & Hh2 & Ht2 & Hpd2).
  { unfold c2, c1, control_ok. destruct (_ =? s); cbn; split_and!; try done; unfold is_u64; lia. }
  destruct (ctrl_flags t c2 L) as [Hm2 Hpe2]; try done. clearbody c2. clear c1.
  assert (checkpoint_ok cp') as Hok' by (unfold checkpoint_ok in *; destruct_and! Hok; cbn; split_and!; done).
  destruct (put_checkpoint (set_ctrl c2 t) s d cp') as (t3 & -> & Hm3 & Hct3 & Hpe3 & Hcp3 & Ho3); [apply Hm2|by rewrite (mf_dsc _ _ Hm2)|done|done| |].
  { intros E. rewrite Hpe2. unfold pe. cbn in E. rewrite <- Hp2, <- E, (proj2 (Z.eqb_neq s 0)), Hcp by lia. done. }
  assert (meta_fx t t3) as Hm by (by eapply meta_trans).
  exists t3. split; [done|]. split; [done| | |].
  - by rewrite Hct3.
  - split; [exists d; by rewrite (mf_dsc _ _ Hm)|done].
  - intros x c Hx Hh. pose proof Hh as ((dx & Hdx & _) & _). apply dsc_bound in Hdx. apply (holds_meta t); [done| |done].
    rewrite Ho3; [done|lia|done].
Qed.
(** The rest of the withdrawal changes the control at most. *)
Lemma recorded_catalog t3 c : recorded t3 -> meta_fx t3 (set_ctrl c t3) -> Head c = Head (t_ctrl t3) -> Tail c = Tail (t_ctrl t3) ->
  Epoch c = Epoch (t_ctrl t3) -> Pending c = Pending (t_ctrl t3) -> shields (<[i := (s, cp')]> L) (Protected c) ->
  catalog (set_ctrl c t3) (<[i := (s, cp')]> L).
Proof.
  intros [Hm (Hh & Ht & He & Hp & Hpd) Hs Ho] Hmc ? ? ? ? ?.
  destruct (cat_visible _ _ Hcat s cp ltac:(by eapply list_elem_of_lookup_2) Hv) as [_ Hpd0].
  apply (catalog_update t (set_ctrl c t3) L i s cp cp'); [done|done| | |].
  - apply (listing_update (t_ctrl t) c L i s cp cp'); try done; try congruence; [apply Hcat|].
    rewrite (pending_insert L i s cp cp' Hi Hpd0 eq_refl). rewrite (cat_pending _ _ Hcat) in Hpd. lia.
  - by apply (holds_meta t3).
  - intros x c0 Hx Hh0. apply (holds_meta t3); [done|done|by apply Ho].
Qed.
Lemma set_ctrl_id u : set_ctrl (t_ctrl u) u = u.
Proof. by destruct u. Qed.
Lemma withdraw_spec : exists t', withdraw pin t s cp = Ok t' /\ meta_fx t t' /\ catalog t' (<[i := (s, cp')]> L).
Proof.
  unfold withdraw. destruct withdraw_recorded as (t3 & -> & Hre). cbn [res_bind].
  pose proof Hre as [Hm (Hh & Ht & He & Hp & Hpd) Hs Ho].
  destruct (cat_visible _ _ Hcat s cp ltac:(by eapply list_elem_of_lookup_2) Hv) as [Hr _].
  cbn [set_flags cp_Retained cp_Previous] in *. rewrite Hp.
  apply lookup_lt_Some in Hi as Hlt. pose proof (catalog_length t L Hcat). destruct (mf_private _ _ Hm) as [Hk3 Hn3].
  pose proof (catalog_slot t L Hcat i s cp Hi) as (Hsb & _).
  destruct ((Protected (t_ctrl t) =? s) && negb (still_read pin s cp)) eqn:Eb.
  - apply andb_true_iff in Eb as [En%Z.eqb_eq Er%negb_true_iff].
    destruct (predecessor_from_spec t3 L (Z.to_nat (Next (t_ctrl t3))) i) as (x & cq & Hpred & Hq); [| |lia|].
    + intros j y c Hj Hji. destruct (catalog_slot t L Hcat j y c Hj) as (Hbx & Hcx & _). split; [lia|].
      split; [|by apply (cat_prev _ _ Hcat j y c)]. apply Ho; [|apply (cat_cp _ _ Hcat); by eapply list_elem_of_lookup_2].
      intros ->. assert (i = j); [|lia]. eapply NoDup_lookup; [exact (cat_nodup _ _ Hcat)|by eapply slots_lookup..].
    + destruct (mf_ctrl _ _ Hm) as (_ & -> & _). lia.
    + unfold predecessor. rewrite (cat_prev _ _ Hcat i s cp Hi), Hpred. cbn [res_bind]. eexists. split; [done|].
      assert (meta_fx t3 (set_ctrl (set_Protected x (t_ctrl t3)) t3)) as Hmc.
      { apply ctrl_protect; [apply Hm|congruence..|].
        destruct (nearest_holds t L i x cq Hcat Hq) as [|(HqL & Hne & _)]; [by left|right]. exists cq.
        split; [|rewrite He; by eapply (cat_before _ _ Hcat)]. apply Ho; [by eapply Hne|by apply (cat_cp _ _ Hcat)]. }
      split; [by eapply meta_trans|]. apply recorded_catalog; try done. cbn.
      eapply shields_nearest; [done|done|apply Hcat|lia|rewrite <- En; apply Hcat|done].
  - exists t3. split; [done|]. split; [done|]. rewrite <- (set_ctrl_id t3). apply recorded_catalog; try done.
    + rewrite set_ctrl_id. apply meta_refl, Hm.
    + rewrite Hp. by eapply shields_insert; [| |apply Hcat].
Qed.
End Withdraw.

Lemma named_lookup id L : id ∈ names L -> exists i s cp, named id L = Some (s, cp) /\ L !! i = Some (s, cp) /\ cp_ID cp = id.
Proof.
  intros ([s cp] & Hid & Hin)%list_elem_of_fmap. unfold named. cbn in Hid.
  destruct (filter (fun p => cp_ID p.2 = id) L) as [|[x c] l] eqn:E.
  - exfalso. assert ((s, cp) ∈ filter (fun p => cp_ID p.2 = id) L) as Hf by (by apply list_elem_of_filter).
    rewrite E in Hf. by apply elem_of_nil in Hf.
  - assert ((x, c) ∈ filter (fun p => cp_ID p.2 = id) L) as [Hi Hx]%list_elem_of_filter by (rewrite E; by left).
    apply list_elem_of_lookup_1 in Hx as [i Hx]. by exists i, x, c.
Qed.
Lemma withdrawn_one pin L i s cp : NoDup (names L) -> L !! i = Some (s, cp) -> cp_Visible cp = true ->
  <[i := (s, set_flags false (still_read pin s cp) true cp)]> L = withdrawn pin [cp_ID cp] <$> L.
Proof.
  intros Hnd Hi Hv. apply list_eq. intros j. rewrite list_lookup_fmap. destruct (decide (j = i)) as [->|Hne].
  - rewrite list_lookup_insert_eq by (by eapply lookup_lt_Some). rewrite Hi. cbn. unfold withdrawn. cbn [fst snd].
    by rewrite bool_decide_true, Hv by (by left).
  - rewrite list_lookup_insert_ne by done. destruct (L !! j) as [[x c]|] eqn:E; [|done]. cbn. f_equal. unfold withdrawn. cbn [snd].
    rewrite bool_decide_false; [done|]. intros Hid%list_elem_of_singleton. apply Hne.
    eapply NoDup_lookup; [exact Hnd| |]; unfold names; rewrite list_lookup_fmap, ?E, ?Hi; cbn; [by rewrite Hid|done].
Qed.
Lemma withdrawn_hidden pin L i s cp : NoDup (names L) -> L !! i = Some (s, cp) -> cp_Visible cp = false ->
  withdrawn pin [cp_ID cp] <$> L = L.
Proof.
  intros Hnd Hi Hv. apply list_eq. intros j. rewrite list_lookup_fmap. destruct (L !! j) as [[x c]|] eqn:E; [|done].
  cbn. f_equal. unfold withdrawn. cbn [fst snd]. case_bool_decide as Hid; [|done]. apply list_elem_of_singleton in Hid.
  assert (j = i) as ->; [|simplify_eq; by rewrite Hv].
  eapply NoDup_lookup; [exact Hnd| |]; unfold names; rewrite list_lookup_fmap, ?E, ?Hi; cbn; [by rewrite Hid|done].
Qed.
Lemma withdrawn_cons pin id ids p : withdrawn pin ids (withdrawn pin [id] p) = withdrawn pin (id :: ids) p.
Proof.
  destruct p as [s cp]. unfold withdrawn at 2 3. cbn [fst snd]. destruct (cp_Visible cp) eqn:Hv.
  - rewrite !andb_true_r. destruct (decide (cp_ID cp = id)) as [E|E].
    + rewrite !bool_decide_true by (rewrite E; by left). unfold withdrawn. cbn. by rewrite andb_false_r.
    + rewrite (bool_decide_false (cp_ID cp ∈ [id])) by (by intros ?%list_elem_of_singleton).
      unfold withdrawn. cbn [fst snd]. rewrite Hv, andb_true_r.
      rewrite (bool_decide_ext (cp_ID cp ∈ id :: ids) (cp_ID cp ∈ ids)); [done|]. rewrite elem_of_cons. naive_solver.
  - rewrite !andb_false_r. unfold withdrawn. cbn [snd]. by rewrite Hv, andb_false_r.
Qed.
Lemma withdrawn_names pin ids L : names (withdrawn pin ids <$> L) = names L.
Proof.
  unfold names. rewrite <- list_fmap_compose. apply list_fmap_ext. intros i [s cp] _. unfold withdrawn. cbn. by case_match.
Qed.

Lemma delete_body_spec pin ids : pinnable pin -> forall n t L, tx_wf t -> protectedKnown t = false -> t_nodes t = ∅ -> catalog t L ->
  Forall (fun id => id ∈ names L) ids ->
  exists n' t', delete_body pin n t ids = (n', Ok t') /\ meta_fx t t' /\ catalog t' (withdrawn pin ids <$> L).
Proof.
  intros Hpin. induction ids as [|id ids IH]; intros n t L Hwf Hkn Hnn Hcat Hids.
  - exists n, t. split; [done|]. split; [by apply meta_refl|].
    replace (withdrawn pin [] <$> L) with L; [done|]. symmetry. rewrite <- (list_fmap_id L) at 2. apply list_fmap_ext.
    intros i [s cp] _. unfold withdrawn. by rewrite bool_decide_false by apply not_elem_of_nil.
  - apply Forall_cons in Hids as [Hid Hids]. cbn [delete_body]. unfold delete_one. rewrite (findCheckpoint_spec t L Hcat).
    destruct (named_lookup id L Hid) as (i & s & cp & -> & Hi & Hcid).
    assert (exists n1 t1, (if negb (cp_Visible cp) then (n, Ok t) else (u64 (n + 1), withdraw pin t s cp)) = (n1, Ok t1) /\
      meta_fx t t1 /\ catalog t1 (withdrawn pin [id] <$> L)) as (n1 & t1 & -> & Hm1 & Hc1).
    { rewrite <- Hcid. pose proof (cat_names _ _ Hcat). destruct (cp_Visible cp) eqn:Hv; cbn [negb].
      - destruct (withdraw_spec pin t L i s cp) as (t1 & -> & ? & ?); try done. exists (u64 (n + 1)), t1.
        split; [done|]. split; [done|]. by rewrite <- (withdrawn_one pin L i s).
      - exists n, t. split; [done|]. split; [by apply meta_refl|]. by rewrite (withdrawn_hidden pin L i s). }
    destruct (mf_private _ _ Hm1) as [? ?].
    destruct (IH n1 t1 (withdrawn pin [id] <$> L)) as (n2 & t2 & -> & Hm2 & Hc2); [apply Hm1|congruence..|done| |].
    { eapply Forall_impl; [exact Hids|]. intros x. by rewrite withdrawn_names. }
    exists n2, t2. split; [done|]. split; [by eapply meta_trans|].
    rewrite <- list_fmap_compose in Hc2. erewrite list_fmap_ext; [exact Hc2|]. intros j p _. cbn. by rewrite withdrawn_cons.
Qed.
Lemma withdrawn_visible pin ids L : visible (withdrawn pin ids <$> L) = filter (fun id => id ∉ ids) (visible L).
Proof.
  induction L as [|[s cp] L IH]; [done|]. unfold visible, names in *. rewrite fmap_cons.
  destruct (withdrawn pin ids (s, cp)) as [s' c'] eqn:Ew. unfold withdrawn in Ew. cbn [fst snd] in Ew. rewrite !filter_cons.
  destruct (decide (cp_Visible cp = true)) as [Hv|Hv].
  - rewrite (decide_True (P := cp_Visible (s, cp).2 = true)) by done. rewrite fmap_cons, filter_cons. rewrite Hv, andb_true_r in Ew.
    case_bool_decide as Hid; injection Ew as <- <-.
    + rewrite decide_False by done. by rewrite decide_False by (by intros []).
    + rewrite (decide_True (P := cp_Visible (s, cp).2 = true)) by done. rewrite fmap_cons, decide_True by done. by f_equal.
  - rewrite (decide_False (P := cp_Visible (s, cp).2 = true)) by done. apply not_true_is_false in Hv. rewrite Hv, andb_false_r in Ew.
    injection Ew as <- <-. by rewrite decide_False by (cbn; congruence).
Qed.

Lemma visible_snoc A s cp : visible (A ++ [(s, cp)]) = visible A ++ (if cp_Visible cp then [cp_ID cp] else []).
Proof.
  unfold visible, names. rewrite filter_app, fmap_app, filter_cons, filter_nil. f_equal.
  destruct (decide (cp_Visible cp = true)) as [E|E]; [rewrite decide_True, E by done; done|].
  rewrite decide_False by done. apply not_true_is_false in E. by rewrite E.
Qed.
Lemma visible_link s L : visible (link_last s L) = visible L.
Proof. apply visible_map. by apply link_last_map. Qed.
Lemma named_snoc id A s cp : cp_ID cp = id -> id ∉ names A -> named id (A ++ [(s, cp)]) = Some (s, cp).
Proof.
  intros Hid Hn. apply named_None in Hn. unfold named in *. rewrite filter_app, filter_cons, filter_nil.
  destruct (filter _ A); [|done]. by rewrite decide_True.
Qed.

(** ** The theorems *)

(** C10 — Taking a checkpoint: on a well-formed store with room for the record and the
    copy of the presence bitmap, a new valid name is accepted; the current mapping
    is still the current one; from then on it is also a retained version whose
    tree holds exactly what the mapping held, so that no later update rewrites it;
    every version retained before stays retained with its contents; the presence
    bitmap reads back from the copy; and the listing is the old one with the new
    name at its end. *)
Theorem checkpoint_freezes st id L levels l fp : tx_wf (begin st) -> born (begin st) -> catalog (begin st) L ->
  mapping (begin st) levels (Root (s_ctrl st)) l fp -> writable_size (s_size st) -> bitmap_ok (s_size st) (s_presence st) ->
  Next (s_ctrl st) + 1 + Pages (s_size st) <= maxSlot + 1 -> Epoch (s_ctrl st) + 1 < 2 ^ 64 ->
  bytes_ok id -> ValidID id = Ok tt -> id ∉ names L ->
  exists t', Checkpoint (begin st) id = Ok t' /\ tx_wf t' /\ born t' /\ mapping t' levels (Root (t_ctrl t')) l fp /\
    (Root (s_ctrl st) <> 0 -> retained t' (Root (s_ctrl st)) l) /\
    (forall r l', retained (begin st) r l' -> retained t' r l') /\
    ListCheckpoints t' = (let* ids := ListCheckpoints (begin st) in Ok (ids ++ [id])) /\
    exists s cp, findCheckpoint t' id = Ok (s, cp) /\ cp_Root cp = Root (s_ctrl st) /\
      readSnapshotPresence (read t') cp (s_size st) (Next (t_ctrl t')) = Ok (s_presence st).
Proof.
  intros Hwf Hb Hcat Hmap Hs HP Hroom Hep Hbytes Hid Hnew. destruct (ValidID_ok id Hid) as [Hv Hlen].
  destruct (checkpoint_body_spec (begin st) id L) as (t' & L' & Hbody & Htk); try done.
  pose proof Htk as [(t2 & Hfx & Hm) Hpe Hrt Hcat' _ _ _ (s & cp & HL & Hcid & Hvis & _ & _ & Hroot & Hsnap & _)].
  exists t'. unfold Checkpoint. rewrite Hid. cbn [res_bind].
  rewrite (findCheckpoint_spec _ _ Hcat), (named_None _ _ Hnew), (ListCheckpoints_spec _ _ Hcat).
  pose proof (w_epoch _ Hwf) as Hpe0.
  split; [done|]. split; [apply Hm|]. split; [by eapply taken_born|]. split; [rewrite Hrt; by eapply taken_mapping|].
  split; [|split; [|split]].
  - intros H0. apply (proj1 (frozen_retained _ _ _)). rewrite Hpe. eapply taken_frozen; [done|]. by eapply mapping_frozen.
  - intros r l' Hr. apply (proj1 (frozen_retained _ _ _)). apply (frozen_weaken _ (pe (begin st))); [by eapply taken_frozen|rewrite Hpe; lia].
  - rewrite (ListCheckpoints_spec _ _ Hcat'). cbn [res_bind]. by rewrite HL, visible_snoc, Hvis, Hcid, (visible_link s).
  - exists s, cp. rewrite (findCheckpoint_spec _ _ Hcat'), HL, named_snoc; [done|done|]. unfold names. by rewrite link_last_map.
Qed.

(** C21 — Withdrawing versions: deleting a batch of existing names succeeds; exactly
    these names leave the listing; and every version whose name was not deleted, or
    which a reader still holds, is retained as before with its contents, so that no
    later update rewrites it. *)
Theorem delete_keeps_retained pin st L deletions ids : tx_wf (begin st) -> catalog (begin st) L -> pinnable pin ->
  Forall (fun id => id ∈ names L) ids ->
  exists n t', delete_body pin deletions (begin st) ids = (n, Ok t') /\ tx_wf t' /\
    ListCheckpoints t' = (let* out := ListCheckpoints (begin st) in Ok (filter (fun id => id ∉ ids) out)) /\
    forall s cp l, (s, cp) ∈ L -> cp_Retained cp = true -> cp_ID cp ∉ ids \/ pin s = Err ErrBusy ->
      frozen (begin st) (cp_Epoch cp) (cp_Root cp) l -> retained t' (cp_Root cp) l.
Proof.
  intros Hwf Hcat Hpin Hids. destruct (delete_body_spec pin ids Hpin deletions (begin st) L) as (n & t' & Hd & Hm & Hcat'); try done.
  exists n, t'. split; [done|]. split; [apply Hm|]. split.
  - rewrite (ListCheckpoints_spec _ _ Hcat), (ListCheckpoints_spec _ _ Hcat'). cbn [res_bind]. by rewrite withdrawn_visible.
  - intros s cp l Hin Hr Hkeep Hf. apply (proj1 (frozen_retained _ _ _)), (frozen_weaken _ (cp_Epoch cp)); [by eapply meta_frozen|].
    assert (withdrawn pin ids (s, cp) ∈ withdrawn pin ids <$> L) as Hin' by (by apply list_elem_of_fmap_2).
    destruct (withdrawn pin ids (s, cp)) as [s' c'] eqn:Ew. replace (cp_Epoch cp) with (cp_Epoch c').
    + eapply catalog_pe; [exact Hcat'|exact Hin'|]. unfold withdrawn in Ew. cbn [fst snd] in Ew. destruct (_ && _) eqn:Eb; simplify_eq; [|done].
      apply andb_true_iff in Eb as [Eb%bool_decide_eq_true _]. destruct Hkeep as [?|Hb]; [done|]. cbn. unfold still_read. by rewrite Hb.
    + unfold withdrawn in Ew. cbn [fst snd] in Ew. destruct (_ && _); by simplify_eq.
Qed.

Definition demo_list : list (Z * checkpoint) := [(3, demo_cp)].
Lemma demo_catalog : catalog demo_tx demo_list.
Proof.
  assert (forall i x cp, demo_list !! i = Some (x, cp) -> i = 0%nat /\ x = 3 /\ cp = demo_cp) as Hl.
  { intros [|i] x cp; [|done]. by intros [= <- <-]. }
  split; [split; try done|].
  - apply NoDup_singleton.
  - apply NoDup_singleton.
  - intros i x cp (-> & -> & ->)%Hl. done.
  - intros i x cp (-> & -> & ->)%Hl. done.
  - intros i j x y cp cq (-> & _)%Hl (-> & _)%Hl. lia.
  - intros x cp [= -> ->]%list_elem_of_singleton. reflexivity.
  - right. exists 0%nat, demo_cp. split; [done|]. intros k [x cp] (-> & _)%Hl _. lia.
  - by intros x cp [= -> ->]%list_elem_of_singleton.
  - intros x cp [= -> ->]%list_elem_of_singleton. split; [|split; [apply demo_readCheckpoint|apply demo_cp_ok]].
    exists (demo_desc 3). split; [apply demo_dsc; lia|done].
Qed.
Lemma demo_born : born demo_tx.
Proof. intros x d Hd. pose proof (dsc_bound _ _ _ Hd) as Hb. cbn in Hb. rewrite demo_dsc in Hd by lia. injection Hd as <-. discriminate. Qed.

Lemma checkpoint_freezes_witness : exists t', Checkpoint demo_tx (str "next") = Ok t' /\
  ListCheckpoints t' = Ok [str "base"; str "next"] /\ retained t' 2 [mkEntry 5 1].
Proof.
  destruct (checkpoint_freezes demo_store (str "next") demo_list 1 [mkEntry 5 1] [2]) as (t' & Hok & _ & _ & _ & Hr & _ & Hl & _).
  - apply demo_wf.
  - apply demo_born.
  - apply demo_catalog.
  - apply demo_mapping.
  - apply demo_writable.
  - apply demo_bitmap_ok.
  - rewrite maxSlot_val. vm_compute. discriminate.
  - reflexivity.
  - by repeat constructor.
  - vm_compute. reflexivity.
  - intros E%list_elem_of_singleton. discriminate.
  - exists t'. split; [exact Hok|]. split; [|apply Hr; discriminate].
    rewrite Hl. fold demo_tx. by rewrite (ListCheckpoints_spec _ _ demo_catalog).
Defined.

Lemma delete_keeps_retained_witness : exists n t', delete_body (fun _ => Err ErrBusy) 0 demo_tx [str "base"] = (n, Ok t') /\
  ListCheckpoints t' = Ok [] /\ retained t' 2 [mkEntry 5 1].
Proof.
  destruct (delete_keeps_retained (fun _ => Err ErrBusy) demo_store demo_list 0 [str "base"]) as (n & t' & Hok & _ & Hl & Hr).
  - apply demo_wf.
  - apply demo_catalog.
  - by right.
  - apply Forall_singleton. by left.
  - exists n, t'. split; [exact Hok|]. split.
    + rewrite Hl. fold demo_tx. by rewrite (ListCheckpoints_spec _ _ demo_catalog).
    + apply (Hr 3 demo_cp); [by left|done|by right|]. pose proof demo_retained as Hd. unfold retained in Hd. by rewrite demo_pe in Hd.
Defined.
