(* ===== verification/GcDemo.v ===== *)
(** * GcDemo: a store with something to collect.

    The concrete input of the witnesses of the garbage collector. *)
From stdpp Require Import base numbers list gmap strings sorting.
From Stdlib Require Import ZArith Lia.
From S2P Require Import Prelude Page Presence Json Format Tree Tx Demo TreeWrite Sha256 Bitmap Checkpoint.

#[local] Opaque Sum256 sealPage checkPage Page.put.

(** Version "base" (slot 3, bitmap 4) is retained; version "gone" (slot 5, bitmap 6)
    is withdrawn and keeps the old leaf in slot 7; slot 8 is on the garbage list.
    Slot 2 is the leaf both map with, slot 1 its payload. *)
Definition gd_base : checkpoint := mkCheckpoint (str "base") 1 2 5 0 0 true true false 4 0.
Definition gd_gone : checkpoint := mkCheckpoint (str "gone") 2 2 0 3 7 false true true 6 0.
Definition gd_ctrl : control := mkControl 2 9 0 8 3 0 3 5 5 1 0 false 1.
Definition gd_desc (s : Z) : descriptor :=
  mkDescriptor (if s <=? 4 then 1 else 2) 0
    (if s =? 1 then kindData else if s =? 2 then kindIndex else if (s =? 3) || (s =? 5) then kindCheckpoint
     else if (s =? 4) || (s =? 6) then kindBitmap else kindGarbage).
Definition gd_slots : list Z := [1; 2; 3; 4; 5; 6; 7; 8].
Definition gd_descs : list Z := fold_right (fun s b => put_descriptor s (gd_desc s) b) newDescriptorPage gd_slots.
Definition gd_cp_page (cp : checkpoint) : list Z := match encodeCheckpoint cp with Ok b => b | Err _ => zeroPage end.
Definition gd_ctrl_page : list Z := match encodeControl gd_ctrl with Ok b => b | Err _ => zeroPage end.
Definition gd_pages : list (Z * list Z) :=
  [(1, gd_ctrl_page); (1600, demo_presence_page); (2048, sealPage gd_descs); (2049, zeroPage); (2050, encodeNode demo_leaf);
   (2051, gd_cp_page gd_base); (2052, demo_presence_page); (2053, gd_cp_page gd_gone); (2054, demo_presence_page);
   (2055, encodeNode demo_leaf); (2056, zeroPage)].
Definition gd_keys : list Z := [1; 1600; 2048; 2049; 2050; 2051; 2052; 2053; 2054; 2055; 2056].
Definition gd_store : Store := mkStore (mkFile (list_to_map gd_pages) 5000) gd_ctrl demo_presence demo_size.
Definition gd_list : list (Z * checkpoint) := [(3, gd_base); (5, gd_gone)].

Lemma gd_slot s : s ∈ gd_slots -> 1 <= s < 9.
Proof. unfold gd_slots. rewrite !elem_of_cons. intros Hs. destruct_or! Hs; [lia..|by apply elem_of_nil in Hs]. Qed.
Lemma gd_in s : 1 <= s < 9 -> s ∈ gd_slots.
Proof. intros Hs. unfold gd_slots. rewrite !elem_of_cons. lia. Qed.
Lemma put_descriptors_page (D : Z -> descriptor) l b : is_page b -> is_page (fold_right (fun s b => put_descriptor s (D s) b) b l).
Proof. intros Hb. induction l; [done|]. by apply put_descriptor_page. Qed.
Lemma get_put_descriptors (D : Z -> descriptor) l b s : is_page b -> (forall s, descriptor_ok (D s)) -> s ∈ l ->
  (forall x, x ∈ l -> descriptorPage x = descriptorPage s) ->
  get_descriptor (fold_right (fun s b => put_descriptor s (D s) b) b l) s = D s.
Proof.
  intros Hb Hok. induction l as [|x l IH]; intros Hs Hp; [by apply elem_of_nil in Hs|]. cbn [fold_right].
  destruct (decide (x = s)) as [->|Hne]; [apply get_put_descriptor; [by apply put_descriptors_page|done]|].
  rewrite get_put_descriptor_ne; [|by apply put_descriptors_page|apply Hp; by left|done].
  apply IH; [by apply elem_of_cons in Hs as [->|?]|]. intros y Hy. apply Hp. by right.
Qed.
Lemma gd_desc_ok s : descriptor_ok (gd_desc s).
Proof.
  unfold descriptor_ok, gd_desc, is_u64, kindData, kindIndex, kindCheckpoint, kindBitmap, kindGarbage. cbn [Birth dNext Kind].
  repeat case_match; lia.
Qed.
Lemma gd_cp_ok cp : cp = gd_base \/ cp = gd_gone -> checkpoint_ok cp.
Proof.
  intros [-> | ->]; unfold checkpoint_ok, is_u64; cbn; split_and!; try lia; try done; by repeat constructor.
Qed.
Lemma gd_cp_page_ok cp : checkpoint_ok cp -> is_page (gd_cp_page cp) /\ decodeCheckpoint (gd_cp_page cp) = Ok cp.
Proof. intros Hok. unfold gd_cp_page. destruct (decodeCheckpoint_encode _ Hok) as (b & -> & ? & _ & ?). by split. Qed.
Lemma gd_ctrl_ok : control_ok gd_ctrl.
Proof. unfold control_ok, is_u64. cbn. split_and!; lia. Qed.
Lemma gd_page p b : (p, b) ∈ gd_pages -> read (begin gd_store) p = Ok b.
Proof.
  intros Hin. assert ((list_to_map gd_pages : gmap Z (list Z)) !! p = Some b) as Hp.
  { apply elem_of_list_to_map_1; [|done]. change (NoDup gd_keys). apply (bool_decide_unpack _). vm_compute. exact I. }
  assert (0 <= p < 5000) as Hr.
  { apply (list_elem_of_fmap_2 fst) in Hin. revert Hin. cbn. rewrite !elem_of_cons. intros Hin. destruct_or! Hin; [lia..|by apply elem_of_nil in Hin]. }
  unfold read. cbn [begin t_pages store]. rewrite lookup_empty. unfold readFull, page_at. cbn [gd_store s_file fpages flen].
  rewrite Hp, (proj2 (Z.ltb_ge p 0)), (proj2 (Z.ltb_ge 5000 (p + 1))) by lia. done.
Qed.
Lemma gd_is_page p b : (p, b) ∈ gd_pages -> is_page b.
Proof.
  assert (Forall (fun q => is_page (q.2)) gd_pages) as Hall; [|by intros Hin%(proj1 (Forall_forall _ _) Hall)].
  assert (is_page (encodeNode demo_leaf)) as Hn by (apply (encodeNode_page demo_leaf); [cbn; lia|apply demo_entries_ok]).
  pose proof (en_page _ _ _ _ demo_presence_encoded) as Hp. repeat apply Forall_cons_2; cbn [snd].
  - unfold gd_ctrl_page. destruct (decodeControl_encode _ gd_ctrl_ok) as (b0 & -> & ? & _). done.
  - exact Hp.
  - apply sealPage_page, put_descriptors_page, newDescriptorPage_page.
  - apply zeroPage_ok.
  - exact Hn.
  - apply gd_cp_page_ok, gd_cp_ok. auto.
  - exact Hp.
  - apply gd_cp_page_ok, gd_cp_ok. auto.
  - exact Hp.
  - exact Hn.
  - apply zeroPage_ok.
  - apply Forall_nil_2.
Qed.

#[local] Opaque gd_cp_page gd_ctrl_page demo_presence_page encodeNode zeroPage.
Lemma gd_dsc s : 1 <= s < 9 -> dsc (begin gd_store) s = Some (gd_desc s).
Proof.
  intros Hs. apply dsc_Some. split; [done|]. exists (sealPage gd_descs).
  assert (forall x, 1 <= x < 9 -> descriptorPage x = 2048) as Hp.
  { intros x Hx. unfold descriptorPage, slotsPerGroup. rewrite Z.div_small by lia. reflexivity. }
  assert (is_page gd_descs) as Hb by apply (put_descriptors_page gd_desc gd_slots), newDescriptorPage_page. rewrite Hp by done. split_and!.
  - apply gd_page. cbn. do 2 right. by left.
  - by apply checkPage_seal.
  - rewrite get_descriptor_seal by done. symmetry. apply (get_put_descriptors gd_desc gd_slots); [apply newDescriptorPage_page|apply gd_desc_ok|by apply gd_in|].
    intros x Hx%gd_slot. by rewrite !Hp.
Qed.
Lemma gd_readCheckpoint x cp : (x, cp) ∈ gd_list -> readCheckpoint (begin gd_store) x = Ok cp /\ checkpoint_ok cp.
Proof.
  unfold gd_list. rewrite !elem_of_cons. intros [[= -> ->]|[[= -> ->]|?%elem_of_nil]]; [| |done];
    (split; [|apply gd_cp_ok; auto]); unfold readCheckpoint.
  - change (slotPage 3) with 2051. rewrite (gd_page 2051 (gd_cp_page gd_base)) by (do 5 right; by left). apply gd_cp_page_ok, gd_cp_ok. auto.
  - change (slotPage 5) with 2053. rewrite (gd_page 2053 (gd_cp_page gd_gone)) by (do 7 right; by left). apply gd_cp_page_ok, gd_cp_ok. auto.
Qed.
Lemma gd_pe : pe (begin gd_store) = 2.
Proof.
  unfold pe. cbn [begin t_ctrl s_ctrl gd_store Protected gd_ctrl]. change (5 =? 0) with false.
  by rewrite (proj1 (gd_readCheckpoint 5 gd_gone ltac:(right; by left))).
Qed.
Lemma gd_wf : tx_wf (begin gd_store).
Proof.
  split.
  - apply gd_ctrl_ok.
  - rewrite maxSlot_val. cbn. lia.
  - intros p b. cbn [begin store s_file gd_store fpages]. intros Hb%elem_of_list_to_map_2. by eapply gd_is_page.
  - intros p b. cbn. by rewrite lookup_empty.
  - intros s Hs. pose proof (gd_dsc s Hs) as Hd. apply dsc_Some in Hd as (_ & b & ? & ? & _). eauto.
  - intros _. split; [cbn; lia|]. split; [exists gd_gone; apply gd_readCheckpoint; right; by left|].
    exists (gd_desc 5). split; [apply gd_dsc; lia|done].
  - rewrite gd_pe. cbn. lia.
  - done.
  - done.
  - intros s b _. cbn. by rewrite lookup_empty.
  - intros s n. cbn. by rewrite lookup_empty.
  - exists []. split; [done|constructor].
Qed.
Lemma gd_catalog : catalog (begin gd_store) gd_list.
Proof.
  assert (forall i x cp, gd_list !! i = Some (x, cp) -> (i = 0%nat /\ x = 3 /\ cp = gd_base) \/ (i = 1%nat /\ x = 5 /\ cp = gd_gone)) as Hl.
  { intros [|[|i]] x cp; [intros [= <- <-]; by left|intros [= <- <-]; by right|done]. }
  assert (forall x cp, (x, cp) ∈ gd_list -> (x = 3 /\ cp = gd_base) \/ (x = 5 /\ cp = gd_gone)) as Hi.
  { intros x cp [i Hx]%list_elem_of_lookup_1. destruct (Hl _ _ _ Hx) as [(_ & ?)|(_ & ?)]; auto. }
  split; [split; try done|].
  - apply (bool_decide_unpack _). vm_compute. exact I.
  - apply (bool_decide_unpack _). vm_compute. exact I.
  - intros i x cp [(-> & -> & ->)|(-> & -> & ->)]%Hl; done.
  - intros i x cp [(-> & -> & ->)|(-> & -> & ->)]%Hl; done.
  - intros i j x y cp cq [(-> & _ & ->)|(-> & _ & ->)]%Hl [(-> & _ & ->)|(-> & _ & ->)]%Hl ?; cbn; lia.
  - intros x cp [[-> ->]|[-> ->]]%Hi; reflexivity.
  - right. exists 1%nat, gd_gone. split; [done|]. intros k [x cp] [(-> & _)|(-> & _)]%Hl _; lia.
  - by intros x cp [[-> ->]|[-> ->]]%Hi.
  - intros x cp Hin. destruct (gd_readCheckpoint x cp Hin). split; [|done]. exists (gd_desc x).
    destruct (Hi x cp Hin) as [[-> _]|[-> _]]; (split; [apply gd_dsc; lia|done]).
Qed.
