(* ===== verification/Gc.v ===== *)
(** * Gc: reclaiming the slots of withdrawn versions.

    Models gc.go: [gcRelease] punches the pages of a batch of the global garbage
    list and publishes the slots as free; [gcVersions] walks the list of versions,
    withdraws those no reader holds any more, returns their presence bitmaps, and
    passes their retired slots on to the nearest retained version before them or,
    when none of those can use them, to the global list.  Whether a reader holds a
    version is the parameter [pin]; the statistics are left out. *)
From stdpp Require Import base numbers list gmap strings sorting.
From Stdlib Require Import ZArith Lia.
From S2P Require Import Prelude Page Presence Json Format Tree Tx Demo TreeWrite Sha256 Commit Crash Publish Bitmap Checkpoint GcDemo.

#[local] Opaque Sum256 sealPage checkPage Page.put.

(** ** Releasing a batch *)

(** The candidates of one batch, in chain order, and what is left of the chain. *)
Fixpoint candidates (budget : nat) (t : transaction) (slots : list Z) (next : Z) : dres (list Z * Z) :=
  match budget with
  | O => Ok (slots, next)
  | S budget =>
      if next =? 0 then Ok (slots, next)
      else if bool_decide (next ∈ slots) then Err (DiffErr "diffstore: duplicate garbage candidate")
      else
        let* d := desc t next in
        if negb (Kind d =? kindGarbage) then Err (DiffErr "diffstore: invalid garbage chain")
        else candidates budget t (slots ++ [next]) (dNext d)
  end.

#[export] Instance slot_le_dec : RelDecision (fun a b => slotPage a <= slotPage b).
Proof. intros a b. apply Z_le_dec. Defined.
(** Physically adjacent slots are punched with one call. *)
Fixpoint slot_runs (l : list Z) : list (list Z) :=
  match l with
  | [] => []
  | d :: rest =>
      match slot_runs rest with
      | (e :: g) :: gs => if slotPage e =? slotPage d + 1 then (d :: e :: g) :: gs else [d] :: (e :: g) :: gs
      | gs => [d] :: gs
      end
  end.
(** [Fallocate] with [FALLOC_FL_PUNCH_HOLE] and [FALLOC_FL_KEEP_SIZE]. *)
Definition punch_hole (f : file) (page : Z) (n : nat) : file :=
  fold_left (fun f i => punchPage f (page + Z.of_nat i)) (seq 0 n) f.
Definition punch_run (f : file) (run : list Z) : file :=
  match run with s :: _ => punch_hole f (slotPage s) (length run) | [] => f end.
Definition punch_slots (f : file) (slots : list Z) : file := fold_left punch_run (slot_runs slots) f.
Definition set_file (f : file) (t : transaction) : transaction :=
  mkTx (mkStore f (s_ctrl (store t)) (s_presence (store t)) (s_size (store t))) (t_ctrl t) (t_pages t) (t_nodes t)
    (protectedKnown t) (protectedValue t) (fresh t) (allocated t) (t_data t).

(** The batch becomes the head of the free list. *)
Fixpoint free_slots (t : transaction) (slots : list Z) : dres transaction :=
  match slots with
  | [] => Ok t
  | s :: rest =>
      let* d := desc t s in
      let* t := setDesc t s (mkDescriptor (Birth d) (match rest with n :: _ => n | [] => Free (t_ctrl t) end) kindFree) in
      free_slots t rest
  end.
Definition gcRelease (t : transaction) (budget : nat) : dres (list Z * transaction) :=
  let* (slots, next) := candidates budget t [] (Garbage (t_ctrl t)) in
  if bool_decide (next ∈ slots) then Err (DiffErr "diffstore: garbage chain cycle")
  else
    let slots := merge_sort (fun a b => slotPage a <= slotPage b) slots in
    let t := set_file (punch_slots (s_file (store t)) slots) t in
    let* t := free_slots t slots in
    let c := set_Garbage next (t_ctrl t) in
    Ok (slots, set_ctrl (match slots with s :: _ => set_Free s c | [] => c end) t).

(** ** Walking the versions *)

Record gcScan := mkScan {
  cursor : Z; tail : Z; generation : Z; visited : Z; limit : Z; blocked : Z;
  pred_slot : Z; pred_for : Z; pred_epoch : Z; pred_ready : bool }.
Definition gcScan0 : gcScan := mkScan 0 0 0 0 0 0 0 0 0 false.
Definition set_blocked (b : Z) (g : gcScan) : gcScan :=
  mkScan (cursor g) (tail g) (generation g) (visited g) (limit g) b (pred_slot g) (pred_for g) (pred_epoch g) (pred_ready g).
Definition set_pred (s for_ e : Z) (ready : bool) (g : gcScan) : gcScan :=
  mkScan (cursor g) (tail g) (generation g) (visited g) (limit g) (blocked g) s for_ e ready.
Definition set_ready (ready : bool) (g : gcScan) : gcScan := set_pred (pred_slot g) (pred_for g) (pred_epoch g) ready g.
Definition advance (next : Z) (g : gcScan) : gcScan :=
  mkScan next (tail g) (generation g) (u64 (visited g + 1)) (limit g) (blocked g) (pred_slot g) 0 (pred_epoch g) false.

(** The search for the retained predecessor; [left] is what is left of the budget. *)
Fixpoint discover (left : nat) (t : transaction) (g : gcScan) (previous : checkpoint) : dres (nat * gcScan * checkpoint) :=
  match left with
  | O => Ok (O, g, previous)
  | S left' =>
      if pred_ready g || (pred_slot g =? 0) then Ok (left, g, previous)
      else
        let* previous := readCheckpoint t (pred_slot g) in
        if pred_epoch g <=? cp_Epoch previous then Err (DiffErr "diffstore: invalid GC predecessor")
        else if cp_Retained previous then Ok (left', set_ready true g, previous)
        else discover left' t (set_pred (cp_Previous previous) (pred_for g) (cp_Epoch previous) false g) previous
  end.
(** A remembered predecessor may have been withdrawn since. *)
Definition revalidate (t : transaction) (g : gcScan) (cp : checkpoint) : dres (gcScan * checkpoint) :=
  if pred_ready g && negb (pred_slot g =? 0) && (negb (cp_Garbage cp =? 0) || (Protected (t_ctrl t) =? cursor g)) then
    let* previous := readCheckpoint t (pred_slot g) in
    Ok (if negb (cp_Retained previous) then set_ready false g else g, previous)
  else Ok (g, checkpoint0).

(** Retired slots of [cp] pass to [previous] or to the global list. *)
Fixpoint transfer (left : nat) (t : transaction) (g : gcScan) (cp previous : checkpoint) (changed : bool)
    : dres (nat * transaction * checkpoint * checkpoint * bool) :=
  match left with
  | O => Ok (O, t, cp, previous, changed)
  | S left' =>
      let s := cp_Garbage cp in
      if s =? 0 then Ok (left, t, cp, previous, changed)
      else
        let* d := desc t s in
        if negb (Kind d =? kindGarbage) || (dNext d =? s) then Err (DiffErr "diffstore: invalid retired chain")
        else
          let cp := set_cpGarbage (dNext d) cp in
          if negb (pred_slot g =? 0) && (Birth d <=? cp_Epoch previous) then
            let* t := setDesc t s (mkDescriptor (Birth d) (cp_Garbage previous) (Kind d)) in
            transfer left' t g cp (set_cpGarbage s previous) true
          else
            let d := mkDescriptor (Birth d) (Garbage (t_ctrl t)) (Kind d) in
            let t := set_ctrl (set_Garbage s (t_ctrl t)) t in
            let* t := setDesc t s d in
            transfer left' t g cp previous changed
  end.

(** Try the lock of a withdrawn version a reader held. *)
Definition try_pin (pin : Z -> dres unit) (g : gcScan) (cp : checkpoint) : dres (gcScan * checkpoint) :=
  if cp_Pending cp && cp_Retained cp then
    match pin (cursor g) with
    | Ok _ => Ok (g, set_flags (cp_Visible cp) false (cp_Pending cp) cp)
    | Err ErrBusy => Ok (set_blocked (u64 (blocked g + 1)) g, cp)
    | Err e => Err e
    end
  else Ok (g, cp).
(** What is known about the predecessor of the version under the cursor. *)
Definition start_pred (t : transaction) (g : gcScan) (cp : checkpoint) : gcScan :=
  if negb (pred_for g =? cursor g)
  then set_pred (cp_Previous cp) (cursor g) (cp_Epoch cp) ((cp_Garbage cp =? 0) && negb (Protected (t_ctrl t) =? cursor g)) g
  else g.
(** The budgets left and the state a step of the walk hands on. *)
Record gcWork := mkWork { wk_discovery : nat; wk_transfers : nat; wk_scan : gcScan; wk_cp : checkpoint; wk_tx : transaction }.
(** The predecessor is known: pass everything on, and finish the version when it owns nothing. *)
Definition hand_over (w : gcWork) (previous : checkpoint) : dres gcWork :=
  let g := wk_scan w in
  let t := wk_tx w in
  let t := if Protected (t_ctrl t) =? cursor g then set_ctrl (set_Protected (pred_slot g) (t_ctrl t)) t else t in
  let* (rest, t, cp, previous, changed) := transfer (wk_transfers w) t g (wk_cp w) previous false in
  let* t := if changed then putCheckpoint t (pred_slot g) previous else Ok t in
  if (cp_Garbage cp =? 0) && (cp_Bitmap cp =? 0) then
    Ok (mkWork (wk_discovery w) rest g (set_flags (cp_Visible cp) (cp_Retained cp) false cp)
          (set_ctrl (set_Pending (u64 (Pending (t_ctrl t) - 1)) (t_ctrl t)) t))
  else Ok (mkWork (wk_discovery w) rest g cp t).
Definition reclaim (w : gcWork) : dres gcWork :=
  let* (released, cp, t) := releaseBitmap (wk_tx w) (wk_cp w) (wk_transfers w) in
  let g := start_pred t (wk_scan w) cp in
  let* (g, previous) := revalidate t g cp in
  let* (rest, g, previous) := discover (wk_discovery w) t g previous in
  let g := if pred_slot g =? 0 then set_ready true g else g in
  let w := mkWork rest (wk_transfers w - released) g cp t in
  if pred_ready g then hand_over w previous else Ok w.
(** One turn of the walk, up to the decision where to go next. *)
Definition visit (pin : Z -> dres unit) (discovery transfers : nat) (g : gcScan) (t : transaction) : dres gcWork :=
  let* original := readCheckpoint t (cursor g) in
  let* (g, cp) := try_pin pin g original in
  let w := mkWork discovery transfers g cp t in
  let* w := if cp_Pending cp && negb (cp_Retained cp) then reclaim w else Ok w in
  if bool_decide (wk_cp w = original) then Ok w
  else
    let* t := putCheckpoint (wk_tx w) (cursor (wk_scan w)) (wk_cp w) in
    Ok (mkWork (wk_discovery w) (wk_transfers w) (wk_scan w) (wk_cp w) t).

(** The walk, of at most [visits] turns; whether only readers hold it up, and where it stopped. *)
Fixpoint walk (pin : Z -> dres unit) (deletions : Z) (visits discovery transfers : nat) (g : gcScan) (t : transaction)
    : dres (bool * gcScan * transaction) :=
  match visits with
  | O => Ok (false, g, t)
  | S visits =>
      if cursor g =? 0 then Ok (false, g, t)
      else if limit g <=? visited g then Err (DiffErr "diffstore: GC checkpoint chain cycle")
      else
        let* w := visit pin discovery transfers g t in
        let g := wk_scan w in
        let t := wk_tx w in
        let cp := wk_cp w in
        if cp_Pending cp && negb (cp_Retained cp) then Ok (false, g, t)
        else if cursor g =? tail g then
          Ok ((generation g =? deletions) && (blocked g =? Pending (t_ctrl t)) && negb (Pending (t_ctrl t) =? 0), gcScan0, t)
        else if cp_Next cp =? 0 then Err (DiffErr "diffstore: GC round lost its tail")
        else walk pin deletions visits (wk_discovery w) (wk_transfers w) (advance (cp_Next cp) g) t
  end.
Definition start_scan (deletions : Z) (c : control) (g : gcScan) : gcScan :=
  if cursor g =? 0 then mkScan (Head c) (Tail c) deletions 0 (Next c) 0 0 0 0 false else g.
Definition gcVersions (pin : Z -> dres unit) (deletions : Z) (g : gcScan) (t : transaction) (budget : nat)
    : dres (bool * gcScan * transaction) :=
  walk pin deletions budget budget budget (start_scan deletions (t_ctrl t) g) t.

(** ** Punching pages *)

Definition adjacent_slots (r : list Z) : Prop := forall i s, r !! i = Some s -> exists s0, head r = Some s0 /\ slotPage s = slotPage s0 + Z.of_nat i.
Lemma slot_runs_concat l : concat (slot_runs l) = l.
Proof.
  induction l as [|d l IH]; [done|]. cbn [slot_runs]. destruct (slot_runs l) as [|[|e g] gs]; cbn in *; [by rewrite IH|by rewrite IH|].
  destruct (_ =? _); cbn; by rewrite IH.
Qed.
Lemma slot_runs_adjacent l r : r ∈ slot_runs l -> adjacent_slots r.
Proof.
  revert r. induction l as [|d l IH]; intros r Hr; [by apply elem_of_nil in Hr|].
  assert (adjacent_slots [d]) as H1 by (intros [|i] s; [intros [= <-]; exists d; split; [done|lia]|done]).
  cbn [slot_runs] in Hr. destruct (slot_runs l) as [|[|e g] gs] eqn:E.
  - apply list_elem_of_singleton in Hr as ->. done.
  - apply elem_of_cons in Hr as [->|Hr]; [done|by apply IH].
  - destruct (slotPage e =? slotPage d + 1) eqn:Ed; [|apply elem_of_cons in Hr as [->|Hr]; [done|by apply IH]].
    bool_prop. apply elem_of_cons in Hr as [->|Hr]; [|apply IH; by right].
    intros [|i] s Hi; [injection Hi as <-; exists d; split; [done|lia]|]. exists d. split; [done|].
    destruct (IH (e :: g) ltac:(by left) i s Hi) as (s0 & [= <-] & ->). lia.
Qed.
Lemma punch_hole_page f p n q : page_at (punch_hole f p n) q = if decide (p <= q < p + Z.of_nat n) then zeroPage else page_at f q.
Proof.
  unfold punch_hole. induction n as [|n IH]; [rewrite decide_False by lia; done|].
  rewrite seq_S, fold_left_app. cbn [fold_left]. unfold page_at at 1. cbn [punchPage fpages].
  destruct (decide (q = p + Z.of_nat (0 + n))) as [->|Hq].
  - rewrite lookup_delete_eq, decide_True by lia. done.
  - rewrite lookup_delete_ne by done. fold (page_at (fold_left (fun f i => punchPage f (p + Z.of_nat i)) (seq 0 n) f) q).
    rewrite IH. destruct (decide (p <= q < p + Z.of_nat n)); [rewrite decide_True by lia|rewrite decide_False by lia]; done.
Qed.
Lemma punch_hole_file f p n : flen (punch_hole f p n) = flen f /\ forall q b, fpages (punch_hole f p n) !! q = Some b -> fpages f !! q = Some b.
Proof.
  unfold punch_hole. induction n as [|n [IH1 IH2]]; [done|]. rewrite seq_S, fold_left_app. cbn. split; [done|].
  intros q b [_ Hq]%lookup_delete_Some. by apply IH2.
Qed.
Lemma punch_run_page f r q : adjacent_slots r -> page_at (punch_run f r) q = if decide (q ∈ slotPage <$> r) then zeroPage else page_at f q.
Proof.
  intros Hr. destruct r as [|s r]; [done|]. cbn [punch_run]. rewrite punch_hole_page.
  assert (q ∈ slotPage <$> s :: r <-> slotPage s <= q < slotPage s + Z.of_nat (length (s :: r))) as Hq.
  { split.
    - intros (x & -> & [i Hi]%list_elem_of_lookup_1)%list_elem_of_fmap. destruct (Hr i x Hi) as (s0 & [= <-] & ->).
      apply lookup_lt_Some in Hi. lia.
    - intros H. destruct (lookup_lt_is_Some_2 (s :: r) (Z.to_nat (q - slotPage s))) as [x Hx]; [lia|].
      destruct (Hr _ x Hx) as (s0 & [= <-] & E). apply list_elem_of_fmap. exists x. split; [lia|by eapply list_elem_of_lookup_2]. }
  destruct (decide (q ∈ slotPage <$> s :: r)) as [Hi|Hi]; rewrite Hq in Hi; [by rewrite decide_True|by rewrite decide_False].
Qed.
Lemma punch_runs_page rs f q : (forall r, r ∈ rs -> adjacent_slots r) ->
  page_at (fold_left punch_run rs f) q = if decide (q ∈ slotPage <$> concat rs) then zeroPage else page_at f q.
Proof.
  revert f. induction rs as [|r rs IH]; intros f Ha; [done|]. cbn [fold_left concat].
  rewrite IH by (intros; apply Ha; by right). rewrite punch_run_page by (apply Ha; by left). rewrite fmap_app.
  destruct (decide (q ∈ slotPage <$> concat rs)); [rewrite decide_True; [done|apply elem_of_app; by right]|].
  destruct (decide (q ∈ slotPage <$> r)); [rewrite decide_True; [done|apply elem_of_app; by left]|].
  rewrite decide_False; [done|]. by rewrite elem_of_app; intros [].
Qed.
(** The pages of the slots and no others are punched. *)
Lemma punch_slots_page f l q : page_at (punch_slots f l) q = if decide (q ∈ slotPage <$> l) then zeroPage else page_at f q.
Proof. unfold punch_slots. rewrite punch_runs_page by apply slot_runs_adjacent. by rewrite slot_runs_concat. Qed.
Lemma punch_slots_file f l : flen (punch_slots f l) = flen f /\ forall q b, fpages (punch_slots f l) !! q = Some b -> fpages f !! q = Some b.
Proof.
  unfold punch_slots. generalize (slot_runs l). intros rs. revert f. induction rs as [|r rs IH]; intros f; [done|].
  cbn [fold_left]. destruct (IH (punch_run f r)) as [H1 H2]. rewrite H1.
  assert (flen (punch_run f r) = flen f /\ forall q b, fpages (punch_run f r) !! q = Some b -> fpages f !! q = Some b) as [H3 H4].
  { destruct r; [done|]. apply punch_hole_file. }
  split; [done|]. intros q b Hq. by apply H4, H2.
Qed.

(** ** Slots that change hands *)

(** [relabel_fx t s d t']: the descriptor of [s] is [d] now, and nothing else changed. *)
Record relabel_fx (t : transaction) (s : Z) (d : descriptor) (t' : transaction) : Prop := {
  rl_wf : tx_wf t';
  rl_store : store t' = store t;
  rl_ctrl : t_ctrl t' = t_ctrl t;
  rl_dsc : forall x, dsc t' x = if decide (x = s) then Some d else dsc t x;
  rl_pages : forall x, 1 <= x -> t_pages t' !! slotPage x = t_pages t !! slotPage x;
  rl_nd : forall x, 1 <= x -> nd t' x = nd t x;
  rl_pe : pe t' = pe t;
  rl_private : same_private t t';
  rl_fresh : fresh t' = fresh t;
  rl_data : t_data t' = t_data t;
  rl_low : low_same t t';
  rl_allocated : allocated t' = allocated t }.
Lemma relabel_read t s d t' x : relabel_fx t s d t' -> 1 <= x -> read t' (slotPage x) = read t (slotPage x).
Proof. intros H Hx. unfold read. by rewrite (rl_pages _ _ _ _ H x Hx), (rl_store _ _ _ _ H). Qed.

(** A slot without a page in the transaction, of neither a node nor a checkpoint. *)
Definition loose (t : transaction) (s : Z) : Prop :=
  exists d, dsc t s = Some d /\ (Kind d = kindGarbage \/ Kind d = kindBitmap) /\ t_pages t !! slotPage s = None.
Lemma garbage_loose t s d : tx_wf t -> dsc t s = Some d -> Kind d = kindGarbage -> loose t s.
Proof.
  intros Hwf Hd Hk. exists d. split_and!; [done|by left|]. destruct (t_pages t !! slotPage s) as [b|] eqn:E; [|done].
  pose proof (dsc_bound _ _ _ Hd). destruct (w_slotpages t Hwf s b ltac:(lia) E) as (d' & Hd' & Hk'). simplify_eq.
  rewrite Hk in Hk'. by destruct Hk'.
Qed.
Lemma relabel t s d n k : tx_wf t -> t_nodes t = ∅ -> dsc t s = Some d -> loose t s -> is_u64 n ->
  k = kindGarbage \/ k = kindFree ->
  exists t', setDesc t s (mkDescriptor (Birth d) n k) = Ok t' /\ relabel_fx t s (mkDescriptor (Birth d) n k) t'.
Proof.
  intros Hwf Hnn Hd (d0 & Hd0 & Hk & Hpg) Hn Hnk. simplify_eq. set (d' := mkDescriptor _ _ _).
  pose proof (dsc_bound _ _ _ Hd) as Hs. pose proof (dsc_ok _ _ _ Hwf Hd) as (Hb1 & _ & _).
  assert (descriptor_ok d') as Hok.
  { split_and!; cbn; [done..|]. destruct Hnk as [-> | ->]; unfold is_u64, kindGarbage, kindFree; lia. }
  destruct (w_desc t Hwf s Hs) as (b & Hb & Hc). assert (is_page b) as Hpp by exact (read_page t _ b Hwf Hb).
  rewrite (setDesc_eq _ _ _ _ Hb). eexists. split; [done|]. set (t' := set_page _ _ t).
  assert (s <> Protected (t_ctrl t)) as Hnp.
  { intros E. destruct (w_prot t Hwf ltac:(lia)) as (_ & _ & dp & Hdp & Hkp). rewrite <- E in Hdp. simplify_eq.
    rewrite Hkp in Hk. by destruct Hk. }
  pose proof (descriptorPage_area s ltac:(lia)) as Ha. split; try done.
  - apply wf_set_descriptor; [done..|left; by rewrite Hnn|by left|done|].
    destruct (w_free t Hwf) as (l & Hl & Hnd). exists l. split_and!; [done..|]. intros Hin.
    destruct (chain_kind _ _ _ _ _ Hl Hin) as (d2 & Hd2 & Hk2). simplify_eq. rewrite Hk2 in Hk. by destruct Hk.
  - apply (set_descriptor_dsc t s _ b Hs Hb Hpp Hok (w_desc t Hwf)).
  - intros x Hx. cbn. apply lookup_insert_ne. intros E. symmetry in E. apply slotPage_descriptorPage in E; [done|lia..].
  - intros x Hx. by apply set_descriptor_nd.
  - apply pe_ext; [done|]. intros H0. apply set_descriptor_cp; [done|]. destruct (w_prot t Hwf H0). lia.
  - intros q Hq. cbn. apply lookup_insert_ne. lia.
Qed.

(** Changing only the list heads of the control. *)
Lemma wf_lists t c : tx_wf t -> control_ok c -> Next c = Next (t_ctrl t) -> Protected c = Protected (t_ctrl t) ->
  Epoch c = Epoch (t_ctrl t) -> (exists l, chain (dsc t) kindFree (Free c) l /\ NoDup l) ->
  tx_wf (set_ctrl c t) /\ (forall x, dsc (set_ctrl c t) x = dsc t x) /\ (forall x, nd (set_ctrl c t) x = nd t x) /\
  pe (set_ctrl c t) = pe t.
Proof.
  intros Hwf Hc Hn Hp He (l & Hl & Hnd).
  assert (forall x, dsc (set_ctrl c t) x = dsc t x) as Hdsc.
  { intros x. apply option_eq. intros d. rewrite !dsc_Some. cbn [set_ctrl t_ctrl]. by rewrite Hn. }
  assert (pe (set_ctrl c t) = pe t) as Hpe by (by unfold pe; cbn; rewrite Hp).
  assert (forall x, nd (set_ctrl c t) x = nd t x) as Hndx.
  { intros x. unfold nd, nd_of, inspectNode, tx_reader. cbn [rd_nodes rd_next rd_read rd_total set_ctrl t_nodes t_ctrl store]. by rewrite Hn. }
  split; [|done]. destruct Hwf. split; try done.
  - cbn. by rewrite Hn.
  - cbn. by rewrite Hn.
  - cbn [set_ctrl t_ctrl]. rewrite Hn, Hp, Hdsc. done.
  - rewrite Hpe. cbn. by rewrite He.
  - by rewrite Hpe.
  - intros x b Hx. rewrite Hdsc. by apply w_slotpages.
  - intros x n Hx. rewrite Hdsc, Hpe. destruct (w_nodes x n Hx) as (? & ? & Hi). split; [done|]. split; [done|].
    unfold node_in in *. cbn. by rewrite Hn.
  - exists l. split; [|done]. eapply chain_ext; [|exact Hl]. intros x _. apply Hdsc.
Qed.

(** ** The release of a batch *)

Lemma chain_hd D kind s l : chain D kind s l -> s = default 0 (head l).
Proof. destruct l; cbn; [done|]. by intros (-> & _). Qed.
Lemma candidates_spec t budget : forall acc next l, chain (dsc t) kindGarbage next l -> NoDup (acc ++ l) ->
  candidates budget t acc next = Ok (acc ++ take budget l, default 0 (head (drop budget l))).
Proof.
  induction budget as [|budget IH]; intros acc next l Hl Hnd; cbn [candidates].
  { by rewrite take_0, app_nil_r, drop_0, <- (chain_hd _ _ _ _ Hl). }
  destruct l as [|x l]; cbn in Hl; [subst; by rewrite take_nil, app_nil_r|].
  destruct Hl as (-> & H0 & d & Hd & Hk & Hl). rewrite (proj2 (Z.eqb_neq x 0)) by done.
  rewrite bool_decide_false by (intros Hx; apply NoDup_app in Hnd as (_ & Hnd & _); apply (Hnd x Hx); by left).
  rewrite (dsc_desc _ _ _ Hd). cbn [res_bind]. rewrite Hk, Z.eqb_refl. cbn [negb].
  rewrite (IH _ _ l Hl) by (by rewrite <- app_assoc). cbn [take drop]. by rewrite <- app_assoc.
Qed.

Section Punched.
Context (t : transaction) (l : list Z) (Hwf : tx_wf t).
Context (Hl : forall s, s ∈ l -> exists d, dsc t s = Some d /\ Kind d = kindGarbage).
Let t' := set_file (punch_slots (s_file (store t)) l) t.

Lemma punched_read q : q ∉ slotPage <$> l -> read t' q = read t q.
Proof.
  intros Hq. unfold read, t', set_file. cbn. case_match; [done|]. unfold readFull.
  rewrite (proj1 (punch_slots_file _ _)), punch_slots_page, decide_False by done. done.
Qed.
Lemma punched_slot x : 1 <= x -> x ∉ l -> read t' (slotPage x) = read t (slotPage x).
Proof.
  intros Hx Hn. apply punched_read. intros (y & E & Hy)%list_elem_of_fmap. destruct (Hl y Hy) as (d & Hd & _).
  apply dsc_bound in Hd. apply slotPage_inj in E; [congruence|lia..].
Qed.
Lemma punched_desc x : 1 <= x -> read t' (descriptorPage x) = read t (descriptorPage x).
Proof.
  intros Hx. apply punched_read. intros (y & E & Hy)%list_elem_of_fmap. destruct (Hl y Hy) as (d & Hd & _).
  apply dsc_bound in Hd. symmetry in E. apply slotPage_descriptorPage in E; [done|lia..].
Qed.
Lemma punched_dsc x : dsc t' x = dsc t x.
Proof.
  apply option_eq. intros d. rewrite !dsc_Some. cbn [t' set_file t_ctrl]. fold t'.
  split; intros (Hb & b & Hr & ?); (split; [done|]); exists b; rewrite punched_desc in *; (done || lia).
Qed.
Lemma punched_protected : Protected (t_ctrl t) <> 0 ->
  readCheckpoint t' (Protected (t_ctrl t)) = readCheckpoint t (Protected (t_ctrl t)).
Proof.
  intros H0. destruct (w_prot t Hwf H0) as (? & _ & d & Hd & Hk). unfold readCheckpoint. rewrite punched_slot; [done|lia|].
  intros Hin. destruct (Hl _ Hin) as (d' & Hd' & Hk'). simplify_eq. by rewrite Hk in Hk'.
Qed.
Lemma punched_nd x : 1 <= x -> x ∉ l -> nd t' x = nd t x.
Proof.
  intros Hx Hn. unfold nd, nd_of, inspectNode, tx_reader. cbn [rd_nodes rd_next rd_read rd_total t' set_file t_nodes t_ctrl store s_size].
  fold t'. by rewrite punched_slot.
Qed.
Lemma punched_pe : pe t' = pe t.
Proof. apply pe_ext; [done|]. apply punched_protected. Qed.
Lemma punched_wf : tx_wf t'.
Proof.
  pose proof punched_pe as Hpe. pose proof punched_protected as Hcp. destruct Hwf. split; try done.
  - intros p b Hb. apply (w_file p). by apply (proj2 (punch_slots_file _ l)).
  - intros x Hx. rewrite punched_desc by lia. by apply w_desc.
  - intros H0. destruct (w_prot H0) as (? & (cp & ? & ?) & dp & ? & ?). split; [done|]. split.
    + exists cp. split; [|done]. cbn [t' set_file t_ctrl] in *. fold t'. by rewrite Hcp.
    + exists dp. by rewrite punched_dsc.
  - by rewrite Hpe.
  - by rewrite Hpe.
  - intros x b Hx Hb. rewrite punched_dsc. by eapply w_slotpages.
  - intros x n Hn. destruct (w_nodes x n Hn) as ((dx & ? & ? & ?) & ? & ?). split; [|done]. exists dx. by rewrite punched_dsc, Hpe.
  - destruct w_free as (fl & Hfl & ?). exists fl. split; [|done]. eapply chain_ext; [|exact Hfl]. intros x _. apply punched_dsc.
Qed.
End Punched.

(** The slots of [l] are free, linked in order and followed by [free]. *)
Record freed (t : transaction) (free : Z) (l : list Z) (t' : transaction) : Prop := {
  fr_wf : tx_wf t';
  fr_store : store t' = store t;
  fr_ctrl : t_ctrl t' = t_ctrl t;
  fr_dsc : forall x, x ∉ l -> dsc t' x = dsc t x;
  fr_link : forall i s, l !! i = Some s ->
    exists d, dsc t s = Some d /\ dsc t' s = Some (mkDescriptor (Birth d) (default free (l !! S i)) kindFree);
  fr_pages : forall x, 1 <= x -> t_pages t' !! slotPage x = t_pages t !! slotPage x;
  fr_nd : forall x, 1 <= x -> nd t' x = nd t x;
  fr_pe : pe t' = pe t;
  fr_private : same_private t t';
  fr_other : fresh t' = fresh t /\ t_data t' = t_data t /\ low_same t t' /\ allocated t' = allocated t }.
Lemma free_slots_spec l : forall t, tx_wf t -> t_nodes t = ∅ -> NoDup l ->
  (forall s, s ∈ l -> exists d, dsc t s = Some d /\ Kind d = kindGarbage) ->
  exists t', free_slots t l = Ok t' /\ freed t (Free (t_ctrl t)) l t'.
Proof.
  induction l as [|s l IH]; intros t Hwf Hnn Hnd Hl.
  { exists t. split; [done|]. split; try done. }
  apply NoDup_cons in Hnd as [Hs Hnd]. destruct (Hl s ltac:(by left)) as (d & Hd & Hk). cbn [free_slots].
  rewrite (dsc_desc _ _ _ Hd). cbn [res_bind].
  pose proof (w_ctrl _ Hwf) as Hc. unfold control_ok in Hc. destruct_and! Hc.
  set (n := match l with n :: _ => n | [] => Free (t_ctrl t) end).
  assert (is_u64 n) as Hn.
  { unfold n. destruct l as [|y l0]; [done|]. destruct (Hl y ltac:(by right; left)) as (dy & Hdy & _). by eapply slot_u64. }
  destruct (relabel t s d n kindFree Hwf Hnn Hd) as (t1 & -> & Hrl); [by eapply garbage_loose|done|by right|]. cbn [res_bind].
  pose proof Hrl as [Hwf1 Hst1 Hct1 Hdsc1 Hpg1 Hnd1 Hpe1 [Hkn1 Hnn1] Hfr1 Hda1 Hlo1 Hal1].
  destruct (IH t1) as (t2 & Hok & [Hwf2 Hst2 Hct2 Hdsc2 Hlk2 Hpg2 Hnd2 Hpe2 [Hkn2 Hnn2] (Hfr2 & Hda2 & Hlo2 & Hal2)]); [done|congruence|done| |].
  { intros x Hx. rewrite Hdsc1, decide_False by (by intros ->). apply Hl. by right. }
  exists t2. split; [done|]. rewrite Hct1 in Hlk2. split; try congruence.
  - intros x [Hx Hxl]%not_elem_of_cons. rewrite Hdsc2, Hdsc1, decide_False by done. done.
  - intros [|i] x Hi.
    + injection Hi as <-. exists d. split; [done|]. rewrite Hdsc2, Hdsc1, decide_True by done. unfold n. by destruct l.
    + cbn in Hi. destruct (Hlk2 i x Hi) as (dx & Hdx & ?). exists dx. split; [|done].
      rewrite Hdsc1, decide_False in Hdx; [done|]. intros ->. apply Hs. by eapply list_elem_of_lookup_2.
  - intros x Hx. by rewrite Hpg2, Hpg1.
  - intros x Hx. by rewrite Hnd2, Hnd1.
  - split; congruence.
  - split_and!; [congruence..| |congruence]. intros q Hq. by rewrite Hlo2, Hlo1.
Qed.
Lemma freed_chain t free l t' fl : freed t free l t' -> chain (dsc t) kindFree free fl -> (forall s, s ∈ l -> s ∉ fl) ->
  (forall s, s ∈ l -> s <> 0) -> chain (dsc t') kindFree (match l with s :: _ => s | [] => free end) (l ++ fl).
Proof.
  intros Hf Hfl Hd H0. assert (chain (dsc t') kindFree free fl) as Hfl'.
  { eapply chain_ext; [|exact Hfl]. intros x Hx. apply (fr_dsc _ _ _ _ Hf). intros Hxl. by apply (Hd x). }
  pose proof (fr_link _ _ _ _ Hf) as Hlk. clear Hf Hfl Hd. induction l as [|s l IH]; [done|].
  destruct (Hlk 0%nat s eq_refl) as (d & _ & Hs). cbn [app chain]. split; [done|]. split; [apply H0; by left|].
  eexists. split; [exact Hs|]. split; [done|]. cbn [dNext].
  assert (default free ((s :: l) !! 1%nat) = match l with s :: _ => s | [] => free end) as -> by (by destruct l).
  apply IH; [intros x Hx; apply H0; by right|]. intros i x Hi. apply (Hlk (S i) x Hi).
Qed.

(** [released t l t']: the slots of [l] moved from the garbage to the free list, their
    pages were punched, and nothing else changed. *)
Record released (t : transaction) (l : list Z) (t' : transaction) : Prop := {
  rs_wf : tx_wf t';
  rs_store : store t' = mkStore (punch_slots (s_file (store t)) l) (s_ctrl (store t)) (s_presence (store t)) (s_size (store t));
  rs_ctrl : t_ctrl t' = set_Free (Free (t_ctrl t')) (set_Garbage (Garbage (t_ctrl t')) (t_ctrl t));
  rs_dsc : forall x, x ∉ l -> dsc t' x = dsc t x;
  rs_kind : forall s, s ∈ l -> exists d d', dsc t s = Some d /\ Kind d = kindGarbage /\ dsc t' s = Some d' /\ Kind d' = kindFree /\ Birth d' = Birth d;
  rs_read : forall x, 1 <= x -> x ∉ l -> read t' (slotPage x) = read t (slotPage x);
  rs_nd : forall x, 1 <= x -> x ∉ l -> nd t' x = nd t x;
  rs_pages : forall x, 1 <= x -> t_pages t' !! slotPage x = t_pages t !! slotPage x;
  rs_free : forall fl, chain (dsc t) kindFree (Free (t_ctrl t)) fl -> chain (dsc t') kindFree (Free (t_ctrl t')) (l ++ fl);
  rs_pe : pe t' = pe t;
  rs_private : same_private t t';
  rs_other : fresh t' = fresh t /\ t_data t' = t_data t /\ low_same t t' /\ allocated t' = allocated t }.
Lemma chain_nonzero D kind s l x : chain D kind s l -> x ∈ l -> x <> 0.
Proof.
  revert s. induction l as [|y l IH]; intros s Hl Hx; [by apply elem_of_nil in Hx|]. destruct Hl as (_ & ? & d & _ & _ & Hl).
  apply elem_of_cons in Hx as [->|Hx]; [done|by eapply IH].
Qed.
Lemma chain_drop D kind s l n : chain D kind s l -> chain D kind (default 0 (head (drop n l))) (drop n l).
Proof.
  revert s n. induction l as [|x l IH]; intros s n Hl; [by rewrite drop_nil|]. destruct n as [|n]; [by destruct Hl as (-> & ?)|].
  destruct Hl as (_ & _ & d & _ & _ & Hl). by apply (IH (dNext d)).
Qed.
Lemma gcRelease_spec t g0 budget : tx_wf t -> t_nodes t = ∅ -> chain (dsc t) kindGarbage (Garbage (t_ctrl t)) g0 -> NoDup g0 ->
  exists l t', gcRelease t budget = Ok (l, t') /\ l ≡ₚ take budget g0 /\ released t l t' /\
    Garbage (t_ctrl t') = default 0 (head (drop budget g0)) /\ chain (dsc t') kindGarbage (Garbage (t_ctrl t')) (drop budget g0).
Proof.
  intros Hwf Hnn Hg Hnd. unfold gcRelease. rewrite (candidates_spec t budget [] _ g0 Hg Hnd). cbn [res_bind app].
  assert (NoDup (take budget g0 ++ drop budget g0)) as Hsp by (by rewrite take_drop).
  apply NoDup_app in Hsp as (Hndt & Hdis & Hndd). set (nx := default 0 (head (drop budget g0))).
  rewrite bool_decide_false; last first.
  { intros Hin. apply (Hdis nx Hin). apply elem_of_take in Hin as (i & Hi & _).
    pose proof (chain_nonzero _ _ _ _ nx Hg ltac:(by eapply list_elem_of_lookup_2)) as H0. unfold nx in *. by destruct (drop budget g0); [|left]. }
  set (l := merge_sort _ (take budget g0)). assert (l ≡ₚ take budget g0) as Hperm by apply merge_sort_Permutation.
  assert (forall s, s ∈ l -> exists d, dsc t s = Some d /\ Kind d = kindGarbage) as Hl.
  { intros s Hs. rewrite Hperm in Hs. apply elem_of_take in Hs as (i & Hi & _). eapply chain_kind; [exact Hg|by eapply list_elem_of_lookup_2]. }
  assert (NoDup l) as Hndl by (by rewrite Hperm).
  set (t1 := set_file _ t). cbn zeta.
  destruct (free_slots_spec l t1) as (t2 & -> & Hf); [by apply punched_wf|done|done|intros s Hs; unfold t1; rewrite punched_dsc by done; by apply Hl|].
  cbn [res_bind]. pose proof Hf as [Hwf2 Hst2 Hct2 Hdsc2 Hlk2 Hpg2 Hnd2 Hpe2 Hpr2 Hoth2].
  set (c' := match l with s :: _ => set_Free s (set_Garbage nx (t_ctrl t2)) | [] => set_Garbage nx (t_ctrl t2) end).
  destruct (w_free t Hwf) as (fl & Hfl & Hndf).
  assert (forall s, s ∈ l -> s ∉ fl) as Hdf.
  { intros s Hs Hin. destruct (Hl s Hs) as (d & Hd & Hk). destruct (chain_kind _ _ _ _ _ Hfl Hin) as (d2 & Hd2 & Hk2). simplify_eq. by rewrite Hk in Hk2. }
  assert (forall s, s ∈ l -> 1 <= s /\ is_u64 s) as Hpos.
  { intros s Hs. destruct (Hl s Hs) as (d & Hd & _). split; [apply dsc_bound in Hd; lia|exact (slot_u64 t s d Hwf Hd)]. }
  assert (Free c' = match l with s :: _ => s | [] => Free (t_ctrl t) end) as HF.
  { unfold c'. destruct l; [cbn; by rewrite Hct2|done]. }
  assert (forall fl', chain (dsc t) kindFree (Free (t_ctrl t)) fl' -> chain (dsc t2) kindFree (Free c') (l ++ fl')) as Hch.
  { intros fl' Hfl'. rewrite HF. apply (freed_chain t1 (Free (t_ctrl t1)) l t2); [done| | |].
    - eapply chain_ext; [|exact Hfl']. intros x _. by apply punched_dsc.
    - intros s Hs Hin. destruct (Hl s Hs) as (d & Hd & Hk). destruct (chain_kind _ _ _ _ _ Hfl' Hin) as (d2 & Hd2 & Hk2). simplify_eq. by rewrite Hk in Hk2.
    - intros s Hs. destruct (Hpos s Hs). lia. }
  assert (is_u64 nx) as Hnx.
  { unfold nx. destruct (drop budget g0) as [|x r] eqn:E; [unfold is_u64; cbn; lia|].
    assert (x ∈ g0) as Hin by (rewrite <- (take_drop budget g0), elem_of_app, E; right; by left).
    destruct (chain_kind _ _ _ _ _ Hg Hin) as (d & Hd & _). exact (slot_u64 t x d Hwf Hd). }
  pose proof (w_ctrl _ Hwf2) as Hc. unfold control_ok in Hc. destruct_and! Hc.
  destruct (wf_lists t2 c') as (Hwf3 & Hdsc3 & Hnd3 & Hpe3); [done| |by unfold c'; destruct l..| |].
  { unfold control_ok, c'. destruct l as [|s0 l0]; cbn; split_and!; try done. apply (Hpos s0). by left. }
  { exists (l ++ fl). split; [by apply Hch|]. apply NoDup_app. split_and!; auto. }
  assert (Garbage c' = nx) as HG by (unfold c'; by destruct l).
  exists l, (set_ctrl c' t2). split; [done|]. split; [done|]. split; [|split; [done|]].
  - split; try done.
    + cbn [set_ctrl t_ctrl]. rewrite HG. unfold c'. rewrite Hct2. change (t_ctrl t1) with (t_ctrl t). destruct l; reflexivity.
    + intros x Hx. rewrite Hdsc3, Hdsc2 by done. by apply punched_dsc.
    + intros s Hs. destruct (Hl s Hs) as (d & Hd & Hk). apply list_elem_of_lookup_1 in Hs as [i Hi]. destruct (Hlk2 i s Hi) as (d1 & Hd0 & Hd1).
      unfold t1 in Hd0. rewrite punched_dsc in Hd0 by done. simplify_eq. exists d. eexists. split; [done|]. split; [done|]. split; [rewrite Hdsc3; exact Hd1|done].
    + intros x Hx Hn. unfold read. cbn. rewrite Hpg2, Hst2 by done. by apply (punched_slot t l).
    + intros x Hx Hn. rewrite Hnd3, Hnd2 by done. by apply punched_nd.
    + intros fl' Hfl'. cbn [set_ctrl t_ctrl]. eapply chain_ext; [|by apply Hch]. intros x _. apply Hdsc3.
    + rewrite Hpe3, Hpe2. by apply punched_pe.
  - cbn [set_ctrl t_ctrl]. rewrite HG. eapply chain_ext; [|by eapply chain_drop]. intros x Hx. rewrite Hdsc3, Hdsc2; [by apply punched_dsc|].
    rewrite Hperm. intros Ht. by apply (Hdis x).
Qed.

(** ** Who owns the retired slots *)

(** The part of the bitmap of [cp] that is not returned yet. *)
Definition bitmap_chain (t : transaction) (cp : checkpoint) (l : list Z) : Prop :=
  cp_Bitmap cp = default 0 (head l) /\ 0 <= cp_BitmapDone cp /\
  cp_BitmapDone cp + Z.of_nat (length l) = Pages (s_size (store t)) /\
  forall j s, l !! j = Some s -> dsc t s = Some (mkDescriptor (cp_Epoch cp) (default 0 (l !! S j)) kindBitmap) /\
    t_pages t !! slotPage s = None /\
    exists b B, read t (slotPage s) = Ok b /\ decode_page b (s_size (store t)) (cp_BitmapDone cp + Z.of_nat j) = Ok B.
Definition payload_kind (k : Z) : Prop := k = kindData \/ k = kindIndex \/ k = kindGarbage.

(** No slot has two owners. *)
Definition separate (L : list Z) (f : Z -> list Z) : Prop :=
  (forall x, x ∈ L -> NoDup (f x)) /\ forall x y s, x ∈ L -> y ∈ L -> s ∈ f x -> s ∈ f y -> x = y.

(** [owners t L gs bs U]: of the versions [L], version [x] owns the retired slots
    [gs x] and the bitmap slots [bs x] and reads the slots [U x]; [gs 0] is the
    global list.  A slot owned by [x] is read by no retained version after [x], and
    a slot of the global list by none at all. *)
Record owners (t : transaction) (L : list (Z * checkpoint)) (gs bs U : Z -> list Z) : Prop := {
  lg_global : chain (dsc t) kindGarbage (Garbage (t_ctrl t)) (gs 0);
  lg_chains : forall x cp, (x, cp) ∈ L -> chain (dsc t) kindGarbage (cp_Garbage cp) (gs x);
  lg_separate : separate (0 :: slots L) gs;
  lg_bitmaps : forall x cp, (x, cp) ∈ L -> bitmap_chain t cp (bs x);
  lg_bitmap_separate : separate (slots L) bs;
  lg_uses : forall x cp s, (x, cp) ∈ L -> cp_Retained cp = true -> s ∈ U x ->
    exists d, dsc t s = Some d /\ payload_kind (Kind d) /\ Birth d <= cp_Epoch cp;
  lg_late : forall x cp y cq s, (x, cp) ∈ L -> s ∈ gs x -> (y, cq) ∈ L -> cp_Retained cq = true -> s ∈ U y ->
    cp_Epoch cq <= cp_Epoch cp;
  lg_dead : forall y cq s, (y, cq) ∈ L -> cp_Retained cq = true -> s ∈ U y -> s ∉ gs 0 }.
(** [ledger t L gs bs U]: and [L] are the versions of [t]. *)
Record ledger (t : transaction) (L : list (Z * checkpoint)) (gs bs U : Z -> list Z) : Prop := {
  lg_catalog : catalog t L;
  lg_owners :> owners t L gs bs U }.
Lemma slots_in L x (cp : checkpoint) : (x, cp) ∈ L -> x ∈ slots L.
Proof. intros Hin. apply list_elem_of_fmap. by exists (x, cp). Qed.
Lemma catalog_nonzero t L : catalog t L -> 0 ∉ slots L.
Proof.
  intros Hcat ([x cp] & E & Hin)%list_elem_of_fmap. cbn in E. subst x. apply list_elem_of_lookup_1 in Hin as [i Hi].
  destruct (catalog_slot t L Hcat i 0 cp Hi). lia.
Qed.

(** The contents of a version: the mapping [l], read through the slots [u]. *)
Definition version_at (t : transaction) (cp : checkpoint) (u : list Z) (l : list entry) : Prop :=
  (cp_Root cp = 0 /\ l = []) \/
  exists h f, tree (nd t) h (cp_Root cp) l f /\ (forall x, x ∈ f -> x ∈ u) /\ forall e, e ∈ l -> slot e ∈ u.
Lemma version_keep t t' cp u l : (forall x, x ∈ u -> nd t' x = nd t x) -> version_at t cp u l -> version_at t' cp u l.
Proof.
  intros Hn [?|(h & f & Ht & Hf & He)]; [by left|]. right. exists h, f. split; [|done].
  eapply tree_ext; [|exact Ht]. intros x n Hx. by rewrite Hn by auto.
Qed.

Section ReleaseLedger.
Context (t t' : transaction) (L : list (Z * checkpoint)) (l : list Z) (gs bs U : Z -> list Z) (budget : nat).
Context (Hlg : ledger t L gs bs U) (Hrs : released t l t') (Hl : l ≡ₚ take budget (gs 0)).
Context (Hg' : chain (dsc t') kindGarbage (Garbage (t_ctrl t')) (drop budget (gs 0))).
Definition after_release (x : Z) : list Z := if x =? 0 then drop budget (gs 0) else gs x.

Lemma released_from s : s ∈ l -> s ∈ gs 0.
Proof. intros Hs. rewrite Hl in Hs. apply elem_of_take in Hs as (i & Hi & _). by eapply list_elem_of_lookup_2. Qed.
Lemma after_release_in x s : s ∈ after_release x -> s ∈ gs x.
Proof.
  unfold after_release. destruct (x =? 0) eqn:E; [|done]. bool_prop. subst x.
  intros Hs. rewrite <- (take_drop budget (gs 0)), elem_of_app. by right.
Qed.
Lemma released_not s d : dsc t s = Some d -> Kind d <> kindGarbage -> s ∉ l.
Proof. intros Hd Hk Hs. destruct (rs_kind _ _ _ Hrs s Hs) as (d1 & _ & Hd1 & Hk1 & _). congruence. Qed.
Lemma released_holds x cp : holds_cp t x cp -> holds_cp t' x cp.
Proof.
  intros ((d & Hd & Hk) & Hcp & Hok). assert (x ∉ l) as Hn by (eapply released_not; [done|by rewrite Hk]).
  split; [exists d; by rewrite (rs_dsc _ _ _ Hrs)|]. split; [|done]. unfold readCheckpoint.
  rewrite (rs_read _ _ _ Hrs); [done|apply dsc_bound in Hd; lia|done].
Qed.
Lemma released_catalog : catalog t' L.
Proof.
  assert (Head (t_ctrl t') = Head (t_ctrl t) /\ Tail (t_ctrl t') = Tail (t_ctrl t) /\ Epoch (t_ctrl t') = Epoch (t_ctrl t) /\
    Protected (t_ctrl t') = Protected (t_ctrl t) /\ Pending (t_ctrl t') = Pending (t_ctrl t)) as (Hh & Ht & He & Hp & Hpd)
    by (rewrite (rs_ctrl _ _ _ Hrs); done).
  destruct (lg_catalog _ _ _ _ _ Hlg) as [[] Hcp]. split; [split; rewrite ?Hh, ?Ht, ?He, ?Hp, ?Hpd; done|].
  intros x cp Hin. by apply released_holds, Hcp.
Qed.
Lemma released_used y cq s : (y, cq) ∈ L -> cp_Retained cq = true -> s ∈ U y -> 1 <= s /\ s ∉ l.
Proof.
  intros Hy Hr Hs. destruct (lg_uses _ _ _ _ _ Hlg y cq s Hy Hr Hs) as (d & Hd & _). split; [apply dsc_bound in Hd; lia|].
  intros Hin. apply (lg_dead _ _ _ _ _ Hlg y cq s Hy Hr Hs). by apply released_from.
Qed.
Lemma released_ledger : ledger t' L after_release bs U.
Proof.
  assert (s_size (store t') = s_size (store t)) as Hsz by (by rewrite (rs_store _ _ _ Hrs)).
  pose proof (lg_separate _ _ _ _ _ Hlg) as [Hsn Hsd]. pose proof (catalog_nonzero _ _ (lg_catalog _ _ _ _ _ Hlg)) as H0.
  assert (forall x, x ∈ slots L -> after_release x = gs x) as Hgx.
  { intros x Hx. unfold after_release. rewrite (proj2 (Z.eqb_neq x 0)); [done|]. by intros ->. }
  pose proof (fun x cp H => lg_bitmaps _ _ _ _ _ Hlg x cp H) as Hbm. split; [apply released_catalog|].
  destruct (lg_owners _ _ _ _ _ Hlg). split; try done.
  - intros x cp Hin. apply slots_in in Hin as Hx. rewrite Hgx by done. eapply chain_ext; [|by apply lg_chains0].
    intros s Hs. apply (rs_dsc _ _ _ Hrs). intros Hsl. apply H0. rewrite <- (Hsd x 0 s); [done|by right|by left|done|by apply released_from].
  - split.
    + intros x Hx. unfold after_release. destruct (x =? 0); [|by apply Hsn].
      pose proof (Hsn 0 ltac:(by left)) as Hnd. rewrite <- (take_drop budget (gs 0)) in Hnd. by apply NoDup_app in Hnd as (_ & _ & ?).
    + intros x y s Hx Hy Hsx Hsy. apply (Hsd x y s); [done|done|by apply after_release_in..].
  - intros x cp Hin. destruct (Hbm x cp Hin) as (? & ? & ? & Hc). unfold bitmap_chain. rewrite Hsz. split_and!; try done.
    intros j s Hj. destruct (Hc j s Hj) as (Hd & Hp & b & B & Hb & HB). assert (s ∉ l) as Hn by (by eapply released_not).
    apply dsc_bound in Hd as Hsb. split; [by rewrite (rs_dsc _ _ _ Hrs)|]. split; [rewrite (rs_pages _ _ _ Hrs); [done|lia]|].
    exists b, B. split; [|done]. rewrite (rs_read _ _ _ Hrs); [done|lia|done].
  - intros x cp s Hin Hr Hs. destruct (released_used x cp s Hin Hr Hs) as [_ Hn]. rewrite (rs_dsc _ _ _ Hrs) by done. by eapply lg_uses0.
  - intros x cp y cq s Hx Hs. apply (lg_late0 x cp y cq s Hx). by apply after_release_in.
  - intros y cq s Hy Hr Hs Hin. apply (lg_dead0 y cq s Hy Hr Hs). by apply (after_release_in 0).
Qed.
End ReleaseLedger.

(** ** Slots moving between owners *)

(** [L'] lists the versions of [L] with records that claim no more. *)
Definition relists (L L' : list (Z * checkpoint)) (same : Z -> checkpoint -> checkpoint -> Prop) : Prop :=
  slots L' = slots L /\ forall y c, (y, c) ∈ L' -> exists c0, (y, c0) ∈ L /\ cp_Epoch c = cp_Epoch c0 /\
    (cp_Retained c = true -> cp_Retained c0 = true) /\ same y c0 c.
Lemma owners_relist t L L' gs bs U : owners t L gs bs U ->
  relists L L' (fun _ c0 c => cp_Garbage c = cp_Garbage c0 /\ cp_Bitmap c = cp_Bitmap c0 /\ cp_BitmapDone c = cp_BitmapDone c0) ->
  owners t L' gs bs U.
Proof.
  intros Ho [Hsl HL]. destruct Ho. split; rewrite ?Hsl; try done.
  - intros y c Hy. destruct (HL y c Hy) as (c0 & Hy0 & _ & _ & -> & _). by apply lg_chains0.
  - intros y c Hy. destruct (HL y c Hy) as (c0 & Hy0 & He & _ & _ & Hb & Hd). unfold bitmap_chain. rewrite He, Hb, Hd. by apply lg_bitmaps0.
  - intros y c s Hy Hr Hs. destruct (HL y c Hy) as (c0 & Hy0 & -> & Hr0 & _). eapply lg_uses0; [done|by apply Hr0|done].
  - intros x cx y c s Hx Hsx Hy Hr Hs. destruct (HL x cx Hx) as (c1 & Hx1 & -> & _). destruct (HL y c Hy) as (c0 & Hy0 & -> & Hr0 & _).
    eapply lg_late0; [done..|by apply Hr0|done].
  - intros y c s Hy Hr Hs. destruct (HL y c Hy) as (c0 & Hy0 & _ & Hr0 & _). eapply lg_dead0; [done|by apply Hr0|done].
Qed.

(** The descriptor of [s] changed; the pages, and the sizes, did not. *)
Record redesc (t : transaction) (s : Z) (d : descriptor) (t' : transaction) : Prop := {
  rd_dsc : forall x, dsc t' x = if decide (x = s) then Some d else dsc t x;
  rd_pages : forall x, 1 <= x -> t_pages t' !! slotPage x = t_pages t !! slotPage x;
  rd_store : store t' = store t }.
Lemma redesc_bitmap t s d t' cp l : redesc t s d t' -> s ∉ l -> bitmap_chain t cp l -> bitmap_chain t' cp l.
Proof.
  intros [Hd Hp Hst] Hs (H1 & H2 & H3 & Hc). unfold bitmap_chain. rewrite Hst. split_and!; try done. intros j x Hj.
  destruct (Hc j x Hj) as (Hx & Hpx & b & B & Hb & HB). apply dsc_bound in Hx as ?. assert (x <> s) as Hne.
  { intros ->. apply Hs. by eapply list_elem_of_lookup_2. }
  split; [by rewrite Hd, decide_False|]. split; [rewrite Hp; [done|lia]|]. exists b, B. split; [|done].
  unfold read in *. rewrite Hp by lia. by rewrite Hst.
Qed.
Lemma redesc_chain t s d t' kind h l : redesc t s d t' -> s ∉ l -> chain (dsc t) kind h l -> chain (dsc t') kind h l.
Proof. intros [Hd _ _] Hs Hl. eapply chain_ext; [|exact Hl]. intros x Hx. rewrite Hd, decide_False; [done|]. by intros ->. Qed.
Lemma redesc_uses t s d d' t' (Hrd : redesc t s d' t') x k : dsc t s = Some d -> Birth d' = Birth d -> payload_kind (Kind d') ->
  (exists d0, dsc t x = Some d0 /\ payload_kind (Kind d0) /\ Birth d0 <= k) -> exists d0, dsc t' x = Some d0 /\ payload_kind (Kind d0) /\ Birth d0 <= k.
Proof.
  intros Hd Hb Hk (d0 & Hd0 & Hk0 & Hb0). rewrite (rd_dsc _ _ _ _ Hrd). case_decide as E; [|eauto]. subst x. simplify_eq.
  exists d'. split_and!; [done..|lia].
Qed.

Definition moved (s from to : Z) (gs : Z -> list Z) (y : Z) : list Z :=
  if y =? to then s :: gs to else if y =? from then drop 1 (gs from) else gs y.
Lemma moved_in s from to gs y z : z ∈ moved s from to gs y -> z = s /\ y = to \/ z ∈ gs y.
Proof.
  unfold moved. destruct (y =? to) eqn:E1; bool_prop; [subst; intros [->|?]%elem_of_cons; auto|].
  destruct (y =? from) eqn:E2; bool_prop; [|auto]. subst. intros Hz. right. destruct (gs from); [done|by right].
Qed.
Lemma moved_separate s from to gs S : separate S gs -> from ∈ S -> to ∈ S -> from <> to -> head (gs from) = Some s ->
  separate S (moved s from to gs).
Proof.
  intros [Hn Hd] Hf Ht Hne Hh. destruct (gs from) as [|s' rest] eqn:E; [done|]. injection Hh as ->.
  assert (s ∈ gs from) as Hs by (rewrite E; by left).
  assert (forall y, y ∈ S -> y <> to -> s ∉ moved s from to gs y) as Hno.
  { intros y Hy Hyt. unfold moved. rewrite (proj2 (Z.eqb_neq y to)) by done. destruct (y =? from) eqn:Ey; bool_prop.
    - subst. rewrite E. cbn. pose proof (Hn from Hf) as Hnf. rewrite E in Hnf. by apply NoDup_cons in Hnf as [? _].
    - intros Hin. apply Ey. by apply (Hd y from s). }
  split.
  - intros y Hy. unfold moved. destruct (y =? to) eqn:E1; bool_prop.
    + subst. apply NoDup_cons. split; [|by apply Hn]. intros Hin. apply Hne. by apply (Hd from to s).
    + destruct (y =? from); [|by apply Hn]. rewrite E. cbn. pose proof (Hn from Hf) as Hnf. rewrite E in Hnf. by apply NoDup_cons in Hnf as [_ ?].
  - intros x y z Hx Hy Hzx Hzy. destruct (decide (z = s)) as [->|Hzs].
    + destruct (decide (x = to)) as [->|Hxt]; [|by destruct (Hno x Hx Hxt)]. destruct (decide (y = to)) as [->|Hyt]; [done|by destruct (Hno y Hy Hyt)].
    + apply moved_in in Hzx as [[? _]|Hzx]; [done|]. apply moved_in in Hzy as [[? _]|Hzy]; [done|]. by apply (Hd x y z).
Qed.

(** The first retired slot of [x] passes to the owner [to]. *)
Lemma owners_move t t' L L' gs bs U x cp to s rest d :
  owners t L gs bs U -> (x, cp) ∈ L -> x <> to -> x <> 0 -> to ∈ 0 :: slots L -> gs x = s :: rest -> dsc t s = Some d ->
  redesc t s (mkDescriptor (Birth d) (default 0 (head (gs to))) kindGarbage) t' ->
  Garbage (t_ctrl t') = (if to =? 0 then s else Garbage (t_ctrl t)) ->
  relists L L' (fun y c0 c => cp_Garbage c = (if y =? to then s else if y =? x then dNext d else cp_Garbage c0) /\
    cp_Bitmap c = cp_Bitmap c0 /\ cp_BitmapDone c = cp_BitmapDone c0) ->
  (forall y cy, (y, cy) ∈ L -> cp_Retained cy = true -> s ∈ U y -> to <> 0 /\ forall ct, (to, ct) ∈ L -> cp_Epoch cy <= cp_Epoch ct) ->
  0 ∉ slots L -> NoDup (slots L) ->
  owners t' L' (moved s x to gs) bs U.
Proof.
  intros Ho Hx Hxt Hx0 Hto Hgx Hd Hrd Hg [Hsl HL] Hsafe H0 Hnds. pose proof (slots_in _ _ _ Hx) as Hxs.
  pose proof (lg_separate _ _ _ _ _ Ho) as [Hn Hsd]. assert (s ∈ gs x) as Hsx by (rewrite Hgx; by left).
  pose proof (lg_chains _ _ _ _ _ Ho x cp Hx) as Hcx. rewrite Hgx in Hcx. destruct Hcx as (Hcg & Hs0 & d' & Hd' & Hk & Hcr).
  assert (d' = d) as -> by congruence.
  assert (s ∉ rest) as Hsr by (pose proof (Hn x ltac:(by right)) as Hnx; rewrite Hgx in Hnx; by apply NoDup_cons in Hnx as [? _]).
  assert (forall y, y ∈ 0 :: slots L -> y <> x -> s ∉ gs y) as Hother.
  { intros y Hy Hyx Hin. apply Hyx. apply (Hsd y x s); [done|by right|done|done]. }
  assert (chain (dsc t') kindGarbage s (s :: gs to)) as Hct.
  { split; [done|]. split; [done|]. eexists. rewrite (rd_dsc _ _ _ _ Hrd), decide_True by done. split; [done|]. split; [done|]. cbn [dNext].
    apply (redesc_chain _ _ _ _ _ _ _ Hrd); [by apply Hother; [|congruence]|].
    apply elem_of_cons in Hto as [->|([p cq] & -> & Hp)%list_elem_of_fmap].
    - pose proof (lg_global _ _ _ _ _ Ho) as Hg0. by rewrite <- (chain_hd _ _ _ _ Hg0).
    - pose proof (lg_chains _ _ _ _ _ Ho p cq Hp) as Hgp. cbn. by rewrite <- (chain_hd _ _ _ _ Hgp). }
  assert (payload_kind kindGarbage) as Hpk by (by right; right).
  split; rewrite ?Hsl.
  - rewrite Hg. unfold moved. destruct (0 =? to) eqn:E; bool_prop.
    + subst. rewrite Z.eqb_refl. done.
    + rewrite (proj2 (Z.eqb_neq to 0)), (proj2 (Z.eqb_neq 0 x)) by done.
      apply (redesc_chain _ _ _ _ _ _ _ Hrd); [apply Hother; [by left|congruence]|apply Ho].
  - intros y c Hy. destruct (HL y c Hy) as (c0 & Hy0 & _ & _ & -> & _). unfold moved.
    destruct (y =? to) eqn:E1; bool_prop; [done|]. destruct (y =? x) eqn:E2; bool_prop.
    + rewrite Hgx. cbn. by apply (redesc_chain _ _ _ _ _ _ _ Hrd).
    + apply (redesc_chain _ _ _ _ _ _ _ Hrd); [apply Hother; [right; by eapply slots_in|done]|by apply Ho].
  - apply moved_separate; [done|by right|done|done|by rewrite Hgx].
  - intros y c Hy. destruct (HL y c Hy) as (c0 & Hy0 & He & _ & _ & Hb & Hdn).
    assert (bitmap_chain t c (bs y)) as Hbc by (unfold bitmap_chain; rewrite He, Hb, Hdn; by apply Ho).
    apply (redesc_bitmap _ _ _ _ _ _ Hrd); [|done]. intros [j Hj]%list_elem_of_lookup_1. destruct Hbc as (_ & _ & _ & Hbc).
    destruct (Hbc j s Hj) as (Hds & _). rewrite Hds in Hd'. injection Hd' as <-. done.
  - apply Ho.
  - intros y c z Hy Hr Hz. destruct (HL y c Hy) as (c0 & Hy0 & -> & Hr0 & _).
    apply (redesc_uses _ _ _ _ _ Hrd _ _ Hd'); [done|done|]. eapply lg_uses; [done..|by apply Hr0|done].
  - intros y cy w cw z Hy Hz Hw Hr Hzw. destruct (HL y cy Hy) as (c1 & Hy1 & -> & _). destruct (HL w cw Hw) as (c0 & Hw0 & -> & Hr0 & _).
    apply moved_in in Hz as [[-> ->]|Hz].
    + destruct (Hsafe w c0 Hw0 (Hr0 Hr) Hzw) as [_ He]. by apply He.
    + by eapply (lg_late _ _ _ _ _ Ho y c1 w c0 z); [..|apply Hr0|].
  - intros w cw z Hw Hr Hzw Hz. destruct (HL w cw Hw) as (c0 & Hw0 & _ & Hr0 & _). apply moved_in in Hz as [[-> E]|Hz].
    + destruct (Hsafe w c0 Hw0 (Hr0 Hr) Hzw) as [? _]. done.
    + by apply (lg_dead _ _ _ _ _ Ho w c0 z Hw0 (Hr0 Hr) Hzw).
Qed.

(** The first bitmap slot of [x] passes to the global list. *)
Lemma owners_return t t' L L' gs bs U x cp s rest d :
  owners t L gs bs U -> (x, cp) ∈ L -> bs x = s :: rest -> dsc t s = Some d -> Kind d = kindBitmap ->
  redesc t s (mkDescriptor (Birth d) (Garbage (t_ctrl t)) kindGarbage) t' -> Garbage (t_ctrl t') = s ->
  relists L L' (fun y c0 c => cp_Garbage c = cp_Garbage c0 /\
    cp_Bitmap c = (if y =? x then dNext d else cp_Bitmap c0) /\ cp_BitmapDone c = (if y =? x then cp_BitmapDone c0 + 1 else cp_BitmapDone c0)) ->
  0 ∉ slots L -> NoDup (slots L) ->
  owners t' L' (fun y => if y =? 0 then s :: gs 0 else gs y) (fun y => if y =? x then rest else bs y) U.
Proof.
  intros Ho Hx Hbx Hd Hk Hrd Hg [Hsl HL] H0 Hnds. pose proof (slots_in _ _ _ Hx) as Hxs.
  pose proof (lg_separate _ _ _ _ _ Ho) as [Hn Hsd]. pose proof (lg_bitmap_separate _ _ _ _ _ Ho) as [Hbn Hbd].
  assert (s ∈ bs x) as Hsx by (rewrite Hbx; by left). assert (s <> 0) as Hs0 by (apply dsc_bound in Hd; lia).
  assert (forall y, y ∈ 0 :: slots L -> s ∉ gs y) as Hno.
  { intros y Hy Hin. assert (exists d', dsc t s = Some d' /\ Kind d' = kindGarbage) as (d' & Hd' & Hk').
    { apply elem_of_cons in Hy as [->|([p cq] & -> & Hp)%list_elem_of_fmap]; [eapply chain_kind; [apply Ho|done]|].
      eapply chain_kind; [by apply (lg_chains _ _ _ _ _ Ho p cq)|done]. }
    simplify_eq. by rewrite Hk in Hk'. }
  assert (forall y, y ∈ slots L -> y <> x -> s ∉ bs y) as Hbo by (intros y Hy Hyx Hin; apply Hyx; by apply (Hbd y x s)).
  assert (s ∉ rest) as Hsr by (pose proof (Hbn x Hxs) as Hnx; rewrite Hbx in Hnx; by apply NoDup_cons in Hnx as [? _]).
  assert (forall y cy, (y, cy) ∈ L -> cp_Retained cy = true -> s ∉ U y) as Hnu.
  { intros y cy Hy Hr Hs. destruct (lg_uses _ _ _ _ _ Ho y cy s Hy Hr Hs) as (d' & Hd' & Hk' & _). simplify_eq.
    unfold payload_kind in Hk'. rewrite Hk in Hk'. by destruct Hk' as [|[|]]. }
  assert (forall y, y ∈ slots L -> (y =? 0) = false) as Hy0 by (intros y Hy; apply Z.eqb_neq; by intros ->).
  split; rewrite ?Hsl.
  - rewrite Hg. cbn. split; [done|]. split; [done|]. eexists. rewrite (rd_dsc _ _ _ _ Hrd), decide_True by done. split; [done|]. split; [done|].
    apply (redesc_chain _ _ _ _ _ _ _ Hrd); [apply Hno; by left|apply Ho].
  - intros y c Hy. destruct (HL y c Hy) as (c0 & Hyc & _ & _ & -> & _). apply slots_in in Hyc as Hys. rewrite Hy0 by done.
    apply (redesc_chain _ _ _ _ _ _ _ Hrd); [apply Hno; by right|by apply Ho].
  - split.
    + intros y Hy. destruct (y =? 0); [|by apply Hn]. apply NoDup_cons. split; [apply Hno; by left|apply Hn; by left].
    + intros y z w Hy Hz Hwy Hwz. assert (forall v, v ∈ 0 :: slots L -> w ∈ (if v =? 0 then s :: gs 0 else gs v) -> w = s /\ v = 0 \/ w ∈ gs v /\ w <> s) as Hin.
      { intros v Hv. destruct (v =? 0) eqn:E; bool_prop; [subst; intros [->|Hw]%elem_of_cons; [by left|]|intros Hw];
          right; (split; [done|]); intros ->; by eapply Hno. }
      destruct (Hin y Hy Hwy) as [[-> ->]|[Hwy' Hne]]; destruct (Hin z Hz Hwz) as [[? ->]|[Hwz' Hne']]; try done. by apply (Hsd y z w).
  - intros y c Hy. destruct (HL y c Hy) as (c0 & Hyc & He & _ & _ & Hb & Hdn). apply slots_in in Hyc as Hys.
    destruct (y =? x) eqn:E; bool_prop.
    + subst y. assert (c0 = cp) as ->.
      { apply list_elem_of_lookup_1 in Hyc as [i Hi]. apply list_elem_of_lookup_1 in Hx as [j Hj].
        assert (i = j) as -> by (eapply NoDup_lookup; [exact Hnds|by eapply slots_lookup..]). congruence. }
      destruct (lg_bitmaps _ _ _ _ _ Ho x cp Hx) as (B1 & B2 & B3 & B4). rewrite Hbx in *.
      apply (redesc_bitmap _ _ _ _ _ _ Hrd); [done|]. unfold bitmap_chain. rewrite He, Hb, Hdn. cbn [length] in B3.
      destruct (B4 0%nat s eq_refl) as (Hds & _). rewrite Hds in Hd. injection Hd as <-. cbn [dNext]. split_and!; [by destruct rest|lia|lia|].
      intros j z Hj. destruct (B4 (S j) z Hj) as (Hz & Hpz & b & B & Hbz & HB). split; [done|]. split; [done|]. exists b, B. split; [done|].
      by replace (cp_BitmapDone cp + 1 + Z.of_nat j) with (cp_BitmapDone cp + Z.of_nat (S j)) by lia.
    + apply (redesc_bitmap _ _ _ _ _ _ Hrd); [by apply Hbo|]. unfold bitmap_chain. rewrite He, Hb, Hdn. by apply Ho.
  - split.
    + intros y Hy. destruct (y =? x); [|by apply Hbn]. pose proof (Hbn x Hxs) as Hnx. rewrite Hbx in Hnx. by apply NoDup_cons in Hnx as [_ ?].
    + intros y z w Hy Hz Hwy Hwz. apply (Hbd y z w Hy Hz).
      * destruct (y =? x) eqn:E; bool_prop; [subst; rewrite Hbx; by right|done].
      * destruct (z =? x) eqn:E; bool_prop; [subst; rewrite Hbx; by right|done].
  - intros y c z Hy Hr Hz. destruct (HL y c Hy) as (c0 & Hyc & -> & Hr0 & _).
    apply (redesc_uses _ _ _ _ _ Hrd _ _ Hd); [done|by right; right|]. eapply lg_uses; [done..|by apply Hr0|done].
  - intros y cy w cw z Hy Hz Hw Hr Hzw. destruct (HL y cy Hy) as (c1 & Hy1 & -> & _). destruct (HL w cw Hw) as (c0 & Hw0 & -> & Hr0 & _).
    rewrite Hy0 in Hz by (by eapply slots_in). by eapply (lg_late _ _ _ _ _ Ho y c1 w c0 z); [..|apply Hr0|].
  - intros w cw z Hw Hr Hzw Hz. destruct (HL w cw Hw) as (c0 & Hw0 & _ & Hr0 & _). cbn in Hz. apply elem_of_cons in Hz as [->|Hz].
    + by apply (Hnu w c0 Hw0 (Hr0 Hr)).
    + by apply (lg_dead _ _ _ _ _ Ho w c0 z Hw0 (Hr0 Hr) Hzw).
Qed.

(** ** What the walk leaves alone *)

(** [gc_fx t t']: descriptors of retired slots were relinked, bitmap slots became
    garbage, records of versions changed; no payload or index page did. *)
Record gc_fx (t t' : transaction) : Prop := {
  gf_wf : tx_wf t';
  gf_store : store t' = store t;
  gf_dsc : forall x d, dsc t x = Some d -> exists d', dsc t' x = Some d' /\ Birth d' = Birth d /\
    (d' = d \/ Kind d' = kindGarbage /\ (Kind d = kindGarbage \/ Kind d = kindBitmap));
  gf_nd : forall x d, dsc t x = Some d -> Kind d <> kindCheckpoint -> nd t' x = nd t x;
  gf_read : forall x d, dsc t x = Some d -> Kind d <> kindCheckpoint -> read t' (slotPage x) = read t (slotPage x);
  gf_ctrl : Root (t_ctrl t') = Root (t_ctrl t) /\ Next (t_ctrl t') = Next (t_ctrl t) /\ Free (t_ctrl t') = Free (t_ctrl t) /\
    Epoch (t_ctrl t') = Epoch (t_ctrl t);
  gf_private : same_private t t';
  gf_fresh : fresh t' = fresh t;
  gf_data : t_data t' = t_data t;
  gf_low : low_same t t';
  gf_allocated : allocated t' = allocated t }.
Lemma gc_refl t : tx_wf t -> gc_fx t t.
Proof. intros. split; try done. intros x d Hd. exists d. auto. Qed.
Lemma gc_trans t t1 t2 : gc_fx t t1 -> gc_fx t1 t2 -> gc_fx t t2.
Proof.
  intros [] [W2 S2 D2 N2 R2 (? & ? & ? & ?) [? ?] F2 DA2 L2 AL2].
  destruct gf_ctrl0 as (? & ? & ? & ?), gf_private0 as [? ?]. split; try done; try congruence.
  - intros x d Hx. destruct (gf_dsc0 x d Hx) as (d1 & Hd1 & Hb1 & Hc1). destruct (D2 x d1 Hd1) as (d2 & Hd2 & Hb2 & Hc2).
    exists d2. split; [done|]. split; [congruence|]. destruct Hc2 as [->|[Hk2 Hc2]]; [done|]. right. split; [done|].
    destruct Hc1 as [->|[_ ?]]; [done|done].
  - intros x d Hx Hk. destruct (gf_dsc0 x d Hx) as (d1 & Hd1 & Hb1 & Hc1). rewrite (N2 x d1); [by eapply gf_nd0|done|].
    destruct Hc1 as [->|[-> _]]; done.
  - intros x d Hx Hk. destruct (gf_dsc0 x d Hx) as (d1 & Hd1 & Hb1 & Hc1). rewrite (R2 x d1); [by eapply gf_read0|done|].
    destruct Hc1 as [->|[-> _]]; done.
  - split_and!; congruence.
  - split; congruence.
  - intros q Hq. by rewrite L2, gf_low0.
Qed.
Lemma gc_meta t t' : meta_fx t t' -> Epoch (t_ctrl t') = Epoch (t_ctrl t) -> gc_fx t t'.
Proof.
  intros [] He. destruct mf_ctrl as (? & ? & ? & ?). split; try done. intros x d Hd. exists d. rewrite mf_dsc. auto.
Qed.
Lemma gc_relabel t s d d' t' : relabel_fx t s d' t' -> dsc t s = Some d -> Birth d' = Birth d -> Kind d' = kindGarbage ->
  Kind d = kindGarbage \/ Kind d = kindBitmap -> gc_fx t t'.
Proof.
  intros Hrl Hd Hb Hk' Hk. pose proof (fun x => relabel_read t s d' t' x Hrl) as Hrd. destruct Hrl. split; try done; try congruence.
  - intros x dx Hx. rewrite rl_dsc0. case_decide as E; [|exists dx; auto]. subst x. simplify_eq. exists d'. auto.
  - intros x dx Hx _. apply rl_nd0. apply dsc_bound in Hx. lia.
  - intros x dx Hx _. apply Hrd. apply dsc_bound in Hx. lia.
  - by rewrite rl_ctrl0.
Qed.
Lemma gc_frozen t t' e r l : gc_fx t t' -> frozen t e r l -> frozen t' e r l.
Proof.
  intros Hg (h & f & Ht & Hf). exists h, f. split.
  - eapply tree_ext; [|exact Ht]. intros x n Hx Hn. destruct (Hf x Hx) as (d & Hd & Hk & _).
    by rewrite (gf_nd _ _ Hg x d Hd) by (by destruct Hk as [-> | ->]).
  - intros x Hx. destruct (Hf x Hx) as (d & Hd & Hk & Hb). destruct (gf_dsc _ _ Hg x d Hd) as (d' & Hd' & Hb' & Hc).
    exists d'. split; [done|]. split; [|lia]. destruct Hc as [->|[-> _]]; auto.
Qed.
Lemma gc_mapping t t' levels root l fp : gc_fx t t' -> mapping t levels root l fp -> mapping t' levels root l fp.
Proof.
  intros Hg [Ht Hs Hn Hl]. split; [|done|done|].
  - destruct Ht as [?|(h & Hh & Ht)]; [by left|]. right. exists h. split; [done|].
    eapply tree_ext; [|exact Ht]. intros x n Hx Hnd. destruct (Hl x Hx) as (d & Hd & Hk).
    by rewrite (gf_nd _ _ Hg x d Hd) by (by rewrite Hk).
  - intros x Hx. destruct (Hl x Hx) as (d & Hd & Hk). destruct (gf_dsc _ _ Hg x d Hd) as (d' & Hd' & _ & Hc).
    exists d'. split; [done|]. destruct Hc as [->|[_ Hc]]; [done|]. rewrite Hk in Hc. by destruct Hc.
Qed.

(** A slot becomes the head of the global list. *)
Lemma to_global t s d : tx_wf t -> t_nodes t = ∅ -> dsc t s = Some d -> loose t s ->
  let d' := mkDescriptor (Birth d) (Garbage (t_ctrl t)) kindGarbage in
  exists t', setDesc (set_ctrl (set_Garbage s (t_ctrl t)) t) s d' = Ok t' /\ redesc t s d' t' /\ gc_fx t t' /\
    t_ctrl t' = set_Garbage s (t_ctrl t) /\ pe t' = pe t.
Proof.
  intros Hwf Hnn Hd Hlo d'. pose proof (w_ctrl _ Hwf) as Hc. unfold control_ok in Hc. destruct_and! Hc.
  assert (is_u64 s) as Hs by (by eapply slot_u64).
  destruct (wf_lists t (set_Garbage s (t_ctrl t))) as (Hwf1 & Hd1 & Hn1 & Hp1); [done|unfold control_ok; cbn; split_and!; done|done..|apply Hwf|].
  set (t1 := set_ctrl _ t) in *. assert (dsc t1 s = Some d) as Hds by (by rewrite Hd1).
  assert (loose t1 s) as Hlo1 by (destruct Hlo as (d0 & Hd0 & ? & ?); exists d0; by rewrite Hd1).
  pose proof (relabel t1 s d (Garbage (t_ctrl t)) kindGarbage Hwf1 Hnn Hds Hlo1 H2 ltac:(by left)) as (t' & Hok & Hrl).
  exists t'. split; [exact Hok|]. assert (gc_fx t1 t') as Hg.
  { destruct Hlo as (d0 & Hd0 & Hk & _). simplify_eq. by eapply gc_relabel. }
  split; [|split; [|split]].
  - destruct Hrl. split; [|done|done]. intros x. rewrite rl_dsc0. case_decide; [done|apply Hd1].
  - eapply gc_trans; [|exact Hg]. split; try done. intros x dx Hx. exists dx. rewrite Hd1. auto.
  - by rewrite (rl_ctrl _ _ _ _ Hrl).
  - by rewrite (rl_pe _ _ _ _ Hrl).
Qed.

(** ** One turn of the walk *)

(** The records of the slots [V] in the file are behind the ones in [L]. *)
Definition lags (t : transaction) (V : list Z) (L : list (Z * checkpoint)) : Prop :=
  forall y c, (y, c) ∈ L -> (exists d, dsc t y = Some d /\ Kind d = kindCheckpoint) /\ checkpoint_ok c /\
    exists c0, readCheckpoint t y = Ok c0 /\ cp_Epoch c0 = cp_Epoch c /\ (y ∉ V -> c0 = c).
Record visiting (t : transaction) (L : list (Z * checkpoint)) (V : list Z) (gs bs U : Z -> list Z) : Prop := {
  vi_wf : tx_wf t;
  vi_known : protectedKnown t = false;
  vi_nodes : t_nodes t = ∅;
  vi_size : writable_size (s_size (store t));
  vi_listing : listing (t_ctrl t) L;
  vi_lags : lags t V L;
  vi_owners : owners t L gs bs U }.
Lemma ledger_visiting t L gs bs U : tx_wf t -> protectedKnown t = false -> t_nodes t = ∅ -> writable_size (s_size (store t)) -> ledger t L gs bs U -> visiting t L [] gs bs U.
Proof.
  intros Hwf Hk Hn Hsz [[Hls Hcp] Ho]. split; try done. intros y c Hy. destruct (Hcp y c Hy) as (Hd & Hr & Hok).
  split_and!; [done..|]. by exists c.
Qed.
Lemma visiting_ledger t L gs bs U : visiting t L [] gs bs U -> ledger t L gs bs U.
Proof.
  intros [Hwf Hk Hn Hsz Hls Hlg Ho]. split; [|done]. split; [done|]. intros y c Hy. destruct (Hlg y c Hy) as (Hd & Hok & c0 & Hr & _ & E).
  rewrite <- (E (not_elem_of_nil y)) in *. by split_and!.
Qed.
Lemma visiting_nonzero t L V gs bs U : visiting t L V gs bs U -> 0 ∉ slots L.
Proof.
  intros Hv ([x cp] & E & Hin)%list_elem_of_fmap. cbn in E. subst x. destruct (vi_lags _ _ _ _ _ _ Hv 0 cp Hin) as ((d & Hd & _) & _).
  apply dsc_bound in Hd. lia.
Qed.
Lemma visiting_slot t L V gs bs U x cp : visiting t L V gs bs U -> (x, cp) ∈ L -> 1 <= x < Next (t_ctrl t).
Proof. intros Hv Hin. destruct (vi_lags _ _ _ _ _ _ Hv x cp Hin) as ((d & Hd & _) & _). by eapply dsc_bound. Qed.
Lemma visiting_pe t L V gs bs U cp : visiting t L V gs bs U -> (Protected (t_ctrl t), cp) ∈ L -> pe t = cp_Epoch cp.
Proof.
  intros Hv Hin. pose proof (visiting_slot _ _ _ _ _ _ _ _ Hv Hin). destruct (vi_lags _ _ _ _ _ _ Hv _ _ Hin) as (_ & _ & c0 & Hr & He & _).
  unfold pe. rewrite (proj2 (Z.eqb_neq _ _)), Hr by lia. done.
Qed.
Lemma slots_insert L i x (cp cp' : checkpoint) : L !! i = Some (x, cp) -> slots (<[i := (x, cp')]> L) = slots L.
Proof. intros Hi. unfold slots. by eapply insert_map. Qed.
Lemma relists_insert L i x cp cp' same : NoDup (slots L) -> L !! i = Some (x, cp) -> cp_Epoch cp' = cp_Epoch cp ->
  (cp_Retained cp' = true -> cp_Retained cp = true) -> same x cp cp' -> (forall y c, y <> x -> same y c c) -> relists L (<[i := (x, cp')]> L) same.
Proof.
  intros Hnd Hi He Hr Hs Ho. split; [by eapply slots_insert|]. intros y c [j Hj]%list_elem_of_lookup_1.
  destruct (insert_lookup L i x cp cp' j y c Hnd Hi Hj) as [(_ & Hne & Hj')|(-> & -> & ->)].
  - exists c. split; [by eapply list_elem_of_lookup_2|]. auto.
  - exists cp. split; [by eapply list_elem_of_lookup_2|]. auto.
Qed.
Lemma lags_insert t V L i x cp cp' : NoDup (slots L) -> L !! i = Some (x, cp) -> cp_Epoch cp' = cp_Epoch cp -> checkpoint_ok cp' ->
  lags t V L -> lags t (x :: V) (<[i := (x, cp')]> L).
Proof.
  intros Hnd Hi He Hok Hl y c [j Hj]%list_elem_of_lookup_1.
  destruct (insert_lookup L i x cp cp' j y c Hnd Hi Hj) as [(_ & Hne & Hj')|(-> & -> & ->)].
  - destruct (Hl y c ltac:(by eapply list_elem_of_lookup_2)) as (? & ? & c0 & ? & ? & E). split_and!; [done..|]. exists c0. split_and!; [done..|].
    intros Hn. apply E. intros Hy. apply Hn. by right.
  - destruct (Hl x cp ltac:(by eapply list_elem_of_lookup_2)) as (? & ? & c0 & ? & ? & E). split_and!; [done..|]. exists c0. split_and!; [done|congruence|].
    intros Hn. exfalso. apply Hn. by left.
Qed.
(** Changing flags of the record in memory. *)
Lemma visiting_flags t L V gs bs U i x cp cp' : visiting t L V gs bs U -> L !! i = Some (x, cp) ->
  cp_ID cp' = cp_ID cp -> cp_Next cp' = cp_Next cp -> cp_Previous cp' = cp_Previous cp -> cp_Epoch cp' = cp_Epoch cp ->
  cp_Garbage cp' = cp_Garbage cp -> cp_Bitmap cp' = cp_Bitmap cp -> cp_BitmapDone cp' = cp_BitmapDone cp ->
  cp_Pending cp' = cp_Pending cp -> cp_Visible cp' = cp_Visible cp -> cp_Visible cp = false ->
  (cp_Retained cp' = true -> cp_Retained cp = true) -> checkpoint_ok cp' ->
  visiting t (<[i := (x, cp')]> L) (x :: V) gs bs U.
Proof.
  intros Hv Hi Hid Hn Hp He Hg Hb Hbd Hpd Hvis Hv0 Hr Hok. pose proof (cat_nodup _ _ (vi_listing _ _ _ _ _ _ Hv)) as Hnd.
  destruct Hv. split; try done.
  - apply (listing_update (t_ctrl t) (t_ctrl t) L i x cp cp'); try done; [congruence| |].
    + eapply shields_insert; [done|done|apply vi_listing0].
    + rewrite (cat_pending _ _ vi_listing0). f_equal. apply pending_map. symmetry. eapply insert_map; [done|]. cbn. done.
  - by eapply lags_insert.
  - eapply owners_relist; [done|]. by eapply relists_insert.
Qed.

Lemma lags_dup t V L x : x ∈ V -> lags t (x :: V) L -> lags t V L.
Proof.
  intros Hx Hl y c Hy. destruct (Hl y c Hy) as (? & ? & c0 & ? & ? & E). split_and!; [done..|]. exists c0. split_and!; [done..|].
  intros Hn. apply E. intros [->|?]%elem_of_cons; done.
Qed.
Lemma lags_redesc t s d d' t' V L : redesc t s d' t' -> dsc t s = Some d -> Kind d <> kindCheckpoint -> lags t V L -> lags t' V L.
Proof.
  intros [Hd Hp Hst] Hs Hk Hl y c Hy. destruct (Hl y c Hy) as ((dy & Hdy & Hky) & ? & c0 & Hr & ? & E).
  split; [exists dy; rewrite Hd, decide_False; [done|congruence]|]. split; [done|]. exists c0. split; [|done].
  unfold readCheckpoint, read in *. rewrite Hp by (apply dsc_bound in Hdy; lia). by rewrite Hst.
Qed.
(** A retired slot changes hands while the record of version [i] is updated. *)
Lemma visiting_redesc t L V gs bs U i x cp cp' s d d' t' gs' bs' : visiting t L V gs bs U -> L !! i = Some (x, cp) -> x ∈ V ->
  redesc t s d' t' -> dsc t s = Some d -> Kind d <> kindCheckpoint -> gc_fx t t' ->
  t_ctrl t' = set_Garbage (Garbage (t_ctrl t')) (t_ctrl t) ->
  cp_ID cp' = cp_ID cp -> cp_Next cp' = cp_Next cp -> cp_Previous cp' = cp_Previous cp -> cp_Epoch cp' = cp_Epoch cp ->
  cp_Pending cp' = cp_Pending cp -> cp_Visible cp' = cp_Visible cp -> cp_Retained cp' = cp_Retained cp -> checkpoint_ok cp' ->
  owners t' (<[i := (x, cp')]> L) gs' bs' U -> visiting t' (<[i := (x, cp')]> L) V gs' bs' U.
Proof.
  intros Hv Hi HV Hrd Hd Hk Hg Hct Hid Hn Hp He Hpd Hvis Hr Hok Ho. destruct Hv as [Hwf Hkn Hnn Hsz Hls Hlg _].
  pose proof (cat_nodup _ _ Hls) as Hnd. destruct (gf_private _ _ Hg). split; [apply Hg|congruence..|by rewrite (gf_store _ _ Hg)| | |done].
  - apply (listing_update (t_ctrl t) (t_ctrl t') L i x cp cp'); try done.
    + rewrite Hvis, Hr, Hpd. by apply (cat_visible _ _ Hls x cp); eapply list_elem_of_lookup_2.
    + by rewrite Hct.
    + by rewrite Hct.
    + by rewrite Hct.
    + rewrite Hct. cbn. eapply shields_insert; [done|congruence|apply Hls].
    + rewrite Hct. cbn. rewrite (cat_pending _ _ Hls). f_equal. apply pending_map. symmetry. eapply insert_map; [done|]. cbn. done.
  - apply (lags_dup _ _ _ x HV). eapply lags_insert; [done..|]. by eapply lags_redesc.
Qed.

Lemma insert_twice (L : list (Z * checkpoint)) (i : nat) (x : Z) (c1 c2 : checkpoint) : <[i := (x, c2)]> (<[i := (x, c1)]> L) = <[i := (x, c2)]> L.
Proof. apply list_insert_insert_eq. Qed.
Lemma insert_same (L : list (Z * checkpoint)) (i : nat) (x : Z) (cp : checkpoint) : L !! i = Some (x, cp) -> <[i := (x, cp)]> L = L.
Proof. apply list_insert_id. Qed.
Lemma ctrl_garbage_trans c c1 c2 : c1 = set_Garbage (Garbage c1) c -> c2 = set_Garbage (Garbage c2) c1 -> c2 = set_Garbage (Garbage c2) c.
Proof. intros -> E2. rewrite E2 at 1. done. Qed.

(** [stepped t L V i x cp …]: where a sequence of such changes ends. *)
Record stepped (t : transaction) (L : list (Z * checkpoint)) (V : list Z) (U : Z -> list Z) (i : nat) (x : Z)
    (cp' : checkpoint) (t' : transaction) : Prop := {
  sp_gc : gc_fx t t';
  sp_ctrl : t_ctrl t' = set_Garbage (Garbage (t_ctrl t')) (t_ctrl t);
  sp_reads : forall y, 1 <= y -> read t' (slotPage y) = read t (slotPage y);
  sp_visiting : exists gs bs, visiting t' (<[i := (x, cp')]> L) V gs bs U }.
Lemma release_pages_spec budget U V i x : x ∈ V -> forall t L gs bs cp n, visiting t L V gs bs U -> L !! i = Some (x, cp) ->
  exists k cp' t', release_pages budget t cp n = Ok ((n + k)%nat, cp', t') /\ (k <= budget)%nat /\
    cp' = set_bitmap (cp_Bitmap cp') (cp_BitmapDone cp') cp /\ stepped t L V U i x cp' t'.
Proof.
  intros HV. induction budget as [|budget IH]; intros t L gs bs cp n Hv Hi; cbn [release_pages].
  { exists 0%nat, cp, t. rewrite Nat.add_0_r. split_and!; [done|done|by destruct cp|]. split; [apply gc_refl, Hv|by destruct (t_ctrl t)|done|].
    exists gs, bs. by rewrite (insert_same L i x cp Hi). }
  assert ((x, cp) ∈ L) as Hin by (by eapply list_elem_of_lookup_2).
  destruct (cp_Bitmap cp =? 0) eqn:E0; bool_prop.
  { exists 0%nat, cp, t. rewrite Nat.add_0_r. split_and!; [done|lia|by destruct cp|]. split; [apply gc_refl, Hv|by destruct (t_ctrl t)|done|].
    exists gs, bs. by rewrite (insert_same L i x cp Hi). }
  pose proof (vi_owners _ _ _ _ _ _ Hv) as Ho. destruct (lg_bitmaps _ _ _ _ _ Ho x cp Hin) as (Hb & Hd0 & Hlen & Hch).
  destruct (bs x) as [|s rest] eqn:Ebs; [done|]. cbn [head default from_option id] in Hb. cbn [length] in Hlen.
  rewrite (proj2 (Z.leb_gt _ (cp_BitmapDone cp))) by lia. rewrite Hb.
  destruct (Hch 0%nat s eq_refl) as (Hds & Hps & b & B & Hrb & HB). rewrite Z.add_0_r in HB. apply dsc_bound in Hds as Hsb.
  rewrite (dsc_desc _ _ _ Hds). cbn [res_bind Kind Birth dNext]. rewrite !Z.eqb_refl. cbn [negb orb].
  pose proof (lg_bitmap_separate _ _ _ _ _ Ho) as [Hbn _]. pose proof (Hbn x (slots_in _ _ _ Hin)) as Hnx. rewrite Ebs in Hnx.
  apply NoDup_cons in Hnx as [Hnr _]. set (nx := default 0 ((s :: rest) !! 1%nat)) in *.
  assert (nx <> s) as Hne by (unfold nx; destruct rest; cbn; [lia|intros ->; apply Hnr; by left]).
  rewrite (proj2 (Z.eqb_neq nx s)) by done. rewrite Hrb. cbn [res_bind]. rewrite HB. cbn [res_bind].
  destruct (to_global t s _ (vi_wf _ _ _ _ _ _ Hv) (vi_nodes _ _ _ _ _ _ Hv) Hds) as (t1 & Hsd & Hrd & Hg & Hct & Hpe).
  { eexists. split; [exact Hds|]. split; [by right|done]. }
  cbn [Birth] in Hsd. rewrite Hsd. cbn [res_bind]. set (cp1 := set_bitmap nx (cp_BitmapDone cp + 1) cp).
  assert (is_u64 nx) as Hun.
  { unfold nx. destruct rest as [|s2 r2]; [unfold is_u64; cbn; lia|]. cbn. destruct (Hch 1%nat s2 eq_refl) as (Hd2 & _).
    exact (slot_u64 t s2 _ (vi_wf _ _ _ _ _ _ Hv) Hd2). }
  pose proof (size_pages _ (vi_size _ _ _ _ _ _ Hv)) as Hpgs.
  assert (checkpoint_ok cp1) as Hok1.
  { destruct (vi_lags _ _ _ _ _ _ Hv x cp Hin) as (_ & Hok & _). unfold checkpoint_ok in *. destruct_and! Hok. cbn.
    split_and!; try done. unfold is_u64. lia. }
  assert (visiting t1 (<[i := (x, cp1)]> L) V (fun y => if y =? 0 then s :: gs 0 else gs y) (fun y => if y =? x then rest else bs y) U) as Hv1.
  { eapply (visiting_redesc t L V gs bs U i x cp cp1 s); try done; [by rewrite Hct|].
    eapply (owners_return t t1 L _ gs bs U x cp s rest); try done; [by rewrite Hct| |by eapply visiting_nonzero|apply Hv].
    apply (relists_insert L i x cp cp1); try done; [apply Hv|cbn; by rewrite Z.eqb_refl|].
    intros y c Hy. by rewrite (proj2 (Z.eqb_neq y x)). }
  destruct (IH t1 _ _ _ cp1 (S n) Hv1) as (k & cp2 & t2 & Hok & Hk & Hcp2 & [Hg2 Hc2 Hrd2 Hv2]);
    [by rewrite list_lookup_insert_eq by (by eapply lookup_lt_Some)|].
  exists (S k), cp2, t2. rewrite Hok. split; [do 3 f_equal; lia|]. split; [lia|]. split; [by rewrite Hcp2|].
  rewrite insert_twice in Hv2. split; [by eapply gc_trans| | |done].
  - eapply ctrl_garbage_trans; [|exact Hc2]. by rewrite Hct.
  - intros y Hy. rewrite Hrd2 by done. unfold read. by rewrite (rd_pages _ _ _ _ Hrd y Hy), (rd_store _ _ _ _ Hrd).
Qed.
Lemma releaseBitmap_spec budget U V i x t L gs bs cp : x ∈ V -> visiting t L V gs bs U -> L !! i = Some (x, cp) ->
  exists k cp' t', releaseBitmap t cp budget = Ok (k, cp', t') /\ (k <= budget)%nat /\
    cp' = set_bitmap (cp_Bitmap cp') (cp_BitmapDone cp') cp /\ stepped t L V U i x cp' t'.
Proof.
  intros HV Hv Hi. unfold releaseBitmap. destruct (release_pages_spec budget U V i x HV t L gs bs cp 0 Hv Hi) as (k & cp' & t' & -> & Hk & Hcp & Hst).
  cbn [res_bind]. pose proof Hst as [Hg _ _ (gs' & bs' & Hv')]. exists k, cp', t'. split; [|done].
  destruct (cp_Bitmap cp' =? 0) eqn:E; [|done]. cbn [andb]. bool_prop.
  assert ((x, cp') ∈ <[i := (x, cp')]> L) as Hin.
  { apply (list_elem_of_lookup_2 _ i). by rewrite list_lookup_insert_eq by (by eapply lookup_lt_Some). }
  destruct (lg_bitmaps _ _ _ _ _ (vi_owners _ _ _ _ _ _ Hv') x cp' Hin) as (Hb & _ & Hlen & Hch).
  destruct (bs' x) as [|s r]; [|cbn in Hb; destruct (Hch 0%nat s eq_refl) as (Hds & _); apply dsc_bound in Hds; lia].
  cbn in Hlen. rewrite (proj2 (Z.eqb_eq _ _)) by lia. done.
Qed.

(** ** Finding the retained predecessor *)

(** Everything from place [p] on up to the version at place [i] is not retained, and
    the search goes on before [p]. *)
Definition pred_ok (g : gcScan) (L : list (Z * checkpoint)) (i p : nat) : Prop :=
  (p <= i)%nat /\ pred_slot g = slot_before L p /\ (exists y c, L !! p = Some (y, c) /\ pred_epoch g = cp_Epoch c) /\
  forall k q, L !! k = Some q -> (p <= k < i)%nat -> ~ is_retained q.
Definition same_walk (g g' : gcScan) : Prop :=
  cursor g' = cursor g /\ tail g' = tail g /\ generation g' = generation g /\ visited g' = visited g /\ limit g' = limit g /\ blocked g' = blocked g.

Section Predecessor.
Context (t : transaction) (L : list (Z * checkpoint)) (gs bs U : Z -> list Z) (i : nat) (x : Z) (cp : checkpoint).
Context (Hv : visiting t L [x] gs bs U) (Hi : L !! i = Some (x, cp)).

Lemma slot_before_zero p : (p <= length L)%nat -> slot_before L p = 0 -> p = 0%nat.
Proof.
  destruct p as [|p]; [done|]. cbn. intros Hp E. destruct (lookup_lt_is_Some_2 L p) as [[y c] Hy]; [lia|].
  rewrite (slot_at_lookup _ _ _ _ Hy) in E. subst. destruct (visiting_nonzero _ _ _ _ _ _ Hv).
  eapply slots_in. by eapply list_elem_of_lookup_2.
Qed.
Lemma before_read p : (p < i)%nat -> exists c, L !! p = Some (slot_at L p, c) /\ readCheckpoint t (slot_at L p) = Ok c /\ slot_at L p <> 0.
Proof.
  intros Hp. destruct (lookup_lt_is_Some_2 L p) as [[y c] Hy]; [apply lookup_lt_Some in Hi; lia|].
  assert ((y, c) ∈ L) as Hin by (by eapply list_elem_of_lookup_2). pose proof (visiting_slot _ _ _ _ _ _ _ _ Hv Hin).
  destruct (vi_lags _ _ _ _ _ _ Hv y c Hin) as (_ & _ & c0 & Hr & _ & E). exists c. rewrite (slot_at_lookup _ _ _ _ Hy).
  split; [done|]. split; [|lia]. rewrite Hr, E; [done|]. intros ->%list_elem_of_singleton.
  assert (p = i); [|lia]. eapply NoDup_lookup; [apply (cat_nodup _ _ (vi_listing _ _ _ _ _ _ Hv))|by eapply slots_lookup..].
Qed.
Lemma pred_nearest g p c : pred_ok g L i p -> pred_slot g = 0 \/ (p <> 0%nat /\ L !! pred p = Some (pred_slot g, c) /\ cp_Retained c = true) ->
  nearest L i (pred_slot g) c.
Proof.
  intros (Hp & Hs & _ & Hn) [H0|(Hp0 & Hc & Hr)].
  - left. split; [done|]. rewrite H0 in Hs. symmetry in Hs. apply slot_before_zero in Hs; [subst p|apply lookup_lt_Some in Hi; lia].
    intros k q Hk Hki. apply (Hn k q Hk). lia.
  - right. exists (pred p). split_and!; [lia|done|done|]. intros k q Hk Hki Hq. destruct (decide (k < p)%nat); [lia|].
    exfalso. apply (Hn k q Hk); [lia|done].
Qed.
(** What is known of the predecessor when its search is over. *)
Definition settled (g : gcScan) (previous : checkpoint) : Prop :=
  pred_ready g = true -> nearest L i (pred_slot g) previous \/ (cp_Garbage cp = 0 /\ Protected (t_ctrl t) <> x).

Lemma discover_spec n : forall g p previous, pred_ok g L i p -> settled g previous ->
  exists rest g' previous', discover n t g previous = Ok (rest, g', previous') /\ (rest <= n)%nat /\ same_walk g g' /\
    pred_for g' = pred_for g /\ (exists p', pred_ok g' L i p') /\ settled g' previous'.
Proof.
  induction n as [|n IH]; intros g p previous Hp Hst; cbn [discover].
  { exists 0%nat, g, previous. split_and!; try done. by exists p. }
  destruct (pred_ready g || (pred_slot g =? 0)) eqn:E.
  { exists (S n), g, previous. split_and!; try done. by exists p. }
  apply orb_false_iff in E as [Er Es%Z.eqb_neq]. pose proof Hp as (Hpi & Hs & (y & c & Hy & He) & Hn).
  destruct p as [|p]; [by rewrite Hs in Es|]. cbn [slot_before] in Hs.
  destruct (before_read p) as (cq & Hq & Hr & _); [lia|]. rewrite <- Hs in *. rewrite Hr. cbn [res_bind].
  pose proof (cat_epochs _ _ (vi_listing _ _ _ _ _ _ Hv) p (S p) _ _ _ _ Hq Hy ltac:(lia)). rewrite He, (proj2 (Z.leb_gt _ _)) by lia.
  destruct (cp_Retained cq) eqn:Ecq.
  - exists n, (set_ready true g), cq. split_and!; [done|lia|done|done|by exists (S p)|]. intros _. left.
    apply (pred_nearest _ (S p)); [done|]. right. split_and!; [lia|done..].
  - destruct (IH (set_pred (cp_Previous cq) (pred_for g) (cp_Epoch cq) false g) p cq) as (rest & g' & pr & Hok & Hle & Hw & Hf & Hp' & Hs').
    + split_and!; [lia|cbn; by eapply (cat_prev _ _ (vi_listing _ _ _ _ _ _ Hv))|by eexists _, cq|]. intros k q Hk Hki.
      destruct (decide (k = p)) as [->|]; [|apply (Hn k q Hk); lia]. simplify_eq. unfold is_retained. cbn. congruence.
    + intros Hf. done.
    + exists rest, g', pr. split_and!; try done. lia.
Qed.
Lemma predecessor_spec g n : cursor g = x -> (pred_for g = cursor g -> exists p, pred_ok g L i p) ->
  exists g1 p1 rest g2 p2, revalidate t (start_pred t g cp) cp = Ok (g1, p1) /\ discover n t g1 p1 = Ok (rest, g2, p2) /\
    let g' := if pred_slot g2 =? 0 then set_ready true g2 else g2 in
    same_walk g g' /\ pred_for g' = x /\ (exists p, pred_ok g' L i p) /\ settled g' p2.
Proof.
  intros Hc Hf. set (g0 := start_pred t g cp).
  assert (same_walk g g0 /\ pred_for g0 = x /\ exists p, pred_ok g0 L i p) as (Hw0 & Hf0 & p & Hp).
  { unfold g0, start_pred. destruct (pred_for g =? cursor g) eqn:E; bool_prop; cbn [negb].
    - split; [done|]. split; [congruence|]. by apply Hf.
    - split; [done|]. split; [done|]. exists i. split_and!; [lia|cbn; by eapply (cat_prev _ _ (vi_listing _ _ _ _ _ _ Hv))|by exists x, cp|]. lia. }
  assert (cursor g0 = x) as Hc0 by (destruct Hw0; congruence).
  assert (exists g1 p1, revalidate t g0 cp = Ok (g1, p1) /\ same_walk g0 g1 /\ pred_for g1 = x /\ pred_ok g1 L i p /\ settled g1 p1) as (g1 & p1 & Hrv & Hw1 & Hf1 & Hp1 & Hs1).
  { unfold revalidate. destruct (_ && _) eqn:E.
    - apply andb_true_iff in E as [[Er Es%negb_true_iff%Z.eqb_neq]%andb_true_iff _].
      pose proof Hp as (Hpi & Hs & _). destruct p as [|p]; [by rewrite Hs in Es|]. cbn [slot_before] in Hs.
      destruct (before_read p) as (cq & Hq & Hr & _); [lia|]. rewrite <- Hs in *. rewrite Hr. cbn [res_bind].
      eexists _, cq. split; [done|]. destruct (cp_Retained cq) eqn:Ecq; cbn [negb]; split_and!; try done.
      intros _. left. apply (pred_nearest _ (S p)); [done|]. right. split_and!; [lia|done..].
    - exists g0, checkpoint0. split_and!; try done. intros Hr. rewrite Hr in E. cbn [andb] in E.
      destruct (pred_slot g0 =? 0) eqn:Es.
      + apply Z.eqb_eq in Es. left. apply (pred_nearest _ p); [done|by left].
      + right. cbn [negb andb] in E. apply orb_false_iff in E as [E1%negb_false_iff%Z.eqb_eq E2%Z.eqb_neq]. split; [done|congruence]. }
  destruct (discover_spec n g1 p p1 Hp1 Hs1) as (rest & g2 & p2 & Hd & _ & Hw2 & Hf2 & (p' & Hp') & Hs2).
  exists g1, p1, rest, g2, p2. split; [done|]. split; [done|]. cbn zeta.
  assert (same_walk g g2) as Hw by (unfold same_walk in *; destruct_and!; split_and!; congruence).
  destruct (pred_slot g2 =? 0) eqn:E; bool_prop; (split; [done|]; split; [cbn; congruence|]; split; [by exists p'|]); [|done].
  intros _. left. apply (pred_nearest _ p'); [done|by left].
Qed.
End Predecessor.

(** ** Passing the retired slots on *)

(** [L'] is [L] with other lists of retired slots in the records of [V]. *)
Definition touches (L L' : list (Z * checkpoint)) (V : list Z) : Prop :=
  length L' = length L /\ forall k y c', L' !! k = Some (y, c') -> exists c, L !! k = Some (y, c) /\
    cp_ID c' = cp_ID c /\ cp_Epoch c' = cp_Epoch c /\ cp_Root c' = cp_Root c /\ cp_Next c' = cp_Next c /\ cp_Previous c' = cp_Previous c /\
    cp_Visible c' = cp_Visible c /\ cp_Retained c' = cp_Retained c /\ cp_Pending c' = cp_Pending c /\
    (cp_Bitmap c' = cp_Bitmap c /\ cp_BitmapDone c' = cp_BitmapDone c) /\
    (y ∉ V -> c' = c).
Lemma touches_refl L V : touches L L V.
Proof. split; [done|]. intros k y c Hk. by exists c. Qed.
Lemma touches_trans L L1 L2 V : touches L L1 V -> touches L1 L2 V -> touches L L2 V.
Proof.
  intros [Hl H1] [Hl2 H2]. split; [congruence|]. intros k y c Hk. destruct (H2 k y c Hk) as (c1 & Hk1 & ? & ? & ? & ? & ? & ? & ? & ? & [? ?] & F1).
  destruct (H1 k y c1 Hk1) as (c0 & Hk0 & ? & ? & ? & ? & ? & ? & ? & ? & [? ?] & F0). exists c0. split; [done|]. split_and!; try congruence.
  intros Hy. by rewrite <- (F0 Hy), <- (F1 Hy).
Qed.
Lemma touches_insert L V i x cp cp' : L !! i = Some (x, cp) -> x ∈ V ->
  cp_ID cp' = cp_ID cp -> cp_Epoch cp' = cp_Epoch cp -> cp_Root cp' = cp_Root cp -> cp_Next cp' = cp_Next cp -> cp_Previous cp' = cp_Previous cp ->
  cp_Visible cp' = cp_Visible cp -> cp_Retained cp' = cp_Retained cp -> cp_Pending cp' = cp_Pending cp ->
  cp_Bitmap cp' = cp_Bitmap cp -> cp_BitmapDone cp' = cp_BitmapDone cp -> touches L (<[i := (x, cp')]> L) V.
Proof.
  intros Hi Hx. intros. split; [by rewrite length_insert|]. intros k y c Hk. destruct (decide (k = i)) as [->|Hne].
  - rewrite list_lookup_insert_eq in Hk by (by eapply lookup_lt_Some). injection Hk as <- <-. exists cp. by split_and!.
  - rewrite list_lookup_insert_ne in Hk by done. by exists c.
Qed.
Lemma touches_map {A} (f : Z * checkpoint -> A) L L' V : touches L L' V ->
  (forall y c c', cp_ID c' = cp_ID c -> cp_Epoch c' = cp_Epoch c -> cp_Visible c' = cp_Visible c -> cp_Retained c' = cp_Retained c ->
    cp_Pending c' = cp_Pending c -> f (y, c') = f (y, c)) -> f <$> L' = f <$> L.
Proof.
  intros [Hl HL] Hf. apply list_eq. intros k. rewrite !list_lookup_fmap. destruct (L' !! k) as [[y c']|] eqn:E.
  - destruct (HL k y c' E) as (c & -> & ?). destruct_and!. cbn. f_equal. by apply Hf.
  - apply lookup_ge_None_1 in E. by rewrite (lookup_ge_None_2 L) by lia.
Qed.
Lemma touches_slots L L' V : touches L L' V -> slots L' = slots L.
Proof. intros HL. by apply (touches_map _ _ _ _ HL). Qed.
Lemma touches_listing c c' L L' V : touches L L' V -> listing c L -> Head c' = Head c -> Tail c' = Tail c -> Epoch c' = Epoch c ->
  Protected c' = Protected c -> Pending c' = Pending c -> listing c' L'.
Proof.
  intros HL Hls Hh Ht He Hp Hpd. pose proof (touches_slots _ _ _ HL) as Hsl.
  assert (forall k, slot_at L' k = slot_at L k) as Hat by (intros; unfold slot_at; by rewrite Hsl).
  pose proof (touches_map (cp_ID ∘ snd) _ _ _ HL ltac:(done)) as Hn. pose proof (touches_map (cp_Pending ∘ snd) _ _ _ HL ltac:(done)) as Hpm.
  destruct HL as [Hl HL]. destruct Hls. split.
  - by rewrite Hsl.
  - unfold names. by rewrite Hn.
  - by rewrite Hh, Hat.
  - by rewrite Ht, Hsl.
  - intros k y cy Hk. destruct (HL k y cy Hk) as (c0 & Hk0 & E). destruct_and! E. rewrite Hat. etransitivity; [|by eapply cat_next]. done.
  - intros k y cy Hk. destruct (HL k y cy Hk) as (c0 & Hk0 & E). destruct_and! E. transitivity (cp_Previous c0); [done|].
    rewrite (cat_prev k y c0 Hk0). destruct k; [done|]. cbn. by rewrite Hat.
  - intros k j y z cy cz Hk Hj Hkj. destruct (HL k y cy Hk) as (c0 & Hk0 & E). destruct_and! E. destruct (HL j z cz Hj) as (c1 & Hj0 & E'). destruct_and! E'.
    pose proof (cat_epochs k j y z c0 c1 Hk0 Hj0 Hkj). lia.
  - intros y cy [k Hk]%list_elem_of_lookup_1. destruct (HL k y cy Hk) as (c0 & Hk0 & E). destruct_and! E.
    pose proof (cat_before y c0 ltac:(by eapply list_elem_of_lookup_2)). lia.
  - rewrite Hp. destruct cat_protected as [[-> Hno]|(j & cq & Hj & Hno)].
    + left. split; [done|]. intros k [y cy] Hk. destruct (HL k y cy Hk) as (c0 & Hk0 & E). destruct_and! E. intros Hr. apply (Hno k (y, c0) Hk0).
      unfold is_retained in *. cbn in *. congruence.
    + right. destruct (lookup_lt_is_Some_2 L' j) as [[z cz] Hj']; [rewrite Hl; by eapply lookup_lt_Some|].
      destruct (HL j z cz Hj') as (c1 & Hj1 & _). simplify_eq. exists j, cz. split; [done|]. intros k [y cy] Hk Hr.
      destruct (HL k y cy Hk) as (c0 & Hk0 & E). destruct_and! E. apply (Hno k (y, c0) Hk0). unfold is_retained in *. cbn in *. congruence.
  - rewrite Hpd, cat_pending. f_equal. apply pending_map. by rewrite Hpm.
  - intros y cy [k Hk]%list_elem_of_lookup_1 Hvis. destruct (HL k y cy Hk) as (c0 & Hk0 & E). destruct_and! E.
    destruct (cat_visible y c0 ltac:(by eapply list_elem_of_lookup_2)); [congruence|]. split; congruence.
Qed.
Lemma visiting_touch t L V gs bs U s d d' t' L' gs' bs' : visiting t L V gs bs U -> touches L L' V ->
  (forall y c, (y, c) ∈ L' -> checkpoint_ok c) ->
  redesc t s d' t' -> dsc t s = Some d -> Kind d <> kindCheckpoint -> gc_fx t t' ->
  t_ctrl t' = set_Garbage (Garbage (t_ctrl t')) (t_ctrl t) -> owners t' L' gs' bs' U -> visiting t' L' V gs' bs' U.
Proof.
  intros [Hwf Hkn Hnn Hsz Hls Hlg _] HL Hok Hrd Hd Hk Hg Hct Ho. destruct (gf_private _ _ Hg).
  split; [apply Hg|congruence..|by rewrite (gf_store _ _ Hg)| | |done].
  - eapply touches_listing; [exact HL|exact Hls|by rewrite Hct..].
  - pose proof (lags_redesc _ _ _ _ _ _ _ Hrd Hd Hk Hlg) as Hlg'. intros y c Hy. pose proof (Hok y c Hy) as Hoc.
    apply list_elem_of_lookup_1 in Hy as [k Hk']. destruct HL as [_ HL]. destruct (HL k y c Hk') as (c0 & Hk0 & E). destruct_and! E.
    destruct (Hlg' y c0 ltac:(by eapply list_elem_of_lookup_2)) as (? & _ & c1 & ? & ? & E1). split; [done|]. split; [done|].
    exists c1. split; [done|]. split; [congruence|]. intros Hy. rewrite (E1 Hy). symmetry. auto.
Qed.

Section Transfer.
Context (U : Z -> list Z) (V : list Z) (i j : nat) (x : Z) (g : gcScan) (HxV : x ∈ V).
Local Notation p := (pred_slot g).
(** The slots of the version at place [i] go to the retained version [pr] at place [j], the nearest before it. *)
Definition goes (L : list (Z * checkpoint)) (pr : checkpoint) : Prop :=
  (p = 0 /\ forall k q, L !! k = Some q -> (k < i)%nat -> ~ is_retained q) \/
  (p <> 0 /\ p ∈ V /\ L !! j = Some (p, pr) /\ (j < i)%nat /\ forall k q, L !! k = Some q -> (k < i)%nat -> is_retained q -> (k <= j)%nat).
Lemma goes_touch L L' pr pr' : goes L pr -> touches L L' V -> (p <> 0 -> L' !! j = Some (p, pr')) -> goes L' pr'.
Proof.
  intros [[H0 Hn]|(H0 & HV & Hj & Hji & Hn)] [_ HL] Hj'.
  - left. split; [done|]. intros k [y c] Hk Hki. destruct (HL k y c Hk) as (c0 & Hk0 & E). destruct_and! E. intros Hr.
    apply (Hn k (y, c0) Hk0 Hki). unfold is_retained in *. cbn in *. congruence.
  - right. split_and!; [done|done|by apply Hj'|done|]. intros k [y c] Hk Hki Hr. destruct (HL k y c Hk) as (c0 & Hk0 & E). destruct_and! E.
    apply (Hn k (y, c0) Hk0 Hki). unfold is_retained in *. cbn in *. congruence.
Qed.
(** Which retained versions may still read the slot [s] that [x] owns. *)
Lemma goes_safe t L gs bs pr cp s d : visiting t L V gs bs U -> goes L pr -> L !! i = Some (x, cp) -> cp_Retained cp = false ->
  s ∈ gs x -> dsc t s = Some d -> forall y cy, (y, cy) ∈ L -> cp_Retained cy = true -> s ∈ U y ->
  p <> 0 /\ Birth d <= cp_Epoch pr /\ cp_Epoch cy <= cp_Epoch pr.
Proof.
  intros Hv Hgo Hi Hr Hs Hd y cy Hy Hry Hsy. pose proof (vi_owners _ _ _ _ _ _ Hv) as Ho. pose proof (vi_listing _ _ _ _ _ _ Hv) as Hls.
  pose proof (lg_late _ _ _ _ _ Ho x cp y cy s ltac:(by eapply list_elem_of_lookup_2) Hs Hy Hry Hsy) as Hle.
  destruct (lg_uses _ _ _ _ _ Ho y cy s Hy Hry Hsy) as (d' & Hd' & _ & Hb). simplify_eq.
  apply list_elem_of_lookup_1 in Hy as [k Hk]. assert (k < i)%nat as Hki.
  { destruct (decide (k = i)) as [->|]; [simplify_eq; congruence|]. destruct (decide (i < k)%nat); [|lia].
    pose proof (cat_epochs _ _ Hls i k _ _ _ _ Hi Hk ltac:(done)). lia. }
  destruct Hgo as [[_ Hn]|(H0 & _ & Hj & _ & Hn)]; [by destruct (Hn k (y, cy) Hk Hki)|].
  pose proof (Hn k (y, cy) Hk Hki Hry) as Hkj. assert (cp_Epoch cy <= cp_Epoch pr); [|split_and!; [done|lia..]].
  destruct (decide (k = j)) as [->|]; [simplify_eq; lia|]. pose proof (cat_epochs _ _ Hls k j _ _ _ _ Hk Hj ltac:(lia)). lia.
Qed.
Definition garbage_step (y to s next : Z) (c0 c : checkpoint) : Prop :=
  cp_Garbage c = (if y =? to then s else if y =? x then next else cp_Garbage c0) /\ cp_Bitmap c = cp_Bitmap c0 /\ cp_BitmapDone c = cp_BitmapDone c0.

(** One slot, with the lists [L] and [L'] of the records before and after. *)
Lemma transfer_one t L gs bs cp pr s d to L' : visiting t L V gs bs U -> goes L pr -> L !! i = Some (x, cp) -> cp_Retained cp = false ->
  cp_Garbage cp = s -> s <> 0 -> dsc t s = Some d ->
  to = (if negb (p =? 0) && (Birth d <=? cp_Epoch pr) then p else 0) ->
  touches L L' V -> (forall k y c, L' !! k = Some (y, c) -> exists c0, L !! k = Some (y, c0) /\ garbage_step y to s (dNext d) c0 c) ->
  (forall t', redesc t s (mkDescriptor (Birth d) (if to =? 0 then Garbage (t_ctrl t) else cp_Garbage pr) kindGarbage) t' -> gc_fx t t' ->
    t_ctrl t' = set_Garbage (if to =? 0 then s else Garbage (t_ctrl t)) (t_ctrl t) -> exists gs', visiting t' L' V gs' bs U).
Proof.
  intros Hv Hgo Hi Hr Hcg Hs0 Hd Hto HL Hstep t' Hrd Hg Hct. pose proof (vi_owners _ _ _ _ _ _ Hv) as Ho. pose proof (vi_listing _ _ _ _ _ _ Hv) as Hls.
  assert ((x, cp) ∈ L) as Hin by (by eapply list_elem_of_lookup_2). pose proof (lg_chains _ _ _ _ _ Ho x cp Hin) as Hch. rewrite Hcg in Hch.
  destruct (gs x) as [|s' rest] eqn:Egs; [done|]. destruct Hch as (Es & _ & d' & Hd' & Hk & Hch). subst s'.
  assert (d' = d) as -> by congruence. clear Hd'.
  assert (s ∈ gs x) as Hsx by (rewrite Egs; by left). pose proof (goes_safe t L gs bs pr cp _ _ Hv Hgo Hi Hr Hsx Hd) as Hsafe.
  assert (to <> x /\ to ∈ 0 :: slots L /\ (to <> 0 -> L !! j = Some (to, pr))) as (Htx & Htin & Htj).
  { pose proof (visiting_nonzero _ _ _ _ _ _ Hv) as Hnz. assert (x ∈ slots L) as Hxs by (by eapply slots_in).
    rewrite Hto. destruct (negb (p =? 0) && _) eqn:E; [|split; [intros E0; by rewrite <- E0 in Hxs|]; split; [by left|done]].
    destruct Hgo as [[H0 _]|(H0 & _ & Hj & Hji & _)]; [by rewrite H0 in E|]. split; [|split; [right; eapply slots_in; by eapply list_elem_of_lookup_2|done]].
    intros Epx. rewrite Epx in Hj. assert (i = j); [|lia]. eapply NoDup_lookup; [apply (cat_nodup _ _ Hls)|by eapply slots_lookup..]. }
  exists (moved s x to gs).
  assert (relists L L' (fun y c0 c => garbage_step y to s (dNext d) c0 c)) as Hrl.
  { split; [by eapply touches_slots|]. intros y c [k Hk']%list_elem_of_lookup_1. destruct (Hstep k y c Hk') as (c0 & Hk0 & Hgs).
    destruct HL as [_ HL]. destruct (HL k y c Hk') as (c1 & Hk1 & E). assert (c0 = c1) as -> by congruence. destruct_and! E. exists c1.
    split; [by eapply list_elem_of_lookup_2|]. split; [done|]. split; [congruence|done]. }
  eapply (visiting_touch t L V gs bs U); [done|done| |exact Hrd|done|by rewrite Hk|done|by rewrite Hct|].
  - intros y c [k Hk']%list_elem_of_lookup_1. destruct (Hstep k y c Hk') as (c0 & Hk0 & Hgs & Hgb & Hgd). destruct HL as [_ HL].
    destruct (HL k y c Hk') as (c1 & Hk1 & E). assert (c0 = c1) as -> by congruence. destruct_and! E.
    destruct (vi_lags _ _ _ _ _ _ Hv y c1 ltac:(by eapply list_elem_of_lookup_2)) as (_ & Hok & _). unfold checkpoint_ok in *. destruct_and! Hok.
    assert (is_u64 (cp_Garbage c)); [|split_and!; congruence]. rewrite Hgs. destruct (y =? to); [by eapply slot_u64; [apply Hv|]|].
    destruct (y =? x); [|done]. by destruct (dsc_ok _ _ _ (vi_wf _ _ _ _ _ _ Hv) Hd) as (_ & ? & _).
  - eapply (owners_move t t' L L' gs bs U x cp to s rest d); try done.
    + pose proof (visiting_slot _ _ _ _ _ _ _ _ Hv Hin). lia.
    + assert (default 0 (head (gs to)) = if to =? 0 then Garbage (t_ctrl t) else cp_Garbage pr) as ->; [|done].
      destruct (to =? 0) eqn:E; bool_prop; [rewrite E|]; symmetry; eapply chain_hd; [apply (lg_global _ _ _ _ _ Ho)|].
      apply (lg_chains _ _ _ _ _ Ho). eapply list_elem_of_lookup_2. by apply Htj.
    + rewrite Hct. by destruct (to =? 0).
    + intros y cy Hy Hry Hsy. destruct (Hsafe y cy Hy Hry Hsy) as (Hp0 & Hb & He).
      rewrite (proj2 (Z.eqb_neq p 0)), (proj2 (Z.leb_le _ _)) in Hto by done. cbn [negb andb] in Hto. rewrite Hto in *. split; [done|].
      intros ct Hct'. apply list_elem_of_lookup_1 in Hct' as [k Hk']. specialize (Htj Hp0).
      assert (k = j) as -> by (eapply NoDup_lookup; [apply (cat_nodup _ _ Hls)|by eapply slots_lookup..]). congruence.
    + by eapply visiting_nonzero.
    + apply Hls.
Qed.
(** Where the transfer of a budget of slots ends. *)
Record transferred (t : transaction) (L : list (Z * checkpoint)) (cp pr cp' pr' : checkpoint) (t' : transaction) (L' : list (Z * checkpoint)) : Prop := {
  tf_gc : gc_fx t t';
  tf_ctrl : t_ctrl t' = set_Garbage (Garbage (t_ctrl t')) (t_ctrl t);
  tf_reads : forall y, 1 <= y -> read t' (slotPage y) = read t (slotPage y);
  tf_touches : touches L L' V;
  tf_at : L' !! i = Some (x, cp');
  tf_cp : cp' = set_cpGarbage (cp_Garbage cp') cp;
  tf_goes : goes L' pr';
  tf_visiting : exists gs bs, visiting t' L' V gs bs U }.
Lemma transferred_refl t L gs bs cp pr : visiting t L V gs bs U -> goes L pr -> L !! i = Some (x, cp) -> transferred t L cp pr cp pr t L.
Proof.
  intros Hv Hgo Hi. split; [apply gc_refl, Hv|by destruct (t_ctrl t)|done|apply touches_refl|done|by destruct cp|done|by exists gs, bs].
Qed.
Lemma transferred_trans t L cp pr t1 L1 cp1 pr1 t2 L2 cp2 pr2 :
  transferred t L cp pr cp1 pr1 t1 L1 -> transferred t1 L1 cp1 pr1 cp2 pr2 t2 L2 -> transferred t L cp pr cp2 pr2 t2 L2.
Proof.
  intros [] []. split; [by eapply gc_trans|by eapply ctrl_garbage_trans|intros y Hy; by rewrite tf_reads1, tf_reads0|by eapply touches_trans|done| |done|done].
  rewrite tf_cp1, tf_cp0. done.
Qed.
(** The records after a slot went to [to]. *)
Lemma transfer_lists t L gs bs cp pr s d : visiting t L V gs bs U -> goes L pr -> L !! i = Some (x, cp) ->
  let to := if negb (p =? 0) && (Birth d <=? cp_Epoch pr) then p else 0 in
  let cp' := set_cpGarbage (dNext d) cp in
  let pr' := if to =? 0 then pr else set_cpGarbage s pr in
  let L' := <[i := (x, cp')]> (if to =? 0 then L else <[j := (p, pr')]> L) in
  touches L L' V /\ L' !! i = Some (x, cp') /\ goes L' pr' /\
  forall k y c, L' !! k = Some (y, c) -> exists c0, L !! k = Some (y, c0) /\ garbage_step y to s (dNext d) c0 c.
Proof.
  intros Hv Hgo Hi to cp' pr' L'. pose proof (vi_listing _ _ _ _ _ _ Hv) as Hls. pose proof (cat_nodup _ _ Hls) as Hnd.
  assert (x ∈ slots L) as Hxs by (eapply slots_in; by eapply list_elem_of_lookup_2). pose proof (visiting_nonzero _ _ _ _ _ _ Hv) as Hnz.
  set (L1 := if to =? 0 then L else <[j := (p, pr')]> L) in *.
  assert (to = 0 \/ to = p /\ p <> 0 /\ p ∈ V /\ L !! j = Some (p, pr) /\ (j < i)%nat) as Hto.
  { unfold to. destruct (negb (p =? 0) && _) eqn:E; [|by left]. destruct Hgo as [[H0 _]|(? & ? & ? & ? & _)]; [by rewrite H0 in E|by right]. }
  assert (touches L L1 V /\ L1 !! i = Some (x, cp) /\ (p <> 0 -> L1 !! j = Some (p, pr')) /\
    forall k y c, L1 !! k = Some (y, c) -> exists c0, L !! k = Some (y, c0) /\
      cp_Garbage c = (if y =? to then s else cp_Garbage c0) /\ cp_Bitmap c = cp_Bitmap c0 /\ cp_BitmapDone c = cp_BitmapDone c0)
    as (HL1 & Hi1 & Hj1 & Hs1).
  { unfold L1, pr'. destruct (to =? 0) eqn:E; bool_prop.
    - split; [apply touches_refl|]. split; [done|]. split; [intros Hp; by destruct Hgo as [[? _]|(_ & _ & ? & _)]|].
      intros k y c Hk. exists c. split; [done|]. rewrite (proj2 (Z.eqb_neq y to)); [done|]. intros ->. apply Hnz. rewrite <- E.
      eapply slots_in. by eapply list_elem_of_lookup_2.
    - destruct Hto as [?|(Htp & Hp0 & HpV & Hj & Hji)]; [done|]. split; [by eapply touches_insert|].
      split; [by rewrite list_lookup_insert_ne by lia|]. split; [intros _; by rewrite list_lookup_insert_eq by (by eapply lookup_lt_Some)|].
      intros k y c Hk. destruct (insert_lookup L j p pr _ k y c Hnd Hj Hk) as [(_ & Hne & Hk0)|(-> & -> & ->)].
      + exists c. split; [done|]. rewrite (proj2 (Z.eqb_neq y to)) by congruence. done.
      + exists pr. split; [done|]. rewrite Htp, Z.eqb_refl. done. }
  assert (touches L1 L' V) as HL2 by (by eapply touches_insert).
  assert (touches L L' V) as HL' by (by eapply touches_trans).
  split; [done|]. split; [unfold L'; by rewrite list_lookup_insert_eq by (by eapply lookup_lt_Some)|]. split.
  - eapply goes_touch; [exact Hgo|done|]. intros Hp. unfold L'. rewrite list_lookup_insert_ne; [by apply Hj1|].
    destruct Hgo as [[? _]|(_ & _ & _ & ? & _)]; [done|lia].
  - intros k y c Hk. destruct (insert_lookup L1 i x cp cp' k y c) as [(_ & Hne & Hk1)|(-> & -> & ->)];
      [rewrite (touches_slots _ _ _ HL1); done|done|exact Hk| |].
    + destruct (Hs1 k y c Hk1) as (c0 & Hk0 & Hg & ? & ?). exists c0. split; [done|]. split_and!; [|done..]. rewrite Hg.
      rewrite (proj2 (Z.eqb_neq y x)) by done. by destruct (y =? to).
    + exists cp. split; [done|]. split_and!; [|done..]. rewrite Z.eqb_refl. rewrite (proj2 (Z.eqb_neq x to)); [done|].
      intros E. destruct Hto as [E0|(Htp & _ & _ & Hj & Hji)]; [apply Hnz; by rewrite <- E0, <- E|].
      assert (i = j); [|lia]. rewrite <- Htp, <- E in Hj. eapply NoDup_lookup; [exact Hnd|by eapply slots_lookup..].
Qed.
Lemma transfer_spec n : forall t L gs bs cp pr ch, visiting t L V gs bs U -> goes L pr -> L !! i = Some (x, cp) -> cp_Retained cp = false ->
  exists rest cp' pr' ch' t' L', transfer n t g cp pr ch = Ok (rest, t', cp', pr', ch') /\ (rest <= n)%nat /\
    (ch' = false -> ch = false /\ pr' = pr) /\ (ch' = true -> ch = true \/ p <> 0) /\ transferred t L cp pr cp' pr' t' L'.
Proof.
  induction n as [|n IH]; intros t L gs bs cp pr ch Hv Hgo Hi Hr; cbn [transfer].
  { exists 0%nat, cp, pr, ch, t, L. split_and!; try done; [auto|by eapply transferred_refl]. }
  destruct (cp_Garbage cp =? 0) eqn:E0.
  { exists (S n), cp, pr, ch, t, L. split_and!; try done; [auto|by eapply transferred_refl]. }
  apply Z.eqb_neq in E0. pose proof (vi_owners _ _ _ _ _ _ Hv) as Ho. assert ((x, cp) ∈ L) as Hin by (by eapply list_elem_of_lookup_2).
  pose proof (lg_chains _ _ _ _ _ Ho x cp Hin) as Hch. destruct (gs x) as [|s rest] eqn:Egs; [done|].
  destruct Hch as (Es & _ & d & Hd & Hk & Hch). pose proof (lg_separate _ _ _ _ _ Ho) as [Hn _].
  pose proof (Hn x ltac:(right; by eapply slots_in)) as Hnx. rewrite Egs in Hnx. apply NoDup_cons in Hnx as [Hsr _].
  assert (dNext d <> s) as Hne.
  { rewrite (chain_hd _ _ _ _ Hch). destruct rest as [|s2 r2]; cbn; [congruence|]. intros ->. apply Hsr. by left. }
  rewrite Es in *. rewrite (dsc_desc _ _ _ Hd). cbn [res_bind]. rewrite Hk, Z.eqb_refl, (proj2 (Z.eqb_neq (dNext d) s)) by done. cbn [negb orb].
  set (to := if negb (p =? 0) && (Birth d <=? cp_Epoch pr) then p else 0). set (cp1 := set_cpGarbage (dNext d) cp).
  pose (pr1 := if to =? 0 then pr else set_cpGarbage s pr).
  destruct (transfer_lists t L gs bs cp pr s d Hv Hgo Hi) as (HL & Hi1 & Hgo1 & Hstep). set (L1 := <[i := _]> _) in *.
  pose proof (transfer_one t L gs bs cp pr s d to L1 Hv Hgo Hi Hr Es E0 Hd eq_refl HL Hstep) as Hone.
  assert (exists t1, (if negb (p =? 0) && (Birth d <=? cp_Epoch pr) then
      let* t := setDesc t s (mkDescriptor (Birth d) (cp_Garbage pr) kindGarbage) in transfer n t g cp1 (set_cpGarbage s pr) true
    else let* t := setDesc (set_ctrl (set_Garbage s (t_ctrl t)) t) s (mkDescriptor (Birth d) (Garbage (t_ctrl t)) kindGarbage) in
      transfer n t g cp1 pr ch) = transfer n t1 g cp1 pr1 (ch || negb (to =? 0)) /\
    gc_fx t t1 /\ t_ctrl t1 = set_Garbage (if to =? 0 then s else Garbage (t_ctrl t)) (t_ctrl t) /\ (forall y, 1 <= y -> read t1 (slotPage y) = read t (slotPage y)) /\
    exists gs', visiting t1 L1 V gs' bs U) as (t1 & -> & Hg1 & Hct1 & Hrd1 & gs1 & Hv1).
  { assert (loose t s) as Hlo by (eapply garbage_loose; [apply Hv|done|done]). unfold to, pr1 in *. fold to in Hone.
    destruct (negb (p =? 0) && (Birth d <=? cp_Epoch pr)) eqn:Ec.
    - assert (p <> 0) as Hp0 by (apply andb_true_iff in Ec as [Ec%negb_true_iff%Z.eqb_neq _]; done).
      assert (L !! j = Some (p, pr)) as Hj by (by destruct Hgo as [[? _]|(_ & _ & ? & _)]).
      destruct (vi_lags _ _ _ _ _ _ Hv p pr ltac:(by eapply list_elem_of_lookup_2)) as (_ & Hok & _). unfold checkpoint_ok in Hok. destruct_and! Hok.
      destruct (relabel t s d (cp_Garbage pr) kindGarbage) as (t1 & -> & Hrl); [apply Hv|apply Hv|done|done|done|by left|]. cbn [res_bind].
      unfold to in *. rewrite (proj2 (Z.eqb_neq p 0)) in * by done. exists t1. rewrite orb_true_r. split; [done|].
      assert (gc_fx t t1) as Hg1 by (eapply gc_relabel; [exact Hrl|done|done|done|by left]).
      assert (t_ctrl t1 = set_Garbage (Garbage (t_ctrl t)) (t_ctrl t)) as Hct1 by (rewrite (rl_ctrl _ _ _ _ Hrl); by destruct (t_ctrl t)).
      split; [done|]. split; [done|]. split; [intros y Hy; by eapply relabel_read|]. apply Hone; [|done|done]. destruct Hrl. by split.
    - destruct (to_global t s d) as (t1 & -> & Hrd & Hg1 & Hct1 & _); [apply Hv|apply Hv|done|done|]. cbn [res_bind].
      unfold to in *. exists t1. cbn [Z.eqb negb]. rewrite orb_false_r. split; [done|]. split; [done|]. split; [done|].
      split; [intros y Hy; unfold read; by rewrite (rd_pages _ _ _ _ Hrd y Hy), (rd_store _ _ _ _ Hrd)|by apply Hone]. }
  destruct (IH t1 L1 gs1 bs cp1 pr1 (ch || negb (to =? 0)) Hv1 Hgo1 Hi1 Hr) as (rs & cp2 & pr2 & ch2 & t2 & L2 & Hok & Hle & Hch2 & Hch3 & Htf).
  exists rs, cp2, pr2, ch2, t2, L2. split; [done|]. split; [lia|]. split_and!.
  - intros Hf. destruct (Hch2 Hf) as [[-> Hto%negb_false_iff]%orb_false_iff ->]. split; [done|]. unfold pr1. by rewrite Hto.
  - intros Hf. destruct (Hch3 Hf) as [[->|Hto%negb_true_iff%Z.eqb_neq]%orb_true_iff|?]; [by left| |by right]. right. intros Hp0. apply Hto. unfold to.
    rewrite Hp0. done.
  - eapply transferred_trans; [|exact Htf]. split; [done|by rewrite Hct1|done|done|done|done|done|by exists gs1, bs].
Qed.
End Transfer.

(** ** Records reaching the file *)

Lemma putCheckpoint_page t s cp t' x : putCheckpoint t s cp = Ok t' -> 1 <= s -> 1 <= x -> x <> s ->
  t_pages t' !! slotPage x = t_pages t !! slotPage x.
Proof.
  unfold putCheckpoint. intros Hp Hs Hx Hne. destruct (encodeCheckpoint cp) as [b|]; [|done]. cbn in Hp. apply Ok_inj in Hp as <-. cbn.
  apply lookup_insert_ne. intros E. apply slotPage_inj in E; congruence.
Qed.
Lemma owners_meta t t' L gs bs U : meta_fx t t' -> (forall x d, dsc t x = Some d -> Kind d <> kindCheckpoint -> t_pages t' !! slotPage x = t_pages t !! slotPage x) ->
  owners t L gs bs U -> owners t' L gs bs U.
Proof.
  intros Hm Hp Ho. destruct (mf_ctrl _ _ Hm) as (_ & _ & _ & Hg). pose proof (mf_dsc _ _ Hm) as Hd. destruct Ho. split; try done.
  - rewrite Hg. eapply chain_ext; [|done]. intros x _. apply Hd.
  - intros x cp Hx. eapply chain_ext; [|by apply lg_chains0]. intros y _. apply Hd.
  - intros x cp Hx. destruct (lg_bitmaps0 x cp Hx) as (? & ? & ? & Hc). unfold bitmap_chain. rewrite (mf_store _ _ Hm). split_and!; try done.
    intros k s Hk. destruct (Hc k s Hk) as (Hs & Hps & b & B & Hb & HB). rewrite Hd. split; [done|]. split; [by rewrite (Hp s _ Hs)|].
    exists b, B. split; [|done]. by rewrite (mf_read _ _ Hm s _ Hs).
  - intros x cp s Hx Hr Hs. rewrite Hd. by eapply lg_uses0.
Qed.
(** Writing the record of one version back. *)
Lemma visiting_put t L V gs bs U y c : visiting t L (y :: V) gs bs U -> (y, c) ∈ L ->
  exists t', putCheckpoint t y c = Ok t' /\ gc_fx t t' /\ t_ctrl t' = t_ctrl t /\
    (forall z, 1 <= z -> z <> y -> read t' (slotPage z) = read t (slotPage z)) /\ visiting t' L V gs bs U.
Proof.
  intros Hv Hy. destruct (vi_lags _ _ _ _ _ _ Hv y c Hy) as ((d & Hd & Hk) & Hok & c0 & Hr & He & _).
  destruct (put_checkpoint t y d c) as (t' & Hput & Hm & Hct & Hpe & Hcp & Ho); [apply Hv|done..| |].
  { intros E. unfold pe. apply dsc_bound in Hd. rewrite <- E, (proj2 (Z.eqb_neq y 0)), Hr by lia. done. }
  apply dsc_bound in Hd as Hb. exists t'. split; [done|]. split; [apply gc_meta; [done|by rewrite Hct]|]. split; [done|]. split; [done|].
  destruct (mf_private _ _ Hm). destruct Hv as [Hwf Hkn Hnn Hsz Hls Hlg Hown].
  split; [apply Hm|congruence..|by rewrite (mf_store _ _ Hm)|by rewrite Hct| |].
  - intros z cz Hz. destruct (Hlg z cz Hz) as ((dz & Hdz & Hkz) & Hokz & c1 & Hrz & Hez & E). split; [exists dz; by rewrite (mf_dsc _ _ Hm)|]. split; [done|].
    destruct (decide (z = y)) as [->|Hne].
    + exists c. split; [done|]. assert (cz = c) as ->; [|done]. apply list_elem_of_lookup_1 in Hz as [k Hz]. apply list_elem_of_lookup_1 in Hy as [k' Hy].
      assert (k = k') as -> by (eapply NoDup_lookup; [apply (cat_nodup _ _ Hls)|by eapply slots_lookup..]). congruence.
    + exists c1. apply dsc_bound in Hdz. split; [unfold readCheckpoint in *; rewrite Ho; [done|lia|done]|]. split; [done|]. intros Hn. apply E.
      intros [->|?]%elem_of_cons; done.
  - apply (owners_meta t); [done| |done]. intros z dz Hdz Hkz. apply (putCheckpoint_page t y c t'); [done|lia|apply dsc_bound in Hdz; lia|].
    intros ->. congruence.
Qed.
Lemma visiting_weaken t L V V' gs bs U : (forall y, y ∈ V -> y ∈ V') -> visiting t L V gs bs U -> visiting t L V' gs bs U.
Proof.
  intros Hs [Hwf Hkn Hnn Hsz Hls Hlg Hown]. split; try done. intros y c Hy. destruct (Hlg y c Hy) as (? & ? & c0 & ? & ? & E).
  split_and!; [done..|]. exists c0. split_and!; [done..|]. intros Hn. apply E. intros Hv. by apply Hn, Hs.
Qed.

(** [evolves pin L L']: the versions of [L] after some of the walk.  A version stops
    being retained only when it was withdrawn and no reader holds it. *)
Definition evolves (pin : Z -> dres unit) (L L' : list (Z * checkpoint)) : Prop :=
  length L' = length L /\ forall k y c', L' !! k = Some (y, c') -> exists c, L !! k = Some (y, c) /\
    cp_ID c' = cp_ID c /\ cp_Epoch c' = cp_Epoch c /\ cp_Root c' = cp_Root c /\ cp_Next c' = cp_Next c /\ cp_Previous c' = cp_Previous c /\
    cp_Visible c' = cp_Visible c /\ (cp_Retained c' = true -> cp_Retained c = true) /\ (cp_Pending c' = true -> cp_Pending c = true) /\
    (cp_Retained c' = true -> cp_Bitmap c' = cp_Bitmap c /\ cp_BitmapDone c' = cp_BitmapDone c) /\
    (cp_Retained c = true -> cp_Retained c' = true \/ (cp_Pending c = true /\ pin y = Ok tt)).
Lemma evolves_refl pin L : evolves pin L L.
Proof. split; [done|]. intros k y c Hk. exists c. split_and!; auto. Qed.
Lemma evolves_trans pin L L1 L2 : evolves pin L L1 -> evolves pin L1 L2 -> evolves pin L L2.
Proof.
  intros [Hl H1] [Hl2 H2]. split; [congruence|]. intros k y c Hk. destruct (H2 k y c Hk) as (c1 & Hk1 & ? & ? & ? & ? & ? & ? & R1 & ? & B1 & F1).
  destruct (H1 k y c1 Hk1) as (c0 & Hk0 & ? & ? & ? & ? & ? & ? & ? & ? & B0 & F0). exists c0. split; [done|]. split_and!; try congruence; [auto..| |].
  { intros Hr. destruct (B1 Hr) as [-> ->]. auto. }
  intros Hr. destruct (F0 Hr) as [Hr1|?]; [|by right]. destruct (F1 Hr1) as [?|[? ?]]; [by left|right; auto].
Qed.
Lemma evolves_touches pin L L' V : touches L L' V -> evolves pin L L'.
Proof.
  intros [Hl HL]. split; [done|]. intros k y c Hk. destruct (HL k y c Hk) as (c0 & Hk0 & ? & ? & ? & ? & ? & ? & Hr & Hp & [? ?] & _). exists c0.
  split; [done|]. rewrite Hr, Hp. split_and!; auto.
Qed.
Lemma evolves_insert pin L i x cp cp' : L !! i = Some (x, cp) -> cp_ID cp' = cp_ID cp -> cp_Epoch cp' = cp_Epoch cp -> cp_Root cp' = cp_Root cp ->
  cp_Next cp' = cp_Next cp -> cp_Previous cp' = cp_Previous cp -> cp_Visible cp' = cp_Visible cp -> (cp_Retained cp' = true -> cp_Retained cp = true) ->
  (cp_Pending cp' = true -> cp_Pending cp = true) ->
  (cp_Retained cp' = true -> cp_Bitmap cp' = cp_Bitmap cp /\ cp_BitmapDone cp' = cp_BitmapDone cp) ->
  (cp_Retained cp = true -> cp_Retained cp' = true \/ (cp_Pending cp = true /\ pin x = Ok tt)) ->
  evolves pin L (<[i := (x, cp')]> L).
Proof.
  intros Hi. intros. split; [by rewrite length_insert|]. intros k y c Hk. destruct (decide (k = i)) as [->|Hne].
  - rewrite list_lookup_insert_eq in Hk by (by eapply lookup_lt_Some). injection Hk as <- <-. exists cp. by split_and!.
  - rewrite list_lookup_insert_ne in Hk by done. exists c. split_and!; auto.
Qed.
Lemma evolves_slots pin L L' : evolves pin L L' -> slots L' = slots L.
Proof.
  intros [Hl HL]. unfold slots. apply list_eq. intros k. rewrite !list_lookup_fmap. destruct (L' !! k) as [[y c']|] eqn:E.
  - by destruct (HL k y c' E) as (c & -> & _).
  - apply lookup_ge_None_1 in E. by rewrite (lookup_ge_None_2 L) by lia.
Qed.
Lemma pred_ok_evolves pin g g' L L' i p : evolves pin L L' -> pred_slot g' = pred_slot g -> pred_epoch g' = pred_epoch g -> pred_ok g L i p -> pred_ok g' L' i p.
Proof.
  intros HL Hs He (Hp & Hsl & (y & c & Hy & Hey) & Hn). pose proof (evolves_slots _ _ _ HL) as Hslots. destruct HL as [Hl HL].
  split; [done|]. split.
  - rewrite Hs, Hsl. destruct p; [done|]. cbn. unfold slot_at. by rewrite Hslots.
  - split.
    + destruct (lookup_lt_is_Some_2 L' p) as [[y' c'] Hy']; [rewrite Hl; by eapply lookup_lt_Some|]. exists y', c'. split; [done|].
      destruct (HL p y' c' Hy') as (c0 & Hc0 & E). destruct_and! E. simplify_eq. congruence.
    + intros k [z cz] Hk Hki Hr. destruct (HL k z cz Hk) as (c0 & Hk0 & E). destruct_and! E. apply (Hn k (z, c0) Hk0 Hki).
      unfold is_retained in *. cbn in *. auto.
Qed.

(** The version owns nothing any more. *)
Lemma visiting_done t L V gs bs U i x cp : visiting t L (x :: V) gs bs U -> L !! i = Some (x, cp) -> cp_Pending cp = true -> cp_Retained cp = false ->
  let cp' := set_flags (cp_Visible cp) (cp_Retained cp) false cp in
  let t' := set_ctrl (set_Pending (u64 (Pending (t_ctrl t) - 1)) (t_ctrl t)) t in
  gc_fx t t' /\ visiting t' (<[i := (x, cp')]> L) (x :: V) gs bs U.
Proof.
  intros Hv Hi Hpd Hr cp' t'. pose proof Hv as [Hwf Hkn Hnn Hsz Hls Hlg Hown]. pose proof (cat_pending _ _ Hls) as Hp.
  assert ((x, cp) ∈ L) as Hin by (by eapply list_elem_of_lookup_2).
  assert (L = <[i := (x, cp)]> (<[i := (x, cp')]> L)) as HL by (by rewrite insert_twice, insert_same).
  assert (<[i := (x, cp')]> L !! i = Some (x, cp')) as Hi' by (by rewrite list_lookup_insert_eq by (by eapply lookup_lt_Some)).
  pose proof (pending_insert (<[i := (x, cp')]> L) i x cp' cp Hi' eq_refl Hpd) as Hcount. rewrite <- HL in Hcount.
  pose proof (w_ctrl _ Hwf) as Hc. unfold control_ok in Hc. destruct_and! Hc. unfold is_u64 in *.
  assert (u64 (Pending (t_ctrl t) - 1) = Pending (t_ctrl t) - 1) as HP by (unfold u64; rewrite Z.mod_small; lia).
  destruct (vi_lags _ _ _ _ _ _ Hv x cp Hin) as (_ & Hok & _).
  assert (checkpoint_ok cp') as Hok' by (unfold checkpoint_ok in *; destruct_and! Hok; cbn; split_and!; done).
  assert (cp_Visible cp = false) as Hvis.
  { destruct (cp_Visible cp) eqn:E; [|done]. destruct (cat_visible _ _ Hls x cp Hin E). congruence. }
  destruct (wf_lists t (set_Pending (u64 (Pending (t_ctrl t) - 1)) (t_ctrl t))) as (Hwf' & Hd' & Hn' & _);
    [done|unfold control_ok, is_u64; cbn; rewrite HP; split_and!; (done || lia)|done..|apply Hwf|]. fold t' in Hwf', Hd', Hn'.
  split; [split; try done; intros y d Hd; exists d; rewrite Hd'; auto|]. split; try done.
  - apply (listing_update (t_ctrl t) _ L i x cp cp'); try done; cbn; [by rewrite Hvis|eapply shields_insert; [done|done|apply Hls]|rewrite HP; lia].
  - assert (lags t (x :: V) (<[i := (x, cp')]> L)) as Hlg'.
    { apply (lags_dup _ _ _ x ltac:(by left)). by eapply lags_insert; [apply (cat_nodup _ _ Hls)|..]. }
    intros y c Hy. destruct (Hlg' y c Hy) as (Hdy & ? & c0 & ?). rewrite Hd'. by eauto.
  - assert (owners t (<[i := (x, cp')]> L) gs bs U) as Ho'.
    { eapply owners_relist; [done|]. eapply relists_insert; [apply (cat_nodup _ _ Hls)|done..]. }
    destruct Ho'. by split.
Qed.

Lemma visiting_protect t L gs bs U i x cp p pr : visiting t L [x] gs bs U -> L !! i = Some (x, cp) -> cp_Retained cp = false -> nearest L i p pr ->
  let t' := if Protected (t_ctrl t) =? x then set_ctrl (set_Protected p (t_ctrl t)) t else t in
  gc_fx t t' /\ t_pages t' = t_pages t /\ visiting t' L [x] gs bs U.
Proof.
  intros Hv Hi Hr Hn. cbn zeta. destruct (Protected (t_ctrl t) =? x) eqn:E; [|split; [apply gc_refl, Hv|done]].
  apply Z.eqb_eq in E. pose proof Hv as [Hwf Hkn Hnn Hsz Hls Hlg Hown].
  assert (meta_fx t (set_ctrl (set_Protected p (t_ctrl t)) t)) as Hm.
  { apply ctrl_protect; [done..|]. destruct Hn as [[-> _]|(j & Hji & Hj & _ & _)]; [by left|right].
    assert ((p, pr) ∈ L) as Hin by (by eapply list_elem_of_lookup_2). exists pr. split; [|by apply (cat_before _ _ Hls p)].
    destruct (Hlg p pr Hin) as (? & ? & c0 & Hc & _ & Ec). split; [done|]. split; [|done]. rewrite Hc, Ec; [done|].
    intros ->%list_elem_of_singleton. assert (i = j); [|lia]. eapply NoDup_lookup; [apply (cat_nodup _ _ Hls)|by eapply slots_lookup..]. }
  split; [by apply gc_meta|]. split; [done|]. destruct Hls. split; try done; [apply Hm| |].
  - split; try done. cbn. rewrite <- (insert_same L i x cp Hi). eapply shields_nearest; [done|done|done| |by rewrite <- E|done].
    intros ->. apply (visiting_nonzero _ _ _ _ _ _ Hv). eapply slots_in. by eapply list_elem_of_lookup_2.
  - destruct Hown. by split.
Qed.
Lemma nearest_goes t L gs bs U i x g cp pr : visiting t L [x] gs bs U -> L !! i = Some (x, cp) -> nearest L i (pred_slot g) pr ->
  exists j, goes [x; pred_slot g] i j g L pr.
Proof.
  intros Hv Hi [[H0 Hn]|(j & Hji & Hj & _ & Hn)]; [exists 0%nat; by left|]. exists j. right. split_and!; [|right; by left|done..].
  intros E. apply (visiting_nonzero _ _ _ _ _ _ Hv). eapply slots_in. rewrite <- E. by eapply list_elem_of_lookup_2.
Qed.
(** The record of the predecessor is in the file again. *)
Lemma transferred_put U i j x g t L gs bs cp pr cp' pr' (ch : bool) t' L' : visiting t L [x] gs bs U -> goes [x; pred_slot g] i j g L pr ->
  transferred U [x; pred_slot g] i j x g t L cp pr cp' pr' t' L' -> (ch = false -> pr' = pr) -> (ch = true -> pred_slot g <> 0) ->
  exists t'', (if ch then putCheckpoint t' (pred_slot g) pr' else Ok t') = Ok t'' /\ gc_fx t t'' /\
    read t'' (slotPage x) = read t (slotPage x) /\ exists gs bs, visiting t'' L' [x] gs bs U.
Proof.
  intros Hv Hgo [Hg Hct Hrd HL Hat Hcp Hgo' (gs' & bs' & Hv')] Hf Htr.
  assert (1 <= x) as Hx1 by (pose proof (visiting_slot _ _ _ _ _ _ x cp' Hv' ltac:(by eapply list_elem_of_lookup_2)); lia). destruct ch.
  - specialize (Htr eq_refl). destruct Hgo' as [[? _]|(_ & _ & Hj & Hji & _)]; [done|].
    destruct (visiting_put t' L' [x] gs' bs' U (pred_slot g) pr') as (t'' & -> & Hg' & _ & Ho & Hv'').
    + eapply visiting_weaken; [|exact Hv']. intros y Hy. apply elem_of_cons in Hy as [->|Hy]; [right; by left|]. apply list_elem_of_singleton in Hy as ->. by left.
    + by eapply list_elem_of_lookup_2.
    + exists t''. split; [done|]. split; [by eapply gc_trans|]. split; [|by exists gs', bs']. rewrite Ho, Hrd; [done|done|done|].
      intros E. assert (i = j); [|lia]. rewrite <- E in Hj.
      eapply NoDup_lookup; [apply (cat_nodup _ _ (vi_listing _ _ _ _ _ _ Hv'))|by eapply slots_lookup..].
  - exists t'. split; [done|]. split; [done|]. split; [by apply Hrd|]. exists gs', bs'. specialize (Hf eq_refl). subst pr'. pose proof Hv' as [Hwf Hkn Hnn Hsz Hls Hlg Hown].
    split; try done. intros y c Hy. destruct (Hlg y c Hy) as (Hdy & Hok & c0 & Hr & He & E). split; [done|]. split; [done|]. exists c0. split; [done|]. split; [done|].
    intros Hn. destruct (decide (y = pred_slot g)) as [->|Hne]; [|apply E; intros [->|?%list_elem_of_singleton]%elem_of_cons; [apply Hn; by left|done]].
    assert (1 <= pred_slot g) as Hp1 by (pose proof (visiting_slot _ _ _ _ _ _ _ _ Hv' Hy); lia).
    destruct Hgo as [[? _]|(_ & _ & Hj & _)]; [lia|]. destruct Hgo' as [[? _]|(_ & _ & Hj' & _)]; [lia|].
    apply list_elem_of_lookup_1 in Hy as [k Hk]. assert (k = j) as -> by (eapply NoDup_lookup; [apply (cat_nodup _ _ Hls)|by eapply slots_lookup..]).
    assert (c = pr) as -> by congruence.
    destruct (vi_lags _ _ _ _ _ _ Hv (pred_slot g) pr ltac:(by eapply list_elem_of_lookup_2)) as (_ & _ & c1 & Hr1 & _ & E1).
    unfold readCheckpoint in *. rewrite (Hrd _ Hp1), Hr1 in Hr. rewrite (E1 Hn) in Hr. congruence.
Qed.

Record handed (pin : Z -> dres unit) (U : Z -> list Z) (i : nat) (x : Z) (t : transaction) (L : list (Z * checkpoint)) (w' : gcWork) (L' : list (Z * checkpoint)) : Prop := {
  hd_gc : gc_fx t (wk_tx w');
  hd_evolves : evolves pin L L';
  hd_at : L' !! i = Some (x, wk_cp w');
  hd_self : read (wk_tx w') (slotPage x) = read t (slotPage x);
  hd_visiting : exists gs bs, visiting (wk_tx w') L' [x] gs bs U }.
Lemma hand_over_spec pin U i x w pr L gs bs : visiting (wk_tx w) L [x] gs bs U -> L !! i = Some (x, wk_cp w) -> cursor (wk_scan w) = x ->
  cp_Pending (wk_cp w) = true -> cp_Retained (wk_cp w) = false -> pred_ready (wk_scan w) = true -> settled (wk_tx w) L i x (wk_cp w) (wk_scan w) pr ->
  exists w' L', hand_over w pr = Ok w' /\ wk_scan w' = wk_scan w /\ handed pin U i x (wk_tx w) L w' L'.
Proof.
  destruct w as [dl tl g cp t]. cbn [wk_tx wk_scan wk_cp wk_discovery wk_transfers]. intros Hv Hi Hc Hpd Hr Hrdy Hst. unfold hand_over.
  cbn [wk_tx wk_scan wk_cp wk_discovery wk_transfers]. rewrite Hc. set (t0 := if _ =? x then _ else t).
  assert (exists rest cp1 pr1 ch t1 L1 t2, transfer tl t0 g cp pr false = Ok (rest, t1, cp1, pr1, ch) /\
    (if ch then putCheckpoint t1 (pred_slot g) pr1 else Ok t1) = Ok t2 /\ gc_fx t t2 /\ evolves pin L L1 /\ L1 !! i = Some (x, cp1) /\
    cp1 = set_cpGarbage (cp_Garbage cp1) cp /\ read t2 (slotPage x) = read t (slotPage x) /\ exists gs bs, visiting t2 L1 [x] gs bs U)
    as (rest & cp1 & pr1 & ch & t1 & L1 & t2 & -> & Hput & Hg2 & He1 & Hi1 & Hcp1 & Hself & gs1 & bs1 & Hv1).
  { destruct (Hst Hrdy) as [Hn|[Hg0 Hnp]].
    - destruct (visiting_protect t L gs bs U i x cp (pred_slot g) pr Hv Hi Hr Hn) as (Hg & Hpg & Hv0). fold t0 in Hg, Hpg, Hv0.
      destruct (nearest_goes t0 L gs bs U i x g cp pr Hv0 Hi Hn) as (j & Hgo).
      destruct (transfer_spec U [x; pred_slot g] i j x g ltac:(by left) tl t0 L gs bs cp pr false) as (rest & cp1 & pr1 & ch & t1 & L1 & Hok & _ & Hf & Htr & Htf);
        [eapply visiting_weaken; [|exact Hv0]; intros y ->%list_elem_of_singleton; by left|done..|].
      destruct (transferred_put U i j x g t0 L gs bs cp pr cp1 pr1 ch t1 L1 Hv0 Hgo Htf) as (t2 & Hput & Hg2 & Hx2 & Hv2).
      { intros E. by destruct (Hf E). } { intros E. by destruct (Htr E). }
      exists rest, cp1, pr1, ch, t1, L1, t2. split_and!; try done; [by eapply gc_trans|eapply evolves_touches; apply Htf|apply Htf|apply Htf|].
      rewrite Hx2. unfold read. by rewrite Hpg, (gf_store _ _ Hg).
    - assert (t0 = t) as -> by (unfold t0; by rewrite (proj2 (Z.eqb_neq _ _))).
      exists tl, cp, pr, false, t, L, t. split_and!; try done; [|apply gc_refl, Hv|apply evolves_refl|by destruct cp|by exists gs, bs].
      destruct tl; cbn [transfer]; [done|]. by rewrite Hg0. }
  cbn [res_bind]. rewrite Hput. cbn [res_bind].
  assert (cp_Pending cp1 = true /\ cp_Retained cp1 = false) as [Hpd1 Hr1] by (by rewrite Hcp1).
  destruct ((cp_Garbage cp1 =? 0) && (cp_Bitmap cp1 =? 0)).
  - destruct (visiting_done t2 L1 [] gs1 bs1 U i x cp1 Hv1 Hi1 Hpd1 Hr1) as [Hg3 Hv3].
    eexists _, _. split; [done|]. split; [done|]. split; cbn [wk_tx wk_cp]; [by eapply gc_trans| | |done|by exists gs1, bs1].
    + eapply evolves_trans; [exact He1|]. apply (evolves_insert pin L1 i x cp1); try done. intros E. congruence.
    + by rewrite list_lookup_insert_eq by (by eapply lookup_lt_Some).
  - eexists _, L1. split; [done|]. split; [done|]. split; cbn [wk_tx wk_cp]; [done..|by exists gs1, bs1].
Qed.

Lemma handed_trans pin U i x t L w L1 t1 w' L' : gc_fx t t1 -> evolves pin L L1 -> read t1 (slotPage x) = read t (slotPage x) ->
  handed pin U i x t1 L1 w' L' -> wk_tx w = t1 -> handed pin U i x t L w' L'.
Proof. intros Hg He Hr [] _. split; [by eapply gc_trans|by eapply evolves_trans|done|congruence|done]. Qed.
Lemma reclaim_spec pin U i x w L gs bs : visiting (wk_tx w) L [x] gs bs U -> L !! i = Some (x, wk_cp w) -> cursor (wk_scan w) = x ->
  cp_Pending (wk_cp w) = true -> cp_Retained (wk_cp w) = false ->
  (pred_for (wk_scan w) = cursor (wk_scan w) -> exists p, pred_ok (wk_scan w) L i p) ->
  exists w' L', reclaim w = Ok w' /\ same_walk (wk_scan w) (wk_scan w') /\ (exists p, pred_ok (wk_scan w') L' i p) /\
    handed pin U i x (wk_tx w) L w' L'.
Proof.
  destruct w as [dl tl g cp t]. cbn [wk_tx wk_scan wk_cp wk_discovery wk_transfers]. intros Hv Hi Hc Hpd Hr Hf. unfold reclaim.
  cbn [wk_tx wk_scan wk_cp wk_discovery wk_transfers].
  destruct (releaseBitmap_spec tl U [x] i x t L gs bs cp ltac:(by left) Hv Hi) as (k & cp1 & t1 & -> & Hk & Hcp1 & [Hg1 Hct1 Hrd1 (gs1 & bs1 & Hv1)]).
  cbn [res_bind]. set (L1 := <[i := (x, cp1)]> L) in *.
  assert (L1 !! i = Some (x, cp1)) as Hi1 by (unfold L1; by rewrite list_lookup_insert_eq by (by eapply lookup_lt_Some)).
  assert (evolves pin L L1) as He1 by (apply (evolves_insert pin L i x cp); try done; rewrite Hcp1; cbn; auto; congruence).
  assert (1 <= x) as Hx1 by (pose proof (visiting_slot _ _ _ _ _ _ x cp1 Hv1 ltac:(by eapply list_elem_of_lookup_2)); lia).
  destruct (predecessor_spec t1 L1 gs1 bs1 U i x cp1 Hv1 Hi1 g dl Hc) as (g1 & p1 & rest & g2 & p2 & -> & Hd & Hw & Hpf & Hpo & Hst).
  { intros E. destruct (Hf E) as (p & Hp). exists p. by eapply pred_ok_evolves. }
  cbn [res_bind]. rewrite Hd. cbn [res_bind]. set (g3 := if pred_slot g2 =? 0 then _ else g2) in *.
  assert (cp_Pending cp1 = true /\ cp_Retained cp1 = false) as [Hpd1 Hr1] by (by rewrite Hcp1).
  destruct (pred_ready g3) eqn:Erdy.
  - destruct (hand_over_spec pin U i x (mkWork rest (tl - k) g3 cp1 t1) p2 L1 gs1 bs1) as (w' & L' & -> & Hsc & Hh); try done.
    { cbn. destruct Hw. congruence. }
    cbn [wk_scan wk_tx] in Hsc, Hh. exists w', L'. rewrite Hsc. split; [done|]. split; [done|]. split.
    + destruct Hpo as (p & Hp). exists p. eapply pred_ok_evolves; [apply Hh|done|done|done].
    + eapply (handed_trans pin U i x t L (mkWork rest (tl - k) g3 cp1 t1)); [exact Hg1|exact He1|by apply Hrd1|exact Hh|done].
  - eexists _, L1. split; [done|]. split; [done|]. split; [done|]. split; cbn [wk_tx wk_cp]; [done|done|done|by apply Hrd1|by exists gs1, bs1].
Qed.

(** The place of the walk in the list [L]. *)
Definition at_place (g : gcScan) (L : list (Z * checkpoint)) (i : nat) : Prop :=
  exists c k, L !! i = Some (cursor g, c) /\ (i <= k < length L)%nat /\ tail g = slot_at L k /\ visited g = Z.of_nat i /\ Z.of_nat k < limit g /\
    (pred_for g = cursor g -> exists p, pred_ok g L i p).
Definition scan_ok (g : gcScan) (L : list (Z * checkpoint)) : Prop := cursor g = 0 \/ exists i, at_place g L i.
(** Ignoring the count of blocked versions. *)
Definition same_place (g g' : gcScan) : Prop :=
  cursor g' = cursor g /\ tail g' = tail g /\ generation g' = generation g /\ visited g' = visited g /\ limit g' = limit g.
Lemma visit_spec pin U dl tl g t L gs bs i x c : pinnable pin -> visiting t L [] gs bs U -> L !! i = Some (x, c) -> cursor g = x ->
  (pred_for g = cursor g -> exists p, pred_ok g L i p) ->
  exists w L' gs' bs', visit pin dl tl g t = Ok w /\ same_place g (wk_scan w) /\ evolves pin L L' /\ L' !! i = Some (x, wk_cp w) /\
    gc_fx t (wk_tx w) /\ visiting (wk_tx w) L' [] gs' bs' U /\ (pred_for (wk_scan w) = cursor (wk_scan w) -> exists p, pred_ok (wk_scan w) L' i p).
Proof.
  intros Hpin Hv Hi Hc Hf. unfold visit. assert ((x, c) ∈ L) as Hin by (by eapply list_elem_of_lookup_2). rewrite Hc.
  destruct (vi_lags _ _ _ _ _ _ Hv x c Hin) as (_ & Hok & c0 & Hrc & _ & E). rewrite (E (not_elem_of_nil x)) in Hrc. clear c0 E.
  rewrite Hrc. cbn [res_bind]. pose proof (visiting_weaken _ _ _ [x] _ _ _ ltac:(intros y Hy; by apply elem_of_nil in Hy) Hv) as Hvx.
  pose proof (vi_listing _ _ _ _ _ _ Hv) as Hls.
  assert (exists g1 c1, try_pin pin g c = Ok (g1, c1) /\ same_place g g1 /\ pred_slot g1 = pred_slot g /\ pred_epoch g1 = pred_epoch g /\
    pred_for g1 = pred_for g /\ evolves pin L (<[i := (x, c1)]> L) /\ visiting t (<[i := (x, c1)]> L) [x] gs bs U) as (g1 & c1 & -> & Hw1 & Hs1 & He1 & Hf1 & Hev1 & Hv1).
  { assert (exists g1, try_pin pin g c = Ok (g1, c) /\ same_place g g1 /\ pred_slot g1 = pred_slot g /\ pred_epoch g1 = pred_epoch g /\ pred_for g1 = pred_for g \/
      try_pin pin g c = Ok (g, set_flags (cp_Visible c) false (cp_Pending c) c) /\ cp_Pending c = true /\ cp_Retained c = true /\ pin x = Ok tt) as [g1 [(Hok1 & ?)|(Hok1 & Hpd & Hr & Hpx)]].
    { unfold try_pin. destruct (cp_Pending c && cp_Retained c) eqn:Eb; [|exists g; by left]. apply andb_true_iff in Eb as [Hpd Hr]. rewrite Hc.
      destruct (Hpin x) as [-> | ->]; [exists g; right; by rewrite Hpd|eexists; left; by split]. }
    - exists g1, c. rewrite (insert_same L i x c Hi). destruct_and!. split_and!; try done. apply evolves_refl.
    - assert (cp_Visible c = false) as Hvis by (destruct (cp_Visible c) eqn:Ev; [|done]; destruct (cat_visible _ _ Hls x c Hin Ev); congruence).
      eexists g, _. split; [exact Hok1|]. split; [done|]. split; [done|]. split; [done|]. split; [done|]. split.
      + apply (evolves_insert pin L i x c); try done. intros _. by right.
      + apply (visiting_flags t L [] gs bs U i x c); done. }
  cbn [res_bind]. set (L1 := <[i := (x, c1)]> L) in *. set (w1 := mkWork dl tl g1 c1 t).
  assert (L1 !! i = Some (x, c1)) as Hi1 by (unfold L1; by rewrite list_lookup_insert_eq by (by eapply lookup_lt_Some)).
  assert (cursor g1 = x) as Hc1 by (destruct Hw1; congruence).
  assert (pred_for g1 = cursor g1 -> exists p, pred_ok g1 L1 i p) as Hp1.
  { intros E. destruct Hf as (p & Hp); [congruence|]. exists p. by eapply pred_ok_evolves. }
  assert (exists w L', (if cp_Pending c1 && negb (cp_Retained c1) then reclaim w1 else Ok w1) = Ok w /\ same_walk g1 (wk_scan w) /\
    (pred_for (wk_scan w) = cursor (wk_scan w) -> exists p, pred_ok (wk_scan w) L' i p) /\ handed pin U i x t L1 w L') as (w & L' & -> & Hww & Hwp & [Hg He Hat Hself (gs2 & bs2 & Hv2)]).
  { destruct (cp_Pending c1 && negb (cp_Retained c1)) eqn:Eb.
    - apply andb_true_iff in Eb as [Hpd Hr%negb_true_iff].
      destruct (reclaim_spec pin U i x w1 L1 gs bs) as (w & L' & -> & ? & ? & ?); try done. exists w, L'. split_and!; try done.
    - exists w1, L1. split_and!; try done. split; [apply gc_refl, Hv|apply evolves_refl|done|done|by exists gs, bs]. }
  cbn [res_bind]. assert (same_place g (wk_scan w)) as Hsp by (unfold same_place, same_walk in *; destruct_and!; split_and!; congruence).
  assert (cursor (wk_scan w) = x) as Hcw by (destruct Hsp; congruence).
  case_bool_decide as Eo.
  - exists w, L', gs2, bs2. split_and!; try done; [by eapply evolves_trans|]. destruct Hv2 as [Hwf Hkn Hnn Hsz Hls2 Hlg Hown]. split; try done.
    intros y cy Hy. destruct (Hlg y cy Hy) as (Hdy & Hoky & c0 & Hr0 & He0 & E0). split; [done|]. split; [done|]. exists c0. split; [done|]. split; [done|].
    intros _. destruct (decide (y = x)) as [->|Hne]; [|apply E0; by intros ?%list_elem_of_singleton].
    apply list_elem_of_lookup_1 in Hy as [k Hk]. assert (k = i) as -> by (eapply NoDup_lookup; [apply (cat_nodup _ _ Hls2)|by eapply slots_lookup..]).
    assert (cy = wk_cp w) as -> by congruence. unfold readCheckpoint in *. rewrite Hself, Hrc in Hr0. congruence.
  - destruct (visiting_put (wk_tx w) L' [] gs2 bs2 U x (wk_cp w)) as (t' & Hput & Hg' & _ & _ & Hv'); [done|by eapply list_elem_of_lookup_2|].
    rewrite Hcw, Hput. cbn [res_bind]. eexists _, L', gs2, bs2. split; [done|]. cbn [wk_scan wk_cp wk_tx]. split_and!; try done; [by eapply evolves_trans|by eapply gc_trans].
Qed.

(** What a walk achieves: it only takes from the versions what they no longer need, and ends where it can go on. *)
Definition walked (pin : Z -> dres unit) (U : Z -> list Z) (t : transaction) (L : list (Z * checkpoint)) (g' : gcScan) (t' : transaction) : Prop :=
  exists L' gs bs, evolves pin L L' /\ gc_fx t t' /\ visiting t' L' [] gs bs U /\ scan_ok g' L'.
Lemma walked_trans pin U t L t1 L1 g2 t2 : evolves pin L L1 -> gc_fx t t1 -> walked pin U t1 L1 g2 t2 -> walked pin U t L g2 t2.
Proof.
  intros He Hg (L' & gs & bs & He' & Hg' & Hv & Hs). exists L', gs, bs. split; [by eapply evolves_trans|]. split; [by eapply gc_trans|done].
Qed.
Lemma at_place_evolves pin g g' L L' i c : evolves pin L L' -> same_place g g' -> at_place g L i -> L' !! i = Some (cursor g, c) ->
  (pred_for g' = cursor g' -> exists p, pred_ok g' L' i p) -> at_place g' L' i.
Proof.
  intros He (Hc & Ht & _ & Hvs & Hl) (c0 & k & _ & Hk & Htl & Hvi & Hlm & _) Hi Hf. exists c, k. rewrite Hc, Ht, Hvs, Hl.
  unfold slot_at in *. rewrite (evolves_slots _ _ _ He). destruct He as [-> _]. rewrite Hc in Hf. done.
Qed.
Lemma advance_place t L gs bs U g i c : visiting t L [] gs bs U -> at_place g L i -> L !! i = Some (cursor g, c) -> cursor g <> tail g ->
  cp_Next c <> 0 /\ at_place (advance (cp_Next c) g) L (S i).
Proof.
  intros Hv (c0 & k & Hi0 & Hk & Htl & Hvi & Hlm & _) Hi Hne. pose proof (vi_listing _ _ _ _ _ _ Hv) as Hls.
  assert (i <> k) as Hik by (intros ->; apply Hne; by rewrite Htl, (slot_at_lookup _ _ _ _ Hi)).
  destruct (lookup_lt_is_Some_2 L (S i)) as [[y d] Hy]; [lia|].
  assert (cp_Next c = y) as -> by (by rewrite (cat_next _ _ Hls _ _ _ Hi), (slot_at_lookup _ _ _ _ Hy)).
  pose proof (visiting_slot _ _ _ _ _ _ y d Hv ltac:(by eapply list_elem_of_lookup_2)) as Hyb. split; [lia|].
  pose proof (catalog_length t L (lg_catalog _ _ _ _ _ (visiting_ledger _ _ _ _ _ Hv))) as Hlen.
  pose proof (w_next t (vi_wf _ _ _ _ _ _ Hv)) as Hnx. rewrite maxSlot_val in Hnx.
  exists d, k. unfold advance. cbn [cursor tail visited limit pred_for]. split_and!; try done; try lia.
  rewrite Hvi, u64_id by (unfold is_u64; lia). lia.
Qed.
Lemma walk_spec pin deletions U : pinnable pin -> forall n dl tl g t L gs bs, visiting t L [] gs bs U -> scan_ok g L ->
  exists b g' t', walk pin deletions n dl tl g t = Ok (b, g', t') /\ walked pin U t L g' t'.
Proof.
  intros Hpin. induction n as [|n IH]; intros dl tl g t L gs bs Hv Hs.
  { exists false, g, t. split; [done|]. exists L, gs, bs. split_and!; [apply evolves_refl|apply gc_refl, Hv|done|done]. }
  cbn [walk]. destruct (cursor g =? 0) eqn:Ec.
  { exists false, g, t. split; [done|]. exists L, gs, bs. split_and!; [apply evolves_refl|apply gc_refl, Hv|done|done]. }
  apply Z.eqb_neq in Ec. destruct Hs as [?|[i Hat]]; [done|]. pose proof Hat as (c & k & Hi & Hk & Htl & Hvi & Hlm & Hf).
  rewrite (proj2 (Z.leb_gt _ _)) by lia.
  destruct (visit_spec pin U dl tl g t L gs bs i (cursor g) c Hpin Hv Hi eq_refl Hf) as (w & L' & gs' & bs' & -> & Hsp & He & Hi' & Hg & Hv' & Hf').
  cbn [res_bind]. pose proof (at_place_evolves pin g (wk_scan w) L L' i (wk_cp w) He Hsp Hat Hi' Hf') as Hat'.
  assert (forall g', scan_ok g' L' -> walked pin U t L g' (wk_tx w)) as Hw by (intros g' Hg'; by exists L', gs', bs').
  destruct (cp_Pending (wk_cp w) && _); [eexists _, _, _; split; [done|apply Hw; right; by exists i]|].
  destruct (cursor (wk_scan w) =? tail (wk_scan w)) eqn:Et; [eexists _, _, _; split; [done|apply Hw; by left]|].
  apply Z.eqb_neq in Et. destruct Hsp as (Hc & _). rewrite <- Hc in Hi'.
  destruct (advance_place _ _ _ _ _ _ _ _ Hv' Hat' Hi' Et) as [Hn Hat2]. rewrite (proj2 (Z.eqb_neq _ _) Hn).
  destruct (IH (wk_discovery w) (wk_transfers w) (advance (cp_Next (wk_cp w)) (wk_scan w)) (wk_tx w) L' gs' bs' Hv') as (b & g' & t' & Hwk & Hwd).
  { right. by exists (S i). }
  exists b, g', t'. split; [exact Hwk|]. by eapply (walked_trans pin U t L (wk_tx w) L').
Qed.
Lemma start_scan_ok deletions t L gs bs U g : visiting t L [] gs bs U -> scan_ok g L -> scan_ok (start_scan deletions (t_ctrl t) g) L.
Proof.
  intros Hv Hs. unfold start_scan. destruct (cursor g =? 0) eqn:E; [|done]. pose proof (vi_listing _ _ _ _ _ _ Hv) as Hls.
  destruct (L !! 0%nat) as [[x c]|] eqn:H0; [right|left; cbn; by rewrite (cat_head _ _ Hls), slot_at_end by (by apply lookup_ge_None_1)].
  exists 0%nat, c, (pred (length L)). cbn [cursor tail visited limit pred_for].
  pose proof (catalog_length t L (lg_catalog _ _ _ _ _ (visiting_ledger _ _ _ _ _ Hv))) as Hlen. pose proof (lookup_lt_Some _ _ _ H0) as Hl0.
  rewrite (cat_head _ _ Hls), (slot_at_lookup _ _ _ _ H0), (cat_tail _ _ Hls). split_and!; try done; try lia.
  - unfold slot_at, slots. by rewrite last_lookup, length_fmap.
  - intros E0. pose proof (visiting_slot _ _ _ _ _ _ x c Hv ltac:(by eapply list_elem_of_lookup_2)). lia.
Qed.
Lemma gcVersions_spec pin deletions U g t budget L gs bs : pinnable pin -> visiting t L [] gs bs U -> scan_ok g L ->
  exists b g' t', gcVersions pin deletions g t budget = Ok (b, g', t') /\ walked pin U t L g' t'.
Proof. intros Hpin Hv Hs. by eapply walk_spec, start_scan_ok. Qed.

(** ** What collection leaves alone *)

(** Every retained version of [L] is read in [t'] as in [t]: its tree, its entries and its payload pages. *)
Definition keeps_versions (t t' : transaction) (L : list (Z * checkpoint)) (U : Z -> list Z) : Prop :=
  forall x cp, (x, cp) ∈ L -> cp_Retained cp = true ->
    (forall l, version_at t cp (U x) l -> version_at t' cp (U x) l) /\
    forall s, s ∈ U x -> read t' (slotPage s) = read t (slotPage s).
(** And so is the current mapping. *)
Definition keeps_current (t t' : transaction) : Prop :=
  Root (t_ctrl t') = Root (t_ctrl t) /\ forall levels l fp, mapping t levels (Root (t_ctrl t)) l fp ->
    mapping t' levels (Root (t_ctrl t)) l fp /\
    forall e d, e ∈ l -> dsc t (slot e) = Some d -> Kind d = kindData -> read t' (slotPage (slot e)) = read t (slotPage (slot e)).
(** The store whose pages of [l] are punched out while the control page still says they are garbage. *)
Definition punched_store (st : Store) (l : list Z) : Store := mkStore (punch_slots (s_file st) l) (s_ctrl st) (s_presence st) (s_size st).

Lemma quiet_versions t t' L gs bs U : owners t L gs bs U ->
  (forall x cp s d, (x, cp) ∈ L -> cp_Retained cp = true -> s ∈ U x -> dsc t s = Some d -> payload_kind (Kind d) ->
    nd t' s = nd t s /\ read t' (slotPage s) = read t (slotPage s)) -> keeps_versions t t' L U.
Proof.
  intros Ho H x cp Hin Hr. split.
  - intros l. apply version_keep. intros s Hs. destruct (lg_uses _ _ _ _ _ Ho x cp s Hin Hr Hs) as (d & Hd & Hk & _). by eapply H.
  - intros s Hs. destruct (lg_uses _ _ _ _ _ Ho x cp s Hin Hr Hs) as (d & Hd & Hk & _). by eapply H.
Qed.
Lemma quiet_current t t' : Root (t_ctrl t') = Root (t_ctrl t) ->
  (forall s d, dsc t s = Some d -> Kind d = kindIndex \/ Kind d = kindData ->
    dsc t' s = Some d /\ nd t' s = nd t s /\ read t' (slotPage s) = read t (slotPage s)) -> keeps_current t t'.
Proof.
  intros Hr H. split; [done|]. intros levels l fp [Ht Hs Hn Hl]. split.
  - split; [|done|done|].
    + destruct Ht as [?|(h & Hh & Ht)]; [by left|]. right. exists h. split; [done|]. eapply tree_ext; [|exact Ht].
      intros x n Hx Hnd. destruct (Hl x Hx) as (d & Hd & Hk). destruct (H x d Hd ltac:(by left)) as (_ & -> & _). done.
    + intros x Hx. destruct (Hl x Hx) as (d & Hd & Hk). exists d. split; [|done]. by apply (H x d Hd); left.
  - intros e d _ Hd Hk. apply (H _ d Hd). by right.
Qed.

(** Only the contents of garbage slots differ. *)
Lemma ledger_contents t t' L gs bs U : t_ctrl t' = t_ctrl t -> s_size (store t') = s_size (store t) -> t_pages t' = t_pages t ->
  (forall x, dsc t' x = dsc t x) -> (forall x d, dsc t x = Some d -> Kind d <> kindGarbage -> read t' (slotPage x) = read t (slotPage x)) ->
  ledger t L gs bs U -> ledger t' L gs bs U.
Proof.
  intros Hc Hsz Hp Hd Hr [[Hls Hcp] []]. assert (forall k s l, chain (dsc t) k s l -> chain (dsc t') k s l) as Hch.
  { intros k s l Hl. eapply chain_ext; [|exact Hl]. intros x _. apply Hd. }
  split; [split|split]; rewrite ?Hc; auto.
  - intros x cp Hin. destruct (Hcp x cp Hin) as ((d & Hx & Hk) & Hrd & Hok). split; [exists d; by rewrite Hd|]. split; [|done].
    unfold readCheckpoint. rewrite (Hr x d); [done|done|by rewrite Hk].
  - intros x cp Hin. destruct (lg_bitmaps0 x cp Hin) as (? & ? & ? & Hb). unfold bitmap_chain. rewrite Hsz. split_and!; try done.
    intros j s Hj. destruct (Hb j s Hj) as (Hs & Hps & Hrs). rewrite Hd, Hp, (Hr s _ Hs) by done. done.
  - intros x cp s Hin Hret Hs. rewrite Hd. by eapply lg_uses0.
Qed.

(** C19 — Returning slots: releasing a batch of the garbage list succeeds and frees
    exactly the first [budget] slots of the list; the accounts of the versions still
    agree; every retained version and the current mapping read as before. The same
    holds when the host stops after the pages were punched and before the control
    page was published: the old accounts then still describe the punched file. *)
Theorem gc_release_safe st L gs bs U budget : tx_wf (begin st) -> ledger (begin st) L gs bs U ->
  exists l t', gcRelease (begin st) budget = Ok (l, t') /\ l ≡ₚ take budget (gs 0) /\
    tx_wf t' /\ (exists gs', ledger t' L gs' bs U /\ gs' 0 = drop budget (gs 0)) /\
    (forall fl, chain (dsc (begin st)) kindFree (Free (s_ctrl st)) fl -> chain (dsc t') kindFree (Free (t_ctrl t')) (l ++ fl)) /\
    keeps_versions (begin st) t' L U /\ keeps_current (begin st) t' /\
    tx_wf (begin (punched_store st l)) /\ ledger (begin (punched_store st l)) L gs bs U /\
    keeps_versions (begin st) (begin (punched_store st l)) L U /\ keeps_current (begin st) (begin (punched_store st l)).
Proof.
  intros Hwf Hlg. set (t := begin st) in *. destruct (gcRelease_spec t (gs 0) budget) as (l & t' & Hok & Hperm & Hrs & _ & Hch).
  { done. } { done. } { apply Hlg. } { apply (proj1 (lg_separate _ _ _ _ _ Hlg)). by left. }
  assert (forall s d, dsc t s = Some d -> Kind d = kindIndex \/ Kind d = kindData -> 1 <= s /\ s ∉ l) as Hlive.
  { intros s d Hd Hk. split; [apply dsc_bound in Hd; lia|]. eapply released_not; [exact Hrs|exact Hd|]. by destruct Hk as [-> | ->]. }
  assert (forall x cp s, (x, cp) ∈ L -> cp_Retained cp = true -> s ∈ U x -> 1 <= s /\ s ∉ l) as Hused by (by eapply released_used).
  assert (forall s, s ∈ l -> exists d, dsc t s = Some d /\ Kind d = kindGarbage) as Hl.
  { intros s Hs. destruct (rs_kind _ _ _ Hrs s Hs) as (d & _ & ? & ? & _). by exists d. }
  exists l, t'. split; [done|]. split; [done|]. split; [apply Hrs|].
  split; [exists (after_release gs budget); split; [by eapply released_ledger|done]|]. split; [intros fl; apply (rs_free _ _ _ Hrs)|]. split_and!.
  - eapply quiet_versions; [apply Hlg|]. intros x cp s d Hx Hr Hs _ _. destruct (Hused x cp s Hx Hr Hs). split; [by apply (rs_nd _ _ _ Hrs)|by apply (rs_read _ _ _ Hrs)].
  - apply quiet_current; [by rewrite (rs_ctrl _ _ _ Hrs)|]. intros s d Hd Hk. destruct (Hlive s d Hd Hk).
    split; [by rewrite (rs_dsc _ _ _ Hrs)|]. split; [by apply (rs_nd _ _ _ Hrs)|by apply (rs_read _ _ _ Hrs)].
  - by apply (punched_wf t l).
  - apply (ledger_contents t); [done|done|done|by apply (punched_dsc t l)| |exact Hlg]. intros s d Hd Hk. apply (punched_slot t l); [done|apply dsc_bound in Hd; lia|].
    by eapply released_not.
  - eapply quiet_versions; [apply Hlg|]. intros x cp s d Hx Hr Hs _ _. destruct (Hused x cp s Hx Hr Hs).
    split; [by apply (punched_nd t l)|by apply (punched_slot t l)].
  - apply quiet_current; [done|]. intros s d Hd Hk. destruct (Hlive s d Hd Hk). rewrite <- Hd at 1.
    split; [by apply (punched_dsc t l)|]. split; [by apply (punched_nd t l)|by apply (punched_slot t l)].
Qed.

(** C20 — Walking the versions: a turn of the walk succeeds from wherever the previous
    turn stopped and leaves a place from which the next can go on; the accounts of
    the versions still agree; a version stops being retained only when its name was
    deleted and no reader holds it; and every version still retained and the current
    mapping read as before. *)
Theorem gc_versions_safe pin deletions st L gs bs U g budget : pinnable pin -> tx_wf (begin st) -> writable_size (s_size st) ->
  ledger (begin st) L gs bs U -> scan_ok g L ->
  exists b g' t' L' gs' bs', gcVersions pin deletions g (begin st) budget = Ok (b, g', t') /\
    tx_wf t' /\ ledger t' L' gs' bs' U /\ scan_ok g' L' /\ evolves pin L L' /\
    keeps_versions (begin st) t' L U /\ keeps_current (begin st) t'.
Proof.
  intros Hpin Hwf Hsz Hlg Hs. set (t := begin st) in *.
  destruct (gcVersions_spec pin deletions U g t budget L gs bs) as (b & g' & t' & Hok & L' & gs' & bs' & He & Hg & Hv & Hs'); [done|by apply ledger_visiting|done|].
  exists b, g', t', L', gs', bs'. split; [done|]. split; [apply Hv|]. split; [by apply visiting_ledger|]. split; [done|]. split; [done|]. split.
  - eapply quiet_versions; [apply Hlg|]. intros x cp s d _ _ _ Hd Hk. assert (Kind d <> kindCheckpoint) as Hne by (by destruct Hk as [-> | [-> | ->]]).
    split; [by eapply gf_nd|by eapply gf_read].
  - apply quiet_current; [apply (gf_ctrl _ _ Hg)|]. intros s d Hd Hk. assert (Kind d <> kindCheckpoint) as Hne by (by destruct Hk as [-> | ->]).
    split; [|split; [by eapply gf_nd|by eapply gf_read]]. destruct (gf_dsc _ _ Hg s d Hd) as (d' & Hd' & _ & [->|[_ [Hk'|Hk']]]); [done|..];
      destruct Hk as [Hk|Hk]; by rewrite Hk in Hk'.
Qed.

(** ** The store of the witnesses *)

#[local] Opaque gd_cp_page gd_ctrl_page demo_presence_page encodeNode zeroPage.
Definition gd_garbage (x : Z) : list Z := if x =? 0 then [8] else if x =? 5 then [7] else [].
Definition gd_bitmaps (x : Z) : list Z := if x =? 3 then [4] else if x =? 5 then [6] else [].
Definition gd_uses (x : Z) : list Z := if x =? 3 then [1; 2] else if x =? 5 then [1; 2; 7] else [].
Lemma gd_chain s : 1 <= s < 9 -> Kind (gd_desc s) = kindGarbage -> chain (dsc (begin gd_store)) kindGarbage s [s].
Proof.
  intros Hs Hk. cbn. split; [done|]. split; [lia|]. exists (gd_desc s). split; [by apply gd_dsc|done].
Qed.
Lemma gd_bitmap s b cp : 1 <= s < 9 -> cp_Bitmap cp = s -> cp_BitmapDone cp = 0 -> gd_desc s = mkDescriptor (cp_Epoch cp) 0 kindBitmap ->
  (slotPage s, demo_presence_page) ∈ gd_pages -> b = [s] -> bitmap_chain (begin gd_store) cp b.
Proof.
  intros Hs Hb Hd Hk Hp ->. split; [done|]. split; [lia|]. split; [rewrite Hd; reflexivity|]. intros [|j] x; [|done]. intros [= <-].
  rewrite gd_dsc by done. split; [by rewrite Hk|]. split; [done|]. exists demo_presence_page, (part demo_presence demo_size 0).
  split; [by apply gd_page|]. rewrite Hd. apply decode_page_encoded; [apply demo_valid_size|apply demo_bitmap_ok| |apply demo_presence_encoded].
  split; [discriminate|reflexivity].
Qed.
Lemma gd_ledger : ledger (begin gd_store) gd_list gd_garbage gd_bitmaps gd_uses.
Proof.
  assert (forall x cp, (x, cp) ∈ gd_list -> (x = 3 /\ cp = gd_base) \/ (x = 5 /\ cp = gd_gone)) as Hi.
  { unfold gd_list. intros x cp. rewrite !elem_of_cons. intros [[= -> ->]|[[= -> ->]|?%elem_of_nil]]; [by left|by right|done]. }
  assert (forall f, (forall x, NoDup (f x)) -> (forall x y s, s ∈ f x -> s ∈ f y -> x = y) -> forall l, separate l f) as Hsep by (intros f H1 H2 l; split; eauto).
  split; [apply gd_catalog|]. split.
  - by apply gd_chain.
  - intros x cp [[-> ->]|[-> ->]]%Hi; [done|by apply gd_chain].
  - apply Hsep; unfold gd_garbage; intros *; repeat case_match; bool_prop; first [apply NoDup_nil_2|apply NoDup_singleton|set_solver].
  - intros x cp [[-> ->]|[-> ->]]%Hi; [eapply (gd_bitmap 4)|eapply (gd_bitmap 6)]; try done; [do 6 right; by left|do 8 right; by left].
  - apply Hsep; unfold gd_bitmaps; intros *; repeat case_match; bool_prop; first [apply NoDup_nil_2|apply NoDup_singleton|set_solver].
  - intros x cp s [[-> ->]|[-> ->]]%Hi _ Hs; exists (gd_desc s); (split; [apply gd_dsc|]); cbn in Hs; rewrite !elem_of_cons in Hs;
      destruct_or! Hs; try (by apply elem_of_nil in Hs); subst s; try lia; (split; [unfold payload_kind; cbn; auto|cbn; lia]).
  - intros x cp y cq s [[-> ->]|[-> ->]]%Hi Hs [[-> ->]|[-> ->]]%Hi _ Hu; cbn in *; try lia. by apply elem_of_nil in Hs.
  - intros y cq s [[-> ->]|[-> ->]]%Hi _ Hu Hs; cbn in *; set_solver.
Qed.

Lemma gc_release_safe_witness : exists l t', gcRelease (begin gd_store) 4 = Ok (l, t') /\ l ≡ₚ [8] /\
  keeps_versions (begin gd_store) (begin (punched_store gd_store l)) gd_list gd_uses.
Proof.
  destruct (gc_release_safe gd_store gd_list gd_garbage gd_bitmaps gd_uses 4) as (l & t' & Hok & Hl & _ & _ & _ & _ & _ & _ & _ & Hk & _).
  - apply gd_wf.
  - apply gd_ledger.
  - exists l, t'. split; [exact Hok|]. split; [exact Hl|exact Hk].
Defined.

Lemma gc_versions_safe_witness : exists b g' t', gcVersions (fun _ => Ok tt) 0 gcScan0 (begin gd_store) 4 = Ok (b, g', t') /\
  keeps_versions (begin gd_store) t' gd_list gd_uses.
Proof.
  destruct (gc_versions_safe (fun _ => Ok tt) 0 gd_store gd_list gd_garbage gd_bitmaps gd_uses gcScan0 4)
    as (b & g' & t' & L' & gs' & bs' & Hok & _ & _ & _ & _ & Hk & _).
  - intros x. by left.
  - apply gd_wf.
  - apply demo_writable.
  - apply gd_ledger.
  - by left.
  - exists b, g', t'. split; [exact Hok|exact Hk].
Defined.
