(* ===== verification/Accounts.v ===== *)
(** * Accounts: who owns which slot, through every update of the store.

    The ledger of Gc.v says which version or list owns every retired slot and every
    bitmap slot, and which slots a retained version reads.  Here it is shown that
    the steps updates are made of (allocating, retiring, editing nodes), committing,
    taking a checkpoint and withdrawing versions all keep it. *)
From stdpp Require Import base numbers list gmap strings sorting relations.
From Stdlib Require Import ZArith Lia.
From S2P Require Import Prelude Page Presence Json Format Tree Tx Demo TreeWrite Retire TreeRemove Sha256 Commit Crash Publish Bitmap Checkpoint GcDemo Gc.

#[local] Opaque Sum256 sealPage checkPage Page.put.

(** ** A retired slot finds an owner *)

Definition pushed (s to : Z) (gs : Z -> list Z) (y : Z) : list Z := if y =? to then s :: gs to else gs y.
Lemma pushed_in s to gs y z : z ∈ pushed s to gs y -> z = s /\ y = to \/ z ∈ gs y.
Proof. unfold pushed. destruct (y =? to) eqn:E; bool_prop; [subst; intros [->|?]%elem_of_cons; auto|auto]. Qed.
Lemma owners_garbage t L gs bs U y s : owners t L gs bs U -> y ∈ 0 :: slots L -> s ∈ gs y -> exists d, dsc t s = Some d /\ Kind d = kindGarbage.
Proof.
  intros Ho Hy Hs. apply elem_of_cons in Hy as [->|([p cq] & -> & Hp)%list_elem_of_fmap]; [eapply chain_kind; [apply Ho|done]|].
  eapply chain_kind; [by apply (lg_chains _ _ _ _ _ Ho p cq)|done].
Qed.
Lemma owners_bitmap t L gs bs U y s : owners t L gs bs U -> y ∈ slots L -> s ∈ bs y -> exists d, dsc t s = Some d /\ Kind d = kindBitmap.
Proof.
  intros Ho ([p cq] & -> & Hp)%list_elem_of_fmap [j Hj]%list_elem_of_lookup_1. cbn in Hj.
  destruct (lg_bitmaps _ _ _ _ _ Ho p cq Hp) as (_ & _ & _ & Hb). destruct (Hb j s Hj) as (-> & _). eauto.
Qed.
Lemma owners_push t t' L L' gs bs U to s d : owners t L gs bs U -> to ∈ 0 :: slots L -> dsc t s = Some d -> Kind d = kindIndex \/ Kind d = kindData ->
  (forall x, x <> s -> dsc t' x = dsc t x) -> dsc t' s = Some (mkDescriptor (Birth d) (default 0 (head (gs to))) kindGarbage) ->
  (forall cp l, s ∉ l -> bitmap_chain t cp l -> bitmap_chain t' cp l) ->
  Garbage (t_ctrl t') = (if to =? 0 then s else Garbage (t_ctrl t)) ->
  relists L L' (fun y c0 c => cp_Garbage c = (if y =? to then s else cp_Garbage c0) /\ cp_Bitmap c = cp_Bitmap c0 /\ cp_BitmapDone c = cp_BitmapDone c0) ->
  (forall y cy, (y, cy) ∈ L -> cp_Retained cy = true -> s ∈ U y -> to <> 0 /\ forall ct, (to, ct) ∈ L -> cp_Epoch cy <= cp_Epoch ct) ->
  0 ∉ slots L -> owners t' L' (pushed s to gs) bs U.
Proof.
  intros Ho Hto Hd Hk Hoth Hds Hbm Hg [Hsl HL] Hsafe H0. pose proof (lg_separate _ _ _ _ _ Ho) as [Hn Hsd].
  assert (s <> 0) as Hs0 by (apply dsc_bound in Hd; lia).
  assert (forall y, y ∈ 0 :: slots L -> s ∉ gs y) as Hno.
  { intros y Hy Hin. destruct (owners_garbage _ _ _ _ _ y s Ho Hy Hin) as (d' & Hd' & Hk'). simplify_eq. destruct Hk as [E|E]; by rewrite E in Hk'. }
  assert (forall y, y ∈ slots L -> s ∉ bs y) as Hnb.
  { intros y Hy Hin. destruct (owners_bitmap _ _ _ _ _ y s Ho Hy Hin) as (d' & Hd' & Hk'). simplify_eq. destruct Hk as [E|E]; by rewrite E in Hk'. }
  assert (forall kind h l, s ∉ l -> chain (dsc t) kind h l -> chain (dsc t') kind h l) as Hch.
  { intros kind h l Hl Hc. eapply chain_ext; [|exact Hc]. intros x Hx. apply Hoth. by intros ->. }
  assert (chain (dsc t') kindGarbage s (s :: gs to)) as Hct.
  { split; [done|]. split; [done|]. eexists. split; [exact Hds|]. split; [done|]. cbn [dNext]. apply Hch; [by apply Hno|].
    apply elem_of_cons in Hto as [->|([p cq] & -> & Hp)%list_elem_of_fmap].
    - pose proof (lg_global _ _ _ _ _ Ho) as Hg0. by rewrite <- (chain_hd _ _ _ _ Hg0).
    - pose proof (lg_chains _ _ _ _ _ Ho p cq Hp) as Hgp. cbn. by rewrite <- (chain_hd _ _ _ _ Hgp). }
  split; rewrite ?Hsl.
  - rewrite Hg. unfold pushed. destruct (0 =? to) eqn:E; bool_prop; [subst; by rewrite Z.eqb_refl|].
    rewrite (proj2 (Z.eqb_neq to 0)) by done. apply Hch; [apply Hno; by left|apply Ho].
  - intros y c Hy. destruct (HL y c Hy) as (c0 & Hy0 & _ & _ & -> & _). unfold pushed. destruct (y =? to) eqn:E; bool_prop; [done|].
    apply Hch; [apply Hno; right; by eapply slots_in|by apply Ho].
  - split.
    + intros y Hy. unfold pushed. destruct (y =? to) eqn:E; bool_prop; [|by apply Hn]. apply NoDup_cons. split; [by apply Hno|by apply Hn].
    + intros x y z Hx Hy Hzx Hzy. apply pushed_in in Hzx as [[-> ->]|Hzx]; apply pushed_in in Hzy as [[? ->]|Hzy]; try done; [by apply Hno in Hzy|subst z; by apply Hno in Hzx|].
      by apply (Hsd x y z).
  - intros y c Hy. destruct (HL y c Hy) as (c0 & Hy0 & He & _ & _ & Hb & Hdn). apply Hbm; [apply Hnb; by eapply slots_in|].
    unfold bitmap_chain. rewrite He, Hb, Hdn. by apply Ho.
  - apply Ho.
  - intros y c z Hy Hr Hz. destruct (HL y c Hy) as (c0 & Hy0 & -> & Hr0 & _). destruct (lg_uses _ _ _ _ _ Ho y c0 z Hy0 (Hr0 Hr) Hz) as (d0 & Hd0 & Hk0 & Hb0).
    destruct (decide (z = s)) as [->|Hne]; [|exists d0; by rewrite Hoth]. simplify_eq. eexists. split; [exact Hds|]. split; [by right; right|done].
  - intros y cy w cw z Hy Hz Hw Hr Hzw. destruct (HL y cy Hy) as (c1 & Hy1 & -> & _). destruct (HL w cw Hw) as (c0 & Hw0 & -> & Hr0 & _).
    apply pushed_in in Hz as [[-> ->]|Hz]; [destruct (Hsafe w c0 Hw0 (Hr0 Hr) Hzw) as [_ He]; by apply He|].
    by eapply (lg_late _ _ _ _ _ Ho y c1 w c0 z); [..|apply Hr0|].
  - intros w cw z Hw Hr Hzw Hz. destruct (HL w cw Hw) as (c0 & Hw0 & _ & Hr0 & _). apply pushed_in in Hz as [[-> E]|Hz].
    + destruct (Hsafe w c0 Hw0 (Hr0 Hr) Hzw) as [? _]. done.
    + by apply (lg_dead _ _ _ _ _ Ho w c0 z Hw0 (Hr0 Hr) Hzw).
Qed.

(** ** The steps of an update *)

(** The same versions; only their lists of retired slots may have grown. *)
Definition recharged (L L' : list (Z * checkpoint)) : Prop :=
  Forall2 (fun p q => q.1 = p.1 /\ q.2 = set_cpGarbage (cp_Garbage q.2) p.2) L L'.
Lemma recharged_refl L : recharged L L.
Proof. apply Forall_Forall2_diag, Forall_forall. intros [x c] _. split; [done|]. by destruct c. Qed.
Lemma recharged_trans L L1 L2 : recharged L L1 -> recharged L1 L2 -> recharged L L2.
Proof.
  unfold recharged. intros H1. revert L2. induction H1 as [|[x c] [y d] L L1 [Ey Ed] H IH]; intros L2 H2; inversion H2 as [|? [z e] ? L2' [Ez Ee] H2']; subst; [done|].
  cbn in *. constructor; [|by apply IH]. cbn. split; [congruence|]. rewrite Ee, Ed. done.
Qed.
Lemma recharged_insert L j x cp s : L !! j = Some (x, cp) -> recharged L (<[j := (x, set_cpGarbage s cp)]> L).
Proof.
  intros Hj. unfold recharged. rewrite <- (list_insert_id L j (x, cp)) at 1 by done. apply Forall2_insert; [apply recharged_refl|]. by split.
Qed.

Lemma recharged_lookup L L' k y c : recharged L L' -> L' !! k = Some (y, c) -> exists c0, L !! k = Some (y, c0) /\ c = set_cpGarbage (cp_Garbage c) c0.
Proof. intros H Hk. destruct (Forall2_lookup_r _ _ _ _ _ H Hk) as ([x c0] & H0 & E1 & E2). cbn in *. subst. by exists c0. Qed.
Lemma recharged_in L L' y c : recharged L L' -> (y, c) ∈ L' -> exists c0, (y, c0) ∈ L /\ c = set_cpGarbage (cp_Garbage c) c0.
Proof.
  intros H [k Hk]%list_elem_of_lookup_1. destruct (recharged_lookup _ _ _ _ _ H Hk) as (c0 & H0 & E). exists c0. split; [by eapply list_elem_of_lookup_2|done].
Qed.
Lemma recharged_back L L' k y c0 : recharged L L' -> L !! k = Some (y, c0) -> exists c, L' !! k = Some (y, c) /\ c = set_cpGarbage (cp_Garbage c) c0.
Proof. intros H Hk. destruct (Forall2_lookup_l _ _ _ _ _ H Hk) as ([x c] & H0 & E1 & E2). cbn in *. subst. by exists c. Qed.
Lemma recharged_map {A} (f : Z * checkpoint -> A) L L' : recharged L L' -> (forall x c g, f (x, set_cpGarbage g c) = f (x, c)) -> f <$> L' = f <$> L.
Proof.
  intros H Hf. induction H as [|[x c] [y d] L L1 [Ey Ed] H IH]; [done|]. cbn in *. rewrite IH. f_equal. rewrite Ed, Ey. apply Hf.
Qed.
Lemma recharged_slots L L' : recharged L L' -> slots L' = slots L.
Proof. intros H. by apply (recharged_map fst). Qed.
Lemma recharged_pending L L' : recharged L L' -> length (filter is_pending L') = length (filter is_pending L).
Proof.
  induction 1 as [|[x c] [y d] L L1 [Ey Ed] H IH]; [done|]. rewrite !filter_cons. cbn in *.
  destruct (decide (is_pending (y, d))) as [H1|H1], (decide (is_pending (x, c))) as [H2|H2]; cbn; try lia; exfalso; unfold is_pending in *; rewrite Ed in H1; done.
Qed.
Lemma listing_recharged c L L' : recharged L L' -> listing c L -> listing c L'.
Proof.
  intros H Hl. pose proof (recharged_slots _ _ H) as Hs. assert (forall i, slot_at L' i = slot_at L i) as Hat by (intros; unfold slot_at; by rewrite Hs).
  assert (forall i, slot_before L' i = slot_before L i) as Hbf by (intros [|i]; [done|]; cbn; apply Hat).
  destruct Hl. split.
  - by rewrite Hs.
  - unfold names. by rewrite (recharged_map _ _ _ H).
  - by rewrite Hat.
  - by rewrite Hs.
  - intros i x cp Hi. destruct (recharged_lookup _ _ _ _ _ H Hi) as (c0 & H0 & ->). rewrite Hat. by apply (cat_next _ x c0).
  - intros i x cp Hi. destruct (recharged_lookup _ _ _ _ _ H Hi) as (c0 & H0 & ->). rewrite Hbf. by apply (cat_prev _ x c0).
  - intros i j x y cp cq Hi Hj. destruct (recharged_lookup _ _ _ _ _ H Hi) as (c0 & H0 & ->). destruct (recharged_lookup _ _ _ _ _ H Hj) as (c1 & H1 & ->).
    by apply (cat_epochs i j x y c0 c1).
  - intros x cp Hin. destruct (recharged_in _ _ _ _ H Hin) as (c0 & H0 & ->). by apply (cat_before x c0).
  - destruct cat_protected as [[E Hn]|(j & cp & Hj & Hn)]; [left|right].
    + split; [done|]. intros k [y cy] Hk Hr. destruct (recharged_lookup _ _ _ _ _ H Hk) as (c0 & H0 & E0). apply (Hn k (y, c0) H0).
      unfold is_retained in *. cbn in *. by rewrite E0 in Hr.
    + destruct (recharged_back _ _ _ _ _ H Hj) as (c1 & H1 & _). exists j, c1. split; [done|]. intros k [y cy] Hk Hr.
      destruct (recharged_lookup _ _ _ _ _ H Hk) as (c0 & H0 & E0). apply (Hn k (y, c0) H0). unfold is_retained in *. cbn in *. by rewrite E0 in Hr.
  - by rewrite (recharged_pending _ _ H).
  - intros x cp Hin. destruct (recharged_in _ _ _ _ H Hin) as (c0 & H0 & ->). by apply (cat_visible x c0).
Qed.
Lemma listing_ctrl c c' L : Head c' = Head c -> Tail c' = Tail c -> Epoch c' = Epoch c -> Protected c' = Protected c -> Pending c' = Pending c ->
  listing c L -> listing c' L.
Proof. intros Hh Ht He Hp Hpd []. split; rewrite ?Hh, ?Ht, ?He, ?Hp, ?Hpd; done. Qed.

(** The ledger of a running transaction: it has not reused a bitmap slot. *)
Definition ledger_tx (t : transaction) (L : list (Z * checkpoint)) (gs bs U : Z -> list Z) : Prop :=
  ledger t L gs bs U /\ forall x s, x ∈ slots L -> s ∈ bs x -> slotPage s ∉ fresh t.

(** Nothing the ledger speaks of has changed. *)
Lemma ledger_ext t t' L gs bs U :
  Head (t_ctrl t') = Head (t_ctrl t) -> Tail (t_ctrl t') = Tail (t_ctrl t) -> Epoch (t_ctrl t') = Epoch (t_ctrl t) ->
  Protected (t_ctrl t') = Protected (t_ctrl t) -> Pending (t_ctrl t') = Pending (t_ctrl t) -> Garbage (t_ctrl t') = Garbage (t_ctrl t) ->
  s_size (store t') = s_size (store t) ->
  (forall x d, dsc t x = Some d -> Kind d <> kindFree -> Kind d <> kindBitmap -> dsc t' x = Some d) ->
  (forall x d cp, dsc t x = Some d -> Kind d = kindCheckpoint -> readCheckpoint t x = Ok cp -> readCheckpoint t' x = Ok cp) ->
  (forall y x d b, y ∈ slots L -> x ∈ bs y -> dsc t x = Some d -> Kind d = kindBitmap ->
    t_pages t !! slotPage x = None -> read t (slotPage x) = Ok b ->
    dsc t' x = Some d /\ t_pages t' !! slotPage x = None /\ read t' (slotPage x) = Ok b) ->
  ledger t L gs bs U -> ledger t' L gs bs U.
Proof.
  intros Hh Ht He Hp Hpd Hg Hsz Hd Hr Hb [[Hls Hcp] []].
  assert (forall h l, chain (dsc t) kindGarbage h l -> chain (dsc t') kindGarbage h l) as Hch.
  { intros h l Hc. eapply chain_ext; [|exact Hc]. intros x Hx. destruct (chain_kind _ _ _ _ _ Hc Hx) as (d & Hdx & Hk).
    rewrite Hdx. apply Hd; [done|by rewrite Hk..]. }
  split; [split|split]; try done.
  - destruct Hls. split; rewrite ?Hh, ?Ht, ?He, ?Hp, ?Hpd; done.
  - intros x cp Hin. destruct (Hcp x cp Hin) as ((d & Hx & Hk) & Hrd & Hok). split; [|split; [|done]].
    + exists d. split; [apply Hd; [done|by rewrite Hk..]|done].
    + by apply (Hr x d).
  - rewrite Hg. by apply Hch.
  - intros x cp Hin. by apply Hch, lg_chains.
  - intros x cp Hin. destruct (lg_bitmaps x cp Hin) as (? & ? & ? & Hc). unfold bitmap_chain. rewrite Hsz. split_and!; try done.
    intros j s Hj. destruct (Hc j s Hj) as (Hs & Hps & b & B & Hrb & HB).
    destruct (Hb x s _ b (slots_in _ _ _ Hin) (list_elem_of_lookup_2 _ _ _ Hj) Hs eq_refl Hps Hrb) as (-> & -> & Hrd).
    split; [done|]. split; [done|]. by exists b, B.
  - intros x cp s Hin Hret Hs. destruct (lg_uses x cp s Hin Hret Hs) as (d & Hds & Hk & Hbi). exists d. split; [|done].
    apply Hd; [done|destruct Hk as [-> | [-> | ->]]; done..].
Qed.
Lemma ledger_allocate t s kind t' L gs bs U : alloc_fx t s kind t' -> ledger_tx t L gs bs U -> ledger_tx t' L gs bs U.
Proof.
  intros Hal [Hlg Hf]. pose proof (al_ctrl _ _ _ _ Hal) as Hcf. unfold ctrl_frame in Hcf. destruct_and! Hcf.
  assert (forall x d, dsc t x = Some d -> Kind d <> kindFree -> x <> s) as Hne.
  { intros x d Hd Hk ->. by apply (unused_live _ _ _ (al_unused _ _ _ _ Hal)) in Hd. }
  assert (forall x d, dsc t x = Some d -> 1 <= x) as Hpos by (intros x d Hd; apply dsc_bound in Hd; lia). split.
  - eapply ledger_ext; [..|exact Hlg]; try done.
    + apply (al_garbage _ _ _ _ Hal).
    + by rewrite (al_store _ _ _ _ Hal).
    + intros x d Hd Hk _. rewrite (al_other _ _ _ _ Hal); [done|by eapply Hne].
    + intros x d cp Hd _. unfold readCheckpoint. by rewrite (al_read _ _ _ _ Hal) by (by eapply Hpos).
    + intros y x d b _ _ Hd Hk Hn Hb. rewrite (al_other _ _ _ _ Hal), (al_pages _ _ _ _ Hal), (al_read _ _ _ _ Hal); [done|by eapply Hpos..|].
      eapply Hne; [done|by rewrite Hk].
  - intros x z Hx Hz Hin. destruct (owners_bitmap _ _ _ _ _ x z (lg_owners _ _ _ _ _ Hlg) Hx Hz) as (d & Hd & Hk).
    assert (z <> s) as Hzs by (eapply Hne; [done|by rewrite Hk]). pose proof (Hpos z d Hd). pose proof (al_pos _ _ _ _ Hal).
    destruct (al_fresh_only _ _ _ _ Hal _ Hin) as [Hin'|[E|(E & _)]]; [by eapply Hf|by apply slotPage_inj in E|].
    by apply slotPage_descriptorPage in E.
Qed.
Lemma ledger_retire t s t' L gs bs U : retire_fx t s t' -> ledger_tx t L gs bs U ->
  exists L' gs', ledger_tx t' L' gs' bs U /\ recharged L L'.
Proof.
  intros Hrt [Hlg Hf]. destruct (rt_owner _ _ _ Hrt) as (d & next & Hd & Hk & Hd' & How).
  pose proof (rt_ctrl _ _ _ Hrt) as Hcf. unfold ctrl_frame in Hcf. destruct_and! Hcf.
  pose proof (lg_catalog _ _ _ _ _ Hlg) as Hcat. pose proof (catalog_nonzero _ _ Hcat) as Hnz.
  assert (Protected (t_ctrl t) <> 0 -> exists j cp, L !! j = Some (Protected (t_ctrl t), cp)) as Hprot.
  { intros Hp. destruct (cat_protected _ _ Hcat) as [[? _]|(j & cp & Hj & _)]; eauto. done. }
  assert (forall x dx, dsc t x = Some dx -> Kind dx = kindBitmap -> 1 <= x /\ x <> s /\ x <> Protected (t_ctrl t)) as Hbm.
  { intros x dx Hx Hkx. split_and!.
    - apply dsc_bound in Hx. lia.
    - intros ->. simplify_eq. destruct Hk as [E|E]; by rewrite E in Hkx.
    - intros ->. destruct Hprot as (j & cp & Hj); [apply dsc_bound in Hx; lia|].
      destruct (cat_cp _ _ Hcat _ cp (list_elem_of_lookup_2 _ _ _ Hj)) as ((d2 & Hd2 & Hk2) & _).
      assert (d2 = dx) as -> by congruence. by rewrite Hk2 in Hkx. }
  assert (forall cp l, s ∉ l -> bitmap_chain t cp l -> bitmap_chain t' cp l) as Hchain.
  { intros cp l _ (B1 & B2 & B3 & B4). unfold bitmap_chain. rewrite (rt_store _ _ _ Hrt). split_and!; try done. intros j x Hj.
    destruct (B4 j x Hj) as (Hx & Hpx & b & B & Hb & HB). destruct (Hbm x _ Hx eq_refl) as (? & ? & ?).
    rewrite (rt_other _ _ _ Hrt), (rt_pages _ _ _ Hrt), (rt_read _ _ _ Hrt) by done. split; [done|]. split; [done|]. eauto. }
  assert (forall x c, x <> Protected (t_ctrl t) -> holds_cp t x c -> holds_cp t' x c) as Hholds.
  { intros x c Hne ((dx & Hx & Hkx) & Hr & Hok). assert (x <> s) by (intros ->; simplify_eq; destruct Hk as [E|E]; by rewrite E in Hkx).
    split; [exists dx; by rewrite (rt_other _ _ _ Hrt)|]. split; [|done]. unfold readCheckpoint. rewrite (rt_read _ _ _ Hrt); [done| |done].
    apply dsc_bound in Hx. lia. }
  assert (forall L' gs', ledger t' L' gs' bs U -> slots L' = slots L -> ledger_tx t' L' gs' bs U) as Htx.
  { intros L' gs' Hl Hsl. split; [done|]. rewrite Hsl, (rt_fresh _ _ _ Hrt). done. }
  destruct How as [(Hp & Hb & HG & cp & Hcp & Hok & Hcp' & ->)|(Hp & HG & -> & Hrd)].
  - destruct (Hprot Hp) as (j & cp' & Hj). set (P := Protected (t_ctrl t)) in *.
    destruct (cat_cp _ _ Hcat P cp' (list_elem_of_lookup_2 _ _ _ Hj)) as ((dp & Hdp & Hkp) & Hcp2 & _). assert (cp' = cp) as -> by congruence.
    pose proof (recharged_insert L j P cp s Hj) as Hrc. set (L' := <[j := (P, set_cpGarbage s cp)]> L) in *.
    exists L', (pushed s P gs). split; [|done]. apply Htx; [|by apply recharged_slots]. split.
    + eapply catalog_update; [exact Hcat|exact Hj| | |done].
      * eapply listing_ctrl; [..|eapply listing_recharged; [exact Hrc|apply Hcat]]; done.
      * split; [exists dp; split; [rewrite (rt_other _ _ _ Hrt); [done|]|done]|done]. intros E. rewrite E in Hdp. simplify_eq. destruct Hk as [E2|E2]; by rewrite E2 in Hkp.
    + assert (P ∈ slots L) as HP by (eapply slots_in; by eapply list_elem_of_lookup_2).
      assert (cp_Garbage cp = default 0 (head (gs P))) as Hhd by (eapply chain_hd, (lg_chains _ _ _ _ _ Hlg P cp); by eapply list_elem_of_lookup_2).
      eapply (owners_push t t' L L'); try done; [apply Hlg|by right|by apply (rt_other _ _ _ Hrt)|by rewrite <- Hhd|by rewrite (proj2 (Z.eqb_neq P 0))| |].
      * apply (relists_insert L j P cp); try done; [apply Hcat|by rewrite Z.eqb_refl|]. intros y c Hy. by rewrite (proj2 (Z.eqb_neq y P)).
      * intros y cy Hy Hr Hs. split; [done|]. intros ct Hct. pose proof (catalog_pe t L y cy Hcat Hy Hr) as Hpe.
        assert (pe t = cp_Epoch cp) as Epe by (unfold pe; fold P; by rewrite (proj2 (Z.eqb_neq _ _) Hp), Hcp).
        assert (ct = cp) as -> by (destruct (cat_cp _ _ Hcat P ct Hct) as (_ & ? & _); congruence). lia.
  - exists L, (pushed s 0 gs). split; [|apply recharged_refl]. apply Htx; [|done].
    assert (forall x c, holds_cp t x c -> holds_cp t' x c) as Hh.
    { intros x c ((dx & Hx & Hkx) & Hr & Hok). assert (x <> s) by (intros ->; simplify_eq; destruct Hk as [E|E]; by rewrite E in Hkx).
      split; [exists dx; by rewrite (rt_other _ _ _ Hrt)|]. split; [|done]. unfold readCheckpoint. rewrite Hrd; [done|]. apply dsc_bound in Hx. lia. }
    split.
    + split; [eapply listing_ctrl; [..|apply Hcat]; done|]. intros x c Hin. by apply Hh, Hcat.
    + eapply (owners_push t t' L L); try done; [apply Hlg|by left|apply (rt_other _ _ _ Hrt)| | |].
      * pose proof (chain_hd _ _ _ _ (lg_global _ _ _ _ _ Hlg)) as Hhd. by rewrite <- Hhd.
      * split; [done|]. intros y c Hy. exists c. split_and!; auto. assert (y <> 0) by (intros ->; by apply Hnz; eapply slots_in).
        by rewrite (proj2 (Z.eqb_neq y 0)).
      * intros y cy Hy Hr Hs. exfalso. destruct (lg_uses _ _ _ _ _ Hlg y cy s Hy Hr Hs) as (d0 & Hd0 & _ & Hb0). simplify_eq.
        pose proof (catalog_pe t L y cy Hcat Hy Hr). destruct Hp as [Hp|Hp]; [|lia].
        destruct (cat_protected _ _ Hcat) as [[_ Hn]|(j & cq & Hj & _)].
        -- apply list_elem_of_lookup_1 in Hy as [i Hi]. by apply (Hn i _ Hi).
        -- rewrite Hp in Hj. apply Hnz. eapply slots_in. by eapply list_elem_of_lookup_2.
Qed.
Lemma prim_ledger t t' L gs bs U : prim t t' -> ledger_tx t L gs bs U -> exists L' gs', ledger_tx t' L' gs' bs U /\ recharged L L'.
Proof.
  intros [s kind Hal|s Hrt|Hct Hst Hpg Hfr _|s d Hs Hin Hd Hk Hct Hst Hfr _ Hoth _ Hpg] Hlg.
  - exists L, gs. split; [by eapply ledger_allocate|apply recharged_refl].
  - by eapply ledger_retire.
  - exists L, gs. split; [|apply recharged_refl]. destruct Hlg as [Hlg Hf]. split; [|by rewrite Hfr].
    revert Hct. generalize (Root (t_ctrl t')). intros r Hct.
    assert (forall p, read t' p = read t p) as Hrd by (intros p; unfold read; by rewrite Hpg, Hst).
    assert (forall x, dsc t' x = dsc t x) as Hdsc.
    { intros x. apply option_eq. intros d. rewrite !dsc_Some, Hrd, Hct. done. }
    eapply ledger_ext; [..|exact Hlg]; rewrite ?Hct, ?Hst; try done.
    + intros x d Hd _ _. by rewrite Hdsc.
    + intros x d cp _ _. unfold readCheckpoint. by rewrite Hrd.
    + intros y x d b _ _ Hd _ Hn Hb. by rewrite Hdsc, Hpg, Hrd.
  - exists L, gs. split; [|apply recharged_refl]. destruct Hlg as [Hlg Hf]. split; [|by rewrite Hfr].
    assert (forall x, 1 <= x -> x <> s -> read t' (slotPage x) = read t (slotPage x)) as Hrd.
    { intros x Hx Hne. unfold read. by rewrite Hpg, Hst. }
    eapply ledger_ext; [..|exact Hlg]; rewrite ?Hct, ?Hst; try done.
    + intros x dx Hdx _ Hkx. rewrite Hoth; [done|]. intros ->. congruence.
    + intros x dx cp Hdx Hkx. unfold readCheckpoint. rewrite Hrd; [done|apply dsc_bound in Hdx; lia|]. intros ->. simplify_eq. by rewrite Hk in Hkx.
    + intros y x dx b Hy Hx Hdx _ Hn Hb0. assert (x <> s) by (intros ->; by apply (Hf y s)). apply dsc_bound in Hdx as Hb.
      rewrite Hoth, Hpg, Hrd by (done || lia). done.
Qed.
Lemma steps_ledger t t' L gs bs U : rtc prim t t' -> ledger_tx t L gs bs U -> exists L' gs', ledger_tx t' L' gs' bs U /\ recharged L L'.
Proof.
  intros Hs. revert L gs. induction Hs as [t|t t1 t2 Hp Hs IH]; intros L gs Hlg; [exists L, gs; split; [done|apply recharged_refl]|].
  destruct (prim_ledger t t1 L gs bs U Hp Hlg) as (L1 & gs1 & Hlg1 & H1). destruct (IH L1 gs1 Hlg1) as (L2 & gs2 & Hlg2 & H2).
  exists L2, gs2. split; [done|]. by eapply recharged_trans.
Qed.

(** ** Updates of blocks *)

Definition ctrl_kept (c c' : control) : Prop :=
  Epoch c' = Epoch c /\ Head c' = Head c /\ Tail c' = Tail c /\ Protected c' = Protected c /\ Pending c' = Pending c /\
  GCScan c' = GCScan c /\ Retired c' = Retired c /\ Tx c' = Tx c.
(** Marking blocks as owned, queueing payload and forgetting the current checkpoint
    change no slot. *)
Record quiet_fx (t t' : transaction) : Prop := {
  q_wf : tx_wf t';
  q_store : store t' = store t;
  q_ctrl : t_ctrl t' = t_ctrl t \/ t_ctrl t' = set_Current 0 (t_ctrl t);
  q_dsc : forall x, dsc t' x = dsc t x;
  q_nd : forall x, 1 <= x -> nd t' x = nd t x;
  q_cp : forall x, 1 <= x -> readCheckpoint t' x = readCheckpoint t x;
  q_slot : forall x, 1 <= x -> t_pages t' !! slotPage x = t_pages t !! slotPage x;
  q_fresh : fresh t' = fresh t;
  q_allocated : allocated t' = allocated t }.
Inductive step (t t' : transaction) : Prop :=
| step_prim : prim t t' -> step t t'
| step_quiet : quiet_fx t t' -> step t t'.

(** [update_fx t fp t']: as [tree_fx], with payload queued and blocks marked on the way. *)
Record update_fx (t : transaction) (fp : list Z) (t' : transaction) : Prop := {
  up_wf : tx_wf t';
  up_store : store t' = store t;
  up_pe : pe t' = pe t;
  up_ctrl : ctrl_kept (t_ctrl t) (t_ctrl t');
  up_next : Next (t_ctrl t) <= Next (t_ctrl t');
  up_fresh : forall p, p ∈ fresh t' -> p ∈ fresh t \/ spare t p;
  up_live : forall x d, dsc t x = Some d -> Kind d <> kindFree ->
    exists d', dsc t' x = Some d' /\ Birth d' = Birth d /\ (d' = d \/ x ∈ fp /\ Kind d' = kindGarbage);
  up_nd : forall x d n, dsc t x = Some d -> Kind d <> kindFree -> Kind d <> kindCheckpoint ->
    x ∉ fp \/ Birth d <= pe t -> nd t x = Some n -> nd t' x = Some n;
  up_born : born t -> born t';
  up_steps : rtc step t t' }.

Lemma quiet_ctrl t t' : quiet_fx t t' -> ctrl_kept (t_ctrl t) (t_ctrl t') /\ Next (t_ctrl t') = Next (t_ctrl t) /\
  Root (t_ctrl t') = Root (t_ctrl t) /\ Garbage (t_ctrl t') = Garbage (t_ctrl t) /\ Free (t_ctrl t') = Free (t_ctrl t).
Proof. intros H. destruct (q_ctrl _ _ H) as [->| ->]; by repeat split. Qed.
Lemma quiet_pe t t' : quiet_fx t t' -> tx_wf t -> pe t' = pe t.
Proof.
  intros Hq Hwf. destruct (quiet_ctrl _ _ Hq) as [Hc _]. unfold ctrl_kept in Hc. destruct_and! Hc.
  unfold pe. replace (Protected (t_ctrl t')) with (Protected (t_ctrl t)) by done. case_match eqn:E; [done|]. apply Z.eqb_neq in E.
  destruct (w_prot _ Hwf E). by rewrite (q_cp _ _ Hq) by lia.
Qed.
Lemma update_quiet t t' : tx_wf t -> quiet_fx t t' -> update_fx t [] t'.
Proof.
  intros Hwf Hq. pose proof (quiet_ctrl _ _ Hq) as (Hc & Hn & _). pose proof (quiet_pe _ _ Hq Hwf). split.
  - apply Hq.
  - apply Hq.
  - done.
  - done.
  - lia.
  - rewrite (q_fresh _ _ Hq). auto.
  - intros x d Hd _. exists d. rewrite (q_dsc _ _ Hq). auto.
  - intros x d n Hd _ _ _. rewrite (q_nd _ _ Hq); [done|]. apply dsc_bound in Hd. lia.
  - intros Hb x d. rewrite (q_dsc _ _ Hq). replace (Epoch (t_ctrl t')) with (Epoch (t_ctrl t)) by (symmetry; apply Hc). apply Hb.
  - by apply rtc_once, step_quiet.
Qed.
Lemma update_tree t fp t' : tree_fx t fp t' -> update_fx t fp t'.
Proof.
  intros []. unfold ctrl_rest in fx_ctrl. destruct_and! fx_ctrl. split; try done.
  eapply rtc_subrel; [|done]. intros ? ? ?. by apply step_prim.
Qed.
Lemma update_unused t fp t' x : update_fx t fp t' -> unused t' x -> unused t x.
Proof.
  intros Hfx Hun. unfold unused. destruct (dsc t x) as [d|] eqn:Hd; [|by left]. right. exists d.
  split; [done|]. destruct (decide (Kind d = kindFree)) as [|Hk]; [done|]. exfalso.
  destruct (up_live _ _ _ Hfx x d Hd Hk) as (d' & Hd' & _ & Hc).
  destruct Hun as [Hn|(d2 & Hd2 & Hk2)]; [congruence|]. simplify_eq.
  destruct Hc as [->|[_ Hg]]; [done|]. by rewrite Hg in Hk2.
Qed.
Lemma update_trans t fp t1 fp1 t2 :
  update_fx t fp t1 -> update_fx t1 fp1 t2 -> (forall x, x ∈ fp1 -> x ∈ fp \/ unused t x) -> update_fx t fp t2.
Proof.
  intros H1 H2 Hsub. assert (forall x d, dsc t x = Some d -> Kind d <> kindFree -> x ∈ fp1 -> x ∈ fp) as Hin.
  { intros x d Hd Hk Hx. destruct (Hsub x Hx) as [|Hun]; [done|]. by apply (unused_live _ _ _ Hun) in Hd. }
  split.
  - apply H2.
  - by rewrite (up_store _ _ _ H2), (up_store _ _ _ H1).
  - by rewrite (up_pe _ _ _ H2), (up_pe _ _ _ H1).
  - pose proof (up_ctrl _ _ _ H1) as A. pose proof (up_ctrl _ _ _ H2) as B. unfold ctrl_kept in *.
    destruct_and! A. destruct_and! B. split_and!; congruence.
  - pose proof (up_next _ _ _ H1). pose proof (up_next _ _ _ H2). lia.
  - intros p Hp. destruct (up_fresh _ _ _ H2 p Hp) as [Hp1|(s & Hs & Hc)]; [by apply H1|]. right. exists s. split; [done|].
    pose proof (up_next _ _ _ H1). destruct Hc as [[Hun ->]|(? & -> & ?)]; [left; split; [by eapply update_unused|done]|right; split_and!; auto; lia].
  - intros x d Hd Hk. destruct (up_live _ _ _ H1 x d Hd Hk) as (d1 & Hd1 & Hb1 & Hc1).
    destruct (up_live _ _ _ H2 x d1 Hd1) as (d2 & Hd2 & Hb2 & Hc2); [by destruct Hc1 as [->|[_ ->]]|].
    exists d2. split; [done|]. split; [congruence|]. destruct Hc2 as [->|[Hx Hg]]; [done|]. right. split; [|done]. by eapply Hin.
  - intros x d n Hd Hk Hkc Hx Hn. pose proof (up_nd _ _ _ H1 x d n Hd Hk Hkc Hx Hn) as Hn1.
    destruct (up_live _ _ _ H1 x d Hd Hk) as (d1 & Hd1 & Hb1 & Hc1).
    apply (up_nd _ _ _ H2 x d1 n Hd1); [by destruct Hc1 as [->|[_ ->]]..| |done].
    rewrite Hb1, (up_pe _ _ _ H1). destruct Hx as [Hx|Hx]; [|by right]. left. intros Hx1. by eapply Hx, Hin.
  - intros Hb. by apply (up_born _ _ _ H2), (up_born _ _ _ H1).
  - eapply rtc_trans; [apply H1|apply H2].
Qed.
Lemma update_refl t : tx_wf t -> update_fx t [] t.
Proof. intros Hwf. apply update_quiet; [done|]. split; auto. Qed.
Lemma update_weaken t fp fp' t' : update_fx t fp t' -> (forall x, x ∈ fp -> x ∈ fp') -> update_fx t fp' t'.
Proof.
  intros [] Hs. split; try done.
  - intros x d Hd Hk. destruct (up_live0 x d Hd Hk) as (d' & ? & ? & Hc). exists d'.
    split_and!; [done..|]. destruct Hc as [|[? ?]]; auto.
  - intros x d n Hd Hk Hkc Hx. apply (up_nd0 x d); auto. destruct Hx; auto.
Qed.
Lemma view_quiet t t' : same_view t t' -> quiet_fx t t'.
Proof. intros []. split; auto. Qed.
Lemma quiet_ledger t t' L gs bs U : quiet_fx t t' -> ledger_tx t L gs bs U -> ledger_tx t' L gs bs U.
Proof.
  intros Hq [Hlg Hf]. split; [|by rewrite (q_fresh _ _ Hq)]. destruct (quiet_ctrl _ _ Hq) as (Hc & _ & _ & Hg & _).
  unfold ctrl_kept in Hc. destruct_and! Hc.
  eapply ledger_ext; [..|exact Hlg]; try done.
  - by rewrite (q_store _ _ Hq).
  - intros x d Hd _ _. by rewrite (q_dsc _ _ Hq).
  - intros x d cp Hd _. rewrite (q_cp _ _ Hq); [done|]. apply dsc_bound in Hd. lia.
  - intros y x d b _ _ Hd _ Hn Hb. apply dsc_bound in Hd as Hx. unfold read in *.
    rewrite (q_dsc _ _ Hq), (q_store _ _ Hq), (q_slot _ _ Hq) by lia. done.
Qed.
(** The accounts follow every update. *)
Lemma update_ledger t fp t' L gs bs U : update_fx t fp t' -> ledger_tx t L gs bs U ->
  exists L' gs', ledger_tx t' L' gs' bs U /\ recharged L L'.
Proof.
  intros Hu. apply up_steps in Hu. revert L gs. induction Hu as [t|t t1 t2 Hp Hs IH]; intros L gs Hlg.
  { exists L, gs. split; [done|apply recharged_refl]. }
  assert (exists L1 gs1, ledger_tx t1 L1 gs1 bs U /\ recharged L L1) as (L1 & gs1 & Hlg1 & H1).
  { destruct Hp as [Hp|Hq]; [by eapply prim_ledger|]. exists L, gs. split; [by eapply quiet_ledger|apply recharged_refl]. }
  destruct (IH L1 gs1 Hlg1) as (L2 & gs2 & Hlg2 & H2). exists L2, gs2. split; [done|]. by eapply recharged_trans.
Qed.

(** A step never frees a slot. *)
Lemma step_unused t t' x : step t t' -> unused t' x -> unused t x.
Proof.
  intros [[s kind Hal|s Hrt|Hct Hst Hpg Hfr _|s d Hs Hin Hd Hk Hct Hst Hfr _ Hoth (d' & Hd' & Hk') Hpg]|Hq] Hun; unfold unused in *.
  - destruct (decide (x = s)) as [->|Hne]; [apply (al_unused _ _ _ _ Hal)|]. by rewrite (al_other _ _ _ _ Hal) in Hun.
  - destruct (decide (x = s)) as [->|Hne]; [|by rewrite (rt_other _ _ _ Hrt) in Hun].
    destruct (rt_dsc _ _ _ Hrt) as (d & d' & _ & Hd' & _ & Hk). exfalso. destruct Hun as [|(d2 & Hd2 & Hk2)]; [congruence|].
    simplify_eq. by rewrite Hk in Hk2.
  - assert (dsc t' x = dsc t x) as <-; [|done]. revert Hct. generalize (Root (t_ctrl t')). intros r Hct.
    apply option_eq. intros d. rewrite !dsc_Some, Hct. unfold read. by rewrite Hpg, Hst.
  - destruct (decide (x = s)) as [->|Hne]; [|by rewrite Hoth in Hun]. exfalso. destruct Hun as [|(d2 & Hd2 & Hk2)]; [congruence|].
    simplify_eq. by rewrite Hk' in Hk2.
  - by rewrite (q_dsc _ _ Hq) in Hun.
Qed.
(** Every slot an update allocates was unused before it. *)
Lemma update_allocated t fp t' s : update_fx t fp t' -> s ∈ allocated t' -> s ∈ allocated t \/ (unused t s /\ 1 <= s).
Proof.
  intros Hu. apply up_steps in Hu. induction Hu as [t|t t1 t2 Hp Hs IH]; intros Hin; [by left|].
  destruct (IH Hin) as [H1|[H1 H2]]; [|right; split; [by eapply step_unused|done]].
  destruct Hp as [[s' kind Hal|s' Hrt|? ? ? ? Ha|s' d ? ? ? ? ? ? ? Ha ? ? ?]|Hq].
  - rewrite (al_allocated _ _ _ _ Hal) in H1. apply elem_of_app in H1 as [H1| ->%list_elem_of_singleton]; [by left|].
    right. split; apply Hal.
  - left. by rewrite (rt_allocated _ _ _ Hrt) in H1.
  - left. by rewrite Ha in H1.
  - left. by rewrite Ha in H1.
  - left. by rewrite (q_allocated _ _ Hq) in H1.
Qed.

(** ** Commits *)

(** The accounts of a transaction that may hold new bitmap pages of its own. *)
Definition bitmap_pages (t : transaction) (cp : checkpoint) (l : list Z) : Prop :=
  cp_Bitmap cp = default 0 (head l) /\ 0 <= cp_BitmapDone cp /\
  cp_BitmapDone cp + Z.of_nat (length l) = Pages (s_size (store t)) /\
  forall j s, l !! j = Some s -> dsc t s = Some (mkDescriptor (cp_Epoch cp) (default 0 (l !! S j)) kindBitmap) /\
    exists b B, read t (slotPage s) = Ok b /\ decode_page b (s_size (store t)) (cp_BitmapDone cp + Z.of_nat j) = Ok B.
Record charged (t : transaction) (L : list (Z * checkpoint)) (gs bs U : Z -> list Z) : Prop := {
  ch_catalog : catalog t L;
  ch_global : chain (dsc t) kindGarbage (Garbage (t_ctrl t)) (gs 0);
  ch_chains : forall x cp, (x, cp) ∈ L -> chain (dsc t) kindGarbage (cp_Garbage cp) (gs x);
  ch_separate : separate (0 :: slots L) gs;
  ch_bitmaps : forall x cp, (x, cp) ∈ L -> bitmap_pages t cp (bs x);
  ch_bitmap_separate : separate (slots L) bs;
  ch_uses : forall x cp s, (x, cp) ∈ L -> cp_Retained cp = true -> s ∈ U x ->
    exists d, dsc t s = Some d /\ payload_kind (Kind d) /\ Birth d <= cp_Epoch cp;
  ch_late : forall x cp y cq s, (x, cp) ∈ L -> s ∈ gs x -> (y, cq) ∈ L -> cp_Retained cq = true -> s ∈ U y ->
    cp_Epoch cq <= cp_Epoch cp;
  ch_dead : forall y cq s, (y, cq) ∈ L -> cp_Retained cq = true -> s ∈ U y -> s ∉ gs 0 }.
Lemma ledger_charged t L gs bs U : ledger t L gs bs U -> charged t L gs bs U.
Proof.
  intros [? []]. split; auto. intros x cp Hin. destruct (lg_bitmaps x cp Hin) as (? & ? & ? & Hb). split_and!; auto.
  intros j s Hj. destruct (Hb j s Hj) as (? & _ & ?). done.
Qed.
(** The accounts of a transaction are those of the store it commits. *)
Lemma ledger_published t X s L gs bs U : ready t -> scratch t X -> publishes t X s -> charged t L gs bs U ->
  ledger (begin s) L gs bs U.
Proof.
  intros Hr HX Hpu [[Hls Hcp] Hgl Hch Hse Hbm Hbs Hus Hla Hde].
  pose proof (dsc_published t s Hr X HX Hpu) as Hdsc. pose proof (fun A f => pu_field t s X Hpu (A := A) f) as Hfld.
  assert (forall k h l, chain (dsc t) k h l -> chain (dsc (begin s)) k h l) as Hchain.
  { intros k h l Hc. eapply chain_ext; [|exact Hc]. intros x _. apply Hdsc. }
  split; [split|split]; auto.
  - destruct Hls. split; rewrite ?Hfld by done; auto.
  - intros x cp Hin. destruct (Hcp x cp Hin) as ((d & Hx & Hk) & Hrd & Hok). split; [exists d; by rewrite Hdsc|].
    split; [by apply (checkpoint_published t s Hr X HX Hpu x d)|done].
  - rewrite Hfld by done. by apply Hchain.
  - intros x cp Hin. destruct (Hbm x cp Hin) as (? & ? & ? & Hb). unfold bitmap_chain. cbn [begin store].
    rewrite (pu_size _ _ _ Hpu). split_and!; auto. intros j y Hj. destruct (Hb j y Hj) as (Hy & b & B & Hrb & HB). rewrite Hdsc.
    split; [done|]. split; [by cbn; rewrite lookup_empty|]. exists b, B. split; [|done].
    eapply (read_slot_published t s Hr X HX Hpu); [exact Hy|done|done|by eapply bitmap_not_node; [apply Hr|exact Hy|]|done].
  - intros x cp y. rewrite Hdsc. apply Hus.
Qed.

(** The bitmap pages of earlier versions are out of reach of an update. *)
Lemma step_bitmap t t' x d : step t t' -> x <> Protected (t_ctrl t) -> dsc t x = Some d -> Kind d = kindBitmap -> slotPage x ∉ fresh t ->
  dsc t' x = Some d /\ read t' (slotPage x) = read t (slotPage x) /\ slotPage x ∉ fresh t' /\ Protected (t_ctrl t') = Protected (t_ctrl t).
Proof.
  intros Hst Hnp Hd Hk Hf. apply dsc_bound in Hd as Hx.
  destruct Hst as [[s kind Hal|s Hrt|Hct Hst Hpg Hfr _|s ds Hs Hin Hds Hks Hct Hst Hfr _ Hoth _ Hpg]|Hq].
  - assert (x <> s) as Hne by (intros ->; pose proof (unused_live _ _ _ (al_unused _ _ _ _ Hal) Hd) as E; by rewrite Hk in E).
    rewrite (al_other _ _ _ _ Hal), (al_read _ _ _ _ Hal) by (done || lia). split_and!; try done; [|apply (al_ctrl _ _ _ _ Hal)]. intros [?|[E|(E & _)]]%(al_fresh_only _ _ _ _ Hal); [done| |].
    + pose proof (al_pos _ _ _ _ Hal). by apply slotPage_inj in E; [|lia..].
    + pose proof (al_pos _ _ _ _ Hal). by apply slotPage_descriptorPage in E; [|lia..].
  - destruct (rt_owner _ _ _ Hrt) as (d0 & _ & Hd0 & Hk0 & _).
    assert (x <> s) as Hne by (intros ->; simplify_eq; destruct Hk0 as [E|E]; by rewrite E in Hk).
    rewrite (rt_other _ _ _ Hrt), (rt_read _ _ _ Hrt), (rt_fresh _ _ _ Hrt) by (done || lia). split_and!; try done. apply (rt_ctrl _ _ _ Hrt).
  - revert Hct. generalize (Root (t_ctrl t')). intros r Hct. assert (forall p, read t' p = read t p) as Hrd by (intros p; unfold read; by rewrite Hpg, Hst).
    rewrite Hrd, Hfr. split_and!; try done; [|by rewrite Hct]. rewrite <- Hd. apply option_eq. intros d0. by rewrite !dsc_Some, Hrd, Hct.
  - assert (x <> s) as Hne by (by intros ->). rewrite Hoth, Hfr, Hct by done. split_and!; try done. unfold read. by rewrite Hpg, Hst by (done || lia).
  - rewrite (q_dsc _ _ Hq), (q_fresh _ _ Hq). split_and!; try done; [|by apply (quiet_ctrl _ _ Hq)].
    unfold read. by rewrite (q_slot _ _ Hq), (q_store _ _ Hq) by lia.
Qed.
Lemma update_bitmap t F t' x d : update_fx t F t' -> x <> Protected (t_ctrl t) -> dsc t x = Some d -> Kind d = kindBitmap -> slotPage x ∉ fresh t ->
  dsc t' x = Some d /\ read t' (slotPage x) = read t (slotPage x).
Proof.
  intros Hu. apply up_steps in Hu. induction Hu as [t|t t1 t2 Hp Hs IH]; intros Hnp Hd Hk Hf; [done|].
  destruct (step_bitmap t t1 x d Hp Hnp Hd Hk Hf) as (Hd1 & Hr1 & Hf1 & Hp1). destruct (IH ltac:(by rewrite Hp1) Hd1 Hk Hf1) as [-> ->]. done.
Qed.
