(* ===== verification/Ops.v ===== *)
(** * Ops: the operations of an open DIFF.

    Models the handle of pkg/diffstore/internal/versioned (api.go, the mutation
    loop of transaction.go, the block operations of tree.go, cache_mutations.go,
    presence.go, bitmap.go, checkpoint.go and gc.go): its health, the transaction
    every mutation runs in, the retries with garbage collection when the host is
    short of space, writing, discarding and reading blocks, and the collector's
    turns.

    Operations are serialised by the handle's mutex, so each is a function of the
    handle's state; [op] threads that state and the error.  What the host decides
    is a parameter: [fallocate] (does a reservation succeed on this file), [pin]
    (does a reader hold this version) and [ctx] (the caller's context, cancelled
    before the call or not at all).  The atomic copies of the health flags that
    lock-free callers read are the fields they copy. *)
From stdpp Require Import base numbers list gmap strings sorting.
From Stdlib Require Import ZArith Lia.
From S2P Require Import Prelude Page Presence Json Format Tree Tx Demo TreeWrite Retire TreeRemove Sha256 Commit Crash Publish Bitmap Checkpoint Gc.

#[local] Opaque Sum256 sealPage checkPage Page.put.

(** ** The handle *)

Record handle := mkHandle {
  h_store : Store;
  h_gc : gcScan;
  h_deletion : Z;
  h_versionTurn : bool;
  h_fatal : option diff_error;
  h_closed : bool;
  h_metadataOnly : bool }.
Definition h_ctrl (h : handle) : control := s_ctrl (h_store h).
Definition h_size (h : handle) : Z := s_size (h_store h).

Definition set_store (s : Store) (h : handle) : handle :=
  mkHandle s (h_gc h) (h_deletion h) (h_versionTurn h) (h_fatal h) (h_closed h) (h_metadataOnly h).
Definition set_gc (g : gcScan) (h : handle) : handle :=
  mkHandle (h_store h) g (h_deletion h) (h_versionTurn h) (h_fatal h) (h_closed h) (h_metadataOnly h).
Definition set_deletion (n : Z) (h : handle) : handle :=
  mkHandle (h_store h) (h_gc h) n (h_versionTurn h) (h_fatal h) (h_closed h) (h_metadataOnly h).
Definition set_turn (b : bool) (h : handle) : handle :=
  mkHandle (h_store h) (h_gc h) (h_deletion h) b (h_fatal h) (h_closed h) (h_metadataOnly h).
Definition set_fatal (e : diff_error) (h : handle) : handle :=
  mkHandle (h_store h) (h_gc h) (h_deletion h) (h_versionTurn h) (Some e) (h_closed h) (h_metadataOnly h).
Definition set_closed (h : handle) : handle :=
  mkHandle (h_store h) (h_gc h) (h_deletion h) (h_versionTurn h) (h_fatal h) true (h_metadataOnly h).
(** The file changes outside a transaction only by punching holes. *)
Definition punch_file (f : file) (h : handle) : handle :=
  let s := h_store h in set_store (mkStore f (s_ctrl s) (s_presence s) (s_size s)) h.

(** [op A]: what a call returns and the handle it leaves. *)
Definition op (A : Type) : Type := handle -> dres A * handle.
Definition ret {A} (a : A) : op A := fun h => (Ok a, h).
Definition raise {A} (e : diff_error) : op A := fun h => (Err e, h).
Definition lift {A} (r : dres A) : op A := fun h => (r, h).
Definition op_bind {A B} (m : op A) (k : A -> op B) : op B := fun h =>
  match m h with (Ok a, h) => k a h | (Err e, h) => (Err e, h) end.
Definition modify (f : handle -> handle) : op unit := fun h => (Ok tt, f h).
Notation "'do*' x ':=' c 'in' k" := (op_bind c (fun x => k))
  (at level 200, x pattern, c at level 100, k at level 200, right associativity).
Definition with_handle {A} (k : handle -> op A) : op A := fun h => k h h.

(** [s.fail(err)]: the first failure is kept and returned by every later call. *)
Definition fail_handle (e : diff_error) (h : handle) : handle :=
  match h_fatal h with Some _ => h | None => set_fatal e h end.
Definition fail {A} (e : diff_error) : op A := fun h => (Err e, fail_handle e h).
(** An error of [m] is sticky. *)
Definition sticky {A} (m : op A) : op A := fun h =>
  match m h with (Ok a, h) => (Ok a, h) | (Err e, h) => fail e h end.

Section Ops.
Context (xc : option xts_cipher) (fallocate : file -> Z -> Z -> dres unit) (pin : Z -> dres unit) (ctx : dres unit).

Definition healthy : op unit := fun h =>
  (if h_closed h then Err ErrClosed
   else match h_fatal h with
        | Some e => Err e
        | None => if Retired (h_ctrl h) then Err ErrRetired else ctx
        end, h).

(** ** Transactions *)

(** [reserve]: the pages of the allocated slots and the new metadata pages, merged
    into runs. *)
Fixpoint page_runs (first last : Z) (l : list Z) : list (Z * Z) :=
  match l with
  | [] => [(first, last)]
  | p :: l => if p <=? last + 1 then page_runs first p l else (first, last) :: page_runs p p l
  end.
Definition reserve_pages (t : transaction) (new : list record) : list Z :=
  merge_sort Z.le ((slotPage <$> allocated t) ++ (fst <$> new)).
Fixpoint reserve_runs (f : file) (runs : list (Z * Z)) : dres unit :=
  match runs with
  | [] => Ok tt
  | (first, last) :: runs => let* _ := fallocate f first (last - first + 1) in reserve_runs f runs
  end.
Definition reserve (t : transaction) (new : list record) : dres unit :=
  match reserve_pages t new with
  | [] => Ok tt
  | p :: l => reserve_runs (s_file (store t)) (page_runs p p l)
  end.
(** [commit] with its reservation; no write precedes a failure. *)
Definition reserve_commit (t : transaction) : dres Store :=
  let* pl := commit_plan t in
  let* _ := match pl with Some p => reserve t (pl_new p) | None => Ok tt end in
  commit xc t.

(** Failures of a request, not of the store. *)
Definition benign (e : diff_error) : bool :=
  match e with ErrNotExist | ErrExists | ErrCanceled => true | _ => false end.
(** [punch] of the slots an abandoned transaction had allocated. *)
Definition rollback (t : transaction) (f : file) : file :=
  fold_left (fun f s => punchPage f (slotPage s)) (allocated t) f.

Definition mutateOnce (fn : transaction -> op transaction) (redoBudget : Z) : op unit :=
  do* _ := lift ctx in
  do* t := (fun h =>
    match fn (begin (h_store h)) h with
    | (Ok t, h) => (Ok t, h)
    | (Err e, h) => if benign e then (Err e, h) else fail e h
    end) in
  do* _ := lift ctx in
  if (0 <? redoBudget) && (redoBudget <? redoPages t) then raise (DiscardRedoBudget (redoPages t) redoBudget)
  else fun h =>
    match reserve_commit t with
    | Ok s => (Ok tt, set_store s h)
    | Err e =>
        let h := punch_file (rollback t (s_file (h_store h))) h in
        match e with ErrReservation => (Err e, h) | _ => fail e h end
    end.

(** ** Garbage collection (gc.go) *)

Inductive GCState := Complete | More | BlockedByReaders.

(** The transaction of [gcRelease]; its punches reach the file at once. *)
Definition release_body (budget : nat) (t : transaction) : op transaction :=
  do* (slots, next) := lift (candidates budget t [] (Garbage (t_ctrl t))) in
  if bool_decide (next ∈ slots) then raise (DiffErr "diffstore: garbage chain cycle")
  else
    let slots := merge_sort (fun a b => slotPage a <= slotPage b) slots in
    let f := punch_slots (s_file (store t)) slots in
    do* _ := modify (punch_file f) in
    do* t := lift (free_slots (set_file f t) slots) in
    let c := set_Garbage next (t_ctrl t) in
    ret (set_ctrl (match slots with s :: _ => set_Free s c | [] => c end) t).
(** The number of slots whose publication committed. *)
Definition gc_release (budget : nat) : op Z := fun h =>
  let n := match candidates budget (begin (h_store h)) [] (Garbage (h_ctrl h)) with
           | Ok (slots, _) => Z.of_nat (length slots) | Err _ => 0 end in
  (do* _ := mutateOnce (release_body budget) 0 in ret n) h.
(** The place of the walk is kept only when its transaction committed. *)
Definition gc_versions (budget : nat) : op bool := fun h =>
  match gcVersions pin (h_deletion h) (h_gc h) (begin (h_store h)) budget with
  | Ok (blocked, g, t) =>
      (do* _ := mutateOnce (fun _ => ret t) 0 in do* _ := modify (set_gc g) in ret blocked) h
  | Err e => (do* _ := mutateOnce (fun _ => raise e) 0 in ret false) h
  end.

Definition gcLocked (budget : nat) : op (GCState * Z) :=
  do* _ := healthy in
  with_handle (fun h =>
    if (Garbage (h_ctrl h) =? 0) && (Pending (h_ctrl h) =? 0)
    then do* _ := modify (set_gc gcScan0) in ret (Complete, 0)
    else if (budget =? 0)%nat then ret (More, 0)
    else
      let both := negb (Garbage (h_ctrl h) =? 0) && negb (Pending (h_ctrl h) =? 0) in
      let releaseBudget := if both && h_versionTurn h then O else budget in
      let versionBudget := if both && negb (h_versionTurn h) then O else budget in
      do* _ := modify (fun h => if both then set_turn (negb (h_versionTurn h)) h else h) in
      do* freed := (if negb (Garbage (h_ctrl h) =? 0) && negb (releaseBudget =? 0)%nat
                    then gc_release releaseBudget else ret 0) in
      do* blocked := with_handle (fun h =>
        if negb (Pending (h_ctrl h) =? 0) && negb (versionBudget =? 0)%nat
        then gc_versions versionBudget else ret false) in
      with_handle (fun h =>
        if Garbage (h_ctrl h) =? 0 then
          if Pending (h_ctrl h) =? 0 then do* _ := modify (set_gc gcScan0) in ret (Complete, freed)
          else ret (if blocked then BlockedByReaders else More, freed)
        else ret (More, freed))).
Definition MaxBatchPages : nat := 64.
Definition GC (budget : Z) : op (GCState * Z) := gcLocked (Z.to_nat (Z.min (Z.max budget 0) 64)).

(** ** Retrying under space pressure *)

(** At most [n] foreground turns of the collector; the slots they freed. *)
Fixpoint assist (n : nat) (freed : Z) : op Z :=
  match n with
  | O => ret freed
  | S n => with_handle (fun h =>
      if (Garbage (h_ctrl h) =? 0) && (Pending (h_ctrl h) =? 0) then ret freed
      else
        do* (state, k) := gcLocked MaxBatchPages in
        match state with More => assist n (u64 (freed + k)) | _ => ret (u64 (freed + k)) end)
  end.
Definition reservationFailure {A} (defer : bool) : op A := with_handle (fun h =>
  if defer && bool_decide (h_fatal h = None) then raise ErrReservation else fail ErrReservation).
(** [attempts] more after this one. *)
Fixpoint mutate_attempts (attempts : nat) (fn : transaction -> op transaction) (redoBudget : Z) (defer : bool) : op unit := fun h =>
  match mutateOnce fn redoBudget h with
  | (Err ErrReservation, h) =>
      if bool_decide (h_fatal h <> None) then (Err ErrReservation, h)
      else match attempts with
           | O => reservationFailure defer h
           | S attempts =>
               (do* freed := assist 16 0 in
                if freed =? 0 then reservationFailure defer else mutate_attempts attempts fn redoBudget defer) h
           end
  | r => r
  end.
Definition mutate_policy := mutate_attempts 2.
Definition mutate (fn : transaction -> op transaction) : op unit := mutate_policy fn 0 false.

(** ** Block operations *)

Definition clear_current (t : transaction) : op transaction := ret (set_ctrl (set_Current 0 (t_ctrl t)) t).
Definition MarkModified : op unit :=
  do* _ := healthy in
  with_handle (fun h => if Current (h_ctrl h) =? 0 then ret tt else mutate clear_current).

Definition MaxPresencePages : Z := 256.
Definition total_blocks (s : Store) : Z := s_size s / PageSize.
Definition store_reader (s : Store) : reader := tx_reader (begin s).
(** The chunks of [validatePayloadRange]; [n] is the number of blocks left. *)
Fixpoint validate_chunks (n : nat) (s : Store) (start stop : Z) : dres unit :=
  match n with
  | O => Ok tt
  | S n =>
      if start <? stop then
        let next := Z.min stop (start + MaxPresencePages) in
        let* _ := payloadRange maxDepth (store_reader s) (Root (s_ctrl s)) start next
                    (replicate (Z.to_nat (next - start)) false) 0 (total_blocks s - 1) false in
        validate_chunks n s next stop
      else Ok tt
  end.
Definition validatePayloadRange (s : Store) (start stop : Z) : dres unit :=
  if Root (s_ctrl s) =? 0 then Ok tt else validate_chunks (Z.to_nat (stop - start)) s start stop.

(** Runs of consecutive blocks, as first block and the block after the last. *)
Fixpoint block_runs (first last : Z) (l : list Z) : list (Z * Z) :=
  match l with
  | [] => [(first, last + 1)]
  | b :: l => if b =? last + 1 then block_runs first b l else (first, last + 1) :: block_runs b b l
  end.
Definition runs_of (l : list Z) : list (Z * Z) := match l with [] => [] | b :: l => block_runs b b l end.
Fixpoint validate_runs (s : Store) (runs : list (Z * Z)) : dres unit :=
  match runs with
  | [] => Ok tt
  | (first, stop) :: runs => let* _ := validatePayloadRange s first stop in validate_runs s runs
  end.

Record page := mkPage { Block : Z; Data : list Z }.
(** The blocks of a batch in the order of their first write, and the last data written to each. *)
Fixpoint batch_order (seen : list Z) (part : list page) : list Z :=
  match part with
  | [] => []
  | p :: part => if bool_decide (Block p ∈ seen) then batch_order seen part
                 else Block p :: batch_order (Block p :: seen) part
  end.
Definition batch_data (part : list page) (block : Z) : list Z :=
  fold_left (fun d p => if Block p =? block then Data p else d) part [].

Definition add_data (d : dataWrite) (t : transaction) : transaction :=
  mkTx (store t) (t_ctrl t) (t_pages t) (t_nodes t) (protectedKnown t) (protectedValue t) (fresh t) (allocated t) (t_data t ++ [d]).
(** One block of the batch: in place when no retained version shares its slot,
    otherwise into a new slot that is mapped after all the data slots are allocated. *)
Definition write_block (t : transaction) (block : Z) (data : list Z) : dres (option entry * transaction) :=
  let* t := setPresence t block in
  let* s := lookup (tx_reader t) (Root (t_ctrl t)) block in
  let* (own, t) := if s =? 0 then Ok (false, t) else private_ t s in
  if own then Ok (None, add_data (mkDataWrite s block data) t)
  else
    let* (new, t) := allocate t kindData in
    let t := add_data (mkDataWrite new block data) t in
    let* t := if s =? 0 then Ok t else retire t s in
    Ok (Some (mkEntry block new), t).
Fixpoint write_blocks (data : Z -> list Z) (order : list Z) (t : transaction) : dres (list entry * transaction) :=
  match order with
  | [] => Ok ([], t)
  | b :: order =>
      let* (m, t) := write_block t b (data b) in
      let* (ms, t) := write_blocks data order t in
      Ok (match m with Some e => e :: ms | None => ms end, t)
  end.
Fixpoint set_all (ms : list entry) (t : transaction) : dres transaction :=
  match ms with [] => Ok t | e :: ms => let* t := set t (key e) (slot e) in set_all ms t end.
Definition write_body (part : list page) (t : transaction) : dres transaction :=
  let order := batch_order [] part in
  let* _ := validate_runs (store t) (runs_of (merge_sort Z.le order)) in
  let* (ms, t) := write_blocks (batch_data part) order t in
  set_all ms t.

(** One batch of [writePages]. *)
Definition write_batch (part : list page) (defer : bool) : op unit :=
  do* _ := healthy in
  do* _ := with_handle (fun h =>
    if h_metadataOnly h then raise (DiffErr "diffstore: metadata-only handle cannot write payload")
    else if Current (h_ctrl h) =? 0 then ret tt else mutate clear_current) in
  mutate_policy (fun t => lift (write_body part t)) 0 defer.
Fixpoint write_batches (n : nat) (pages : list page) (defer : bool) : op unit :=
  match n, pages with
  | S n, _ :: _ =>
      do* _ := write_batch (take MaxBatchPages pages) defer in
      write_batches n (drop MaxBatchPages pages) defer
  | _, _ => ret tt
  end.
Definition invalid_page (size : Z) (p : page) : bool :=
  negb (Z.of_nat (length (Data p)) =? PageSize) || (size / PageSize <=? Block p).
Definition writePages (pages : list page) (defer : bool) : op unit :=
  match pages with
  | [] => lift ctx
  | _ =>
      if defer && (256 <? Z.of_nat (length pages)) then raise (DiffErr "diffstore: cache Data window exceeds 256 pages")
      else with_handle (fun h =>
        if existsb (invalid_page (h_size h)) pages then raise (DiffErr "diffstore: invalid full page write")
        else do* _ := MarkModified in write_batches (length pages) pages defer)
  end.
Definition WritePages (pages : list page) : op unit := writePages pages false.

(** *** Discarding *)

Definition MaxDiscardPages : Z := 1024.
(** One run of blocks inside a transaction. *)
Definition discard_run (first stop : Z) (t : transaction) : dres transaction :=
  let* _ := validatePayloadRange (store t) first stop in
  let* t := setPresenceRange (Z.to_nat (stop - first)) t first stop in
  unsetRange t first stop.
Fixpoint discard_runs (runs : list (Z * Z)) (t : transaction) : dres transaction :=
  match runs with [] => Ok t | (first, stop) :: runs => let* t := discard_run first stop t in discard_runs runs t end.
Definition discard_body (runs : list (Z * Z)) (t : transaction) : op transaction :=
  lift (discard_runs runs (set_ctrl (set_Current 0 (t_ctrl t)) t)).
Definition discard_once (runs : list (Z * Z)) (redoBudget : Z) : op unit :=
  do* _ := healthy in
  do* _ := with_handle (fun h =>
    if h_metadataOnly h then raise (DiffErr "diffstore: metadata-only handle cannot discard payload") else ret tt) in
  mutate_policy (discard_body runs) redoBudget false.

(** The loop of [Discard] in pages: a transaction that needs too many redo pages is
    retried with half of its range. *)
Definition next_end (pos stop : Z) : Z := Z.min stop (pos + MaxDiscardPages).
Fixpoint discard_loop (fuel : nat) (pos end_ stop redoBudget : Z) (h : handle) : option (dres unit * handle) :=
  match fuel with
  | O => None
  | S fuel =>
      if pos <? stop then
        match discard_once [(pos, end_)] redoBudget h with
        | (Ok _, h) => discard_loop fuel end_ (next_end end_ stop) stop redoBudget h
        | (Err (DiscardRedoBudget p l), h) =>
            if 1 <? end_ - pos then discard_loop fuel pos (pos + Z.max 1 ((end_ - pos) / 2)) stop redoBudget h
            else Some (Err (DiscardRedoBudget p l), h)
        | (Err e, h) => Some (Err e, h)
        end
      else Some (Ok tt, h)
  end.
(** Fuel is never exhausted. *)
Definition run_loop (loop : handle -> option (dres unit * handle)) : op unit := fun h =>
  default (Err (DiffErr "loop"), h) (loop h).
(** Every turn commits at least one page or halves the range. *)
Definition discard_fuel (pos end_ stop : Z) : nat :=
  S (Z.to_nat ((stop - pos) * (MaxDiscardPages + 1) + (end_ - pos))).
Definition discardWithRedoBudget (off len redoBudget : Z) : op unit :=
  if (redoBudget <=? 0) || (maxLogPages <? redoBudget) then raise (DiffErr "diffstore: invalid discard redo budget")
  else with_handle (fun h =>
    if (off <? 0) || (len <? 0) || negb (off mod PageSize =? 0) || negb (len mod PageSize =? 0)
       || (h_size h <? off) || (h_size h - off <? len) then raise (DiffErr "diffstore: invalid discard range")
    else if len =? 0 then lift ctx
    else
      do* _ := MarkModified in
      let pos := off / PageSize in
      let stop := (off + len) / PageSize in
      run_loop (discard_loop (discard_fuel pos (next_end pos stop) stop) pos (next_end pos stop) stop redoBudget)).
Definition Discard (off len : Z) : op unit := discardWithRedoBudget off len maxLogPages.

(** [DiscardPages]: [todo] are the blocks left, in order, of which the next
    transaction takes the first [n]. *)
Fixpoint discard_window (fuel : nat) (n : nat) (todo : list Z) (h : handle) : option (dres unit * handle) :=
  match fuel with
  | O => None
  | S fuel =>
      match todo with
      | [] => Some (Ok tt, h)
      | _ =>
          match discard_once (runs_of (take n todo)) maxLogPages h with
          | (Ok _, h) => let todo := drop n todo in discard_window fuel (length todo) todo h
          | (Err (DiscardRedoBudget p l), h) =>
              if (1 <? n)%nat then discard_window fuel (n / 2) todo h else Some (Err (DiscardRedoBudget p l), h)
          | (Err e, h) => Some (Err e, h)
          end
      end
  end.
Definition window_fuel (n : nat) (todo : list Z) : nat := S (length todo * (length todo + 1) + n).
Fixpoint repeated (l : list Z) : bool :=
  match l with a :: (b :: _) as l => (a =? b) || repeated l | _ => false end.
Definition DiscardPages (blocks : list Z) : op unit :=
  match blocks with
  | [] => lift ctx
  | _ =>
      if MaxDiscardPages <? Z.of_nat (length blocks) then raise (DiffErr "diffstore: Zero window exceeds the page bound")
      else with_handle (fun h =>
        let ordered := merge_sort Z.le blocks in
        if existsb (fun b => h_size h / PageSize <=? b) ordered || repeated ordered
        then raise (DiffErr "diffstore: invalid or repeated block in Zero window")
        else
          do* _ := MarkModified in
          run_loop (discard_window (window_fuel (length ordered) ordered) (length ordered) ordered))
  end.

(** *** Reading *)

(** [readData]: one physical run of [n] pages; a short read delivers its complete
    pages and an error. *)
Definition readData (f : file) (page block : Z) (n : nat) (inner want : Z) : list Z * option diff_error :=
  let complete := Z.to_nat (Z.min (Z.of_nat n) (flen f - page)) in
  let b := concat ((fun i => crypt xc (page_at f (page + Z.of_nat i)) (block + Z.of_nat i) false) <$> seq 0 complete) in
  (take (Z.to_nat want) (drop (Z.to_nat inner) b), if (complete <? n)%nat then Some ErrIO else None).
(** The lookahead of [ReadAt]: how many of the next blocks are adjacent, and the
    error that stopped it. *)
Fixpoint lookahead (fuel : nat) (s : Store) (first block pages inner want : Z) : Z * option diff_error :=
  match fuel with
  | O => (pages, None)
  | S fuel =>
      if (pages <? 256) && (pages * PageSize - inner <? want) then
        if negb (Has (s_presence s) (block + pages)) then (pages, None)
        else match lookup (store_reader s) (Root (s_ctrl s)) (block + pages) with
             | Err e => (pages, Some e)
             | Ok next =>
                 if (next =? 0) || negb (slotPage next =? slotPage first + pages) then (pages, None)
                 else lookahead fuel s first block (pages + 1) inner want
             end
      else (pages, None)
  end.
(** The loop of [ReadAt]: the bytes read from position [pos], [want] of them, and the error that stopped it. *)
Fixpoint read_loop (fuel : nat) (s : Store) (pos want : Z) : list Z * option diff_error :=
  match fuel with
  | O => ([], None)
  | S fuel =>
      if want <=? 0 then ([], None)
      else
        let block := pos / PageSize in
        let inner := pos mod PageSize in
        let n := Z.min want (PageSize - inner) in
        let zeros := let (b, e) := read_loop fuel s (pos + n) (want - n) in (replicate (Z.to_nat n) 0 ++ b, e) in
        if negb (Has (s_presence s) block) then zeros
        else match lookup (store_reader s) (Root (s_ctrl s)) block with
             | Err e => ([], Some e)
             | Ok slot =>
                 if slot =? 0 then
                   match validatePayloadRange s block (block + 1) with Err e => ([], Some e) | Ok _ => zeros end
                 else
                   let (pages, ahead) := lookahead 256 s slot block 1 inner want in
                   match readData (s_file s) (slotPage slot) block (Z.to_nat pages) inner want with
                   | (b, Some e) => (b, Some e)
                   | (b, None) =>
                       match ahead with
                       | Some e => (b, Some e)
                       | None =>
                           let n := Z.of_nat (length b) in
                           let (b', e) := read_loop fuel s (pos + n) (want - n) in (b ++ b', e)
                       end
                   end
             end
  end.
(** The bytes delivered, and whether the read reached the end of the disk or the
    error that stopped it. *)
Definition ReadAt (len off : Z) (h : handle) : list Z * dres bool * handle :=
  match healthy h with
  | (Err e, h) => ([], Err e, h)
  | (Ok _, h) =>
      if h_metadataOnly h then ([], Err (DiffErr "diffstore: metadata-only handle cannot read payload"), h)
      else if (off <? 0) || (h_size h <? off) then ([], Ok true, h)
      else if len =? 0 then ([], Ok false, h)
      else if off =? h_size h then ([], Ok true, h)
      else
        let count := Z.min len (h_size h - off) in
        match read_loop (Z.to_nat count) (h_store h) off count with
        | (b, Some e) => (b, Err e, fail_handle e h)
        | (b, None) => (b, Ok (Z.of_nat (length b) <? len), h)
        end
  end.

(** ** Queries *)

Definition PayloadPresence (start : Z) (n : nat) : op (list bool) :=
  do* _ := healthy in
  with_handle (fun h =>
    let total := total_blocks (h_store h) in
    if (MaxPresencePages <? Z.of_nat n) || (total <? start) || (total - start <? Z.of_nat n)
    then raise (DiffErr "diffstore: invalid presence range")
    else if (n =? 0)%nat || (Root (h_ctrl h) =? 0) then ret (replicate n false)
    else sticky (lift (payloadRange maxDepth (store_reader (h_store h)) (Root (h_ctrl h)) start (start + Z.of_nat n)
                         (replicate n false) 0 (total - 1) false))).
Definition Presence (start : Z) (n : nat) : op (list bool) :=
  do* _ := healthy in
  with_handle (fun h =>
    let total := total_blocks (h_store h) in
    if (MaxPresencePages <? Z.of_nat n) || (total <? start) || (total - start <? Z.of_nat n)
    then raise (DiffErr "diffstore: invalid presence range")
    else ret ((fun i => Has (s_presence (h_store h)) (start + Z.of_nat i)) <$> seq 0 n)).
Definition PresenceBitmap : op (list Z) :=
  do* _ := healthy in with_handle (fun h => ret (s_presence (h_store h))).
(** [Scan] with a visitor that folds over the mapped blocks. *)
Definition Scan {A} (visit : A -> Z -> dres A) (a : A) : op A :=
  do* _ := healthy in
  with_handle (fun h =>
    if Root (h_ctrl h) =? 0 then ret a
    else lift (scanActive maxDepth (store_reader (h_store h)) (Root (h_ctrl h)) 0 (total_blocks (h_store h) - 1) false visit a)).
(** The name [Info] reports as the current checkpoint. *)
Definition CurrentCheckpoint (h : handle) : list Z * handle :=
  if h_closed h || bool_decide (h_fatal h <> None) || Retired (h_ctrl h) || (Current (h_ctrl h) =? 0) then ([], h)
  else match readCheckpoint (begin (h_store h)) (Current (h_ctrl h)) with
       | Ok cp => (cp_ID cp, h)
       | Err e => ([], fail_handle e h)
       end.
Definition CanResume (id : list Z) (h : handle) : bool := negb (bool_decide (id = [])) && bool_decide ((CurrentCheckpoint h).1 = id).

(** ** Versions *)

Definition CheckpointOp (id : list Z) : op unit :=
  do* _ := lift (ValidID id) in
  do* _ := healthy in
  with_handle (fun h =>
    match findCheckpoint (begin (h_store h)) id with
    | Ok _ => raise ErrExists
    | Err ErrNotExist => mutate (fun t => lift (checkpoint_body t id))
    | Err e => fail e
    end).
Definition ListCheckpointsOp : op (list (list Z)) :=
  do* _ := healthy in with_handle (fun h => sticky (lift (Checkpoint.ListCheckpoints (begin (h_store h))))).
(** One batch of [DeleteCheckpoints]; the deletion counter advances with the body. *)
Definition delete_batch (ids : list (list Z)) : op unit :=
  mutate (fun t h => let (n, r) := delete_body pin (h_deletion h) t ids in (r, set_deletion n h)).
Fixpoint delete_batches (n : nat) (ids : list (list Z)) : op unit :=
  match n, ids with
  | S n, _ :: _ => do* _ := delete_batch (take MaxBatchPages ids) in delete_batches n (drop MaxBatchPages ids)
  | _, _ => ret tt
  end.
Fixpoint valid_ids (ids : list (list Z)) : dres unit :=
  match ids with [] => Ok tt | id :: ids => let* _ := ValidID id in valid_ids ids end.
Definition DeleteCheckpoints (ids : list (list Z)) : op unit :=
  do* _ := lift (valid_ids ids) in
  do* _ := healthy in
  delete_batches (length ids) ids.
(** [Retire] up to the unlinking of the file. *)
Definition set_Retired (c : control) : control :=
  mkControl (Root c) (Next c) (Free c) (Garbage c) (Epoch c) 0 (Head c) (Tail c) (Protected c) (Pending c) (GCScan c) true (Tx c).
Definition RetireOp : op unit := with_handle (fun h =>
  if h_closed h then raise ErrClosed
  else match h_fatal h with
       | Some e => raise e
       | None => if Retired (h_ctrl h) then ret tt else mutate (fun t => ret (set_ctrl (set_Retired (t_ctrl t)) t))
       end).
(** [Close]: later calls fail; what is left of the handle is not used again. *)
Definition Close : op unit := fun h =>
  if h_closed h then (Ok tt, h)
  else (match h_fatal h with Some e => Err e | None => Ok tt end, set_closed h).

(** ** Termination of the halving loops *)

(** An attempt at block [pos] that was too large for the redo log. *)
Definition refused (redoBudget pos : Z) (h h' : handle) : Prop :=
  exists end_ p l, discard_once [(pos, end_)] redoBudget h = (Err (DiscardRedoBudget p l), h').
(** The ranges from [pos] to [stop] committed one after the other. *)
Inductive discards (redoBudget : Z) : Z -> Z -> handle -> handle -> Prop :=
| discards_done pos h : discards redoBudget pos pos h h
| discards_part pos end_ stop h h1 h2 h' : pos < end_ -> rtc (refused redoBudget pos) h h1 ->
    discard_once [(pos, end_)] redoBudget h1 = (Ok tt, h2) -> discards redoBudget end_ stop h2 h' ->
    discards redoBudget pos stop h h'.
(** What stopped the loop at block [mid]. *)
Definition stopped (redoBudget mid : Z) (h : handle) (e : diff_error) (h' : handle) : Prop :=
  exists end_ h1, mid < end_ /\ rtc (refused redoBudget mid) h h1 /\ discard_once [(mid, end_)] redoBudget h1 = (Err e, h') /\
    forall p l, e = DiscardRedoBudget p l -> end_ = mid + 1.

Lemma discards_refused redoBudget pos stop h h1 h' : refused redoBudget pos h h1 -> pos < stop ->
  discards redoBudget pos stop h1 h' -> discards redoBudget pos stop h h'.
Proof. intros Hr Hp Hd. destruct Hd as [|pos end_ stop h2 h3 h4 h' ? Hs]; [lia|]. econstructor; [done|by econstructor|done..]. Qed.
Lemma next_end_bounds pos stop : pos < stop -> pos < next_end pos stop <= stop /\ next_end pos stop - pos <= MaxDiscardPages.
Proof. unfold next_end, MaxDiscardPages. lia. Qed.
(** [fuel] exceeds what is left to do. *)
Definition work (pos end_ stop : Z) : Z := (stop - pos) * (MaxDiscardPages + 1) + (end_ - pos).
Lemma discard_loop_spec redoBudget fuel : forall pos end_ stop h, pos = stop \/ pos < end_ <= stop /\ end_ - pos <= MaxDiscardPages ->
  (0 < fuel)%nat -> pos = stop \/ work pos end_ stop < Z.of_nat fuel ->
  exists r h', discard_loop fuel pos end_ stop redoBudget h = Some (r, h') /\
    exists mid h1, discards redoBudget pos mid h h1 /\
      (r = Ok tt /\ mid = stop /\ h' = h1 \/ exists e, r = Err e /\ mid < stop /\ stopped redoBudget mid h1 e h').
Proof.
  induction fuel as [|fuel IH]; intros pos end_ stop h Hp H0 Hf; [lia|].
  cbn [discard_loop]. destruct (pos <? stop) eqn:E; [apply Z.ltb_lt in E|apply Z.ltb_ge in E].
  2: { exists (Ok tt), h. split; [done|]. exists pos, h. split; [constructor|]. left. split_and!; [done|lia|done]. }
  destruct Hp as [?|[Hp Hm]]; [lia|]. destruct Hf as [?|Hf]; [lia|].
  assert (0 < fuel)%nat as H1 by (unfold work, MaxDiscardPages in *; nia).
  destruct (discard_once [(pos, end_)] redoBudget h) as [[[]|e] h1] eqn:Eo.
  - destruct (IH end_ (next_end end_ stop) stop h1) as (r & h' & Hl & mid & h2 & Hd & Hr).
    + destruct (decide (end_ = stop)); [by left|right]. apply next_end_bounds. lia.
    + done.
    + destruct (decide (end_ = stop)); [by left|right].
      pose proof (next_end_bounds end_ stop ltac:(lia)). unfold work, MaxDiscardPages in *. nia.
    + exists r, h'. split; [done|]. exists mid, h2. split; [|done]. by eapply (discards_part _ pos end_ mid h h h1 h2); [lia|apply rtc_refl| |].
  - assert (forall p l, e = DiscardRedoBudget p l -> 1 < end_ - pos -> refused redoBudget pos h h1) as Hre by (intros p l -> _; by exists end_, p, l).
    assert (forall p l, e = DiscardRedoBudget p l -> 1 < end_ - pos -> exists r h',
      discard_loop fuel pos (pos + Z.max 1 ((end_ - pos) / 2)) stop redoBudget h1 = Some (r, h') /\
      exists mid h2, discards redoBudget pos mid h h2 /\
        (r = Ok tt /\ mid = stop /\ h' = h2 \/ exists e, r = Err e /\ mid < stop /\ stopped redoBudget mid h2 e h')) as Hhalf.
    { intros p l -> Hw. pose proof (Z.div_lt (end_ - pos) 2 ltac:(lia) ltac:(lia)) as Hdv.
      destruct (IH pos (pos + Z.max 1 ((end_ - pos) / 2)) stop h1) as (r & h' & Hl & mid & h2 & Hd & Hr).
      - right. lia.
      - done.
      - right. unfold work in *. lia.
      - exists r, h'. split; [done|]. destruct (decide (mid = pos)) as [->|Hne].
        + inversion Hd as [|? e2 ? ? ? ? ? He2 _ _ Hd2]; subst; [|exfalso; clear -Hd2 He2; revert He2; induction Hd2; lia].
          exists pos, h. split; [constructor|]. destruct Hr as [(-> & ? & ->)|(e & -> & Hms & e2 & h3 & He2 & Hrt & Ho & Hb)]; [lia|].
          right. exists e. split; [done|]. split; [done|]. exists e2, h3. split_and!; try done. econstructor; [by eapply Hre|done].
        + exists mid, h2. split; [|done]. eapply discards_refused; [by eapply Hre| |done].
          inversion Hd as [|? e2 ? ? ? ? ? He2 _ _ Hd2]; subst; [lia|]. clear -Hd2 He2. revert He2. induction Hd2; lia. }
    assert ((exists p l, e = DiscardRedoBudget p l) \/ forall p l, e <> DiscardRedoBudget p l) as [(p & l & ->)|Hne] by (destruct e; eauto; right; done).
    + destruct (1 <? end_ - pos) eqn:Ew; [apply Z.ltb_lt in Ew; by eapply Hhalf|]. apply Z.ltb_ge in Ew.
      eexists _, h1. split; [done|]. exists pos, h. split; [constructor|]. right. eexists. split; [done|]. split; [done|].
      exists end_, h. split_and!; [lia|apply rtc_refl|done|]. intros. lia.
    + assert (discard_loop (S fuel) pos end_ stop redoBudget h = Some (Err e, h1)) as Hl.
      { cbn [discard_loop]. rewrite (proj2 (Z.ltb_lt _ _) E), Eo. destruct e; try done. by destruct (Hne pages limit). }
      cbn [discard_loop] in Hl. rewrite (proj2 (Z.ltb_lt _ _) E), Eo in Hl.
      exists (Err e), h1. split; [done|]. exists pos, h. split; [constructor|]. right. exists e. split; [done|]. split; [done|].
      exists end_, h. split_and!; [lia|apply rtc_refl|done|]. intros p l ->. by destruct (Hne p l).
Qed.
End Ops.

(** C22 — Discarding a range ends: the loop that halves its transactions until they
    fit the redo log stops after finitely many turns, whatever the store answers.
    It has then committed the blocks from the start of the range up to some block,
    in order and without gaps; either that is the whole range, or a transaction for
    the next blocks failed, and one that was refused for its size was for a single
    block. *)
Theorem discard_terminates xc fallocate pin ctx redoBudget pos stop h : pos < stop ->
  exists r h', discard_loop xc fallocate pin ctx (discard_fuel pos (next_end pos stop) stop) pos (next_end pos stop) stop redoBudget h = Some (r, h') /\
    exists mid h1, discards xc fallocate pin ctx redoBudget pos mid h h1 /\
      (r = Ok tt /\ mid = stop /\ h' = h1 \/
       exists e, r = Err e /\ mid < stop /\ stopped xc fallocate pin ctx redoBudget mid h1 e h').
Proof.
  intros Hp. pose proof (next_end_bounds pos stop Hp) as [? ?]. apply discard_loop_spec.
  - by right.
  - unfold discard_fuel. lia.
  - right. unfold discard_fuel, work, MaxDiscardPages in *. nia.
Qed.
Definition demo_handle : handle := mkHandle demo_store gcScan0 0 false None false false.
Lemma discard_terminates_witness : exists r h', discard_loop None (fun _ _ _ => Ok tt) (fun _ => Ok tt) (Ok tt)
  (discard_fuel 4 (next_end 4 8) 8) 4 (next_end 4 8) 8 maxLogPages demo_handle = Some (r, h').
Proof.
  destruct (discard_terminates None (fun _ _ _ => Ok tt) (fun _ => Ok tt) (Ok tt) maxLogPages 4 8 demo_handle) as (r & h' & H & _).
  - reflexivity.
  - exists r, h'. exact H.
Defined.
