(* ===== verification/View.v ===== *)
(** * View: exporting a version of a DIFF.

    Models pkg/diffstore/internal/versioned/view.go: opening a view of the current
    mapping or of a named version (under the metadata lock, with the images of a
    committed redo log laid over the file), the runs it reports and the bytes it
    reads.  A view reads the file the owner keeps changing; [f] is that file at the
    time of a call.  Its page cache is left out, as in Tx.v.  The locks are the
    parameter [pin]: whether the version's reader lock could be taken. *)
From stdpp Require Import base numbers list gmap strings sorting.
From Stdlib Require Import ZArith Lia.
From S2P Require Import Prelude Page Presence Json Format Tree Tx Demo TreeWrite Sha256 Commit Crash Publish Bitmap Checkpoint Gc Ops.

#[local] Opaque Sum256 sealPage checkPage Page.put.

Record View := mkView {
  v_size : Z;
  v_presence : list Z;
  v_root : Z;
  v_next : Z;
  v_overlay : gmap Z (list Z);
  v_closed : bool }.

Section View.
Context (xc : option xts_cipher).

(** [View.read]. *)
Definition overlay_read (overlay : gmap Z (list Z)) (f : file) (page : Z) : dres (list Z) :=
  match overlay !! page with Some b => Ok b | None => readFull f page end.
Definition view_reader (v : View) (f : file) : reader :=
  mkReader (v_next v) (v_size v / PageSize) (fun _ => None) (overlay_read (v_overlay v) f).

(** The search of [openView] for a version. *)
Fixpoint find_version (fuel : nat) (read : Z -> dres (list Z)) (next : Z) (id : list Z) (s : Z) : dres (Z * checkpoint) :=
  if s =? 0 then Err ErrNotExist
  else match fuel with
       | O => Err errChain
       | S fuel =>
           if next <=? s then Err errChain
           else
             let* b := read (slotPage s) in
             let* cp := decodeCheckpoint b in
             if bool_decide (cp_ID cp = id) then
               if cp_Visible cp && cp_Retained cp then Ok (s, cp) else Err ErrNotExist
             else find_version fuel read next id (cp_Next cp)
       end.
Definition openView (f : file) (size : Z) (pin : Z -> dres unit) (id : list Z) : dres View :=
  let* records := readRedo f size in
  let overlay := list_to_map (reverse records) in
  let read := overlay_read overlay f in
  let* b := read 1 in
  let* ctrl := decodeControl b in
  if Retired ctrl then Err ErrRetired
  else if bool_decide (id = []) then
    let* presence := loadPresence read size in
    Ok (mkView size presence (Root ctrl) (Next ctrl) overlay false)
  else
    let* _ := ValidID id in
    let* (s, cp) := find_version (Z.to_nat (Next ctrl)) read (Next ctrl) id (Head ctrl) in
    let* _ := pin s in
    let* presence := readSnapshotPresence read cp size (Next ctrl) in
    Ok (mkView size presence (cp_Root cp) (Next ctrl) overlay false).

(** The identity [probeCurrent] adds to a closed DIFF: the visible current checkpoint. *)
Definition probeCurrent (f : file) (size : Z) : dres (list Z) :=
  let* records := readRedo f size in
  let overlay := list_to_map (reverse records) in
  let read := overlay_read overlay f in
  let* b := read 1 in
  let* ctrl := decodeControl b in
  if Retired ctrl then Err ErrRetired
  else if Current ctrl =? 0 then Ok []
  else
    let* b := read (slotPage (Current ctrl)) in
    let* cp := decodeCheckpoint b in
    Ok (if cp_Visible cp then cp_ID cp else []).

(** ** Runs *)

Inductive RunKind := Hole | Zero | DataRun.
Record viewRun := mkRun { r_off : Z; r_end : Z; r_kind : RunKind }.
(** The first block after [block] whose mapping differs from the first one's. *)
Fixpoint mapped_end (first : bool) (i : Z) (mapped : list bool) : option Z :=
  match mapped with
  | [] => None
  | m :: mapped => if Bool.eqb m first then mapped_end first (i + 1) mapped else Some i
  end.
Definition RunAt (v : View) (f : file) (off limit : Z) : dres (option viewRun) :=
  if v_closed v then Err ErrClosed
  else if v_size v <=? off then Ok None
  else if limit =? 0 then Err (DiffErr "diffstore: zero run limit")
  else
    let end_ := if limit <? v_size v - off then off + limit else v_size v in
    let block := off / PageSize in
    let present := Has (v_presence v) block in
    let end_ := if present then Z.min end_ ((block + MaxPresencePages) * PageSize) else end_ in
    let end_ := Z.min end_ (End (v_presence v) block ((end_ + PageSize - 1) / PageSize) * PageSize) in
    if negb present then Ok (Some (mkRun off end_ Hole))
    else
      let pages := (end_ + PageSize - 1) / PageSize - block in
      let empty := replicate (Z.to_nat pages) false in
      let* mapped :=
        if v_root v =? 0 then Ok empty
        else payloadRange maxDepth (view_reader v f) (v_root v) block (block + pages) empty 0 (v_size v / PageSize - 1) false in
      let first := default false (mapped !! 0%nat) in
      let end_ := match mapped_end first 1 (drop 1 mapped) with
                  | Some i => Z.min end_ ((block + i) * PageSize) | None => end_ end in
      Ok (Some (mkRun off end_ (if first then DataRun else Zero))).

(** ** Reading *)

Fixpoint view_lookahead (fuel : nat) (v : View) (f : file) (first block pages inner want : Z) : dres Z :=
  match fuel with
  | O => Ok pages
  | S fuel =>
      if (pages <? 256) && (pages * PageSize - inner <? want) then
        if negb (Has (v_presence v) (block + pages)) then Ok pages
        else
          let* next := lookup (view_reader v f) (v_root v) (block + pages) in
          if (next =? 0) || negb (slotPage next =? slotPage first + pages) then Ok pages
          else view_lookahead fuel v f first block (pages + 1) inner want
      else Ok pages
  end.
Fixpoint view_loop (fuel : nat) (v : View) (f : file) (pos want : Z) : list Z * option diff_error :=
  match fuel with
  | O => ([], None)
  | S fuel =>
      if want <=? 0 then ([], None)
      else
        let block := pos / PageSize in
        let inner := pos mod PageSize in
        let n := Z.min want (PageSize - inner) in
        let zeros := let (b, e) := view_loop fuel v f (pos + n) (want - n) in (replicate (Z.to_nat n) 0 ++ b, e) in
        if negb (Has (v_presence v) block) then zeros
        else match lookup (view_reader v f) (v_root v) block with
             | Err e => ([], Some e)
             | Ok s =>
                 if s =? 0 then
                   match (if v_root v =? 0 then Ok []
                          else payloadRange maxDepth (view_reader v f) (v_root v) block (block + 1) [false] 0 (v_size v / PageSize - 1) false) with
                   | Err e => ([], Some e)
                   | Ok _ => zeros
                   end
                 else
                   match (let* pages := view_lookahead 256 v f s block 1 inner want in
                          let* bs := directRead f (Z.to_nat pages) (slotPage s) in
                          Ok (Transform xc (concat bs) (u64 (block * (PageSize / UnitSize))) false)) with
                   | Err e => ([], Some e)
                   | Ok b =>
                       let b := take (Z.to_nat want) (drop (Z.to_nat inner) b) in
                       let n := Z.of_nat (length b) in
                       let (b', e) := view_loop fuel v f (pos + n) (want - n) in (b ++ b', e)
                   end
             end
  end.
Definition View_ReadAt (v : View) (f : file) (len off : Z) : list Z * dres bool :=
  if v_closed v then ([], Err ErrClosed)
  else if v_size v <? off then ([], Ok true)
  else if len =? 0 then ([], Ok false)
  else if off =? v_size v then ([], Ok true)
  else
    let count := Z.min len (v_size v - off) in
    match view_loop (Z.to_nat count) v f off count with
    | (b, Some e) => (b, Err e)
    | (b, None) => (b, Ok (Z.of_nat (length b) <? len))
    end.
(** Reading [len] bytes at [off] inside a run. *)
Definition viewRun_ReadAt (v : View) (f : file) (r : viewRun) (len off : Z) : list Z * dres bool :=
  if (r_end r - r_off r <? off) || (r_end r - r_off r - off <? len) then ([], Err (DiffErr "diffstore: read outside export run"))
  else match r_kind r with
       | DataRun => View_ReadAt v f len (r_off r + off)
       | _ => (replicate (Z.to_nat len) 0, Ok false)
       end.
Definition View_Close (v : View) : View := mkView (v_size v) [] (v_root v) (v_next v) ∅ true.
End View.
