(* ===== verification/Batch.v ===== *)
(** * Batch: what a batch of block updates does to the transaction.

    The bodies of [WritePages], [Discard] and [DiscardPages] (tree.go and
    cache_mutations.go) run many tree updates in one transaction.  Here: the height
    of the tree over a batch of insertions, the payload slots, and the mapping, the
    bitmap and the queued payload at the end of the batch. *)
From stdpp Require Import base numbers list gmap strings sorting relations.
From Stdlib Require Import ZArith Lia.
From S2P Require Import Prelude Page Presence Json Format Tree Tx Demo TreeWrite Retire TreeRemove Sha256 Commit Crash Publish Bitmap Checkpoint GcDemo Gc Accounts Ops.

#[local] Opaque Sum256 sealPage checkPage Page.put.

(** ** The width of the root *)

(** The nodes [put_entries_at] makes: one while they fit, two afterwards. *)
Definition stored (es : list entry) (lf : bool) (cs : list entry) (t : transaction) : Prop :=
  (exists c, cs = [c] /\ (length es <= 255)%nat /\ t_nodes t !! slot c = Some (mkNode lf es)) \/
  (length cs = 2%nat /\ (255 < length es)%nat).
Lemma put_entries_stored t s lf es cs t' : put_entries_at t s lf es = Ok (cs, t') -> stored es lf cs t'.
Proof.
  unfold put_entries_at, maxEntries. destruct (_ <=? _) eqn:E; [apply Z.leb_le in E|apply Z.leb_gt in E].
  - intros [= <- <-]. left. eexists. split; [done|]. split; [lia|]. cbn. by rewrite lookup_insert_eq.
  - intros ([rt t1] & _ & [= <- _])%res_bind_Ok. right. split; [done|lia].
Qed.
Lemma leaf_put_le es i k v : (length (leaf_put es i k v) <= S (length es))%nat.
Proof.
  assert (forall e : entry, length (take i es ++ e :: drop i es) <= S (length es))%nat as H.
  { intros e. rewrite length_app, length_take. cbn. rewrite length_drop. lia. }
  unfold leaf_put. destruct (es !! i) as [e|]; [|apply H]. case_match; [rewrite length_insert; lia|apply H].
Qed.
(** [put] returns one or two nodes, and one whose root grew by at most one entry. *)
Lemma put_stored lv : forall t root k v cs t', put lv t root k v = Ok (cs, t') ->
  (root = 0 /\ exists c, cs = [c] /\ t_nodes t' !! slot c = Some (mkNode true [mkEntry k v])) \/
  exists n es, inspectNode (tx_reader t) root = Ok n /\ (length es <= S (length (entries n)))%nat /\ stored es (leaf n) cs t'.
Proof.
  induction lv as [|lv IH]; intros t root k v cs t' Hp; [done|]. cbn [put] in Hp.
  destruct (Z.eqb_spec root 0) as [->|H0].
  { left. split; [done|]. apply res_bind_Ok in Hp as ([s t1] & _ & [= <- <-]). eexists. split; [done|]. cbn. by rewrite lookup_insert_eq. }
  right. apply res_bind_Ok in Hp as (n & Hn & Hp). apply res_bind_Ok in Hp as ([s t1] & _ & Hp). unfold readNode in Hn.
  destruct (leaf n) eqn:El.
  - exists n. eexists. split; [done|]. split; [|rewrite El; by eapply put_entries_stored]. apply leaf_put_le.
  - set (i := if (_ =? _)%nat then _ else _) in Hp. destruct (entries n !! i) as [e|] eqn:Ei; [|done].
    apply res_bind_Ok in Hp as ([ch t2] & Hc & Hp). exists n. eexists. split; [done|]. split; [|rewrite El; by eapply put_entries_stored].
    apply lookup_lt_Some in Ei as Hlt. assert (length ch <= 2)%nat as H2.
    { destruct (IH _ _ _ _ _ _ Hc) as [(_ & c & -> & _)|(m & es & _ & _ & [(c & -> & _)|[-> _]])]; cbn; lia. }
    rewrite !length_app, length_take, length_drop. lia.
Qed.

(** ** The active tree over a batch *)

(** [active t n l fp]: the mapping [l] of [t], in a tree with room for [n] more
    insertions: it has a level to spare, or its root has [n] free entries. *)
Record active (t : transaction) (n : nat) (l : list entry) (fp : list Z) : Prop := {
  ac_tree : (Root (t_ctrl t) = 0 /\ l = [] /\ fp = []) \/
    exists h m, tree (nd t) h (Root (t_ctrl t)) l fp /\ nd t (Root (t_ctrl t)) = Some m /\
      ((S h < maxDepth)%nat \/ (h < maxDepth)%nat /\ (length (entries m) + n <= 255)%nat);
  ac_sorted : sorted l;
  ac_nodup : NoDup fp;
  ac_live : live t fp }.
Lemma active_mapping t n l fp : active t n l fp -> mapping t maxDepth (Root (t_ctrl t)) l fp.
Proof. intros [[?|(h & m & Ht & _ & Hh)] ? ? ?]; split; auto. right. exists h. split; [lia|done]. Qed.
Lemma mapping_active t n l fp : mapping t (pred maxDepth) (Root (t_ctrl t)) l fp -> active t n l fp.
Proof.
  intros [[?|(h & Hh & Ht)] ? ? ?]; split; auto. right. pose proof Ht as (_ & es & f & Hn & _)%tree_body.
  eexists h, _. split; [done|]. split; [done|]. left. unfold maxDepth in *. cbn in Hh. lia.
Qed.
Lemma active_le t n m l fp : active t n l fp -> (m <= n)%nat -> active t m l fp.
Proof.
  intros [[?|(h & k & Ht & Hk & Hh)] ? ? ?] Hm; split; auto. right. exists h, k. split; [done|]. split; [done|].
  destruct Hh as [?|[? ?]]; [by left|right; split; [done|lia]].
Qed.
Lemma nd_own t s m : t_nodes t !! s = Some m -> nd t s = Some m.
Proof. intros H. unfold nd, nd_of, inspectNode. cbn [tx_reader rd_nodes]. by rewrite H. Qed.

Definition set_cost : Z := 2 * Z.of_nat maxDepth + 1.
Lemma set_active t n l fp k v : tx_wf t -> active t (S n) l fp -> (n <= 253)%nat ->
  Next (t_ctrl t) + set_cost <= maxSlot + 1 -> entry_in t (mkEntry k v) ->
  exists t' fp', set t k v = Ok t' /\ tree_fx t fp t' /\ active t' n (insert_entry k v l) fp' /\
    (forall x, x ∈ fp' -> x ∈ fp \/ unused t x) /\ Next (t_ctrl t') <= Next (t_ctrl t) + set_cost.
Proof.
  intros Hwf [Hac Hso Hnd Hl] Hn Hroom Hkv. unfold set_cost in Hroom. change (Z.of_nat maxDepth) with 8 in *.
  pose proof (insert_entry_sorted k v _ Hso) as Hso'.
  destruct Hac as [(H0 & -> & ->)|(h & m & Ht & Hm & Hh)].
  - destruct (set_spec t 0 [] [] k v Hwf) as (t' & fp' & Hs & Hfx & Hm' & Hsub & Hnx); [by split; [left|..]|unfold maxDepth; lia|lia|done|].
    exists t', fp'. split; [done|]. split; [done|]. split; [|split; [done|unfold set_cost; change (Z.of_nat maxDepth) with 8; lia]].
    apply mapping_active. destruct Hm' as [[?|(h & Hh & Ht)] ? ? ?]; split; auto. right. exists h. split; [cbn; lia|done].
  - assert (h < maxDepth)%nat as Hhm by lia.
    destruct (put_spec h maxDepth t (Root (t_ctrl t)) l fp k v) as (cs & t1 & Hput & Hg & Hcs & Hnx); auto; [unfold maxDepth in *; lia|].
    destruct (set_finish _ _ _ _ _ _ Hg Hso' Hcs) as (t' & fp' & Hok & Hfx & Ht' & Hnd' & Hl' & Hsub & Hnx' & Hroot).
    { unfold maxDepth in *. lia. }
    exists t', fp'. split; [unfold set; rewrite Hput; exact Hok|]. split; [done|].
    split; [|split; [done|unfold set_cost, maxDepth in *; lia]]. split; auto. right. exists (pred (h + length cs)).
    assert (Root (t_ctrl t) <> 0) as Hr by (pose proof Ht as (? & _)%tree_body; lia).
    destruct (put_stored _ _ _ _ _ _ _ Hput) as [[? _]|(m' & es & Hm' & Hle & Hst)]; [lia|].
    assert (m' = m) as -> by (apply nd_of_Some in Hm; unfold nd in Hm; congruence).
    destruct Hst as [(c & -> & Hes & Hc)|[Hc Hes]].
    + exists (mkNode (leaf m) es). split; [done|]. rewrite Hroot, (nd_own _ _ _ Hc). split; [done|]. cbn [entries length] in *.
      rewrite Nat.add_1_r. cbn [pred]. destruct Hh as [?|[? ?]]; [by left|right; split; [done|lia]].
    + exists (mkNode false cs). rewrite Hroot. destruct cs as [|c [|c2 [|]]]; try done. split; [done|]. split; [done|]. cbn [entries length].
      replace (pred (h + 2)) with (S h) by lia. right. destruct Hh as [Hh|[_ Hh]]; [split; [done|lia]|lia].
Qed.

(** ** Entries *)

Lemma assoc_found k l : assoc k l <> 0 -> mkEntry k (assoc k l) ∈ l.
Proof.
  induction l as [|[k' s] l IH]; [done|]. cbn [assoc key slot]. destruct (Z.eqb_spec k' k) as [->|Hne]; [by left|].
  intros H. right. by apply IH.
Qed.
Lemma assoc_elem e l : sorted l -> e ∈ l -> assoc (key e) l = slot e.
Proof.
  induction l as [|x l IH]; intros Hs Hin; [by apply elem_of_nil in Hin|]. cbn [assoc].
  apply elem_of_cons in Hin as [->|Hin]; [by rewrite Z.eqb_refl|]. inversion Hs as [|? ? Hs' Hf]; subst.
  rewrite Forall_forall in Hf. pose proof (Hf e Hin) as Hlt. cbn in Hlt. rewrite (proj2 (Z.eqb_neq _ _)) by lia. by apply IH.
Qed.
Lemma insert_entry_elem k v l e : e ∈ insert_entry k v l <-> e = mkEntry k v \/ e ∈ l /\ key e <> k.
Proof.
  unfold insert_entry. rewrite elem_of_app, elem_of_cons, !list_elem_of_filter. split; [intuition lia|].
  intros [->|[Hin Hk]]; [by right; left|]. destruct (decide (key e < k)); [by left|]. right. right. split; [lia|done].
Qed.
(** Distinct slots name distinct blocks. *)
Lemma slots_inj (l : list entry) a b : NoDup (slot <$> l) -> a ∈ l -> b ∈ l -> slot a = slot b -> a = b.
Proof.
  intros Hnd [i Hi]%list_elem_of_lookup_1 [j Hj]%list_elem_of_lookup_1 E.
  assert (i = j) as ->; [|congruence].
  eapply NoDup_lookup; [exact Hnd| |]; rewrite list_lookup_fmap, ?Hi, ?Hj; cbn; [done|by rewrite E].
Qed.
Lemma filter_slots (P : entry -> Prop) `{forall x, Decision (P x)} l : NoDup (slot <$> l) -> NoDup (slot <$> filter P l).
Proof.
  intros Hnd. eapply sublist_NoDup; [exact Hnd|]. clear Hnd. induction l as [|e l IH]; [done|]. rewrite filter_cons.
  case_decide; cbn; by constructor.
Qed.
Lemma insert_entry_slots k v l : NoDup (slot <$> l) -> (forall e, e ∈ l -> key e <> k -> slot e <> v) ->
  NoDup (slot <$> insert_entry k v l).
Proof.
  intros Hnd Hv. unfold insert_entry. rewrite fmap_app, fmap_cons. apply NoDup_app. split_and!.
  - by apply filter_slots.
  - intros x (a & -> & [Ha Hal]%list_elem_of_filter)%list_elem_of_fmap [E|(b & E & [Hb Hbl]%list_elem_of_filter)%list_elem_of_fmap]%elem_of_cons.
    + cbn in E. destruct (Hv a Hal); [lia|done].
    + pose proof (slots_inj l a b Hnd Hal Hbl E). subst. lia.
  - apply NoDup_cons. split; [|by apply filter_slots]. cbn.
    intros (b & E & [Hb Hbl]%list_elem_of_filter)%list_elem_of_fmap. destruct (Hv b Hbl); [lia|done].
Qed.
(** A batch of insertions. *)
Definition insert_all (ms l : list entry) : list entry := fold_left (fun l e => insert_entry (key e) (slot e) l) ms l.
Lemma insert_all_sorted ms l : sorted l -> sorted (insert_all ms l).
Proof. revert l. induction ms as [|e ms IH]; intros l Hs; [done|]. cbn. by apply IH, insert_entry_sorted. Qed.

(** ** Frames *)

Lemma update_entry t F t' e : update_fx t F t' -> entry_in t e -> entry_in t' e.
Proof.
  intros Hu (? & ? & ?). unfold entry_in, total in *. rewrite (up_store _ _ _ Hu).
  pose proof (up_next _ _ _ Hu). split_and!; auto; lia.
Qed.
Lemma update_live t F t' fp : update_fx t F t' -> live t fp -> (forall x, x ∈ fp -> x ∉ F) -> live t' fp.
Proof.
  intros Hu Hl Hd x Hx. destruct (Hl x Hx) as (d & Hdx & Hk).
  destruct (up_live _ _ _ Hu x d Hdx) as (d' & Hd' & _ & Hc); [by rewrite Hk|].
  exists d'. split; [done|]. destruct Hc as [->|[Hin _]]; [done|]. by destruct (Hd x Hx).
Qed.
Lemma update_nd t F t' fp x n : update_fx t F t' -> live t fp -> (forall x, x ∈ fp -> x ∉ F) -> x ∈ fp -> nd t x = Some n -> nd t' x = Some n.
Proof.
  intros Hu Hl Hd Hx. destruct (Hl x Hx) as (d & Hdx & Hk).
  apply (up_nd _ _ _ Hu x d); [done|by rewrite Hk|by rewrite Hk|]. left. by apply Hd.
Qed.
Lemma update_mapping t F t' lv root l fp : update_fx t F t' -> mapping t lv root l fp -> (forall x, x ∈ fp -> x ∉ F) -> mapping t' lv root l fp.
Proof.
  intros Hu [Ht Hs Hn Hl] Hd. split; [|done|done|by eapply update_live]. destruct Ht as [?|(h & Hh & Ht)]; [by left|].
  right. exists h. split; [done|]. eapply tree_ext; [|exact Ht]. intros x n Hx. by eapply update_nd.
Qed.
Lemma update_active t F t' n l fp : update_fx t F t' -> Root (t_ctrl t') = Root (t_ctrl t) -> active t n l fp -> (forall x, x ∈ fp -> x ∉ F) -> active t' n l fp.
Proof.
  intros Hu Hr [Ht Hs Hn Hl] Hd. split; [|done|done|by eapply update_live]. rewrite Hr. destruct Ht as [?|(h & m & Ht & Hm & Hh)]; [by left|].
  right. exists h, m. split; [eapply tree_ext; [|exact Ht]; intros x k Hx; by eapply update_nd|]. split; [|done].
  eapply (update_nd t F t' fp); eauto. pose proof Ht as (_ & es & f & _ & _ & _ & ->)%tree_body. by left.
Qed.
Lemma update_payload t F t' slots : update_fx t F t' -> (forall x, x ∈ slots -> x ∉ F) -> payload_slots t slots -> payload_slots t' slots.
Proof.
  intros Hfx Hdis [Hnd Hs]. split; [done|]. intros s Hin. destruct (Hs s Hin) as (d & Hd & Hk).
  destruct (up_live _ _ _ Hfx s d Hd) as (d' & Hd' & _ & Hc); [by rewrite Hk|]. exists d'. split; [done|].
  destruct Hc as [->|[Hx _]]; [done|]. by destruct (Hdis s Hin).
Qed.
Lemma pres_low t t' B : store t' = store t -> low_same t t' -> pres t B -> pres t' B.
Proof.
  intros Hst Hl [Hs Hok Hps Hpg]. split; rewrite ?Hst; [done..|]. intros i Hi. rewrite Hl; [by apply Hpg|].
  pose proof (size_pages _ Hs). unfold presenceAreaPage, slotAreaPage. lia.
Qed.

(** ** Writing blocks *)

Lemma add_data_quiet d t : tx_wf t -> quiet_fx t (add_data d t).
Proof. intros Hwf. split; try done; [|by left]. by destruct Hwf. Qed.

(** [writing t n l fp lc B done]: [t] in the middle of a batch.  The tree still holds
    [l] while the batch means [lc]; the payload of the blocks [done] is queued, in
    that order, for the slots [lc] maps them to; [B] is the bitmap. *)
Record writing (t : transaction) (n : nat) (l : list entry) (fp : list Z) (lc : list entry) (B : list Z) (done : list Z) : Prop := {
  wt_wf : tx_wf t;
  wt_active : active t n l fp;
  wt_sorted : sorted lc;
  wt_payload : payload_slots t (slot <$> lc);
  wt_pres : pres t B;
  wt_same : forall k, k ∉ done -> assoc k lc = assoc k l;
  wt_done : dw_block <$> t_data t = done;
  wt_data : data_ok t;
  wt_slots : forall d, d ∈ t_data t -> dw_slot d = assoc (dw_block d) lc }.

Lemma payload_not_live t n l fp slots : active t n l fp -> payload_slots t slots -> forall x, x ∈ fp -> x ∉ slots.
Proof. intros Ha Hp x Hx Hs. by eapply (live_not_payload t fp slots (ac_live _ _ _ _ Ha) Hp x). Qed.
(** A step that keeps the mapped slots. *)
Lemma writing_step t t' n l fp lc B B' done : update_fx t [] t' -> Root (t_ctrl t') = Root (t_ctrl t) -> t_data t' = t_data t -> pres t' B' ->
  writing t n l fp lc B done -> writing t' n l fp lc B' done.
Proof.
  intros Hu Hr Hda Hp [Hwf Ha Hs Hps _ Hsm Hdn Hd Hsl]. assert (forall l : list Z, forall x, x ∈ l -> x ∉ []) as Hno by (intros; apply not_elem_of_nil).
  split; rewrite ?Hda; auto; [apply Hu|eapply update_active; [done..|apply Hno]|eapply update_payload; [done|apply Hno|done]|].
  intros d. rewrite Hda, (up_pe _ _ _ Hu). intros Hin. destruct (Hd d Hin) as (Hpg & de & Hde & Hk & Hb). split; [done|].
  destruct (up_live _ _ _ Hu _ _ Hde) as (d' & Hd' & _ & [->|[Hx _]]); [by rewrite Hk|eauto|by apply elem_of_nil in Hx].
Qed.
(** Queueing the payload of a block for the slot it is mapped to. *)
Lemma writing_data t n l fp lc B done block data d : writing t n l fp lc B done -> block ∉ done -> is_page data ->
  dsc t (assoc block lc) = Some d -> Kind d = kindData -> pe t < Birth d ->
  writing (add_data (mkDataWrite (assoc block lc) block data) t) n l fp lc B (done ++ [block]).
Proof.
  intros [Hwf Ha Hs Hps Hp Hsm Hdn Hd Hsl] Hb Hpg Hds Hk Hbt. set (w := mkDataWrite _ _ _).
  pose proof (update_quiet _ _ Hwf (add_data_quiet w t Hwf)) as Hu.
  assert (forall l : list Z, forall x, x ∈ l -> x ∉ []) as Hno by (intros; apply not_elem_of_nil).
  split; auto; [apply Hu|eapply update_active; [done..|apply Hno]|by destruct Hp| | | |].
  - intros k Hn. apply Hsm. set_solver.
  - cbn. by rewrite fmap_app, Hdn.
  - intros e [He| ->%list_elem_of_singleton]%elem_of_app; [by apply Hd|]. split; [done|]. by exists d.
  - intros e [He| ->%list_elem_of_singleton]%elem_of_app; [by apply Hsl|done].
Qed.
(** Retiring the slot a block leaves, if it had one. *)
Lemma leave_slot t s : tx_wf t -> s = 0 \/ (exists d, dsc t s = Some d /\ Kind d = kindData) ->
  exists t', (if s =? 0 then Ok t else retire t s) = Ok t' /\ tree_fx t (if s =? 0 then [] else [s]) t' /\
    Root (t_ctrl t') = Root (t_ctrl t) /\ Next (t_ctrl t') = Next (t_ctrl t).
Proof.
  intros Hwf [->|(d & Hd & Hk)]; [exists t; by split_and!; auto using fx_refl|].
  apply dsc_bound in Hd as Hb. rewrite (proj2 (Z.eqb_neq s 0)) by lia.
  destruct (retire_spec t s d Hwf Hd) as (t' & Hr & Hrt); [by right|]. exists t'. split; [done|].
  split; [by apply fx_retire|]. split; apply Hrt.
Qed.
Lemma assoc_payload t lc block : payload_slots t (slot <$> lc) ->
  assoc block lc = 0 \/ exists d, dsc t (assoc block lc) = Some d /\ Kind d = kindData.
Proof.
  intros [_ Hp]. destruct (decide (assoc block lc = 0)) as [|Hne]; [by left|right]. apply Hp.
  apply list_elem_of_fmap. exists (mkEntry block (assoc block lc)). split; [done|by apply assoc_found].
Qed.
(** Other blocks are mapped to other slots. *)
Lemma assoc_other t lc block e : payload_slots t (slot <$> lc) -> e ∈ lc -> key e <> block -> slot e <> assoc block lc.
Proof.
  intros [Hnd Hp] He Hk Es. destruct (decide (assoc block lc = 0)) as [E0|Hne].
  - destruct (Hp (slot e)) as (d & Hd & _); [by apply list_elem_of_fmap_2|]. apply dsc_bound in Hd. lia.
  - apply assoc_found in Hne. pose proof (slots_inj lc e _ Hnd He Hne Es) as ->. done.
Qed.
(** Moving a block to a new slot. *)
Lemma write_new t n l fp lc B done block data : writing t n l fp lc B done -> block ∉ done -> 0 <= block < total t -> is_u64 block ->
  is_page data -> Next (t_ctrl t) <= maxSlot ->
  exists new t2 t', allocate t kindData = Ok (new, t2) /\
    (let T := add_data (mkDataWrite new block data) t2 in if assoc block lc =? 0 then Ok T else retire T (assoc block lc)) = Ok t' /\
    update_fx t (slot <$> lc) t' /\ Root (t_ctrl t') = Root (t_ctrl t) /\ Next (t_ctrl t') <= Next (t_ctrl t) + 1 /\
    writing t' n l fp (insert_entry block new lc) B (done ++ [block]) /\ entry_in t' (mkEntry block new) /\ unused t new /\
    t_data t' = t_data t ++ [mkDataWrite new block data].
Proof.
  intros Hw Hb Hrng Hu64 Hpg Hroom. pose proof Hw as [Hwf Ha Hs Hps Hp Hsm Hdn Hd Hsl]. set (s := assoc block lc).
  destruct (allocate_spec t kindData Hwf Hroom) as (new & t2 & Hal & Hafx); [done|]. pose proof (fx_allocate _ _ _ _ Hwf Hafx) as Hfx2.
  set (w := mkDataWrite new block data). set (T := add_data w t2).
  pose proof (update_quiet _ _ (fx_wf _ _ _ Hfx2) (add_data_quiet w t2 (fx_wf _ _ _ Hfx2))) as HuT. fold T in HuT.
  assert (update_fx t [] T) as Hu1 by (eapply update_trans; [by apply update_tree|exact HuT|intros ? []%elem_of_nil]).
  assert (forall l : list Z, forall x, x ∈ l -> x ∉ []) as Hno by (intros; apply not_elem_of_nil).
  pose proof (update_payload _ _ _ _ Hu1 (Hno _) Hps) as HpsT.
  destruct (leave_slot T s (up_wf _ _ _ Hu1) (assoc_payload _ _ _ HpsT)) as (t' & Hr & Hfx3 & Hroot & Hnx).
  set (F := if s =? 0 then [] else [s]) in *.
  assert (forall x, x ∈ F -> x = s /\ s <> 0) as HF.
  { unfold F. intros x. destruct (Z.eqb_spec s 0); [by intros ?%elem_of_nil|]. by intros ->%list_elem_of_singleton. }
  assert (update_fx t F t') as Hu by (eapply update_trans; [eapply update_weaken; [exact Hu1|set_solver]|by apply update_tree|auto]).
  assert (s <> 0 -> s ∈ slot <$> lc) as Hsin.
  { intros Hne. apply list_elem_of_fmap. exists (mkEntry block s). split; [done|by apply assoc_found]. }
  assert (forall x, x ∈ slot <$> lc -> ~ unused t x) as Hlive.
  { intros x Hx Hun. destruct (proj2 Hps x Hx) as (d & Hdx & Hk). apply (unused_live _ _ _ Hun) in Hdx. by rewrite Hk in Hdx. }
  pose proof (al_unused _ _ _ _ Hafx) as Hun. assert (new <> s) as Hns by (intros E; destruct (decide (s = 0)); [pose proof (al_pos _ _ _ _ Hafx); lia|apply (Hlive s); [by apply Hsin|by rewrite <- E]]).
  assert (exists d, dsc t' new = Some d /\ Kind d = kindData /\ pe t' < Birth d) as (dn & Hdn' & Hkn & Hbn).
  { destruct (fx_live _ _ _ Hfx3 new _ (al_dsc _ _ _ _ Hafx)) as (d' & Hd' & _ & [->|[[? _]%HF _]]); [done| |done].
    eexists. split; [done|]. split; [done|]. cbn [Birth]. rewrite (up_pe _ _ _ Hu). pose proof (w_epoch _ Hwf). lia. }
  assert (t_data t' = t_data t ++ [w]) as Hdata by (rewrite (fx_data _ _ _ Hfx3); cbn; by rewrite (al_data _ _ _ _ Hafx)).
  assert (forall e, e ∈ lc -> key e <> block -> exists d, dsc t (slot e) = Some d /\ dsc t' (slot e) = Some d /\ Kind d = kindData) as Hkeep.
  { intros e He Hk. destruct (proj2 Hps (slot e)) as (d & Hde & Hkd); [by apply list_elem_of_fmap_2|]. exists d. split; [done|].
    destruct (up_live _ _ _ Hu _ _ Hde) as (d' & Hd' & _ & [->|[[E _]%HF _]]); [by rewrite Hkd|done|]. by destruct (assoc_other t lc block e Hps He Hk). }
  exists new, t2, t'. split; [done|]. split; [exact Hr|]. split_and!.
  - eapply update_weaken; [exact Hu|]. intros x [-> ?]%HF. by apply Hsin.
  - rewrite Hroot. cbn. apply (al_ctrl _ _ _ _ Hafx).
  - rewrite Hnx. cbn. apply (al_next _ _ _ _ Hafx).
  - split.
    + apply Hu.
    + eapply update_active; [exact Hu|rewrite Hroot; cbn; apply (al_ctrl _ _ _ _ Hafx)|done|].
      intros x Hx [-> ?]%HF. eapply (payload_not_live t n l fp); [done|exact Hps|exact Hx|by apply Hsin].
    + by apply insert_entry_sorted.
    + split.
      * apply insert_entry_slots; [apply Hps|]. intros e He _ E. apply (Hlive new); [|done]. rewrite <- E. by apply list_elem_of_fmap_2.
      * intros x (e & -> & [->|[He Hk]]%insert_entry_elem)%list_elem_of_fmap; [by exists dn|]. destruct (Hkeep e He Hk) as (d & _ & ? & ?). eauto.
    + eapply (pres_low T); [apply Hfx3|apply Hfx3|]. apply (pres_low t); [cbn; apply Hafx|exact (al_low _ _ _ _ Hafx)|done].
    + intros k Hk. rewrite assoc_insert, (proj2 (Z.eqb_neq k block)) by set_solver. apply Hsm. set_solver.
    + by rewrite Hdata, fmap_app, Hdn.
    + intros d. rewrite Hdata. intros [Hin| ->%list_elem_of_singleton]%elem_of_app; [|split; [done|by exists dn]].
      destruct (Hd d Hin) as (Hpd & de & Hde & Hkd & Hbd). split; [done|].
      assert (dw_block d ≠ block) as Hne by (intros <-; apply Hb; rewrite <- Hdn; by apply list_elem_of_fmap_2).
      assert (mkEntry (dw_block d) (dw_slot d) ∈ lc) as Hel.
      { rewrite (Hsl d Hin). apply assoc_found. rewrite <- (Hsl d Hin). apply dsc_bound in Hde. lia. }
      destruct (Hkeep _ Hel Hne) as (d2 & Hd2 & Hd3 & ?). cbn in *. exists d2. rewrite (up_pe _ _ _ Hu). simplify_eq. done.
    + intros d. rewrite Hdata. intros [Hin| ->%list_elem_of_singleton]%elem_of_app; rewrite assoc_insert; [|cbn; by rewrite Z.eqb_refl].
      rewrite (proj2 (Z.eqb_neq (dw_block d) block)); [by apply Hsl|]. intros <-. apply Hb. rewrite <- Hdn. by apply list_elem_of_fmap_2.
  - apply dsc_bound in Hdn'. unfold entry_in, total in *. cbn [key slot]. rewrite (up_store _ _ _ Hu). split_and!; done || lia.
  - done.
  - done.
Qed.
(** One block of the batch. *)
Lemma write_block_spec t n l fp lc B done block data : writing t n l fp lc B done -> block ∉ done -> 0 <= block < total t -> is_u64 block ->
  is_page data -> Next (t_ctrl t) <= maxSlot ->
  exists m t', write_block t block data = Ok (m, t') /\
    let lc' := insert_all (option_list m) lc in
    update_fx t (slot <$> lc) t' /\ Root (t_ctrl t') = Root (t_ctrl t) /\ Next (t_ctrl t') <= Next (t_ctrl t) + 1 /\
    writing t' n l fp lc' (BitSet B block) (done ++ [block]) /\ Forall (entry_in t') (option_list m) /\
    (forall x, x ∈ slot <$> lc' -> x ∈ slot <$> lc \/ unused t x) /\
    (forall k, k <> block -> assoc k lc' = assoc k lc) /\
    t_data t' = t_data t ++ [mkDataWrite (assoc block lc') block data].
Proof.
  intros Hw Hb Hrng Hu64 Hpg Hroom. pose proof Hw as [Hwf Ha Hs Hps Hp Hsm Hdn Hd Hsl]. unfold write_block.
  destruct (setPresence_spec t B block Hwf Hp Hrng) as (t1 & -> & Hv & Hp1). cbn [res_bind].
  pose proof (update_quiet _ _ Hwf (view_quiet _ _ Hv)) as Hu1.
  assert (writing t1 n l fp lc (BitSet B block) done) as Hw1 by (eapply writing_step; [exact Hu1|by rewrite (sv_ctrl _ _ Hv)|apply Hv|done|exact Hw]).
  rewrite (mapping_lookup t1 maxDepth _ l fp block), <- Hsm by (done || by eapply active_mapping, wt_active). cbn [res_bind].
  set (s := assoc block lc).
  assert (exists own t2, (if s =? 0 then Ok (false, t1) else private_ t1 s) = Ok (own, t2) /\
    update_fx t [] t2 /\ Root (t_ctrl t2) = Root (t_ctrl t) /\ Next (t_ctrl t2) = Next (t_ctrl t) /\ total t2 = total t /\ t_data t2 = t_data t /\
    writing t2 n l fp lc (BitSet B block) done /\
    (own = true -> exists d, dsc t2 s = Some d /\ Kind d = kindData /\ pe t2 < Birth d)) as (own & t2 & -> & Hu & Hroot & Hnx & Htot & Hda & Hw2 & Hown).
  { destruct (Z.eqb_spec s 0) as [E0|Hne].
    - exists false, t1. unfold total. rewrite (sv_ctrl _ _ Hv), (sv_store _ _ Hv), (sv_data _ _ Hv). by split_and!.
    - destruct (assoc_payload _ _ block (wt_payload _ _ _ _ _ _ _ Hw1)) as [?|(d & Hds & Hk)]; [done|]. fold s in Hds.
      destruct (private_spec t1 s d (sv_wf _ _ Hv) Hds) as (t2 & -> & Hfx & Hd2 & _ & Hct). exists (pe t1 <? Birth d), t2. split; [done|].
      unfold total. rewrite Hct, (sv_ctrl _ _ Hv), (fx_store _ _ _ Hfx), (sv_store _ _ Hv), (fx_data _ _ _ Hfx), (sv_data _ _ Hv).
      split; [eapply update_trans; [exact Hu1|by apply update_tree|intros ? []%elem_of_nil]|]. split_and!; try done.
      + eapply writing_step; [by apply update_tree|by rewrite Hct|apply Hfx| |exact Hw1]. eapply pres_low; [apply Hfx|apply Hfx|done].
      + intros Hlt%Z.ltb_lt. exists d. by rewrite Hd2, (fx_pe _ _ _ Hfx). }
  cbn [res_bind]. rewrite <- Hnx in Hroom. rewrite <- Htot in Hrng. destruct own.
  - destruct (Hown eq_refl) as (d & Hds & Hk & Hbt). exists None. eexists. split; [done|]. cbn zeta. change (insert_all (option_list None) lc) with lc.
    split; [|split; [done|split; [cbn; lia|split; [by eapply writing_data|split; [by constructor|split; [auto|split; [done|cbn; by rewrite Hda]]]]]]].
    eapply update_weaken; [eapply update_trans; [exact Hu|apply update_quiet; [apply Hu|apply add_data_quiet, Hu]|intros ? []%elem_of_nil]|].
    intros ? []%elem_of_nil.
  - destruct (write_new t2 n l fp lc (BitSet B block) done block data Hw2 Hb Hrng Hu64 Hpg Hroom)
      as (new & t3 & t' & -> & Hr & Hu3 & Hroot3 & Hnx3 & Hw3 & Hin & Hun & Hdata). cbn [res_bind]. cbn zeta in Hr. fold s in Hr. rewrite Hr. cbn [res_bind].
    exists (Some (mkEntry block new)), t'. split; [done|]. cbn zeta.
    change (insert_all (option_list (Some (mkEntry block new))) lc) with (insert_entry block new lc). split_and!.
    + eapply update_trans; [eapply update_weaken; [exact Hu|intros ? []%elem_of_nil]|exact Hu3|auto].
    + congruence.
    + lia.
    + done.
    + by apply Forall_singleton.
    + intros x (e & -> & [->|[He _]]%insert_entry_elem)%list_elem_of_fmap; [right; by eapply update_unused|left; by apply list_elem_of_fmap_2].
    + intros k Hk. by rewrite assoc_insert, (proj2 (Z.eqb_neq _ _)).
    + rewrite assoc_insert, Z.eqb_refl. by rewrite Hdata, Hda.
Qed.
Lemma insert_all_app ms1 ms2 l : insert_all (ms1 ++ ms2) l = insert_all ms2 (insert_all ms1 l).
Proof. apply fold_left_app. Qed.
(** All the blocks of the batch, each once. *)
Lemma write_blocks_spec data order : forall t n l fp lc B done, writing t n l fp lc B done -> NoDup order ->
  (forall b, b ∈ order -> b ∉ done /\ 0 <= b < total t /\ is_u64 b /\ is_page (data b)) ->
  Next (t_ctrl t) + Z.of_nat (length order) <= maxSlot + 1 ->
  exists ms t', write_blocks data order t = Ok (ms, t') /\
    let lc' := insert_all ms lc in
    update_fx t (slot <$> lc) t' /\ Root (t_ctrl t') = Root (t_ctrl t) /\ Next (t_ctrl t') <= Next (t_ctrl t) + Z.of_nat (length order) /\
    writing t' n l fp lc' (set_blocks order B) (done ++ order) /\ Forall (entry_in t') ms /\ (length ms <= length order)%nat /\
    (forall x, x ∈ slot <$> lc' -> x ∈ slot <$> lc \/ unused t x) /\
    (forall k, k ∉ order -> assoc k lc' = assoc k lc) /\
    t_data t' = t_data t ++ ((fun b => mkDataWrite (assoc b lc') b (data b)) <$> order).
Proof.
  induction order as [|b order IH]; intros t n l fp lc B done Hw Hnd Hok Hroom; cbn [write_blocks].
  { exists [], t. split; [done|]. cbn zeta. cbn [insert_all fold_left set_blocks fmap list_fmap length]. rewrite !app_nil_r. split_and!; auto; try lia.
    eapply update_weaken; [apply update_refl, Hw|intros ? []%elem_of_nil]. }
  apply NoDup_cons in Hnd as [Hb Hnd]. destruct (Hok b ltac:(by left)) as (Hbd & Hrng & Hu64 & Hpg). cbn [length] in Hroom.
  destruct (write_block_spec t n l fp lc B done b (data b) Hw Hbd Hrng Hu64 Hpg ltac:(lia))
    as (m & t1 & -> & Hu1 & Hr1 & Hn1 & Hw1 & Hin1 & Hs1 & Hk1 & Hd1). cbn [res_bind]. set (lc1 := insert_all (option_list m) lc) in *.
  destruct (IH t1 n l fp lc1 (BitSet B b) (done ++ [b]) Hw1 Hnd) as (ms & t' & -> & Hu2 & Hr2 & Hn2 & Hw2 & Hin2 & Hlen & Hs2 & Hk2 & Hd2).
  { intros c Hc. destruct (Hok c ltac:(by right)) as (? & ? & ? & ?). unfold total in *. rewrite (up_store _ _ _ Hu1). split; [|done].
    intros [?| ->%list_elem_of_singleton]%elem_of_app; done. }
  { lia. }
  cbn [res_bind]. exists (option_list m ++ ms), t'. split; [by destruct m|]. cbn zeta. rewrite insert_all_app. fold lc1. set (lc2 := insert_all ms lc1) in *.
  split_and!.
  - eapply update_trans; [exact Hu1|exact Hu2|exact Hs1].
  - congruence.
  - cbn [length]. lia.
  - rewrite <- app_assoc in Hw2. exact Hw2.
  - apply Forall_app. split; [|done]. eapply Forall_impl; [exact Hin1|]. intros e. by apply update_entry with (1 := Hu2).
  - rewrite length_app. destruct m; cbn; lia.
  - intros x Hx. destruct (Hs2 x Hx) as [?|Hun]; [by apply Hs1|]. right. by eapply update_unused.
  - intros k Hk. rewrite Hk2, Hk1; [done|set_solver..].
  - rewrite Hd2, Hd1, <- app_assoc. cbn [fmap list_fmap app]. do 3 f_equal. by rewrite <- Hk2.
Qed.
(** Mapping the blocks that moved. *)
Lemma set_all_spec ms : forall t n l fp, tx_wf t -> active t (length ms + n) l fp -> (length ms + n <= 254)%nat -> payload_slots t (slot <$> insert_all ms l) ->
  Next (t_ctrl t) + set_cost * Z.of_nat (length ms) <= maxSlot + 1 -> Forall (entry_in t) ms ->
  exists t' fp', set_all ms t = Ok t' /\ tree_fx t fp t' /\ active t' n (insert_all ms l) fp' /\ payload_slots t' (slot <$> insert_all ms l) /\
    (forall x, x ∈ fp' -> x ∈ fp \/ unused t x) /\ Next (t_ctrl t') <= Next (t_ctrl t) + set_cost * Z.of_nat (length ms).
Proof.
  induction ms as [|e ms IH]; intros t n l fp Hwf Ha Hlen Hps Hroom Hin; cbn [set_all].
  { exists t, fp. cbn [length] in *. split; [done|]. split_and!; auto using fx_refl. lia. }
  apply Forall_cons in Hin as [He Hin]. cbn [length insert_all fold_left] in *. set (l1 := insert_entry (key e) (slot e) l) in *.
  destruct (set_active t (length ms + n) l fp (key e) (slot e) Hwf Ha) as (t1 & fp1 & -> & Hfx1 & Ha1 & Hs1 & Hn1); [lia|unfold set_cost in *; lia|by destruct e|].
  cbn [res_bind]. pose proof (fx_payload _ _ _ _ Hfx1 (live_not_payload _ _ _ (ac_live _ _ _ _ Ha) Hps) Hps) as Hps1.
  destruct (IH t1 n l1 fp1) as (t' & fp' & -> & Hfx2 & Ha2 & Hps2 & Hs2 & Hn2); auto; [apply Hfx1|lia|lia| |].
  { eapply Forall_impl; [exact Hin|]. intros x. by apply fx_entry_in with (1 := Hfx1). }
  exists t', fp'. split; [done|]. split_and!; auto; [by eapply fx_trans| |lia].
  intros x Hx. destruct (Hs2 x Hx) as [?|?]; [by apply Hs1|]. right. by eapply fx_unused.
Qed.

(** ** Validation and the order of a batch *)

Lemma mapping_bounds t lv root l fp : tx_wf t -> mapping t lv root l fp -> root <> 0 ->
  exists h, (h < lv)%nat /\ tree (nd t) h root l fp /\ in_bounds l 0 (total t - 1) false.
Proof.
  intros Hwf [[(? & _)|(h & Hh & Ht)] _ _ _] Hr; [done|]. exists h. split; [done|]. split; [done|].
  pose proof (tree_entries _ _ _ _ _ Hwf Ht) as Hin. rewrite Forall_forall in Hin. split.
  - intros x Hx. destruct (Hin x Hx) as (? & _). lia.
  - destruct (last l) as [e|] eqn:El; [|apply last_None in El; by apply tree_nonempty in Ht].
    exists (key e). destruct (Hin e (last_elem_of _ _ El)) as (? & _). split_and!; [done|lia|done].
Qed.
Lemma validate_ok st l fp a b : tx_wf (begin st) -> mapping (begin st) maxDepth (Root (s_ctrl st)) l fp -> validatePayloadRange st a b = Ok tt.
Proof.
  intros Hwf Hm. unfold validatePayloadRange. destruct (Z.eqb_spec (Root (s_ctrl st)) 0) as [|Hr]; [done|].
  destruct (mapping_bounds _ _ _ _ _ Hwf Hm Hr) as (h & Hh & Ht & Hb). pose proof (mp_sorted _ _ _ _ _ Hm) as Hs.
  generalize (Z.to_nat (b - a)) as n. intros n. revert a. induction n as [|n IH]; intros a; [done|]. cbn [validate_chunks].
  destruct (a <? b); [|done]. erewrite (payloadRange_tree (tx_reader (begin st)) h maxDepth (Root (s_ctrl st)) l fp); [cbn [res_bind]; apply IH|exact Ht|done|exact Hb|done].
Qed.
Lemma validate_runs_ok st l fp runs : tx_wf (begin st) -> mapping (begin st) maxDepth (Root (s_ctrl st)) l fp -> validate_runs st runs = Ok tt.
Proof.
  intros Hwf Hm. induction runs as [|[a b] runs IH]; [done|]. cbn [validate_runs]. by rewrite (validate_ok _ l fp) by done.
Qed.

Lemma batch_order_spec seen part : NoDup (batch_order seen part) /\ forall b, b ∈ batch_order seen part <-> b ∈ Block <$> part /\ b ∉ seen.
Proof.
  revert seen. induction part as [|p part IH]; intros seen; cbn [batch_order fmap list_fmap].
  { split; [constructor|]. intros b. rewrite !elem_of_nil. tauto. }
  case_bool_decide as E.
  - destruct (IH seen) as [Hn Hi]. split; [done|]. intros b. rewrite Hi, elem_of_cons. naive_solver.
  - destruct (IH (Block p :: seen)) as [Hn Hi]. split.
    + apply NoDup_cons. split; [|done]. rewrite Hi. set_solver.
    + intros b. rewrite elem_of_cons, Hi, !elem_of_cons. destruct (decide (b = Block p)) as [->|]; naive_solver.
Qed.
Lemma batch_order_length seen part : (length (batch_order seen part) <= length part)%nat.
Proof. revert seen. induction part as [|p part IH]; intros seen; cbn; [lia|]. case_bool_decide; cbn; [etransitivity; [apply IH|lia]|specialize (IH (Block p :: seen)); lia]. Qed.
(** The data of a block is that of one of its pages. *)
Lemma batch_data_in part b : b ∈ Block <$> part -> exists p, p ∈ part /\ Block p = b /\ Data p = batch_data part b.
Proof.
  unfold batch_data. generalize (@nil Z) as z. induction part as [|p part IH] using rev_ind; intros z Hb; [by apply elem_of_nil in Hb|].
  rewrite fold_left_app. cbn. destruct (Z.eqb_spec (Block p) b) as [E|Hne].
  - exists p. split; [apply elem_of_app; right; by left|done].
  - destruct (IH z) as (q & Hq & Hqb & Hqd).
    + rewrite fmap_app in Hb. apply elem_of_app in Hb as [?|Hb]; [done|]. apply list_elem_of_singleton in Hb. by rewrite Hb in Hne.
    + exists q. split; [apply elem_of_app; by left|done].
Qed.

(** ** The bodies of the block operations *)

(** [updated st F t l B]: the transaction [t] on [st] maps the blocks to [l], shows
    the bitmap [B], and queues payload for the slots its blocks are mapped to; of the
    slots in use only those of [F] were touched. *)
Record updated (st : Store) (F : list Z) (t : transaction) (l : list entry) (B : list Z) : Prop := {
  ud_fx : update_fx (begin st) F t;
  ud_map : exists fp, mapping t maxDepth (Root (t_ctrl t)) l fp;
  ud_payload : payload_slots t (slot <$> l);
  ud_pres : pres t B;
  ud_data : data_ok t;
  ud_blocks : NoDup (dw_block <$> t_data t);
  ud_slots : forall d, d ∈ t_data t -> dw_slot d = assoc (dw_block d) l }.
Lemma updated_nodup st F t l B : updated st F t l B -> NoDup (dw_slot <$> t_data t).
Proof.
  intros [_ _ [Hnd _] _ Hd Hb Hs].
  assert (forall d, d ∈ t_data t -> mkEntry (dw_block d) (dw_slot d) ∈ l) as Hin.
  { intros d Hin. rewrite (Hs d Hin). apply assoc_found. rewrite <- (Hs d Hin). destruct (Hd d Hin) as (_ & de & Hde & _). apply dsc_bound in Hde. lia. }
  clear Hs Hd. revert Hb Hin. induction (t_data t) as [|d ds IH]; intros Hb Hin; [constructor|]. cbn [fmap list_fmap] in *.
  apply NoDup_cons in Hb as [Hb1 Hb2]. apply NoDup_cons. split; [|apply IH; [done|]; intros; apply Hin; by right].
  intros (e & E & He)%list_elem_of_fmap. apply Hb1. apply list_elem_of_fmap. exists e. split; [|done].
  by pose proof (slots_inj l _ _ Hnd (Hin d ltac:(by left)) (Hin e ltac:(by right)) E) as [= ->].
Qed.

Definition valid_page (size : Z) (p : page) : Prop := 0 <= Block p < size / PageSize /\ is_page (Data p).
Definition write_cost : Z := (set_cost + 1) * 64.
Lemma block_u64 size b : writable_size size -> 0 <= b < size / PageSize -> is_u64 b.
Proof.
  intros [_ Hs] Hb. unfold is_u64. assert (size / PageSize <= maxWritableSize / PageSize) by (apply Z.div_le_mono; [done|lia]).
  assert (maxWritableSize / PageSize < 2 ^ 64) by (vm_compute; done). lia.
Qed.
Lemma write_body_spec st l fp B part : ready (begin st) -> mapping (begin st) (pred maxDepth) (Root (s_ctrl st)) l fp ->
  payload_slots (begin st) (slot <$> l) -> pres (begin st) B -> Forall (valid_page (s_size st)) part -> (length part <= 64)%nat ->
  Next (s_ctrl st) + write_cost <= maxSlot + 1 ->
  exists t l', write_body part (begin st) = Ok t /\ updated st (fp ++ (slot <$> l)) t l' (set_blocks (batch_order [] part) B) /\
    (forall k, k ∉ Block <$> part -> assoc k l' = assoc k l) /\
    t_data t = (fun b => mkDataWrite (assoc b l') b (batch_data part b)) <$> batch_order [] part /\
    Next (t_ctrl t) <= Next (s_ctrl st) + write_cost.
Proof.
  intros Hr Hm Hps Hp Hv Hlen Hroom. set (t0 := begin st) in *. pose proof (rd_wf _ Hr) as Hwf. unfold write_body.
  destruct (batch_order_spec [] part) as [Hnd Hin]. pose proof (batch_order_length [] part) as Hol. set (order := batch_order [] part) in *.
  assert (mapping t0 maxDepth (Root (s_ctrl st)) l fp) as Hm8.
  { destruct Hm as [[?|(h & Hh & Ht)] ? ? ?]; split; auto. right. exists h. split; [unfold maxDepth in *; cbn in Hh; lia|done]. }
  rewrite (validate_runs_ok _ l fp) by done. cbn [res_bind]. rewrite Forall_forall in Hv.
  assert (writing t0 128 l fp l B []) as Hw.
  { split; auto; [by apply mapping_active|apply Hm|..]; intros d []%elem_of_nil. }
  assert (set_cost = 17) as Hc by done. unfold write_cost in Hroom. rewrite Hc in Hroom.
  destruct (write_blocks_spec (batch_data part) order t0 128 l fp l B [] Hw Hnd) as (ms & t1 & -> & Hu1 & Hr1 & Hn1 & Hw1 & Hin1 & Hlm & Hs1 & Hk1 & Hd1).
  { intros b Hb. apply Hin in Hb as [Hb _]. destruct (batch_data_in part b Hb) as (p & Hp1 & <- & <-). destruct (Hv p Hp1) as [Hrg Hpg].
    split; [apply not_elem_of_nil|]. split; [exact Hrg|]. split; [|done]. eapply block_u64; [apply Hr|exact Hrg]. }
  { change (Next (t_ctrl t0)) with (Next (s_ctrl st)). lia. }
  cbn [res_bind]. change (Next (t_ctrl t0)) with (Next (s_ctrl st)) in Hn1.
  destruct (set_all_spec ms t1 0 l fp) as (t2 & fp2 & -> & Hfx2 & Ha2 & Hps2 & Hs2 & Hn2).
  { apply Hw1. } { eapply active_le; [apply Hw1|lia]. } { lia. } { apply Hw1. } { rewrite Hc. lia. } { done. }
  exists t2, (insert_all ms l). split; [done|]. destruct Hw1 as [Hwf1 Ha1 Hso1 Hp1 Hpr1 Hsm1 Hdn1 Hdo1 Hsl1].
  assert (t_data t2 = (fun b => mkDataWrite (assoc b (insert_all ms l)) b (batch_data part b)) <$> order) as Hdata by (by rewrite (fx_data _ _ _ Hfx2), Hd1).
  split; [split|split; [|split; [done|unfold write_cost; rewrite Hc in *; lia]]].
  - eapply update_trans; [eapply update_weaken; [exact Hu1|set_solver]|by apply update_tree|]. intros x Hx. left. apply elem_of_app. by left.
  - exists fp2. by eapply active_mapping.
  - done.
  - eapply pres_low; [apply Hfx2|apply Hfx2|done].
  - intros d. rewrite (fx_data _ _ _ Hfx2), (fx_pe _ _ _ Hfx2). intros Hd. destruct (Hdo1 d Hd) as (? & de & Hde & Hk & ?). split; [done|]. exists de. split; [|done].
    destruct (fx_live _ _ _ Hfx2 _ _ Hde) as (d' & Hd' & _ & [->|[Hx _]]); [by rewrite Hk|done|]. exfalso.
    destruct (ac_live _ _ _ _ Ha1 _ Hx) as (d2 & Hd2 & Hk2). simplify_eq. by rewrite Hk in Hk2.
  - by rewrite (fx_data _ _ _ Hfx2), Hdn1.
  - intros d. rewrite Hdata. by intros (b & -> & _)%list_elem_of_fmap.
  - intros k Hk. apply Hk1. rewrite Hin. naive_solver.
Qed.

(** *** Discarding *)

(** A level of the tree has at most as many nodes as there are entries. *)
Lemma tree_size nd h s l fp : tree nd h s l fp -> (length fp <= S h * length l)%nat.
Proof.
  revert s l fp. induction h as [|h IH]; intros s l fp Ht.
  - destruct Ht as (_ & _ & Hne & ->). destruct l; [done|]. cbn. lia.
  - pose proof (tree_nonempty _ _ _ _ _ Ht) as Hne. destruct Ht as (_ & es & subs & _ & _ & Hf & -> & ->).
    assert (length (concat (snd <$> subs)) <= S h * length (concat (fst <$> subs)))%nat as H.
    { clear Hne. induction Hf as [|e p es subs [Ht _] Hf IHf]; [cbn; lia|]. cbn. rewrite !length_app. pose proof (IH _ _ _ Ht). nia. }
    destruct (concat (fst <$> subs)) as [|x k]; [done|]. cbn [length] in *. lia.
Qed.
Definition discarded (runs : list (Z * Z)) (l : list entry) : list entry := fold_left (fun l r => kept r.1 r.2 l) runs l.
Definition marked (runs : list (Z * Z)) (B : list Z) : list Z := fold_left (fun B r => set_blocks (z_range r.1 r.2) B) runs B.
Definition in_runs (k : Z) (runs : list (Z * Z)) : Prop := exists r, r ∈ runs /\ r.1 <= k < r.2.
#[export] Instance in_runs_dec k runs : Decision (in_runs k runs).
Proof.
  destruct (decide (Exists (fun r : Z * Z => r.1 <= k < r.2) runs)) as [H|H]; [left|right]; unfold in_runs.
  - apply Exists_exists in H. done.
  - intros Hr. apply H, Exists_exists. done.
Defined.
Lemma assoc_discarded runs l k : assoc k (discarded runs l) = if decide (in_runs k runs) then 0 else assoc k l.
Proof.
  unfold discarded. revert l. induction runs as [|[a b] runs IH]; intros l; cbn [fold_left fst snd].
  { rewrite decide_False; [done|]. intros (r & Hr & _). by apply elem_of_nil in Hr. }
  rewrite IH, assoc_kept. destruct (decide (in_runs k runs)) as [(r & Hr & Hk)|Hn].
  - rewrite decide_True; [done|]. exists r. split; [by right|done].
  - destruct (decide (a <= k < b)) as [Hk|Hk].
    + rewrite (proj2 (Z.leb_le _ _)), (proj2 (Z.ltb_lt _ _)), decide_True by lia || (exists (a, b); split; [by left|done]). done.
    + rewrite decide_False; [|intros (r & [->|Hr]%elem_of_cons & Hk'); [done|apply Hn; by exists r]].
      destruct (Z.leb_spec a k), (Z.ltb_spec k b); done || lia.
Qed.
Lemma Has_marked size runs B k : valid_size size -> bitmap_ok size B -> Forall (fun r => 0 <= r.1 /\ r.2 <= size / PageSize) runs -> 0 <= k ->
  bitmap_ok size (marked runs B) /\ Has (marked runs B) k = bool_decide (in_runs k runs) || Has B k.
Proof.
  intros Hs HB Hv Hk. unfold marked. revert B HB. induction Hv as [|[a b] runs [Ha Hb] Hv IH]; intros B HB; cbn [fold_left fst snd] in *.
  { split; [done|]. rewrite bool_decide_eq_false_2; [done|]. intros (r & Hr & _). by apply elem_of_nil in Hr. }
  assert (Forall (fun x => 0 <= x < size / PageSize) (z_range a b)) as Hr by (apply Forall_forall; intros x Hx%z_range_elem; lia).
  destruct (IH (set_blocks (z_range a b) B)) as [H1 H2]; [by apply set_blocks_ok|]. split; [done|]. rewrite H2, (Has_set_blocks size) by done.
  rewrite orb_assoc. f_equal. rewrite <- bool_decide_or. apply bool_decide_ext. rewrite z_range_elem. split.
  - intros [(r & ? & ?)|?]; [exists r; split; [by right|done]|exists (a, b); split; [by left|done]].
  - intros (r & [->|Hr']%elem_of_cons & Hkr); [by right|left; by exists r].
Qed.

(** One run: its blocks are marked as owned and unmapped. *)
Lemma discard_run_spec st F t l fp B first stop : tx_wf (begin st) -> (exists l0 fp0, mapping (begin st) maxDepth (Root (s_ctrl st)) l0 fp0) ->
  update_fx (begin st) F t -> mapping t maxDepth (Root (t_ctrl t)) l fp -> payload_slots t (slot <$> l) -> pres t B -> t_data t = [] ->
  (forall x, x ∈ fp ++ (slot <$> l) -> x ∈ F \/ unused (begin st) x) -> 0 <= first < stop -> stop <= s_size st / PageSize ->
  Next (t_ctrl t) + 2 * Z.of_nat (length fp) <= maxSlot + 2 ->
  exists t' fp', discard_run first stop t = Ok t' /\ update_fx (begin st) F t' /\ mapping t' maxDepth (Root (t_ctrl t')) (kept first stop l) fp' /\
    payload_slots t' (slot <$> kept first stop l) /\ pres t' (set_blocks (z_range first stop) B) /\ t_data t' = [] /\
    (forall x, x ∈ fp' ++ (slot <$> kept first stop l) -> x ∈ F \/ unused (begin st) x) /\ Next (t_ctrl t') <= Next (t_ctrl t) + 2 * Z.of_nat (length fp).
Proof.
  intros Hwf0 (l0 & fp0 & Hm0) Hu Hm Hps Hp Hda Hsub Hf Hst Hroom. unfold discard_run. pose proof (up_store _ _ _ Hu) as Hs. cbn [begin store] in Hs.
  rewrite Hs, (validate_ok _ l0 fp0) by done. cbn [res_bind].
  destruct (setPresenceRange_spec (Z.to_nat (stop - first)) t B first stop) as (t1 & -> & Hv & Hp1); [apply Hu|done|lia|by rewrite Hs|lia|].
  cbn [res_bind]. pose proof (update_quiet _ _ (up_wf _ _ _ Hu) (view_quiet _ _ Hv)) as Hu1.
  assert (forall l : list Z, forall x, x ∈ l -> x ∉ []) as Hno by (intros; apply not_elem_of_nil).
  destruct (unsetRange_spec t1 maxDepth l fp first stop) as (t2 & fp2 & -> & Hfx & Hm2 & Hps2 & Hs2 & Hn2).
  { apply Hv. } { rewrite (sv_ctrl _ _ Hv). eapply update_mapping; [exact Hu1|done|apply Hno]. } { done. }
  { eapply update_payload; [exact Hu1|apply Hno|done]. } { by rewrite (sv_ctrl _ _ Hv). } { lia. }
  rewrite (sv_ctrl _ _ Hv) in Hn2. pose proof (update_trans _ _ _ _ _ Hu Hu1 ltac:(intros ? []%elem_of_nil)) as Hu01.
  assert (forall x, x ∈ slot <$> removed first stop l -> x ∈ slot <$> l) as Hrem.
  { intros x (e & -> & [_ He]%list_elem_of_filter)%list_elem_of_fmap. by apply list_elem_of_fmap_2. }
  exists t2, fp2. split; [done|]. split_and!; auto.
  - eapply update_trans; [exact Hu01|by apply update_tree|]. intros x [Hx|Hx]%elem_of_app; apply Hsub, elem_of_app; auto.
  - eapply pres_low; [apply Hfx|apply Hfx|done].
  - by rewrite (fx_data _ _ _ Hfx), (sv_data _ _ Hv).
  - intros x [Hx|(e & -> & [_ He]%list_elem_of_filter)%list_elem_of_fmap]%elem_of_app.
    + destruct (Hs2 x Hx) as [?|Hun]; [apply Hsub, elem_of_app; by left|]. right. by eapply update_unused.
    + apply Hsub, elem_of_app. right. by apply list_elem_of_fmap_2.
Qed.
Definition valid_run (size : Z) (r : Z * Z) : Prop := 0 <= r.1 < r.2 /\ r.2 <= size / PageSize.
Definition discard_cost (l : list entry) : Z := 2 * Z.of_nat maxDepth * Z.of_nat (length l).
Lemma mapping_size t root l fp : mapping t maxDepth root l fp -> 2 * Z.of_nat (length fp) <= discard_cost l.
Proof.
  intros [[(_ & -> & ->)|(h & Hh & Ht)] _ _ _]; [done|]. pose proof (tree_size _ _ _ _ _ Ht). unfold discard_cost. nia.
Qed.
Lemma discard_runs_spec st F runs : forall t l fp B, tx_wf (begin st) -> (exists l0 fp0, mapping (begin st) maxDepth (Root (s_ctrl st)) l0 fp0) ->
  update_fx (begin st) F t -> mapping t maxDepth (Root (t_ctrl t)) l fp -> payload_slots t (slot <$> l) -> pres t B -> t_data t = [] ->
  (forall x, x ∈ fp ++ (slot <$> l) -> x ∈ F \/ unused (begin st) x) -> Forall (valid_run (s_size st)) runs ->
  Next (t_ctrl t) + discard_cost l * Z.of_nat (length runs) <= maxSlot + 1 ->
  exists t', discard_runs runs t = Ok t' /\ updated st F t' (discarded runs l) (marked runs B) /\ t_data t' = [] /\
    Next (t_ctrl t') <= Next (t_ctrl t) + discard_cost l * Z.of_nat (length runs).
Proof.
  induction runs as [|[a b] runs IH]; intros t l fp B Hwf Hm0 Hu Hm Hps Hp Hda Hsub Hv Hroom; cbn [discard_runs].
  { exists t. split; [done|]. split; [|split; [done|cbn; lia]]. split; rewrite ?Hda; try done; [by exists fp|unfold data_ok; rewrite Hda| |];
      [intros ? []%elem_of_nil|constructor|intros ? []%elem_of_nil]. }
  apply Forall_cons in Hv as [[Ha Hb] Hv]. cbn [fst snd] in *. pose proof (mapping_size _ _ _ _ Hm) as Hsz. cbn [length] in Hroom.
  assert (discard_cost (kept a b l) <= discard_cost l) as Hle.
  { unfold discard_cost. pose proof (length_filter (fun e => ~ in_range a b e) l). unfold kept. nia. }
  assert (0 <= discard_cost l) as H0 by (unfold discard_cost; lia). assert (0 <= discard_cost (kept a b l)) as H1 by (unfold discard_cost; lia).
  destruct (discard_run_spec st F t l fp B a b) as (t1 & fp1 & -> & Hu1 & Hm1 & Hps1 & Hp1 & Hda1 & Hsub1 & Hn1); auto; [nia|].
  cbn [res_bind]. destruct (IH t1 (kept a b l) fp1 (set_blocks (z_range a b) B)) as (t' & Hok & Hud & Hd & Hn); auto; [nia|]. exists t'. split_and!; try done.
  cbn [length]. nia.
Qed.
Lemma current_quiet t : tx_wf t -> quiet_fx t (set_ctrl (set_Current 0 (t_ctrl t)) t).
Proof.
  intros Hwf. split; try done; [|by right]. pose proof (w_ctrl _ Hwf) as Hc. unfold control_ok in Hc. destruct_and! Hc. by destruct Hwf.
Qed.
Lemma discard_body_spec st l fp B runs h : ready (begin st) -> mapping (begin st) maxDepth (Root (s_ctrl st)) l fp ->
  payload_slots (begin st) (slot <$> l) -> pres (begin st) B -> Forall (valid_run (s_size st)) runs ->
  Next (s_ctrl st) + discard_cost l * Z.of_nat (length runs) <= maxSlot + 1 ->
  exists t, discard_body runs (begin st) h = (Ok t, h) /\ updated st (fp ++ (slot <$> l)) t (discarded runs l) (marked runs B) /\ t_data t = [] /\
    Next (t_ctrl t) <= Next (s_ctrl st) + discard_cost l * Z.of_nat (length runs).
Proof.
  intros Hr Hm Hps Hp Hv Hroom. pose proof (rd_wf _ Hr) as Hwf. pose proof (current_quiet _ Hwf) as Hq. set (t0 := set_ctrl _ _) in Hq.
  pose proof (update_quiet _ _ Hwf Hq) as Hu. assert (forall l : list Z, forall x, x ∈ l -> x ∉ []) as Hno by (intros; apply not_elem_of_nil).
  destruct (discard_runs_spec st (fp ++ (slot <$> l)) runs t0 l fp B) as (t & Ht & Hud & Hda & Hn); auto.
  - by exists l, fp.
  - eapply update_weaken; [exact Hu|intros ? []%elem_of_nil].
  - eapply update_mapping; [exact Hu|done|apply Hno].
  - by destruct Hp.
  - exists t. unfold discard_body. fold t0. rewrite Ht. done.
Qed.
