(* ===== verification/Model.v ===== *)
(** * Model: the store as a block device with named versions.

    What a versioned DIFF promises its users: every block of the disk is absent,
    zeroed or holds the data last written to it, and a version shows the blocks as
    they were when it was taken, for as long as it is retained.  [models c g st A]
    says that the store [st], read with the cipher [c] and with the collector's walk at
    [g], shows the abstract store [A]; the theorems say what each transaction of the handle does to [A] and that a
    transaction that fails leaves it as it was. *)
From stdpp Require Import base numbers list gmap strings sorting relations.
From Stdlib Require Import ZArith Lia.
From S2P Require Import Prelude Page Presence Json Format Tree Tx Demo TreeWrite Retire TreeRemove Sha256 Commit Crash Publish Bitmap Checkpoint GcDemo Gc Accounts Ops Batch.

#[local] Opaque Sum256 sealPage checkPage Page.put.

(** ** The abstract store *)

Inductive cell := Absent | Zeroed | Held (data : list Z).
(** A version: its name and whether it is listed, the slot of its record, its tree and
    the slots it reads, and its blocks. *)
Record version := mkVersion { v_id : list Z; v_visible : bool; v_slot : Z; v_tree : Z; v_uses : list Z; v_cells : Z -> cell }.
Record astore := mkAstore { a_size : Z; a_cells : Z -> cell; a_versions : list version }.

(** A block of a disk with the bitmap [B] and the mapping [l] over the file [f]. *)
Definition cell_at (c : option xts_cipher) (f : file) (B : list Z) (l : list entry) (k : Z) : cell :=
  if Has B k then
    if assoc k l =? 0 then Zeroed else Held (crypt c (page_at f (slotPage (assoc k l))) k false)
  else Absent.
Definition in_disk (st : Store) (k : Z) : Prop := 0 <= k < s_size st / PageSize.
Definition readable (st : Store) (x : Z) : Prop := exists b, readFull (s_file st) (slotPage x) = Ok b.

(** ** What the store shows *)

(** The version below [root]: its tree is in the slots [u], its bitmap in [bl]. *)
Definition shows_cells (c : option xts_cipher) (st : Store) (u bl : list Z) (root : Z) (cells : Z -> cell) : Prop :=
  exists lv Bv,
    ((root = 0 /\ lv = []) \/ exists h f, (h < maxDepth)%nat /\ tree (nd (begin st)) h root lv f /\ (forall x, x ∈ f -> x ∈ u)) /\
    sorted lv /\ (forall e, e ∈ lv -> slot e ∈ u /\ 1 <= slot e /\ readable st (slot e)) /\
    bitmap_ok (s_size st) Bv /\
    (forall j x, bl !! j = Some x -> exists b, readFull (s_file st) (slotPage x) = Ok b /\ encoded Bv (s_size st) (Z.of_nat j) b) /\
    forall k, in_disk st k -> cell_at c (s_file st) Bv lv k = cells k.
Definition shows_version (c : option xts_cipher) (st : Store) (bs U : Z -> list Z) (p : Z * checkpoint) (v : version) : Prop :=
  cp_ID p.2 = v_id v /\ cp_Visible p.2 = v_visible v /\ cp_BitmapDone p.2 = 0 /\ (p.1 = v_slot v /\ cp_Root p.2 = v_tree v /\ U p.1 = v_uses v) /\
  shows_cells c st (U p.1) (bs p.1) (cp_Root p.2) (v_cells v).

Record stands (c : option xts_cipher) (st : Store) (l : list entry) (fp : list Z) (L : list (Z * checkpoint))
    (gs bs U : Z -> list Z) (A : astore) : Prop := {
  sd_size : s_size st = a_size A;
  sd_ready : ready (begin st);
  sd_born : born (begin st);
  sd_map : mapping (begin st) maxDepth (Root (s_ctrl st)) l fp;
  sd_payload : payload_slots (begin st) (slot <$> l);
  sd_readable : forall x, x ∈ slot <$> l -> readable st x;
  sd_bitmap : bitmap_ok (s_size st) (s_presence st);
  sd_disk : file_pres (readFull (s_file st)) (s_size st) (s_presence st);
  sd_ledger : ledger (begin st) L gs bs U;
  sd_now : forall k, in_disk st k -> cell_at c (s_file st) (s_presence st) l k = a_cells A k;
  sd_versions : Forall2 (shows_version c st bs U) (filter is_retained L) (a_versions A) }.
(** [models c g st A]: the store [st], with the collector's walk at [g], shows [A]. *)
Definition models (c : option xts_cipher) (g : gcScan) (st : Store) (A : astore) : Prop :=
  exists l fp L gs bs U, stands c st l fp L gs bs U A /\ scan_ok g L.
Lemma scan_recharged g L L' : recharged L L' -> scan_ok g L -> scan_ok g L'.
Proof.
  intros Hrc [?|(i & cp & k & Hi & Hk & Ht & Hvs & Hl & Hp)]; [by left|right]. pose proof (recharged_slots _ _ Hrc) as Hs.
  assert (forall j, slot_at L' j = slot_at L j) as Hat by (intros; unfold slot_at; by rewrite Hs).
  destruct (recharged_back _ _ _ _ _ Hrc Hi) as (cq & Hi' & _). exists i, cq, k. rewrite Hat, <- (Forall2_length _ _ _ Hrc). split_and!; try done; try lia.
  intros E. destruct (Hp E) as (p & Hpi & Hps & (y & cy & Hy & He) & Hn). exists p. split; [done|].
  split; [by destruct p; [done|]; cbn in *; rewrite Hat|]. destruct (recharged_back _ _ _ _ _ Hrc Hy) as (cz & Hz & Ez).
  split; [exists y, cz; split; [done|]; by rewrite Ez|]. intros j [z cw] Hj Hjp Hr. destruct (recharged_lookup _ _ _ _ _ Hrc Hj) as (c0 & H0 & E0).
  apply (Hn j (z, c0) H0 Hjp). unfold is_retained in *. cbn in *. by rewrite E0 in Hr.
Qed.

(** ** Slots a change leaves alone *)

Record carries (st s : Store) (X : Z -> Prop) : Prop := {
  ca_size : s_size s = s_size st;
  ca_next : Next (s_ctrl st) <= Next (s_ctrl s);
  ca_read : forall x b, X x -> readFull (s_file st) (slotPage x) = Ok b -> readFull (s_file s) (slotPage x) = Ok b }.
Lemma carries_page st s X x : carries st s X -> X x -> readable st x ->
  readable s x /\ page_at (s_file s) (slotPage x) = page_at (s_file st) (slotPage x).
Proof.
  intros Hc Hx (b & Hb). pose proof (ca_read _ _ _ Hc x b Hx Hb) as Hb'. split; [by exists b|].
  apply readFull_Ok in Hb as [_ <-]. by apply readFull_Ok in Hb' as [_ ->].
Qed.
Lemma nd_below st x n : nd (begin st) x = Some n -> tx_wf (begin st) -> x < Next (s_ctrl st).
Proof.
  intros Hn%nd_of_Some Hwf. unfold inspectNode in Hn. cbn [tx_reader rd_nodes rd_next begin t_nodes t_ctrl] in Hn. rewrite lookup_empty in Hn.
  pose proof (w_next _ Hwf). cbn in *. rewrite (proj2 (Z.eqb_neq (Next (s_ctrl st)) 0)) in Hn by lia. cbn [negb andb] in Hn.
  destruct (Z.leb_spec (Next (s_ctrl st)) x); [|done]. by rewrite orb_true_r in Hn.
Qed.
Lemma carries_nd st s X x n : tx_wf (begin st) -> carries st s X -> X x -> 1 <= x -> nd (begin st) x = Some n -> nd (begin s) x = Some n.
Proof.
  intros Hwf Hc Hx H1 Hn. destruct (nd_ok _ _ _ Hwf Hn) as (_ & Hin & _). pose proof (nd_below _ _ _ Hn Hwf). destruct (nd_from_file (begin st) x n) as (b & Hrd & Hdec); [done|done|].
  pose proof (ca_next _ _ _ Hc). apply (nd_intro (begin s) x n b); [done|cbn in *; lia| |done|].
  - unfold read in *. cbn in *. rewrite lookup_empty in *. by apply (ca_read _ _ _ Hc).
  - unfold node_in, total in *. cbn [begin store t_ctrl] in *. rewrite (ca_size _ _ _ Hc). eapply Forall_impl; [exact Hin|]. cbn. intros e. lia.
Qed.
Lemma cell_at_ext c f f' B l k : (assoc k l <> 0 -> page_at f' (slotPage (assoc k l)) = page_at f (slotPage (assoc k l))) ->
  cell_at c f' B l k = cell_at c f B l k.
Proof. intros H. unfold cell_at. case_match; [|done]. destruct (Z.eqb_spec (assoc k l) 0); [done|]. by rewrite H. Qed.
Lemma tree_pos nd h s l fp x : tree nd h s l fp -> x ∈ fp -> 1 <= x.
Proof.
  revert s l fp. induction h as [|h IH]; intros s l fp [Hs Ht] Hx.
  - destruct Ht as (_ & _ & ->). apply list_elem_of_singleton in Hx as ->. lia.
  - destruct Ht as (es & subs & _ & _ & Hf & _ & ->). apply elem_of_cons in Hx as [->|Hx]; [lia|].
    apply list_elem_of_In, in_concat in Hx as (f & Hf' & Hx). apply list_elem_of_In in Hf', Hx.
    apply list_elem_of_fmap in Hf' as (p & -> & [i Hp]%list_elem_of_lookup_1). destruct (Forall2_lookup_r _ _ _ _ _ Hf Hp) as (e & _ & Ht & _). by eapply IH.
Qed.
(** A version is read from its slots alone. *)
Lemma shows_carry c st s u bl root cells : tx_wf (begin st) -> carries st s (fun x => x ∈ u \/ x ∈ bl) ->
  shows_cells c st u bl root cells -> shows_cells c s u bl root cells.
Proof.
  intros Hwf Hca (lv & Bv & Ht & Hs & He & HB & Hbl & Hk). pose proof (ca_size _ _ _ Hca) as Hsz. exists lv, Bv. rewrite Hsz. split_and!; try done.
  - destruct Ht as [?|(h & f & Hh & Ht & Hf)]; [by left|]. right. exists h, f. split_and!; try done. eapply tree_ext; [|exact Ht].
    intros x n Hx. apply (carries_nd _ _ _ _ _ Hwf Hca); [left; by apply Hf|by eapply tree_pos].
  - intros e Hin. destruct (He e Hin) as (Hu & H1 & Hr). split_and!; try done. by apply (carries_page _ _ _ (slot e) Hca); [left|].
  - intros j x Hj. destruct (Hbl j x Hj) as (b & Hb & Henc). exists b. split; [|done]. apply (ca_read _ _ _ Hca); [|done]. right. by eapply list_elem_of_lookup_2.
  - intros k Hin. rewrite <- Hk by (by unfold in_disk in *; rewrite <- Hsz). apply cell_at_ext. intros Hne.
    destruct (He _ (assoc_found _ _ Hne)) as (Hu & _ & Hr). by apply (carries_page _ _ _ _ Hca); [left|].
Qed.
(** The same versions, with other lists of retired slots. *)
Lemma versions_carry c st s bs U L L' vs : tx_wf (begin st) ->
  (forall x cp, (x, cp) ∈ L -> cp_Retained cp = true -> carries st s (fun y => y ∈ U x \/ y ∈ bs x)) -> recharged L L' ->
  Forall2 (shows_version c st bs U) (filter is_retained L) vs -> Forall2 (shows_version c s bs U) (filter is_retained L') vs.
Proof.
  intros Hwf Hca Hrc. revert vs. induction Hrc as [|[x cp] [y cq] L L' [Ey Ec] Hrc IH]; intros vs; [intros ->%Forall2_nil_inv_l; constructor|].
  cbn in Ey, Ec. subst y.
  rewrite !filter_cons. assert (cp_Retained cq = cp_Retained cp) as Hrr by (by rewrite Ec).
  assert (forall vs, Forall2 (shows_version c st bs U) (filter is_retained L) vs -> Forall2 (shows_version c s bs U) (filter is_retained L') vs) as IH'.
  { intros ws. apply IH. intros z cz Hz. apply Hca. by right. }
  destruct (decide (is_retained (x, cp))) as [Hr|Hr]; [rewrite decide_True by (unfold is_retained in *; cbn in *; congruence)|
    rewrite decide_False by (unfold is_retained in *; cbn in *; congruence); apply IH'].
  intros (v & vs' & Hv & Hvs & ->)%Forall2_cons_inv_l. constructor; [|by apply IH']. destruct Hv as (H1 & H2 & H3 & (H5 & H6 & H7) & H4). cbn [fst snd] in *.
  split; [by rewrite Ec|]. split; [by rewrite Ec|]. split; [by rewrite Ec|]. split; [by rewrite Ec|]. cbn [fst snd]. replace (cp_Root cq) with (cp_Root cp) by (by rewrite Ec). eapply shows_carry; [done|eapply Hca; [by left|done]|done].
Qed.

(** ** The height of the tree *)

Lemma tree_det nd h : forall h' s l fp l' fp', tree nd h s l fp -> tree nd h' s l' fp' -> h' = h /\ l' = l /\ fp' = fp.
Proof.
  induction h as [|h IH]; intros [|h'] s l fp l' fp' [_ Ht] [_ Ht']; cbn in Ht, Ht'.
  - destruct Ht as (Hn & _ & ->), Ht' as (Hn' & _ & ->). by simplify_eq.
  - destruct Ht as (Hn & _), Ht' as (? & ? & Hn' & _). by simplify_eq.
  - destruct Ht' as (Hn & _), Ht as (? & ? & Hn' & _). by simplify_eq.
  - destruct Ht as (es & subs & Hn & Hne & Hf & -> & ->), Ht' as (es' & subs' & Hn' & _ & Hf' & -> & ->). simplify_eq.
    assert (h' = h /\ subs' = subs) as [-> ->]; [|done]. destruct es as [|e es]; [done|]. clear Hn Hne. revert subs subs' Hf Hf'.
    assert (forall e p q, tree nd h (slot e) p.1 p.2 -> tree nd h' (slot e) q.1 q.2 -> h' = h /\ q = p) as Hone.
    { intros e0 [p1 p2] [q1 q2] Hp Hq. cbn in *. by destruct (IH _ _ _ _ _ _ Hp Hq) as (-> & -> & ->). }
    revert e. induction es as [|e2 es IHes]; intros e subs subs' Hf Hf'.
    + apply Forall2_cons_inv_l in Hf as (p & ? & [Hp _] & ->%Forall2_nil_inv_l & ->), Hf' as (q & ? & [Hq _] & ->%Forall2_nil_inv_l & ->).
      by destruct (Hone e p q Hp Hq) as [-> ->].
    + apply Forall2_cons_inv_l in Hf as (p & ps & [Hp _] & Hf & ->), Hf' as (q & qs & [Hq _] & Hf' & ->).
      destruct (IHes e2 ps qs Hf Hf') as [-> ->]. by destruct (Hone e p q Hp Hq) as [_ ->].
Qed.
(** A tree of fewer than [n] levels. *)
Definition shallow (st : Store) (n : nat) : Prop :=
  Root (s_ctrl st) = 0 \/ exists h l fp, (h < n)%nat /\ tree (nd (begin st)) h (Root (s_ctrl st)) l fp.
Lemma shallow_mapping st n m l fp : shallow st n -> mapping (begin st) m (Root (s_ctrl st)) l fp -> mapping (begin st) n (Root (s_ctrl st)) l fp.
Proof.
  intros Hs [Ht ? ? ?]. split; auto. destruct Ht as [?|(h & _ & Ht)]; [by left|]. right. exists h. split; [|done].
  destruct Hs as [E|(h' & l' & fp' & Hh & Ht')]; [rewrite E in Ht; apply tree_body in Ht as [? _]; lia|]. by destruct (tree_det _ _ _ _ _ _ _ _ Ht Ht') as (-> & _).
Qed.
Lemma mapping_shallow st n l fp : mapping (begin st) n (Root (s_ctrl st)) l fp -> shallow st n.
Proof. intros [[(? & _)|(h & Hh & Ht)] _ _ _]; [by left|]. right. by exists h, l, fp. Qed.
(** [steady st s]: [s] has the size, the allocation, the epoch and a tree of the height
    of [st], and no name that [st] does not have. *)
Definition unnamed (st : Store) (id : list Z) : Prop := findCheckpoint (begin st) id = Err ErrNotExist.
Record steady (st s : Store) : Prop := {
  sy_size : s_size s = s_size st;
  sy_next : Next (s_ctrl s) = Next (s_ctrl st);
  sy_epoch : Epoch (s_ctrl s) = Epoch (s_ctrl st);
  sy_shallow : forall n, shallow st n -> shallow s n;
  sy_unnamed : forall id, unnamed st id -> unnamed s id }.
Lemma names_unnamed st s L L' id : catalog (begin st) L -> catalog (begin s) L' -> names L' = names L -> unnamed st id -> unnamed s id.
Proof.
  intros Hc Hc' E. unfold unnamed. rewrite (findCheckpoint_spec _ _ Hc), (findCheckpoint_spec _ _ Hc').
  destruct (decide (id ∈ names L)) as [Hin|Hin]; [by destruct (named_lookup id L Hin) as (i & x & cp & -> & _)|].
  by rewrite !named_None by (by rewrite ?E).
Qed.
Lemma steady_refl st : steady st st.
Proof. by split. Qed.
Lemma steady_trans st s1 s2 : steady st s1 -> steady s1 s2 -> steady st s2.
Proof. intros [] []. split; [congruence..|auto|auto]. Qed.

(** The store [s] took at most [n] new slots. *)
Definition grows (n : Z) (st s : Store) : Prop := s_size s = s_size st /\ Next (s_ctrl s) <= Next (s_ctrl st) + n.

(** ** Committing an update *)

Lemma read_begin st q : read (begin st) q = readFull (s_file st) q.
Proof. unfold read. cbn. by rewrite lookup_empty. Qed.
Lemma writes_flen ws w q f : w ∈ ws -> covers w q -> q < flen (apply_writes ws f).
Proof.
  intros Hw Hq. revert f. induction ws as [|v ws IH]; intros f; [by apply elem_of_nil in Hw|].
  change (apply_writes (v :: ws) f) with (apply_writes ws (apply_write f v)). apply elem_of_cons in Hw as [->|Hw]; [|by apply IH].
  eapply Z.lt_le_trans; [|apply flen_apply_writes]. unfold apply_write. destruct (flen_writeFull f (wr_page v) (wr_data v)) as [_ H].
  unfold covers in Hq. destruct (wr_data v) as [|b bs]; [cbn in Hq; lia|]. specialize (H ltac:(done)). lia.
Qed.
Lemma data_covered c t d : d ∈ t_data t -> exists w, w ∈ writeData c t /\ covers w (slotPage (dw_slot d)).
Proof.
  intros Hd. unfold writeData. set (l := merge_sort _ _). assert (l ≡ₚ t_data t) as Hl by apply merge_sort_Permutation.
  destruct (data_runs_spec l) as [Hc Ha]. rewrite <- Hl, <- Hc in Hd. apply elem_of_concat in Hd as (r & Hd & Hr).
  rewrite Forall_forall in Ha. destruct (Ha r Hr) as [_ Had]. exists (run_write c r). split; [by apply list_elem_of_fmap_2|].
  apply list_elem_of_lookup_1 in Hd as [i Hi]. destruct r as [|e r]; [done|]. pose proof (adjacent_lookup e r i d Had Hi) as Hp. apply lookup_lt_Some in Hi.
  unfold covers, run_write. cbn [wr_page wr_data]. rewrite length_fmap. lia.
Qed.
Lemma commit_data_flen c t s d : commit c t = Ok s -> d ∈ t_data t -> slotPage (dw_slot d) < flen (s_file s).
Proof.
  intros (pl & _ & Hcm)%res_bind_Ok Hd. destruct (data_covered c t d Hd) as (w & Hw & Hq).
  assert (w ∈ commit_writes c t pl) as Hin by (destruct pl; cbn [commit_writes]; [apply elem_of_app; by left|done]).
  destruct pl; apply Ok_inj in Hcm as <-; cbn [s_file]; by eapply writes_flen.
Qed.

Section Committing.
Context (c : option xts_cipher) (st : Store) (l : list entry) (fp : list Z) (L : list (Z * checkpoint)) (gs bs U : Z -> list Z) (A : astore).
Context (Hst : stands c st l fp L gs bs U A) (Hc : cipher_ok c).
Context (F : list Z) (t : transaction) (l' : list entry) (B' : list Z) (s : Store).
Context (Hud : updated st F t l' B') (Hcm : commit c t = Ok s).

Lemma upd_ready : ready t.
Proof.
  pose proof (sd_ready _ _ _ _ _ _ _ _ _ Hst) as []. pose proof (ud_fx _ _ _ _ _ Hud) as Hu. split; rewrite ?(up_store _ _ _ Hu); auto.
  - apply Hu.
  - intros p Hp. destruct (up_fresh _ _ _ Hu p Hp) as [?|(x & Hx & [[_ ->]|(_ & -> & _)])]; [by apply rd_fresh| |].
    + pose proof (slotPage_area x Hx). lia.
    + by apply descriptorPage_area.
  - intros d Hd. destruct (ud_data _ _ _ _ _ Hud d Hd) as (_ & de & Hde & _). apply dsc_bound in Hde. lia.
Qed.
Lemma upd_committed : committed c t s.
Proof. apply commit_committed; [apply upd_ready|done|apply Hud|done]. Qed.
Local Notation Hpu := (cm_publishes _ _ _ upd_committed).
Lemma upd_scratch : scratch t (data_page t).
Proof. apply data_scratch, Hud. Qed.
Lemma upd_size : s_size s = s_size st.
Proof. by rewrite (pu_size _ _ _ Hpu), (up_store _ _ _ (ud_fx _ _ _ _ _ Hud)). Qed.
Lemma upd_next : Next (s_ctrl st) <= Next (s_ctrl s).
Proof. pose proof (up_next _ _ _ (ud_fx _ _ _ _ _ Hud)). pose proof (pu_field t s _ Hpu Next ltac:(done)) as E. cbn in *. lia. Qed.

(** The pages of payload slots the transaction does not write. *)
Lemma upd_kept x d b : dsc t x = Some d -> Kind d <> kindCheckpoint -> Kind d <> kindBitmap -> Kind d <> kindIndex \/ Birth d <= pe t ->
  x ∉ dw_slot <$> t_data t -> readFull (s_file st) (slotPage x) = Ok b -> readFull (s_file s) (slotPage x) = Ok b.
Proof.
  intros Hd Hk1 Hk2 Hk3 Hx Hb. apply dsc_bound in Hd as Hbd. destruct (slot_page_ok x) as [? ?]; [lia|]. pose proof (rd_wf _ upd_ready) as Hwf.
  apply (pu_kept _ _ _ Hpu); try done.
  - apply eq_None_not_Some. intros (b' & Hpg). apply all_pages_lookup in Hpg as [(y & n & Hy & Hpg & _)|[Hpg _]]; [| |done].
    + pose proof (node_slot t y n Hwf Hy). apply slotPage_inj in Hpg as <-; [|lia..].
      destruct (w_nodes t Hwf _ n Hy) as ((d' & Hd' & Hk' & Hb') & _). simplify_eq. destruct Hk3; [done|lia].
    + destruct (w_slotpages t Hwf x b') as (d' & Hd' & Hk'); [lia|done|]. simplify_eq. by destruct Hk'.
  - intros (e & He & E). destruct (ud_data _ _ _ _ _ Hud e He) as (_ & de & Hde & _). apply dsc_bound in Hde.
    apply slotPage_inj in E as ->; [|lia..]. apply Hx. by apply list_elem_of_fmap_2.
  - by rewrite (up_store _ _ _ (ud_fx _ _ _ _ _ Hud)).
Qed.
Lemma upd_version x cp : (x, cp) ∈ L -> cp_Retained cp = true -> carries st s (fun y => y ∈ U x \/ y ∈ bs x).
Proof.
  intros Hin Hr. pose proof (sd_ledger _ _ _ _ _ _ _ _ _ Hst) as Hlg. pose proof (ud_fx _ _ _ _ _ Hud) as Hu.
  split; [apply upd_size|apply upd_next|]. intros y b [Hy|Hy] Hb.
  - destruct (lg_uses _ _ _ _ _ Hlg x cp y Hin Hr Hy) as (d & Hd & Hk & Hbi).
    pose proof (catalog_pe _ _ _ _ (lg_catalog _ _ _ _ _ Hlg) Hin Hr) as Hpe.
    destruct (up_live _ _ _ Hu y d Hd) as (d' & Hd' & Hb' & Hc'); [by destruct Hk as [-> | [-> | ->]]|].
    assert (payload_kind (Kind d')) as Hk' by (destruct Hc' as [->|[_ ->]]; [done|right; by right]).
    apply (upd_kept y d'); [done|by destruct Hk' as [-> | [-> | ->]]..|right; rewrite Hb', (up_pe _ _ _ Hu); lia| |done].
    intros (e & -> & He)%list_elem_of_fmap. destruct (ud_data _ _ _ _ _ Hud e He) as (_ & de & Hde & _ & Hbt). simplify_eq.
    rewrite Hb', (up_pe _ _ _ Hu) in Hbt. lia.
  - destruct (owners_bitmap _ _ _ _ _ x y (lg_owners _ _ _ _ _ Hlg) (slots_in _ _ _ Hin) Hy) as (d & Hd & Hk).
    destruct (update_bitmap _ _ _ y d Hu) as [Hd' Hr']; [|done|done|set_solver|].
    { by eapply bitmap_not_protected; [apply (sd_ready _ _ _ _ _ _ _ _ _ Hst)|exact Hd|]. }
    rewrite <- read_begin. eapply (read_slot_published t s upd_ready _ upd_scratch Hpu y d b Hd'); [by rewrite Hk..| |by rewrite Hr', read_begin].
    by eapply bitmap_not_node; [apply upd_ready|exact Hd'|].
Qed.
(** A mapped block whose payload is not queued keeps its page. *)
Lemma upd_page x : x ∈ slot <$> l' -> x ∉ dw_slot <$> t_data t -> x ∈ slot <$> l ->
  readable s x /\ page_at (s_file s) (slotPage x) = page_at (s_file st) (slotPage x).
Proof.
  intros Hx Hn Hl. destruct (proj2 (ud_payload _ _ _ _ _ Hud) x Hx) as (d & Hd & Hk).
  apply (carries_page st s (fun y => y = x)); [|done|by eapply sd_readable]. split; [apply upd_size|apply upd_next|].
  intros y b -> Hb. apply (upd_kept x d); [done|by rewrite Hk..|left; by rewrite Hk|done|done].
Qed.
Lemma upd_written d : d ∈ t_data t -> readable s (dw_slot d) /\ crypt c (page_at (s_file s) (slotPage (dw_slot d))) (dw_block d) false = dw_data d.
Proof.
  intros Hd. destruct (ud_data _ _ _ _ _ Hud d Hd) as (Hpg & de & Hde & _). apply dsc_bound in Hde. split.
  - eexists. apply readFull_Ok. split; [|done]. split; [|by eapply commit_data_flen]. pose proof (slotPage_area (dw_slot d) ltac:(lia)). unfold slotAreaPage in *. lia.
  - rewrite (cm_payload _ _ _ upd_committed) by (done || by eapply updated_nodup). by apply crypt_inverse.
Qed.
Lemma upd_grows n : Next (t_ctrl t) <= Next (s_ctrl st) + n -> grows n st s.
Proof. intros Hn. split; [apply upd_size|]. pose proof (pu_field t s _ Hpu Next ltac:(done)) as E. cbn in E. lia. Qed.
Lemma upd_stands g A' : scan_ok g L -> a_size A' = a_size A -> a_versions A' = a_versions A ->
  (forall e, e ∈ l' -> slot e ∉ dw_slot <$> t_data t -> slot e ∈ slot <$> l) ->
  (forall k, in_disk st k -> k ∉ dw_block <$> t_data t -> a_cells A' k = cell_at c (s_file st) B' l' k) ->
  (forall d, d ∈ t_data t -> Has B' (dw_block d) = true /\ a_cells A' (dw_block d) = Held (dw_data d)) ->
  models c g s A'.
Proof.
  intros Hg Hsize Hv Hold Hkeep Hnew. pose proof (sd_ready _ _ _ _ _ _ _ _ _ Hst) as Hr0. destruct Hud as [Hu (fp' & Hm) Hps Hp Hd Hb Hs].
  pose proof upd_committed as [Hpub Hr _]. pose proof upd_scratch as HX. pose proof upd_size as Hsz.
  assert (ledger_tx (begin st) L gs bs U) as Hlg0 by (split; [apply Hst|set_solver]).
  destruct (update_ledger _ _ _ _ _ _ _ Hu Hlg0) as (L' & gs' & [Hlg _] & Hrc).
  pose proof (commit_presence c t B' s upd_ready Hc Hd Hp) as Hpk. rewrite (up_store _ _ _ Hu) in Hpk. cbn [begin store] in Hpk.
  destruct (Hpk (sd_disk _ _ _ _ _ _ _ _ _ Hst) Hcm) as [Hmem Hdisk].
  pose proof (dsc_published t s upd_ready _ HX Hpub) as Hdsc.
  assert (forall x, x ∈ slot <$> l' -> readable s x) as Hrd.
  { intros x (e & -> & He)%list_elem_of_fmap. destruct (decide (slot e ∈ dw_slot <$> t_data t)) as [Hin|Hin].
    - apply list_elem_of_fmap in Hin as (d & -> & Hin). by apply upd_written.
    - apply upd_page; [by apply list_elem_of_fmap_2|done|by apply Hold]. }
  exists l', fp', L', gs', bs, U. split; [|by eapply scan_recharged]. split; [rewrite Hsize, Hsz; apply Hst|done| | | |done| | | | |].
  - intros x d. rewrite Hdsc, (pu_field t s _ Hpub Epoch) by done. apply (up_born _ _ _ Hu), Hst.
  - pose proof (mapping_published t s upd_ready _ HX Hpub _ _ _ _ Hm) as Hm'. by rewrite <- (pu_field t s _ Hpub Root) in Hm' by done.
  - destruct Hps as [Hnd Hks]. split; [done|]. intros x Hx. rewrite Hdsc. by apply Hks.
  - rewrite Hmem, Hsz. pose proof (pr_ok _ _ Hp) as Hok. by rewrite (up_store _ _ _ Hu) in Hok.
  - rewrite Hmem, Hsz. by rewrite (up_store _ _ _ Hu) in Hdisk.
  - eapply ledger_published; [apply upd_ready|exact HX|exact Hpub|by apply ledger_charged].
  - intros k Hk. unfold in_disk in Hk. rewrite Hsz in Hk. rewrite Hmem.
    destruct (decide (k ∈ dw_block <$> t_data t)) as [Hin|Hin].
    + apply list_elem_of_fmap in Hin as (d & -> & Hin). destruct (Hnew d Hin) as [HB ->]. unfold cell_at. rewrite HB, <- (Hs d Hin).
      destruct (Hd d Hin) as (_ & de & Hde & _). apply dsc_bound in Hde. rewrite (proj2 (Z.eqb_neq _ _)) by lia. f_equal. by apply upd_written.
    + rewrite Hkeep by done. apply cell_at_ext. intros Hne. apply assoc_found in Hne as Hel.
      assert (assoc k l' ∉ dw_slot <$> t_data t) as Hnd.
      { intros (d & E & Hdin)%list_elem_of_fmap. apply Hin. apply list_elem_of_fmap. exists d. split; [|done].
        assert (mkEntry (dw_block d) (dw_slot d) ∈ l') as Hel2 by (rewrite (Hs d Hdin); apply assoc_found; by rewrite <- (Hs d Hdin), <- E).
        by pose proof (slots_inj l' _ _ (proj1 Hps) Hel Hel2 E) as [= -> _]. }
      apply upd_page; [by apply (list_elem_of_fmap_2 slot) in Hel|done|by apply (Hold _ Hel)].
  - rewrite Hv. eapply versions_carry; [apply Hr0| |exact Hrc|apply Hst]. apply upd_version.
Qed.
End Committing.

(** ** Changes outside the store's records *)

(** The file changed only in pages no record is in: those of unused slots, of the
    blocks' own payload, and of descriptors not in use yet. *)
Definition loose (st : Store) (q : Z) : Prop := spare (begin st) q \/
  exists x d, 1 <= x /\ q = slotPage x /\ dsc (begin st) x = Some d /\ Kind d = kindData /\ pe (begin st) < Birth d.
Definition with_cells (f : Z -> cell) (A : astore) : astore := mkAstore (a_size A) f (a_versions A).
Section Scratch.
Context (c : option xts_cipher) (st : Store) (l : list entry) (fp : list Z) (L : list (Z * checkpoint)) (gs bs U : Z -> list Z) (A : astore).
Context (Hst : stands c st l fp L gs bs U A) (X : Z -> Prop) (s : Store).
Context (HX : forall q, X q -> loose st q).
Context (Hpu : publishes (begin st) X s) (Hpres : s_presence s = s_presence st) (Hfl : slotAreaPage <= flen (s_file s)).
Context (Hidle : log_idle (page_at (s_file s) logCommitPage)) (Hctrl : decodeControl (page_at (s_file s) 1) = Ok (s_ctrl s)).

Lemma scratch_loose : scratch (begin st) X.
Proof.
  intros q [(x & Hx & [[Hun ->]|(? & -> & ?)])|(x & d & Hx & -> & Hd & Hk & _)]%HX.
  - left. exists x. split_and!; try done. intros d Hd. right. by eapply unused_live.
  - right. by exists x.
  - left. exists x. split_and!; try done. intros d' Hd'. simplify_eq. by left.
Qed.
Lemma scratch_kept q b : q <> 1 -> ~ log_page q -> ~ X q -> readFull (s_file st) q = Ok b -> readFull (s_file s) q = Ok b.
Proof. intros H1 H2 Hq Hb. by apply (pu_kept _ _ _ Hpu). Qed.
Lemma scratch_carries Y : (forall x, Y x -> 1 <= x /\ ~ X (slotPage x)) -> carries st s Y.
Proof.
  intros HY. split.
  - apply (pu_size _ _ _ Hpu).
  - pose proof (pu_field _ s _ Hpu Next ltac:(done)) as E. cbn in E. lia.
  - intros x b Hx Hb. destruct (HY x Hx) as [H1 Hn]. destruct (slot_page_ok x H1). by apply scratch_kept.
Qed.
Lemma used_slot x d : dsc (begin st) x = Some d -> Kind d <> kindFree -> Kind d <> kindData \/ Birth d <= pe (begin st) -> 1 <= x /\ ~ X (slotPage x).
Proof.
  intros Hd Hk Hp. apply dsc_bound in Hd as Hb. split; [lia|]. intros [(y & Hy & [[Hun E]|(_ & E & _)])|(y & d' & Hy & E & Hd' & Hk' & Hb')]%HX.
  - apply slotPage_inj in E as <-; [|lia..]. by apply (unused_live _ _ _ Hun) in Hd.
  - apply slotPage_descriptorPage in E; [done|lia..].
  - apply slotPage_inj in E as <-; [|lia..]. simplify_eq. destruct Hp; [done|lia].
Qed.
Lemma scratch_owned x cp : (x, cp) ∈ L -> cp_Retained cp = true -> carries st s (fun y => y ∈ U x \/ y ∈ bs x).
Proof.
  intros Hin Hret. pose proof (sd_ledger _ _ _ _ _ _ _ _ _ Hst) as Hlg. apply scratch_carries. intros y [Hy|Hy].
  - destruct (lg_uses _ _ _ _ _ Hlg x cp y Hin Hret Hy) as (d & Hd & Hk & Hb).
    pose proof (catalog_pe _ _ _ _ (lg_catalog _ _ _ _ _ Hlg) Hin Hret).
    apply (used_slot y d Hd); [by destruct Hk as [-> | [-> | ->]]|right; lia].
  - destruct (owners_bitmap _ _ _ _ _ x y (lg_owners _ _ _ _ _ Hlg) (slots_in _ _ _ Hin) Hy) as (d & Hd & Hk).
    apply (used_slot y d Hd); [by rewrite Hk|left; by rewrite Hk].
Qed.
(** The records stand, over whatever the blocks read now. *)
Lemma scratch_stands f : (forall x, x ∈ slot <$> l -> readable s x) ->
  (forall k, in_disk st k -> f k = cell_at c (s_file s) (s_presence st) l k) -> stands c s l fp L gs bs U (with_cells f A).
Proof.
  intros Hrs Hf. pose proof Hst as [Hse Hr Hbn Hm Hps Hrd HB Hdk Hlg Hnow Hvs]. pose proof scratch_loose as HXs. pose proof (pu_size _ _ _ Hpu) as Hsz. cbn in Hsz.
  pose proof (dsc_published _ s Hr _ HXs Hpu) as Hdsc. split; cbn [with_cells a_size a_cells a_versions]; try done.
  - by rewrite Hsz.
  - by eapply ready_begin.
  - intros x d. rewrite Hdsc, (pu_field _ s _ Hpu Epoch) by done. apply Hbn.
  - pose proof (mapping_published _ s Hr _ HXs Hpu _ _ _ _ Hm) as Hm'. pose proof (pu_field _ s _ Hpu Root ltac:(done)) as E. cbn in E. by rewrite E.
  - destruct Hps as [Hnd Hks]. split; [done|]. intros x Hx. rewrite Hdsc. by apply Hks.
  - by rewrite Hpres, Hsz.
  - rewrite Hpres, Hsz. intros i Hi. destruct (Hdk i Hi) as (b & Hb & He). exists b. split; [|done].
    pose proof (presence_below (begin st) i (rd_size _ Hr) Hi) as Hlt. apply scratch_kept; try done.
    + unfold presenceAreaPage. lia.
    + unfold log_page, presenceAreaPage. change (logImagesPage + maxLogPages) with 1542. lia.
    + intros [(x & Hx & [[_ E]|(_ & E & _)])|(x & _ & Hx & E & _)]%HX; [pose proof (slotPage_area x Hx)|pose proof (descriptorPage_area x Hx)|pose proof (slotPage_area x Hx)]; lia.
  - eapply ledger_published; [done|exact HXs|exact Hpu|by apply ledger_charged].
  - intros k Hk. unfold in_disk in *. rewrite Hsz in Hk. rewrite Hpres. by rewrite Hf.
  - eapply versions_carry; [apply Hr| |apply recharged_refl|exact Hvs]. apply scratch_owned.
Qed.
(** The blocks whose payload is elsewhere read as before. *)
Lemma scratch_block k : in_disk st k -> (assoc k l <> 0 -> ~ X (slotPage (assoc k l))) -> cell_at c (s_file s) (s_presence st) l k = a_cells A k.
Proof.
  intros Hk Hn. rewrite <- (sd_now _ _ _ _ _ _ _ _ _ Hst) by done. apply cell_at_ext. intros Hne.
  apply assoc_found, (list_elem_of_fmap_2 slot) in Hne as Hel. destruct (proj2 (sd_payload _ _ _ _ _ _ _ _ _ Hst) _ Hel) as (d & Hd & _).
  apply dsc_bound in Hd. cbn in Hd. apply (carries_page st s (fun y => y = assoc k l)); [apply scratch_carries|done|by apply (sd_readable _ _ _ _ _ _ _ _ _ Hst)].
  intros x ->. split; [lia|apply Hn; lia].
Qed.
Lemma scratch_steady : steady st s.
Proof.
  pose proof (sd_ready _ _ _ _ _ _ _ _ _ Hst) as Hr. split; [apply (pu_size _ _ _ Hpu)|exact (pu_field _ s _ Hpu Next ltac:(done))|exact (pu_field _ s _ Hpu Epoch ltac:(done))| |].
  2: { intros id. apply (names_unnamed st s L L); [apply Hst| |done].
    eapply lg_catalog, ledger_published; [done|exact scratch_loose|exact Hpu|apply ledger_charged, Hst]. }
  intros n Hn.
  pose proof (mapping_published _ s Hr _ scratch_loose Hpu _ _ _ _ (shallow_mapping _ _ _ _ _ Hn (sd_map _ _ _ _ _ _ _ _ _ Hst))) as Hm.
  apply (mapping_shallow s n l fp). pose proof (pu_field _ s _ Hpu Root ltac:(done)) as E. cbn in E. by rewrite E.
Qed.
(** Nothing changes when the pages are those of unused slots. *)
Lemma scratch_same : (forall x, 1 <= x -> X (slotPage x) -> unused (begin st) x) -> stands c s l fp L gs bs U A.
Proof.
  intros Hun. assert (forall x, x ∈ slot <$> l -> 1 <= x /\ ~ X (slotPage x)) as Hl.
  { intros x Hx. destruct (proj2 (sd_payload _ _ _ _ _ _ _ _ _ Hst) x Hx) as (d & Hd & Hk). apply dsc_bound in Hd as Hb. split; [lia|].
    intros H%Hun; [|lia]. apply (unused_live _ _ _ H) in Hd. by rewrite Hk in Hd. }
  replace A with (with_cells (a_cells A) A) by (by destruct A). apply scratch_stands.
  - intros x Hx. destruct (Hl x Hx). apply (carries_page st s (fun y => y = x)); [apply scratch_carries; by intros ? ->|done|by eapply sd_readable].
  - intros k Hk. symmetry. apply scratch_block; [done|]. intros E. apply Hl. by apply assoc_found, (list_elem_of_fmap_2 slot) in E.
Qed.
End Scratch.

(** ** Giving up a transaction *)

Lemma punches_page slots f q : page_at (fold_left (fun f s => punchPage f (slotPage s)) slots f) q =
  if decide (q ∈ slotPage <$> slots) then zeroPage else page_at f q.
Proof.
  revert f. induction slots as [|x slots IH]; intros f; [done|]. cbn [fold_left fmap list_fmap]. rewrite IH. unfold page_at at 1. cbn [punchPage fpages].
  destruct (decide (q ∈ slotPage <$> slots)); [by rewrite decide_True by (by right)|]. destruct (decide (q = slotPage x)) as [->|Hne].
  - rewrite lookup_delete_eq, decide_True by (by left). done.
  - rewrite lookup_delete_ne, decide_False by set_solver. done.
Qed.
Lemma punches_flen slots f : flen (fold_left (fun f s => punchPage f (slotPage s)) slots f) = flen f.
Proof. revert f. induction slots as [|x slots IH]; intros f; [done|]. cbn. by rewrite IH. Qed.
Definition rolled (t : transaction) (st : Store) : Store := mkStore (rollback t (s_file st)) (s_ctrl st) (s_presence st) (s_size st).
Lemma rollback_models c g st t A : models c g st A -> (forall x, x ∈ allocated t -> unused (begin st) x /\ 1 <= x) ->
  models c g (rolled t st) A /\ steady st (rolled t st).
Proof.
  intros (l & fp & L & gs & bs & U & Hst & Hg) Hal. pose proof (sd_ready _ _ _ _ _ _ _ _ _ Hst) as Hr. set (X := fun q => q ∈ slotPage <$> allocated t).
  assert (forall q, X q -> exists x, 1 <= x /\ q = slotPage x /\ unused (begin st) x) as HX.
  { intros q (x & -> & Hx)%list_elem_of_fmap. destruct (Hal x Hx). by exists x. }
  assert (forall q, ~ X q -> page_at (rollback t (s_file st)) q = page_at (s_file st) q) as Hpg.
  { intros q Hq. unfold rollback. by rewrite punches_page, decide_False. }
  assert (flen (rollback t (s_file st)) = flen (s_file st)) as Hfl by apply punches_flen.
  assert (forall q, q < slotAreaPage -> ~ X q) as Hlow by (intros q Hq (x & Hx & -> & _)%HX; pose proof (slotPage_area x Hx); lia).
  assert (publishes (begin st) X (rolled t st)) as Hpu.
  { split; cbn [rolled s_size s_ctrl s_file]; [done|by left|done| |].
    - intros q b _ _ _ Hq [Hb <-]%readFull_Ok. apply readFull_Ok. cbn in Hb. by rewrite Hfl, Hpg.
    - intros q. unfold rollback. rewrite punches_page. case_decide; [apply zeroPage_ok|]. by apply paged_file, Hr. }
  assert (slotAreaPage <= flen (s_file (rolled t st))) as H1 by (cbn; rewrite Hfl; apply (rd_flen _ Hr)).
  assert (log_idle (page_at (s_file (rolled t st)) logCommitPage)) as H2 by (cbn; rewrite Hpg; [apply (rd_idle _ Hr)|by apply Hlow]).
  assert (decodeControl (page_at (s_file (rolled t st)) 1) = Ok (s_ctrl (rolled t st))) as H3 by (cbn; rewrite Hpg; [apply (rd_ctrl _ Hr)|by apply Hlow]).
  assert (forall q, X q -> loose st q) as HXl by (intros q (x & Hx & -> & Hun)%HX; left; exists x; auto).
  split; [exists l, fp, L, gs, bs, U; split; [|done]; apply (scratch_same c st l fp L gs bs U A Hst X); try done|
    by apply (scratch_steady c st l fp L gs bs U A Hst X)].
  by intros x Hx (y & Hy & ->%slotPage_inj & Hun)%HX.
Qed.

(** ** One attempt at a mutation *)

Section Attempt.
Context (c : option xts_cipher) (fallocate : file -> Z -> Z -> dres unit) (ctx : dres unit) (Hc : cipher_ok c).

Lemma reserve_commit_ok t s : reserve_commit c fallocate t = Ok s -> commit c t = Ok s.
Proof. intros (pl & _ & (_ & _ & H)%res_bind_Ok)%res_bind_Ok. done. Qed.
(** What a body leaves behind: a handle that shows [A], and, when it succeeds, a
    transaction whose commit gives a store with the property [R]. *)
Definition prepares (R : Store -> Prop) (A : astore) (h : handle) (x : dres transaction * handle) : Prop :=
  let (r, h1) := x in
  models c (h_gc h) (h_store h1) A /\ h_gc h1 = h_gc h /\ steady (h_store h) (h_store h1) /\
  match r with
  | Err _ => True
  | Ok t => (forall x, x ∈ allocated t -> unused (begin (h_store h1)) x /\ 1 <= x) /\ forall s, commit c t = Ok s -> R s
  end.
Lemma fail_same e h : h_gc (fail_handle e h) = h_gc h /\ h_store (fail_handle e h) = h_store h.
Proof. unfold fail_handle. by destruct (h_fatal h). Qed.
Lemma mutateOnce_spec R fn budget h A : models c (h_gc h) (h_store h) A -> prepares R A h (fn (begin (h_store h)) h) ->
  let (r, h') := mutateOnce c fallocate ctx fn budget h in
  h_gc h' = h_gc h /\
  match r with Ok _ => R (h_store h') | Err _ => models c (h_gc h) (h_store h') A /\ steady (h_store h) (h_store h') end.
Proof.
  intros Hm Hfn. unfold mutateOnce, op_bind, lift. pose proof (steady_refl (h_store h)) as Hs. destruct ctx as [[]|e]; [|done].
  destruct (fn (begin (h_store h)) h) as [[t|e] h1]; destruct Hfn as (Hm1 & Hg1 & Hs1 & Ht); last first.
  { destruct (benign e); [done|]. unfold fail. destruct (fail_same e h1) as [-> ->]. done. }
  destruct Ht as [Hal Hcm]. destruct (_ && _); [done|]. destruct (reserve_commit c fallocate t) as [s|e] eqn:E.
  - apply reserve_commit_ok in E. split; [done|]. by apply Hcm.
  - destruct (rollback_models c _ _ t A Hm1 Hal) as [Hm2 Hs2]. pose proof (steady_trans _ _ _ Hs1 Hs2) as Hs3.
    destruct e; unfold fail, fail_handle; cbn [punch_file set_store h_fatal]; destruct (h_fatal h1); done.
Qed.
End Attempt.

(** ** Writing and discarding blocks *)

Lemma mapping_length t n root l fp : tx_wf t -> mapping t n root l fp -> Z.of_nat (length l) <= Z.max 0 (total t).
Proof.
  intros Hwf Hm. pose proof (mp_sorted _ _ _ _ _ Hm) as Hs. destruct (decide (root = 0)) as [->|Hr].
  { destruct Hm as [[(_ & -> & _)|(h & _ & Ht)] _ _ _]; [cbn; lia|apply tree_body in Ht as [? _]; lia]. }
  destruct (mapping_bounds _ _ _ _ _ Hwf Hm Hr) as (h & _ & Ht & _). pose proof (tree_entries _ _ _ _ _ Hwf Ht) as Hin.
  assert (NoDup (key <$> l)) as Hnd.
  { clear -Hs. induction Hs as [|e l Hs IH Hf]; [constructor|]. cbn. apply NoDup_cons. split; [|done].
    intros (x & E & Hx)%list_elem_of_fmap. rewrite Forall_forall in Hf. specialize (Hf x Hx). cbn in Hf. lia. }
  assert (length (key <$> l) <= length (z_range 0 (total t)))%nat as Hle.
  { apply submseteq_length, NoDup_submseteq; [done|]. intros k (e & -> & He)%list_elem_of_fmap. rewrite Forall_forall in Hin. apply z_range_elem. by apply Hin. }
  unfold z_range in Hle. rewrite !length_fmap, length_seq in Hle. lia.
Qed.

Definition a_write (part : list page) (A : astore) : astore :=
  mkAstore (a_size A) (fun k => if bool_decide (k ∈ Block <$> part) then Held (batch_data part k) else a_cells A k) (a_versions A).
Definition a_discard (runs : list (Z * Z)) (A : astore) : astore :=
  mkAstore (a_size A) (fun k => if bool_decide (in_runs k runs) then Zeroed else a_cells A k) (a_versions A).

Lemma begin_pres c st l fp L gs bs U A : stands c st l fp L gs bs U A -> pres (begin st) (s_presence st).
Proof. intros Hst. split; [apply Hst|apply Hst|apply Hst|]. intros i _. cbn. by rewrite lookup_empty. Qed.
Lemma upd_allocated st F t l B x : updated st F t l B -> x ∈ allocated t -> unused (begin st) x /\ 1 <= x.
Proof. intros Hud Hx. destruct (update_allocated _ _ _ x (ud_fx _ _ _ _ _ Hud) Hx) as [?%elem_of_nil|?]; done. Qed.
(** The body of a write runs, and its commit shows the new blocks. *)
Lemma write_tx c g st A part l fp L gs bs U : cipher_ok c -> stands c st l fp L gs bs U A -> scan_ok g L -> shallow st (pred maxDepth) ->
  Next (s_ctrl st) + write_cost <= maxSlot + 1 -> Forall (valid_page (s_size st)) part -> (length part <= 64)%nat ->
  exists t l', write_body part (begin st) = Ok t /\ updated st (fp ++ (slot <$> l)) t l' (set_blocks (batch_order [] part) (s_presence st)) /\
    (forall k, k ∉ Block <$> part -> assoc k l' = assoc k l) /\ (forall b, b ∈ dw_block <$> t_data t <-> b ∈ Block <$> part) /\
    forall s, commit c t = Ok s -> models c g s (a_write part A) /\ grows write_cost st s.
Proof.
  intros Hc Hst Hg Hsh Hroom Hv Hlen.
  pose proof (shallow_mapping _ _ _ _ _ Hsh (sd_map _ _ _ _ _ _ _ _ _ Hst)) as Hm.
  destruct (write_body_spec st l fp (s_presence st) part) as (t & l' & Hw & Hud & Hk & Hda & Hnx); [apply Hst|done|apply Hst|by eapply begin_pres|done..|].
  set (order := batch_order [] part) in *. assert (forall b, b ∈ order <-> b ∈ Block <$> part) as Hord.
  { intros b. unfold order. rewrite (proj2 (batch_order_spec [] part)). split; [by intros []|]. intros ?. split; [done|apply not_elem_of_nil]. }
  assert (forall b, b ∈ order -> 0 <= b < s_size st / PageSize) as Hrange.
  { intros b (p & -> & Hp)%Hord%list_elem_of_fmap. rewrite Forall_forall in Hv. by apply Hv. }
  pose proof (sd_ready _ _ _ _ _ _ _ _ _ Hst) as Hr. pose proof (rd_size _ Hr) as [Hvs _].
  assert (forall k, 0 <= k -> Has (set_blocks order (s_presence st)) k = bool_decide (k ∈ order) || Has (s_presence st) k) as HB.
  { intros k Hk0. apply (Has_set_blocks (s_size st)); [apply Hst|done|apply Forall_forall; exact Hrange|done]. }
  assert (dw_block <$> t_data t = order) as Hblk.
  { rewrite Hda, <- list_fmap_compose. rewrite <- (list_fmap_id order) at 2. by apply list_fmap_ext. }
  exists t, l'. split_and!; [done..|by intros b; rewrite Hblk|]. intros s Hcm.
  split; [|by eapply upd_grows]. eapply (upd_stands c st l fp L gs bs U A Hst Hc _ t l' _ s Hud Hcm g (a_write part A) Hg eq_refl eq_refl).
  - intros e He Hn. destruct (decide (key e ∈ order)) as [Hin|Hin].
    + exfalso. apply Hn. rewrite Hda, <- list_fmap_compose. apply list_elem_of_fmap. exists (key e). split; [|done]. cbn.
      destruct (ud_map _ _ _ _ _ Hud) as (f & Hm'). by rewrite (assoc_elem e l' (mp_sorted _ _ _ _ _ Hm') He).
    + destruct (ud_map _ _ _ _ _ Hud) as (f & Hm'). pose proof (assoc_elem e l' (mp_sorted _ _ _ _ _ Hm') He) as E. rewrite Hk in E by (by rewrite <- Hord).
      destruct (proj2 (ud_payload _ _ _ _ _ Hud) (slot e)) as (d & Hd & _); [by apply list_elem_of_fmap_2|]. apply dsc_bound in Hd.
      rewrite <- E. apply (list_elem_of_fmap_2 slot _ (mkEntry (key e) (assoc (key e) l))), assoc_found. lia.
  - intros k Hin. rewrite Hblk. intros Hn. cbn. rewrite bool_decide_eq_false_2 by (by rewrite <- Hord). rewrite <- (sd_now _ _ _ _ _ _ _ _ _ Hst) by done.
    unfold cell_at. rewrite HB, bool_decide_eq_false_2, Hk by (apply Hin || done || by rewrite <- Hord). done.
  - rewrite Hda. intros d (b & -> & Hb)%list_elem_of_fmap. cbn. rewrite HB, !bool_decide_eq_true_2 by (done || by apply Hord || by apply Hrange). done.
Qed.
Lemma write_models c g st A part : cipher_ok c -> models c g st A -> shallow st (pred maxDepth) -> Next (s_ctrl st) + write_cost <= maxSlot + 1 ->
  Forall (valid_page (s_size st)) part -> (length part <= 64)%nat ->
  exists t, write_body part (begin st) = Ok t /\ (forall x, x ∈ allocated t -> unused (begin st) x /\ 1 <= x) /\
    forall s, commit c t = Ok s -> models c g s (a_write part A) /\ grows write_cost st s.
Proof.
  intros Hc (l & fp & L & gs & bs & U & Hst & Hg) Hsh Hroom Hv Hlen.
  destruct (write_tx c g st A part l fp L gs bs U Hc Hst Hg Hsh Hroom Hv Hlen) as (t & l' & Hw & Hud & _ & _ & Hs).
  exists t. split; [done|]. split; [intros x; by eapply upd_allocated|done].
Qed.
Lemma discard_tx c g st A runs h l fp L gs bs U : cipher_ok c -> stands c st l fp L gs bs U A -> scan_ok g L ->
  Next (s_ctrl st) + 2 * Z.of_nat maxDepth * (s_size st / PageSize) * Z.of_nat (length runs) <= maxSlot + 1 -> Forall (valid_run (s_size st)) runs ->
  exists t F l' B', discard_body runs (begin st) h = (Ok t, h) /\ updated st F t l' B' /\ t_data t = [] /\
    forall s, commit c t = Ok s -> models c g s (a_discard runs A) /\
      grows (2 * Z.of_nat maxDepth * (s_size st / PageSize) * Z.of_nat (length runs)) st s.
Proof.
  intros Hc Hst Hg Hroom Hv. pose proof (sd_ready _ _ _ _ _ _ _ _ _ Hst) as Hr. pose proof (rd_size _ Hr) as [Hvs _].
  assert (0 <= s_size st / PageSize) as H0 by (destruct Hvs as [[? ?] _]; cbn in *; apply Z.div_pos; [lia|done]).
  pose proof (mapping_length _ _ _ _ _ (rd_wf _ Hr) (sd_map _ _ _ _ _ _ _ _ _ Hst)) as Hlen. unfold total in Hlen. cbn [begin store] in Hlen.
  destruct (discard_body_spec st l fp (s_presence st) runs h) as (t & Hb & Hud & Hda & Hnx); [apply Hst|apply Hst|apply Hst|by eapply begin_pres|done| |].
  { unfold discard_cost. nia. }
  assert (forall k, 0 <= k -> Has (marked runs (s_presence st)) k = bool_decide (in_runs k runs) || Has (s_presence st) k) as HB.
  { intros k Hk. apply (Has_marked (s_size st)); [done|apply Hst| |done]. eapply Forall_impl; [exact Hv|]. intros r [? ?]. split; [lia|done]. }
  eexists t, _, _, _. split; [done|]. split; [exact Hud|]. split; [done|]. intros s Hcm.
  split; [|eapply upd_grows; [done..|unfold discard_cost in Hnx; nia]].
  eapply (upd_stands c st l fp L gs bs U A Hst Hc _ t _ _ s Hud Hcm g (a_discard runs A) Hg eq_refl eq_refl).
  - intros e He _. apply list_elem_of_fmap_2. clear -He. unfold discarded in He. revert l He. induction runs as [|r runs IH]; intros l He; [done|].
    apply IH in He. by apply list_elem_of_filter in He as [_ ?].
  - intros k Hk _. cbn. unfold cell_at. rewrite HB, assoc_discarded by apply Hk. destruct (decide (in_runs k runs)) as [Hin|Hin].
    + by rewrite !bool_decide_eq_true_2.
    + rewrite !bool_decide_eq_false_2 by done. rewrite <- (sd_now _ _ _ _ _ _ _ _ _ Hst) by done. done.
  - rewrite Hda. intros d []%elem_of_nil.
Qed.
Lemma discard_models c g st A runs h : cipher_ok c -> models c g st A ->
  Next (s_ctrl st) + 2 * Z.of_nat maxDepth * (s_size st / PageSize) * Z.of_nat (length runs) <= maxSlot + 1 -> Forall (valid_run (s_size st)) runs ->
  exists t, discard_body runs (begin st) h = (Ok t, h) /\ (forall x, x ∈ allocated t -> unused (begin st) x /\ 1 <= x) /\
    forall s, commit c t = Ok s -> models c g s (a_discard runs A) /\
      grows (2 * Z.of_nat maxDepth * (s_size st / PageSize) * Z.of_nat (length runs)) st s.
Proof.
  intros Hc (l & fp & L & gs & bs & U & Hst & Hg) Hroom Hv.
  destruct (discard_tx c g st A runs h l fp L gs bs U Hc Hst Hg Hroom Hv) as (t & F & l' & B' & Hb & Hud & _ & Hs).
  exists t. split; [done|]. split; [intros x; by eapply upd_allocated|done].
Qed.

(** ** Transactions on the versions *)

(** A transaction that moves no block: it shows the same mapping and bitmap, and the
    slots [Y] read as before. *)
Record meta_tx (st : Store) (l : list entry) (fp : list Z) (t : transaction) (Y : Z -> Prop) : Prop := {
  mt_ready : ready t;
  mt_nodes : t_nodes t = ∅;
  mt_data : t_data t = [];
  mt_size : s_size (store t) = s_size st;
  mt_presence : s_presence (store t) = s_presence st;
  mt_disk : file_pres (readFull (s_file (store t))) (s_size st) (s_presence st);
  mt_next : Next (s_ctrl st) <= Next (t_ctrl t);
  mt_pres : pres t (s_presence st);
  mt_map : forall n, mapping (begin st) n (Root (s_ctrl st)) l fp -> mapping t n (Root (t_ctrl t)) l fp;
  mt_payload : payload_slots t (slot <$> l);
  mt_born : born t;
  mt_read : forall x b, Y x -> 1 <= x /\ (readFull (s_file st) (slotPage x) = Ok b -> read t (slotPage x) = Ok b);
  mt_blocks : forall x, x ∈ slot <$> l -> Y x }.
Section MetaCommit.
Context (c : option xts_cipher) (st : Store) (l : list entry) (fp : list Z) (L : list (Z * checkpoint)) (gs bs U : Z -> list Z) (A : astore).
Context (Hst : stands c st l fp L gs bs U A) (Hc : cipher_ok c).
Context (t : transaction) (Y : Z -> Prop) (Hmt : meta_tx st l fp t Y) (s : Store) (Hcm : commit c t = Ok s).

Lemma meta_data_ok : data_ok t.
Proof. intros d. rewrite (mt_data _ _ _ _ _ Hmt). by intros ?%elem_of_nil. Qed.
Lemma meta_committed : committed c t s.
Proof. apply commit_committed; [apply Hmt|done|apply meta_data_ok|done]. Qed.
Local Notation Hpu := (cm_publishes _ _ _ meta_committed).
Lemma meta_scratch : scratch t (data_page t).
Proof. apply data_scratch, meta_data_ok. Qed.
Lemma meta_carries : carries st s Y.
Proof.
  split.
  - by rewrite (pu_size _ _ _ Hpu), (mt_size _ _ _ _ _ Hmt).
  - pose proof (pu_field t s _ Hpu Next ltac:(done)) as E. cbn in E. pose proof (mt_next _ _ _ _ _ Hmt). lia.
  - intros x b Hx Hb. destruct (mt_read _ _ _ _ _ Hmt x b Hx) as [H1 Hrd]. destruct (slot_page_ok x H1). rewrite <- read_begin.
    apply (read_published t s (mt_ready _ _ _ _ _ Hmt) _ Hpu); [by apply Hrd|done|done| |].
    + intros y n. rewrite (mt_nodes _ _ _ _ _ Hmt). by rewrite lookup_empty.
    + intros (d & Hd & _). rewrite (mt_data _ _ _ _ _ Hmt) in Hd. by apply elem_of_nil in Hd.
Qed.
Lemma meta_steady L' : Next (t_ctrl t) = Next (s_ctrl st) -> Epoch (t_ctrl t) = Epoch (s_ctrl st) -> catalog (begin s) L' -> names L' = names L -> steady st s.
Proof.
  intros Hn He Hcat Hnm. split; [apply meta_carries|etransitivity; [exact (pu_field t s _ Hpu Next ltac:(done))|done]|etransitivity; [exact (pu_field t s _ Hpu Epoch ltac:(done))|done]| |].
  2: { intros id. apply (names_unnamed st s L L'); [apply Hst|done|done]. }
  intros n Hsh.
  pose proof (mapping_published t s (mt_ready _ _ _ _ _ Hmt) _ meta_scratch Hpu _ _ _ _ (mt_map _ _ _ _ _ Hmt _ (shallow_mapping _ _ _ _ _ Hsh (sd_map _ _ _ _ _ _ _ _ _ Hst)))) as Hm.
  apply (mapping_shallow s n l fp). pose proof (pu_field t s _ Hpu Root ltac:(done)) as E. cbn in E. by rewrite E.
Qed.
Lemma meta_stands L' gs' bs' U' vs : charged t L' gs' bs' U' -> Forall2 (shows_version c s bs' U') (filter is_retained L') vs ->
  stands c s l fp L' gs' bs' U' (mkAstore (a_size A) (a_cells A) vs).
Proof.
  intros Hch Hvs. pose proof Hst as [Hse _ _ _ Hps Hrd HB Hdk _ Hnow _]. pose proof meta_carries as Hca. pose proof meta_scratch as HX.
  pose proof (mt_ready _ _ _ _ _ Hmt) as Hr. pose proof (dsc_published t s Hr _ HX Hpu) as Hdsc. pose proof (ca_size _ _ _ Hca) as Hsz.
  assert (forall x, x ∈ slot <$> l -> readable s x /\ page_at (s_file s) (slotPage x) = page_at (s_file st) (slotPage x)) as Hpg.
  { intros x Hx. apply (carries_page _ _ _ x Hca); [by eapply mt_blocks|by apply Hrd]. }
  pose proof (commit_presence c t _ s Hr Hc meta_data_ok (mt_pres _ _ _ _ _ Hmt)) as Hpk. rewrite (mt_size _ _ _ _ _ Hmt), (mt_presence _ _ _ _ _ Hmt) in Hpk.
  destruct (Hpk (mt_disk _ _ _ _ _ Hmt) Hcm) as [Hmem Hdisk]. rewrite (mt_size _ _ _ _ _ Hmt) in Hdisk. split; cbn [a_cells a_versions].
  - by rewrite Hsz.
  - apply meta_committed.
  - intros x d. rewrite Hdsc, (pu_field t s _ Hpu Epoch) by done. apply (mt_born _ _ _ _ _ Hmt).
  - pose proof (mapping_published t s Hr _ HX Hpu _ _ _ _ (mt_map _ _ _ _ _ Hmt _ (sd_map _ _ _ _ _ _ _ _ _ Hst))) as Hm'. by rewrite <- (pu_field t s _ Hpu Root) in Hm' by done.
  - destruct (mt_payload _ _ _ _ _ Hmt) as [Hnd Hks]. split; [done|]. intros x Hx. rewrite Hdsc. by apply Hks.
  - intros x Hx. by apply Hpg.
  - by rewrite Hmem, Hsz.
  - by rewrite Hmem, Hsz.
  - by eapply ledger_published; [exact Hr|exact HX|apply Hpu|].
  - intros k Hk. unfold in_disk in Hk. rewrite Hsz in Hk. rewrite Hmem, <- Hnow by done. apply cell_at_ext. intros Hne.
    by apply Hpg, (list_elem_of_fmap_2 slot _ (mkEntry k (assoc k l))), assoc_found.
  - done.
Qed.
End MetaCommit.
