(* ===== verification/Versions.v ===== *)
(** * Versions: what checkpoints, deletions and collection do to the abstract store.

    Taking a version adds the current blocks to the abstract store under a new name.
    Deleting names hides the versions, and removes those that no reader holds.  The
    collector returns slots and forgets hidden versions, and otherwise leaves the
    abstract store as it is, also when the host stops between punching the pages and
    publishing the control page. *)
From stdpp Require Import base numbers list gmap strings sorting relations.
From Stdlib Require Import ZArith Lia.
From S2P Require Import Prelude Page Presence Json Format Tree Tx Demo TreeWrite Retire TreeRemove Sha256 Commit Crash Publish Bitmap Checkpoint GcDemo Gc Accounts Ops Batch Model.

#[local] Opaque Sum256 sealPage checkPage Page.put.

(** ** Versions that change or go *)

(** [thinned K vs vs']: each version of [vs] becomes what [K] says, or goes. *)
Inductive thinned (K : version -> option version -> Prop) : list version -> list version -> Prop :=
| thin_nil : thinned K [] []
| thin_keep v v' vs vs' : K v (Some v') -> thinned K vs vs' -> thinned K (v :: vs) (v' :: vs')
| thin_drop v vs vs' : K v None -> thinned K vs vs' -> thinned K (v :: vs) vs'.
#[local] Hint Constructors thinned : core.
Definition revised (v : version) (q : Z * checkpoint) : option version :=
  if cp_Retained q.2 then Some (mkVersion (v_id v) (cp_Visible q.2) (v_slot v) (v_tree v) (v_uses v) (v_cells v)) else None.

(** [follows st s bs U bs' U' p q]: the record [q] of the store [s] continues [p] of [st]. *)
Definition follows (st s : Store) (bs U bs' U' : Z -> list Z) (p q : Z * checkpoint) : Prop :=
  q.1 = p.1 /\ (is_retained q -> is_retained p /\ cp_ID q.2 = cp_ID p.2 /\ cp_Root q.2 = cp_Root p.2 /\ cp_BitmapDone q.2 = cp_BitmapDone p.2 /\
    bs' p.1 = bs p.1 /\ U' p.1 = U p.1 /\ carries st s (fun y => y ∈ U p.1 \/ y ∈ bs p.1)).
Lemma versions_thin c st s bs U bs' U' K L L' vs : tx_wf (begin st) -> Forall2 (follows st s bs U bs' U') L L' ->
  Forall2 (fun p q => is_retained p -> forall v, cp_ID p.2 = v_id v -> cp_Visible p.2 = v_visible v -> p.1 = v_slot v -> K v (revised v q)) L L' ->
  Forall2 (shows_version c st bs U) (filter is_retained L) vs ->
  exists vs', Forall2 (shows_version c s bs' U') (filter is_retained L') vs' /\ thinned K vs vs'.
Proof.
  intros Hwf Hf. revert vs. induction Hf as [|[x cp] [y cq] L L' [Ey Hpq] Hf IH]; intros vs HK Hvs.
  { apply Forall2_nil_inv_l in Hvs as ->. by exists []. }
  apply Forall2_cons in HK as [Kp HK]. cbn [fst snd] in *. subst y. rewrite filter_cons in Hvs. rewrite filter_cons.
  destruct (decide (is_retained (x, cp))) as [Hr|Hr]; last first.
  { rewrite decide_False by (intros Hq; by apply Hr, Hpq). by apply IH. }
  apply Forall2_cons_inv_l in Hvs as (v & vs1 & (Hid & Hvis & Hbd & (Hsl & Htr & Hus) & Hsh) & Hvs & ->). destruct (IH vs1 HK Hvs) as (vs' & Hvs' & Ht).
  specialize (Kp Hr v Hid Hvis Hsl). unfold revised in Kp. cbn [fst snd] in *. destruct (decide (is_retained (x, cq))) as [Hq|Hq].
  - destruct (Hpq Hq) as (_ & E1 & E2 & E3 & E4 & E5 & Hca). unfold is_retained in Hq. cbn in Hq. rewrite Hq in Kp.
    exists (mkVersion (v_id v) (cp_Visible cq) (v_slot v) (v_tree v) (v_uses v) (v_cells v) :: vs'). split; [|by constructor]. constructor; [|done].
    split; cbn [fst snd v_id v_visible v_slot v_tree v_uses v_cells]; [congruence|]. split; [done|]. split; [congruence|]. split; [split_and!; congruence|]. rewrite E2, E4, E5. by eapply shows_carry.
  - exists vs'. split; [done|]. apply thin_drop; [|done]. unfold is_retained in Hq. cbn in Hq. apply not_true_is_false in Hq. by rewrite Hq in Kp.
Qed.

(** ** Transactions of the collector and of deletions *)

Definition live_slot (st : Store) (x : Z) : Prop := exists d, dsc (begin st) x = Some d /\ Kind d <> kindCheckpoint /\ Kind d <> kindFree.
Lemma carries_weaken st s X Y : carries st s X -> (forall x, Y x -> X x) -> carries st s Y.
Proof. intros [] H. split; auto. Qed.
Lemma owned_live c st l fp L gs bs U A x cp : stands c st l fp L gs bs U A -> (x, cp) ∈ L -> cp_Retained cp = true ->
  forall y, y ∈ U x \/ y ∈ bs x -> live_slot st y.
Proof.
  intros Hst Hin Hr y. pose proof (sd_ledger _ _ _ _ _ _ _ _ _ Hst) as Hlg. intros [Hy|Hy].
  - destruct (lg_uses _ _ _ _ _ Hlg x cp y Hin Hr Hy) as (d & Hd & Hk & _). exists d. by destruct Hk as [-> | [-> | ->]].
  - destruct (owners_bitmap _ _ _ _ _ x y (lg_owners _ _ _ _ _ Hlg) (slots_in _ _ _ Hin) Hy) as (d & Hd & Hk). exists d. by rewrite Hk.
Qed.
Lemma low_pres st t B : pres (begin st) B -> store t = st -> low_same (begin st) t -> pres t B.
Proof.
  intros [Hs Hok Hst Hp] Es Hl. split; rewrite ?Es; try done. intros i Hi. rewrite Hl; [by apply Hp|]. pose proof (presence_below (begin st) i Hs Hi). done.
Qed.
Lemma gc_meta_tx c st l fp L gs bs U A t : stands c st l fp L gs bs U A -> gc_fx (begin st) t -> meta_tx st l fp t (live_slot st).
Proof.
  intros Hst Hg. pose proof (sd_ready _ _ _ _ _ _ _ _ _ Hst) as Hr. pose proof (gf_store _ _ Hg) as Hs. cbn in Hs. destruct (gf_private _ _ Hg) as [_ Hnn].
  destruct (gf_ctrl _ _ Hg) as (Hroot & Hnx & _ & He).
  split; rewrite ?Hs; try done.
  - destruct Hr. split; rewrite ?Hs; try done; [apply Hg|unfold fresh_ok; by rewrite (gf_fresh _ _ Hg)|by rewrite (gf_data _ _ Hg)].
  - apply (gf_data _ _ Hg).
  - apply Hst.
  - by rewrite Hnx.
  - eapply low_pres; [by eapply begin_pres|done|apply Hg].
  - intros n Hm. rewrite Hroot. by eapply gc_mapping.
  - destruct (sd_payload _ _ _ _ _ _ _ _ _ Hst) as [Hnd Hk]. split; [done|]. intros x Hx. destruct (Hk x Hx) as (d & Hd & Hkd).
    destruct (gf_dsc _ _ Hg x d Hd) as (d' & Hd' & _ & [->|[_ [E|E]]]); [by exists d|by rewrite Hkd in E..].
  - intros x d' Hd'. pose proof (dsc_bound _ _ _ Hd') as Hb. rewrite Hnx in Hb. destruct (dsc_total (begin st) x (rd_wf _ Hr) Hb) as (d & Hd).
    destruct (gf_dsc _ _ Hg x d Hd) as (d2 & Hd2 & Hb2 & _). simplify_eq. pose proof (sd_born _ _ _ _ _ _ _ _ _ Hst x d Hd). cbn in *. lia.
  - intros x b (d & Hd & Hk & _). split; [apply dsc_bound in Hd; lia|]. intros Hb. by rewrite (gf_read _ _ Hg x d Hd Hk), read_begin.
  - intros x Hx. destruct (proj2 (sd_payload _ _ _ _ _ _ _ _ _ Hst) x Hx) as (d & Hd & Hk). exists d. by rewrite Hk.
Qed.
(** The slots of a bitmap follow from its head. *)
Lemma bitmap_det t t' cp cp' l l' : gc_fx t t' -> cp_Bitmap cp' = cp_Bitmap cp -> cp_BitmapDone cp' = cp_BitmapDone cp ->
  bitmap_chain t cp l -> bitmap_chain t' cp' l' -> l' = l.
Proof.
  intros Hg Eb Ed (Hh & _ & Hn & Hl) (Hh' & _ & Hn' & Hl'). rewrite Eb in Hh'. rewrite Ed, (gf_store _ _ Hg) in Hn'.
  assert (forall j, (j < length l)%nat -> l' !! j = l !! j) as Hj.
  { induction j as [|j IH]; intros Hlt.
    - destruct l as [|x l], l' as [|y l']; cbn in *; try lia. congruence.
    - destruct (lookup_lt_is_Some_2 l j) as [x Hx]; [lia|]. rewrite Hx in IH. specialize (IH ltac:(lia)).
      destruct (Hl j x Hx) as [Hd _], (Hl' j x IH) as [Hd' _]. destruct (gf_dsc _ _ Hg x _ Hd) as (d' & Hd2 & _ & Hc). simplify_eq.
      destruct Hc as [E|[E _]]; [|done]. injection E as _ E. destruct (lookup_lt_is_Some_2 l (S j) Hlt) as [y Hy].
      destruct (lookup_lt_is_Some_2 l' (S j)) as [z Hz]; [lia|]. rewrite Hy, Hz in *. cbn in E. congruence. }
  apply list_eq. intros j. destruct (decide (j < length l)%nat); [by apply Hj|]. rewrite !lookup_ge_None_2 by lia. done.
Qed.

Lemma evolves_names pin L L' : evolves pin L L' -> names L' = names L.
Proof.
  intros [Hl HL]. unfold names. apply list_eq. intros k. rewrite !list_lookup_fmap. destruct (L' !! k) as [[y c']|] eqn:E.
  - destruct (HL k y c' E) as (c & -> & Ei & _). cbn. by rewrite Ei.
  - apply lookup_ge_None_1 in E. by rewrite (lookup_ge_None_2 L) by lia.
Qed.
Definition collects (pin : Z -> dres unit) (v : version) (o : option version) : Prop :=
  o = Some v \/ o = None /\ v_visible v = false /\ pin (v_slot v) = Ok tt.
Lemma evolves_Forall2 pin L L' : evolves pin L L' -> forall P : Z * checkpoint -> Z * checkpoint -> Prop,
  (forall x cp cp', (x, cp) ∈ L -> (x, cp') ∈ L' -> cp_ID cp' = cp_ID cp -> cp_Root cp' = cp_Root cp -> cp_Visible cp' = cp_Visible cp ->
    (cp_Retained cp' = true -> cp_Retained cp = true /\ cp_Bitmap cp' = cp_Bitmap cp /\ cp_BitmapDone cp' = cp_BitmapDone cp) ->
    (cp_Retained cp = true -> cp_Retained cp' = true \/ cp_Pending cp = true /\ pin x = Ok tt) -> P (x, cp) (x, cp')) -> Forall2 P L L'.
Proof.
  intros [Hl HL] P HP. apply Forall2_same_length_lookup. split; [done|]. intros k [x cp] [y cp'] Hk Hk'.
  destruct (HL k y cp' Hk') as (c0 & Hk0 & ? & ? & ? & ? & ? & ? & Hr & ? & Hb & Hd). simplify_eq.
  apply HP; try done; [by eapply list_elem_of_lookup_2..|]. intros E. destruct (Hb E). auto.
Qed.
(** A turn of the walk over the versions. *)
Lemma walk_models c pin deletions g st A budget : cipher_ok c -> pinnable pin -> models c g st A ->
  exists b g' t, gcVersions pin deletions g (begin st) budget = Ok (b, g', t) /\ allocated t = [] /\
    forall s, commit c t = Ok s -> steady st s /\
      exists vs, thinned (collects pin) (a_versions A) vs /\ models c g' s (mkAstore (a_size A) (a_cells A) vs).
Proof.
  intros Hc Hpin (l & fp & L & gs & bs & U & Hst & Hg). pose proof (sd_ready _ _ _ _ _ _ _ _ _ Hst) as Hr.
  pose proof (sd_ledger _ _ _ _ _ _ _ _ _ Hst) as Hlg.
  destruct (gcVersions_spec pin deletions U g (begin st) budget L gs bs) as (b & g' & t & Hok & L' & gs' & bs' & He & Hfx & Hv & Hg');
    [done|by apply ledger_visiting; try done; apply Hr|done|].
  exists b, g', t. split; [done|]. split; [apply (gf_allocated _ _ Hfx)|]. intros s Hcm.
  pose proof (gc_meta_tx _ _ _ _ _ _ _ _ _ _ Hst Hfx) as Hmt. pose proof (meta_carries c st l fp Hc t _ Hmt s Hcm) as Hca.
  pose proof (visiting_ledger _ _ _ _ _ Hv) as Hlg'.
  destruct (versions_thin c st s bs U bs' U (collects pin) L L' (a_versions A)) as (vs & Hvs & Ht); [apply Hr| | |apply Hst|].
  - apply (evolves_Forall2 _ _ _ He). intros x cp cp' Hx Hx' Hid Hroot _ Hret _. split; [done|]. intros Hq. destruct (Hret Hq) as (Hp & Eb & Ed).
    split_and!; try done.
    + eapply bitmap_det; [exact Hfx|exact Eb|exact Ed|exact (lg_bitmaps _ _ _ _ _ Hlg x cp Hx)|exact (lg_bitmaps _ _ _ _ _ Hlg' x cp' Hx')].
    + eapply carries_weaken; [exact Hca|]. by eapply owned_live.
  - apply (evolves_Forall2 _ _ _ He). intros x cp cp' Hx Hx' Hid Hroot Hvis Hret Hdrop Hp v Ev Evis Esl. unfold revised. cbn [snd] in *.
    destruct (cp_Retained cp') eqn:Er; [left; rewrite Hvis, Evis; by destruct v|]. right. split; [done|].
    destruct (Hdrop Hp) as [?|[Hpd Hpk]]; [done|]. rewrite <- Evis, <- Esl. split; [|done]. apply not_true_is_false. intros E.
    destruct (cat_visible _ _ (lg_catalog _ _ _ _ _ Hlg) x cp Hx E). congruence.
  - assert (stands c s l fp L' gs' bs' U (mkAstore (a_size A) (a_cells A) vs)) as Hst'
      by (apply (meta_stands c st l fp L gs bs U A Hst Hc t _ Hmt s Hcm); [by apply ledger_charged|done]).
    split; [|exists vs; split; [done|]; by exists l, fp, L', gs', bs', U]. destruct (gf_ctrl _ _ Hfx) as (_ & Hn & _ & He').
    apply (meta_steady c st l fp L gs bs U A Hst Hc t _ Hmt s Hcm L'); [done|done|apply Hst'|by eapply evolves_names].
Qed.

(** ** Deleting names *)

Lemma delete_app pin ids ids' : forall n t, delete_body pin n t (ids ++ ids') =
  match delete_body pin n t ids with (n, Ok t) => delete_body pin n t ids' | r => r end.
Proof.
  induction ids as [|id ids IH]; intros n t; [done|]. cbn [app delete_body]. destruct (delete_one pin n t id) as [n1 [t1|e]]; [apply IH|done].
Qed.
Lemma delete_missing pin ids n t L : pinnable pin -> tx_wf t -> protectedKnown t = false -> t_nodes t = ∅ -> catalog t L ->
  ~ Forall (fun id => id ∈ names L) ids -> exists n', delete_body pin n t ids = (n', Err ErrNotExist).
Proof.
  intros Hpin Hwf Hkn Hnn Hcat Hids. apply not_Forall_Exists, Exists_exists in Hids as (id & Hin & Hid); [|solve_decision].
  revert n t L Hwf Hkn Hnn Hcat Hid. induction ids as [|x ids IH]; intros n t L Hwf Hkn Hnn Hcat Hid; [by apply elem_of_nil in Hin|].
  destruct (decide (x ∈ names L)) as [Hx|Hx].
  - destruct (delete_body_spec pin [x] Hpin n t L) as (n1 & t1 & E & Hm & Hc1); [done..|by apply Forall_singleton|].
    change (x :: ids) with ([x] ++ ids). rewrite delete_app, E. destruct (mf_private _ _ Hm).
    apply elem_of_cons in Hin as [->|Hin]; [done|]. apply (IH Hin n1 t1 (withdrawn pin [x] <$> L)); [apply Hm|congruence..|done|by rewrite withdrawn_names].
  - exists n. cbn [delete_body]. unfold delete_one. by rewrite (findCheckpoint_spec t L Hcat), (named_None _ _ Hx).
Qed.
Lemma withdraw_epoch pin t s cp t' : withdraw pin t s cp = Ok t' -> Epoch (t_ctrl t') = Epoch (t_ctrl t).
Proof.
  intros ([cp1 t1] & (ret & _ & (t2 & (b & _ & <-%Ok_inj)%res_bind_Ok & E%Ok_inj)%res_bind_Ok)%res_bind_Ok & H)%res_bind_Ok.
  injection E as _ <-. assert (forall u, Epoch (t_ctrl (set_page (slotPage s) b u)) = Epoch (t_ctrl u)) as Hp by done.
  destruct (_ && _).
  - apply res_bind_Ok in H as ([prev q] & _ & <-%Ok_inj). cbn. by case_match.
  - apply Ok_inj in H as <-. cbn. by case_match.
Qed.
Lemma delete_epoch pin ids : forall n t n' t', delete_body pin n t ids = (n', Ok t') -> Epoch (t_ctrl t') = Epoch (t_ctrl t).
Proof.
  induction ids as [|id ids IH]; intros n t n' t'; cbn [delete_body]; [by intros [= _ <-]|]. unfold delete_one.
  destruct (findCheckpoint t id) as [[s cp]|e]; [|done]. destruct (negb _); [apply IH|].
  destruct (withdraw pin t s cp) as [t1|e] eqn:E; [|done]. intros H. by rewrite (IH _ _ _ _ H), (withdraw_epoch _ _ _ _ _ E).
Qed.
Definition hidden (v : version) : version := mkVersion (v_id v) false (v_slot v) (v_tree v) (v_uses v) (v_cells v).
Definition deletes (pin : Z -> dres unit) (ids : list (list Z)) (v : version) (o : option version) : Prop :=
  if bool_decide (v_id v ∈ ids) && v_visible v then o = None /\ pin (v_slot v) = Ok tt \/ o = Some (hidden v) else o = Some v.
Lemma withdrawn_same pin ids p : (withdrawn pin ids p).1 = p.1 /\ cp_ID (withdrawn pin ids p).2 = cp_ID p.2 /\
  cp_Epoch (withdrawn pin ids p).2 = cp_Epoch p.2 /\ cp_Root (withdrawn pin ids p).2 = cp_Root p.2 /\
  cp_Garbage (withdrawn pin ids p).2 = cp_Garbage p.2 /\ cp_Bitmap (withdrawn pin ids p).2 = cp_Bitmap p.2 /\
  cp_BitmapDone (withdrawn pin ids p).2 = cp_BitmapDone p.2 /\ cp_Next (withdrawn pin ids p).2 = cp_Next p.2 /\
  (is_retained (withdrawn pin ids p) -> is_retained p).
Proof.
  unfold withdrawn, is_retained, still_read. destruct (_ && _); [|done]. cbn. split_and!; try done. by case_match.
Qed.
(** Accounts after a change of the versions' flags alone. *)
Lemma charged_meta t t' L gs bs U f : meta_fx t t' -> ledger t L gs bs U -> catalog t' (f <$> L) ->
  (forall p, (f p).1 = p.1 /\ cp_Epoch (f p).2 = cp_Epoch p.2 /\ cp_Garbage (f p).2 = cp_Garbage p.2 /\ cp_Bitmap (f p).2 = cp_Bitmap p.2 /\
    cp_BitmapDone (f p).2 = cp_BitmapDone p.2 /\ (is_retained (f p) -> is_retained p)) -> charged t' (f <$> L) gs bs U.
Proof.
  intros Hm Hlg Hcat Hf. pose proof (ledger_charged _ _ _ _ _ Hlg) as [_ Hgl Hch Hse Hbm Hbs Hus Hla Hde].
  assert (forall x cp, (x, cp) ∈ f <$> L -> exists c0, (x, c0) ∈ L /\ cp_Epoch cp = cp_Epoch c0 /\ cp_Garbage cp = cp_Garbage c0 /\
    cp_Bitmap cp = cp_Bitmap c0 /\ cp_BitmapDone cp = cp_BitmapDone c0 /\ (cp_Retained cp = true -> cp_Retained c0 = true)) as Hback.
  { intros x cp ([y c0] & E & Hin)%list_elem_of_fmap. specialize (Hf (y, c0)). rewrite <- E in Hf. cbn in Hf. destruct Hf as (-> & ?). by exists c0. }
  assert (slots (f <$> L) = slots L) as Hsl by (unfold slots; rewrite <- list_fmap_compose; apply list_fmap_ext; intros i p _; apply Hf).
  assert (forall k h l, chain (dsc t) k h l -> chain (dsc t') k h l) as Hchain.
  { intros k h l Hc. eapply chain_ext; [|exact Hc]. intros x _. apply (mf_dsc _ _ Hm). }
  destruct (mf_ctrl _ _ Hm) as (_ & _ & _ & Hga). split; rewrite ?Hsl; try done.
  - rewrite Hga. by apply Hchain.
  - intros x cp (c0 & Hin & _ & -> & _)%Hback. by eapply Hchain, Hch.
  - intros x cp (c0 & Hin & E1 & _ & E3 & E4 & _)%Hback. destruct (Hbm x c0 Hin) as (H1 & H2 & H3 & Hb). unfold bitmap_pages.
    rewrite E1, E3, E4, (mf_store _ _ Hm). split_and!; try done. intros j s Hj. destruct (Hb j s Hj) as (Hd & Hrd). rewrite (mf_dsc _ _ Hm).
    split; [done|]. by rewrite (mf_read _ _ Hm s _ Hd).
  - intros x cp s (c0 & Hin & -> & _ & _ & _ & Hr)%Hback Hret Hs. rewrite (mf_dsc _ _ Hm). by eapply Hus; [|auto|].
  - intros x cp y cq s (c0 & Hin & -> & _)%Hback Hs (c1 & Hin1 & -> & _ & _ & _ & Hr)%Hback Hret Hu. by eapply Hla; [exact Hin|done|exact Hin1|auto|].
  - intros y cq s (c1 & Hin1 & _ & _ & _ & _ & Hr)%Hback Hret Hu. by eapply Hde; [exact Hin1|auto|].
Qed.
Lemma scan_withdrawn pin ids g L : scan_ok g L -> scan_ok g (withdrawn pin ids <$> L).
Proof.
  intros [?|(i & cp & k & Hi & Hk & Ht & Hvs & Hl & Hp)]; [by left|right]. pose proof (withdrawn_same pin ids) as Hw.
  assert (slots (withdrawn pin ids <$> L) = slots L) as Hs by (unfold slots; rewrite <- list_fmap_compose; apply list_fmap_ext; intros j p _; apply Hw).
  assert (forall j, slot_at (withdrawn pin ids <$> L) j = slot_at L j) as Hat by (intros; unfold slot_at; by rewrite Hs).
  assert (forall j x c, L !! j = Some (x, c) -> (withdrawn pin ids <$> L) !! j = Some (x, (withdrawn pin ids (x, c)).2)) as Hlk.
  { intros j x c Hj. rewrite list_lookup_fmap, Hj. cbn. f_equal. destruct (withdrawn pin ids (x, c)) as [y c'] eqn:E. cbn.
    destruct (Hw (x, c)) as (E1 & _). rewrite E in E1. cbn in E1. by subst. }
  exists i, (withdrawn pin ids (cursor g, cp)).2, k. rewrite Hat, length_fmap. split; [by apply Hlk|]. split_and!; try done; try lia.
  intros E. destruct (Hp E) as (p & Hpi & Hps & (y & cy & Hy & He) & Hn). exists p. split; [done|].
  split; [by destruct p; [done|]; cbn in *; rewrite Hat|]. split.
  - exists y, (withdrawn pin ids (y, cy)).2. split; [by apply Hlk|]. destruct (Hw (y, cy)) as (_ & _ & -> & _). done.
  - intros j q Hj Hjp Hr. rewrite list_lookup_fmap in Hj. destruct (L !! j) as [q0|] eqn:Hq; [|done]. injection Hj as <-.
    apply (Hn j q0 Hq Hjp). by apply Hw in Hr.
Qed.
Lemma delete_models c pin n g st A ids : cipher_ok c -> pinnable pin -> models c g st A ->
  exists n' r, delete_body pin n (begin st) ids = (n', r) /\
    match r with
    | Err e => e = ErrNotExist /\ exists id, id ∈ ids /\ forall v, v ∈ a_versions A -> v_visible v = true -> v_id v <> id
    | Ok t => allocated t = [] /\ forall s, commit c t = Ok s ->
        exists vs, thinned (deletes pin ids) (a_versions A) vs /\ models c g s (mkAstore (a_size A) (a_cells A) vs)
    end.
Proof.
  intros Hc Hpin (l & fp & L & gs & bs & U & Hst & Hg). pose proof (sd_ready _ _ _ _ _ _ _ _ _ Hst) as Hr.
  pose proof (sd_ledger _ _ _ _ _ _ _ _ _ Hst) as Hlg. pose proof (lg_catalog _ _ _ _ _ Hlg) as Hcat. pose proof (rd_wf _ Hr) as Hwf.
  destruct (decide (Forall (fun id => id ∈ names L) ids)) as [Hids|Hids]; last first.
  { destruct (delete_missing pin ids n (begin st) L) as (n' & E); try done. exists n', (Err ErrNotExist). split; [done|]. split; [done|].
    apply not_Forall_Exists, Exists_exists in Hids as (id & Hin & Hid); [|solve_decision]. exists id. split; [done|].
    intros v [i Hi]%list_elem_of_lookup_1 _ <-. destruct (Forall2_lookup_r _ _ _ _ _ (sd_versions _ _ _ _ _ _ _ _ _ Hst) Hi) as (p & Hp & Hid' & _).
    apply Hid. rewrite <- Hid'. apply list_elem_of_lookup_2, list_elem_of_filter in Hp as [_ Hp]. by apply (list_elem_of_fmap_2 (cp_ID ∘ snd)). }
  destruct (delete_body_spec pin ids Hpin n (begin st) L) as (n' & t & E & Hm & Hcat'); try done. exists n', (Ok t). split; [done|].
  split; [apply (mf_allocated _ _ Hm)|]. intros s Hcm. pose proof (gc_meta_tx _ _ _ _ _ _ _ _ _ _ Hst (gc_meta _ _ Hm (delete_epoch _ _ _ _ _ _ E))) as Hmt.
  pose proof (meta_carries c st l fp Hc t _ Hmt s Hcm) as Hca. pose proof (withdrawn_same pin ids) as Hw.
  destruct (versions_thin c st s bs U bs U (deletes pin ids) L (withdrawn pin ids <$> L) (a_versions A)) as (vs & Hvs & Ht); [done| | |apply Hst|].
  - apply Forall2_fmap_r, Forall_Forall2_diag, Forall_forall. intros [x cp] Hx. destruct (Hw (x, cp)) as (? & ? & ? & ? & ? & ? & ? & ? & Hrt).
    split; [done|]. intros Hq. specialize (Hrt Hq). split_and!; try done. eapply carries_weaken; [exact Hca|]. by eapply owned_live.
  - apply Forall2_fmap_r, Forall_Forall2_diag, Forall_forall. intros [x cp] Hx Hret v Hid Hvis Hsl. unfold deletes, revised, withdrawn. cbn [fst snd] in *.
    rewrite <- Hid, <- Hvis. destruct (_ && _) eqn:Eb; cbn [snd set_flags cp_Retained cp_Visible].
    + unfold still_read. rewrite <- Hsl. destruct (Hpin x) as [E1|E1]; rewrite E1; [by left|]. right. unfold is_retained in Hret. cbn in Hret.
      rewrite Hret. unfold hidden. by rewrite Hsl, Hid.
    + unfold is_retained in Hret. cbn in Hret. rewrite Hret, Hid, Hvis. by destruct v.
  - exists vs. split; [done|]. exists l, fp, (withdrawn pin ids <$> L), gs, bs, U. split; [|by apply scan_withdrawn].
    apply (meta_stands c st l fp L gs bs U A Hst Hc t _ Hmt s Hcm); [|done]. eapply charged_meta; [exact Hm|done|done|].
    intros p. destruct (Hw p) as (? & ? & ? & ? & ? & ? & ? & ? & ?). by split_and!.
Qed.

(** ** Returning slots *)

Section Punch.
Context (c : option xts_cipher) (st : Store) (l : list entry) (fp : list Z) (L : list (Z * checkpoint)) (gs bs U : Z -> list Z) (A : astore).
Context (Hst : stands c st l fp L gs bs U A) (ps : list Z) (Hps : forall x, x ∈ ps -> x ∈ gs 0).
Local Notation st' := (punched_store st ps).

Lemma punch_kind x : x ∈ ps -> exists d, dsc (begin st) x = Some d /\ Kind d = kindGarbage.
Proof. intros Hx. eapply owners_garbage; [apply (sd_ledger _ _ _ _ _ _ _ _ _ Hst)|by left|by apply Hps]. Qed.
Lemma punch_page q : (forall x, x ∈ ps -> q <> slotPage x) -> page_at (punch_slots (s_file st) ps) q = page_at (s_file st) q.
Proof.
  intros Hq. rewrite punch_slots_page, decide_False; [done|]. intros (x & -> & Hx)%list_elem_of_fmap. by apply (Hq x Hx).
Qed.
Lemma punch_low q : q < slotAreaPage -> page_at (punch_slots (s_file st) ps) q = page_at (s_file st) q.
Proof.
  intros Hq. apply punch_page. intros x Hx ->. destruct (punch_kind x Hx) as (d & Hd & _). apply dsc_bound in Hd.
  pose proof (slotPage_area x ltac:(lia)). lia.
Qed.
Lemma punch_read q b : (forall x, x ∈ ps -> q <> slotPage x) -> readFull (s_file st) q = Ok b -> readFull (s_file st') q = Ok b.
Proof.
  intros Hq [Hb <-]%readFull_Ok. apply readFull_Ok. cbn. rewrite (proj1 (punch_slots_file _ _)). split; [done|by apply punch_page].
Qed.
Lemma punch_carries Y : (forall x, Y x -> 1 <= x /\ x ∉ ps) -> carries st st' Y.
Proof.
  intros HY. split; [done|done|]. intros x b Hx Hb. destruct (HY x Hx) as [H1 Hn]. apply punch_read; [|done].
  intros y Hy E. destruct (punch_kind y Hy) as (d & Hd & _). apply dsc_bound in Hd. by apply slotPage_inj in E as ->; [|lia..].
Qed.
Lemma punch_ready : ready (begin st').
Proof.
  pose proof (sd_ready _ _ _ _ _ _ _ _ _ Hst) as []. split; cbn; try done.
  - by apply (punched_wf (begin st) ps rd_wf punch_kind).
  - rewrite (proj1 (punch_slots_file _ _)). done.
  - by rewrite punch_low.
  - by rewrite punch_low.
Qed.
Lemma live_unpunched x d : dsc (begin st) x = Some d -> Kind d <> kindGarbage -> 1 <= x /\ x ∉ ps.
Proof. intros Hd Hk. split; [apply dsc_bound in Hd; lia|]. intros (d' & Hd' & ?)%punch_kind. by simplify_eq. Qed.
Lemma punch_mapping m : mapping (begin st) m (Root (s_ctrl st)) l fp -> mapping (begin st') m (Root (s_ctrl st)) l fp.
Proof.
  intros [Ht ? ? Hk]. split; try done.
  - destruct Ht as [?|(h & Hh & Ht)]; [by left|]. right. exists h. split; [done|]. eapply tree_ext; [|exact Ht]. intros x n Hx.
    destruct (Hk x Hx) as (d & Hd & Hkd). destruct (live_unpunched x d Hd) as [H1 Hn]; [by rewrite Hkd|].
    by rewrite <- (punched_nd (begin st) ps punch_kind x H1 Hn).
  - intros x Hx. destruct (Hk x Hx) as (d & Hd & Hkd). exists d. split; [|done]. rewrite <- Hd. apply (punched_dsc (begin st) ps punch_kind).
Qed.
(** The garbage slots are punched out: nothing the store shows depends on them. *)
Lemma punch_stands : stands c st' l fp L gs bs U A.
Proof.
  pose proof Hst as [Hse Hr Hbn Hm Hpl Hrd HB Hdk Hlg Hnow Hvs]. pose proof (punched_dsc (begin st) ps punch_kind) as Hdsc.
  assert (carries st st' (fun x => x ∈ slot <$> l)) as Hcl.
  { apply punch_carries. intros x Hx. destruct (proj2 Hpl x Hx) as (d & Hd & Hk). apply (live_unpunched x d Hd). by rewrite Hk. }
  split; try done.
  - apply punch_ready.
  - intros x d Hx. apply (Hbn x d). by rewrite <- Hdsc.
  - by apply punch_mapping.
  - destruct Hpl as [Hnd Hk]. split; [done|]. intros x Hx. destruct (Hk x Hx) as (d & Hd & Hkd). exists d. split; [|done]. rewrite <- Hd. apply Hdsc.
  - intros x Hx. by apply (carries_page _ _ _ x Hcl); [|apply Hrd].
  - intros i Hi. destruct (Hdk i Hi) as (b & Hb & He). exists b. split; [|done]. pose proof (presence_below (begin st) i (rd_size _ Hr) Hi) as Hlt.
    apply punch_read; [|done]. intros x (d & Hd & _)%punch_kind E. apply dsc_bound in Hd. pose proof (slotPage_area x ltac:(lia)). lia.
  - apply (ledger_contents (begin st)); [done|done|done|exact Hdsc| |exact Hlg]. intros x d Hd Hk. destruct (live_unpunched x d Hd Hk).
    by apply (punched_slot (begin st) ps punch_kind).
  - intros k Hk. rewrite <- Hnow by done. apply cell_at_ext. intros Hne.
    apply assoc_found, (list_elem_of_fmap_2 slot) in Hne as Hel. by apply (carries_page _ _ _ _ Hcl Hel), Hrd.
  - eapply versions_carry; [apply Hr| |apply recharged_refl|exact Hvs]. intros x cp Hin Hret. apply punch_carries. intros y [Hy|Hy].
    + split; [destruct (lg_uses _ _ _ _ _ Hlg x cp y Hin Hret Hy) as (d & Hd & _); apply dsc_bound in Hd; lia|].
      intros Hin'. by apply (lg_dead _ _ _ _ _ Hlg x cp y Hin Hret Hy), Hps.
    + destruct (owners_bitmap _ _ _ _ _ x y (lg_owners _ _ _ _ _ Hlg) (slots_in _ _ _ Hin) Hy) as (d & Hd & Hk). apply (live_unpunched y d Hd). by rewrite Hk.
Qed.
Lemma punch_steady : steady st st'.
Proof.
  split; [done..| |].
  2: { intros id. apply (names_unnamed st st' L L); [apply Hst|apply punch_stands|done]. }
  intros n Hn. apply (mapping_shallow st' n l fp), punch_mapping. eapply shallow_mapping; [exact Hn|apply Hst].
Qed.
End Punch.

Lemma released_meta c st l fp L gs bs U A ps t : stands c st l fp L gs bs U A -> (forall x, x ∈ ps -> x ∈ gs 0) ->
  released (begin st) ps t -> meta_tx st l fp t (fun x => 1 <= x /\ x ∉ ps).
Proof.
  intros Hst Hps Hrs. pose proof (punch_ready _ _ _ _ _ _ _ _ _ Hst ps Hps) as Hr. pose proof (punch_stands _ _ _ _ _ _ _ _ _ Hst ps Hps) as Hst'.
  assert (store t = punched_store st ps) as Hs by (by rewrite (rs_store _ _ _ Hrs)).
  destruct (rs_private _ _ _ Hrs) as [_ Hnn]. destruct (rs_other _ _ _ Hrs) as (Hfr & Hda & Hlo & _).
  pose proof (rs_ctrl _ _ _ Hrs) as Hct. pose proof (live_unpunched _ _ _ _ _ _ _ _ _ Hst ps Hps) as Hlive.
  assert (forall x d, dsc (begin st) x = Some d -> Kind d <> kindGarbage -> dsc t x = Some d) as Hkeep.
  { intros x d Hd Hk. destruct (Hlive x d Hd Hk) as [_ Hn]. by rewrite (rs_dsc _ _ _ Hrs x Hn). }
  split; rewrite ?Hs; try done.
  - destruct Hr. split; rewrite ?Hs; try done; [apply Hrs|unfold fresh_ok; by rewrite Hfr|by rewrite Hda].
  - apply Hst'.
  - by rewrite Hct.
  - eapply low_pres; [eapply (begin_pres c (punched_store st ps)); exact Hst'|done|exact Hlo].
  - intros m [Ht ? ? Hk]. rewrite Hct. cbn [set_Free set_Garbage Root begin t_ctrl]. split; try done.
    + destruct Ht as [?|(h & Hh & Ht)]; [by left|]. right. exists h. split; [done|]. eapply tree_ext; [|exact Ht]. intros x n Hx.
      destruct (Hk x Hx) as (d & Hd & Hkd). destruct (Hlive x d Hd) as [H1 Hn]; [by rewrite Hkd|]. by rewrite (rs_nd _ _ _ Hrs x H1 Hn).
    + intros x Hx. destruct (Hk x Hx) as (d & Hd & Hkd). exists d. split; [|done]. apply (Hkeep x d Hd). by rewrite Hkd.
  - destruct (sd_payload _ _ _ _ _ _ _ _ _ Hst) as [Hnd Hk]. split; [done|]. intros x Hx. destruct (Hk x Hx) as (d & Hd & Hkd). exists d.
    split; [|done]. apply (Hkeep x d Hd). by rewrite Hkd.
  - intros x d Hd. rewrite Hct. cbn [set_Free set_Garbage Epoch]. destruct (decide (x ∈ ps)) as [Hx|Hx].
    + destruct (rs_kind _ _ _ Hrs x Hx) as (d0 & d' & Hd0 & _ & Hd' & _ & Hb). simplify_eq. rewrite Hb. by apply (sd_born _ _ _ _ _ _ _ _ _ Hst x).
    + rewrite (rs_dsc _ _ _ Hrs x Hx) in Hd. by apply (sd_born _ _ _ _ _ _ _ _ _ Hst x).
  - intros x b [H1 Hn]. split; [done|]. intros Hb. by rewrite (rs_read _ _ _ Hrs x H1 Hn), read_begin.
  - intros x Hx. destruct (proj2 (sd_payload _ _ _ _ _ _ _ _ _ Hst) x Hx) as (d & Hd & Hk). apply (Hlive x d Hd). by rewrite Hk.
Qed.
(** A turn of the collector that returns slots. *)
Lemma release_models c g st A budget h : cipher_ok c -> models c g st A ->
  exists ps t, release_body budget (begin st) h = (Ok t, punch_file (punch_slots (s_file st) ps) h) /\
    models c g (punched_store st ps) A /\ steady st (punched_store st ps) /\ allocated t = [] /\
    forall s, commit c t = Ok s -> steady st s /\ models c g s A.
Proof.
  intros Hc (l & fp & L & gs & bs & U & Hst & Hg). pose proof (sd_ready _ _ _ _ _ _ _ _ _ Hst) as Hr. pose proof (sd_ledger _ _ _ _ _ _ _ _ _ Hst) as Hlg.
  destruct (gcRelease_spec (begin st) (gs 0) budget) as (ps & t & Hok & Hperm & Hrs & _ & Hch);
    [apply Hr|done|apply Hlg|apply (proj1 (lg_separate _ _ _ _ _ Hlg)); by left|].
  assert (forall x, x ∈ ps -> x ∈ gs 0) as Hps by (intros x; rewrite Hperm; intros (i & Hi & _)%elem_of_take; by eapply list_elem_of_lookup_2).
  exists ps, t. split.
  { unfold gcRelease in Hok. unfold release_body, op_bind, lift. destruct (candidates _ _ _ _) as [[slots next]|e]; cbn [res_bind] in Hok; [|done].
    destruct (bool_decide _); [done|]. cbn zeta in *. unfold modify, ret. destruct (free_slots _ _) as [t2|e]; cbn [res_bind] in Hok; [|done].
    by injection Hok as <- <-. }
  split; [exists l, fp, L, gs, bs, U; split; [by apply punch_stands|done]|]. split; [by eapply punch_steady|]. split; [by destruct (rs_other _ _ _ Hrs) as (_ & _ & _ & ->)|].
  intros s Hcm. pose proof (released_meta _ _ _ _ _ _ _ _ _ _ _ Hst Hps Hrs) as Hmt.
  enough (stands c s l fp L (after_release gs budget) bs U A) as Hst'.
  { split; [|by exists l, fp, L, (after_release gs budget), bs, U].
    apply (meta_steady c st l fp L gs bs U A Hst Hc t _ Hmt s Hcm L); [by rewrite (rs_ctrl _ _ _ Hrs)..|apply Hst'|done]. }
  replace A with (mkAstore (a_size A) (a_cells A) (a_versions A)) by (by destruct A).
  apply (meta_stands c st l fp L gs bs U A Hst Hc t _ Hmt s Hcm); [apply ledger_charged; by eapply released_ledger|].
  eapply versions_carry; [apply Hr| |apply recharged_refl|apply Hst]. intros x cp Hin Hret.
  eapply carries_weaken; [exact (meta_carries c st l fp Hc t _ Hmt s Hcm)|]. intros y Hy.
  destruct (owned_live _ _ _ _ _ _ _ _ _ _ _ Hst Hin Hret y Hy) as (d & Hd & _). split; [apply dsc_bound in Hd; lia|]. intros Hin'. destruct Hy as [Hy|Hy].
  - by apply (lg_dead _ _ _ _ _ Hlg x cp y Hin Hret Hy), Hps.
  - destruct (owners_bitmap _ _ _ _ _ x y (lg_owners _ _ _ _ _ Hlg) (slots_in _ _ _ Hin) Hy) as (d' & Hd' & Hk).
    by destruct (live_unpunched _ _ _ _ _ _ _ _ _ Hst ps Hps y d' Hd') as [_ ?]; [rewrite Hk|].
Qed.

(** ** Taking a version *)

Definition add_for (s : Z) (v : list Z) (f : Z -> list Z) (x : Z) : list Z := if decide (x = s) then v else f x.
Lemma add_here s v f : add_for s v f s = v.
Proof. unfold add_for. by rewrite decide_True. Qed.
Lemma add_other s v f x : x <> s -> add_for s v f x = f x.
Proof. intros H. unfold add_for. by rewrite decide_False. Qed.
Lemma separate_add s v f X : s ∉ X -> separate X f -> NoDup v -> (forall x y, x ∈ X -> y ∈ f x -> y ∉ v) -> separate (X ++ [s]) (add_for s v f).
Proof.
  intros Hs [Hn Hd] Hv Hx. assert (forall x, x ∈ X -> add_for s v f x = f x) as Ho by (intros x H; apply add_other; by intros ->). split.
  - intros x [H| ->%list_elem_of_singleton]%elem_of_app; [rewrite Ho by done; by apply Hn|by rewrite add_here].
  - intros x y z [H| ->%list_elem_of_singleton]%elem_of_app [H'| ->%list_elem_of_singleton]%elem_of_app; rewrite ?add_here, ?Ho by done.
    + by apply Hd.
    + intros H1 H2. by destruct (Hx x z H H1).
    + intros H1 H2. by destruct (Hx y z H' H2).
    + done.
Qed.
Lemma scan_snoc g L s cp : scan_ok g L -> scan_ok g (link_last s L ++ [(s, cp)]).
Proof.
  intros [?|(i & c & k & Hi & Hk & Ht & Hvs & Hl & Hp)]; [by left|right].
  assert (forall j x c, L !! j = Some (x, c) -> exists c', (link_last s L ++ [(s, cp)]) !! j = Some (x, c') /\ cp_Epoch c' = cp_Epoch c) as Hlk.
  { intros j x c0 Hj. apply lookup_lt_Some in Hj as Hlt. rewrite lookup_app_l by (by rewrite link_length). unfold link_last.
    destruct (decide (j = pred (length L))) as [->|Hne]; [rewrite list_lookup_alter_eq|rewrite list_lookup_alter_ne by done]; rewrite Hj; eauto. }
  assert (forall j, (j < length L)%nat -> slot_at (link_last s L ++ [(s, cp)]) j = slot_at L j) as Hat.
  { intros j Hj. unfold slot_at, slots. rewrite fmap_app, lookup_app_l by (by rewrite length_fmap, link_length). pose proof (link_slots L s) as Hs. unfold slots in Hs. by rewrite Hs. }
  destruct (Hlk i _ _ Hi) as (c' & Hi' & _). exists i, c', k. rewrite Hat by lia. rewrite length_app, link_length. cbn [length]. split_and!; try done; try lia.
  intros E. destruct (Hp E) as (p & Hpi & Hps & (y & cy & Hy & He) & Hn). exists p. split; [done|]. apply lookup_lt_Some in Hi as Hil. split.
  { rewrite Hps. destruct p; [done|]. cbn. rewrite Hat by lia. done. }
  destruct (Hlk p _ _ Hy) as (cz & Hz & Ez). split; [exists y, cz; split; [done|congruence]|].
  intros j [z cw] Hj Hjp Hr. rewrite lookup_app_l in Hj by (rewrite link_length; lia). apply link_last_lookup in Hj as (c0 & H0 & E0).
  apply (Hn j (z, c0) H0 Hjp). unfold is_retained in *. cbn in *. subst cw. by case_decide.
Qed.

Section Take.
Context (c : option xts_cipher) (st : Store) (l : list entry) (fp : list Z) (L : list (Z * checkpoint)) (gs bs U : Z -> list Z) (A : astore).
Context (Hst : stands c st l fp L gs bs U A) (Hc : cipher_ok c) (id : list Z) (t : transaction) (L' : list (Z * checkpoint)).
Context (Htk : taken (begin st) id L t L').

Lemma take_store : store t = st.
Proof. destruct Htk as [(t2 & Hfx & Hm) _ _ _ _ _ _ _]. by rewrite (mf_store _ _ Hm), (fx_store _ _ _ Hfx). Qed.
Lemma take_dsc x d : dsc (begin st) x = Some d -> Kind d <> kindFree -> dsc t x = Some d.
Proof.
  intros Hd Hk. destruct Htk as [(t2 & Hfx & Hm) _ _ _ _ _ _ _]. rewrite (mf_dsc _ _ Hm).
  destruct (fx_live _ _ _ Hfx x d Hd Hk) as (d' & Hd' & _ & [->|[[]%elem_of_nil _]]). done.
Qed.
Lemma take_allocated x : x ∈ allocated t -> unused (begin st) x /\ 1 <= x.
Proof.
  destruct Htk as [(t2 & Hfx & Hm) _ _ _ _ _ _ _]. rewrite (mf_allocated _ _ Hm). intros Hx.
  destruct (update_allocated _ _ _ x (update_tree _ _ _ Hfx) Hx) as [?%elem_of_nil|?]; done.
Qed.
Lemma take_meta : meta_tx st l fp t (live_slot st).
Proof.
  pose proof (sd_ready _ _ _ _ _ _ _ _ _ Hst) as Hr. pose proof take_store as Hs. destruct (tk_private _ _ _ _ _ Htk) as [_ Hnn].
  pose proof (tk_root _ _ _ _ _ Htk) as Hroot. pose proof (tk_mid _ _ _ _ _ Htk) as (t2 & Hfx & Hm).
  split; rewrite ?Hs; try done.
  - destruct Hr. split; rewrite ?Hs; try done; [apply Hm| |].
    + intros p. rewrite (mf_fresh _ _ Hm). intros [Hp|(x & Hx & [[_ ->]|(_ & -> & _)])]%(fx_fresh _ _ _ Hfx); [cbn in Hp; set_solver|pose proof (slotPage_area x Hx); lia|by apply descriptorPage_area].
    + intros d. rewrite (mf_data _ _ Hm), (fx_data _ _ _ Hfx). cbn. set_solver.
  - by rewrite (mf_data _ _ Hm), (fx_data _ _ _ Hfx).
  - apply Hst.
  - destruct (mf_ctrl _ _ Hm) as (_ & -> & _). apply (fx_next _ _ _ Hfx).
  - eapply low_pres; [by eapply begin_pres|done|]. intros q Hq. by rewrite (mf_low _ _ Hm), (fx_low _ _ _ Hfx).
  - intros n Hmap. rewrite Hroot. by eapply taken_mapping.
  - destruct (sd_payload _ _ _ _ _ _ _ _ _ Hst) as [Hnd Hk]. split; [done|]. intros x Hx. destruct (Hk x Hx) as (d & Hd & Hkd). exists d.
    split; [|done]. apply take_dsc; [done|by rewrite Hkd].
  - eapply taken_born; [exact Htk|apply Hst].
  - intros x b (d & Hd & Hk1 & Hk2). split; [apply dsc_bound in Hd; lia|]. intros Hb. by rewrite (tk_read _ _ _ _ _ Htk x d Hd Hk2 Hk1), read_begin.
  - intros x Hx. destruct (proj2 (sd_payload _ _ _ _ _ _ _ _ _ Hst) x Hx) as (d & Hd & Hk). exists d. by rewrite Hk.
Qed.

Context (s : Z) (cp : checkpoint) (bl : list Z) (HL' : L' = link_last s L ++ [(s, cp)]).
Context (Hid : cp_ID cp = id) (Hvis : cp_Visible cp = true) (Hep : cp_Epoch cp = Epoch (s_ctrl st)) (Hrt : cp_Root cp = Root (s_ctrl st)).
Context (Hun : unused (begin st) s) (Hgb : cp_Garbage cp = 0) (Hdn : cp_BitmapDone cp = 0).
Context (Hbh : cp_Bitmap cp = default 0 (head bl)) (Hbn : Z.of_nat (length bl) = Pages (s_size st)) (Hbd : NoDup bl).
Context (Hbl : forall j x, bl !! j = Some x -> unused (begin st) x /\
  dsc t x = Some (mkDescriptor (Epoch (s_ctrl st)) (default 0 (bl !! S j)) kindBitmap) /\
  exists b, read t (slotPage x) = Ok b /\ encoded (s_presence st) (s_size st) (Z.of_nat j) b).
Local Notation gs' := (add_for s [] gs).
Local Notation bs' := (add_for s bl bs).
Local Notation U' := (add_for s (fp ++ (slot <$> l)) U).

Lemma take_new : s ∉ 0 :: slots L.
Proof.
  pose proof (sd_ledger _ _ _ _ _ _ _ _ _ Hst) as Hlg. rewrite not_elem_of_cons. split.
  - intros ->. destruct (catalog_slot _ _ (tk_catalog _ _ _ _ _ Htk) (length L) 0 cp); [|lia].
    rewrite HL', lookup_app_r by (by rewrite link_length). by rewrite link_length, Nat.sub_diag.
  - intros ([x c0] & -> & Hin)%list_elem_of_fmap. destruct (cat_cp _ _ (lg_catalog _ _ _ _ _ Hlg) x c0 Hin) as ((d & Hd & Hk) & _).
    apply (unused_live _ _ _ Hun) in Hd. by rewrite Hk in Hd.
Qed.
Lemma take_in x c0 : (x, c0) ∈ L' -> (x = s /\ c0 = cp) \/
  (x <> s /\ exists c1, (x, c1) ∈ L /\ cp_Epoch c0 = cp_Epoch c1 /\ cp_Garbage c0 = cp_Garbage c1 /\ cp_Bitmap c0 = cp_Bitmap c1 /\
    cp_BitmapDone c0 = cp_BitmapDone c1 /\ cp_Retained c0 = cp_Retained c1).
Proof.
  rewrite HL'. intros [[i Hi]%list_elem_of_lookup_1|E%list_elem_of_singleton]%elem_of_app; [right|left; by simplify_eq].
  apply link_last_lookup in Hi as (c1 & Hi & E). apply list_elem_of_lookup_2 in Hi. split.
  - intros ->. apply take_new. right. by eapply slots_in.
  - exists c1. subst c0. by case_decide.
Qed.
(** The slots the new version reads are live in the store. *)
Lemma take_uses x : x ∈ fp ++ (slot <$> l) -> exists d, dsc (begin st) x = Some d /\ (Kind d = kindIndex \/ Kind d = kindData).
Proof.
  intros [Hx|Hx]%elem_of_app.
  - destruct (mp_live _ _ _ _ _ (sd_map _ _ _ _ _ _ _ _ _ Hst) x Hx) as (d & Hd & Hk). eauto.
  - destruct (proj2 (sd_payload _ _ _ _ _ _ _ _ _ Hst) x Hx) as (d & Hd & Hk). eauto.
Qed.
Lemma take_not_garbage x y : y ∈ 0 :: slots L -> x ∈ gs y -> x ∉ fp ++ (slot <$> l).
Proof.
  intros Hy Hx Hu. destruct (take_uses x Hu) as (d & Hd & Hk). destruct (owners_garbage _ _ _ _ _ y x (lg_owners _ _ _ _ _ (sd_ledger _ _ _ _ _ _ _ _ _ Hst)) Hy Hx) as (d' & Hd' & Hk').
  simplify_eq. rewrite Hk' in Hk. by destruct Hk.
Qed.
Lemma take_chain k h0 l0 : k <> kindFree -> chain (dsc (begin st)) k h0 l0 -> chain (dsc t) k h0 l0.
Proof.
  intros Hk Hch. eapply chain_ext; [|exact Hch]. intros x Hx. destruct (chain_kind _ _ _ _ _ Hch Hx) as (d & Hd & <-). rewrite Hd. by apply take_dsc.
Qed.
Lemma take_charged : charged t L' gs' bs' U'.
Proof.
  pose proof (sd_ledger _ _ _ _ _ _ _ _ _ Hst) as Hlg. pose proof take_new as Hnew. apply not_elem_of_cons in Hnew as Hn2. destruct Hn2 as [Hs0 HsL].
  pose proof (ledger_charged _ _ _ _ _ Hlg) as [_ Hgl Hch Hse Hbm Hbs Hus Hla Hde].
  assert (slots L' = slots L ++ [s]) as Hsl by (rewrite HL'; unfold slots; rewrite fmap_app; pose proof (link_slots L s) as E; unfold slots in E; by rewrite E).
  assert (forall x v f, x ∈ 0 :: slots L -> add_for s v f x = f x) as Ho by (intros x v f Hx; apply add_other; by intros ->).
  assert (forall x c0, (x, c0) ∈ L -> x ∈ 0 :: slots L) as Hi0 by (intros x c0 Hx; right; by eapply slots_in).
  split; rewrite ?Hsl.
  - apply Htk.
  - rewrite (tk_garbage _ _ _ _ _ Htk), Ho by (by left). by apply take_chain.
  - intros x c0 [[-> ->]|(Hx & c1 & Hin & _ & -> & _)]%take_in; [by rewrite add_here, Hgb|]. rewrite add_other by done. by eapply take_chain, Hch.
  - change (0 :: slots L ++ [s]) with ((0 :: slots L) ++ [s]). apply separate_add; [done|done|constructor|]. intros x y _ _. apply not_elem_of_nil.
  - intros x c0 [[-> ->]|(Hx & c1 & Hin & E1 & _ & E3 & E4 & _)]%take_in.
    + rewrite add_here. unfold bitmap_pages. rewrite Hdn, take_store. split_and!; try done. intros j y Hj.
      destruct (Hbl j y Hj) as (_ & Hd & b & Hb & He). rewrite Hep. split; [done|]. exists b, (part (s_presence st) (s_size st) (Z.of_nat j)). split; [done|].
      apply decode_page_encoded; [apply (rd_size _ (sd_ready _ _ _ _ _ _ _ _ _ Hst))|apply Hst| |done]. apply lookup_lt_Some in Hj. lia.
    + rewrite add_other by done. destruct (Hbm x c1 Hin) as (H1 & H2 & H3 & Hb). unfold bitmap_pages. rewrite E1, E3, E4, take_store. split_and!; try done.
      intros j y Hj. destruct (Hb j y Hj) as (Hd & b & B & Hrb & HB). split; [by apply take_dsc|]. exists b, B. split; [|done].
      by rewrite (tk_read _ _ _ _ _ Htk y _ Hd).
  - apply separate_add; [done|done|done|]. intros x y Hx Hy [j Hj]%list_elem_of_lookup_1. destruct (Hbl j y Hj) as (Hu & _).
    destruct (owners_bitmap _ _ _ _ _ x y (lg_owners _ _ _ _ _ Hlg) Hx Hy) as (d & Hd & Hk). apply (unused_live _ _ _ Hu) in Hd. by rewrite Hk in Hd.
  - intros x c0 y [[-> ->]|(Hx & c1 & Hin & E1 & _ & _ & _ & E5)]%take_in.
    + rewrite add_here. intros _ Hy. destruct (take_uses y Hy) as (d & Hd & Hk). exists d. split; [|split].
      * apply take_dsc; [done|]. by destruct Hk as [-> | ->].
      * destruct Hk as [-> | ->]; unfold payload_kind; auto.
      * rewrite Hep. by apply (sd_born _ _ _ _ _ _ _ _ _ Hst y).
    + rewrite add_other, E1, E5 by done. intros Hr Hy. destruct (Hus x c1 y Hin Hr Hy) as (d & Hd & Hk & Hb). exists d. split; [|done].
      apply take_dsc; [done|]. by destruct Hk as [-> | [-> | ->]].
  - intros x c0 y c2 z [[-> ->]|(Hx & c1 & Hin & E1 & _)]%take_in; [rewrite add_here; by intros ?%elem_of_nil|]. rewrite add_other by done. intros Hz.
    intros [[-> ->]|(Hy & c3 & Hin3 & E3 & _ & _ & _ & E5)]%take_in.
    + rewrite add_here. intros _ Hu. by destruct (take_not_garbage z x (Hi0 _ _ Hin) Hz).
    + rewrite add_other, E1, E3, E5 by done. intros Hr Hu. by eapply Hla.
  - intros y c2 z [[-> ->]|(Hy & c3 & Hin3 & E3 & _ & _ & _ & E5)]%take_in; rewrite (Ho 0) by (by left).
    + rewrite add_here. intros _ Hu Hz. by apply (take_not_garbage z 0 ltac:(by left) Hz).
    + rewrite add_other, E5 by done. intros Hr Hu. by eapply Hde.
Qed.
Context (st' : Store) (Hcm : commit c t = Ok st').
Lemma take_shows : shows_cells c st' (fp ++ (slot <$> l)) bl (cp_Root cp) (a_cells A).
Proof.
  pose proof take_meta as Hmt. pose proof (meta_carries c st l fp Hc t _ Hmt st' Hcm) as Hca. pose proof (meta_scratch st l fp t _ Hmt) as HX.
  pose proof (cm_publishes _ _ _ (meta_committed c st l fp Hc t _ Hmt st' Hcm)) as Hpu. pose proof (mt_ready _ _ _ _ _ Hmt) as Hr.
  pose proof (ca_size _ _ _ Hca) as Hsz.
  assert (forall e, e ∈ l -> readable st' (slot e) /\ page_at (s_file st') (slotPage (slot e)) = page_at (s_file st) (slotPage (slot e))) as Hpg.
  { intros e He. apply (list_elem_of_fmap_2 slot) in He. apply (carries_page _ _ _ (slot e) Hca); [by eapply mt_blocks|by eapply sd_readable]. }
  destruct (mapping_published t st' Hr _ HX Hpu _ _ _ _ (mt_map _ _ _ _ _ Hmt _ (sd_map _ _ _ _ _ _ _ _ _ Hst))) as [Ht Hs _ _]. rewrite (tk_root _ _ _ _ _ Htk) in Ht.
  exists l, (s_presence st). rewrite Hsz, Hrt. split_and!; try done.
  - destruct Ht as [(? & ? & _)|(h & Hh & Ht)]; [by left|]. right. exists h, fp. split_and!; try done. intros x Hx. apply elem_of_app. by left.
  - intros e He. split; [apply elem_of_app; right; by apply list_elem_of_fmap_2|]. split; [|by apply Hpg].
    destruct (proj2 (sd_payload _ _ _ _ _ _ _ _ _ Hst) (slot e)) as (d & Hd & _); [by apply list_elem_of_fmap_2|]. apply dsc_bound in Hd. lia.
  - apply Hst.
  - intros j x Hj. destruct (Hbl j x Hj) as (_ & Hd & b & Hb & He). exists b. split; [|done]. rewrite <- read_begin.
    eapply (read_slot_published t st' Hr _ HX Hpu); [exact Hd|done|done|by eapply bitmap_not_node; [apply Hr|exact Hd|]|done].
  - intros k Hk. unfold in_disk in Hk. rewrite Hsz in Hk. rewrite <- (sd_now _ _ _ _ _ _ _ _ _ Hst) by done. apply cell_at_ext. intros Hne.
    by apply (Hpg _ (assoc_found _ _ Hne)).
Qed.
Lemma take_stands : cp_Retained cp = true ->
  stands c st' l fp L' gs' bs' U' (mkAstore (a_size A) (a_cells A) (a_versions A ++ [mkVersion id true s (Root (s_ctrl st)) (fp ++ (slot <$> l)) (a_cells A)])).
Proof.
  intros Hret. pose proof take_meta as Hmt. pose proof (meta_carries c st l fp Hc t _ Hmt st' Hcm) as Hca.
  apply (meta_stands c st l fp L gs bs U A Hst Hc t _ Hmt st' Hcm); [apply take_charged|]. rewrite HL', filter_app. apply Forall2_app; last first.
  { rewrite filter_cons, filter_nil, decide_True by done. constructor; [|constructor]. split; [done|]. split; [done|]. split; [done|]. split; [by rewrite add_here|].
    cbn [fst snd v_cells]. rewrite !add_here. apply take_shows. }
  assert (forall P : Z * checkpoint -> Z * checkpoint -> Prop, (forall x c0, (x, c0) ∈ L -> P (x, c0) (x, c0) /\ P (x, c0) (x, set_cpNext s c0)) ->
    Forall2 P L (link_last s L)) as Hall.
  { intros P HP. apply Forall2_same_length_lookup. split; [by rewrite link_length|]. intros i [x c0] [y c1] Hi Hj.
    apply link_last_lookup in Hj as (c2 & Hj & ->). simplify_eq. apply list_elem_of_lookup_2 in Hi. destruct (HP _ _ Hi). by case_decide. }
  destruct (versions_thin c st st' bs U bs' U' (fun v o => o = Some v) L (link_last s L) (a_versions A)) as (vs & Hvs & Ht); [apply (sd_ready _ _ _ _ _ _ _ _ _ Hst)| | |apply Hst|].
  - apply Hall. intros x c0 Hx. assert (x <> s) as Hne by (intros ->; apply take_new; right; by eapply slots_in).
    assert (is_retained (x, c0) -> carries st st' (fun y => y ∈ U x \/ y ∈ bs x)) as Hcx by (intros Hr; eapply carries_weaken; [exact Hca|by eapply owned_live]).
    split; (split; [done|]; intros Hr; split_and!; try done; [by apply add_other..|by apply Hcx]).
  - apply Hall. intros x c0 Hx. split; intros Hr v _ Hv _; unfold revised; unfold is_retained in Hr; cbn in *; rewrite Hr, Hv; by destruct v.
  - enough (vs = a_versions A) as <- by done. clear -Ht. by induction Ht as [|v v' vs vs' [= ->] _ ->|]; simplify_eq.
Qed.
End Take.

Lemma checkpoint_models c g st A id : cipher_ok c -> models c g st A -> ValidID id = Ok tt -> bytes_ok id ->
  findCheckpoint (begin st) id = Err ErrNotExist ->
  Next (s_ctrl st) + 1 + Pages (s_size st) <= maxSlot + 1 -> Epoch (s_ctrl st) + 1 < 2 ^ 64 ->
  exists t, checkpoint_body (begin st) id = Ok t /\ (forall x, x ∈ allocated t -> unused (begin st) x /\ 1 <= x) /\
    forall s, commit c t = Ok s -> exists x r u, models c g s (mkAstore (a_size A) (a_cells A) (a_versions A ++ [mkVersion id true x r u (a_cells A)])).
Proof.
  intros Hc (l & fp & L & gs & bs & U & Hst & Hg) [Hv Hlen]%ValidID_ok Hb Hnone Hroom Hep.
  pose proof (sd_ready _ _ _ _ _ _ _ _ _ Hst) as Hr. pose proof (lg_catalog _ _ _ _ _ (sd_ledger _ _ _ _ _ _ _ _ _ Hst)) as Hcat.
  assert (id ∉ names L) as Hn.
  { intros Hin. rewrite (findCheckpoint_spec _ _ Hcat) in Hnone. by destruct (named_lookup id L Hin) as (i & x & cp & E & _); rewrite E in Hnone. }
  destruct (checkpoint_body_spec (begin st) id L) as (t & L' & Hok & Htk); try done; try (apply Hr); [apply Hst|].
  exists t. split; [done|]. split; [intros x; by eapply take_allocated|]. intros s Hcm.
  destruct (tk_list _ _ _ _ _ Htk) as (x & cp & HL & Hid & Hvis & Hret & Hce & Hcr & _ & Hun & Hgb & Hdn & bl & H1 & H2 & H3 & H4). cbn [begin store t_ctrl] in *.
  eexists _, _, _, l, fp, L', _, _, _. split; [|rewrite HL; by apply scan_snoc].
  exact (take_stands c st l fp L gs bs U A Hst Hc id t L' Htk x cp bl HL Hid Hvis Hce Hcr Hun Hgb Hdn H1 H2 H3 H4 s Hcm Hret).
Qed.

(** ** Control fields that describe no block and no version *)

Lemma flags_models c g st A c' : cipher_ok c -> models c g st A -> control_ok c' ->
  Root c' = Root (s_ctrl st) -> Next c' = Next (s_ctrl st) -> Free c' = Free (s_ctrl st) -> Garbage c' = Garbage (s_ctrl st) ->
  Epoch c' = Epoch (s_ctrl st) -> Protected c' = Protected (s_ctrl st) -> Head c' = Head (s_ctrl st) -> Tail c' = Tail (s_ctrl st) ->
  Pending c' = Pending (s_ctrl st) -> forall s, commit c (set_ctrl c' (begin st)) = Ok s -> steady st s /\ models c g s A.
Proof.
  intros Hc (l & fp & L & gs & bs & U & Hst & Hg) Hok Hr Hn Hf Hga He Hp Hh Ht Hpd s Hcm. set (t := set_ctrl c' (begin st)) in *.
  pose proof (sd_ready _ _ _ _ _ _ _ _ _ Hst) as Hrd. pose proof (sd_ledger _ _ _ _ _ _ _ _ _ Hst) as Hlg. pose proof (lg_catalog _ _ _ _ _ Hlg) as Hcat.
  destruct (ctrl_flags (begin st) c' L) as [Hm _]; try done; [apply Hrd|].
  pose proof (gc_meta_tx _ _ _ _ _ _ _ _ _ _ Hst (gc_meta _ _ Hm He)) as Hmt.
  assert (catalog t L) as Hcat'.
  { destruct Hcat as [[] Hcp]. split; [split; cbn; rewrite ?Hh, ?Ht, ?He, ?Hp, ?Hpd; done|]. intros x cp Hin. eapply holds_meta; [exact Hm|done|by apply Hcp]. }
  assert (stands c s l fp L gs bs U A) as Hst'; last (split; [|by exists l, fp, L, gs, bs, U]).
  - replace A with (mkAstore (a_size A) (a_cells A) (a_versions A)) by (by destruct A).
    apply (meta_stands c st l fp L gs bs U A Hst Hc t _ Hmt s Hcm).
    + rewrite <- (list_fmap_id L). eapply charged_meta; [exact Hm|done|by rewrite list_fmap_id|done].
    + eapply versions_carry; [apply Hrd| |apply recharged_refl|apply Hst]. intros x cp Hin Hret.
      eapply carries_weaken; [exact (meta_carries c st l fp Hc t _ Hmt s Hcm)|by eapply owned_live].
  - apply (meta_steady c st l fp L gs bs U A Hst Hc t _ Hmt s Hcm L); [done|done|apply Hst'|done].
Qed.
