(* ===== verification/Device.v ===== *)
(** * Device: the calls of an open handle against the abstract store.

    A handle commits its calls as transactions, retries a transaction that found no
    space after a few turns of the collector, and splits large requests.  Here every
    public call that changes the store is shown to do to the abstract store of
    [Model] what its name says, whatever the collector did in between, and to leave
    the blocks and the visible versions alone when it fails. *)
From stdpp Require Import base numbers list gmap strings sorting relations.
From Stdlib Require Import ZArith Lia.
From S2P Require Import Prelude Page Presence Json Format Tree Tx Demo TreeWrite Retire TreeRemove Sha256 Commit Crash Publish Bitmap Checkpoint GcDemo Gc Accounts Ops Batch Model Versions.

#[local] Opaque Sum256 sealPage checkPage Page.put.
#[local] Hint Constructors thinned : core.

(** ** Versions that are withdrawn *)

Section Removal.
Context (pin : Z -> dres unit).
(** What becomes of a version when the names [ids] are withdrawn and the collector
    runs: it is kept, without its name if that is withdrawn, or it goes, if it had
    no name or loses it and no reader holds its lock. *)
Definition removes (ids : list (list Z)) (v : version) (o : option version) : Prop :=
  match o with
  | Some v' => v' = mkVersion (v_id v) (v_visible v && negb (bool_decide (v_id v ∈ ids))) (v_slot v) (v_tree v) (v_uses v) (v_cells v)
  | None => (v_visible v = false \/ v_id v ∈ ids) /\ pin (v_slot v) = Ok tt
  end.
Definition removed (ids : list (list Z)) (A A' : astore) : Prop :=
  a_size A' = a_size A /\ a_cells A' = a_cells A /\ thinned (removes ids) (a_versions A) (a_versions A').
Lemma thinned_mono (K K' : version -> option version -> Prop) vs vs' : (forall v o, K v o -> K' v o) -> thinned K vs vs' -> thinned K' vs vs'.
Proof. intros H Ht. induction Ht; auto. Qed.
Lemma thinned_refl vs : thinned (removes []) vs vs.
Proof.
  induction vs as [|v vs IH]; [done|]. apply thin_keep; [|done]. cbn. rewrite bool_decide_eq_false_2 by apply not_elem_of_nil.
  destruct v. cbn. by rewrite andb_true_r.
Qed.
Lemma thinned_trans ids ids' vs vs1 vs2 : thinned (removes ids) vs vs1 -> thinned (removes ids') vs1 vs2 -> thinned (removes (ids ++ ids')) vs vs2.
Proof.
  intros Ht. revert vs2. induction Ht as [|v v' vs vs' Kv Ht IH|v vs vs' Kv Ht IH]; intros ws Ht'.
  - inversion Ht'. done.
  - cbn in Kv. subst v'. inversion Ht' as [|? w ? ws' Kw Hw|? ? ? Kw Hw]; subst.
    + apply thin_keep; [|by apply IH]. cbn in *. subst w. f_equal. rewrite <- andb_assoc, <- negb_orb. do 2 f_equal.
      rewrite <- bool_decide_or. apply bool_decide_ext. by rewrite elem_of_app.
    + apply thin_drop; [|by apply IH]. cbn in *. rewrite elem_of_app, andb_false_iff, negb_false_iff, bool_decide_eq_true in *. tauto.
  - apply thin_drop; [|by apply IH]. cbn in *. rewrite elem_of_app. tauto.
Qed.
Lemma removed_refl A : removed [] A A.
Proof. split; [done|]. split; [done|apply thinned_refl]. Qed.
Lemma removed_trans ids ids' A A1 A2 : removed ids A A1 -> removed ids' A1 A2 -> removed (ids ++ ids') A A2.
Proof. intros (Hs & Hc & Ht) (Hs' & Hc' & Ht'). split; [congruence|]. split; [congruence|by eapply thinned_trans]. Qed.
End Removal.

Section Device.
Context (c : option xts_cipher) (fallocate : file -> Z -> Z -> dres unit) (pin : Z -> dres unit) (ctx : dres unit).
Context (Hc : cipher_ok c) (Hpin : pinnable pin).
Local Notation removes := (removes pin).
Local Notation removed := (removed pin).
Local Notation removed_refl := (removed_refl pin).
Local Notation removed_trans := (removed_trans pin).

Definition shown (h : handle) (A : astore) : Prop := models c (h_gc h) (h_store h) A.

(** ** Calls that only collect *)

(** [m] leaves the blocks, the named versions and the room of the store as they are. *)
Definition keeps {X} (m : op X) : Prop := forall h A, shown h A ->
  exists A', removed [] A A' /\ shown (m h).2 A' /\ steady (h_store h) (h_store (m h).2).
Lemma keeps_same {X} (m : op X) : (forall h, h_store (m h).2 = h_store h /\ h_gc (m h).2 = h_gc h) -> keeps m.
Proof.
  intros H h A Hh. destruct (H h) as [Hs Hg]. exists A. split; [apply removed_refl|]. unfold shown. rewrite Hs, Hg. split; [done|apply steady_refl].
Qed.
Lemma keeps_bind {X Y} (m : op X) (k : X -> op Y) : keeps m -> (forall x, keeps (k x)) -> keeps (op_bind m k).
Proof.
  intros Hm Hk h A Hh. destruct (Hm h A Hh) as (A1 & Hr1 & Hs1 & Hy1). unfold op_bind. destruct (m h) as [[x|e] h1]; [|by exists A1].
  destruct (Hk x h1 A1 Hs1) as (A2 & Hr2 & Hs2 & Hy2). exists A2. split; [by apply (removed_trans [] [] A A1)|]. split; [done|by eapply steady_trans].
Qed.
Lemma keeps_with {X} (k : handle -> op X) : (forall h, keeps (k h)) -> keeps (with_handle k).
Proof. intros H h A Hh. by apply H. Qed.
Lemma keeps_restart : keeps (modify (set_gc gcScan0)).
Proof.
  intros h A (l & fp & L & gs & bs & U & Hst & _). exists A. split; [apply removed_refl|]. split; [|apply steady_refl].
  exists l, fp, L, gs, bs, U. split; [done|by left].
Qed.
Lemma keeps_healthy : keeps (healthy ctx).
Proof. by apply keeps_same. Qed.
Lemma keeps_release budget : keeps (gc_release c fallocate ctx budget).
Proof.
  intros h A Hh. unfold gc_release, op_bind. set (n := match candidates _ _ _ _ with Ok _ => _ | Err _ => _ end).
  destruct (release_models c (h_gc h) (h_store h) A budget h Hc Hh) as (ps & t & Hb & Hm & Hs & Hal & Hcm).
  pose proof (mutateOnce_spec c fallocate ctx (fun s => steady (h_store h) s /\ models c (h_gc h) s A) (release_body budget) 0 h A Hh) as Hmu.
  destruct (mutateOnce _ _ _ _ _ h) as [r h']. destruct Hmu as [Hg Hr].
  - rewrite Hb. split; [exact Hm|]. split; [done|]. split; [exact Hs|]. split; [rewrite Hal; by intros x ?%elem_of_nil|done].
  - exists A. split; [apply removed_refl|]. unfold shown. destruct r as [[]|e]; cbn [ret snd]; rewrite Hg; by destruct Hr.
Qed.
Lemma collects_removes v o : collects pin v o -> removes [] v o.
Proof.
  intros [->|(-> & Hv & Hp)]; cbn; [|by auto]. rewrite bool_decide_eq_false_2 by apply not_elem_of_nil. destruct v. cbn. by rewrite andb_true_r.
Qed.
Lemma keeps_versions_turn budget : keeps (gc_versions c fallocate pin ctx budget).
Proof.
  intros h A Hh. unfold gc_versions.
  destruct (walk_models c pin (h_deletion h) (h_gc h) (h_store h) A budget Hc Hpin Hh) as (b & g' & t & -> & Hal & Hcm). unfold op_bind.
  pose proof (mutateOnce_spec c fallocate ctx (fun s => steady (h_store h) s /\ exists vs, thinned (collects pin) (a_versions A) vs /\ models c g' s (mkAstore (a_size A) (a_cells A) vs))
    (fun _ => ret t) 0 h A Hh) as Hmu.
  destruct (mutateOnce _ _ _ _ _ h) as [r h']. destruct Hmu as [Hg Hr].
  - split; [exact Hh|]. split; [done|]. split; [apply steady_refl|]. split; [rewrite Hal; by intros x ?%elem_of_nil|done].
  - destruct r as [[]|e]; cbn [ret modify snd].
    + destruct Hr as (Hs & vs & Ht & Hm). exists (mkAstore (a_size A) (a_cells A) vs). split; [|done]. split; [done|]. split; [done|]. eapply thinned_mono; [apply collects_removes|exact Ht].
    + exists A. split; [apply removed_refl|]. unfold shown. rewrite Hg. by destruct Hr.
Qed.
Lemma keeps_gcLocked budget : keeps (gcLocked c fallocate pin ctx budget).
Proof.
  unfold gcLocked. apply keeps_bind; [apply keeps_healthy|]. intros _. apply keeps_with. intros h0.
  destruct (_ && _); [apply keeps_bind; [apply keeps_restart|by intros; apply keeps_same]|]. destruct (_ =? _)%nat; [by apply keeps_same|].
  apply keeps_bind; [apply keeps_same; intros h; cbn; by destruct (_ && _)|]. intros _.
  apply keeps_bind; [destruct (_ && _); [apply keeps_release|by apply keeps_same]|]. intros freed.
  apply keeps_bind; [apply keeps_with; intros h1; destruct (_ && _); [apply keeps_versions_turn|by apply keeps_same]|]. intros bl.
  apply keeps_with. intros h2. destruct (_ =? 0); [|by apply keeps_same]. destruct (_ =? 0); [|by apply keeps_same].
  apply keeps_bind; [apply keeps_restart|]. intros _. by apply keeps_same.
Qed.
Lemma keeps_assist n : forall freed, keeps (assist c fallocate pin ctx n freed).
Proof.
  induction n as [|n IH]; intros freed; cbn [assist]; [by apply keeps_same|]. apply keeps_with. intros h. destruct (_ && _); [by apply keeps_same|].
  apply keeps_bind; [apply keeps_gcLocked|]. intros [[] k]; [by apply keeps_same|apply IH|by apply keeps_same].
Qed.

(** ** Retrying *)

Section Retry.
Context (fn : transaction -> op transaction) (Q : Store -> Prop) (R : astore -> gcScan -> Store -> Prop).
Context (Hq : forall st s, steady st s -> Q st -> Q s).
Context (Hfn : forall h A, shown h A -> Q (h_store h) -> prepares c (R A (h_gc h)) A h (fn (begin (h_store h)) h)).
(** A call that ran [fn] at most a few times, collecting in between. *)
Definition settled_as (A : astore) (h : handle) (x : dres unit * handle) : Prop :=
  exists A', removed [] A A' /\
    match x.1 with
    | Ok _ => R A' (h_gc x.2) (h_store x.2)
    | Err _ => shown x.2 A' /\ steady (h_store h) (h_store x.2)
    end.
Lemma settled_fail {e} defer A A' h h' : removed [] A A' -> shown h' A' -> steady (h_store h) (h_store h') ->
  settled_as A h (if defer && bool_decide (h_fatal h' = None) then (Err e, h') else (Err e, fail_handle e h')).
Proof.
  intros Hr Hs Hy. destruct (_ && _); exists A'; (split; [done|]); cbn; [done|]. unfold shown. destruct (fail_same e h') as [-> ->]. done.
Qed.
Lemma attempts_spec n budget defer : forall h A, shown h A -> Q (h_store h) ->
  settled_as A h (mutate_attempts c fallocate pin ctx n fn budget defer h).
Proof.
  induction n as [|n IH]; intros h A Hh HQ; cbn [mutate_attempts].
  all: pose proof (mutateOnce_spec c fallocate ctx (R A (h_gc h)) fn budget h A Hh (Hfn h A Hh HQ)) as Hm.
  all: destruct (mutateOnce c fallocate ctx fn budget h) as [r h1]; destruct Hm as [Hg Hr].
  all: assert (settled_as A h (r, h1)) as Hdone by (exists A; split; [apply removed_refl|]; destruct r; cbn; unfold shown; by rewrite Hg).
  all: destruct r as [u|e]; [done|]; destruct e; try exact Hdone; destruct (bool_decide (h_fatal h1 <> None)); [exact Hdone|].
  all: destruct Hr as [Hm1 Hy1]; rewrite <- Hg in Hm1.
  - unfold reservationFailure, with_handle, raise, fail. pose proof (settled_fail (e := ErrReservation) defer A A h h1 (removed_refl A) Hm1 Hy1) as H.
    by destruct (_ && _).
  - unfold op_bind. destruct (keeps_assist 16 0 h1 A Hm1) as (A2 & Hr2 & Hs2 & Hy2). pose proof (steady_trans _ _ _ Hy1 Hy2) as Hy.
    destruct (assist c fallocate pin ctx 16 0 h1) as [[freed|e2] h2]; [|by exists A2]. cbn [fst snd] in *. destruct (freed =? 0).
    + unfold reservationFailure, with_handle, raise, fail. pose proof (settled_fail (e := ErrReservation) defer A A2 h h2 Hr2 Hs2 Hy) as H.
      by destruct (_ && _).
    + destruct (IH h2 A2 Hs2 (Hq _ _ Hy HQ)) as (A3 & Hr3 & H3). exists A3. split; [by apply (removed_trans [] [] A A2)|].
      destruct (_ .1); [done|]. destruct H3. split; [done|by eapply steady_trans].
Qed.
End Retry.

(** ** Calls that change flags of the control page *)

Definition same_place_ctrl (c0 c1 : control) : Prop :=
  Root c1 = Root c0 /\ Next c1 = Next c0 /\ Free c1 = Free c0 /\ Garbage c1 = Garbage c0 /\ Epoch c1 = Epoch c0 /\
  Protected c1 = Protected c0 /\ Head c1 = Head c0 /\ Tail c1 = Tail c0 /\ Pending c1 = Pending c0.
Lemma keeps_flags (k : control -> control) : (forall c0, control_ok c0 -> control_ok (k c0)) -> (forall c0, same_place_ctrl c0 (k c0)) ->
  keeps (mutate c fallocate pin ctx (fun t => ret (set_ctrl (k (t_ctrl t)) t))).
Proof.
  intros Hok Hk h A Hh. unfold mutate, mutate_policy.
  destruct (attempts_spec (fun t => ret (set_ctrl (k (t_ctrl t)) t)) (steady (h_store h)) (fun A g s => steady (h_store h) s /\ models c g s A)) with (n := 2%nat) (budget := 0) (defer := false) (h := h) (A := A)
    as (A' & Hr & H); [|..|done|apply steady_refl|].
  - intros st s H1 H2. by eapply steady_trans.
  - intros h1 A1 Hh1 Hq. unfold ret. split; [done|]. split; [done|]. split; [apply steady_refl|]. split; [by intros x ?%elem_of_nil|].
    intros s Hcm. destruct (Hk (t_ctrl (begin (h_store h1)))) as (? & ? & ? & ? & ? & ? & ? & ? & ?).
    destruct (flags_models c (h_gc h1) (h_store h1) A1 (k (s_ctrl (h_store h1))) Hc Hh1) with (s := s) as [Hs Hm]; try exact Hcm; try done.
    + apply Hok. destruct Hh1 as (l & fp & L & gs & bs & U & Hst & _). apply (w_ctrl _ (rd_wf _ (sd_ready _ _ _ _ _ _ _ _ _ Hst))).
    + split; [by eapply steady_trans|done].
  - exists A'. split; [done|]. destruct ((mutate_attempts _ _ _ _ _ _ _ _ _).1); unfold shown; by destruct H.
Qed.
Lemma keeps_clear : keeps (mutate c fallocate pin ctx clear_current).
Proof.
  apply (keeps_flags (set_Current 0)); [|done]. intros c0 H. unfold control_ok in *. destruct_and! H. by split_and!.
Qed.
Lemma keeps_MarkModified : keeps (MarkModified c fallocate pin ctx).
Proof.
  apply keeps_bind; [apply keeps_healthy|]. intros _. apply keeps_with. intros h. destruct (_ =? 0); [by apply keeps_same|apply keeps_clear].
Qed.

(** ** Calls with an effect *)

(** The blocks become [f] of what they were, and the names [ids] are withdrawn. *)
Definition becomes (f : (Z -> cell) -> Z -> cell) (ids : list (list Z)) (A A' : astore) : Prop :=
  a_size A' = a_size A /\ (forall k, a_cells A' k = f (a_cells A) k) /\ thinned (removes ids) (a_versions A) (a_versions A').
Lemma becomes_after f A A1 A2 : removed [] A A1 -> becomes f [] A1 A2 -> becomes f [] A A2.
Proof.
  intros (Hs1 & Hc1 & Ht1) (Hs2 & Hc2 & Ht2). split; [congruence|]. split; [by rewrite <- Hc1|by apply (thinned_trans pin [] [] _ (a_versions A1))].
Qed.
Definition write_cells (pages : list page) (cells : Z -> cell) (k : Z) : cell :=
  if bool_decide (k ∈ Block <$> pages) then Held (batch_data pages k) else cells k.
(** Room for a transaction that writes [MaxBatchPages] blocks. *)
Definition write_room (s : Store) : Prop := shallow s (pred maxDepth) /\ Next (s_ctrl s) + write_cost <= maxSlot + 1.
Lemma room_steady st s : steady st s -> write_room st -> write_room s.
Proof. intros Hs [H1 H2]. split; [by apply (sy_shallow _ _ Hs)|by rewrite (sy_next _ _ Hs)]. Qed.
Lemma write_batch_spec part defer h A : shown h A -> write_room (h_store h) -> Forall (valid_page (s_size (h_store h))) part ->
  (length part <= MaxBatchPages)%nat ->
  let (r, h') := write_batch c fallocate pin ctx part defer h in
  exists A', shown h' A' /\ match r with Ok _ => becomes (write_cells part) [] A A' | Err _ => removed [] A A' end.
Proof.
  intros Hh Hroom Hv Hlen. unfold write_batch, op_bind. destruct (healthy ctx h) as [[u|e] h0] eqn:E0; injection E0 as E0 <-; [|exists A; split; [done|apply removed_refl]].
  set (pre := with_handle _). assert (keeps pre) as Hpre.
  { apply keeps_with. intros h0. destruct (h_metadataOnly h0); [by apply keeps_same|]. destruct (_ =? 0); [by apply keeps_same|apply keeps_clear]. }
  destruct (Hpre h A Hh) as (A1 & Hr1 & Hs1 & Hy1). destruct (pre h) as [[v|e] h1]; [|by exists A1]. cbn [snd] in *.
  destruct (attempts_spec (fun t => lift (write_body part t)) (fun s => write_room s /\ s_size s = s_size (h_store h)) (fun A g s => models c g s (a_write part A)))
    with (n := 2%nat) (budget := 0) (defer := defer) (h := h1) (A := A1) as (A2 & Hr2 & H2).
  - intros st s Hs [H1 H2]. split; [by eapply room_steady|by rewrite (sy_size _ _ Hs)].
  - intros h2 A2 Hh2 [[Hsh Hnx] Hsz]. destruct (write_models c (h_gc h2) (h_store h2) A2 part) as (t & Hb & Hal & Hcm); try done; [by rewrite Hsz|].
    unfold lift. rewrite Hb. split; [done|]. split; [done|]. split; [apply steady_refl|]. split; [done|]. intros s Hs. by apply Hcm.
  - done.
  - split; [by eapply room_steady|by rewrite (sy_size _ _ Hy1)].
  - unfold mutate_policy. destruct (mutate_attempts _ _ _ _ _ _ _ _ _) as [[u2|e] h2]; cbn [fst snd] in H2.
    + exists (a_write part A2). split; [done|]. apply (becomes_after _ A A1); [done|]. apply (becomes_after _ A1 A2); [done|]. split; [done|]. split; [done|].
      apply thinned_refl.
    + exists A2. split; [apply H2|]. by apply (removed_trans [] [] A A1).
Qed.

(** A page as a caller can pass it: a 64-bit block number and bytes. *)
Definition page_arg (p : page) : Prop := 0 <= Block p /\ bytes_ok (Data p).
Lemma WritePages_spec pages h A : shown h A -> write_room (h_store h) -> Forall page_arg pages -> (length pages <= MaxBatchPages)%nat ->
  let (r, h') := WritePages c fallocate pin ctx pages h in
  exists A', shown h' A' /\ match r with Ok _ => becomes (write_cells pages) [] A A' | Err _ => removed [] A A' end.
Proof.
  intros Hh Hroom Harg Hlen. unfold WritePages, writePages. pose proof (removed_refl A) as H0. destruct pages as [|p pages].
  { unfold lift. exists A. split; [done|]. destruct ctx; [|done]. split; [done|]. split; [|apply thinned_refl]. intros k. unfold write_cells.
    by rewrite bool_decide_eq_false_2 by apply not_elem_of_nil. }
  cbn [andb]. unfold with_handle, op_bind. destruct (existsb _ _) eqn:Ev; [by exists A|].
  destruct (keeps_MarkModified h A Hh) as (A1 & Hr1 & Hs1 & Hy1). destruct (MarkModified _ _ _ _ h) as [[u|e] h1]; [|by exists A1]. cbn [snd] in *.
  cbn [length write_batches]. rewrite take_ge, drop_ge by done. unfold op_bind.
  pose proof (write_batch_spec (p :: pages) false h1 A1 Hs1 (room_steady _ _ Hy1 Hroom)) as Hb. rewrite (sy_size _ _ Hy1) in Hb.
  assert (Forall (valid_page (s_size (h_store h))) (p :: pages)) as Hv.
  { rewrite Forall_forall in *. intros q Hq. destruct (Harg q Hq) as [Hb0 Hby]. assert (invalid_page (h_size h) q = false) as Hi.
    { apply not_true_is_false. intros E. assert (existsb (invalid_page (h_size h)) (p :: pages) = true) as Ex; [|congruence].
      apply existsb_exists. exists q. split; [by apply list_elem_of_In|done]. }
    unfold invalid_page, h_size in Hi. apply orb_false_iff in Hi as [Hl Hk]. bool_prop. split; [lia|]. split; [|done]. by apply Nat2Z.inj. }
  specialize (Hb Hv Hlen). destruct (write_batch _ _ _ _ _ _ h1) as [[u2|e] h2]; destruct Hb as (A2 & Hs2 & H2).
  - destruct (length pages); cbn; exists A2; (split; [done|by apply (becomes_after _ A A1)]).
  - exists A2. split; [done|by apply (removed_trans [] [] A A1)].
Qed.

(** ** Discarding *)

Definition zero_cells (first stop : Z) (cells : Z -> cell) (k : Z) : cell := if (first <=? k) && (k <? stop) then Zeroed else cells k.
(** The slots a discarding transaction may take. *)
Definition zero_cost (s : Store) : Z := 2 * Z.of_nat maxDepth * (s_size s / PageSize).
Definition zero_runs (runs : list (Z * Z)) (cells : Z -> cell) (k : Z) : cell := if bool_decide (in_runs k runs) then Zeroed else cells k.
Lemma discard_once_runs runs budget h A : shown h A -> Forall (valid_run (s_size (h_store h))) runs ->
  Next (s_ctrl (h_store h)) + zero_cost (h_store h) * Z.of_nat (length runs) <= maxSlot + 1 ->
  let (r, h') := discard_once c fallocate pin ctx runs budget h in
  exists A', shown h' A' /\ match r with
    | Ok _ => becomes (zero_runs runs) [] A A' /\ grows (zero_cost (h_store h) * Z.of_nat (length runs)) (h_store h) (h_store h')
    | Err _ => removed [] A A' /\ steady (h_store h) (h_store h') end.
Proof.
  intros Hh Hv Hroom. unfold discard_once, op_bind. pose proof (removed_refl A) as H0. pose proof (steady_refl (h_store h)) as Hs0.
  destruct (healthy ctx h) as [[u|e] h0] eqn:E0; injection E0 as E0 <-; [|by exists A]. unfold with_handle. destruct (h_metadataOnly h); [by exists A|]. cbn [ret].
  destruct (attempts_spec (discard_body runs) (steady (h_store h))
    (fun A g s => models c g s (a_discard runs A) /\ grows (zero_cost (h_store h) * Z.of_nat (length runs)) (h_store h) s))
    with (n := 2%nat) (budget := budget) (defer := false) (h := h) (A := A) as (A2 & Hr2 & H2); try done.
  - intros st s H1 H2. by eapply steady_trans.
  - intros h2 A2 Hh2 Hy. pose proof (sy_size _ _ Hy) as Hsz. pose proof (sy_next _ _ Hy) as Hnx.
    destruct (discard_models c (h_gc h2) (h_store h2) A2 runs h2) as (t & Hbd & Hal & Hcm); try done.
    { rewrite Hsz, Hnx. exact Hroom. } { by rewrite Hsz. }
    rewrite Hbd. split; [done|]. split; [done|]. split; [apply steady_refl|]. split; [done|]. intros s Hs. destruct (Hcm s Hs) as [Hm [Hg1 Hg2]]. split; [done|].
    rewrite Hsz in *. split; [congruence|]. unfold zero_cost. lia.
  - unfold mutate_policy. destruct (mutate_attempts _ _ _ _ _ _ _ _ _) as [[u2|e] h2]; cbn [fst snd] in H2.
    + exists (a_discard runs A2). destruct H2 as [Hm Hg]. split; [done|]. split; [|done]. apply (becomes_after _ A A2); [done|].
      split; [done|]. split; [|apply thinned_refl]. by intros k.
    + exists A2. by destruct H2.
Qed.
Lemma becomes_ext f f' A A' : (forall cells k, f' cells k = f cells k) -> becomes f [] A A' -> becomes f' [] A A'.
Proof. intros Hf (Hs & Hc1 & Ht). split; [done|]. split; [|done]. intros k. by rewrite Hf. Qed.
Lemma discard_once_spec a b budget h A : shown h A -> 0 <= a < b -> b <= s_size (h_store h) / PageSize ->
  Next (s_ctrl (h_store h)) + zero_cost (h_store h) <= maxSlot + 1 ->
  let (r, h') := discard_once c fallocate pin ctx [(a, b)] budget h in
  exists A', shown h' A' /\ match r with
    | Ok _ => becomes (zero_cells a b) [] A A' /\ grows (zero_cost (h_store h)) (h_store h) (h_store h')
    | Err _ => removed [] A A' /\ steady (h_store h) (h_store h') end.
Proof.
  intros Hh Ha Hb Hroom. pose proof (discard_once_runs [(a, b)] budget h A Hh) as H. cbn [length] in H.
  replace (zero_cost (h_store h) * Z.of_nat 1) with (zero_cost (h_store h)) in H by lia. specialize (H ltac:(by apply Forall_singleton) Hroom).
  destruct (discard_once _ _ _ _ _ _ h) as [[u|e] h1]; destruct H as (A' & Hs & H); exists A'; split; try done.
  destruct H as [H ?]. split; [|done]. eapply becomes_ext; [|exact H]. intros cells k. unfold zero_cells, zero_runs. case_bool_decide as E.
  - destruct E as (r & Hr & Hk). apply list_elem_of_singleton in Hr as ->. cbn in Hk. by rewrite (proj2 (Z.leb_le _ _)), (proj2 (Z.ltb_lt _ _)) by lia.
  - destruct (Z.leb_spec a k), (Z.ltb_spec k b); try done. exfalso. apply E. exists (a, b). split; [by left|done].
Qed.
Lemma becomes_zero a m b A A1 A2 : a <= m <= b -> becomes (zero_cells a m) [] A A1 -> becomes (zero_cells m b) [] A1 A2 -> becomes (zero_cells a b) [] A A2.
Proof.
  intros Hm (Hs1 & Hc1 & Ht1) (Hs2 & Hc2 & Ht2). split; [congruence|]. split.
  - intros k. rewrite Hc2. unfold zero_cells. rewrite Hc1. unfold zero_cells. destruct (Z.leb_spec m k), (Z.ltb_spec k b), (Z.leb_spec a k), (Z.ltb_spec k m); cbn; try done; lia.
  - by apply (thinned_trans pin [] [] _ (a_versions A1)).
Qed.
Lemma becomes_none a A A1 : removed [] A A1 -> becomes (zero_cells a a) [] A A1.
Proof.
  intros Hr. eapply becomes_after; [exact Hr|]. split; [done|]. split; [|apply thinned_refl]. intros k. unfold zero_cells.
  destruct (Z.leb_spec a k), (Z.ltb_spec k a); try done; lia.
Qed.
Lemma discard_loop_models budget fuel : forall pos end_ stop h A r h', pos = stop \/ pos < end_ <= stop -> 0 <= pos -> stop <= s_size (h_store h) / PageSize ->
  shown h A -> Next (s_ctrl (h_store h)) + zero_cost (h_store h) * (stop - pos) <= maxSlot + 1 ->
  discard_loop c fallocate pin ctx fuel pos end_ stop budget h = Some (r, h') ->
  exists mid A', pos <= mid <= stop /\ shown h' A' /\ becomes (zero_cells pos mid) [] A A' /\ (r = Ok tt -> mid = stop).
Proof.
  induction fuel as [|fuel IH]; intros pos end_ stop h A r h' Hp H0 Hst Hh Hroom; [done|]. cbn [discard_loop].
  pose proof (becomes_none pos A A (removed_refl A)) as Hnone.
  destruct (Z.ltb_spec pos stop) as [Hlt|Hge].
  2: { intros [= <- <-]. exists pos, A. split_and!; try done; try lia. }
  destruct Hp as [?|Hp]; [lia|]. assert (0 <= zero_cost (h_store h)) as Hz.
  { unfold zero_cost. assert (0 <= s_size (h_store h) / PageSize) by lia. nia. }
  pose proof (discard_once_spec pos end_ budget h A Hh ltac:(lia) ltac:(lia) ltac:(nia)) as Ho.
  destruct (discard_once _ _ _ _ _ _ h) as [[u|e] h1]; destruct Ho as (A1 & Hs1 & H1).
  - destruct H1 as [Hb [Hg1 Hg2]]. assert (zero_cost (h_store h1) = zero_cost (h_store h)) as Hzc by (unfold zero_cost; by rewrite Hg1). intros Hl.
    destruct (IH end_ (next_end end_ stop) stop h1 A1 r h') as (mid & A2 & Hmid & Hs2 & Hb2 & Hr2); try done; try lia.
    + destruct (decide (end_ = stop)); [by left|right]. pose proof (next_end_bounds end_ stop ltac:(lia)). lia.
    + by rewrite Hg1.
    + rewrite Hzc. nia.
    + exists mid, A2. split_and!; try done; try lia. apply (becomes_zero pos end_ mid A A1 A2); [lia|done|done].
  - destruct H1 as [Hr1 Hy1].
    assert (forall e, Some (Err e, h1) = Some (r, h') -> exists mid A', pos <= mid <= stop /\ shown h' A' /\ becomes (zero_cells pos mid) [] A A' /\ (r = Ok tt -> mid = stop)) as Hstop.
    { intros e0 [= <- <-]. exists pos, A1. split; [lia|]. split; [done|]. split; [|done]. by apply becomes_none. }
    assert (zero_cost (h_store h1) = zero_cost (h_store h)) as Hzc by (unfold zero_cost; by rewrite (sy_size _ _ Hy1)).
    destruct e; try exact (Hstop _). destruct (Z.ltb_spec 1 (end_ - pos)); [|exact (Hstop _)]. intros Hl.
    pose proof (Z.div_lt (end_ - pos) 2 ltac:(lia) ltac:(lia)) as Hdv.
    destruct (IH pos (pos + Z.max 1 ((end_ - pos) / 2)) stop h1 A1 r h') as (mid & A2 & Hmid & Hs2 & Hb2 & Hr2); try done; try lia.
    + by rewrite (sy_size _ _ Hy1).
    + rewrite Hzc, (sy_next _ _ Hy1). done.
    + exists mid, A2. split_and!; try done; try lia. by eapply becomes_after.
Qed.
Lemma Discard_spec off len h A : shown h A ->
  Next (s_ctrl (h_store h)) + zero_cost (h_store h) * (s_size (h_store h) / PageSize) <= maxSlot + 1 ->
  let (r, h') := Discard c fallocate pin ctx off len h in
  exists mid A', off / PageSize <= mid <= Z.max (off / PageSize) ((off + len) / PageSize) /\ shown h' A' /\ becomes (zero_cells (off / PageSize) mid) [] A A' /\ (r = Ok tt -> mid = (off + len) / PageSize).
Proof.
  intros Hh Hroom. unfold Discard, discardWithRedoBudget. change ((maxLogPages <=? 0) || (maxLogPages <? maxLogPages)) with false. cbn [orb].
  assert (forall e h', shown h' A -> exists mid A', off / PageSize <= mid <= Z.max (off / PageSize) ((off + len) / PageSize) /\ shown h' A' /\ becomes (zero_cells (off / PageSize) mid) [] A A' /\
    (@Err diff_error unit e = Ok tt -> mid = (off + len) / PageSize)) as Hno.
  { intros e h' Hs. exists (off / PageSize), A. split; [lia|]. split; [done|]. split; [|done]. apply becomes_none, removed_refl. }
  unfold with_handle. destruct (_ || _) eqn:Earg; [by apply Hno|]. repeat (apply orb_false_iff in Earg as [Earg ?]). bool_prop.
  assert (PageSize = 4096) as HP by done. destruct (Z.eqb_spec len 0) as [->|Hl0].
  { unfold lift. destruct ctx as [[]|e]; [|by apply Hno]. exists (off / PageSize), A. rewrite Z.add_0_r. split; [lia|]. split; [done|].
    split; [|done]. apply becomes_none, removed_refl. }
  unfold op_bind. destruct (keeps_MarkModified h A Hh) as (A1 & Hr1 & Hs1 & Hy1). destruct (MarkModified _ _ _ _ h) as [[u|e] h1]; cbn [snd] in *; last first.
  { exists (off / PageSize), A1. split; [lia|]. split; [done|]. split; [by apply becomes_none|done]. }
  set (pos := off / PageSize). set (stop := (off + len) / PageSize). unfold h_size in *.
  assert (0 <= pos < stop) as Hps by
    (unfold pos, stop; rewrite HP in *; pose proof (Z.div_mod off 4096 ltac:(lia)); pose proof (Z.div_mod len 4096 ltac:(lia));
     pose proof (Z.div_mod (off + len) 4096 ltac:(lia)); pose proof (Z.mod_pos_bound (off + len) 4096 ltac:(lia)); lia).
  assert (stop <= s_size (h_store h) / PageSize) as Hst by (unfold stop; apply Z.div_le_mono; lia).
  unfold run_loop. destruct (next_end_bounds pos stop ltac:(lia)) as [Hne1 Hne2].
  destruct (discard_loop_spec c fallocate pin ctx maxLogPages (discard_fuel pos (next_end pos stop) stop) pos (next_end pos stop) stop h1) as (r & h' & Hl & _);
    [by right|unfold discard_fuel; lia|right; unfold discard_fuel, work, MaxDiscardPages in *; nia|].
  rewrite Hl. cbn [default]. assert (zero_cost (h_store h1) = zero_cost (h_store h)) as Hzc by (unfold zero_cost; by rewrite (sy_size _ _ Hy1)).
  assert (0 <= zero_cost (h_store h)) as Hz by (unfold zero_cost; assert (0 <= s_size (h_store h) / PageSize) by lia; nia).
  destruct (discard_loop_models maxLogPages (discard_fuel pos (next_end pos stop) stop) pos (next_end pos stop) stop h1 A1 r h') as (mid & A2 & Hm & Hs2 & Hb & Hr); try done; try lia.
  - by rewrite (sy_size _ _ Hy1).
  - rewrite Hzc, (sy_next _ _ Hy1). nia.
  - exists mid, A2. split_and!; try done; try lia. by eapply becomes_after.
Qed.

(** *** Blocks one by one *)

Definition zero_blocks (l : list Z) (cells : Z -> cell) (k : Z) : cell := if bool_decide (k ∈ l) then Zeroed else cells k.
Lemma block_runs_spec l : forall first last, first <= last ->
  (forall k, in_runs k (block_runs first last l) <-> first <= k <= last \/ k ∈ l) /\ (length (block_runs first last l) <= S (length l))%nat /\
  Forall (fun r => r.1 < r.2) (block_runs first last l).
Proof.
  assert (forall k a b rs, in_runs k ((a, b) :: rs) <-> a <= k < b \/ in_runs k rs) as Hcons.
  { intros k a b rs. split.
    - intros (r & [->|Hr]%elem_of_cons & Hk); [by left|right; by exists r].
    - intros [Hk|(r & Hr & Hk)]; [exists (a, b); split; [by left|done]|exists r; split; [by right|done]]. }
  induction l as [|b l IH]; intros first last Hle; cbn [block_runs].
  { split; [|split; [cbn; lia|apply Forall_singleton; cbn; lia]]. intros k. rewrite Hcons.
    split; [intros [?|(r & []%elem_of_nil & _)]; left; lia|]. intros [?|[]%elem_of_nil]. left. lia. }
  destruct (Z.eqb_spec b (last + 1)) as [->|Hne].
  - destruct (IH first (last + 1) ltac:(lia)) as (Hi & Hl & Hf). split; [|split; [cbn [length] in *; lia|done]].
    intros k. rewrite Hi, elem_of_cons. intuition lia.
  - destruct (IH b b ltac:(lia)) as (Hi & Hl & Hf). split; [|split; [cbn [length] in *; lia|constructor; [cbn; lia|done]]].
    intros k. rewrite Hcons, Hi, elem_of_cons. intuition lia.
Qed.
Lemma runs_of_spec l : (forall k, in_runs k (runs_of l) <-> k ∈ l) /\ (length (runs_of l) <= length l)%nat /\ Forall (fun r => r.1 < r.2) (runs_of l).
Proof.
  destruct l as [|b l]; cbn [runs_of].
  { split; [|split; [cbn; lia|constructor]]. intros k. split; [intros (r & []%elem_of_nil & _)|intros []%elem_of_nil]. }
  destruct (block_runs_spec l b b ltac:(lia)) as (Hi & Hl & Hf). split; [|done]. intros k. rewrite Hi, elem_of_cons. intuition lia.
Qed.
Lemma runs_of_valid size l : Forall (fun b => 0 <= b < size / PageSize) l -> Forall (valid_run size) (runs_of l).
Proof.
  intros Hl. destruct (runs_of_spec l) as (Hi & _ & Hf). apply Forall_forall. rewrite Forall_forall in Hl. rewrite Forall_forall in Hf. intros [a b] Hr. specialize (Hf _ Hr). cbn in Hf.
  assert (a ∈ l) as Ha by (apply Hi; exists (a, b); cbn; split; [done|lia]). assert (b - 1 ∈ l) as Hb by (apply Hi; exists (a, b); cbn; split; [done|lia]).
  apply Hl in Ha, Hb. split; cbn; lia.
Qed.
Lemma discard_window_spec fuel : forall n todo h A, shown h A -> todo = [] \/ (1 <= n <= length todo)%nat ->
  Forall (fun b => 0 <= b < s_size (h_store h) / PageSize) todo ->
  Next (s_ctrl (h_store h)) + zero_cost (h_store h) * Z.of_nat (length todo) <= maxSlot + 1 ->
  (length todo * (length todo + 1) + n < fuel)%nat ->
  exists r h' out rest A', discard_window c fallocate pin ctx fuel n todo h = Some (r, h') /\ todo = out ++ rest /\
    shown h' A' /\ becomes (zero_blocks out) [] A A' /\ (r = Ok tt -> rest = []).
Proof.
  assert (forall A A', removed [] A A' -> becomes (zero_blocks []) [] A A') as Hnone.
  { intros A A' Hr. eapply becomes_after; [exact Hr|]. split; [done|]. split; [|apply thinned_refl]. done. }
  induction fuel as [|fuel IH]; intros n todo h A Hh Hn Hv Hroom Hf; [lia|]. cbn [discard_window].
  destruct todo as [|b0 todo0]; [exists (Ok tt), h, [], [], A; split_and!; try done; apply Hnone, removed_refl|].
  set (todo := b0 :: todo0) in *. destruct Hn as [?|Hn]; [done|].
  destruct (runs_of_spec (take n todo)) as (Hi & Hl & _). rewrite length_take in Hl.
  assert (0 <= s_size (h_store h) / PageSize) as H0 by (apply Forall_cons in Hv as [? _]; lia).
  assert (0 <= zero_cost (h_store h)) as Hz by (unfold zero_cost; nia).
  pose proof (discard_once_runs (runs_of (take n todo)) maxLogPages h A Hh (runs_of_valid _ _ (Forall_take _ _ _ Hv)) ltac:(nia)) as Ho.
  destruct (discard_once _ _ _ _ _ _ h) as [[u|e] h1]; destruct Ho as (A1 & Hs1 & H1).
  - destruct H1 as [Hb [Hg1 Hg2]]. assert (zero_cost (h_store h1) = zero_cost (h_store h)) as Hzc by (unfold zero_cost; by rewrite Hg1).
    pose proof (length_drop todo n) as Hd. destruct (IH (length (drop n todo)) (drop n todo) h1 A1) as (r & h' & out & rest & A2 & -> & Ht & Hs2 & Hb2 & Hr2); try done.
    + destruct (drop n todo) eqn:E; [by left|right; cbn; lia].
    + rewrite Hg1. by apply Forall_drop.
    + rewrite Hzc. nia.
    + nia.
    + exists r, h', (take n todo ++ out), rest, A2. split; [done|]. split; [by rewrite <- app_assoc, <- Ht, take_drop|]. split; [done|]. split; [|done].
      destruct Hb as (Ha1 & Hc1 & Ht1), Hb2 as (Ha2 & Hc2 & Ht2). split; [congruence|]. split; [|by apply (thinned_trans pin [] [] _ (a_versions A1))].
      intros k. rewrite Hc2. unfold zero_blocks. rewrite Hc1. unfold zero_runs.
      rewrite (bool_decide_ext _ _ (Hi k)), (bool_decide_ext _ _ (elem_of_app (take n todo) out k)), bool_decide_or.
      by destruct (bool_decide (k ∈ out)), (bool_decide (k ∈ take n todo)).
  - destruct H1 as [Hr1 Hy1].
    assert (forall e : diff_error, exists (r : dres unit) h' out rest A', Some (Err e, h1) = Some (r, h') /\ todo = out ++ rest /\ shown h' A' /\ becomes (zero_blocks out) [] A A' /\ (r = Ok tt -> rest = [])) as Hstop.
    { intros e0. exists (Err e0), h1, [], todo, A1. split_and!; try done. by apply Hnone. }
    assert (zero_cost (h_store h1) = zero_cost (h_store h)) as Hzc by (unfold zero_cost; by rewrite (sy_size _ _ Hy1)).
    destruct e; try apply Hstop. destruct (Nat.ltb_spec 1 n) as [Hw|Hw]; [|apply Hstop].
    pose proof (Nat.div_lt n 2 ltac:(lia) ltac:(lia)). pose proof (Nat.div_str_pos n 2 ltac:(lia)).
    destruct (IH (n / 2)%nat todo h1 A1) as (r & h' & out & rest & A2 & -> & Ht & Hs2 & Hb2 & Hr2); try done.
    + right. lia.
    + by rewrite (sy_size _ _ Hy1).
    + by rewrite Hzc, (sy_next _ _ Hy1).
    + lia.
    + exists r, h', out, rest, A2. split_and!; try done. by eapply becomes_after.
Qed.
Lemma DiscardPages_spec blocks h A : shown h A -> Forall (fun b => 0 <= b) blocks ->
  Next (s_ctrl (h_store h)) + zero_cost (h_store h) * Z.of_nat (length blocks) <= maxSlot + 1 ->
  let (r, h') := DiscardPages c fallocate pin ctx blocks h in
  exists out A', (forall k, k ∈ out -> k ∈ blocks) /\ shown h' A' /\ becomes (zero_blocks out) [] A A' /\ (r = Ok tt -> forall k, k ∈ blocks -> k ∈ out).
Proof.
  intros Hh Hnn Hroom. assert (forall A', removed [] A A' -> becomes (zero_blocks []) [] A A') as Hnone.
  { intros A' Hr. eapply becomes_after; [exact Hr|]. split; [done|]. split; [|apply thinned_refl]. done. }
  assert (forall e h', shown h' A -> exists out A', (forall k, k ∈ out -> k ∈ blocks) /\ shown h' A' /\ becomes (zero_blocks out) [] A A' /\
    (@Err diff_error unit e = Ok tt -> forall k, k ∈ blocks -> k ∈ out)) as Hno.
  { intros e h' Hs. exists [], A. split_and!; try done; [by intros k ?%elem_of_nil|]. apply Hnone, removed_refl. }
  unfold DiscardPages. destruct blocks as [|b0 bl0].
  { unfold lift. destruct ctx as [[]|e]; [|by apply Hno]. exists [], A. split_and!; try done. apply Hnone, removed_refl. }
  set (blocks := b0 :: bl0) in *. destruct (_ <? _); [by apply Hno|]. unfold with_handle. destruct (_ || _) eqn:Ev; [by apply Hno|].
  apply orb_false_iff in Ev as [Ev _]. unfold op_bind.
  destruct (keeps_MarkModified h A Hh) as (A1 & Hr1 & Hs1 & Hy1). destruct (MarkModified _ _ _ _ h) as [[u|e] h1]; cbn [snd] in *; last first.
  { exists [], A1. split_and!; try done; [by intros k ?%elem_of_nil|]. by apply Hnone. }
  set (ord := merge_sort Z.le blocks) in *. pose proof (merge_sort_Permutation Z.le blocks) as Hperm. fold ord in Hperm.
  assert (length ord = length blocks) as Hlen by (by rewrite Hperm).
  assert (zero_cost (h_store h1) = zero_cost (h_store h)) as Hzc by (unfold zero_cost; by rewrite (sy_size _ _ Hy1)).
  destruct (discard_window_spec (window_fuel (length ord) ord) (length ord) ord h1 A1) as (r & h' & out & rest & A2 & Hw & Ht & Hs2 & Hb2 & Hr2); try done.
  - right. rewrite Hlen. cbn. lia.
  - rewrite (sy_size _ _ Hy1). apply Forall_forall. intros b Hb. assert (b ∈ blocks) as Hb' by (by rewrite <- Hperm).
    rewrite Forall_forall in Hnn. split; [by apply Hnn|]. destruct (Z.ltb_spec b (s_size (h_store h) / PageSize)); [done|]. exfalso.
    apply not_true_iff_false in Ev. apply Ev, existsb_exists. exists b. split; [by apply list_elem_of_In|]. by apply Z.leb_le.
  - by rewrite Hzc, (sy_next _ _ Hy1), Hlen.
  - unfold window_fuel. lia.
  - unfold run_loop. rewrite Hw. cbn [default]. exists out, A2. split_and!; try done.
    + intros k Hk. rewrite <- Hperm, Ht. apply elem_of_app. by left.
    + by eapply becomes_after.
    + intros Er k Hk. rewrite <- Hperm, Ht, (Hr2 Er), app_nil_r in Hk. done.
Qed.

(** ** Versions *)

(** A version of the current blocks is added under the name [id]. *)
Definition snapshot (id : list Z) (A A' : astore) : Prop :=
  exists A1 x r u, removed [] A A1 /\ A' = mkAstore (a_size A1) (a_cells A1) (a_versions A1 ++ [mkVersion id true x r u (a_cells A1)]).
Definition version_room (s : Store) : Prop := Next (s_ctrl s) + 1 + Pages (s_size s) <= maxSlot + 1 /\ Epoch (s_ctrl s) + 1 < 2 ^ 64.
Lemma CheckpointOp_spec id h A : shown h A -> bytes_ok id -> version_room (h_store h) ->
  let (r, h') := CheckpointOp c fallocate pin ctx id h in
  exists A', shown h' A' /\ match r with Ok _ => snapshot id A A' | Err _ => removed [] A A' end.
Proof.
  intros Hh Hby [Hrm Hep]. unfold CheckpointOp, op_bind. unfold lift at 1. pose proof (removed_refl A) as H0.
  destruct (ValidID id) as [[]|e] eqn:Hid; [|by exists A]. destruct (healthy ctx h) as [[u|e] h0] eqn:E0; injection E0 as E0 <-; [|by exists A].
  unfold with_handle. destruct (findCheckpoint (begin (h_store h)) id) as [p|e] eqn:Ef; [by exists A|].
  assert (forall e, let (r, h') := @fail unit e h in exists A', shown h' A' /\ match r with Ok _ => snapshot id A A' | Err _ => removed [] A A' end) as Hf.
  { intros e0. exists A. split; [|done]. unfold shown. by destruct (fail_same e0 h) as [-> ->]. }
  destruct e; try apply Hf. unfold mutate, mutate_policy.
  destruct (attempts_spec (fun t => lift (checkpoint_body t id)) (steady (h_store h))
    (fun A g s => exists x r u, models c g s (mkAstore (a_size A) (a_cells A) (a_versions A ++ [mkVersion id true x r u (a_cells A)]))))
    with (n := 2%nat) (budget := 0) (defer := false) (h := h) (A := A) as (A2 & Hr2 & H2); try done.
  - intros st s H1 H2. by eapply steady_trans.
  - intros h2 A2 Hh2 Hy. destruct (checkpoint_models c (h_gc h2) (h_store h2) A2 id) as (t & Hb & Hal & Hcm); try done.
    + by apply (sy_unnamed _ _ Hy).
    + by rewrite (sy_next _ _ Hy), (sy_size _ _ Hy).
    + by rewrite (sy_epoch _ _ Hy).
    + unfold lift. rewrite Hb. split; [done|]. split; [done|]. split; [apply steady_refl|]. by split.
  - destruct (mutate_attempts _ _ _ _ _ _ _ _ _) as [[u2|e] h2]; cbn [fst snd] in H2.
    + destruct H2 as (x & r & us & H2). eexists. split; [exact H2|]. by exists A2, x, r, us.
    + exists A2. by destruct H2.
Qed.
Lemma deletes_removes ids v o : deletes pin ids v o -> removes ids v o.
Proof.
  unfold deletes, removes. destruct (_ && _) eqn:E.
  - apply andb_true_iff in E as [E1 E2]. apply bool_decide_eq_true in E1. intros [[-> Hp]| ->]; [by auto|]. unfold hidden. by rewrite E2, bool_decide_eq_true_2.
  - intros ->. destruct v as [i b x r u f]. cbn in *. f_equal. destruct b; [|done]. rewrite andb_true_r in E. by rewrite E.
Qed.
Lemma delete_batch_spec ids h A : shown h A ->
  let (r, h') := delete_batch c fallocate pin ctx ids h in
  exists A', shown h' A' /\ match r with Ok _ => removed ids A A' | Err _ => removed [] A A' end.
Proof.
  intros Hh. unfold delete_batch, mutate, mutate_policy.
  destruct (attempts_spec (fun t h => let (n, r) := delete_body pin (h_deletion h) t ids in (r, set_deletion n h)) (fun _ => True)
    (fun A g s => exists A', removed ids A A' /\ models c g s A')) with (n := 2%nat) (budget := 0) (defer := false) (h := h) (A := A) as (A2 & Hr2 & H2); try done.
  - intros h2 A2 Hh2 _. destruct (delete_models c pin (h_deletion h2) (h_gc h2) (h_store h2) A2 ids Hc Hpin Hh2) as (n & r & -> & Hr).
    split; [done|]. split; [done|]. split; [apply steady_refl|]. destruct r as [t|e]; [|done]. destruct Hr as [Hal Hcm]. cbn [set_deletion h_store].
    split; [rewrite Hal; by intros x ?%elem_of_nil|]. intros s Hs. destruct (Hcm s Hs) as (vs & Ht & Hm). exists (mkAstore (a_size A2) (a_cells A2) vs). split; [|done].
    split; [done|]. split; [done|]. eapply thinned_mono; [apply deletes_removes|exact Ht].
  - destruct (mutate_attempts _ _ _ _ _ _ _ _ _) as [[u2|e] h2]; cbn [fst snd] in H2.
    + destruct H2 as (A3 & Hr3 & Hm). exists A3. split; [done|]. by apply (removed_trans [] ids A A2).
    + exists A2. by destruct H2.
Qed.
Lemma delete_batches_spec n : forall ids h A, shown h A -> (length ids <= n)%nat ->
  let (r, h') := delete_batches c fallocate pin ctx n ids h in
  exists done A', shown h' A' /\ removed done A A' /\ match r with Ok _ => done = ids | Err _ => exists rest, ids = done ++ rest end.
Proof.
  induction n as [|n IH]; intros ids h A Hh Hn.
  { destruct ids; [|cbn in Hn; lia]. exists [], A. split; [done|]. split; [apply removed_refl|done]. }
  cbn [delete_batches]. destruct ids as [|id ids]; [exists [], A; split; [done|]; split; [apply removed_refl|done]|]. set (l := id :: ids) in *. unfold op_bind.
  pose proof (delete_batch_spec (take MaxBatchPages l) h A Hh) as Hb.
  destruct (delete_batch c fallocate pin ctx (take MaxBatchPages l) h) as [[u|e] h1]; destruct Hb as (A1 & Hs1 & Hr1); last first.
  { exists [], A1. split; [done|]. split; [done|]. by exists l. }
  specialize (IH (drop MaxBatchPages l) h1 A1 Hs1). destruct (delete_batches _ _ _ _ _ _ h1) as [r h2].
  destruct IH as (dn & A2 & Hs2 & Hr2 & H2); [rewrite length_drop; unfold MaxBatchPages, l in *; cbn [length] in *; lia|].
  exists (take MaxBatchPages l ++ dn), A2. split; [done|]. split; [by eapply removed_trans|]. destruct r as [u2|e].
  - subst dn. by rewrite take_drop.
  - destruct H2 as (rest & E). exists rest. by rewrite <- app_assoc, <- E, take_drop.
Qed.
Lemma DeleteCheckpoints_spec ids h A : shown h A ->
  let (r, h') := DeleteCheckpoints c fallocate pin ctx ids h in
  exists done A', shown h' A' /\ removed done A A' /\ match r with Ok _ => done = ids | Err _ => exists rest, ids = done ++ rest end.
Proof.
  intros Hh. unfold DeleteCheckpoints, op_bind, lift. destruct (valid_ids ids) as [[]|e]; [|exists [], A; split; [done|]; split; [apply removed_refl|by exists ids]].
  destruct (healthy ctx h) as [[u|e] h0] eqn:E0; injection E0 as E0 <-; [|exists [], A; split; [done|]; split; [apply removed_refl|by exists ids]].
  by apply delete_batches_spec.
Qed.
Lemma keeps_Retire : keeps (RetireOp c fallocate pin ctx).
Proof.
  apply keeps_with. intros h. destruct (h_closed h); [by apply keeps_same|]. destruct (h_fatal h); [by apply keeps_same|]. destruct (Retired _); [by apply keeps_same|].
  apply (keeps_flags set_Retired); [|done]. intros c0 H. unfold control_ok in *. destruct_and! H. by split_and!.
Qed.
End Device.
