(* ===== verification/Reading.v ===== *)
(** * Reading: what reads of the disk and of its versions return.

    Blocks are bytes: an absent or zeroed block reads as zeros, and a block that holds
    data as the data.  A read of the current disk returns the bytes of the abstract
    store, whatever runs of adjacent slots it finds, and ends where the disk ends. *)
From stdpp Require Import base numbers list gmap strings sorting relations.
From Stdlib Require Import ZArith Lia.
From S2P Require Import Prelude Page Presence Json Format Tree Tx Demo TreeWrite Retire TreeRemove Sha256 Commit Crash Publish Bitmap Checkpoint GcDemo Gc Accounts Ops View Batch Model Versions Device.

#[local] Opaque Sum256 sealPage checkPage Page.put.

(** ** The bytes of a disk *)

Definition cell_bytes (x : cell) : list Z := match x with Held d => d | _ => zeroPage end.
Definition disk_byte (cells : Z -> cell) (pos : Z) : Z := default 0 (cell_bytes (cells (pos / PageSize)) !! Z.to_nat (pos mod PageSize)).
Definition disk_bytes (cells : Z -> cell) (pos : Z) (n : nat) : list Z := (fun i => disk_byte cells (pos + Z.of_nat i)) <$> seq 0 n.

Lemma disk_bytes_length cells pos n : length (disk_bytes cells pos n) = n.
Proof. unfold disk_bytes. by rewrite length_fmap, length_seq. Qed.
Lemma disk_bytes_lookup cells pos n i : (i < n)%nat -> disk_bytes cells pos n !! i = Some (disk_byte cells (pos + Z.of_nat i)).
Proof. intros Hi. unfold disk_bytes. by rewrite list_lookup_fmap, lookup_seq_lt. Qed.
Lemma disk_bytes_app cells pos n m : disk_bytes cells pos (n + m) = disk_bytes cells pos n ++ disk_bytes cells (pos + Z.of_nat n) m.
Proof.
  apply list_eq. intros i. destruct (decide (i < n)%nat) as [H1|H1].
  - rewrite lookup_app_l by (by rewrite disk_bytes_length). by rewrite !disk_bytes_lookup by lia.
  - rewrite lookup_app_r by (rewrite disk_bytes_length; lia). rewrite disk_bytes_length. destruct (decide (i < n + m)%nat).
    + rewrite !disk_bytes_lookup by lia. do 2 f_equal. lia.
    + rewrite !lookup_ge_None_2 by (rewrite disk_bytes_length; lia). done.
Qed.
Lemma disk_bytes_part cells pos a n m : (a + n <= m)%nat -> disk_bytes cells (pos + Z.of_nat a) n = take n (drop a (disk_bytes cells pos m)).
Proof.
  intros H. replace m with (a + (n + (m - a - n)))%nat by lia. rewrite !disk_bytes_app, drop_app_length' by (by rewrite disk_bytes_length).
  by rewrite take_app_length' by (by rewrite disk_bytes_length).
Qed.
Lemma disk_bytes_page cells k : 0 <= k -> length (cell_bytes (cells k)) = page_len -> disk_bytes cells (k * PageSize) page_len = cell_bytes (cells k).
Proof.
  intros Hk Hl. apply list_eq. intros i. destruct (decide (i < page_len)%nat) as [H1|H1].
  - rewrite disk_bytes_lookup by done. unfold disk_byte. assert (Z.of_nat i < PageSize) as Hi by (unfold page_len in H1; lia).
    rewrite Z.div_add_l, Z.div_small, Z.add_0_r by (done || lia). rewrite Z.add_comm, Z.mod_add, Z.mod_small, Nat2Z.id by (done || lia).
    destruct (lookup_lt_is_Some_2 (cell_bytes (cells k)) i) as [x ->]; [lia|done].
  - rewrite !lookup_ge_None_2 by (rewrite ?disk_bytes_length; lia). done.
Qed.
Lemma disk_bytes_pages cells k n : 0 <= k -> (forall i, (i < n)%nat -> length (cell_bytes (cells (k + Z.of_nat i))) = page_len) ->
  disk_bytes cells (k * PageSize) (n * page_len) = concat ((fun i => cell_bytes (cells (k + Z.of_nat i))) <$> seq 0 n).
Proof.
  intros Hk. induction n as [|n IH]; intros Hl; [done|]. rewrite seq_S, fmap_app, concat_app, <- IH by (intros i Hi; apply Hl; lia).
  replace (S n * page_len)%nat with (n * page_len + page_len)%nat by lia. rewrite disk_bytes_app. f_equal. cbn. rewrite app_nil_r.
  rewrite <- disk_bytes_page by (lia || apply Hl; lia). f_equal. unfold page_len. rewrite Nat2Z.inj_mul, Z2Nat.id by done. lia.
Qed.

Lemma zeros_spec cells pos n : 0 <= pos -> cell_bytes (cells (pos / PageSize)) = zeroPage ->
  0 <= n <= PageSize - pos mod PageSize -> replicate (Z.to_nat n) 0 = disk_bytes cells pos (Z.to_nat n).
Proof.
  intros Hp Hz Hn. pose proof (Z.mod_pos_bound pos PageSize ltac:(done)) as Hi. assert (0 <= pos / PageSize) as Hb by (apply Z.div_pos; [done|lia]).
  set (block := pos / PageSize) in *. set (inner := pos mod PageSize) in *.
  replace pos with (block * PageSize + Z.of_nat (Z.to_nat inner)) by (rewrite Z2Nat.id by lia; unfold block, inner; pose proof (Z.div_mod pos PageSize ltac:(done)); lia).
  rewrite (disk_bytes_part _ _ _ _ page_len) by (unfold page_len; lia). rewrite disk_bytes_page; [|done|rewrite Hz; apply zeroPage_ok].
  rewrite Hz. unfold zeroPage. rewrite drop_replicate, take_replicate. f_equal. unfold page_len. lia.
Qed.
(** The bytes a read of [n] adjacent pages delivers. *)
Lemma run_bytes cells block inner want n : 0 <= block -> (forall i, (i < n)%nat -> length (cell_bytes (cells (block + Z.of_nat i))) = page_len) ->
  (0 < n)%nat -> 0 <= inner < PageSize ->
  take (Z.to_nat want) (drop (Z.to_nat inner) (concat ((fun i => cell_bytes (cells (block + Z.of_nat i))) <$> seq 0 n))) =
  disk_bytes cells (block * PageSize + inner) (Nat.min (Z.to_nat want) (n * page_len - Z.to_nat inner)).
Proof.
  intros Hb Hl Hn Hi. rewrite <- disk_bytes_pages by done. assert (Z.to_nat inner < n * page_len)%nat as Hlt by (unfold page_len; nia).
  replace (block * PageSize + inner) with (block * PageSize + Z.of_nat (Z.to_nat inner)) by lia.
  rewrite (disk_bytes_part _ _ _ _ (n * page_len)) by lia. apply list_eq. intros i. destruct (decide (i < Z.to_nat want)%nat) as [H1|H1].
  - rewrite lookup_take_lt by done. destruct (decide (i < n * page_len - Z.to_nat inner)%nat); [by rewrite lookup_take_lt by lia|].
    rewrite !lookup_ge_None_2; [done|rewrite length_take; lia|rewrite length_drop, disk_bytes_length; lia].
  - rewrite !lookup_take_ge by lia. done.
Qed.

(** ** Decryption keeps the length *)

(** XTS transforms a sector in place. *)
Definition cipher_length (c : option xts_cipher) : Prop :=
  match c with None => True | Some c => forall b n, length b = unit_len -> length (Decrypt c b n) = unit_len end.
Lemma sectors_length n f : (forall b n, length b = unit_len -> length (f b n) = unit_len) ->
  forall number (b : list Z), length b = (n * unit_len)%nat -> length (sectors n f number b) = (n * unit_len)%nat.
Proof.
  intros Hf. induction n as [|n IH]; intros number b Hl; [done|]. cbn [sectors]. rewrite length_app, Hf, IH; rewrite ?length_take, ?length_drop; lia.
Qed.
Lemma crypt_length c b block : cipher_length c -> length b = page_len -> length (crypt c b block false) = page_len.
Proof.
  intros Hc Hl. unfold crypt, Transform. destruct c as [c|]; [|done]. pose proof (page_sectors b Hl) as Hs.
  rewrite sectors_length; [congruence|exact Hc|done].
Qed.

(** A run of pages is transformed page by page. *)
Lemma sectors_app n m f : forall x (a b : list Z), length a = (n * unit_len)%nat ->
  sectors (n + m) f (u64 x) (a ++ b) = sectors n f (u64 x) a ++ sectors m f (u64 (x + Z.of_nat n)) b.
Proof.
  induction n as [|n IH]; intros x a b Hl.
  - destruct a; [|done]. cbn. by rewrite Z.add_0_r.
  - cbn [sectors Nat.add]. assert (u64 (u64 x + 1) = u64 (x + 1)) as Hu by (unfold u64; by rewrite Zplus_mod_idemp_l).
    rewrite take_app_le, drop_app_le by lia. rewrite Hu, IH by (rewrite length_drop; lia). rewrite app_assoc. replace (x + 1 + Z.of_nat n) with (x + Z.of_nat (S n)) by lia. done.
Qed.
Lemma run_transform c block pages : Forall (fun b : list Z => length b = page_len) pages ->
  Transform c (concat pages) (u64 (block * (PageSize / UnitSize))) false = concat (imap (fun i b => crypt c b (block + Z.of_nat i) false) pages).
Proof.
  destruct c as [c|]; last first.
  { intros _. unfold Transform, crypt. f_equal. cbn. symmetry. induction pages as [|b pages IH]; [done|]. cbn. f_equal. exact IH. }
  assert (PageSize / UnitSize = 8) as E8 by done. assert (page_len = 8 * unit_len)%nat as Ep by done.
  intros Hl. unfold Transform. revert block. induction Hl as [|b pages Hb Hl IH]; intros block; [done|]. cbn [concat imap].
  assert (forall ps, Forall (fun b : list Z => length b = page_len) ps -> length (concat ps) = (length ps * page_len)%nat) as Hcl.
  { induction 1 as [|p ps Hp Hps IHp]; [done|]. cbn. rewrite length_app, Hp, IHp. done. }
  assert (forall n, (n * page_len / unit_len = n * 8)%nat) as Hd by (intros n; rewrite Ep, Nat.mul_assoc; by apply Nat.div_mul).
  rewrite length_app, Hb, Hcl by done. replace (page_len + length pages * page_len)%nat with ((1 + length pages) * page_len)%nat by lia.
  rewrite Hd, Nat.mul_add_distr_r. rewrite sectors_app by (rewrite Hb, Ep; lia). unfold crypt at 1, Transform. rewrite Hb, Z.add_0_r.
  change (page_len / unit_len)%nat with 8%nat. change (1 * 8)%nat with 8%nat. f_equal. rewrite E8 in *.
  replace (block * 8 + Z.of_nat 8) with ((block + 1) * 8) by lia. rewrite <- Hd, <- Hcl by done. rewrite IH. f_equal. apply imap_ext. intros i x _. unfold compose.
  by replace (block + 1 + Z.of_nat i) with (block + Z.of_nat (S i)) by lia.
Qed.

(** ** The loop of a read *)

Section Read.
Context (c : option xts_cipher) (st : Store) (l : list entry) (fp : list Z) (L : list (Z * checkpoint)) (gs bs U : Z -> list Z) (A : astore).
Context (Hst : stands c st l fp L gs bs U A) (Hcl : cipher_length c).
Local Notation cells := (a_cells A).

Lemma cell_length k : in_disk st k -> length (cell_bytes (cells k)) = page_len.
Proof.
  intros Hk. rewrite <- (sd_now _ _ _ _ _ _ _ _ _ Hst) by done. unfold cell_at. destruct (Has _ k); [|apply zeroPage_ok].
  destruct (_ =? 0); [apply zeroPage_ok|]. apply crypt_length; [done|].
  assert (paged (s_file st)) as Hp by (apply paged_file, (rd_wf _ (sd_ready _ _ _ _ _ _ _ _ _ Hst))). apply Hp.
Qed.
Lemma read_lookup k : lookup (store_reader st) (Root (s_ctrl st)) k = Ok (assoc k l).
Proof. eapply mapping_lookup; [apply (sd_map _ _ _ _ _ _ _ _ _ Hst)|done]. Qed.
(** Blocks [block] to [block + n] lie in adjacent slots from [first] on. *)
Definition adjacent_run (first block : Z) (n : nat) : Prop := forall i, (i < n)%nat ->
  Has (s_presence st) (block + Z.of_nat i) = true /\ assoc (block + Z.of_nat i) l <> 0 /\ slotPage (assoc (block + Z.of_nat i) l) = slotPage first + Z.of_nat i.
Lemma lookahead_spec first block inner want fuel : forall n, (1 <= n <= 256)%nat -> adjacent_run first block n ->
  (Z.of_nat n - 1) * PageSize < want + inner ->
  exists m, lookahead fuel st first block (Z.of_nat n) inner want = (Z.of_nat m, None) /\ (1 <= m <= 256)%nat /\ adjacent_run first block m /\ (Z.of_nat m - 1) * PageSize < want + inner.
Proof.
  induction fuel as [|fuel IH]; intros n Hn Hr Hw; [by exists n|]. cbn [lookahead]. destruct (_ && _) eqn:E; [|by exists n].
  apply andb_true_iff in E as [E1 E2]. bool_prop. destruct (Has (s_presence st) (block + Z.of_nat n)) eqn:Eh; cbn [negb]; [|by exists n].
  rewrite read_lookup. destruct (_ || _) eqn:E; [by exists n|]. apply orb_false_iff in E as [E3 E4]. bool_prop.
  replace (Z.of_nat n + 1) with (Z.of_nat (S n)) by lia. apply IH; [lia| |lia].
  intros i Hi. destruct (decide (i = n)) as [->|]; [|apply Hr; lia]. done.
Qed.
Lemma readData_spec first block inner want n : adjacent_run first block n -> (forall i, (i < n)%nat -> in_disk st (block + Z.of_nat i)) ->
  (0 < n)%nat -> first = assoc block l -> 0 <= block -> 0 <= inner < PageSize -> 0 <= want ->
  readData c (s_file st) (slotPage first) block n inner want =
  (disk_bytes cells (block * PageSize + inner) (Nat.min (Z.to_nat want) (n * page_len - Z.to_nat inner)), None).
Proof.
  intros Hr Hd Hn Hf Hb Hi Hw. unfold readData.
  assert (Z.min (Z.of_nat n) (flen (s_file st) - slotPage first) = Z.of_nat n) as ->.
  { destruct (Hr (pred n) ltac:(lia)) as (_ & H0 & Hs). apply assoc_found, (list_elem_of_fmap_2 slot), (sd_readable _ _ _ _ _ _ _ _ _ Hst) in H0 as (b & Hrd).
    cbn [slot] in Hrd. apply readFull_Ok in Hrd as [Hlt _]. rewrite Hs in Hlt. lia. }
  rewrite Nat2Z.id, (proj2 (Nat.ltb_ge _ _)) by lia. f_equal.
  rewrite (list_fmap_ext _ (fun i => cell_bytes (cells (block + Z.of_nat i))) (seq 0 n)); last first.
  { intros i x Hx. apply lookup_seq in Hx as [-> Hx]. cbn. rewrite <- (sd_now _ _ _ _ _ _ _ _ _ Hst) by (by apply Hd). destruct (Hr i Hx) as (Hh & H0 & Hs).
    unfold cell_at. rewrite Hh, (proj2 (Z.eqb_neq _ _) H0). cbn. by rewrite Hs. }
  apply run_bytes; try done. intros i Hi'. by apply cell_length, Hd.
Qed.
Lemma cell_zero k : in_disk st k -> Has (s_presence st) k = false \/ assoc k l = 0 -> cell_bytes (cells k) = zeroPage.
Proof.
  intros Hk H. rewrite <- (sd_now _ _ _ _ _ _ _ _ _ Hst) by done. unfold cell_at. destruct (Has _ k); [|done]. destruct H as [|H]; [done|]. by rewrite H.
Qed.
Lemma read_loop_spec fuel : forall pos want, want <= Z.of_nat fuel -> 0 <= pos -> 0 <= want -> pos + want <= s_size st / PageSize * PageSize ->
  read_loop c fuel st pos want = (disk_bytes cells pos (Z.to_nat want), None).
Proof.
  induction fuel as [|fuel IH]; intros pos want Hf Hp Hw He; [by replace want with 0 by lia|]. cbn [read_loop].
  destruct (Z.leb_spec want 0); [by replace want with 0 by lia|]. set (block := pos / PageSize). set (inner := pos mod PageSize).
  assert (PageSize = 4096) as HP by done. pose proof (Z.mod_pos_bound pos PageSize ltac:(done)) as Hi. fold inner in Hi.
  assert (pos = block * PageSize + inner) as Epos by (unfold block, inner; pose proof (Z.div_mod pos PageSize ltac:(done)); lia).
  assert (0 <= block) as Hb by (apply Z.div_pos; [done|lia]). assert (in_disk st block) as Hk by (split; [done|nia]).
  set (n := Z.min want (PageSize - inner)). assert (0 < n <= want) as Hn by lia.
  assert (cell_bytes (cells block) = zeroPage -> (let (b, e) := read_loop c fuel st (pos + n) (want - n) in (replicate (Z.to_nat n) 0 ++ b, e)) =
    (disk_bytes cells pos (Z.to_nat want), None)) as Hzero.
  { intros Hz. rewrite IH by lia. rewrite (zeros_spec cells pos n) by (done || (fold inner; lia)). f_equal. replace (Z.to_nat want) with (Z.to_nat n + Z.to_nat (want - n))%nat by lia.
    rewrite disk_bytes_app. by rewrite Z2Nat.id by lia. }
  destruct (Has (s_presence st) block) eqn:Eh; cbn [negb]; [|by apply Hzero, cell_zero; [|left]].
  rewrite read_lookup. destruct (Z.eqb_spec (assoc block l) 0) as [E0|E0].
  { pose proof (sd_ready _ _ _ _ _ _ _ _ _ Hst) as Hr. rewrite (validate_ok _ l fp) by (apply Hr || apply Hst). apply Hzero, cell_zero; [done|by right]. }
  assert (adjacent_run (assoc block l) block 1) as H1.
  { intros i Hi1. replace i with 0%nat by lia. rewrite !Z.add_0_r. done. }
  destruct (lookahead_spec (assoc block l) block inner want 256 1 ltac:(lia) H1 ltac:(lia)) as (m & Hla & Hm & Hrun & Hlast).
  change (Z.of_nat 1) with 1 in Hla. rewrite Hla, Nat2Z.id. rewrite readData_spec; try done; try lia.
  2: { intros i Hi'. split; [lia|]. nia. }
  set (k := Nat.min _ _). rewrite disk_bytes_length. assert (1 <= k <= Z.to_nat want)%nat as Hkb by (unfold k, page_len; nia).
  rewrite <- Epos, IH by lia. f_equal. replace (Z.to_nat want) with (k + Z.to_nat (want - Z.of_nat k))%nat at 1 by lia. by rewrite disk_bytes_app.
Qed.
End Read.

(** A read that starts on the disk returns the bytes of the blocks, up to the end of the disk. *)
Lemma ReadAt_spec c ctx h A len off : shown c h A -> cipher_length c -> healthy ctx h = (Ok tt, h) -> h_metadataOnly h = false ->
  0 <= off <= h_size h -> 0 <= len ->
  ReadAt c ctx len off h = (disk_bytes (a_cells A) off (Z.to_nat (Z.min len (h_size h - off))), Ok (Z.min len (h_size h - off) <? len), h).
Proof.
  intros (l & fp & L & gs & bs & U & Hst & _) Hcl Hh Hmo Ho Hl. unfold ReadAt. rewrite Hh, Hmo. set (count := Z.min len (h_size h - off)).
  rewrite (proj2 (Z.ltb_ge off 0)), (proj2 (Z.ltb_ge (h_size h) off)) by lia. cbn [orb].
  destruct (Z.eqb_spec len 0) as [->|H0]; [replace count with 0 by lia; done|].
  destruct (Z.eqb_spec off (h_size h)) as [E|E]; [replace count with 0 by lia; cbn; by rewrite (proj2 (Z.ltb_lt 0 len)) by lia|].
  pose proof (rd_size _ (sd_ready _ _ _ _ _ _ _ _ _ Hst)) as [[_ Hmod] _]. cbn [begin store] in Hmod. unfold h_size in *.
  assert (s_size (h_store h) / PageSize * PageSize = s_size (h_store h)) as Hm.
  { pose proof (Z.div_mod (s_size (h_store h)) PageSize ltac:(done)). lia. }
  rewrite (read_loop_spec c (h_store h) l fp L gs bs U A Hst Hcl) by lia. by rewrite disk_bytes_length, Z2Nat.id by lia.
Qed.

(** ** Views *)

(** The entries of the nodes of a tree lead to its nodes and to its payload. *)
Lemma tree_slots nd h : forall s l fp x n e, tree nd h s l fp -> x ∈ fp -> nd x = Some n -> e ∈ entries n -> slot e ∈ fp \/ slot e ∈ slot <$> l.
Proof.
  induction h as [|h IH]; intros s l fp x n e [_ Ht] Hx Hn He.
  - destruct Ht as (Hs & _ & ->). apply list_elem_of_singleton in Hx as ->. simplify_eq. right. by apply list_elem_of_fmap_2.
  - destruct Ht as (es & subs & Hs & _ & Hf & -> & ->). apply elem_of_cons in Hx as [->|Hx].
    + simplify_eq. cbn in He. apply list_elem_of_lookup_1 in He as [i Hi]. destruct (Forall2_lookup_l _ _ _ _ _ Hf Hi) as ([li fi] & Hp & Ht & _). cbn in Ht.
      assert (slot e ∈ fi) as Hse by (apply tree_body in Ht as (_ & ? & ? & _ & _ & _ & ->); by left).
      left. right. apply list_elem_of_In, in_concat. exists fi. split; [|by apply list_elem_of_In].
      apply list_elem_of_In, list_elem_of_fmap. exists (li, fi). split; [done|by eapply list_elem_of_lookup_2].
    + apply list_elem_of_In, in_concat in Hx as (f & Hf' & Hx). apply list_elem_of_In in Hf', Hx.
      apply list_elem_of_fmap in Hf' as ([li fi] & -> & [i Hp]%list_elem_of_lookup_1). destruct (Forall2_lookup_r _ _ _ _ _ Hf Hp) as (e0 & _ & Ht & _).
      destruct (IH _ _ _ x n e Ht Hx Hn He) as [Hin|Hin]; [left; right|right].
      * apply list_elem_of_In, in_concat. exists fi. split; [|by apply list_elem_of_In]. apply list_elem_of_In, list_elem_of_fmap. exists (li, fi). split; [done|by eapply list_elem_of_lookup_2].
      * apply list_elem_of_fmap in Hin as (y & -> & Hy). apply list_elem_of_fmap_2. apply list_elem_of_In, in_concat. exists li. split; [|by apply list_elem_of_In].
        apply list_elem_of_In, list_elem_of_fmap. exists (li, fi). split; [done|by eapply list_elem_of_lookup_2].
Qed.

(** [views v s w]: [v] is a view of the version [w] of a store of the size of [s]. *)
Record views (v : View) (s : Store) (w : version) : Prop := {
  vw_size : v_size v = s_size s;
  vw_open : v_closed v = false;
  vw_overlay : v_overlay v = ∅;
  vw_root : v_root v = v_tree w;
  vw_next : 0 < v_next v;
  vw_uses : forall x, x ∈ v_uses w -> x < v_next v;
  vw_presence : forall k, in_disk s k -> Has (v_presence v) k = false <-> v_cells w k = Absent }.

Section ReadView.
Context (c : option xts_cipher) (s : Store) (v : View) (w : version) (bl : list Z).
Context (Hwf : ready (begin s)) (Hcl : cipher_length c) (Hv : views v s w) (Hw : shows_cells c s (v_uses w) bl (v_tree w) (v_cells w)).

Lemma view_node h root l fp x n : tree (nd (begin s)) h root l fp -> (forall y, y ∈ fp -> y ∈ v_uses w) -> (forall e, e ∈ l -> slot e ∈ v_uses w) ->
  x ∈ fp -> nd (begin s) x = Some n -> nd_of (view_reader v (s_file s)) x = Some n.
Proof.
  intros Ht Hfp Hl Hx Hn. pose proof (tree_pos _ _ _ _ _ x Ht Hx) as H1. destruct (nd_ok _ _ _ (rd_wf _ Hwf) Hn) as (_ & Hin & _).
  destruct (nd_from_file (begin s) x n) as (b & Hrd & Hdec); [done|done|]. rewrite read_begin in Hrd. pose proof (vw_uses _ _ _ Hv x (Hfp x Hx)) as Hlt.
  pose proof (vw_next _ _ _ Hv) as Hnx. unfold nd_of, inspectNode, view_reader. cbn [rd_nodes rd_next rd_total rd_read].
  rewrite (proj2 (Z.eqb_neq (v_next v) 0)), (proj2 (Z.eqb_neq x 0)), (proj2 (Z.leb_gt (v_next v) x)) by lia. cbn [negb andb orb].
  unfold overlay_read. rewrite (vw_overlay _ _ _ Hv), lookup_empty, Hrd. cbn [res_bind]. rewrite Hdec. cbn [res_bind].
  destruct (existsb _ _) eqn:E; [|done]. exfalso. apply existsb_exists in E as (e & He%list_elem_of_In & E). apply orb_true_iff in E as [E|E]; bool_prop.
  - unfold node_in in Hin. rewrite Forall_forall in Hin. specialize (Hin e He). unfold entry_in, total in Hin. cbn in Hin. rewrite (vw_size _ _ _ Hv) in E. lia.
  - assert (slot e < v_next v); [|lia]. apply (vw_uses _ _ _ Hv).
    destruct (tree_slots _ _ _ _ _ x n e Ht Hx Hn He) as [Hs|(e' & -> & He')%list_elem_of_fmap]; auto.
Qed.
Lemma view_facts : exists lv, (forall k, lookup (view_reader v (s_file s)) (v_root v) k = Ok (assoc k lv)) /\
  (v_root v = 0 \/ forall k, exists m, payloadRange maxDepth (view_reader v (s_file s)) (v_root v) k (k + 1) [false] 0 (v_size v / PageSize - 1) false = Ok m) /\
  (forall e, e ∈ lv -> 1 <= slot e /\ readable s (slot e)) /\ forall k, in_disk s k -> cell_at c (s_file s) (v_presence v) lv k = v_cells w k.
Proof.
  destruct Hw as (lv & Bv & Ht & Hs & He & HB & _ & Hk). exists lv. rewrite (vw_root _ _ _ Hv). split; [|split; [|split]].
  3: { intros e Hin. by apply He. }
  3: { intros k Hin. rewrite <- Hk by done. unfold cell_at. replace (Has (v_presence v) k) with (Has Bv k); [done|].
       pose proof (vw_presence _ _ _ Hv k Hin) as Hp. rewrite <- Hk in Hp by done. unfold cell_at in Hp.
       destruct (Has Bv k), (Has (v_presence v) k); try done; [|by destruct Hp as [_ ->]]. destruct (_ =? 0); destruct Hp as [Hp _]; by discriminate Hp. }
  - intros k. destruct Ht as [[-> ->]|(h & f & Hh & Ht & Hf)]; [done|]. eapply lookup_from_tree; [|done|exact Hh].
    eapply tree_ext; [|exact Ht]. intros x n Hx Hn. eapply view_node; [exact Ht|done|intros e Hin; by apply He|done|done].
  - destruct Ht as [[-> _]|(h & f & Hh & Ht & Hf)]; [by left|]. right. intros k. eexists. eapply payloadRange_tree; [|done| |exact Hh].
    + eapply tree_ext; [|exact Ht]. intros x n Hx Hn. eapply view_node; [exact Ht|done|intros e Hin; by apply He|done|done].
    + pose proof (tree_entries _ _ _ _ _ (rd_wf _ Hwf) Ht) as Hin. rewrite Forall_forall in Hin. rewrite (vw_size _ _ _ Hv). split.
      * intros x Hx. destruct (Hin x Hx) as (? & _). lia.
      * destruct (last lv) as [e|] eqn:El; [|apply last_None in El; by apply tree_nonempty in Ht].
        exists (key e). destruct (Hin e (last_elem_of _ _ El)) as (Hb & _). unfold total in Hb. cbn in Hb. split_and!; [done|lia|done].
Qed.

Section Loop.
Context (lv : list entry) (Hlook : forall k, lookup (view_reader v (s_file s)) (v_root v) k = Ok (assoc k lv)).
Context (Hpay : v_root v = 0 \/ forall k, exists m, payloadRange maxDepth (view_reader v (s_file s)) (v_root v) k (k + 1) [false] 0 (v_size v / PageSize - 1) false = Ok m).
Context (Hread : forall e, e ∈ lv -> 1 <= slot e /\ readable s (slot e)) (Hcell : forall k, in_disk s k -> cell_at c (s_file s) (v_presence v) lv k = v_cells w k).
Local Notation cells := (v_cells w).
Definition view_run (first block : Z) (n : nat) : Prop := forall i, (i < n)%nat ->
  Has (v_presence v) (block + Z.of_nat i) = true /\ assoc (block + Z.of_nat i) lv <> 0 /\ slotPage (assoc (block + Z.of_nat i) lv) = slotPage first + Z.of_nat i.
Lemma view_lookahead_spec first block inner want fuel : forall n, (1 <= n <= 256)%nat -> view_run first block n ->
  (Z.of_nat n - 1) * PageSize < want + inner ->
  exists m, view_lookahead fuel v (s_file s) first block (Z.of_nat n) inner want = Ok (Z.of_nat m) /\ (1 <= m <= 256)%nat /\ view_run first block m /\
    (Z.of_nat m - 1) * PageSize < want + inner.
Proof.
  induction fuel as [|fuel IH]; intros n Hn Hr Hb; [by exists n|]. cbn [view_lookahead]. destruct (_ && _) eqn:E; [|by exists n].
  apply andb_true_iff in E as [E1 E2]. bool_prop. destruct (Has (v_presence v) (block + Z.of_nat n)) eqn:Eh; cbn [negb]; [|by exists n].
  rewrite Hlook. cbn [res_bind]. destruct (_ || _) eqn:E; [by exists n|]. apply orb_false_iff in E as [E3 E4]. bool_prop.
  replace (Z.of_nat n + 1) with (Z.of_nat (S n)) by lia. apply IH; [lia| |lia].
  intros i Hi. destruct (decide (i = n)) as [->|]; [|apply Hr; lia]. done.
Qed.
Lemma view_cell_length k : in_disk s k -> length (cell_bytes (cells k)) = page_len.
Proof.
  intros Hk. rewrite <- Hcell by done. unfold cell_at. destruct (Has _ k); [|apply zeroPage_ok]. destruct (_ =? 0); [apply zeroPage_ok|].
  apply crypt_length; [done|]. assert (paged (s_file s)) as Hp by (apply paged_file, (rd_wf _ Hwf)). apply Hp.
Qed.
Lemma view_data_spec first block n : view_run first block n -> (forall i, (i < n)%nat -> in_disk s (block + Z.of_nat i)) -> (0 < n)%nat -> 1 <= first ->
  exists bs, directRead (s_file s) n (slotPage first) = Ok bs /\
    Transform c (concat bs) (u64 (block * (PageSize / UnitSize))) false = concat ((fun i => cell_bytes (cells (block + Z.of_nat i))) <$> seq 0 n).
Proof.
  intros Hr Hd Hn H1. exists ((fun i => page_at (s_file s) (slotPage first + Z.of_nat i)) <$> seq 0 n).
  pose proof (slotPage_area first H1) as Har. unfold slotAreaPage in Har. split.
  { unfold directRead. rewrite (proj2 (Z.ltb_ge (slotPage first) 0)), (proj2 (Z.ltb_ge (flen (s_file s)) _)); [done| |lia].
    destruct (Hr (pred n) ltac:(lia)) as (_ & H0 & Hs). apply assoc_found, Hread in H0 as [_ (b & Hrd)]. cbn [slot] in Hrd.
    apply readFull_Ok in Hrd as [Hlt _]. rewrite Hs in Hlt. lia. }
  rewrite run_transform; last first.
  { apply Forall_fmap, Forall_forall. intros i _. cbn. assert (paged (s_file s)) as Hp by (apply paged_file, (rd_wf _ Hwf)). apply Hp. }
  f_equal. apply list_eq. intros i. rewrite list_lookup_imap, !list_lookup_fmap. destruct (decide (i < n)%nat) as [Hi|Hi].
  - rewrite !lookup_seq_lt by done. cbn. f_equal. rewrite <- Hcell by (by apply Hd). destruct (Hr i Hi) as (Hh & H0 & Hs).
    unfold cell_at. rewrite Hh, (proj2 (Z.eqb_neq _ _) H0). cbn. by rewrite Hs.
  - rewrite !lookup_seq_ge by lia. done.
Qed.
Lemma view_loop_spec fuel : forall pos want, want <= Z.of_nat fuel -> 0 <= pos -> 0 <= want -> pos + want <= s_size s / PageSize * PageSize ->
  view_loop c fuel v (s_file s) pos want = (disk_bytes cells pos (Z.to_nat want), None).
Proof.
  induction fuel as [|fuel IH]; intros pos want Hf Hp H0w He; [by replace want with 0 by lia|]. cbn [view_loop].
  destruct (Z.leb_spec want 0); [by replace want with 0 by lia|]. set (block := pos / PageSize). set (inner := pos mod PageSize).
  assert (PageSize = 4096) as HP by done. pose proof (Z.mod_pos_bound pos PageSize ltac:(done)) as Hi. fold inner in Hi.
  assert (pos = block * PageSize + inner) as Epos by (unfold block, inner; pose proof (Z.div_mod pos PageSize ltac:(done)); lia).
  assert (0 <= block) as Hb by (apply Z.div_pos; [done|lia]). assert (in_disk s block) as Hk by (split; [done|nia]).
  set (n := Z.min want (PageSize - inner)). assert (0 < n <= want) as Hn by lia.
  assert (cell_bytes (cells block) = zeroPage -> (let (b, e) := view_loop c fuel v (s_file s) (pos + n) (want - n) in (replicate (Z.to_nat n) 0 ++ b, e)) =
    (disk_bytes cells pos (Z.to_nat want), None)) as Hzero.
  { intros Hz. rewrite IH by lia. rewrite (zeros_spec cells pos n) by (done || (fold inner; lia)). f_equal.
    replace (Z.to_nat want) with (Z.to_nat n + Z.to_nat (want - n))%nat by lia. rewrite disk_bytes_app. by rewrite Z2Nat.id by lia. }
  pose proof (Hcell block Hk) as Hcb. unfold cell_at in Hcb.
  destruct (Has (v_presence v) block) eqn:Eh; cbn [negb]; [|apply Hzero; by rewrite <- Hcb].
  rewrite Hlook. destruct (Z.eqb_spec (assoc block lv) 0) as [E0|E0].
  { destruct Hpay as [->|Hpy]; [cbn [Z.eqb]; apply Hzero; by rewrite <- Hcb|]. destruct (Hpy block) as (m & ->). destruct (_ =? 0); apply Hzero; by rewrite <- Hcb. }
  assert (view_run (assoc block lv) block 1) as H1.
  { intros i Hi1. replace i with 0%nat by lia. rewrite !Z.add_0_r. done. }
  destruct (view_lookahead_spec (assoc block lv) block inner want 256 1 ltac:(lia) H1 ltac:(lia)) as (m & Hla & Hm & Hrun & Hlast).
  change (Z.of_nat 1) with 1 in Hla. rewrite Hla. cbn [res_bind]. rewrite Nat2Z.id.
  assert (forall i, (i < m)%nat -> in_disk s (block + Z.of_nat i)) as Hdk by (intros i Hi'; split; [lia|nia]).
  destruct (view_data_spec (assoc block lv) block m Hrun Hdk ltac:(lia)) as (bs & -> & Htr); [by apply (Hread _ (assoc_found _ _ E0))|]. cbn [res_bind]. rewrite Htr.
  rewrite run_bytes; try done; try lia; [|intros i Hi'; by apply view_cell_length, Hdk].
  set (k := Nat.min _ _). rewrite disk_bytes_length. assert (1 <= k <= Z.to_nat want)%nat as Hkb by (unfold k, page_len; nia).
  rewrite <- Epos, IH by lia. f_equal. replace (Z.to_nat want) with (k + Z.to_nat (want - Z.of_nat k))%nat at 1 by lia. by rewrite disk_bytes_app.
Qed.
End Loop.
End ReadView.

(** The bytes a view returns, from the file as it is now. *)
Lemma View_ReadAt_spec c g s A v w w' len off : models c g s A -> cipher_length c -> views v s w -> w' ∈ a_versions A ->
  v_tree w' = v_tree w -> v_uses w' = v_uses w -> v_cells w' = v_cells w -> 0 <= off -> 0 <= len -> off <= v_size v ->
  View_ReadAt c v (s_file s) len off =
  (disk_bytes (v_cells w) off (Z.to_nat (Z.min len (v_size v - off))), Ok (Z.min len (v_size v - off) <? len)).
Proof.
  intros (l & fp & L & gs & bs & U & Hst & _) Hcl Hv [i Hi]%list_elem_of_lookup_1 Et Eu Ec Ho Hl Hs.
  pose proof (sd_ready _ _ _ _ _ _ _ _ _ Hst) as Hr.
  destruct (Forall2_lookup_r _ _ _ _ _ (sd_versions _ _ _ _ _ _ _ _ _ Hst) Hi) as ([x cp] & _ & _ & _ & _ & (_ & E2 & E3) & Hsh).
  cbn [fst snd] in *. rewrite E2, E3, Et, Eu, Ec in Hsh.
  destruct (view_facts c s v w (bs x) Hr Hv Hsh) as (lv & H1 & H2 & H3 & H4). unfold View_ReadAt. rewrite (vw_open _ _ _ Hv). set (count := Z.min len (v_size v - off)).
  rewrite (proj2 (Z.ltb_ge (v_size v) off)) by lia. destruct (Z.eqb_spec len 0) as [->|H0]; [replace count with 0 by lia; done|].
  destruct (Z.eqb_spec off (v_size v)) as [E|E]; [replace count with 0 by lia; cbn; by rewrite (proj2 (Z.ltb_lt 0 len)) by lia|].
  pose proof (rd_size _ Hr) as [[_ Hmod] _]. cbn [begin store] in Hmod. pose proof (vw_size _ _ _ Hv) as Esz.
  assert (s_size s / PageSize * PageSize = s_size s) as Hm.
  { pose proof (Z.div_mod (s_size s) PageSize ltac:(done)). lia. }
  rewrite (view_loop_spec c s v w Hr Hcl lv H1 H2 H3 H4) by lia. by rewrite disk_bytes_length, Z2Nat.id by lia.
Qed.

(** *** Opening a view *)

Lemma find_version_spec st id fuel : forall s x cp, find_from fuel (begin st) id s = Ok (x, cp) -> cp_Visible cp = true -> cp_Retained cp = true ->
  find_version fuel (overlay_read ∅ (s_file st)) (Next (s_ctrl st)) id s = Ok (x, cp).
Proof.
  induction fuel as [|fuel IH]; intros s x cp; cbn [find_from find_version]; destruct (s =? 0); try done.
  cbn [begin t_ctrl]. destruct (_ <=? s); [done|]. intros (cq & Hq & H)%res_bind_Ok Hv Hr. unfold readCheckpoint in Hq.
  apply res_bind_Ok in Hq as (b & Hb & Hd). rewrite read_begin in Hb. unfold overlay_read. rewrite lookup_empty, Hb. cbn [res_bind]. rewrite Hd. cbn [res_bind].
  case_bool_decide; [|by apply IH]. injection H as <- <-. by rewrite Hv, Hr.
Qed.
Lemma named_unique id L x cp : NoDup (names L) -> (x, cp) ∈ L -> cp_ID cp = id -> named id L = Some (x, cp).
Proof.
  intros Hnd Hin Hid. assert (id ∈ names L) as Hn by (rewrite <- Hid; exact (list_elem_of_fmap_2 (cp_ID ∘ snd) L (x, cp) Hin)).
  destruct (named_lookup id L Hn) as (i & y & cq & -> & Hi & Hq). apply list_elem_of_lookup_1 in Hin as [j Hj].
  assert (i = j) as ->; [|by simplify_eq]. apply (NoDup_lookup (names L) i j id Hnd); unfold names; rewrite list_lookup_fmap; [by rewrite Hi; cbn; rewrite Hq|by rewrite Hj; cbn; rewrite Hid].
Qed.
Lemma openView_spec c g st A w pin : models c g st A -> Retired (s_ctrl st) = false -> w ∈ a_versions A -> v_visible w = true ->
  ValidID (v_id w) = Ok tt -> pin (v_slot w) = Ok tt ->
  exists v, openView (s_file st) (s_size st) pin (v_id w) = Ok v /\ views v st w.
Proof.
  intros (l & fp & L & gs & bs & U & Hst & _) Hret [i Hi]%list_elem_of_lookup_1 Hvis Hid Hpin.
  pose proof (sd_ready _ _ _ _ _ _ _ _ _ Hst) as Hr. pose proof (sd_ledger _ _ _ _ _ _ _ _ _ Hst) as Hlg. pose proof (lg_catalog _ _ _ _ _ Hlg) as Hcat.
  destruct (Forall2_lookup_r _ _ _ _ _ (sd_versions _ _ _ _ _ _ _ _ _ Hst) Hi) as ([x cp] & Hx & E1 & Ev & Ed & (E2 & E3 & E4) & Hsh).
  apply list_elem_of_lookup_2, list_elem_of_filter in Hx as [Hrt Hx]. unfold is_retained in Hrt. cbn [fst snd] in *.
  assert (readRedo (s_file st) (s_size st) = Ok []) as Hredo by exact (idle_readRedo (begin st) (s_file st) (rd_flen _ Hr) (rd_idle _ Hr)).
  unfold openView. rewrite Hredo. cbn [res_bind]. change (list_to_map (reverse (@nil record)) : gmap Z (list Z)) with (∅ : gmap Z (list Z)).
  assert (forall q, overlay_read ∅ (s_file st) q = readFull (s_file st) q) as Hov by (intros q; unfold overlay_read; by rewrite lookup_empty).
  rewrite Hov. assert (readFull (s_file st) 1 = Ok (page_at (s_file st) 1)) as ->.
  { apply readFull_Ok. split; [|done]. pose proof (rd_flen _ Hr) as Hf. unfold slotAreaPage in Hf. cbn in Hf. lia. }
  cbn [res_bind]. pose proof (rd_ctrl _ Hr) as Hct. cbn [begin store] in Hct. rewrite Hct. cbn [res_bind]. rewrite Hret.
  rewrite bool_decide_eq_false_2 by (intros E; rewrite E in Hid; discriminate Hid). rewrite Hid. cbn [res_bind].
  assert (find_from (Z.to_nat (Next (s_ctrl st))) (begin st) (v_id w) (Head (s_ctrl st)) = Ok (x, cp)) as Hf.
  { pose proof (findCheckpoint_spec (begin st) L Hcat (v_id w)) as Hfc. unfold findCheckpoint in Hfc. cbn [begin t_ctrl] in Hfc. rewrite Hfc.
    by rewrite (named_unique _ L x cp) by (done || apply Hcat). }
  rewrite (find_version_spec st (v_id w) _ _ x cp Hf) by congruence. cbn [res_bind]. rewrite E2, Hpin. cbn [res_bind].
  destruct Hsh as (lv & Bv & Ht & Hs & He & HB & Hbl & Hk). destruct (lg_bitmaps _ _ _ _ _ Hlg x cp Hx) as (Hbh & _ & Hbn & Hbc). rewrite Ed in Hbn. cbn [begin store] in Hbn.
  assert (readSnapshotPresence (overlay_read ∅ (s_file st)) cp (s_size st) (Next (s_ctrl st)) = Ok Bv) as ->.
  { assert (readSnapshotPresence (read (begin st)) cp (s_size st) (Next (t_ctrl (begin st))) = Ok Bv) as H.
    { apply (snapshot_links_read (begin st) (s_size st) Bv (cp_Epoch cp) (bs x)); try done; [apply (rd_size _ Hr)|].
      intros j y Hj. by destruct (Hbc j y Hj). }
    rewrite <- H. unfold readSnapshotPresence. destruct (negb _); [done|]. cbn [begin t_ctrl]. generalize (replicate (Z.to_nat (Bytes (s_size st))) 0), (cp_Bitmap cp).
    induction (ordinals (s_size st)) as [|o os IH]; intros B0 y; cbn [snapshot_load]; [done|]. destruct (_ || _); [done|]. rewrite Hov, read_begin.
    destruct (readFull _ _); cbn [res_bind]; [|done]. destruct (negb _); [done|]. destruct (_ || _); [done|]. rewrite Hov, read_begin.
    destruct (readFull _ _); cbn [res_bind]; [|done]. destruct (decode_page _ _ _); cbn [res_bind]; [|done]. apply IH. }
  cbn [res_bind]. eexists. split; [done|]. split; cbn [v_size v_closed v_overlay v_root v_next v_presence]; try done.
  - pose proof (w_next _ (rd_wf _ Hr)). cbn in *. lia.
  - intros y Hy. rewrite <- E4 in Hy. destruct (lg_uses _ _ _ _ _ Hlg x cp y Hx Hrt Hy) as (d & Hd & _). apply dsc_bound in Hd. cbn in Hd. lia.
  - intros k Hin. rewrite <- Hk by done. unfold cell_at. destruct (Has Bv k); [|done]. split; [done|]. by destruct (_ =? 0).
Qed.
