(* ===== verification/Lifecycle.v ===== *)
(** * Lifecycle: creating, opening and reopening a DIFF.

    Models [create], [initialize] and [openStore] of
    pkg/diffstore/internal/versioned/format.go.  The header page, its key envelope and
    the checks of its identity are outside the model: [h] is the header page that
    [createHeader] produced, and [size] the capacity it records; taking the lock file
    and opening the data file are outside it too.  A created store shows an empty
    disk, a store that is opened shows what was committed, and a store whose host
    stopped during a commit shows what was there before or what was committed. *)
From stdpp Require Import base numbers list gmap strings sorting relations.
From Stdlib Require Import ZArith Lia.
From S2P Require Import Prelude Page Presence Json Format Tree Tx Demo TreeWrite Retire TreeRemove Sha256 Commit Crash Publish Bitmap Checkpoint GcDemo Gc Accounts Ops Batch Model Versions Device.

#[local] Opaque Sum256 sealPage checkPage Page.put.

(** ** Creation *)

(** The control block of a new store. *)
Definition control1 : control := mkControl 0 1 0 0 1 0 0 0 0 0 0 false 0.
Section Lifecycle.
Context (fallocate : file -> Z -> Z -> dres unit).

(** [initialize] on the empty file. *)
Definition initialize (h : list Z) (presence : list Z) (size : Z) : dres file :=
  let f := mkFile ∅ slotAreaPage in
  let* _ := fallocate f 0 (logImagesPage + maxLogPages) in
  let f := writePage f 0 h in
  let b := match encodeControl control1 with Ok b => b | Err _ => [] end in
  let f := writePage f 1 b in
  let f := writePage f logCommitPage zeroPage in
  let* _ := fallocate f presenceAreaPage (Pages size) in
  writeInitialPresence f presence size.
(** [create], run to its end. *)
Definition create (h : list Z) (size : Z) : dres handle :=
  let presence := replicate (Z.to_nat (Bytes size)) 0 in
  let* f := initialize h presence size in
  Ok (mkHandle (mkStore f control1 presence size) gcScan0 0 false None false false).
End Lifecycle.

(** ** Opening *)

Definition openStore (f : file) (size : Z) (metadata : bool) : dres handle :=
  let* (f, ctrl) := recover f size in
  if Retired ctrl && negb metadata then Err ErrRetired
  else if (Next ctrl =? 0) || (Epoch ctrl =? 0) then Err (DiffErr "diffstore: invalid control generation")
  else
    let* presence := loadPresence (readFull f) size in
    let s := mkStore f ctrl presence size in
    let* _ := if negb metadata && negb (Root ctrl =? 0) then let* _ := inspectNode (store_reader s) (Root ctrl) in Ok tt else Ok tt in
    Ok (mkHandle s gcScan0 0 false None false metadata).

(** ** A new store *)

Definition blank (size : Z) : astore := mkAstore size (fun _ => Absent) [].
Definition no_presence (size : Z) : list Z := replicate (Z.to_nat (Bytes size)) 0.

Lemma Has_none n k : Has (replicate n 0) k = false.
Proof.
  unfold Has, byte_at. assert (default 0 (replicate n 0 !! Z.to_nat (k / 8)) = 0) as ->; [|by rewrite Z.land_0_l].
  destruct (_ !! _) eqn:E; [|done]. by apply lookup_replicate in E as [-> _].
Qed.
Lemma no_presence_ok size : valid_size size -> bitmap_ok size (no_presence size).
Proof.
  intros Hs. destruct (size_bounds size Hs) as (? & _). split_and!.
  - apply Forall_replicate. unfold is_byte. lia.
  - unfold no_presence. rewrite length_replicate. lia.
  - intros k _. apply Has_none.
Qed.

(** Writing the pages of a bitmap puts each in its place. *)
Lemma encode_pages_Ok B size l : valid_size size -> bitmap_ok size B -> Forall (fun i => 0 <= i < Pages size) l ->
  exists bs, encode_pages B size l = Ok bs /\ Forall2 (encoded B size) l bs.
Proof.
  intros Hs (Hb & Hl & _). induction 1 as [|i l Hi _ (bs & IH & Hf)]; [by exists []|]. cbn [encode_pages].
  destruct (Encode_encoded B size i Hb Hl Hs Hi) as (b & He & Hb'). unfold encode_page. rewrite He, IH. cbn [res_bind].
  exists (b :: bs). split; [done|]. by constructor.
Qed.
Lemma writeInitialPresence_spec f B size : writable_size size -> bitmap_ok size B -> slotAreaPage <= flen f ->
  exists bs, writeInitialPresence f B size = Ok (writeFull f presenceAreaPage bs) /\ Z.of_nat (length bs) = Pages size /\
    Forall (fun b => is_page b) bs /\ file_pres (readFull (writeFull f presenceAreaPage bs)) size B.
Proof.
  intros Hs HB Hfl. destruct Hs as [Hv Hw]. pose proof (size_pages size (conj Hv Hw)) as Hp.
  destruct (encode_pages_Ok B size (ordinals size) Hv HB (ordinals_range size)) as (bs & He & Hf).
  exists bs. unfold writeInitialPresence. rewrite He. cbn [res_bind].
  assert (Z.of_nat (length bs) = Pages size) as Hlen.
  { rewrite <- (Forall2_length _ _ _ Hf). unfold ordinals. rewrite length_fmap, length_seq. lia. }
  split_and!; [done..| |].
  - apply Forall_forall. intros b [j Hj]%list_elem_of_lookup_1. destruct (Forall2_lookup_r _ _ _ _ _ Hf Hj) as (i & _ & Hi). by apply Hi.
  - intros i Hi. assert (ordinals size !! Z.to_nat i = Some i) as Ho.
    { unfold ordinals. rewrite list_lookup_fmap, lookup_seq_lt by lia. cbn. f_equal. lia. }
    destruct (Forall2_lookup_l _ _ _ _ _ Hf Ho) as (b & Hb & Hen). exists b. split; [|done]. apply readFull_Ok.
    destruct (flen_writeFull f presenceAreaPage bs) as [Hm _]. unfold presenceAreaPage, slotAreaPage in *. split; [lia|].
    rewrite page_at_writeFull, decide_True by lia. replace (Z.to_nat _) with (Z.to_nat i) by lia. by rewrite Hb.
Qed.

Lemma pages_writeFull f p bs q b : fpages (writeFull f p bs) !! q = Some b -> fpages f !! q = Some b \/ b ∈ bs.
Proof.
  revert f p. induction bs as [|x bs IH]; intros f p; cbn [writeFull]; [by left|]. intros [H|H]%IH; [|by right; right].
  cbn [writePage fpages] in H. destruct (decide (p = q)) as [->|Hne]; [rewrite lookup_insert_eq in H|rewrite lookup_insert_ne in H by done; by left].
  injection H as ->. right. by left.
Qed.
Lemma control1_ok : control_ok control1.
Proof. unfold control_ok, is_u64. cbn. split_and!; lia. Qed.

Section Blank.
Context (size : Z) (f : file) (Hsize : writable_size size).
Context (Hpages : forall p b, fpages f !! p = Some b -> is_page b) (Hflen : slotAreaPage <= flen f).
Context (Hidle : log_idle (page_at f logCommitPage)) (Hctrl : decodeControl (page_at f 1) = Ok control1).
Context (Hpres : file_pres (readFull f) size (no_presence size)).

Notation st := (mkStore f control1 (no_presence size) size).
Lemma blank_dsc x : dsc (begin st) x = None.
Proof. destruct (dsc (begin st) x) eqn:E; [|done]. apply dsc_Some in E as [H _]. cbn in H. lia. Qed.
Lemma blank_ready : ready (begin st).
Proof.
  split; [|by intros ? ?%elem_of_empty|by intros ? ?%elem_of_nil|done..]. split; [apply control1_ok|..]; try done.
  - intros s Hs. cbn in Hs. lia.
  - exists []. split; [done|constructor].
Qed.
Lemma blank_owners : owners (begin st) [] (fun _ => []) (fun _ => []) (fun _ => []).
Proof.
  split; cbn; try done; try by intros ? ? ?%elem_of_nil.
  - split; [constructor|]. intros x y s _ _ []%elem_of_nil.
  - split; [by intros ? ?%elem_of_nil|]. by intros ? ? ? ?%elem_of_nil.
  - intros ? ? ? []%elem_of_nil.
  - intros ? ? ? ? ? []%elem_of_nil.
  - intros ? ? ? []%elem_of_nil.
Qed.
Lemma blank_catalog : catalog (begin st) [].
Proof.
  split; [|intros ? ? []%elem_of_nil]. split; cbn; try done; try (intros ? ? []%elem_of_nil); [constructor..|by left].
Qed.
Lemma blank_models c : models c gcScan0 st (blank size).
Proof.
  exists [], [], [], (fun _ => []), (fun _ => []), (fun _ => []). split; [|by left].
  split; cbn [blank a_size a_cells a_versions s_size s_ctrl s_file s_presence]; try done.
  - apply blank_ready.
  - intros x d. by rewrite blank_dsc.
  - split; [by left|constructor|constructor|]. intros x []%elem_of_nil.
  - split; [constructor|]. intros x []%elem_of_nil.
  - intros x []%elem_of_nil.
  - apply no_presence_ok, Hsize.
  - split; [apply blank_catalog|apply blank_owners].
  - intros k _. unfold cell_at, no_presence. by rewrite Has_none.
Qed.
End Blank.

(** A DIFF is created whenever the host grants the space of its metadata, and it is
    an empty disk without versions. *)
Lemma initialize_spec fallocate h size : (forall f p n, fallocate f p n = Ok tt) -> writable_size size -> is_page h ->
  exists f, initialize fallocate h (no_presence size) size = Ok f /\ (forall p b, fpages f !! p = Some b -> is_page b) /\
    slotAreaPage <= flen f /\ log_idle (page_at f logCommitPage) /\ decodeControl (page_at f 1) = Ok control1 /\
    file_pres (readFull f) size (no_presence size).
Proof.
  intros Hfa Hs Hh. unfold initialize. rewrite !Hfa. cbn [res_bind].
  destruct (decodeControl_encode _ control1_ok) as (b & -> & Hb & _ & Hd).
  set (f0 := writePage _ logCommitPage zeroPage). assert (slotAreaPage <= flen f0) as Hf by (cbn; lia).
  destruct (writeInitialPresence_spec f0 (no_presence size) size Hs (no_presence_ok _ (proj1 Hs)) Hf) as (bs & -> & Hl & Hbs & Hp).
  pose proof (size_pages size Hs). destruct (flen_writeFull f0 presenceAreaPage bs) as [Hm _].
  eexists; split; [done|]. split; [|split_and!; [lia| | |done]].
  - intros p x [Hx|Hx]%pages_writeFull; [|by eapply Forall_forall in Hbs]. cbn [f0 writePage fpages] in Hx.
    repeat (apply lookup_insert_Some in Hx as [[_ <-]|[_ Hx]]; [try done; apply zeroPage_ok|]). by rewrite lookup_empty in Hx.
  - rewrite page_at_writeFull, decide_False by (unfold presenceAreaPage, logCommitPage; lia). apply log_idle_zero.
  - rewrite page_at_writeFull, decide_False by (unfold presenceAreaPage; lia). exact Hd.
Qed.
Lemma create_spec fallocate h size c : (forall f p n, fallocate f p n = Ok tt) -> writable_size size -> is_page h ->
  exists hd, create fallocate h size = Ok hd /\ shown c hd (blank size) /\
    s_ctrl (h_store hd) = control1 /\ h_fatal hd = None /\ h_closed hd = false /\ h_metadataOnly hd = false.
Proof.
  intros Hfa Hs Hh. destruct (initialize_spec fallocate h size Hfa Hs Hh) as (f & Hi & Hp & Hl & Hid & Hc & Hpr).
  unfold create. fold (no_presence size). rewrite Hi. cbn [res_bind]. eexists; split; [done|]. split_and!; try done.
  by apply blank_models.
Qed.

(** ** Opening a store again *)

Lemma active_root st l fp : mapping (begin st) maxDepth (Root (s_ctrl st)) l fp -> Root (s_ctrl st) <> 0 ->
  exists n, inspectNode (store_reader st) (Root (s_ctrl st)) = Ok n.
Proof.
  intros [[(E & _)|(h & _ & Ht)] _ _ _] Hne; [by rewrite E in Hne|].
  assert (exists n, nd (begin st) (Root (s_ctrl st)) = Some n) as [n Hn].
  { destruct h as [|h]; cbn [tree] in Ht; destruct_and?; naive_solver. }
  exists n. unfold nd, nd_of in Hn. unfold store_reader. destruct (inspectNode _ _); naive_solver.
Qed.
(** What [openStore] checks holds of every store that shows a disk. *)
Lemma opens c st A l fp L gs bs U f meta : stands c st l fp L gs bs U A -> recover f (s_size st) = Ok (s_file st, s_ctrl st) ->
  (Retired (s_ctrl st) = false \/ meta = true) ->
  openStore f (s_size st) meta = Ok (mkHandle st gcScan0 0 false None false meta).
Proof.
  intros Hst Hr Hm. unfold openStore. rewrite Hr. cbn [res_bind].
  replace (Retired (s_ctrl st) && negb meta) with false by (destruct Hm as [-> | ->]; [done|by rewrite andb_false_r]).
  pose proof (sd_ready _ _ _ _ _ _ _ _ _ Hst) as Hrd. pose proof (w_next _ (rd_wf _ Hrd)) as Hn. pose proof (w_epoch _ (rd_wf _ Hrd)) as He.
  cbn [begin t_ctrl] in Hn, He. rewrite (proj2 (Z.eqb_neq _ _)), (proj2 (Z.eqb_neq _ _)) by lia. cbn [orb].
  rewrite (loadPresence_Ok _ _ (s_presence st)); [|apply Hrd|apply Hst..]. cbn [res_bind].
  replace (mkStore (s_file st) (s_ctrl st) (s_presence st) (s_size st)) with st by (by destruct st).
  destruct (negb meta && negb (Root (s_ctrl st) =? 0)) eqn:E; [|done].
  apply andb_true_iff in E as [_ E]. apply negb_true_iff, Z.eqb_neq in E.
  destruct (active_root st l fp (sd_map _ _ _ _ _ _ _ _ _ Hst) E) as [n ->]. done.
Qed.
Lemma openStore_spec c h A meta : shown c h A -> (Retired (s_ctrl (h_store h)) = false \/ meta = true) ->
  openStore (s_file (h_store h)) (h_size h) meta = Ok (mkHandle (h_store h) gcScan0 0 false None false meta) /\
  shown c (mkHandle (h_store h) gcScan0 0 false None false meta) A.
Proof.
  intros (l & fp & L & gs & bs & U & Hst & Hsc) Hm. pose proof (sd_ready _ _ _ _ _ _ _ _ _ Hst) as Hrd. split.
  - eapply opens; [done| |done]. exact (recover_idle (begin (h_store h)) _ _ (rd_flen _ Hrd) (rd_idle _ Hrd) (rd_ctrl _ Hrd)).
  - exists l, fp, L, gs, bs, U. split; [done|by left].
Qed.

(** ** A host that stops during a commit *)

(** What may be left of an update from [A] to [A1] of the blocks [K]: all of it, or a
    disk that differs from [A] only in those blocks. *)
Definition survives (K : Z -> Prop) (A A1 A' : astore) : Prop := A' = A1 \/
  (a_size A' = a_size A /\ a_versions A' = a_versions A /\ forall k, ~ K k -> a_cells A' k = a_cells A k).

Section Stop.
Context (c : option xts_cipher) (st : Store) (l : list entry) (fp : list Z) (L : list (Z * checkpoint)) (gs bs U : Z -> list Z) (A : astore).
Context (Hst : stands c st l fp L gs bs U A) (Hc : cipher_ok c).
Context (F : list Z) (t : transaction) (l' : list entry) (B' : list Z) (Hud : updated st F t l' B').
Context (A1 : astore) (Hnew : forall s, commit c t = Ok s -> models c gcScan0 s A1).
Context (Hback : forall k, k ∉ dw_block <$> t_data t -> t_data t <> [] -> assoc k l' = assoc k l).

(** The payload of a transaction is queued for slots of its own. *)
Lemma queued_slot d : d ∈ t_data t -> 1 <= dw_slot d /\ loose st (slotPage (dw_slot d)).
Proof.
  intros Hd. destruct (ud_data _ _ _ _ _ Hud d Hd) as (_ & de & Hde & Hk & Hb). apply dsc_bound in Hde as Hx. split; [lia|].
  destruct (dsc (begin st) (dw_slot d)) as [d0|] eqn:E; [|left; exists (dw_slot d); split; [lia|left; split; [by left|done]]].
  destruct (decide (Kind d0 = kindFree)) as [Ef|Ef]; [left; exists (dw_slot d); split; [lia|left; split; [right; by exists d0|done]]|].
  destruct (up_live _ _ _ (ud_fx _ _ _ _ _ Hud) _ _ E Ef) as (d' & Hd' & Hb' & Hcase). rewrite Hde in Hd'. injection Hd' as <-.
  destruct Hcase as [->|[_ Hg]]; [|by rewrite Hk in Hg]. right. exists (dw_slot d), d0. rewrite (up_pe _ _ _ (ud_fx _ _ _ _ _ Hud)) in Hb.
  split_and!; (done || lia).
Qed.
Lemma stop_loose q : q ∈ fresh t \/ data_page t q -> loose st q.
Proof.
  intros [Hq|(d & Hd & ->)]; [|by apply queued_slot]. left.
  destruct (up_fresh _ _ _ (ud_fx _ _ _ _ _ Hud) q Hq) as [Hf|Hf]; [cbn [begin fresh] in Hf; set_solver|done].
Qed.
(** The payload of another block is not among the pages written. *)
Lemma stop_block k : k ∉ dw_block <$> t_data t -> assoc k l <> 0 -> ~ (slotPage (assoc k l) ∈ fresh t \/ data_page t (slotPage (assoc k l))).
Proof.
  intros Hk Hne. apply assoc_found in Hne as Hel. apply (list_elem_of_fmap_2 slot) in Hel as Hsl. cbn in Hsl.
  destruct (proj2 (sd_payload _ _ _ _ _ _ _ _ _ Hst) _ Hsl) as (d & Hd & Hkd). apply dsc_bound in Hd as Hb. intros [Hf|(w & Hw & E)].
  - destruct (up_fresh _ _ _ (ud_fx _ _ _ _ _ Hud) _ Hf) as [H|(x & Hx & [[Hun E]|(_ & E & _)])]; [cbn [begin fresh] in H; set_solver| |].
    + apply slotPage_inj in E as <-; [|lia..]. apply (unused_live _ _ _ Hun) in Hd. by rewrite Hkd in Hd.
    + apply slotPage_descriptorPage in E; [done|lia..].
  - destruct (queued_slot w Hw) as [Hw1 _]. apply slotPage_inj in E; [|lia..]. pose proof (ud_slots _ _ _ _ _ Hud w Hw) as Es.
    assert (t_data t <> []) as Hnn by (intros En; rewrite En in Hw; by apply elem_of_nil in Hw).
    assert (mkEntry k (assoc k l) ∈ l') as H1. { rewrite <- (Hback k Hk Hnn). apply assoc_found. by rewrite (Hback k Hk Hnn). }
    assert (mkEntry (dw_block w) (dw_slot w) ∈ l') as H2. { rewrite Es. apply assoc_found. rewrite <- Es. lia. }
    pose proof (slots_inj l' _ _ (proj1 (ud_payload _ _ _ _ _ Hud)) H1 H2 E) as [= -> _]. apply Hk. by apply list_elem_of_fmap_2.
Qed.
(** Before the log is complete: the records are those of [st]. *)
Lemma stop_old g ctrl : paged g -> slotAreaPage <= flen g -> log_idle (page_at g logCommitPage) -> decodeControl (page_at g 1) = Ok ctrl ->
  recovered_old t g ctrl -> exists A', models c gcScan0 (mkStore g ctrl (s_presence st) (s_size st)) A' /\
    survives (fun k => k ∈ dw_block <$> t_data t) A A1 A'.
Proof.
  intros Hg Hl Hi Hd Ho. pose proof (up_store _ _ _ (ud_fx _ _ _ _ _ Hud)) as Est. cbn [begin store] in Est.
  assert (ready t) as Hr by (by eapply upd_ready). pose proof (publishes_old t g ctrl (s_presence st) Hr Ho Hg) as Hpu. rewrite Est in Hpu.
  set (s := mkStore g ctrl (s_presence st) (s_size st)) in *. destruct Ho as (_ & Hfl & _). rewrite Est in Hfl.
  set (f := fun k => if decide (k ∈ dw_block <$> t_data t) then cell_at c g (s_presence st) l k else a_cells A k).
  exists (with_cells f A). split; [|right; split_and!; [done..|]; intros k Hk; cbn; unfold f; by rewrite decide_False].
  exists l, fp, L, gs, bs, U. split; [|by left].
  apply (scratch_stands c st l fp L gs bs U A Hst _ s stop_loose Hpu); try done.
  - intros x Hx. destruct (sd_readable _ _ _ _ _ _ _ _ _ Hst x Hx) as [b Hb]. apply readFull_Ok in Hb as [Hb _].
    eexists. apply readFull_Ok. split; [|done]. cbn. lia.
  - intros k Hk. unfold f. case_decide; [done|]. symmetry.
    apply (scratch_block c st l fp L gs bs U A Hst _ s Hpu); [done|]. by apply stop_block.
Qed.
(** Once it is: the records are those of the commit. *)
Lemma stop_new p g ctrl : commit_plan t = Ok (Some p) -> paged g -> slotAreaPage <= flen g -> log_idle (page_at g logCommitPage) ->
  decodeControl (page_at g 1) = Ok ctrl -> recovered_new t p c g ctrl ->
  exists pr, models c gcScan0 (mkStore g ctrl pr (s_size st)) A1.
Proof.
  intros Hpl Hg Hl Hi Hd (-> & Hfl & Hq). pose proof (up_store _ _ _ (ud_fx _ _ _ _ _ Hud)) as Est. cbn [begin store] in Est.
  destruct (commit c t) as [s|] eqn:Hcm; [|unfold commit in Hcm; by rewrite Hpl in Hcm].
  destruct (Hnew s eq_refl) as (l1 & fp1 & L1 & gs1 & bs1 & U1 & Hs & Hsc). exists (s_presence s).
  unfold commit in Hcm. rewrite Hpl in Hcm. cbn [res_bind] in Hcm. apply Ok_inj in Hcm. subst s. rewrite Est in Hs, Hfl, Hq |- *. cbn [s_presence].
  exists l1, fp1, L1, gs1, bs1, U1. split; [|done]. eapply (scratch_same _ _ _ _ _ _ _ _ _ Hs (fun _ => False)); try done.
  split; cbn [s_size s_ctrl s_file begin store t_ctrl]; [done|by left|done| |done].
  intros q b _ _ Hlq _ [Hb <-]%readFull_Ok. apply readFull_Ok. split; [lia|]. by apply Hq.
Qed.
Lemma stop_recovers pl f f' : commit_plan t = Ok pl -> crashed (s_file st) (commit_writes c t pl) f ->
  rtc (interrupted (s_size st)) f f' ->
  exists s A', recover f' (s_size st) = Ok (s_file s, s_ctrl s) /\ s_size s = s_size st /\ Retired (s_ctrl s) = Retired (s_ctrl st) /\
    models c gcScan0 s A' /\ survives (fun k => k ∈ dw_block <$> t_data t) A A1 A'.
Proof.
  intros Hpl Hcr Hin. pose proof (up_store _ _ _ (ud_fx _ _ _ _ _ Hud)) as Est. cbn [begin store] in Est.
  assert (ready t) as Hr by (by eapply upd_ready). rewrite <- Est in Hcr, Hin.
  destruct (commit_recovers c t pl f f' Hr Hpl Hcr Hin) as (g & ctrl & Hrec & Hl & Hidle & Hout).
  assert (paged g /\ decodeControl (page_at g 1) = Ok ctrl) as [Hg Hct].
  { eapply paged_recover; [exact Hrec|]. eapply paged_interrupted; [exact Hin|].
    eapply paged_crashed; [exact Hcr|apply paged_file, Hr|apply paged_commit; try done; apply Hud]. }
  rewrite Est in Hrec. destruct Hout as [Ho|(p & -> & Hn)].
  - destruct (stop_old g ctrl Hg Hl Hidle Hct Ho) as (A' & Hm & Hsv). exists (mkStore g ctrl (s_presence st) (s_size st)), A'.
    destruct Ho as (-> & _). split_and!; try done. by rewrite Est.
  - destruct (stop_new p g ctrl Hpl Hg Hl Hidle Hct Hn) as (pr & Hm). exists (mkStore g ctrl pr (s_size st)), A1.
    split_and!; [done..| |done|by left]. destruct Hn as (-> & _). cbn [s_ctrl].
    rewrite (proj2 (po_ctrl _ _ (commit_plan_ok t p (rd_wf t Hr) (rd_fresh t Hr) Hpl))).
    by destruct (up_ctrl _ _ _ (ud_fx _ _ _ _ _ Hud)) as (_ & _ & _ & _ & _ & _ & E & _).
Qed.
End Stop.

Lemma models_opens c st A f meta : models c gcScan0 st A -> recover f (s_size st) = Ok (s_file st, s_ctrl st) ->
  (Retired (s_ctrl st) = false \/ meta = true) -> exists h, openStore f (s_size st) meta = Ok h /\ shown c h A /\ h_size h = s_size st.
Proof.
  intros (l & fp & L & gs & bs & U & Hst & Hsc) Hr Hm. eexists. split; [by eapply opens|]. split; [|done].
  exists l, fp, L, gs, bs, U. split; [done|by left].
Qed.
(** The store is opened again after the host stopped while it committed a write, and
    while it recovered: the other blocks and the versions are there. *)
Lemma write_stop c g st A part t pl f f' : cipher_ok c -> models c g st A -> shallow st (pred maxDepth) ->
  Next (s_ctrl st) + write_cost <= maxSlot + 1 -> Forall (valid_page (s_size st)) part -> (length part <= 64)%nat ->
  Retired (s_ctrl st) = false -> write_body part (begin st) = Ok t -> commit_plan t = Ok pl ->
  crashed (s_file st) (commit_writes c t pl) f -> rtc (interrupted (s_size st)) f f' ->
  exists h A', openStore f' (s_size st) false = Ok h /\ shown c h A' /\ survives (fun k => k ∈ Block <$> part) A (a_write part A) A'.
Proof.
  intros Hc (l & fp & L & gs & bs & U & Hst & _) Hsh Hroom Hv Hlen Hret Hw Hpl Hcr Hin.
  destruct (write_tx c gcScan0 st A part l fp L gs bs U Hc Hst ltac:(by left) Hsh Hroom Hv Hlen) as (t0 & l' & Hw0 & Hud & Hk & Hb & Hs).
  rewrite Hw in Hw0. apply Ok_inj in Hw0 as <-.
  destruct (stop_recovers c st l fp L gs bs U A Hst Hc _ t l' _ Hud (a_write part A) (fun s Hs0 => proj1 (Hs s Hs0))
    ltac:(intros k Hk0 _; apply Hk; by rewrite <- Hb) pl f f' Hpl Hcr Hin) as (s & A' & Hrec & Hsz & Hre & Hm & Hsv).
  rewrite <- Hsz in Hrec |- *. destruct (models_opens c s A' f' false Hm Hrec) as (h & Ho & Hsh' & _); [left; by rewrite Hre|].
  exists h, A'. split_and!; [done..|]. destruct Hsv as [->|(? & ? & Hx)]; [by left|right; split_and!; try done].
  intros k Hk0. apply Hx. by rewrite Hb.
Qed.
(** After a discard it is all of it or nothing. *)
Lemma discard_stop c g st A runs h t pl f f' : cipher_ok c -> models c g st A ->
  Next (s_ctrl st) + 2 * Z.of_nat maxDepth * (s_size st / PageSize) * Z.of_nat (length runs) <= maxSlot + 1 -> Forall (valid_run (s_size st)) runs ->
  Retired (s_ctrl st) = false -> discard_body runs (begin st) h = (Ok t, h) -> commit_plan t = Ok pl ->
  crashed (s_file st) (commit_writes c t pl) f -> rtc (interrupted (s_size st)) f f' ->
  exists h A', openStore f' (s_size st) false = Ok h /\ shown c h A' /\ survives (fun _ => False) A (a_discard runs A) A'.
Proof.
  intros Hc (l & fp & L & gs & bs & U & Hst & _) Hroom Hv Hret Hw Hpl Hcr Hin.
  destruct (discard_tx c gcScan0 st A runs h l fp L gs bs U Hc Hst ltac:(by left) Hroom Hv) as (t0 & F & l' & B' & Hw0 & Hud & Hd & Hs).
  rewrite Hw in Hw0. injection Hw0 as <-.
  destruct (stop_recovers c st l fp L gs bs U A Hst Hc _ t l' _ Hud (a_discard runs A) (fun s Hs0 => proj1 (Hs s Hs0))
    ltac:(done) pl f f' Hpl Hcr Hin) as (s & A' & Hrec & Hsz & Hre & Hm & Hsv).
  rewrite <- Hsz in Hrec |- *. destruct (models_opens c s A' f' false Hm Hrec) as (h' & Ho & Hsh' & _); [left; by rewrite Hre|].
  exists h', A'. split_and!; [done..|]. destruct Hsv as [->|(? & ? & Hx)]; [by left|right; split_and!; try done].
  intros k _. apply Hx. rewrite Hd. by intros []%elem_of_nil.
Qed.

(** ** An example *)

Definition always : file -> Z -> Z -> dres unit := fun _ _ _ => Ok tt.
(** A new DIFF of 16 blocks. *)
Definition new_handle : handle := match create always zeroPage demo_size with Ok h => h | Err _ => demo_handle end.
Lemma new_shown c : shown c new_handle (blank demo_size) /\ s_ctrl (h_store new_handle) = control1 /\ h_fatal new_handle = None /\
  h_closed new_handle = false /\ h_metadataOnly new_handle = false.
Proof.
  destruct (create_spec always zeroPage demo_size c (fun _ _ _ => eq_refl) demo_writable zeroPage_ok) as (h & E & H).
  unfold new_handle. by rewrite E.
Qed.
Lemma new_size : h_size new_handle = demo_size.
Proof. destruct (proj1 (new_shown None)) as (l & fp & L & gs & bs & U & Hst & _). apply (sd_size _ _ _ _ _ _ _ _ _ Hst). Qed.
Lemma new_room : write_room (h_store new_handle) /\ version_room (h_store new_handle).
Proof.
  destruct (new_shown None) as (_ & Hc & _). pose proof new_size as Hs. unfold h_size in Hs. unfold write_room, version_room. rewrite Hc, Hs. split; split.
  - apply (mapping_shallow _ _ [] []). rewrite Hc. split; [by left|constructor|constructor|]. intros x []%elem_of_nil.
  - by apply Z.leb_le.
  - by apply Z.leb_le.
  - done.
Qed.
