(* ===== verification/History.v ===== *)
(** * History: runs of calls on one DIFF.

    A run is a sequence of calls on a handle, each with what the host answered during
    it: whether there was space, which versions a reader held, and whether the caller
    gave up.  Closing the handle and opening the DIFF again is a call like the others.
    Every run of the store is a run of the abstract store of [Model], with the same
    results; what a view reads does not change while it is open. *)
From stdpp Require Import base numbers list gmap strings sorting relations.
From Stdlib Require Import ZArith Lia.
From S2P Require Import Prelude Page Presence Json Format Tree Tx Demo TreeWrite Retire TreeRemove Sha256 Commit Crash Publish Bitmap Checkpoint GcDemo Gc Accounts Ops View Batch Model Versions Device Reading Lifecycle.

#[local] Opaque Sum256 sealPage checkPage Page.put.
#[local] Hint Constructors thinned : core.

(** ** Calls *)

Inductive call :=
| CallWrite (pages : list page)
| CallDiscard (off len : Z)
| CallDiscardPages (blocks : list Z)
| CallCheckpoint (id : list Z)
| CallDelete (ids : list (list Z))
| CallGC (budget : Z)
| CallMarkModified
| CallRetire
| CallClose
| CallReopen.
(** A call and what the host answers: [fallocate], the locks of the readers, and the
    context of the caller. *)
Record event := mkEvent { e_call : call; e_fallocate : file -> Z -> Z -> dres unit; e_pin : Z -> dres unit; e_ctx : dres unit }.

Section Run.
Context (c : option xts_cipher).

Definition reopen : op unit := fun h =>
  match openStore (s_file (h_store h)) (h_size h) false with Ok h' => (Ok tt, h') | Err e => (Err e, h) end.
Definition perform (e : event) : op unit :=
  let fa := e_fallocate e in let pin := e_pin e in let ctx := e_ctx e in
  match e_call e with
  | CallWrite pages => WritePages c fa pin ctx pages
  | CallDiscard off len => Discard c fa pin ctx off len
  | CallDiscardPages blocks => DiscardPages c fa pin ctx blocks
  | CallCheckpoint id => CheckpointOp c fa pin ctx id
  | CallDelete ids => DeleteCheckpoints c fa pin ctx ids
  | CallGC budget => do* _ := GC c fa pin ctx budget in ret tt
  | CallMarkModified => MarkModified c fa pin ctx
  | CallRetire => RetireOp c fa pin ctx
  | CallClose => Close
  | CallReopen => reopen
  end.
(** The results of the calls and the handle after them. *)
Fixpoint run (es : list event) (h : handle) : list (dres unit) * handle :=
  match es with
  | [] => ([], h)
  | e :: es => let (r, h) := perform e h in let (rs, h) := run es h in (r :: rs, h)
  end.

(** ** The abstract calls *)

(** What a call that answered [r] did to the disk. *)
Definition a_step (e : event) (r : dres unit) (A A' : astore) : Prop :=
  let pin := e_pin e in
  match e_call e with
  | CallWrite pages => match r with Ok _ => becomes pin (write_cells pages) [] A A' | Err _ => removed pin [] A A' end
  | CallDiscard off len => exists mid, off / PageSize <= mid <= Z.max (off / PageSize) ((off + len) / PageSize) /\ becomes pin (zero_cells (off / PageSize) mid) [] A A' /\
      (r = Ok tt -> mid = (off + len) / PageSize)
  | CallDiscardPages blocks => exists out, (forall k, k ∈ out -> k ∈ blocks) /\ becomes pin (zero_blocks out) [] A A' /\
      (r = Ok tt -> forall k, k ∈ blocks -> k ∈ out)
  | CallCheckpoint id => match r with Ok _ => snapshot pin id A A' | Err _ => removed pin [] A A' end
  | CallDelete ids => exists out, removed pin out A A' /\ match r with Ok _ => out = ids | Err _ => exists rest, ids = out ++ rest end
  | CallClose | CallReopen => A' = A
  | _ => removed pin [] A A'
  end.
Fixpoint a_run (es : list event) (rs : list (dres unit)) (A A' : astore) : Prop :=
  match es, rs with
  | [], [] => A' = A
  | e :: es, r :: rs => exists A1, a_step e r A A1 /\ a_run es rs A1 A'
  | _, _ => False
  end.

(** ** What a run may use *)

(** A call whose arguments are bytes and block numbers, on a store with slots left
    for it; a write is of one batch. *)
Definition fits (e : event) (h : handle) : Prop :=
  let s := h_store h in
  pinnable (e_pin e) /\
  match e_call e with
  | CallWrite pages => write_room s /\ Forall page_arg pages /\ (length pages <= MaxBatchPages)%nat
  | CallDiscard _ _ => Next (s_ctrl s) + zero_cost s * (s_size s / PageSize) <= maxSlot + 1
  | CallDiscardPages blocks => Forall (fun b => 0 <= b) blocks /\ Next (s_ctrl s) + zero_cost s * Z.of_nat (length blocks) <= maxSlot + 1
  | CallCheckpoint id => bytes_ok id /\ version_room s
  | _ => True
  end.
Fixpoint all_fit (es : list event) (h : handle) : Prop :=
  match es with [] => True | e :: es => fits e h /\ all_fit es (perform e h).2 end.

Context (Hc : cipher_ok c).

Lemma perform_spec e h A : shown c h A -> fits e h -> exists A', shown c (perform e h).2 A' /\ a_step e (perform e h).1 A A'.
Proof.
  intros Hh [Hp Hf]. unfold perform, a_step. destruct e as [[pages|off len|blocks|id|ids|n| | | |] fa pin ctx]; cbn [e_call e_fallocate e_pin e_ctx] in *.
  - destruct Hf as (H1 & H2 & H3). pose proof (WritePages_spec c fa pin ctx Hc Hp pages h A Hh H1 H2 H3) as H. by destruct (WritePages _ _ _ _ _ _).
  - pose proof (Discard_spec c fa pin ctx Hc Hp off len h A Hh Hf) as H. destruct (Discard _ _ _ _ _ _ _). destruct H as (mid & A' & ? & ? & ? & ?). eauto 6.
  - destruct Hf as [H1 H2]. pose proof (DiscardPages_spec c fa pin ctx Hc Hp blocks h A Hh H1 H2) as H. destruct (DiscardPages _ _ _ _ _ _).
    destruct H as (out & A' & ? & ? & ? & ?). eauto 6.
  - destruct Hf as [H1 H2]. pose proof (CheckpointOp_spec c fa pin ctx Hc Hp id h A Hh H1 H2) as H. by destruct (CheckpointOp _ _ _ _ _ _).
  - pose proof (DeleteCheckpoints_spec c fa pin ctx Hc Hp ids h A Hh) as H. destruct (DeleteCheckpoints _ _ _ _ _ _). destruct H as (out & A' & ? & ? & ?). eauto 6.
  - destruct (keeps_bind c pin (GC c fa pin ctx n) (fun _ => ret tt) (keeps_gcLocked c fa pin ctx Hc Hp _) (fun _ => keeps_same c pin (ret tt) (fun _ => conj eq_refl eq_refl)) h A Hh)
      as (A' & ? & ? & _). eauto.
  - destruct (keeps_MarkModified c fa pin ctx Hc Hp h A Hh) as (A' & ? & ? & _). eauto.
  - destruct (keeps_Retire c fa pin ctx Hc Hp h A Hh) as (A' & ? & ? & _). eauto.
  - exists A. split; [|done]. unfold Close. destruct (h_closed h); done.
  - exists A. split; [|done]. unfold reopen. destruct (openStore _ _ false) as [h'|] eqn:E; [|done]. cbn [snd].
    destruct (Retired (s_ctrl (h_store h))) eqn:Er.
    + exfalso. destruct Hh as (l & fp & L & gs & bs & U & Hst & _). pose proof (sd_ready _ _ _ _ _ _ _ _ _ Hst) as Hrd. unfold openStore, h_size in E.
      pose proof (recover_idle (begin (h_store h)) _ _ (rd_flen _ Hrd) (rd_idle _ Hrd) (rd_ctrl _ Hrd)) as Hrec. cbn [begin store] in Hrec.
      rewrite Hrec in E. cbn [res_bind] in E. by rewrite Er in E.
    + destruct (openStore_spec c h A false Hh ltac:(by left)) as [Ho Hs]. rewrite E in Ho. apply Ok_inj in Ho as ->. done.
Qed.
Lemma run_spec es : forall h A, shown c h A -> all_fit es h -> exists A', shown c (run es h).2 A' /\ a_run es (run es h).1 A A'.
Proof.
  induction es as [|e es IH]; intros h A Hh Hf; [by exists A|]. destruct Hf as [He Hf]. cbn [run].
  destruct (perform_spec e h A Hh He) as (A1 & H1 & Hs1). destruct (perform e h) as [r h1]. cbn [fst snd] in *.
  destruct (IH h1 A1 H1 Hf) as (A2 & H2 & Hs2). destruct (run es h1) as [rs h2]. cbn [fst snd] in *. exists A2. split; [done|]. by exists A1.
Qed.
End Run.

(** ** Versions that are read *)

(** [w] is still among the versions, with or without its name. *)
Definition holds (w : version) (A : astore) : Prop :=
  exists w', w' ∈ a_versions A /\ v_slot w' = v_slot w /\ v_tree w' = v_tree w /\ v_uses w' = v_uses w /\ v_cells w' = v_cells w.
(** A reader of the version in [slot] has its lock during the call. *)
Definition held (slot : Z) (e : event) : Prop := e_pin e slot <> Ok tt.

Lemma thinned_holds pin ids w vs vs' w1 : pin (v_slot w) <> Ok tt -> thinned (removes pin ids) vs vs' -> w1 ∈ vs ->
  v_slot w1 = v_slot w -> v_tree w1 = v_tree w -> v_uses w1 = v_uses w -> v_cells w1 = v_cells w ->
  exists w', w' ∈ vs' /\ v_slot w' = v_slot w /\ v_tree w' = v_tree w /\ v_uses w' = v_uses w /\ v_cells w' = v_cells w.
Proof.
  intros Hp Ht. revert w1. induction Ht as [|v v' vs vs' Kv Ht IH|v vs vs' Kv Ht IH]; intros w1 Hin Es Et Eu Ec; [by apply elem_of_nil in Hin|..];
    apply elem_of_cons in Hin as [->|Hin].
  - cbn in Kv. exists v'. split; [by left|]. by subst v'.
  - destruct (IH w1 Hin Es Et Eu Ec) as (w' & ? & ?). exists w'. split; [by right|done].
  - cbn in Kv. destruct Kv as [_ Kv]. by rewrite Es in Kv.
  - by eapply IH.
Qed.
Lemma a_step_holds e r w A A' : a_step e r A A' -> held (v_slot w) e -> holds w A -> holds w A'.
Proof.
  intros Hs Hh (w1 & Hin & Es & Et & Eu & Ec).
  assert (forall ids vs', thinned (removes (e_pin e) ids) (a_versions A) vs' -> holds w (mkAstore 0 (fun _ => Absent) vs')) as Hthin.
  { intros ids vs' Ht. by eapply thinned_holds. }
  assert (forall ids, removed (e_pin e) ids A A' -> holds w A') as Hrem by (intros ids (_ & _ & Ht); by eapply Hthin).
  assert (forall f ids, becomes (e_pin e) f ids A A' -> holds w A') as Hbec by (intros f ids (_ & _ & Ht); by eapply Hthin).
  assert (A' = A -> holds w A') as Hsame by (intros ->; by exists w1).
  unfold a_step in Hs. destruct (e_call e); try destruct r; try naive_solver.
  destruct Hs as (A1 & x & t & u & (_ & _ & Ht) & ->). destruct (Hthin _ _ Ht) as (w' & Hw' & ?). exists w'. split; [|done].
  apply elem_of_app. by left.
Qed.
Lemma a_run_holds es : forall rs w A A', a_run es rs A A' -> Forall (held (v_slot w)) es -> holds w A -> holds w A'.
Proof.
  induction es as [|e es IH]; intros [|r rs] w A A' Hr Hf Hw; try done; [by cbn in Hr; subst|]. destruct Hr as (A1 & Hs & Hr).
  apply Forall_cons in Hf as [He Hf]. eapply IH; [done..|]. by eapply a_step_holds.
Qed.
Lemma a_step_size e r A A' : a_step e r A A' -> a_size A' = a_size A.
Proof.
  unfold a_step. destruct (e_call e); try destruct r; try (unfold becomes, removed; naive_solver).
  all: intros (A1 & x & t & u & (? & _) & ->); done.
Qed.
Lemma a_run_size es : forall rs A A', a_run es rs A A' -> a_size A' = a_size A.
Proof.
  induction es as [|e es IH]; intros [|r rs] A A' Hr; try done; [by cbn in Hr; subst|]. destruct Hr as (A1 & Hs & Hr).
  rewrite (IH _ _ _ Hr). by eapply a_step_size.
Qed.

Lemma shown_size c h A : shown c h A -> h_size h = a_size A.
Proof. intros (l & fp & L & gs & bs & U & Hst & _). apply (sd_size _ _ _ _ _ _ _ _ _ Hst). Qed.
