(* ===== verification/Promises.v ===== *)
(** * Promises: what a user of a DIFF can rely on.

    The components put together.  A batch of writes that has space succeeds, and
    reading returns what was written and, elsewhere, what was there; a discarded range
    reads as zeros; a checkpoint can be opened at once and reads as the disk did; and
    a view reads the same bytes whatever is done to the DIFF while it is open. *)
From stdpp Require Import base numbers list gmap strings sorting relations.
From Stdlib Require Import ZArith Lia.
From S2P Require Import Prelude Page Presence Json Format Tree Tx Demo TreeWrite Retire TreeRemove Sha256 Commit Crash Publish Bitmap Checkpoint GcDemo Gc Accounts Ops View Batch Model Versions Device Reading Lifecycle History.

#[local] Opaque Sum256 sealPage checkPage Page.put.

(** A handle that is open for data, in a call nobody cancelled. *)
Record usable (h : handle) : Prop := {
  us_open : h_closed h = false;
  us_well : h_fatal h = None;
  us_live : Retired (h_ctrl h) = false;
  us_data : h_metadataOnly h = false }.
(** The host has space. *)
Definition spacious (fallocate : file -> Z -> Z -> dres unit) : Prop := forall f p n, fallocate f p n = Ok tt.

Lemma usable_healthy h : usable h -> healthy (Ok tt) h = (Ok tt, h).
Proof. intros [Ho Hw Hl _]. unfold healthy. by rewrite Ho, Hw, Hl. Qed.

(** ** A commit with space *)

Lemma reserve_Ok fa t new : spacious fa -> reserve fa t new = Ok tt.
Proof.
  intros Hs. unfold reserve. destruct (reserve_pages t new) as [|p l]; [done|].
  generalize (page_runs p p l). intros rs. induction rs as [|[a b] rs IH]; [done|]. cbn [reserve_runs]. by rewrite Hs.
Qed.
Lemma commits c t : ready t -> redoPages t <= maxLogPages -> exists s, commit c t = Ok s.
Proof.
  intros Hr Hn. pose proof (redo_count t (rd_wf t Hr) (rd_fresh t Hr)) as H. unfold commit.
  destruct (commit_plan t) as [[p|]|e]; [cbn [res_bind]; eauto..|lia].
Qed.
Lemma mutate_Ok c fa pin fn n defer h t s : spacious fa -> fn (begin (h_store h)) h = (Ok t, h) -> commit c t = Ok s ->
  mutate_attempts c fa pin (Ok tt) n fn 0 defer h = (Ok tt, set_store s h).
Proof.
  intros Hs Hf Hc. assert (mutateOnce c fa (Ok tt) fn 0 h = (Ok tt, set_store s h)) as E; [|destruct n; cbn [mutate_attempts]; by rewrite E].
  unfold mutateOnce, op_bind, lift. rewrite Hf. cbn [andb Z.ltb Z.compare]. unfold reserve_commit.
  destruct (commit_plan t) as [pl|e] eqn:Ep; [|unfold commit in Hc; by rewrite Ep in Hc]. cbn [res_bind].
  destruct pl; [rewrite (reserve_Ok fa t _ Hs)|]; cbn [res_bind]; by rewrite Hc.
Qed.

(** ** Writing and reading *)

Lemma write_batches_one c fa pin ctx pages defer h : pages <> [] -> (length pages <= MaxBatchPages)%nat ->
  write_batches c fa pin ctx (length pages) pages defer h = op_bind (write_batch c fa pin ctx pages defer) (fun _ => ret tt) h.
Proof.
  intros Hne Hl. destruct pages as [|p ps]; [done|]. cbn [length write_batches]. rewrite take_ge by done.
  unfold op_bind. destruct (write_batch _ _ _ _ _ _ h) as [[u|e] h']; [|done]. rewrite drop_ge by done. by destruct ps.
Qed.
(** A batch is committed at once. *)
Lemma WritePages_Ok c fa pin h A pages : cipher_ok c -> spacious fa -> usable h -> shown c h A -> Current (h_ctrl h) = 0 ->
  write_room (h_store h) -> pages <> [] -> Forall (valid_page (h_size h)) pages -> (length pages <= MaxBatchPages)%nat ->
  (forall t, write_body pages (begin (h_store h)) = Ok t -> redoPages t <= maxLogPages) ->
  exists s, WritePages c fa pin (Ok tt) pages h = (Ok tt, set_store s h) /\ models c (h_gc h) s (a_write pages A) /\ s_size s = h_size h /\
    Retired (s_ctrl s) = false.
Proof.
  intros Hc Hsp Hu (l & fp & L & gs & bs & U & Hst & Hg) Hcur [Hsh Hroom] Hne Hv Hlen Hredo.
  destruct (write_tx c (h_gc h) (h_store h) A pages l fp L gs bs U Hc Hst Hg Hsh Hroom Hv Hlen) as (t & l' & Hw & Hud & _ & _ & Hs).
  assert (ready t) as Hr by (by eapply upd_ready). destruct (commits c t Hr (Hredo t Hw)) as [s Hcm]. destruct (Hs s Hcm) as [Hm [Hsz _]].
  assert (Retired (s_ctrl s) = false) as Hret.
  { pose proof (pu_field t s _ (cm_publishes _ _ _ (commit_committed c t s Hr Hc (ud_data _ _ _ _ _ Hud) Hcm)) Retired ltac:(done)) as E. cbn in E.
    destruct (up_ctrl _ _ _ (ud_fx _ _ _ _ _ Hud)) as (_ & _ & _ & _ & _ & _ & E2 & _). rewrite E, E2. apply Hu. }
  exists s. split; [|done]. unfold WritePages, writePages. destruct pages as [|p0 ps]; [done|]. set (pages := p0 :: ps) in *. cbn [andb]. unfold with_handle.
  assert (existsb (invalid_page (h_size h)) pages = false) as ->.
  { apply not_true_iff_false. intros (p & Hp & Hi)%existsb_exists. apply list_elem_of_In in Hp. rewrite Forall_forall in Hv. destruct (Hv p Hp) as [Hb [Hl _]].
    unfold invalid_page in Hi. rewrite Hl in Hi. change (Z.of_nat page_len =? PageSize) with true in Hi. cbn [negb orb] in Hi. apply Z.leb_le in Hi. unfold h_size in *. lia. }
  assert (MarkModified c fa pin (Ok tt) h = (Ok tt, h)) as Hmk.
  { unfold MarkModified, op_bind. rewrite (usable_healthy h Hu). unfold with_handle. by rewrite Hcur. }
  unfold op_bind at 1. rewrite Hmk, write_batches_one by done. unfold op_bind at 1.
  assert (write_batch c fa pin (Ok tt) pages false h = (Ok tt, set_store s h)) as ->; [|done].
  unfold write_batch, op_bind. rewrite (usable_healthy h Hu). unfold with_handle. rewrite (us_data h Hu), Hcur. cbn [Z.eqb ret].
  unfold mutate_policy. eapply mutate_Ok; [done| |exact Hcm]. unfold lift. by rewrite Hw.
Qed.

Lemma disk_bytes_block cells cells' k : 0 <= k -> cells' k = cells k -> disk_bytes cells' (k * PageSize) page_len = disk_bytes cells (k * PageSize) page_len.
Proof.
  intros Hk E. unfold disk_bytes. apply list_fmap_ext. intros i x Hx. apply lookup_seq in Hx as [-> Hi]. unfold disk_byte.
  assert ((k * PageSize + Z.of_nat (0 + i)) / PageSize = k) as ->; [|by rewrite E]. unfold page_len in Hi. unfold PageSize in *.
  rewrite Z.add_comm, Z.div_add by done. rewrite Z.div_small; lia.
Qed.
Lemma ReadAt_block c h A k : shown c h A -> cipher_length c -> usable h -> 0 <= k < h_size h / PageSize ->
  ReadAt c (Ok tt) PageSize (k * PageSize) h = (disk_bytes (a_cells A) (k * PageSize) page_len, Ok false, h).
Proof.
  intros Hh Hl Hu Hk. assert (k * PageSize + PageSize <= h_size h) as Hle.
  { pose proof (Z.mul_div_le (h_size h) PageSize ltac:(done)). unfold PageSize in *. lia. }
  rewrite (ReadAt_spec c (Ok tt) h A) by (try done; try apply usable_healthy; try apply Hu; unfold PageSize in *; (done || lia)).
  rewrite Z.min_l by lia. by rewrite Z.ltb_irrefl.
Qed.


(** C17 — A discarded range reads as zeros: when a discard answers no error, every block
    of its range reads as zeros and every other block as before. *)
Theorem discard_reads_zero c fallocate pin ctx off len h A h' :
  cipher_ok c -> cipher_length c -> pinnable pin -> shown c h A -> usable h ->
  Next (h_ctrl h) + zero_cost (h_store h) * (h_size h / PageSize) <= maxSlot + 1 ->
  Discard c fallocate pin ctx off len h = (Ok tt, h') -> usable h' ->
  h_size h' = h_size h /\ forall k, 0 <= k < h_size h / PageSize ->
    ReadAt c (Ok tt) PageSize (k * PageSize) h' =
      (if (off / PageSize <=? k) && (k <? (off + len) / PageSize) then zeroPage else (ReadAt c (Ok tt) PageSize (k * PageSize) h).1.1, Ok false, h').
Proof.
  intros Hc Hl Hp Hh Hu Hroom Hd Hu'. pose proof (Discard_spec c fallocate pin ctx Hc Hp off len h A Hh Hroom) as H. rewrite Hd in H.
  destruct H as (mid & A' & _ & Hh' & (Hsz & Hcells & _) & Hmid). rewrite (Hmid eq_refl) in Hcells.
  assert (h_size h' = h_size h) as Hs by (rewrite (shown_size _ _ _ Hh), (shown_size _ _ _ Hh'); done). split; [done|]. intros k Hk.
  rewrite (ReadAt_block c h A k Hh Hl Hu Hk). cbn [fst]. rewrite (ReadAt_block c h' A' k Hh' Hl Hu') by (by rewrite Hs).
  do 2 f_equal. specialize (Hcells k). unfold zero_cells in Hcells. destruct (_ && _).
  - rewrite disk_bytes_page; [by rewrite Hcells|lia|]. rewrite Hcells. apply zeroPage_ok.
  - by apply disk_bytes_block; [lia|].
Qed.

(** ** Versions *)

Lemma CheckpointOp_valid c fa pin ctx id h h' : CheckpointOp c fa pin ctx id h = (Ok tt, h') -> ValidID id = Ok tt.
Proof. unfold CheckpointOp, op_bind, lift. by destruct (ValidID id) as [[]|]. Qed.
Lemma read_view c g s A v w w' len off h A0 : models c g s A -> cipher_length c -> views v s w -> w' ∈ a_versions A ->
  v_tree w' = v_tree w -> v_uses w' = v_uses w -> v_cells w' = v_cells w -> shown c h A0 -> usable h -> a_cells A0 = v_cells w ->
  v_size v = h_size h -> 0 <= off <= h_size h -> 0 <= len ->
  View_ReadAt c v (s_file s) len off = (ReadAt c (Ok tt) len off h).1.
Proof.
  intros Hm Hl Hv Hin Et Eu Ec Hh Hu Ea Es Ho Hlen.
  rewrite (View_ReadAt_spec c g s A v w w') by (done || lia). rewrite (ReadAt_spec c (Ok tt) h A0) by (try done; try apply usable_healthy; try apply Hu; done).
  cbn [fst]. by rewrite Ea, Es.
Qed.
(** C7 — A checkpoint is the disk at the time: when a checkpoint answers no error, a
    view of it can be opened at once, and any read of the view, also one that crosses
    the end of the disk, returns what the same read of the disk returned before. *)
Theorem checkpoint_views c fallocate pin ctx id h A h' pin' :
  cipher_ok c -> cipher_length c -> pinnable pin -> shown c h A -> usable h -> bytes_ok id -> version_room (h_store h) ->
  CheckpointOp c fallocate pin ctx id h = (Ok tt, h') -> Retired (h_ctrl h') = false -> (forall x, pin' x = Ok tt) ->
  exists v, openView (s_file (h_store h')) (h_size h') pin' id = Ok v /\
    forall len off, 0 <= off <= h_size h -> 0 <= len ->
      View_ReadAt c v (s_file (h_store h')) len off = (ReadAt c (Ok tt) len off h).1.
Proof.
  intros Hc Hl Hp Hh Hu Hid Hroom Hck Hret Hp'. pose proof (CheckpointOp_spec c fallocate pin ctx Hc Hp id h A Hh Hid Hroom) as H. rewrite Hck in H.
  destruct H as (A' & Hh' & A1 & x & r & u & (Hs1 & Hc1 & _) & ->). set (w := mkVersion id true x r u (a_cells A1)) in *.
  assert (w ∈ a_versions A1 ++ [w]) as Hin by (apply elem_of_app; right; by left).
  destruct (openView_spec c _ _ _ w pin' Hh' Hret Hin eq_refl (CheckpointOp_valid _ _ _ _ _ _ _ Hck) (Hp' x)) as (v & Hv & Hvw).
  exists v. split; [exact Hv|]. intros len off Ho Hlen. eapply (read_view c _ _ _ v w w len off h A); try done.
  rewrite (vw_size _ _ _ Hvw), (shown_size _ _ _ Hh). by rewrite (shown_size _ _ _ Hh' : s_size (h_store h') = _).
Qed.
(** C1 — A view does not change: a version that is listed can be opened, and while its
    reader holds its lock, whatever calls run on the DIFF, be it writes, discards,
    checkpoints, the deletion of that very version, turns of the collector, or
    closing and opening the DIFF again, every read of the view returns the bytes the
    version had when the view was opened. *)
Theorem view_stable c h A w pin es :
  cipher_ok c -> cipher_length c -> shown c h A -> Retired (h_ctrl h) = false ->
  w ∈ a_versions A -> v_visible w = true -> ValidID (v_id w) = Ok tt -> pin (v_slot w) = Ok tt ->
  all_fit c es h -> Forall (held (v_slot w)) es ->
  exists v, openView (s_file (h_store h)) (h_size h) pin (v_id w) = Ok v /\
    forall len off, 0 <= off <= h_size h -> 0 <= len ->
      View_ReadAt c v (s_file (h_store (run c es h).2)) len off =
        (disk_bytes (v_cells w) off (Z.to_nat (Z.min len (h_size h - off))), Ok (Z.min len (h_size h - off) <? len)).
Proof.
  intros Hc Hl Hh Hret Hin Hvis Hid Hpin Hf Hheld. destruct (openView_spec c _ _ A w pin Hh Hret Hin Hvis Hid Hpin) as (v & Hv & Hvw).
  exists v. split; [exact Hv|]. intros len off Ho Hlen. destruct (run_spec c Hc es h A Hh Hf) as (A' & Hh' & Hrun).
  destruct (a_run_holds es _ w A A' Hrun Hheld) as (w' & Hin' & _ & Et & Eu & Ec); [by exists w|].
  assert (s_size (h_store (run c es h).2) = s_size (h_store h)) as Hs.
  { rewrite (shown_size _ _ _ Hh' : s_size _ = _), (shown_size _ _ _ Hh : s_size _ = _). by eapply a_run_size. }
  pose proof (vw_size _ _ _ Hvw) as Hvs. rewrite (View_ReadAt_spec c _ _ A' v w w') by (try done; try lia; try (rewrite Hvs; apply Ho); destruct Hvw; split; try done; unfold in_disk in *; by rewrite Hs).
  unfold h_size. by rewrite Hvs.
Qed.

(** ** Examples *)

Definition sevens : list Z := replicate page_len 7.
Definition unread : Z -> dres unit := fun _ => Ok tt.
Definition busy : Z -> dres unit := fun _ => Err ErrBusy.
Definition event_of (x : call) : event := mkEvent x always unread (Ok tt).
Lemma unread_ok : pinnable unread.
Proof. by left. Qed.
Lemma busy_ok : pinnable busy.
Proof. by right. Qed.
Lemma new_usable : usable new_handle.
Proof. destruct (new_shown None) as (_ & Hc & ? & ? & ?). split; [assumption..| |assumption]. unfold h_ctrl. by rewrite Hc. Qed.
Lemma sevens_page : is_page sevens.
Proof. split; [done|]. apply Forall_replicate. unfold is_byte. lia. Qed.

Lemma new_redo t : write_body [mkPage 5 sevens] (begin (h_store new_handle)) = Ok t -> redoPages t <= maxLogPages.
Proof.
  assert (match write_body [mkPage 5 sevens] (begin (h_store new_handle)) with Ok t => redoPages t <=? maxLogPages | Err _ => false end = true) as H
    by (vm_cast_no_check (eq_refl true)).
  intros E. rewrite E in H. by apply Z.leb_le.
Qed.

Definition zeroed : dres unit * handle := Discard None always unread (Ok tt) 0 (2 * PageSize) new_handle.
Lemma zeroed_spec : zeroed.1 = Ok tt /\ usable zeroed.2.
Proof.
  assert ((zeroed.1, h_closed zeroed.2, h_fatal zeroed.2, Retired (h_ctrl zeroed.2), h_metadataOnly zeroed.2) = (Ok tt, false, None, false, false)) as H
    by (vm_cast_no_check (eq_refl (@Ok diff_error unit tt, false, @None diff_error, false, false))).
  revert H. generalize zeroed. intros [r h]. cbn [fst snd]. by intros [= -> ? ? ? ?].
Qed.
Lemma discard_reads_zero_witness : ReadAt None (Ok tt) PageSize PageSize zeroed.2 = (zeroPage, Ok false, zeroed.2).
Proof.
  destruct zeroed_spec as [Hr Hu]. refine (proj2 (discard_reads_zero None always unread (Ok tt) 0 (2 * PageSize) new_handle (blank demo_size) zeroed.2
    I I unread_ok (proj1 (new_shown None)) new_usable _ _ Hu) 1 _).
  - unfold h_ctrl, zero_cost, h_size. rewrite (proj1 (proj2 (new_shown None))), (new_size : s_size _ = _). by apply Z.leb_le.
  - rewrite <- Hr. unfold zeroed. by destruct (Discard _ _ _ _ _ _ _).
  - rewrite new_size. split; [done|by apply Z.ltb_lt].
Defined.

(** The new DIFF with block 5 written and a checkpoint taken. *)
Definition written : dres unit * handle := perform None (event_of (CallWrite [mkPage 5 sevens])) new_handle.
Definition versioned : dres unit * handle := perform None (event_of (CallCheckpoint (str "base"))) written.2.
Definition room_for_version (s : Store) : bool := (Next (s_ctrl s) + 1 + Pages (s_size s) <=? maxSlot + 1) && (Epoch (s_ctrl s) + 1 <? 2 ^ 64).
Lemma versioned_spec : written.1 = Ok tt /\ version_room (h_store written.2) /\ usable written.2 /\ versioned.1 = Ok tt /\ Retired (h_ctrl versioned.2) = false.
Proof.
  assert (let (r, h) := written in (r, room_for_version (h_store h), h_closed h, h_fatal h, Retired (h_ctrl h), h_metadataOnly h,
      let (r, h) := perform None (event_of (CallCheckpoint (str "base"))) h in (r, Retired (h_ctrl h))) =
    (Ok tt, true, false, None, false, false, (Ok tt, false))) as H
    by (vm_cast_no_check (eq_refl (@Ok diff_error unit tt, true, false, @None diff_error, false, false, (@Ok diff_error unit tt, false)))).
  unfold versioned. revert H. generalize written. intros [r h]. cbn [snd]. destruct (perform _ _ h) as [r2 h2]. cbn [fst snd].
  intros [= -> Hv ? ? ? ? -> ?]. apply andb_true_iff in Hv as [?%Z.leb_le ?%Z.ltb_lt]. by repeat split.
Qed.
Lemma written_fits : fits (event_of (CallWrite [mkPage 5 sevens])) new_handle.
Proof.
  split; [apply unread_ok|]. cbn [event_of e_call]. split; [apply new_room|]. split; [|apply Nat.leb_le; reflexivity].
  apply Forall_singleton. split; [done|apply sevens_page].
Qed.
Lemma checkpoint_views_witness : exists A v, shown None written.2 A /\
  openView (s_file (h_store versioned.2)) (h_size versioned.2) unread (str "base") = Ok v /\
  View_ReadAt None v (s_file (h_store versioned.2)) PageSize 0 = (ReadAt None (Ok tt) PageSize 0 written.2).1.
Proof.
  destruct versioned_spec as (_ & Hv & Hu & Hr & Hret). destruct (perform_spec None I (event_of (CallWrite [mkPage 5 sevens])) new_handle
    (blank demo_size) (proj1 (new_shown None)) written_fits) as (A & Hh & _). fold written in Hh. exists A.
  destruct (checkpoint_views None always unread (Ok tt) (str "base") written.2 A versioned.2 unread I I unread_ok Hh Hu) as (v & Ho & Hrd).
  - by repeat constructor.
  - exact Hv.
  - rewrite <- Hr. unfold versioned. cbn [perform event_of e_call e_fallocate e_pin e_ctx]. by destruct (CheckpointOp _ _ _ _ _ _).
  - exact Hret.
  - done.
  - exists v. split; [exact Hh|]. split; [exact Ho|]. apply Hrd; [|done]. pose proof (shown_size _ _ _ Hh) as E. unfold h_size in *.
    destruct Hh as (l & fp & L & gs & bs & U & Hst & _). pose proof (rd_size _ (sd_ready _ _ _ _ _ _ _ _ _ Hst)) as [[[? _] _] _]. cbn in *. lia.
Defined.
(** The version is deleted and the collector runs while it is read. *)
Definition under_reader : list event := [mkEvent (CallDelete [str "base"]) always busy (Ok tt); mkEvent (CallGC 64) always busy (Ok tt)].
Lemma under_reader_fits c h : all_fit c under_reader h.
Proof. exact (conj (conj busy_ok I) (conj (conj busy_ok I) I)). Qed.
Lemma under_reader_held slot : Forall (held slot) under_reader.
Proof. by repeat constructor. Qed.
Lemma base_valid : ValidID (str "base") = Ok tt.
Proof. reflexivity. Qed.
Lemma view_stable_witness : exists A w v, shown None versioned.2 A /\ w ∈ a_versions A /\ v_id w = str "base" /\
  openView (s_file (h_store versioned.2)) (h_size versioned.2) unread (v_id w) = Ok v /\
  forall len off, 0 <= off <= h_size versioned.2 -> 0 <= len ->
    View_ReadAt None v (s_file (h_store (run None under_reader versioned.2).2)) len off =
      (disk_bytes (v_cells w) off (Z.to_nat (Z.min len (h_size versioned.2 - off))), Ok (Z.min len (h_size versioned.2 - off) <? len)).
Proof.
  destruct versioned_spec as (_ & Hv & Hu & Hr & Hret). destruct (perform_spec None I (event_of (CallWrite [mkPage 5 sevens])) new_handle
    (blank demo_size) (proj1 (new_shown None)) written_fits) as (A & Hh & _). fold written in Hh.
  destruct (perform_spec None I (event_of (CallCheckpoint (str "base"))) written.2 A Hh) as (A2 & Hh2 & Hs).
  { split; [apply unread_ok|]. split; [by repeat constructor|exact Hv]. }
  fold versioned in Hh2, Hs. rewrite Hr in Hs. destruct Hs as (A1 & x & r & u & _ & ->).
  set (w := mkVersion (str "base") true x r u (a_cells A1)). assert (w ∈ a_versions A1 ++ [w]) as Hin by (apply elem_of_app; right; by left).
  destruct (view_stable None versioned.2 _ w unread under_reader I I Hh2 Hret Hin eq_refl base_valid eq_refl (under_reader_fits _ _) (under_reader_held _))
    as (v & Ho & Hrd).
  exact (ex_intro _ _ (ex_intro _ w (ex_intro _ v (conj Hh2 (conj Hin (conj eq_refl (conj Ho Hrd))))))).
Defined.

(** ** Runs *)

(** C15 — Every run stays in the type of the store: whatever sequence of calls runs on a
    handle whose store is well formed, and whatever the host answered, the store is
    well formed after it: its pages are pages, its control block is the one on disk,
    the log is idle, the free list, the tree and the list of versions are what the
    control block says, and the bitmap in memory is the one on disk. *)
Theorem run_typed c es h A : cipher_ok c -> shown c h A -> all_fit c es h ->
  let s := h_store (run c es h).2 in
  ready (begin s) /\ born (begin s) /\ bitmap_ok (s_size s) (s_presence s) /\ file_pres (readFull (s_file s)) (s_size s) (s_presence s) /\
  (exists l fp, mapping (begin s) maxDepth (Root (s_ctrl s)) l fp /\ payload_slots (begin s) (slot <$> l)) /\
  exists L gs bs U, ledger (begin s) L gs bs U.
Proof.
  intros Hc Hh Hf. destruct (run_spec c Hc es h A Hh Hf) as (A' & (l & fp & L & gs & bs & U & Hst & _) & _). cbn zeta.
  split_and!; [apply Hst..| |exists L, gs, bs, U; apply Hst]. exists l, fp. split; apply Hst.
Qed.

(** ** Stopping in the middle *)

(** C18 — Creating a DIFF: when the host grants its space, creation succeeds for every
    capacity a writable store may have, and the new DIFF, opened again or not, is an
    empty disk without versions that is ready for use. *)
Theorem create_opens fallocate h size c : spacious fallocate -> writable_size size -> is_page h ->
  exists hd hd', create fallocate h size = Ok hd /\ shown c hd (blank size) /\ usable hd /\
    openStore (s_file (h_store hd)) size false = Ok hd' /\ shown c hd' (blank size) /\ usable hd'.
Proof.
  intros Hs Hw Hp. destruct (create_spec fallocate h size c Hs Hw Hp) as (hd & Hcr & Hsh & Hct & Hf & Hcl & Hm).
  assert (Retired (s_ctrl (h_store hd)) = false) as Hr by (by rewrite Hct).
  destruct (openStore_spec c hd _ false Hsh (or_introl Hr)) as [Ho Hsh']. rewrite (shown_size _ _ _ Hsh) in Ho.
  exists hd, (mkHandle (h_store hd) gcScan0 0 false None false false). split_and!; try done; by split.
Qed.

(** Block 5 is written, a version taken, and the version deleted. *)
Definition first_calls : list event :=
  [event_of (CallWrite [mkPage 5 sevens]); event_of (CallCheckpoint (str "base")); event_of (CallDelete [str "base"])].
Lemma first_calls_fit : all_fit None first_calls new_handle.
Proof.
  destruct versioned_spec as (_ & Hv & _). split; [apply written_fits|].
  split; [|exact (conj (conj unread_ok I) I)]. split; [apply unread_ok|]. split; [by repeat constructor|exact Hv].
Qed.
Lemma run_typed_witness : let s := h_store (run None first_calls new_handle).2 in bitmap_ok (s_size s) (s_presence s).
Proof. exact (proj1 (proj2 (proj2 (run_typed None first_calls new_handle (blank demo_size) I (proj1 (new_shown None)) first_calls_fit)))). Defined.

Lemma new_retired : Retired (s_ctrl (h_store new_handle)) = false.
Proof. by rewrite (proj1 (proj2 (new_shown None))). Qed.
Lemma sevens_valid : Forall (valid_page (s_size (h_store new_handle))) [mkPage 5 sevens].
Proof. rewrite (new_size : s_size _ = _). apply Forall_singleton. split; [split; [done|by apply Z.ltb_lt]|apply sevens_page]. Qed.
Lemma new_zero_room : Next (s_ctrl (h_store new_handle)) + zero_cost (h_store new_handle) * Z.of_nat (length [(0, 2)]) <= maxSlot + 1.
Proof. unfold zero_cost. rewrite (proj1 (proj2 (new_shown None))), (new_size : s_size _ = _). by apply Z.leb_le. Qed.
Lemma zero_run_valid : Forall (valid_run (s_size (h_store new_handle))) [(0, 2)].
Proof. rewrite (new_size : s_size _ = _). apply Forall_singleton. split; [done|]. by apply Z.leb_le. Qed.
Lemma create_opens_witness : exists hd hd', create always zeroPage demo_size = Ok hd /\ shown None hd (blank demo_size) /\ usable hd /\
  openStore (s_file (h_store hd)) demo_size false = Ok hd' /\ shown None hd' (blank demo_size) /\ usable hd'.
Proof. exact (create_opens always zeroPage demo_size None (fun _ _ _ => eq_refl) demo_writable zeroPage_ok). Defined.
