(* ===== verification/WriteBack.v ===== *)
(** * WriteBack: the plaintext page cache of a sandbox's disks.

    Models pkg/diffstore/cow_cache.go: one bounded cache of 4 KiB pages shared by the
    disks of a sandbox, with its quota of dirty pages, the admission of writes and
    zeros, loads, synchronous discards, and the worker that writes frozen batches back
    to the disks' files.  Every critical section of the cache's mutex is a function of
    the cache; what happens between two critical sections of one call is the subject
    of WriteBackSteps.v.

    A page of the code's map is found by its key; the two intrusive lists are lists of
    keys.  The pool of page metadata and the counters of the statistics are left out;
    the pool of buffers is kept, because a page taken from it must read as zeros.
    Waiting and waking are left out: a caller that waits repeats its critical section. *)
From stdpp Require Import base numbers list gmap strings.
From Stdlib Require Import ZArith Lia.
From S2P Require Import Prelude Page Presence Format.

(** ** Data *)

Inductive cacheState := cacheLoading | cacheConstructing | cacheClean | cacheDirty | cacheWriteback | cacheDiscarding.
#[export] Instance cacheState_eq_dec : EqDecision cacheState.
Proof. solve_decision. Defined.
(** A disk and one of its blocks. *)
Notation cacheKey := (Z * Z)%type.
(** [pg_data] is [None] for an explicit zero. *)
Record cachePage := mkCachePage { pg_data : option (list Z); pg_state : cacheState; pg_charged : bool; pg_fresh : bool; pg_zero : bool }.
Record PageCache := mkPageCache {
  ca_capacity : Z; ca_maxDirty : Z; ca_dirtyUsed : Z;
  ca_pages : gmap cacheKey cachePage;
  ca_freeData : list (list Z);
  ca_clients : gmap Z Z;
  ca_clean : list cacheKey; ca_dirty : list cacheKey;
  ca_closed : bool; ca_urgent : bool; ca_active : option Z; ca_err : option diff_error }.

Definition maxWritebackPages : nat := 256.
Definition maxWritebackMutations : nat := 1024.
Definition maxDiscardPages : Z := 64.
Definition maxColdPages : nat := 256.

Definition set_pages (f : gmap cacheKey cachePage -> gmap cacheKey cachePage) (c : PageCache) : PageCache :=
  mkPageCache (ca_capacity c) (ca_maxDirty c) (ca_dirtyUsed c) (f (ca_pages c)) (ca_freeData c) (ca_clients c) (ca_clean c) (ca_dirty c)
    (ca_closed c) (ca_urgent c) (ca_active c) (ca_err c).
Definition set_freeData (l : list (list Z)) (c : PageCache) : PageCache :=
  mkPageCache (ca_capacity c) (ca_maxDirty c) (ca_dirtyUsed c) (ca_pages c) l (ca_clients c) (ca_clean c) (ca_dirty c)
    (ca_closed c) (ca_urgent c) (ca_active c) (ca_err c).
Definition set_queues (cl di : list cacheKey) (c : PageCache) : PageCache :=
  mkPageCache (ca_capacity c) (ca_maxDirty c) (ca_dirtyUsed c) (ca_pages c) (ca_freeData c) (ca_clients c) cl di
    (ca_closed c) (ca_urgent c) (ca_active c) (ca_err c).
(** [dirtyUsed += n; clients[d] += n]. *)
Definition charge (d n : Z) (c : PageCache) : PageCache :=
  mkPageCache (ca_capacity c) (ca_maxDirty c) (ca_dirtyUsed c + n) (ca_pages c) (ca_freeData c)
    (<[d := default 0 (ca_clients c !! d) + n]> (ca_clients c)) (ca_clean c) (ca_dirty c)
    (ca_closed c) (ca_urgent c) (ca_active c) (ca_err c).
Definition set_urgent (b : bool) (c : PageCache) : PageCache :=
  mkPageCache (ca_capacity c) (ca_maxDirty c) (ca_dirtyUsed c) (ca_pages c) (ca_freeData c) (ca_clients c) (ca_clean c) (ca_dirty c)
    (ca_closed c) b (ca_active c) (ca_err c).
Definition set_active (a : option Z) (c : PageCache) : PageCache :=
  mkPageCache (ca_capacity c) (ca_maxDirty c) (ca_dirtyUsed c) (ca_pages c) (ca_freeData c) (ca_clients c) (ca_clean c) (ca_dirty c)
    (ca_closed c) (ca_urgent c) a (ca_err c).
Definition set_err (e : option diff_error) (c : PageCache) : PageCache :=
  mkPageCache (ca_capacity c) (ca_maxDirty c) (ca_dirtyUsed c) (ca_pages c) (ca_freeData c) (ca_clients c) (ca_clean c) (ca_dirty c)
    (ca_closed c) (ca_urgent c) (ca_active c) e.
Definition set_clients (m : gmap Z Z) (c : PageCache) : PageCache :=
  mkPageCache (ca_capacity c) (ca_maxDirty c) (ca_dirtyUsed c) (ca_pages c) (ca_freeData c) m (ca_clean c) (ca_dirty c)
    (ca_closed c) (ca_urgent c) (ca_active c) (ca_err c).

(** [pageList.push] and [pageList.remove]. *)
Definition list_push (k : cacheKey) (l : list cacheKey) : list cacheKey := l ++ [k].
Definition list_remove (k : cacheKey) (l : list cacheKey) : list cacheKey := filter (fun x => x <> k) l.
Definition push_clean (k : cacheKey) (c : PageCache) : PageCache := set_queues (list_push k (ca_clean c)) (ca_dirty c) c.
Definition push_dirty (k : cacheKey) (c : PageCache) : PageCache := set_queues (ca_clean c) (list_push k (ca_dirty c)) c.
Definition remove_clean (k : cacheKey) (c : PageCache) : PageCache := set_queues (list_remove k (ca_clean c)) (ca_dirty c) c.
Definition remove_dirty (k : cacheKey) (c : PageCache) : PageCache := set_queues (ca_clean c) (list_remove k (ca_dirty c)) c.
Definition set_page (k : cacheKey) (p : cachePage) (c : PageCache) : PageCache := set_pages (<[k := p]>) c.
Definition with_state (s : cacheState) (p : cachePage) : cachePage := mkCachePage (pg_data p) s (pg_charged p) (pg_fresh p) (pg_zero p).

Definition newCache (size dirty : Z) : dres PageCache :=
  if (size =? 0) || (dirty =? 0) || (size <? dirty) || negb (size mod PageSize =? 0) || negb (dirty mod PageSize =? 0) || (2 ^ 63 - 1 <? size)
  then Err (DiffErr "diffstore: COW cache sizes must be positive 4 KiB multiples with max_dirty_size <= cache_size")
  else Ok (mkPageCache (size / PageSize) (dirty / PageSize) 0 ∅ [] ∅ [] [] false false None None).
Definition attach (d : Z) (c : PageCache) : dres PageCache :=
  match ca_err c with
  | Some e => Err e
  | None => if ca_closed c then Err ErrClosed else Ok (set_clients (<[d := 0]> (ca_clients c)) c)
  end.
(** [checkLocked]. *)
Definition checkLocked (ctx : dres unit) (c : PageCache) : dres unit :=
  match ca_err c with Some e => Err e | None => if ca_closed c then Err ErrClosed else ctx end.
(** [kickLocked(urgent)]; the wake-up itself is left out. *)
Definition kickLocked (urgent : bool) (c : PageCache) : PageCache := set_urgent (ca_urgent c || urgent) c.

(** ** Pages *)

Definition acquireDataLocked (p : cachePage) (c : PageCache) : cachePage * PageCache :=
  match pg_data p with
  | Some _ => (p, c)
  | None =>
      let with_data b := mkCachePage (Some b) (pg_state p) (pg_charged p) (pg_fresh p) (pg_zero p) in
      match last (ca_freeData c) with
      | Some b => (with_data b, set_freeData (take (length (ca_freeData c) - 1) (ca_freeData c)) c)
      | None => (with_data zeroPage, c)
      end
  end.
Definition releaseDataLocked (p : cachePage) (c : PageCache) : cachePage * PageCache :=
  match pg_data p with
  | Some b => (mkCachePage None (pg_state p) (pg_charged p) (pg_fresh p) (pg_zero p), set_freeData (ca_freeData c ++ [replicate (length b) 0]) c)
  | None => (p, c)
  end.
Definition releaseLocked (k : cacheKey) (c : PageCache) : PageCache :=
  match ca_pages c !! k with
  | None => c
  | Some p =>
      let c := match pg_state p with cacheClean => remove_clean k c | cacheDirty => remove_dirty k c | _ => c end in
      let c := set_pages (delete k) c in
      let c := if pg_charged p then charge k.1 (-1) c else c in
      (releaseDataLocked p c).2
  end.
(** [reserveLocked]: [None] when every page is in use. *)
Definition reserveLocked (k : cacheKey) (dirty : bool) (c : PageCache) : option PageCache :=
  let room :=
    if Z.of_nat (size (ca_pages c)) =? ca_capacity c then
      match ca_clean c with [] => None | k0 :: _ => Some (releaseLocked k0 c) end
    else Some c in
  match room with
  | None => None
  | Some c =>
      let p := mkCachePage None (if dirty then cacheConstructing else cacheLoading) dirty false false in
      let c := if dirty then charge k.1 1 c else c in
      Some (set_page k p c)
  end.
(** A buffer for the page at [k]. *)
Definition acquire_at (k : cacheKey) (c : PageCache) : PageCache :=
  match ca_pages c !! k with
  | None => c
  | Some p => let (p, c) := acquireDataLocked p c in set_page k p c
  end.
(** The contents of a page that can be read. *)
Definition page_bytes (p : cachePage) : list Z := if pg_zero p then zeroPage else default [] (pg_data p).

(** ** Reading *)

Inductive read_result :=
| ReadErr (e : diff_error)
| ReadWait
| ReadHit (b : list Z) (c : PageCache)
| ReadMiss.
(** The critical section of [read] for one page. *)
Definition read_page (ctx : dres unit) (k : cacheKey) (c : PageCache) : read_result :=
  match checkLocked ctx c with
  | Err e => ReadErr e
  | Ok _ =>
      match ca_pages c !! k with
      | None => ReadMiss
      | Some p =>
          match pg_state p with
          | cacheLoading | cacheConstructing | cacheDiscarding => ReadWait
          | cacheClean => ReadHit (page_bytes p) (push_clean k (remove_clean k c))
          | _ => ReadHit (page_bytes p) c
          end
      end
  end.
(** The reservations of a run of at most [n] missing pages: which of them got a page. *)
Fixpoint reserve_run (n : nat) (d block : Z) (c : PageCache) : list bool * PageCache :=
  match n with
  | O => ([], c)
  | S n =>
      match ca_pages c !! (d, block) with
      | Some _ => ([], c)
      | None =>
          match reserveLocked (d, block) false c with
          | None => let (r, c) := reserve_run n d (block + 1) c in (false :: r, c)
          | Some c => let (r, c) := reserve_run n d (block + 1) (acquire_at (d, block) c) in (true :: r, c)
          end
      end
  end.
(** The keys of the pages a run reserved. *)
Fixpoint reserved_keys (d block : Z) (r : list bool) : list cacheKey :=
  match r with [] => [] | b :: r => (if b then [(d, block)] else []) ++ reserved_keys d (block + 1) r end.
(** A loaded page is filled and becomes clean. *)
Definition publish_page (fill : Z -> list Z) (c : PageCache) (k : cacheKey) : PageCache :=
  match ca_pages c !! k with
  | None => c
  | Some p => push_clean k (set_page k (mkCachePage (Some (fill k.2)) cacheClean (pg_charged p) (pg_fresh p) (pg_zero p)) c)
  end.
(** The end of a load: the pages become clean, or are given back. *)
Definition publish_run (ctx : dres unit) (io : dres (Z -> list Z)) (keys : list cacheKey) (c : PageCache) : dres unit * PageCache :=
  match io, checkLocked ctx c with
  | Ok fill, Ok _ => (Ok tt, fold_left (publish_page fill) keys c)
  | Err e, _ | _, Err e => (Err e, fold_left (fun c k => releaseLocked k c) keys c)
  end.

(** ** Writing *)

Inductive admission :=
| AdmitErr (e : diff_error)
| AdmitRetry (c : PageCache)      (* try again after a change *)
| AdmitDone (c : PageCache)       (* accepted *)
| AdmitInit (c : PageCache)       (* a page was reserved and has to be filled *)
| AdmitDirect.                    (* use the synchronous discard *)
(** [copy(p.data[offset%cowBlockSize:], buf)]. *)
Definition overwrite (off : Z) (buf : list Z) (p : cachePage) : cachePage :=
  mkCachePage ((fun b => Page.put (Z.to_nat (off mod PageSize)) buf b) <$> pg_data p) (pg_state p) (pg_charged p) (pg_fresh p) false.
(** The first critical section of [write]; [upper] says whether the block was present. *)
Definition write_admit (ctx : dres unit) (k : cacheKey) (off : Z) (buf : list Z) (upper : bool) (c : PageCache) : admission :=
  match checkLocked ctx c with
  | Err e => AdmitErr e
  | Ok _ =>
      match ca_pages c !! k with
      | Some p =>
          match pg_state p with
          | cacheDirty =>
              let (p, c) := if pg_zero p then acquireDataLocked p c else (p, c) in
              AdmitDone (set_page k (overwrite off buf p) c)
          | cacheClean =>
              if ca_dirtyUsed c =? ca_maxDirty c then AdmitRetry (kickLocked true c)
              else
                let p := mkCachePage (pg_data p) cacheDirty true (pg_fresh p) (pg_zero p) in
                AdmitDone (push_dirty k (set_page k (overwrite off buf p) (charge k.1 1 (remove_clean k c))))
          | _ => AdmitRetry (kickLocked true c)
          end
      | None =>
          if ca_dirtyUsed c =? ca_maxDirty c then AdmitRetry (kickLocked true c)
          else match reserveLocked k true c with
               | None => AdmitRetry (kickLocked true c)
               | Some c =>
                   let c := acquire_at k c in
                   AdmitInit (match ca_pages c !! k with
                              | None => c
                              | Some p => set_page k (mkCachePage (pg_data p) (pg_state p) (pg_charged p) (negb upper) (pg_zero p)) c
                              end)
               end
      end
  end.
(** [init] of [writeBlockLocked]: a page that is not overwritten as a whole is filled
    from the disk's file or from the layer below. *)
Definition init_page (off : Z) (buf : list Z) (upper : bool) (stored lower : dres (list Z)) (b : list Z) : dres (list Z) :=
  if (off mod PageSize =? 0) && (Z.of_nat (length buf) =? PageSize) then Ok b else if upper then stored else lower.
(** The second critical section of [write]. *)
Definition write_publish (ctx : dres unit) (k : cacheKey) (off : Z) (buf : list Z) (init : dres (list Z)) (c : PageCache) : dres unit * PageCache :=
  match init, checkLocked ctx c with
  | Ok b, Ok _ =>
      match ca_pages c !! k with
      | None => (Ok tt, c)
      | Some p =>
          (Ok tt, kickLocked false (push_dirty k (set_page k (overwrite off buf (mkCachePage (Some b) cacheDirty (pg_charged p) (pg_fresh p) (pg_zero p))) c)))
      end
  | Err e, _ | _, Err e => (Err e, releaseLocked k c)
  end.

(** ** Zeros *)

Definition is_pending_zero (d : Z) (x : cacheKey * cachePage) : bool := (x.1.1 =? d) && pg_charged x.2 && pg_zero x.2.
(** The page becomes an explicit zero. *)
Definition zero_page (already : bool) (k : cacheKey) (p : cachePage) (c : PageCache) : PageCache :=
  let (p, c) := releaseDataLocked p c in
  let c := set_page k (mkCachePage (pg_data p) cacheDirty (pg_charged p) false true) c in
  kickLocked false (if already then c else push_dirty k c).
(** A quota is used up: wait for a zero of the same disk, or go around the cache. *)
Definition zero_blocked (d : Z) (c : PageCache) : admission :=
  if existsb (is_pending_zero d) (map_to_list (ca_pages c)) then AdmitRetry (kickLocked true c) else AdmitDirect.
Definition stageZero (ctx : dres unit) (k : cacheKey) (c : PageCache) : admission :=
  match checkLocked ctx c with
  | Err e => AdmitErr e
  | Ok _ =>
      match ca_pages c !! k with
      | Some p =>
          match pg_state p with
          | cacheDirty => AdmitDone (zero_page true k p c)
          | cacheClean =>
              if ca_dirtyUsed c =? ca_maxDirty c then zero_blocked k.1 c
              else
                let p := mkCachePage (pg_data p) (pg_state p) true (pg_fresh p) (pg_zero p) in
                AdmitDone (zero_page false k p (charge k.1 1 (remove_clean k c)))
          | _ => AdmitRetry (kickLocked true c)
          end
      | None =>
          if (ca_dirtyUsed c =? ca_maxDirty c) || ((Z.of_nat (size (ca_pages c)) =? ca_capacity c) && bool_decide (ca_clean c = []))
          then zero_blocked k.1 c
          else match reserveLocked k true c with
               | None => AdmitRetry (kickLocked true c)
               | Some c => match ca_pages c !! k with None => AdmitRetry c | Some p => AdmitDone (zero_page false k p c) end
               end
      end
  end.

(** ** Discarding around the cache *)

Inductive freeze_result :=
| FreezeErr (e : diff_error)
| FreezeWait
| Frozen (keys : list cacheKey) (c : PageCache).
(** The cached pages of the blocks, or [None] when one of them is in use. *)
Fixpoint discard_pages (n : nat) (d block : Z) (c : PageCache) : option (list cacheKey) :=
  match n with
  | O => Some []
  | S n =>
      match ca_pages c !! (d, block) with
      | None => discard_pages n d (block + 1) c
      | Some p =>
          match pg_state p with
          | cacheClean | cacheDirty => cons (d, block) <$> discard_pages n d (block + 1) c
          | _ => None
          end
      end
  end.
Definition freeze_discard (c : PageCache) (k : cacheKey) : PageCache :=
  match ca_pages c !! k with
  | None => c
  | Some p => set_page k (with_state cacheDiscarding p) (match pg_state p with cacheClean => remove_clean k c | _ => remove_dirty k c end)
  end.
(** The first critical section of [discard]. *)
Definition discard_freeze (ctx : dres unit) (d first last : Z) (c : PageCache) : freeze_result :=
  match checkLocked ctx c with
  | Err e => FreezeErr e
  | Ok _ =>
      match discard_pages (Z.to_nat (last - first + 1)) d first c with
      | None => FreezeWait
      | Some keys => Frozen keys (fold_left freeze_discard keys c)
      end
  end.
(** [failLocked]: the first failure is kept. *)
Definition failLocked (e : diff_error) (c : PageCache) : PageCache :=
  match ca_err c with Some _ => c | None => kickLocked true (set_err (Some e) c) end.
(** The second critical section of [discard]. *)
Definition discard_finish (io : dres unit) (keys : list cacheKey) (c : PageCache) : PageCache :=
  let c := match io with Ok _ => c | Err e => failLocked e c end in
  fold_left (fun c k => releaseLocked k c) keys c.

(** ** The writeback worker *)

(** What the file of a disk is asked to write. *)
Record pageWrite := mkPageWrite { pw_block : Z; pw_data : list Z; pw_fresh : bool; pw_zero : bool }.

(** [oldestEligibleLocked], with what follows the page in the queue; [writable] are the
    disks whose file is initialized. *)
Fixpoint oldestEligible (writable : Z -> bool) (l : list cacheKey) : option (cacheKey * list cacheKey) :=
  match l with [] => None | k :: l => if writable k.1 then Some (k, l) else oldestEligible writable l end.
Definition is_dirty (zero : bool) (c : PageCache) (k : cacheKey) : bool :=
  match ca_pages c !! k with
  | Some p => bool_decide (pg_state p = cacheDirty) && Bool.eqb (pg_zero p) zero
  | None => false
  end.
(** The candidates: pages of the same disk and kind, oldest first. *)
Definition batch_candidates (limit : nat) (d : Z) (zero : bool) (l : list cacheKey) (c : PageCache) : list cacheKey :=
  take limit (filter (fun k => k.1 = d /\ pg_zero <$> ca_pages c !! k = Some zero) l).
(** The first block of the run of dirty pages that ends at [block]. *)
Fixpoint run_first (n : nat) (d block : Z) (zero : bool) (c : PageCache) : Z :=
  match n with
  | O => block
  | S n => if (0 <? block) && is_dirty zero c (d, block - 1) then run_first n d (block - 1) zero c else block
  end.
Definition freeze_page (k : cacheKey) (c : PageCache) : PageCache :=
  match ca_pages c !! k with None => c | Some p => set_page k (with_state cacheWriteback p) (remove_dirty k c) end.
(** Freezing the run of dirty pages from [block], at most [n] of them. *)
Fixpoint freeze_run (n : nat) (d block : Z) (zero : bool) (c : PageCache) : list cacheKey * PageCache :=
  match n with
  | O => ([], c)
  | S n =>
      if is_dirty zero c (d, block) then
        let (l, c) := freeze_run n d (block + 1) zero (freeze_page (d, block) c) in ((d, block) :: l, c)
      else ([], c)
  end.
Fixpoint freeze_candidates (limit : nat) (zero : bool) (cands : list cacheKey) (batch : list cacheKey) (c : PageCache) : list cacheKey * PageCache :=
  match cands with
  | [] => (batch, c)
  | k :: cands =>
      if (length batch =? limit)%nat then (batch, c)
      else if bool_decide (pg_state <$> ca_pages c !! k = Some cacheDirty) then
        let first := run_first (limit - length batch - 1) k.1 k.2 zero c in
        let (l, c) := freeze_run (limit - length batch) k.1 first zero c in
        freeze_candidates limit zero cands (batch ++ l) c
      else freeze_candidates limit zero cands batch c
  end.
(** The critical section of [run] that selects a batch: the disk, whether it is a batch
    of zeros, and the pages. *)
Definition select_batch (writable : Z -> bool) (c : PageCache) : option (Z * bool * list cacheKey * PageCache) :=
  if bool_decide (ca_err c <> None) || ca_closed c then None
  else
    let c := set_urgent false c in
    match oldestEligible writable (ca_dirty c) with
    | None => None
    | Some (k, rest) =>
        match ca_pages c !! k with
        | None => None
        | Some p =>
            let limit := if pg_zero p then maxWritebackMutations else maxWritebackPages in
            let cands := batch_candidates limit k.1 (pg_zero p) (k :: rest) c in
            match freeze_candidates limit (pg_zero p) cands [] c with
            | ([], _) => None
            | (batch, c) => Some (k.1, pg_zero p, batch, set_active (Some k.1) c)
            end
        end
    end.
Definition record_of (c : PageCache) (k : cacheKey) : pageWrite :=
  match ca_pages c !! k with
  | Some p => mkPageWrite k.2 (if pg_zero p then [] else default [] (pg_data p)) (pg_fresh p) (pg_zero p)
  | None => mkPageWrite k.2 [] false false
  end.
(** [completeWritebackLocked]. *)
Definition complete_page (c : PageCache) (k : cacheKey) : PageCache :=
  match ca_pages c !! k with
  | None => c
  | Some p =>
      if pg_zero p then releaseLocked k c
      else push_clean k (charge k.1 (-1) (set_page k (mkCachePage (pg_data p) cacheClean false false (pg_zero p)) c))
  end.
Definition completeWritebackLocked (batch : list cacheKey) (c : PageCache) : PageCache := fold_left complete_page batch c.
(** The end of a batch: completed unless the cache failed meanwhile. *)
Definition finish_batch (batch : list cacheKey) (c : PageCache) : PageCache :=
  let c := set_active None c in
  match ca_err c with None => completeWritebackLocked batch c | Some _ => c end.
(** The zeros of [d] that [repairSpacePressure] freezes. *)
Definition repair_cohort (d : Z) (c : PageCache) : list cacheKey :=
  filter (fun k => k.1 = d /\ pg_zero <$> ca_pages c !! k = Some true) (ca_dirty c).
Definition repair_freeze (d : Z) (c : PageCache) : list cacheKey * PageCache :=
  let cohort := repair_cohort d c in (cohort, fold_left (fun c k => freeze_page k c) cohort c).

(** ** Draining and closing *)

(** The condition [drain] waits for. *)
Definition drained (d : option Z) (c : PageCache) : dres bool :=
  match ca_err c with
  | Some e => Err e
  | None => Ok ((match d with None => ca_dirtyUsed c | Some d => default 0 (ca_clients c !! d) end) =? 0)
  end.
Definition detach (d : Z) (c : PageCache) : PageCache :=
  let keys := fst <$> filter (fun x => x.1.1 = d) (map_to_list (ca_pages c)) in
  let c := fold_left (fun c k => releaseLocked k c) keys c in
  set_clients (delete d (ca_clients c)) c.
Definition cache_Close (c : PageCache) : dres PageCache :=
  if bool_decide (ca_clients c = ∅) then
    Ok (mkPageCache (ca_capacity c) (ca_maxDirty c) (ca_dirtyUsed c) (ca_pages c) [] (ca_clients c) (ca_clean c) (ca_dirty c)
      true true (ca_active c) (ca_err c))
  else Err (DiffErr "diffstore: close COWs before their shared cache").
