(* ===== verification/WriteBackInv.v ===== *)
(** * WriteBackInv: what every critical section of the page cache keeps.

    [cache_inv own c]: each page is in exactly one place — a list of the cache for
    clean and dirty pages, the call or worker that owns it ([own]) for the others —
    the quotas are respected and the counters are exact, and recycled buffers are
    zeros.  An operation is described by how it changes the pages one by one
    ([moved]); everything the invariant counts follows from that. *)
From stdpp Require Import base numbers list gmap strings.
From Stdlib Require Import ZArith Lia.
From S2P Require Import Prelude Page Presence Format WriteBack.

(** ** Counting *)

Definition count (f : cacheKey -> cachePage -> bool) (m : gmap cacheKey cachePage) : Z :=
  Z.of_nat (size (filter (fun x => f x.1 x.2 = true) m)).
Definition charged (k : cacheKey) (p : cachePage) : bool := pg_charged p.
Definition charged_of (d : Z) (k : cacheKey) (p : cachePage) : bool := (k.1 =? d) && pg_charged p.
Definition weight (f : cacheKey -> cachePage -> bool) (k : cacheKey) (po : option cachePage) : Z :=
  match po with Some p => if f k p then 1 else 0 | None => 0 end.
(** The page at [k] becomes [po]. *)
Definition place (k : cacheKey) (po : option cachePage) (m : gmap cacheKey cachePage) : gmap cacheKey cachePage :=
  match po with Some p => <[k := p]> m | None => delete k m end.

Lemma place_lookup k po m k' : place k po m !! k' = if decide (k = k') then po else m !! k'.
Proof.
  destruct po; simpl; case_decide as E; subst;
    by rewrite ?lookup_insert_eq, ?lookup_insert_ne, ?lookup_delete_eq, ?lookup_delete_ne by done.
Qed.
Lemma count_delete f k m : count f (delete k m) = count f m - weight f k (m !! k).
Proof.
  unfold count. rewrite map_filter_delete. destruct (m !! k) as [p|] eqn:E; simpl.
  - destruct (f k p) eqn:F.
    + rewrite map_size_delete_Some; [|by exists p; apply map_lookup_filter_Some].
      assert (0 < size (filter (fun x => f x.1 x.2 = true) m))%nat; [|lia].
      destruct (size _) eqn:Z0; [|lia]. apply map_size_empty_inv in Z0.
      assert (filter (fun x => f x.1 x.2 = true) m !! k = Some p) as W by by apply map_lookup_filter_Some.
      rewrite Z0 in W. by rewrite lookup_empty in W.
    + rewrite map_size_delete_None; [lia|]. apply map_lookup_filter_None_2. right. intros x Hx W; simpl in *. congruence.
  - rewrite map_size_delete_None; [lia|]. apply map_lookup_filter_None_2. by left.
Qed.
Lemma count_insert f k p m : m !! k = None -> count f (<[k := p]> m) = count f m + weight f k (Some p).
Proof.
  intros E. unfold count; simpl. destruct (f k p) eqn:F.
  - rewrite map_filter_insert_True by done. rewrite map_size_insert_None; [lia|]. apply map_lookup_filter_None_2. by left.
  - rewrite map_filter_insert_not' ; [lia|by simpl; rewrite F|]. intros y Hy. congruence.
Qed.
Lemma count_place f k po m : count f (place k po m) = count f m - weight f k (m !! k) + weight f k po.
Proof.
  destruct po as [p|]; simpl; [|rewrite count_delete; lia].
  rewrite <-insert_delete_eq, count_insert by by rewrite lookup_delete_eq. by rewrite count_delete.
Qed.
Lemma size_place k po m : Z.of_nat (size (place k po m)) =
  Z.of_nat (size m) - (if m !! k then 1 else 0) + (if po then 1 else 0).
Proof.
  assert (forall m, Z.of_nat (size m) = count (fun _ _ => true) m) as E.
  { intros m0. unfold count. rewrite map_filter_id; [done|]. done. }
  rewrite !E, count_place. unfold weight. by destruct (m !! k), po.
Qed.
Lemma count_zero f m : count f m = 0 <-> forall k p, m !! k = Some p -> f k p = false.
Proof.
  unfold count. split.
  - intros E k p Hk. destruct (f k p) eqn:F; [|done].
    assert (filter (fun x => f x.1 x.2 = true) m !! k = Some p) as W by by apply map_lookup_filter_Some.
    rewrite (map_size_empty_inv (filter (fun x => f x.1 x.2 = true) m)) in W by lia. by rewrite lookup_empty in W.
  - intros A. assert (filter (fun x => f x.1 x.2 = true) m = ∅) as ->; [|by rewrite map_size_empty].
    apply map_empty. intros k. apply map_lookup_filter_None_2. right. intros p Hk W. simpl in W. by rewrite (A k p Hk) in W.
Qed.
Lemma count_pos f m : 0 <= count f m.
Proof. unfold count; lia. Qed.
Lemma count_le_size f m : count f m <= Z.of_nat (size m).
Proof.
  unfold count. pose proof (map_size_filter (fun x => f x.1 x.2 = true) m). lia.
Qed.

(** ** The invariant *)

Definition page_ok (p : cachePage) : Prop :=
  (forall b, pg_data p = Some b -> is_page b) /\
  match pg_state p with
  | cacheLoading | cacheClean => pg_charged p = false /\ pg_zero p = false /\ pg_data p <> None
  | cacheConstructing => pg_charged p = true /\ pg_zero p = false /\ pg_data p <> None
  | cacheDirty | cacheWriteback => pg_charged p = true /\ (pg_zero p = true <-> pg_data p = None)
  | cacheDiscarding => pg_zero p = true <-> pg_data p = None
  end.
(** Where the pages of a state are kept. *)
Definition owners (own : cacheState -> list cacheKey) (c : PageCache) (s : cacheState) : list cacheKey :=
  match s with cacheClean => ca_clean c | cacheDirty => ca_dirty c | _ => own s end.
Record cache_inv (own : cacheState -> list cacheKey) (c : PageCache) : Prop := {
  ci_once : forall s, NoDup (owners own c s);
  ci_where : forall s k, k ∈ owners own c s <-> pg_state <$> ca_pages c !! k = Some s;
  ci_page : forall k p, ca_pages c !! k = Some p -> page_ok p;
  ci_used : ca_dirtyUsed c = count charged (ca_pages c);
  ci_clients : forall d, default 0 (ca_clients c !! d) = count (charged_of d) (ca_pages c);
  ci_capacity : Z.of_nat (size (ca_pages c)) <= ca_capacity c;
  ci_dirty : ca_dirtyUsed c <= ca_maxDirty c;
  ci_free : Forall (eq zeroPage) (ca_freeData c) }.
(** What no operation on pages touches. *)
Definition same_control (c c' : PageCache) : Prop :=
  ca_capacity c' = ca_capacity c /\ ca_maxDirty c' = ca_maxDirty c /\
  ca_closed c' = ca_closed c /\ ca_active c' = ca_active c /\ ca_err c' = ca_err c.

(** [k] changes hands. *)
Definition give (k : cacheKey) (so : option cacheState) (own : cacheState -> list cacheKey) (s : cacheState) : list cacheKey :=
  if bool_decide (so = Some s) then list_remove k (own s) ++ [k] else list_remove k (own s).
Record moved (own own' : cacheState -> list cacheKey) (c c' : PageCache) (k : cacheKey) (po : option cachePage) : Prop := {
  mv_pages : ca_pages c' = place k po (ca_pages c);
  mv_once : forall s, NoDup (owners own' c' s);
  mv_where : forall s x, x ∈ owners own' c' s <-> (x <> k /\ x ∈ owners own c s) \/ (x = k /\ pg_state <$> po = Some s);
  mv_used : ca_dirtyUsed c' = ca_dirtyUsed c - weight charged k (ca_pages c !! k) + weight charged k po;
  mv_clients : forall d, default 0 (ca_clients c' !! d) =
    default 0 (ca_clients c !! d) - weight (charged_of d) k (ca_pages c !! k) + weight (charged_of d) k po;
  mv_free : Forall (eq zeroPage) (ca_freeData c');
  mv_control : same_control c c' }.
Lemma moved_inv own own' c c' k po : cache_inv own c -> moved own own' c c' k po ->
  (forall p, po = Some p -> page_ok p) ->
  (ca_pages c !! k = None -> po <> None -> Z.of_nat (size (ca_pages c)) < ca_capacity c) ->
  (weight charged k (ca_pages c !! k) < weight charged k po -> ca_dirtyUsed c < ca_maxDirty c) ->
  cache_inv own' c'.
Proof.
  intros [A1 A2 A3 A4 A5 A6 A7 A8] [B1 B2 B3 B4 B5 B6 (B7 & B8 & _)] Hp Hroom Hquota. split; try done.
  - intros s x. rewrite B3, B1, place_lookup. case_decide as E; [subst|by rewrite A2; naive_solver]. naive_solver.
  - intros x p. rewrite B1, place_lookup. case_decide; [by intros; apply Hp|apply A3].
  - by rewrite B4, B1, count_place, A4.
  - intros d. by rewrite B5, B1, count_place, A5.
  - rewrite B7, B1, size_place. destruct (ca_pages c !! k) eqn:E, po; try lia. specialize (Hroom eq_refl); naive_solver lia.
  - rewrite B8, B4. assert (weight charged k po <= 1) by (unfold weight; destruct po as [p|]; [destruct (charged k p)|]; lia).
    assert (0 <= weight charged k (ca_pages c !! k)) by (unfold weight; destruct (_ !! k) as [p|]; [destruct (charged k p)|]; lia).
    destruct (decide (weight charged k (ca_pages c !! k) < weight charged k po)); lia.
Qed.

(** ** One page at a time *)

Lemma list_remove_elem x k l : x ∈ list_remove k l <-> x <> k /\ x ∈ l.
Proof. unfold list_remove. by rewrite list_elem_of_filter. Qed.
Lemma list_remove_NoDup k l : NoDup l -> NoDup (list_remove k l).
Proof. apply NoDup_filter. Qed.
(** What happens to the clean or dirty list: [k] is taken out and, if it belongs there,
    put at the end; or the list is untouched and [k] stays in or out; or [k] is new. *)
Definition requeued (k : cacheKey) (before after : option cacheState) (s : cacheState) (q q' : list cacheKey) : Prop :=
  q' = give k after (fun _ => q) s \/ (q' = q /\ (after = Some s <-> before = Some s)) \/
  (q' = q ++ [k] /\ before <> Some s /\ after = Some s).
Lemma requeued_where k before after s q q' : NoDup q -> (k ∈ q <-> before = Some s) -> requeued k before after s q q' ->
  NoDup q' /\ forall x, x ∈ q' <-> (x <> k /\ x ∈ q) \/ (x = k /\ after = Some s).
Proof.
  intros Hn Hk [->|[[-> E]|(-> & E & E')]].
  - unfold give. pose proof (list_remove_NoDup k q Hn). case_bool_decide; split; [|intros x|done|intros x].
    + apply NoDup_app. split; [done|split; [|apply NoDup_singleton]]. intros x Hx%list_remove_elem. set_solver.
    + rewrite elem_of_app, list_remove_elem, list_elem_of_singleton. naive_solver.
    + rewrite list_remove_elem. naive_solver.
  - split; [done|]. intros x. destruct (decide (x = k)) as [->|]; naive_solver.
  - split; [|intros x; rewrite elem_of_app, list_elem_of_singleton; destruct (decide (x = k)); naive_solver].
    apply NoDup_app. split; [done|split; [|apply NoDup_singleton]]. set_solver.
Qed.
Lemma moved_intro own c c' k po : cache_inv own c ->
  ca_pages c' = place k po (ca_pages c) ->
  requeued k (pg_state <$> ca_pages c !! k) (pg_state <$> po) cacheClean (ca_clean c) (ca_clean c') ->
  requeued k (pg_state <$> ca_pages c !! k) (pg_state <$> po) cacheDirty (ca_dirty c) (ca_dirty c') ->
  ca_dirtyUsed c' = ca_dirtyUsed c - weight charged k (ca_pages c !! k) + weight charged k po ->
  (forall d, default 0 (ca_clients c' !! d) =
    default 0 (ca_clients c !! d) - weight (charged_of d) k (ca_pages c !! k) + weight (charged_of d) k po) ->
  Forall (eq zeroPage) (ca_freeData c') -> same_control c c' ->
  moved own (give k (pg_state <$> po) own) c c' k po.
Proof.
  intros I Hp Hc Hd Hu Hcl Hf Hs.
  assert (forall s, NoDup (owners (give k (pg_state <$> po) own) c' s) /\
    forall x, x ∈ owners (give k (pg_state <$> po) own) c' s <-> (x <> k /\ x ∈ owners own c s) \/ (x = k /\ pg_state <$> po = Some s)) as Q.
  { intros s. pose proof (ci_once _ _ I s) as O. pose proof (ci_where _ _ I s k) as W.
    apply (requeued_where k _ _ s) with (1 := O) (2 := W). destruct s; simpl; try done; by left. }
  split; try done; intros s; by destruct (Q s).
Qed.

Lemma default_insert (d d' v : Z) (m : gmap Z Z) :
  default 0 (<[d := v]> m !! d') = if d =? d' then v else default 0 (m !! d').
Proof. destruct (Z.eqb_spec d d') as [->|]; by rewrite ?lookup_insert_eq, ?lookup_insert_ne by done. Qed.
Lemma zero_buffer l b : Forall (eq zeroPage) l -> is_page b -> Forall (eq zeroPage) (l ++ [replicate (length b) 0]).
Proof. intros Hl [Hb _]. apply Forall_app. split; [done|]. constructor; [|done]. by rewrite Hb. Qed.


(** ** Who owns the pages *)

Definition external (s : cacheState) : bool := match s with cacheClean | cacheDirty => false | _ => true end.
(** The pages [l] in state [s], besides [own]. *)
Definition lend (s : cacheState) (l : list cacheKey) (own : cacheState -> list cacheKey) : cacheState -> list cacheKey :=
  if external s then fun s' => if bool_decide (s = s') then own s' ++ l else own s' else own.
Definition lend_page (so : option cacheState) (k : cacheKey) (own : cacheState -> list cacheKey) : cacheState -> list cacheKey :=
  match so with Some s => lend s [k] own | None => own end.
Lemma cache_inv_perm own own' c : (forall s, external s = true -> own' s ≡ₚ own s) -> cache_inv own c -> cache_inv own' c.
Proof.
  intros H I. assert (forall s, owners own' c s ≡ₚ owners own c s) as E by (intros []; simpl; try done; by apply H).
  destruct I as [A1 A2 A3 A4 A5 A6 A7 A8]; split; try done.
  - intros s. rewrite E. apply A1.
  - intros s k. rewrite E. apply A2.
Qed.
Lemma lend_eq s l own : external s = true -> lend s l own s = own s ++ l.
Proof. intros E. unfold lend. by rewrite E, bool_decide_true. Qed.
Lemma lend_ne s s' l own : s <> s' -> lend s l own s' = own s'.
Proof. intros E. unfold lend. destruct (external s); [|done]. by rewrite bool_decide_false. Qed.
Lemma lend_cons s k l own : forall s', lend s (k :: l) own s' = lend s l (lend s [k] own) s'.
Proof. intros s'. unfold lend. destruct (external s); [|done]. case_bool_decide; [|done]. by rewrite <-app_assoc. Qed.
Lemma lend_nil s own : forall s', lend s [] own s' = own s'.
Proof. intros s'. unfold lend. destruct (external s); [|done]. case_bool_decide; [|done]. by rewrite app_nil_r. Qed.
Lemma lend_app s l l' own : forall s', lend s (l ++ l') own s' = lend s l' (lend s l own) s'.
Proof. intros s'. unfold lend. destruct (external s); [|done]. case_bool_decide; [|done]. by rewrite <-app_assoc. Qed.
Lemma lend_perm s l own own' s' : own s' ≡ₚ own' s' -> lend s l own s' ≡ₚ lend s l own' s'.
Proof. intros E. unfold lend. destruct (external s); [|done]. case_bool_decide; [|done]. by rewrite E. Qed.
Lemma lend_swap s l s1 l1 own : forall s', lend s l (lend s1 l1 own) s' ≡ₚ lend s1 l1 (lend s l own) s'.
Proof.
  intros s'. unfold lend. destruct (external s), (external s1); try done. repeat case_bool_decide; try done.
  rewrite <-!app_assoc. f_equiv. apply Permutation_app_comm.
Qed.
Lemma lend_inv own own' c : (forall s, own' s = own s) -> cache_inv own c -> cache_inv own' c.
Proof. intros E. apply cache_inv_perm. intros s _. by rewrite E. Qed.

Lemma give_lend own c k so : cache_inv (lend_page (pg_state <$> ca_pages c !! k) k own) c ->
  forall s, external s = true -> give k so (lend_page (pg_state <$> ca_pages c !! k) k own) s ≡ₚ lend_page so k own s.
Proof.
  set (so0 := pg_state <$> ca_pages c !! k). intros I s Hs. unfold give.
  assert (k ∉ own s /\ list_remove k (lend_page so0 k own s) = list_remove k (own s)) as [Hk ->].
  { pose proof (ci_where _ _ I s k) as W. pose proof (ci_once _ _ I s) as O. fold so0 in W.
    assert (owners (lend_page so0 k own) c s = lend_page so0 k own s) as E by by destruct s.
    rewrite E in W, O. unfold lend_page, lend in W, O |- *. destruct so0 as [s0|]; [|naive_solver].
    destruct (external s0) eqn:E0; [|split; [|done]; intros X%W; congruence].
    case_bool_decide as D; [|split; [|done]; intros X%W; congruence].
    apply NoDup_app in O as (_ & O & _). split; [set_solver|].
    unfold list_remove. rewrite filter_app. rewrite (filter_cons_False _ k) by naive_solver. by rewrite filter_nil, app_nil_r. }
  assert (list_remove k (own s) = own s) as E.
  { unfold list_remove. induction (own s) as [|x l IH]; [done|]. rewrite filter_cons_True by set_solver. f_equal. apply IH. set_solver. }
  unfold lend_page, lend. rewrite E. destruct so as [s1|]; [|by rewrite bool_decide_false].
  destruct (external s1) eqn:E1.
  - repeat case_bool_decide; try done; congruence.
  - rewrite bool_decide_false; [done|]. intros X; simplify_eq. congruence.
Qed.

(** ** How one page changes *)
Record change (c c' : PageCache) (k : cacheKey) (po : option cachePage) : Prop := {
  ch_pages : ca_pages c' = place k po (ca_pages c);
  ch_clean : requeued k (pg_state <$> ca_pages c !! k) (pg_state <$> po) cacheClean (ca_clean c) (ca_clean c');
  ch_dirty : requeued k (pg_state <$> ca_pages c !! k) (pg_state <$> po) cacheDirty (ca_dirty c) (ca_dirty c');
  ch_used : ca_dirtyUsed c' = ca_dirtyUsed c - weight charged k (ca_pages c !! k) + weight charged k po;
  ch_clients : forall d, default 0 (ca_clients c' !! d) =
    default 0 (ca_clients c !! d) - weight (charged_of d) k (ca_pages c !! k) + weight (charged_of d) k po;
  ch_free : Forall (eq zeroPage) (ca_freeData c');
  ch_control : same_control c c' }.
Lemma change_inv own c c' k po : cache_inv (lend_page (pg_state <$> ca_pages c !! k) k own) c -> change c c' k po ->
  (forall p, po = Some p -> page_ok p) ->
  (ca_pages c !! k = None -> po <> None -> Z.of_nat (size (ca_pages c)) < ca_capacity c) ->
  (weight charged k (ca_pages c !! k) < weight charged k po -> ca_dirtyUsed c < ca_maxDirty c) ->
  cache_inv (lend_page (pg_state <$> po) k own) c'.
Proof.
  intros I [H1 H2 H3 H4 H5 H6 H7] Hp Hroom Hquota.
  eapply cache_inv_perm; [intros s Hs; symmetry; by apply (give_lend own c k (pg_state <$> po) I s)|].
  apply (moved_inv _ _ c c' k po I); [|done..]. by apply moved_intro.
Qed.
Lemma change_at own from to c c' k po : cache_inv from c -> change c c' k po ->
  from = lend_page (pg_state <$> ca_pages c !! k) k own -> to = lend_page (pg_state <$> po) k own ->
  (forall p, po = Some p -> page_ok p) ->
  (ca_pages c !! k = None -> po <> None -> Z.of_nat (size (ca_pages c)) < ca_capacity c) ->
  (weight charged k (ca_pages c !! k) < weight charged k po -> ca_dirtyUsed c < ca_maxDirty c) ->
  cache_inv to c'.
Proof. intros I C -> ->. exact (change_inv own c c' k po I C). Qed.

(** The conditions of [change] when the operation is unfolded and the page known. *)
Ltac queue_side :=
  first [by left | left; reflexivity | right; left; split; [reflexivity|simpl; split; congruence] | right; right; split; [reflexivity|simpl; split; congruence]].
Ltac charge_side :=
  intros; unfold weight, charged, charged_of in *; simpl in *; rewrite ?default_insert; simpl;
  repeat match goal with H : pg_charged ?p = _ |- context [pg_charged ?p] => rewrite H
    | H : pg_charged ?p = _, H' : context [pg_charged ?p] |- _ => rewrite H in H' end;
  repeat match goal with |- context [?a =? ?b] => destruct (Z.eqb_spec a b) end; subst; simpl; lia.

(** ** Releasing *)

Lemma release_change own c k p : cache_inv own c -> ca_pages c !! k = Some p -> change c (releaseLocked k c) k None.
Proof.
  intros I Hk. pose proof (ci_page _ _ I k p Hk) as [Hb _]. pose proof (ci_free _ _ I) as Hf.
  split; rewrite ?Hk; unfold releaseLocked; rewrite Hk; simpl in *; unfold releaseDataLocked.
  all: destruct p as [[b|] [] [] fresh zero]; simpl in *; try done.
  all: try (by apply zero_buffer; auto).
  all: try queue_side. all: charge_side.
Qed.
Lemma release_inv own c k s : cache_inv (lend s [k] own) c -> pg_state <$> ca_pages c !! k = Some s -> cache_inv own (releaseLocked k c).
Proof.
  intros I Hs. destruct (ca_pages c !! k) as [p|] eqn:Hk; [|done].
  apply (change_inv own c (releaseLocked k c) k None); rewrite ?Hk; try done.
  - simpl in *; congruence.
  - by apply (release_change _ c k p I).
  - unfold weight. destruct (charged k p); lia.
Qed.
Lemma same_control_refl c : same_control c c.
Proof. done. Qed.
Lemma same_control_trans c1 c2 c3 : same_control c1 c2 -> same_control c2 c3 -> same_control c1 c3.
Proof. unfold same_control. intros; destruct_and?; repeat split; congruence. Qed.
#[export] Hint Resolve same_control_refl : core.
Lemma release_pages k c : ca_pages (releaseLocked k c) = delete k (ca_pages c).
Proof.
  unfold releaseLocked, releaseDataLocked. destruct (ca_pages c !! k) as [[[b|] [] [] fresh zero]|] eqn:E; simpl; try done.
  by rewrite delete_id.
Qed.
Lemma release_control k c : same_control c (releaseLocked k c).
Proof. unfold releaseLocked, releaseDataLocked. by destruct (ca_pages c !! k) as [[[b|] [] [] fresh zero]|] eqn:E. Qed.
Definition release_all (keys : list cacheKey) (c : PageCache) : PageCache := fold_left (fun c k => releaseLocked k c) keys c.
Lemma release_all_pages keys : forall c k, ca_pages (release_all keys c) !! k = if bool_decide (k ∈ keys) then None else ca_pages c !! k.
Proof.
  induction keys as [|k0 keys IH]; intros c k; simpl; [done|]. unfold release_all in *; simpl. rewrite IH, release_pages.
  destruct (decide (k = k0)) as [->|]; [rewrite lookup_delete_eq|rewrite lookup_delete_ne by done];
    repeat case_bool_decide; try done; set_solver.
Qed.
Lemma release_all_control keys : forall c, same_control c (release_all keys c).
Proof.
  induction keys as [|k keys IH]; intros c; [done|]. exact (same_control_trans _ _ _ (release_control k c) (IH _)).
Qed.
(** A key the invariant says is owned is in the map. *)
Lemma lend_state s k l own c : external s = true -> cache_inv (lend s l own) c -> k ∈ l -> pg_state <$> ca_pages c !! k = Some s.
Proof.
  intros Hs I Hk. apply (ci_where _ _ I s k). assert (owners (lend s l own) c s = lend s l own s) as -> by by destruct s.
  unfold lend. rewrite Hs, bool_decide_true by done. set_solver.
Qed.
Lemma lend_cons_inv s k l own c : cache_inv (lend s (k :: l) own) c -> cache_inv (lend s [k] (lend s l own)) c.
Proof. apply cache_inv_perm. intros s' _. rewrite (lend_cons s k l). apply lend_swap. Qed.
Lemma release_all_inv s keys : external s = true -> forall own c, cache_inv (lend s keys own) c -> cache_inv own (release_all keys c).
Proof.
  intros Hs. induction keys as [|k keys IH]; intros own c I; simpl.
  - exact (lend_inv _ _ _ (fun s' => eq_sym (lend_nil s own s')) I).
  - apply IH, (release_inv _ c k s); [by apply lend_cons_inv|]. apply (lend_state s k _ _ _ Hs I). set_solver.
Qed.

(** ** Reserving *)

(** At most one clean page gives way. *)
Definition evicted (c c' : PageCache) : Prop :=
  same_control c c' /\ ca_dirtyUsed c' = ca_dirtyUsed c /\
  forall k, ca_pages c' !! k = ca_pages c !! k \/ (ca_pages c' !! k = None /\ pg_state <$> ca_pages c !! k = Some cacheClean).
Definition reserved_page (k : cacheKey) (dirty : bool) (c : PageCache) : PageCache :=
  set_page k (mkCachePage None (if dirty then cacheConstructing else cacheLoading) dirty false false) (if dirty then charge k.1 1 c else c).
Lemma reserve_room own c k dirty c' : cache_inv own c -> reserveLocked k dirty c = Some c' ->
  exists c1, evicted c c1 /\ cache_inv own c1 /\ Z.of_nat (size (ca_pages c1)) < ca_capacity c1 /\ c' = reserved_page k dirty c1.
Proof.
  intros I H. unfold reserveLocked in H. destruct (Z.eqb_spec (Z.of_nat (size (ca_pages c))) (ca_capacity c)) as [E|E].
  - destruct (ca_clean c) as [|k0 q] eqn:Eq; [done|]. injection H as <-.
    assert (pg_state <$> ca_pages c !! k0 = Some cacheClean) as Hs by (apply (ci_where _ _ I cacheClean); simpl; rewrite Eq; set_solver).
    exists (releaseLocked k0 c). destruct (ca_pages c !! k0) as [p|] eqn:Ep; [|done].
    pose proof (release_change own c k0 p I Ep) as [Q1 _ _ Q4 _ _ Q7].
    split; [|split; [|split; [|done]]].
    + split; [done|]. split.
      * rewrite Q4, Ep. unfold weight, charged. destruct (ci_page _ _ I k0 p Ep) as [_ Z0]. simpl in Hs.
        injection Hs as Hs. rewrite Hs in Z0. destruct Z0 as [-> _]. lia.
      * intros k1. rewrite Q1, place_lookup. case_decide; [subst; right; by rewrite Ep|by left].
    + apply (release_inv own c k0 cacheClean); [done|]. by rewrite Ep.
    + destruct Q7 as (-> & _). rewrite Q1, size_place, Ep. lia.
  - injection H as <-. exists c. split; [|split; [done|split; [pose proof (ci_capacity _ _ I); lia|done]]].
    split; [done|]. split; [done|]. by left.
Qed.
Lemma acquire_zero p c : Forall (eq zeroPage) (ca_freeData c) -> pg_data p = None ->
  exists l, Forall (eq zeroPage) l /\
    acquireDataLocked p c = (mkCachePage (Some zeroPage) (pg_state p) (pg_charged p) (pg_fresh p) (pg_zero p), set_freeData l c).
Proof.
  intros Hf Hd. unfold acquireDataLocked. rewrite Hd. destruct (last (ca_freeData c)) as [b|] eqn:E.
  - exists (take (length (ca_freeData c) - 1) (ca_freeData c)). split; [by apply Forall_take|].
    assert (b ∈ ca_freeData c) as Hb.
    { apply last_Some in E as [l ->]. set_solver. }
    rewrite Forall_forall in Hf. by rewrite (Hf b Hb).
  - exists (ca_freeData c). split; [done|]. by destruct c.
Qed.
Definition loading_page : cachePage := mkCachePage (Some zeroPage) cacheLoading false false false.
Definition constructing_page (fresh : bool) : cachePage := mkCachePage (Some zeroPage) cacheConstructing true fresh false.
Lemma loading_ok : page_ok loading_page.
Proof. split; [|done]. intros b E. injection E as <-. apply zeroPage_ok. Qed.
Lemma constructing_ok fresh : page_ok (constructing_page fresh).
Proof. split; [|done]. intros b E. injection E as <-. apply zeroPage_ok. Qed.
Lemma evicted_absent c c1 k : evicted c c1 -> ca_pages c !! k = None -> ca_pages c1 !! k = None.
Proof. intros (_ & _ & E) H. destruct (E k) as [->|[-> _]]; done. Qed.

Lemma reserve_load own c k c' : cache_inv own c -> ca_pages c !! k = None -> reserveLocked k false c = Some c' ->
  exists c1, evicted c c1 /\ cache_inv (lend cacheLoading [k] own) (acquire_at k c') /\
    change c1 (acquire_at k c') k (Some loading_page).
Proof.
  intros I Hk H. destruct (reserve_room own c k false c' I H) as (c1 & Ev & I1 & Hroom & ->).
  exists c1. pose proof (evicted_absent c c1 k Ev Hk) as Hk1. split; [done|].
  assert (change c1 (acquire_at k (reserved_page k false c1)) k (Some loading_page)) as C.
  { unfold acquire_at. simpl. rewrite lookup_insert_eq.
    destruct (acquire_zero (mkCachePage None cacheLoading false false false) (reserved_page k false c1)) as (l & Hl & ->);
      [apply (ci_free _ _ I1)|done|]. simpl.
    split; rewrite ?Hk1; simpl; try done; try queue_side; try charge_side. apply insert_insert_eq. }
  split; [|done]. apply (change_inv own c1 _ k _ ) with (2 := C); rewrite ?Hk1; try done.
  intros p E; injection E as <-. apply loading_ok.
Qed.

(** ** Several pages at a time *)

(** A page was given up to make room. *)
Definition same_or_evicted (c c' : PageCache) (k : cacheKey) : Prop :=
  ca_pages c' !! k = ca_pages c !! k \/ (ca_pages c' !! k = None /\ pg_state <$> ca_pages c !! k = Some cacheClean).
Lemma reserved_keys_elem d r : forall b k, k ∈ reserved_keys d b r -> k.1 = d /\ b <= k.2 < b + Z.of_nat (length r).
Proof.
  induction r as [|x r IH]; intros b k; simpl; [set_solver|]. rewrite elem_of_app. intros [H|H].
  - destruct x; [|set_solver]. apply list_elem_of_singleton in H as ->. simpl; lia.
  - destruct (IH _ _ H). lia.
Qed.
Lemma reserve_run_spec n d : forall own block c r c', cache_inv own c -> reserve_run n d block c = (r, c') ->
  cache_inv (lend cacheLoading (reserved_keys d block r) own) c' /\ same_control c c' /\ (length r <= n)%nat /\
  (forall k, k ∉ reserved_keys d block r -> same_or_evicted c c' k) /\
  (forall k, k ∈ reserved_keys d block r -> ca_pages c' !! k = Some loading_page) /\
  (forall b, block <= b < block + Z.of_nat (length r) ->
    (ca_pages c !! (d, b) = None \/ pg_state <$> ca_pages c !! (d, b) = Some cacheClean) /\
    (ca_pages c' !! (d, b) = None \/ ca_pages c' !! (d, b) = Some loading_page)).
Proof.
  induction n as [|n IH]; intros own block c r c' I H; simpl in H.
  { injection H as <- <-. simpl. split; [exact (lend_inv _ _ _ (lend_nil _ _) I)|]. split; [done|]. split; [done|].
    split; [by left|]. split; [set_solver|lia]. }
  destruct (ca_pages c !! (d, block)) as [p|] eqn:Hk.
  { injection H as <- <-. simpl. split; [exact (lend_inv _ _ _ (lend_nil _ _) I)|]. split; [done|]. split; [lia|].
    split; [by left|]. split; [set_solver|lia]. }
  destruct (reserveLocked (d, block) false c) as [c1|] eqn:Hr.
  - destruct (reserve_load own c _ c1 I Hk Hr) as (c0 & Ev & I1 & [C _ _ _ _ _ Cc]).
    destruct (reserve_run n d (block + 1) (acquire_at (d, block) c1)) as [r2 c2] eqn:H2. injection H as <- <-.
    destruct (IH _ _ _ _ _ I1 H2) as (J1 & J2 & J3 & J4 & J5 & J6).
    assert ((d, block) ∉ reserved_keys d (block + 1) r2) as Hn by (intros X%reserved_keys_elem; simpl in X; lia).
    assert (forall k, k <> (d, block) -> same_or_evicted c (acquire_at (d, block) c1) k) as E1.
    { intros k Hne. unfold same_or_evicted. rewrite C, place_lookup, decide_False by congruence. by apply Ev. }
    assert (forall k, k <> (d, block) -> k ∉ reserved_keys d (block + 1) r2 -> same_or_evicted c c2 k) as E2.
    { intros k Hne Hni. destruct (E1 k Hne) as [A|[A B]], (J4 k Hni) as [A'|[A' B']].
      - left. by rewrite A'. - right. by rewrite <-A. - right. by rewrite A'. - by rewrite A in B'. }
    simpl. split; [exact (lend_inv _ _ _ (lend_cons _ _ _ _) J1)|].
    split; [exact (same_control_trans _ _ _ (proj1 Ev) (same_control_trans _ _ _ Cc J2))|]. split; [lia|].
    assert (ca_pages c2 !! (d, block) = Some loading_page) as L.
    { assert (ca_pages (acquire_at (d, block) c1) !! (d, block) = Some loading_page) as X by by rewrite C, place_lookup, decide_True.
      destruct (J4 _ Hn) as [A|[_ A]]; [by rewrite A|]. by rewrite X in A. }
    split; [intros k Hk'; apply E2; set_solver|]. split.
    + intros k [->|Hk']%elem_of_cons; [done|by apply J5].
    + intros b Hb. destruct (decide (b = block)) as [->|Hne]; [split; [by left|by right]|].
      destruct (J6 b) as [A B]; [lia|]. split; [|done].
      destruct (E1 (d, b)) as [<-|[_ X]]; [congruence|done|by right].
  - destruct (reserve_run n d (block + 1) c) as [r2 c2] eqn:H2. injection H as <- <-.
    destruct (IH _ _ _ _ _ I H2) as (J1 & J2 & J3 & J4 & J5 & J6). simpl. split; [done|]. split; [done|]. split; [lia|].
    split; [done|]. split; [done|]. intros b Hb. destruct (decide (b = block)) as [->|Hne]; [|apply J6; lia].
    split; [by left|]. destruct (decide ((d, block) ∈ reserved_keys d (block + 1) r2)) as [X|X]; [right; by apply J5|].
    left. destruct (J4 _ X) as [->|[-> _]]; done.
Qed.

(** An operation on pages that some call owns, which gives each of them back. *)
Lemma fold_settle (f : PageCache -> cacheKey -> PageCache) (s : cacheState) (P : cacheKey -> cachePage -> option cachePage)
    (ok : cacheKey -> cachePage -> Prop) : external s = true ->
  (forall own c k p, cache_inv (lend s [k] own) c -> ca_pages c !! k = Some p -> pg_state p = s -> ok k p ->
    cache_inv own (f c k) /\ ca_pages (f c k) = place k (P k p) (ca_pages c) /\ same_control c (f c k)) ->
  forall keys own c, cache_inv (lend s keys own) c -> (forall k p, k ∈ keys -> ca_pages c !! k = Some p -> ok k p) ->
    cache_inv own (fold_left f keys c) /\ same_control c (fold_left f keys c) /\
    forall k, ca_pages (fold_left f keys c) !! k = if bool_decide (k ∈ keys) then ca_pages c !! k ≫= P k else ca_pages c !! k.
Proof.
  intros Hs Hf. induction keys as [|k keys IH]; intros own c I Hok; simpl.
  { split; [exact (lend_inv _ _ _ (fun s' => eq_sym (lend_nil s own s')) I)|done]. }
  pose proof (lend_state s k _ _ _ Hs I ltac:(set_solver)) as Hk. destruct (ca_pages c !! k) as [p|] eqn:Ep; [|done].
  injection Hk as Hk. assert (k ∉ keys) as Hn.
  { pose proof (ci_once _ _ I s) as O. assert (owners (lend s (k :: keys) own) c s = own s ++ k :: keys) as E.
    { unfold lend; rewrite Hs. destruct s; simpl; try done. }
    rewrite E in O. apply NoDup_app in O as (_ & _ & O). by apply NoDup_cons in O as [O _]. }
  destruct (Hf (lend s keys own) c k p) as (A & B & C); [by apply lend_cons_inv|done|done|apply Hok; [set_solver|done]|].
  destruct (IH own (f c k) A) as (D & E & F).
  { intros x q Hx. rewrite B, place_lookup. case_decide; [subst; done|]. apply Hok. set_solver. }
  split; [done|]. split; [exact (same_control_trans _ _ _ C E)|]. intros x. rewrite F, B, place_lookup.
  destruct (decide (k = x)) as [<-|]; [|repeat case_bool_decide; try done; set_solver].
  rewrite bool_decide_false, bool_decide_true by set_solver. by rewrite Ep.
Qed.
(** An operation that takes pages out of the lists of the cache. *)
Lemma fold_take (f : PageCache -> cacheKey -> PageCache) (t : cacheState) (P : cachePage -> cachePage) (pre : cachePage -> Prop) :
  (forall own c k p, cache_inv own c -> ca_pages c !! k = Some p -> pre p ->
    cache_inv (lend t [k] own) (f c k) /\ ca_pages (f c k) = place k (Some (P p)) (ca_pages c) /\ same_control c (f c k)) ->
  forall keys own c, cache_inv own c -> NoDup keys -> (forall k, k ∈ keys -> exists p, ca_pages c !! k = Some p /\ pre p) ->
    cache_inv (lend t keys own) (fold_left f keys c) /\ same_control c (fold_left f keys c) /\
    forall k, ca_pages (fold_left f keys c) !! k = if bool_decide (k ∈ keys) then P <$> ca_pages c !! k else ca_pages c !! k.
Proof.
  intros Hf. induction keys as [|k keys IH]; intros own c I Hn Hpre; simpl.
  { split; [exact (lend_inv _ _ _ (lend_nil t own) I)|done]. }
  apply NoDup_cons in Hn as [Hk Hn]. destruct (Hpre k ltac:(set_solver)) as (p & Ep & Hp).
  destruct (Hf own c k p I Ep Hp) as (A & B & C). destruct (IH (lend t [k] own) (f c k) A Hn) as (D & E & F).
  { intros x Hx. rewrite B, place_lookup, decide_False by set_solver. apply Hpre. set_solver. }
  split; [exact (lend_inv _ _ _ (lend_cons t k keys own) D)|]. split; [exact (same_control_trans _ _ _ C E)|].
  intros x. rewrite F, B, place_lookup. destruct (decide (k = x)) as [<-|]; [|repeat case_bool_decide; try done; set_solver].
  rewrite bool_decide_false, bool_decide_true by set_solver. by rewrite Ep.
Qed.

(** ** Reading *)

(** A hit only refreshes the page's place in the clean list. *)
Lemma read_hit own ctx k c b c' : cache_inv own c -> read_page ctx k c = ReadHit b c' ->
  checkLocked ctx c = Ok tt /\ cache_inv own c' /\ same_control c c' /\ ca_pages c' = ca_pages c /\
  exists p, ca_pages c !! k = Some p /\ b = page_bytes p /\
    (pg_state p = cacheClean \/ pg_state p = cacheDirty \/ pg_state p = cacheWriteback).
Proof.
  intros I H. unfold read_page in H. destruct (checkLocked ctx c) as [[]|e]; [|done]. split; [done|].
  destruct (ca_pages c !! k) as [p|] eqn:Hk; [|done].
  destruct (pg_state p) eqn:Hs; try done; injection H as <- <-; [|by eauto 10..].
  set (c' := push_clean k (remove_clean k c)).
  assert (cache_inv own c') as I'; [|split; [done|]; split; [done|]; by eauto 10].
  apply (change_at own own own c c' k (Some p) I); rewrite ?Hk; simpl; rewrite ?Hs; try done.
  - split; rewrite ?Hk; simpl; rewrite ?Hs; try done; try charge_side; [by rewrite insert_id|queue_side|queue_side|by apply (ci_free _ _ I)].
  - intros q E; injection E as <-. exact (ci_page _ _ I k p Hk).
  - lia.
Qed.
Lemma publish_page_spec fill own c k p : cache_inv (lend cacheLoading [k] own) c -> ca_pages c !! k = Some p -> pg_state p = cacheLoading ->
  is_page (fill k.2) ->
  cache_inv own (publish_page fill c k) /\
  ca_pages (publish_page fill c k) = place k (Some (mkCachePage (Some (fill k.2)) cacheClean false (pg_fresh p) false)) (ca_pages c) /\
  same_control c (publish_page fill c k).
Proof.
  intros I Hk Hs Hf. destruct (ci_page _ _ I k p Hk) as [_ Hp]. rewrite Hs in Hp. destruct Hp as (Hc & Hz & _).
  assert (change c (publish_page fill c k) k (Some (mkCachePage (Some (fill k.2)) cacheClean false (pg_fresh p) false))) as C.
  { unfold publish_page. rewrite Hk, Hc, Hz. split; rewrite ?Hk; simpl; rewrite ?Hs; try done; try queue_side; [charge_side..|by apply (ci_free _ _ I)]. }
  split; [|split; [apply C|apply C]].
  apply (change_at own _ own c _ k _ I C); rewrite ?Hk; simpl; rewrite ?Hs; try done.
  - intros q E; injection E as <-. split; [|done]. intros b E; injection E as <-. done.
  - charge_side.
Qed.
Lemma publish_run_ok fill keys own c : cache_inv (lend cacheLoading keys own) c -> (forall k, k ∈ keys -> is_page (fill k.2)) ->
  cache_inv own (fold_left (publish_page fill) keys c) /\ same_control c (fold_left (publish_page fill) keys c) /\
  forall k, ca_pages (fold_left (publish_page fill) keys c) !! k =
    if bool_decide (k ∈ keys) then (fun p => mkCachePage (Some (fill k.2)) cacheClean false (pg_fresh p) false) <$> ca_pages c !! k else ca_pages c !! k.
Proof.
  intros I Hf. destruct (fold_settle (publish_page fill) cacheLoading
    (fun k p => Some (mkCachePage (Some (fill k.2)) cacheClean false (pg_fresh p) false)) (fun k _ => is_page (fill k.2)) eq_refl) with (2 := I)
    as (A & B & C); [intros; by apply publish_page_spec|by eauto|].
  split; [done|]. split; [done|]. intros k. rewrite C. case_bool_decide; [|done]. by destruct (ca_pages c !! k).
Qed.

(** ** Writing *)

Lemma overwrite_ok off buf p b : pg_data p = Some b -> is_page b -> bytes_ok buf -> pg_state p = cacheDirty -> pg_charged p = true ->
  page_ok (overwrite off buf p).
Proof.
  intros Hd Hpg Hbuf Hs Hc. destruct p as [bo s ch fr z]. simpl in *; subst. split; simpl; [|done].
  intros b' E; injection E as <-. apply Page.put_page; [done..|].
  assert (0 <= off mod PageSize < PageSize) by (apply Z.mod_pos_bound; unfold PageSize; lia). plia.
Qed.
Lemma kick_inv own b c : cache_inv own c -> cache_inv own (kickLocked b c).
Proof. by intros [? ? ? ? ? ? ? ?]. Qed.
(** A page of the cache is changed in place or made dirty. *)
Lemma dirtied own c k off buf p (c' := push_dirty k (set_page k (overwrite off buf (mkCachePage (pg_data p) cacheDirty true (pg_fresh p) (pg_zero p)))
    (charge k.1 1 (remove_clean k c)))) : cache_inv own c -> ca_pages c !! k = Some p -> pg_state p = cacheClean ->
  ca_dirtyUsed c <> ca_maxDirty c -> bytes_ok buf -> cache_inv own c'.
Proof.
  intros I Hk Hs Hq Hb. destruct (ci_page _ _ I k p Hk) as [Hd Hp]. rewrite Hs in Hp. destruct Hp as (Hc & Hz & Hn).
  apply (change_at own own own c c' k (Some (overwrite off buf (mkCachePage (pg_data p) cacheDirty true (pg_fresh p) (pg_zero p)))) I);
    rewrite ?Hk; simpl; rewrite ?Hs; try done.
  - split; rewrite ?Hk; simpl; rewrite ?Hs; try done; try queue_side; [charge_side..|apply (ci_free _ _ I)].
  - intros q E; injection E as <-. destruct (pg_data p) as [b|] eqn:Eb; [|done]. by apply (overwrite_ok _ _ _ b); auto.
  - intros _. pose proof (ci_dirty _ _ I). lia.
Qed.
(** A dirty page changes. *)
Lemma rewritten own c k l p q : cache_inv own c -> ca_pages c !! k = Some p -> pg_state p = cacheDirty ->
  Forall (eq zeroPage) l -> pg_state q = cacheDirty -> pg_charged q = true -> page_ok q -> cache_inv own (set_page k q (set_freeData l c)).
Proof.
  intros I Hk Hs Hl Es Ec Hq. destruct (ci_page _ _ I k p Hk) as [Hd Hp]. rewrite Hs in Hp. destruct Hp as (Hc & Hz).
  apply (change_at own own own c _ k (Some q) I); rewrite ?Hk; simpl; rewrite ?Hs, ?Es; try done.
  - split; rewrite ?Hk; simpl; rewrite ?Hs, ?Es; try done; try queue_side; charge_side.
  - by intros q' E; injection E as <-.
  - charge_side.
Qed.
Lemma write_admit_done own ctx k off buf upper c c' : cache_inv own c -> bytes_ok buf ->
  write_admit ctx k off buf upper c = AdmitDone c' ->
  checkLocked ctx c = Ok tt /\ cache_inv own c' /\ same_control c c' /\ exists p q, ca_pages c !! k = Some p /\
    (pg_state p = cacheClean \/ pg_state p = cacheDirty) /\ ca_pages c' = <[k := q]> (ca_pages c) /\ pg_state q = cacheDirty /\
    page_bytes q = Page.put (Z.to_nat (off mod PageSize)) buf (page_bytes p).
Proof.
  intros I Hb H. unfold write_admit in H. destruct (checkLocked ctx c) as [[]|e]; [|done]. split; [done|].
  destruct (ca_pages c !! k) as [p|] eqn:Hk; [|destruct (ca_dirtyUsed c =? ca_maxDirty c); [done|by destruct (reserveLocked k true c)]].
  destruct (ci_page _ _ I k p Hk) as [Hd Hp]. destruct (pg_state p) eqn:Hs; try done.
  - destruct (Z.eqb_spec (ca_dirtyUsed c) (ca_maxDirty c)) as [|Hq]; [done|]. injection H as <-.
    split; [by apply (dirtied own c k off buf p)|]. split; [done|]. destruct Hp as (Hc & Hz & Hn).
    exists p, (overwrite off buf (mkCachePage (pg_data p) cacheDirty true (pg_fresh p) (pg_zero p))).
    split; [done|]. split; [by left|]. split; [done|]. split; [done|]. unfold page_bytes; simpl. rewrite Hz.
    by destruct (pg_data p).
  - destruct Hp as [Hc Hz]. destruct (pg_zero p) eqn:Ez.
    + assert (pg_data p = None) as En by by apply Hz.
      destruct (acquire_zero p c (ci_free _ _ I) En) as (l & Hl & Ea). rewrite Ea in H. injection H as <-.
      set (q := overwrite off buf (mkCachePage (Some zeroPage) (pg_state p) (pg_charged p) (pg_fresh p) (pg_zero p))).
      assert (page_ok q) as Hq by (apply (overwrite_ok _ _ _ zeroPage); simpl; auto using zeroPage_ok).
      split; [by apply (rewritten own c k l p q I Hk Hs Hl)|]. split; [done|]. exists p, q.
      split; [done|]. split; [by right|]. split; [done|]. split; [done|]. unfold page_bytes; simpl. by rewrite Ez.
    + injection H as <-. assert (exists b, pg_data p = Some b) as [b Eb].
      { destruct (pg_data p) as [b|]; [by exists b|]. destruct Hz as [_ Hz]. by discriminate Hz. }
      set (q := overwrite off buf p). assert (page_ok q) as Hq by (apply (overwrite_ok _ _ _ b); auto).
      split; [|split; [done|]].
      { assert (set_page k q c = set_page k q (set_freeData (ca_freeData c) c)) as -> by by destruct c.
        apply (rewritten own c k _ p q I Hk Hs); [apply (ci_free _ _ I)|done..]. }
      exists p, q. split; [done|]. split; [by right|]. split; [done|]. split; [done|].
      unfold page_bytes; simpl. by rewrite Eb, Ez.
Qed.
Lemma write_admit_init own ctx k off buf upper c c' : cache_inv own c -> write_admit ctx k off buf upper c = AdmitInit c' ->
  checkLocked ctx c = Ok tt /\ ca_pages c !! k = None /\ cache_inv (lend cacheConstructing [k] own) c' /\ same_control c c' /\
  exists c1, evicted c c1 /\ ca_pages c' = <[k := constructing_page (negb upper)]> (ca_pages c1).
Proof.
  intros I H. unfold write_admit in H. destruct (checkLocked ctx c) as [[]|e]; [|done]. split; [done|].
  destruct (ca_pages c !! k) as [p|] eqn:Hk.
  { destruct (pg_state p); try done; [by destruct (ca_dirtyUsed c =? ca_maxDirty c)|].
    by destruct (if pg_zero p then _ else _). }
  split; [done|]. destruct (Z.eqb_spec (ca_dirtyUsed c) (ca_maxDirty c)) as [|Hq]; [done|].
  destruct (reserveLocked k true c) as [c0|] eqn:Hr; [|done]. injection H as <-.
  destruct (reserve_room own c k true c0 I Hr) as (c1 & Ev & I1 & Hroom & ->).
  pose proof (evicted_absent c c1 k Ev Hk) as Hk1. destruct Ev as (Ev1 & Ev2 & Ev3).
  unfold acquire_at. simpl. rewrite lookup_insert_eq.
  destruct (acquire_zero (mkCachePage None cacheConstructing true false false) (reserved_page k true c1)) as (l & Hl & ->);
    [apply (ci_free _ _ I1)|done|]. simpl. rewrite lookup_insert_eq. simpl.
  match goal with |- cache_inv _ ?x /\ _ => set (c' := x) end.
  assert (change c1 c' k (Some (constructing_page (negb upper)))) as C.
  { split; rewrite ?Hk1; simpl; try done; try queue_side; try charge_side. by rewrite !insert_insert_eq. }
  split; [|split; [exact (same_control_trans _ _ _ Ev1 (ch_control _ _ _ _ C))|exists c1; split; [done|apply C]]].
  apply (change_at own own _ c1 c' k _ I1 C); rewrite ?Hk1; try done.
  - intros p E; injection E as <-. apply constructing_ok.
  - intros _. pose proof (ci_dirty _ _ I). destruct Ev1 as (_ & -> & _). lia.
Qed.
Lemma write_admit_retry ctx k off buf upper c c' : write_admit ctx k off buf upper c = AdmitRetry c' -> c' = kickLocked true c.
Proof.
  unfold write_admit. destruct (checkLocked ctx c); [|done]. destruct (ca_pages c !! k) as [p|].
  - destruct (pg_state p); try (by intros [= <-]); [destruct (_ =? _); [by intros [= <-]|done]|]. by destruct (if pg_zero p then _ else _).
  - destruct (_ =? _); [by intros [= <-]|]. destruct (reserveLocked k true c); [done|by intros [= <-]].
Qed.
Lemma write_publish_ok own ctx k off buf b c p : cache_inv (lend cacheConstructing [k] own) c -> ca_pages c !! k = Some p ->
  pg_state p = cacheConstructing -> is_page b -> bytes_ok buf -> checkLocked ctx c = Ok tt ->
  exists c' q, write_publish ctx k off buf (Ok b) c = (Ok tt, c') /\ cache_inv own c' /\ same_control c c' /\
    ca_pages c' = <[k := q]> (ca_pages c) /\ pg_state q = cacheDirty /\ page_bytes q = Page.put (Z.to_nat (off mod PageSize)) buf b.
Proof.
  intros I Hk Hs Hb Hbuf Hok. unfold write_publish. rewrite Hok, Hk.
  destruct (ci_page _ _ I k p Hk) as [_ Hp]. rewrite Hs in Hp. destruct Hp as (Hc & Hz & _).
  set (q := overwrite off buf (mkCachePage (Some b) cacheDirty (pg_charged p) (pg_fresh p) (pg_zero p))).
  exists (kickLocked false (push_dirty k (set_page k q c))), q. split; [done|].
  split; [|done]. apply kick_inv. apply (change_at own _ own c _ k (Some q) I); rewrite ?Hk; simpl; rewrite ?Hs; try done.
  - split; rewrite ?Hk; simpl; rewrite ?Hs; try done; try queue_side; [charge_side..|apply (ci_free _ _ I)].
  - intros q' E; injection E as <-. by apply (overwrite_ok _ _ _ b).
  - charge_side.
Qed.
Lemma write_publish_err ctx k off buf init c : (forall b, init = Ok b -> checkLocked ctx c <> Ok tt) ->
  exists e, write_publish ctx k off buf init c = (Err e, releaseLocked k c).
Proof.
  intros H. unfold write_publish. destruct init as [b|e]; [|by exists e].
  destruct (checkLocked ctx c) as [[]|e] eqn:E; [by destruct (H b eq_refl)|by exists e].
Qed.

(** ** Zeros *)

Definition zero_dirty : cachePage := mkCachePage None cacheDirty true false true.
Lemma zero_ok : page_ok zero_dirty.
Proof. split; simpl; [done|]. by split. Qed.
Lemma zero_page_eq already k p c : pg_charged p = true -> exists l,
  zero_page already k p c = kickLocked false (if already then set_page k zero_dirty (set_freeData l c) else push_dirty k (set_page k zero_dirty (set_freeData l c))) /\
  (Forall (eq zeroPage) (ca_freeData c) -> (forall b, pg_data p = Some b -> is_page b) -> Forall (eq zeroPage) l).
Proof.
  intros Hc. unfold zero_page, releaseDataLocked. destruct (pg_data p) as [b|] eqn:E; simpl; rewrite Hc.
  - exists (ca_freeData c ++ [replicate (length b) 0]). split; [by destruct already|]. intros. apply zero_buffer; auto.
  - exists (ca_freeData c). rewrite E. split; [by destruct already, c|done].
Qed.
Lemma stageZero_done own ctx k c c' : cache_inv own c -> stageZero ctx k c = AdmitDone c' ->
  checkLocked ctx c = Ok tt /\ cache_inv own c' /\ same_control c c' /\
  (ca_pages c !! k = None \/ pg_state <$> ca_pages c !! k = Some cacheClean \/ pg_state <$> ca_pages c !! k = Some cacheDirty) /\
  exists c1, evicted c c1 /\ ca_pages c' = <[k := zero_dirty]> (ca_pages c1).
Proof.
  intros I H. unfold stageZero in H. destruct (checkLocked ctx c) as [[]|e]; [|done]. split; [done|].
  destruct (ca_pages c !! k) as [p|] eqn:Hk.
  - destruct (ci_page _ _ I k p Hk) as [Hd Hp]. assert (evicted c c) as E0 by by split; [|split; [|left]].
    destruct (pg_state p) eqn:Hs; try done.
    + destruct (Z.eqb_spec (ca_dirtyUsed c) (ca_maxDirty c)) as [|Hq].
      { unfold zero_blocked in H. by destruct (existsb _ _). }
      injection H as <-. destruct Hp as (Hc & Hz & Hn).
      destruct (zero_page_eq false k (mkCachePage (pg_data p) cacheClean true (pg_fresh p) (pg_zero p)) (charge k.1 1 (remove_clean k c)) eq_refl)
        as (l & E & Hl). rewrite E. specialize (Hl (ci_free _ _ I) Hd).
      split; [apply kick_inv|split; [done|split; [right; left; simpl; by rewrite Hs|by exists c]]].
      apply (change_at own own own c _ k (Some zero_dirty) I); rewrite ?Hk; simpl; rewrite ?Hs; try done.
      * split; rewrite ?Hk; simpl; rewrite ?Hs; try done; try queue_side; charge_side.
      * intros q Eq; injection Eq as <-. apply zero_ok.
      * intros _. pose proof (ci_dirty _ _ I). lia.
    + injection H as <-. destruct Hp as (Hc & Hz).
      destruct (zero_page_eq true k p c Hc) as (l & E & Hl). rewrite E. specialize (Hl (ci_free _ _ I) Hd).
      split; [apply kick_inv|split; [done|split; [right; right; simpl; by rewrite Hs|by exists c]]].
      apply (rewritten own c k l p zero_dirty I Hk Hs Hl); done.
  - destruct ((ca_dirtyUsed c =? ca_maxDirty c) || _) eqn:Eq.
    { unfold zero_blocked in H. by destruct (existsb _ _). }
    apply orb_false_iff in Eq as [Hq _]. apply Z.eqb_neq in Hq. destruct (reserveLocked k true c) as [c0|] eqn:Hr; [|done].
    destruct (reserve_room own c k true c0 I Hr) as (c1 & Ev & I1 & Hroom & ->). simpl in H. rewrite lookup_insert_eq in H.
    injection H as <-. pose proof (evicted_absent c c1 k Ev Hk) as Hk1.
    destruct (zero_page_eq false k (mkCachePage None cacheConstructing true false false) (reserved_page k true c1) eq_refl) as (l & E & Hl).
    rewrite E. specialize (Hl (ci_free _ _ I1) ltac:(done)).
    match goal with |- cache_inv _ ?x /\ _ => set (c' := x) end.
    assert (change c1 c' k (Some zero_dirty)) as C.
    { split; rewrite ?Hk1; simpl; try done; try queue_side; try charge_side. by rewrite !insert_insert_eq. }
    split; [|split; [exact (same_control_trans _ _ _ (proj1 Ev) (ch_control _ _ _ _ C))|split; [by left|exists c1; split; [done|apply C]]]].
    apply (change_at own own _ c1 c' k _ I1 C); rewrite ?Hk1; try done.
    + intros p E'; injection E' as <-. apply zero_ok.
    + intros _. destruct Ev as ((_ & -> & _) & -> & _). pose proof (ci_dirty _ _ I). lia.
Qed.
Lemma stageZero_retry ctx k c c' : stageZero ctx k c = AdmitRetry c' -> c' = kickLocked true c.
Proof.
  unfold stageZero. destruct (checkLocked ctx c); [|done].
  assert (forall d, zero_blocked d c = AdmitRetry c' -> c' = kickLocked true c) as B.
  { intros d. unfold zero_blocked. destruct (existsb _ _); [by intros [= <-]|done]. }
  destruct (ca_pages c !! k) as [p|].
  - destruct (pg_state p); try (by intros [= <-]). destruct (_ =? _); [apply B|done].
  - destruct (_ || _); [apply B|]. destruct (reserveLocked k true c) as [c0|] eqn:Hr; [|by intros [= <-]].
    assert (exists p, ca_pages c0 !! k = Some p) as [p ->]; [|done].
    unfold reserveLocked in Hr. destruct (if _ =? _ then _ else _); [|done]. injection Hr as <-. simpl. rewrite lookup_insert_eq. by eauto.
Qed.

(** ** Discarding *)

Lemma discard_pages_spec n d : forall block c keys, discard_pages n d block c = Some keys ->
  NoDup keys /\ (forall k, k ∈ keys <-> k.1 = d /\ block <= k.2 < block + Z.of_nat n /\ is_Some (ca_pages c !! k)) /\
  (forall k, k ∈ keys -> exists p, ca_pages c !! k = Some p /\ (pg_state p = cacheClean \/ pg_state p = cacheDirty)).
Proof.
  induction n as [|n IH]; intros block c keys H; simpl in H.
  { injection H as <-. split; [constructor|]. split; [intros k; split; [set_solver|lia]|set_solver]. }
  destruct (ca_pages c !! (d, block)) as [p|] eqn:Hk.
  - assert (exists l, discard_pages n d (block + 1) c = Some l /\ keys = (d, block) :: l /\ (pg_state p = cacheClean \/ pg_state p = cacheDirty))
      as (l & Hl & -> & Hs).
    { destruct (pg_state p) eqn:Hs; try done; destruct (discard_pages n d (block + 1) c) as [l|]; try done; injection H as <-; by eauto 10. }
    destruct (IH _ _ _ Hl) as (A & B & C). split.
    + constructor; [|done]. rewrite B. simpl. lia.
    + split; [|intros k [->|Hx]%elem_of_cons; [by eauto|by apply C]]. intros k. rewrite elem_of_cons, B. split.
      * intros [->|(? & ? & ?)]; simpl; [|by split; [|split; [lia|]]]. split; [done|]. split; [lia|by eexists].
      * intros (E1 & E2 & E3). destruct (decide (k.2 = block)) as [E|E]; [left; destruct k; simpl in *; congruence|right; by split; [|split; [lia|]]].
  - destruct (IH _ _ _ H) as (A & B & C). split; [done|]. split; [|done]. intros k. rewrite B. split.
    + intros (? & ? & ?). by split; [|split; [lia|]].
    + intros (E1 & E2 & E3). split; [done|]. split; [|done]. destruct (decide (k.2 = block)) as [E|E]; [|lia].
      destruct k; simpl in *; subst. rewrite Hk in E3. by destruct E3.
Qed.
Lemma with_state_ok s p : page_ok p -> (pg_state p = cacheClean \/ pg_state p = cacheDirty) -> (s = cacheDiscarding \/ s = cacheWriteback /\ pg_state p = cacheDirty) ->
  page_ok (with_state s p).
Proof.
  intros [A B] Hs Ht. split; [done|]. destruct p as [[b|] s0 ch fr z]; simpl in *.
  all: destruct Ht as [->|[-> ->]]; [|done]; destruct Hs as [->| ->]; naive_solver.
Qed.
Lemma freeze_discard_spec own c k p : cache_inv own c -> ca_pages c !! k = Some p -> (pg_state p = cacheClean \/ pg_state p = cacheDirty) ->
  cache_inv (lend cacheDiscarding [k] own) (freeze_discard c k) /\
  ca_pages (freeze_discard c k) = place k (Some (with_state cacheDiscarding p)) (ca_pages c) /\ same_control c (freeze_discard c k).
Proof.
  intros I Hk Hs.
  assert (change c (freeze_discard c k) k (Some (with_state cacheDiscarding p))) as C.
  { unfold freeze_discard. rewrite Hk.
    destruct Hs as [Hs|Hs]; rewrite Hs; (split; rewrite ?Hk; simpl; rewrite ?Hs; try done; try queue_side; [charge_side..|apply (ci_free _ _ I)]). }
  split; [|split; apply C].
  apply (change_at own own _ c _ k _ I C); rewrite ?Hk; simpl; try done.
  - by destruct Hs as [-> | ->].
  - intros q E; injection E as <-. apply with_state_ok; [exact (ci_page _ _ I k p Hk)|done|by left].
  - unfold weight, charged; simpl. lia.
Qed.
Lemma discard_freeze_spec own ctx d first last c keys c' : cache_inv own c -> discard_freeze ctx d first last c = Frozen keys c' ->
  checkLocked ctx c = Ok tt /\ cache_inv (lend cacheDiscarding keys own) c' /\ same_control c c' /\
  (forall k, k ∈ keys <-> k.1 = d /\ first <= k.2 <= last /\ is_Some (ca_pages c !! k)) /\
  (forall k, k ∈ keys -> exists p, ca_pages c !! k = Some p /\ (pg_state p = cacheClean \/ pg_state p = cacheDirty)) /\
  forall k, ca_pages c' !! k = if bool_decide (k ∈ keys) then with_state cacheDiscarding <$> ca_pages c !! k else ca_pages c !! k.
Proof.
  intros I H. unfold discard_freeze in H. destruct (checkLocked ctx c) as [[]|e]; [|done]. split; [done|].
  destruct (discard_pages _ d first c) as [l|] eqn:Hl; [|done]. injection H as <- <-.
  destruct (discard_pages_spec _ _ _ _ _ Hl) as (A & B & C).
  destruct (fold_take freeze_discard cacheDiscarding (with_state cacheDiscarding)
    (fun p => pg_state p = cacheClean \/ pg_state p = cacheDirty) freeze_discard_spec l own c I A C) as (E1 & E2 & E3).
  split; [done|]. split; [done|]. split; [|done]. intros k. rewrite B. split.
  - intros (? & ? & [p ?]). split; [done|]. split; [lia|by eexists].
  - intros (? & ? & ?). split; [done|]. split; [lia|done].
Qed.
Lemma fail_inv own e c : cache_inv own c -> cache_inv own (failLocked e c).
Proof. unfold failLocked. destruct (ca_err c); [done|]. by intros [? ? ? ? ? ? ? ?]. Qed.
Lemma fail_err e c : ca_err (failLocked e c) <> None /\ ca_pages (failLocked e c) = ca_pages c.
Proof. unfold failLocked. destruct (ca_err c) eqn:E; [by rewrite E|done]. Qed.

(** ** The worker *)

Lemma freeze_page_spec own c k p : cache_inv own c -> ca_pages c !! k = Some p -> pg_state p = cacheDirty ->
  cache_inv (lend cacheWriteback [k] own) (freeze_page k c) /\
  ca_pages (freeze_page k c) = place k (Some (with_state cacheWriteback p)) (ca_pages c) /\ same_control c (freeze_page k c).
Proof.
  intros I Hk Hs.
  assert (change c (freeze_page k c) k (Some (with_state cacheWriteback p))) as C.
  { unfold freeze_page. rewrite Hk. split; rewrite ?Hk; simpl; rewrite ?Hs; try done; try queue_side; [charge_side..|apply (ci_free _ _ I)]. }
  split; [|split; apply C].
  apply (change_at own own _ c _ k _ I C); rewrite ?Hk; simpl; rewrite ?Hs; try done.
  - intros q E; injection E as <-. apply with_state_ok; [exact (ci_page _ _ I k p Hk)|by right|by right].
  - unfold weight, charged; simpl. lia.
Qed.
(** The pages [l] of one disk and one kind were dirty and are frozen for writeback. *)
Definition froze (d : Z) (zero : bool) (own : cacheState -> list cacheKey) (c : PageCache) (l : list cacheKey) (c' : PageCache) : Prop :=
  cache_inv (lend cacheWriteback l own) c' /\ same_control c c' /\
  (forall k, k ∈ l -> k.1 = d /\ exists p, ca_pages c !! k = Some p /\ pg_state p = cacheDirty /\ pg_zero p = zero) /\
  forall k, ca_pages c' !! k = if bool_decide (k ∈ l) then with_state cacheWriteback <$> ca_pages c !! k else ca_pages c !! k.
Lemma froze_nil d zero own c : cache_inv own c -> froze d zero own c [] c.
Proof. intros I. split; [exact (lend_inv _ _ _ (lend_nil _ _) I)|]. split; [done|]. split; [set_solver|done]. Qed.
Lemma froze_app d zero own c l c1 l' c2 : froze d zero own c l c1 -> froze d zero (lend cacheWriteback l own) c1 l' c2 ->
  froze d zero own c (l ++ l') c2.
Proof.
  intros (A1 & A2 & A3 & A4) (B1 & B2 & B3 & B4).
  assert (forall k, k ∈ l' -> k ∉ l /\ ca_pages c1 !! k = ca_pages c !! k) as D.
  { intros k Hk. destruct (B3 k Hk) as (_ & p & Hp & Hs & _). rewrite A4 in Hp |- *. case_bool_decide as E; [|done].
    destruct (ca_pages c !! k); [|done]. by simplify_eq/=. }
  split; [exact (lend_inv _ _ _ (lend_app _ _ _ _) B1)|]. split; [exact (same_control_trans _ _ _ A2 B2)|]. split.
  - intros k [Hk|Hk]%elem_of_app; [by apply A3|]. destruct (D k Hk) as [_ <-]. by apply B3.
  - intros k. rewrite B4. destruct (decide (k ∈ l')) as [Hk|Hk].
    + destruct (D k Hk) as [_ ->]. by rewrite !bool_decide_true by set_solver.
    + rewrite bool_decide_false by done. rewrite A4. repeat case_bool_decide; try done; set_solver.
Qed.
Lemma froze_one zero own c k p : cache_inv own c -> ca_pages c !! k = Some p -> pg_state p = cacheDirty -> pg_zero p = zero ->
  froze k.1 zero own c [k] (freeze_page k c).
Proof.
  intros I Hk Hs Hz. destruct (freeze_page_spec own c k p I Hk Hs) as (A & B & C). split; [done|]. split; [done|]. split.
  - intros x ->%list_elem_of_singleton. by eauto.
  - intros x. rewrite B, place_lookup. case_decide; [subst; rewrite bool_decide_true by set_solver; by rewrite Hk|by rewrite bool_decide_false by set_solver].
Qed.
Lemma is_dirty_true zero c k : is_dirty zero c k = true <-> exists p, ca_pages c !! k = Some p /\ pg_state p = cacheDirty /\ pg_zero p = zero.
Proof.
  unfold is_dirty. destruct (ca_pages c !! k) as [p|]; [|naive_solver]. rewrite andb_true_iff, bool_decide_eq_true, eqb_true_iff. naive_solver.
Qed.
Lemma freeze_run_spec n d zero : forall own block c l c', cache_inv own c -> freeze_run n d block zero c = (l, c') ->
  froze d zero own c l c' /\ (length l <= n)%nat /\
  forall m, (m <= n)%nat -> (forall i, 0 <= i < Z.of_nat m -> is_dirty zero c (d, block + i) = true) ->
    forall i, 0 <= i < Z.of_nat m -> (d, block + i) ∈ l.
Proof.
  induction n as [|n IH]; intros own block c l c' I H; simpl in H.
  { injection H as <- <-. split; [by apply froze_nil|]. split; [done|]. lia. }
  destruct (is_dirty zero c (d, block)) eqn:Hd.
  - destruct (freeze_run n d (block + 1) zero (freeze_page (d, block) c)) as [l0 c0] eqn:E. injection H as <- <-.
    pose proof Hd as (p & Hp & Hs & Hz)%is_dirty_true.
    pose proof (froze_one zero own c (d, block) p I Hp Hs Hz) as F1. destruct (IH _ _ _ _ _ (proj1 F1) E) as (F2 & L2 & M2).
    split; [exact (froze_app d zero own c [(d, block)] _ l0 _ F1 F2)|]. split; [simpl; lia|].
    intros m Hm Hall i Hi. destruct (decide (i = 0)) as [->|Hi0]; [rewrite Z.add_0_r; set_solver|].
    destruct m as [|m]; [lia|]. apply list_elem_of_further. replace (block + i) with (block + 1 + (i - 1)) by lia. apply (M2 m); [lia| |lia].
    intros j Hj. specialize (Hall (j + 1) ltac:(lia)). replace (block + (j + 1)) with (block + 1 + j) in Hall by lia.
    apply is_dirty_true in Hall as (q & Hq & Hqs & Hqz). apply is_dirty_true. exists q. split; [|done].
    destruct F1 as (_ & _ & _ & ->). rewrite bool_decide_false; [done|]. rewrite list_elem_of_singleton. intros X; injection X; lia.
  - injection H as <- <-. split; [by apply froze_nil|]. split; [simpl; lia|]. intros m Hm Hall i Hi.
    specialize (Hall 0 ltac:(lia)). rewrite Z.add_0_r in Hall. congruence.
Qed.
Lemma run_first_spec n d zero c : forall block, exists j, 0 <= j <= Z.of_nat n /\ run_first n d block zero c = block - j /\
  forall i, 0 <= i < j -> is_dirty zero c (d, block - j + i) = true.
Proof.
  induction n as [|n IH]; intros block; simpl.
  { exists 0. split; [lia|]. split; [lia|]. lia. }
  destruct ((0 <? block) && is_dirty zero c (d, block - 1)) eqn:E; [|exists 0; split; [lia|]; split; lia].
  apply andb_true_iff in E as [_ E]. destruct (IH (block - 1)) as (j & A & B & C). exists (j + 1). split; [lia|]. split; [lia|].
  intros i Hi. destruct (decide (i = j)) as [->|]; [by replace (block - (j + 1) + j) with (block - 1) by lia|].
  replace (block - (j + 1) + i) with (block - 1 - j + i) by lia. apply C. lia.
Qed.
Lemma freeze_around limit d zero own c k l c' : cache_inv own c -> (0 < limit)%nat -> k.1 = d ->
  freeze_run limit k.1 (run_first (limit - 1) k.1 k.2 zero c) zero c = (l, c') ->
  froze d zero own c l c' /\ (length l <= limit)%nat /\ (is_dirty zero c k = true -> k ∈ l).
Proof.
  intros I Hl <- H. destruct (freeze_run_spec _ _ _ _ _ _ _ _ I H) as (F & L & M). split; [done|]. split; [done|]. intros Hd.
  destruct (run_first_spec (limit - 1) k.1 zero c k.2) as (j & A & B & C). rewrite B in M.
  replace k with (k.1, k.2 - j + j) by (destruct k; simpl; f_equal; lia). apply (M (Z.to_nat (j + 1))); [lia| |lia].
  intros i Hi. destruct (decide (i = j)) as [->|]; [|apply C; lia].
  replace (k.1, k.2 - j + j) with k by (destruct k; simpl; f_equal; lia). done.
Qed.
Lemma freeze_candidates_spec limit d zero own c0 : forall cands batch c b' c', froze d zero own c0 batch c -> (length batch <= limit)%nat ->
  (forall k, k ∈ cands -> k.1 = d) -> freeze_candidates limit zero cands batch c = (b', c') ->
  froze d zero own c0 b' c' /\ (length b' <= limit)%nat /\ forall k, k ∈ batch -> k ∈ b'.
Proof.
  induction cands as [|k cands IH]; intros batch c b' c' F L Hd H; simpl in H; [by injection H as <- <-|].
  destruct (Nat.eqb_spec (length batch) limit) as [E|E]; [by injection H as <- <-|].
  case_bool_decide as S; [|apply (IH _ _ _ _ F L); [set_solver|done]].
  destruct (freeze_run (limit - length batch) k.1 _ zero c) as [l c1] eqn:R.
  destruct (freeze_around (limit - length batch) d zero _ c k l c1 (proj1 F)) as (F1 & L1 & _); [lia|apply Hd; set_solver|exact R|].
  destruct (IH (batch ++ l) c1 b' c' (froze_app _ _ _ _ _ _ _ _ F F1)) as (A & B & C); [rewrite length_app; lia|set_solver|done|].
  split; [done|]. split; [done|]. set_solver.
Qed.
Lemma oldest_spec writable l : match oldestEligible writable l with
  | Some (k, rest) => writable k.1 = true /\ exists pre, l = pre ++ k :: rest /\ Forall (fun x => writable x.1 = false) pre
  | None => Forall (fun x => writable x.1 = false) l
  end.
Proof.
  induction l as [|k l IH]; simpl; [constructor|]. destruct (writable k.1) eqn:E; [split; [done|]; by exists []|].
  destruct (oldestEligible writable l) as [[k0 rest]|]; [|by constructor].
  destruct IH as (A & pre & -> & B). split; [done|]. exists (k :: pre). split; [done|]. by constructor.
Qed.
Definition limit_of (zero : bool) : nat := if zero then maxWritebackMutations else maxWritebackPages.
Lemma select_spec own writable c : cache_inv own c ->
  match select_batch writable c with
  | Some (d, zero, batch, c') => ca_err c = None /\ ca_closed c = false /\ writable d = true /\ (length batch <= limit_of zero)%nat /\
      (exists k rest, oldestEligible writable (ca_dirty c) = Some (k, rest) /\ k.1 = d /\ k ∈ batch) /\
      exists c1, froze d zero own c batch c1 /\ c' = set_active (Some d) c1
  | None => ca_err c <> None \/ ca_closed c = true \/ Forall (fun k => writable k.1 = false) (ca_dirty c)
  end.
Proof.
  intros I. unfold select_batch. destruct (bool_decide (ca_err c <> None) || ca_closed c) eqn:E0.
  { apply orb_true_iff in E0 as [E0%bool_decide_eq_true|E0]; tauto. }
  apply orb_false_iff in E0 as [E1%bool_decide_eq_false E2]. apply dec_stable in E1. simpl.
  pose proof (oldest_spec writable (ca_dirty c)) as O. destruct (oldestEligible writable (ca_dirty c)) as [[k rest]|]; [|by auto].
  destruct O as (Hw & pre & Eq & _).
  assert (pg_state <$> ca_pages c !! k = Some cacheDirty) as Hs by (apply (ci_where _ _ I cacheDirty); simpl; rewrite Eq; set_solver).
  destruct (ca_pages c !! k) as [p|] eqn:Hk; [|done]. injection Hs as Hs. fold (limit_of (pg_zero p)).
  assert (0 < limit_of (pg_zero p))%nat as Hl by (unfold limit_of, maxWritebackMutations, maxWritebackPages; destruct (pg_zero p); lia).
  set (cu := set_urgent false c). assert (cache_inv own cu) as Iu by (by destruct I). set (z := pg_zero p) in *.
  assert (exists cands, batch_candidates (limit_of z) k.1 z (k :: rest) cu = k :: cands /\ forall x, x ∈ k :: cands -> x.1 = k.1) as (cands & -> & Hc).
  { unfold batch_candidates. rewrite filter_cons_True by (split; [done|]; simpl; by rewrite Hk).
    destruct (limit_of z) as [|n]; [lia|]. eexists. split; [reflexivity|]. intros x [->|Hx]%elem_of_cons; [done|].
    assert (x ∈ filter (fun k0 => k0.1 = k.1 /\ pg_zero <$> ca_pages cu !! k0 = Some z) rest) as [[? _] _]%list_elem_of_filter; [|done].
    apply (subseteq_take n _ x Hx). }
  cbn [freeze_candidates length app]. rewrite (proj2 (Nat.eqb_neq 0 (limit_of z))) by lia. rewrite bool_decide_true by (simpl; by rewrite Hk; simpl; rewrite Hs).
  rewrite !Nat.sub_0_r. destruct (freeze_run (limit_of z) k.1 _ z cu) as [l c1] eqn:R.
  destruct (freeze_around (limit_of z) k.1 z own cu k l c1 Iu Hl eq_refl R) as (F1 & L1 & M1).
  destruct (freeze_candidates (limit_of z) z cands l c1) as [b' c2] eqn:Q.
  destruct (freeze_candidates_spec (limit_of z) k.1 z own cu cands l c1 b' c2 F1 L1) as (F2 & L2 & M2); [set_solver|done|].
  assert (k ∈ b') as Hin by (apply M2, M1, is_dirty_true; simpl; by eauto).
  destruct b' as [|k1 b']; [set_solver|]. split; [done|]. split; [done|]. split; [done|]. split; [done|].
  split; [by exists k, rest|]. exists c2. split; [|done]. exact F2.
Qed.
Definition completed (p : cachePage) : option cachePage :=
  if pg_zero p then None else Some (mkCachePage (pg_data p) cacheClean false false false).
Lemma complete_page_spec own c k p : cache_inv (lend cacheWriteback [k] own) c -> ca_pages c !! k = Some p -> pg_state p = cacheWriteback ->
  cache_inv own (complete_page c k) /\ ca_pages (complete_page c k) = place k (completed p) (ca_pages c) /\ same_control c (complete_page c k).
Proof.
  intros I Hk Hs. destruct (ci_page _ _ I k p Hk) as [Hd Hp]. rewrite Hs in Hp. destruct Hp as (Hc & Hz).
  unfold complete_page, completed. rewrite Hk. destruct (pg_zero p) eqn:Ez.
  - split; [apply (release_inv own c k cacheWriteback I); by rewrite Hk; simpl; rewrite Hs|]. split; [apply release_pages|apply release_control].
  - match goal with |- cache_inv _ ?x /\ _ => set (c' := x) end.
    assert (change c c' k (Some (mkCachePage (pg_data p) cacheClean false false false))) as C.
    { split; rewrite ?Hk; simpl; rewrite ?Hs; try done; try queue_side; [charge_side..|apply (ci_free _ _ I)]. }
    split; [|split; apply C].
    apply (change_at own _ own c c' k _ I C); rewrite ?Hk; simpl; rewrite ?Hs; try done; [|charge_side].
    intros q E; injection E as <-. split; [done|]. split; [done|]. split; [done|]. simpl. intros X. destruct Hz as [_ Hz]. by discriminate Hz.
Qed.
Lemma complete_spec batch own c : cache_inv (lend cacheWriteback batch own) c ->
  cache_inv own (completeWritebackLocked batch c) /\ same_control c (completeWritebackLocked batch c) /\
  forall k, ca_pages (completeWritebackLocked batch c) !! k = if bool_decide (k ∈ batch) then ca_pages c !! k ≫= completed else ca_pages c !! k.
Proof.
  intros I. apply (fold_settle complete_page cacheWriteback (fun _ p => completed p) (fun _ _ => True)); [done| |done|done].
  intros. by apply complete_page_spec.
Qed.
Lemma active_inv own a c : cache_inv own c -> cache_inv own (set_active a c).
Proof. by intros [? ? ? ? ? ? ? ?]. Qed.
Lemma repair_spec d own c cohort c' : cache_inv own c -> repair_freeze d c = (cohort, c') -> froze d true own c cohort c'.
Proof.
  intros I H. unfold repair_freeze in H. injection H as <- <-.
  assert (forall k, k ∈ repair_cohort d c -> k.1 = d /\ exists p, ca_pages c !! k = Some p /\ pg_state p = cacheDirty /\ pg_zero p = true) as A.
  { intros k [[Hd Hz] Hk]%list_elem_of_filter. split; [done|]. apply (ci_where _ _ I cacheDirty) in Hk.
    destruct (ca_pages c !! k) as [p|]; [|done]. simplify_eq/=. by eauto. }
  destruct (fold_take (fun c k => freeze_page k c) cacheWriteback (with_state cacheWriteback) (fun p => pg_state p = cacheDirty)
    (fun own c k p => freeze_page_spec own c k p) (repair_cohort d c) own c I) as (E1 & E2 & E3).
  - apply NoDup_filter, (ci_once _ _ I cacheDirty).
  - intros k Hk. destruct (A k Hk) as (_ & p & ? & ? & _). by eauto.
  - done.
Qed.

(** ** Detaching *)

Lemma release_any keys : forall own c, cache_inv own c -> cache_inv (fun s => filter (fun k => k ∉ keys) (own s)) (release_all keys c).
Proof.
  induction keys as [|k keys IH]; intros own c I; simpl.
  { apply (lend_inv own); [|done]. intros s. induction (own s) as [|x l IHl]; [done|]. rewrite filter_cons_True by set_solver. by f_equal. }
  assert (cache_inv (fun s => list_remove k (own s)) (releaseLocked k c)) as I1.
  { destruct (ca_pages c !! k) as [p|] eqn:Hk.
    - pose proof (release_change own c k p I Hk) as [C1 C2 C3 C4 C5 C6 C7].
      apply (moved_inv own (give k None own) c _ k None I); [by apply (moved_intro own c _ k None)|done|done|].
      rewrite Hk. unfold weight. destruct (charged k p); lia.
    - unfold releaseLocked. rewrite Hk. apply (cache_inv_perm own); [|done]. intros s Hs.
      assert (k ∉ own s) as Hn.
      { intros X. assert (k ∈ owners own c s) as Y by by destruct s. apply (ci_where _ _ I s k) in Y. by rewrite Hk in Y. }
      unfold list_remove. induction (own s) as [|x l IHl]; [done|]. rewrite filter_cons_True by set_solver. f_equiv. apply IHl. set_solver. }
  apply IH in I1. revert I1. apply lend_inv. intros s. unfold list_remove. rewrite list_filter_filter.
  apply list_filter_iff. intros x. set_solver.
Qed.
Lemma detach_spec own d c : cache_inv own c -> cache_inv (fun s => filter (fun k => k.1 <> d) (own s)) (detach d c) /\
  same_control c (detach d c) /\ forall k, ca_pages (detach d c) !! k = if k.1 =? d then None else ca_pages c !! k.
Proof.
  intros I. unfold detach. set (keys := fst <$> _).
  assert (forall k, k ∈ keys <-> k.1 = d /\ is_Some (ca_pages c !! k)) as Hk.
  { intros k. unfold keys. rewrite list_elem_of_fmap. split.
    - intros ([k' p] & -> & [Hd Hm]%list_elem_of_filter). apply elem_of_map_to_list in Hm. simpl in *. by eauto.
    - intros [Hd [p Hp]]. exists (k, p). split; [done|]. apply list_elem_of_filter. split; [done|]. by apply elem_of_map_to_list. }
  assert (forall k, ca_pages (release_all keys c) !! k = if k.1 =? d then None else ca_pages c !! k) as P.
  { intros k. rewrite release_all_pages. destruct (Z.eqb_spec k.1 d) as [E|E].
    - case_bool_decide as X; [done|]. destruct (ca_pages c !! k) eqn:Y; [|done]. destruct X. apply Hk. by eauto.
    - rewrite bool_decide_false; [done|]. rewrite Hk. tauto. }
  pose proof (release_any keys own c I) as J. fold (release_all keys c). split; [|split; [apply release_all_control|done]].
  assert (cache_inv (fun s => filter (fun k => k.1 <> d) (own s)) (release_all keys c)) as J'.
  { revert J. apply cache_inv_perm. intros s Hs. assert (forall l : list cacheKey, (forall k, k ∈ l -> is_Some (ca_pages c !! k)) ->
      filter (fun k => k.1 <> d) l = filter (fun k => k ∉ keys) l) as E.
    { induction l as [|k l IH]; intros Hl; [done|]. rewrite !filter_cons, IH by set_solver. 
      assert (is_Some (ca_pages c !! k)) by (apply Hl; set_solver). repeat case_decide; try done; rewrite Hk in *; tauto. }
    rewrite E; [done|]. intros k X. assert (k ∈ owners own c s) as Y by by destruct s. apply (ci_where _ _ I s k) in Y.
    destruct (ca_pages c !! k); [by eexists|done]. }
  destruct J' as [K1 K2 K3 K4 K5 K6 K7 K8]. split; try done. intros d'. simpl. destruct (decide (d' = d)) as [->|Hne].
  - rewrite lookup_delete_eq. simpl. symmetry. apply count_zero. intros k p Hp. rewrite P in Hp. unfold charged_of.
    destruct (Z.eqb_spec k.1 d); [done|]. done.
  - rewrite lookup_delete_ne by done. apply K5.
Qed.
