(* ===== verification/WriteBackSteps.v ===== *)
(** * WriteBackSteps: disks over the page cache, as interleaved steps.

    The calls of pkg/diffstore/blk_cow.go, the materializer of a template and the
    worker of cow_cache.go run in parallel.  A step is one critical section of the
    cache's mutex or one request to the file of a disk; a call that does I/O between
    two critical sections is pending in between.  Block stripes are part of the state:
    a pending load holds the stripes of its blocks shared, a pending write or discard
    holds them exclusively, and a step that needs a stripe waits for it.  The stripes
    of a materialized range are held around one request to the file that nothing else
    looks at, so it is one step.

    The file of a disk is seen through the class [DiffFile], with the promises the
    cache relies on in [DiffFileLaws]; WriteBackDiff.v proves them for the versioned
    DIFF.  The layers below the file are immutable: [base], and a [template] that is
    being copied into the file.  A call that waits is not a step; a call that gives up
    because its context ends is one that fails where the code checks the context.  An
    error of the cleanup after a failure, which the code joins to the failure, is left
    out. *)
From stdpp Require Import base numbers list gmap strings.
From Stdlib Require Import ZArith Lia.
From S2P Require Import Prelude Page Presence Format WriteBack.

(** ** The file of a disk *)

Class DiffFile (F : Type) := {
  df_ok : F -> Prop;
  df_blocks : F -> Z;                                             (* its size in blocks *)
  df_block : F -> Z -> list Z;                                    (* what a read of a block returns *)
  df_present : F -> Z -> bool;                                    (* the bitmap it keeps *)
  df_write : list pageWrite -> F -> dres unit -> F -> Prop;       (* writePages *)
  df_discard : Z -> Z -> F -> dres unit -> F -> Prop;             (* discard of the blocks first..last *)
  df_pressure : F -> diff_error -> bool;                          (* isWritebackSpacePressure, after a write *)
  df_quiet : F -> F -> Prop;                                      (* what else the owner of the file does *)
  df_cleanup : list pageWrite -> F -> F -> Prop }.                (* cleanupWriteFailure *)
(** The data a block holds after a page was written. *)
Definition written_bytes (x : pageWrite) : list Z := if pw_zero x then zeroPage else pw_data x.
(** A batch the worker hands over: blocks of the disk, once each, whole pages, all data
    or all zeros, within the workspace of its kind. *)
Definition batch_ok (n : Z) (l : list pageWrite) : Prop :=
  l <> [] /\ NoDup (pw_block <$> l) /\
  (exists z, Forall (fun x => pw_zero x = z) l /\ (length l <= if z then maxWritebackMutations else maxWritebackPages)%nat) /\
  Forall (fun x => 0 <= pw_block x < n /\ (pw_zero x = false -> is_page (pw_data x))) l.
(** The file keeps the blocks a request does not name, and a request that succeeds did
    what it was asked. *)
Definition df_kept {F} `{DiffFile F} (s s' : F) (b : Z) : Prop := df_block s' b = df_block s b /\ df_present s' b = df_present s b.
Class DiffFileLaws (F : Type) `{DiffFile F} : Prop := {
  df_write_ok l s r s' : df_ok s -> batch_ok (df_blocks s) l -> df_write l s r s' ->
    df_ok s' /\ df_blocks s' = df_blocks s /\ (forall b, 0 <= b < df_blocks s -> b ∉ pw_block <$> l -> df_kept s s' b) /\
    (r = Ok tt -> forall x, x ∈ l -> df_block s' (pw_block x) = written_bytes x /\ df_present s' (pw_block x) = true);
  df_discard_ok first last s r s' : df_ok s -> 0 <= first <= last -> last < df_blocks s -> df_discard first last s r s' ->
    df_ok s' /\ df_blocks s' = df_blocks s /\ (forall b, 0 <= b < df_blocks s -> ~ first <= b <= last -> df_kept s s' b) /\
    (r = Ok tt -> forall b, first <= b <= last -> df_block s' b = zeroPage /\ df_present s' b = true);
  df_quiet_ok s s' : df_ok s -> df_quiet s s' -> df_ok s' /\ df_blocks s' = df_blocks s /\ forall b, 0 <= b < df_blocks s -> df_kept s s' b;
  df_cleanup_ok l s s' : df_ok s -> df_cleanup l s s' -> df_ok s' /\ df_blocks s' = df_blocks s;
  df_block_page s b : df_ok s -> 0 <= b < df_blocks s -> is_page (df_block s b) }.

(** ** Presence of the upper layer (blk_cow.go) *)

Definition blockDirty (bitmap : list Z) (b : Z) : bool := Z.testbit (default 0 (bitmap !! Z.to_nat (b / 64))) (b mod 64).
Definition markDirty (b : Z) (bitmap : list Z) : list Z :=
  alter (fun w => Z.lor w (2 ^ (b mod 64))) (Z.to_nat (b / 64)) bitmap.
Definition mark_all (l : list Z) (bitmap : list Z) : list Z := fold_left (fun m b => markDirty b m) l bitmap.

Section Steps.
Context {F : Type} `{DiffFile F} (base : Z -> Z -> list Z) (template : Z -> Z -> option (list Z)) (versions : Z -> bool).

(** ** State *)

(** [dk_material]: how far the template was copied, while there is one. *)
Record disk := mkDisk { dk_bitmap : list Z; dk_file : F; dk_ready : bool; dk_material : option Z }.
(** A run of blocks being read: which of them got a page, and what the file returned. *)
Record load := mkLoad { ld_disk : Z; ld_first : Z; ld_reserved : list bool; ld_io : option (dres (Z -> list Z)) }.
(** A write whose page is being filled. *)
Record pending := mkPending { pd_key : cacheKey; pd_off : Z; pd_buf : list Z; pd_upper : bool; pd_io : option (dres (list Z)) }.
(** A discard around the cache, with the pages it froze; of a template's zeros or of a guest's. *)
Record discarding := mkDiscarding { dc_disk : Z; dc_first : Z; dc_last : Z; dc_template : bool; dc_keys : list cacheKey; dc_io : option (dres unit) }.
Inductive worker :=
| WorkerIdle
| WorkerWrite (d : Z) (batch : list cacheKey) (retry : bool)             (* frozen, to be written *)
| WorkerWritten (d : Z) (batch : list cacheKey)                          (* written, to be completed *)
| WorkerPressed (d : Z) (batch : list cacheKey)                          (* no space *)
| WorkerRepair (d : Z) (batch cohort : list cacheKey)                    (* zeros to be written first *)
| WorkerRepaired (d : Z) (batch part cohort : list cacheKey)             (* some of them written *)
| WorkerFailed (d : Z) (batch others : list cacheKey) (e : diff_error)   (* with the zeros a repair froze *)
| WorkerCleanup (d : Z) (batch others : list cacheKey)
| WorkerStopped (frozen : list cacheKey).
Record world := mkWorld { w_cache : PageCache; w_disks : gmap Z disk; w_loads : list load; w_writes : list pending;
  w_discards : list discarding; w_worker : worker }.

Definition set_cache (c : PageCache) (w : world) : world := mkWorld c (w_disks w) (w_loads w) (w_writes w) (w_discards w) (w_worker w).
Definition set_disk (d : Z) (k : disk) (w : world) : world :=
  mkWorld (w_cache w) (<[d := k]> (w_disks w)) (w_loads w) (w_writes w) (w_discards w) (w_worker w).
Definition set_loads (l : list load) (w : world) : world := mkWorld (w_cache w) (w_disks w) l (w_writes w) (w_discards w) (w_worker w).
Definition set_writes (l : list pending) (w : world) : world := mkWorld (w_cache w) (w_disks w) (w_loads w) l (w_discards w) (w_worker w).
Definition set_discards (l : list discarding) (w : world) : world := mkWorld (w_cache w) (w_disks w) (w_loads w) (w_writes w) l (w_worker w).
Definition set_worker (x : worker) (w : world) : world := mkWorld (w_cache w) (w_disks w) (w_loads w) (w_writes w) (w_discards w) x.
Definition with_bitmap (m : list Z) (k : disk) : disk := mkDisk m (dk_file k) (dk_ready k) (dk_material k).
Definition with_file (f : F) (k : disk) : disk := mkDisk (dk_bitmap k) f (dk_ready k) (dk_material k).
Definition with_material (m : option Z) (k : disk) : disk := mkDisk (dk_bitmap k) (dk_file k) (dk_ready k) m.
Definition loaded (io : dres (Z -> list Z)) (x : load) : load := mkLoad (ld_disk x) (ld_first x) (ld_reserved x) (Some io).
Definition filled (io : dres (list Z)) (x : pending) : pending := mkPending (pd_key x) (pd_off x) (pd_buf x) (pd_upper x) (Some io).
Definition discarded (io : dres unit) (x : discarding) : discarding :=
  mkDiscarding (dc_disk x) (dc_first x) (dc_last x) (dc_template x) (dc_keys x) (Some io).

Definition upper (k : disk) (b : Z) : bool := blockDirty (dk_bitmap k) b.
(** [readLower]: what the layers below the file hold. *)
Definition lower (k : disk) (d b : Z) : list Z :=
  match dk_material k with Some _ => default (base d b) (template d b) | None => base d b end.
Definition has_block (k : disk) (b : Z) : Prop := 0 <= b < df_blocks (dk_file k).

(** The keys a pending call or the worker has taken out of the lists of the cache. *)
Definition load_keys (x : load) : list cacheKey := reserved_keys (ld_disk x) (ld_first x) (ld_reserved x).
Definition worker_keys (x : worker) : list cacheKey :=
  match x with
  | WorkerIdle => []
  | WorkerWrite _ batch _ | WorkerWritten _ batch | WorkerPressed _ batch => batch
  | WorkerRepair _ batch cohort => batch ++ cohort
  | WorkerRepaired _ batch part cohort => batch ++ part ++ cohort
  | WorkerFailed _ batch others _ | WorkerCleanup _ batch others => batch ++ others
  | WorkerStopped frozen => frozen
  end.
Definition owned (w : world) (s : cacheState) : list cacheKey :=
  match s with
  | cacheLoading => concat (load_keys <$> w_loads w)
  | cacheConstructing => pd_key <$> w_writes w
  | cacheDiscarding => concat (dc_keys <$> w_discards w)
  | cacheWriteback => worker_keys (w_worker w)
  | _ => []
  end.

(** ** Stripes *)

Definition stripe (b : Z) : Z := b mod 256.
Definition in_load (d b : Z) (x : load) : Prop := ld_disk x = d /\ ld_first x <= b < ld_first x + Z.of_nat (length (ld_reserved x)).
Definition in_discard (d b : Z) (x : discarding) : Prop := dc_disk x = d /\ dc_first x <= b <= dc_last x.
(** No writer holds the stripe of [b]. *)
Definition free_shared (w : world) (d b : Z) : Prop :=
  (forall x, x ∈ w_writes w -> (pd_key x).1 = d -> stripe (pd_key x).2 <> stripe b) /\
  (forall x b', x ∈ w_discards w -> in_discard d b' x -> stripe b' <> stripe b).
(** Nobody does. *)
Definition free_excl (w : world) (d b : Z) : Prop :=
  free_shared w d b /\ forall x b', x ∈ w_loads w -> in_load d b' x -> stripe b' <> stripe b.

(** ** Steps *)

(** What a step shows of the disks. *)
Inductive event :=
| Silent
| Observed (d : Z) (l : list (Z * list Z))           (* blocks returned to a reader *)
| Wrote (d off : Z) (buf : list Z)                   (* part of one block accepted *)
| Discarded (d first last : Z)
| Attached (d : Z) (contents : Z -> list Z)
| Detached (d : Z).
(** A read either returns the bytes or fails. *)
Definition reads {A} (x : A) (r : dres A) : Prop := r = Ok x \/ exists e, r = Err e.
Definition blocks_of (first : Z) (n : nat) : list Z := (fun i => first + Z.of_nat i) <$> seq 0 n.
Definition range_of (first last : Z) : list Z := blocks_of first (Z.to_nat (last - first + 1)).
(** A write of [buf] at [off] stays within block [b]. *)
Definition part_of (b off : Z) (buf : list Z) : Prop :=
  off / PageSize = b /\ bytes_ok buf /\ off mod PageSize + Z.of_nat (length buf) <= PageSize.
(** The records of [materializeRange]: the blocks nobody wrote yet. *)
Definition material_pages (k : disk) (d first last : Z) : list pageWrite :=
  (fun b => mkPageWrite b (default [] (template d b)) false false) <$> filter (fun b => upper k b = false) (range_of first last).
Definition zero_record (k : cacheKey) : pageWrite := mkPageWrite k.2 [] false true.
Definition batch_zero (c : PageCache) (batch : list cacheKey) : bool :=
  match batch with k :: _ => match ca_pages c !! k with Some p => pg_zero p | None => false end | [] => false end.
Definition ready (w : world) (d : Z) : bool := match w_disks w !! d with Some k => dk_ready k | None => false end.
Definition after_write (c : PageCache) (d : Z) (batch : list cacheKey) (retry : bool) (f : F) (r : dres unit) : worker :=
  match r with
  | Ok _ => WorkerWritten d batch
  | Err e => if negb retry && negb (batch_zero c batch) && versions d && df_pressure f e then WorkerPressed d batch else WorkerFailed d batch [] e
  end.
Definition detach_worker (d : Z) (x : worker) : worker :=
  match x with WorkerStopped l => WorkerStopped (filter (fun k => k.1 <> d) l) | x => x end.

Inductive step : world -> event -> world -> Prop :=
(* readRangeLocked and Cache.read *)
| step_read_hit w d b k ctx bytes c : w_disks w !! d = Some k -> has_block k b -> upper k b = true -> free_shared w d b ->
    read_page ctx (d, b) (w_cache w) = ReadHit bytes c ->
    step w (Observed d [(b, bytes)]) (set_cache c w)
| step_read_lower w d b k : w_disks w !! d = Some k -> has_block k b -> upper k b = false -> free_shared w d b ->
    step w (Observed d [(b, lower k d b)]) w
| step_load w d first n k ctx r c : w_disks w !! d = Some k -> (n <= maxColdPages)%nat ->
    (forall b, first <= b < first + Z.of_nat n -> has_block k b /\ upper k b = true /\ free_shared w d b) ->
    checkLocked ctx (w_cache w) = Ok tt -> reserve_run n d first (w_cache w) = (r, c) ->
    step w Silent (set_loads (mkLoad d first r None :: w_loads w) (set_cache c w))
| step_load_io w l1 x l2 k io : w_loads w = l1 ++ x :: l2 -> ld_io x = None -> w_disks w !! ld_disk x = Some k ->
    reads (df_block (dk_file k)) io ->
    step w Silent (set_loads (l1 ++ loaded io x :: l2) w)
| step_load_ok w l1 x l2 ctx fill c : w_loads w = l1 ++ x :: l2 -> ld_io x = Some (Ok fill) ->
    publish_run ctx (Ok fill) (load_keys x) (w_cache w) = (Ok tt, c) ->
    step w (Observed (ld_disk x) ((fun b => (b, fill b)) <$> blocks_of (ld_first x) (length (ld_reserved x)))) (set_loads (l1 ++ l2) (set_cache c w))
| step_load_err w l1 x l2 ctx io e c : w_loads w = l1 ++ x :: l2 -> ld_io x = Some io ->
    publish_run ctx io (load_keys x) (w_cache w) = (Err e, c) ->
    step w Silent (set_loads (l1 ++ l2) (set_cache c w))
(* writeBlockLocked and Cache.write *)
| step_write_now w d b off buf k ctx c : w_disks w !! d = Some k -> has_block k b -> part_of b off buf -> free_excl w d b ->
    write_admit ctx (d, b) off buf (upper k b) (w_cache w) = AdmitDone c ->
    step w (Wrote d off buf) (set_cache c w)
| step_write_retry w d b off buf k ctx c : w_disks w !! d = Some k -> free_excl w d b ->
    write_admit ctx (d, b) off buf (upper k b) (w_cache w) = AdmitRetry c ->
    step w Silent (set_cache c w)
| step_write w d b off buf k ctx c : w_disks w !! d = Some k -> has_block k b -> part_of b off buf -> free_excl w d b ->
    write_admit ctx (d, b) off buf (upper k b) (w_cache w) = AdmitInit c ->
    step w Silent (set_writes (mkPending (d, b) off buf (upper k b) None :: w_writes w) (set_cache c w))
| step_write_io w l1 x l2 k p bytes stored low : w_writes w = l1 ++ x :: l2 -> pd_io x = None ->
    w_disks w !! (pd_key x).1 = Some k -> ca_pages (w_cache w) !! pd_key x = Some p -> pg_data p = Some bytes ->
    reads (df_block (dk_file k) (pd_key x).2) stored -> reads (lower k (pd_key x).1 (pd_key x).2) low ->
    step w Silent (set_writes (l1 ++ filled (init_page (pd_off x) (pd_buf x) (pd_upper x) stored low bytes) x :: l2) w)
| step_write_ok w l1 x l2 ctx io k c : w_writes w = l1 ++ x :: l2 -> pd_io x = Some io -> w_disks w !! (pd_key x).1 = Some k ->
    write_publish ctx (pd_key x) (pd_off x) (pd_buf x) io (w_cache w) = (Ok tt, c) ->
    step w (Wrote (pd_key x).1 (pd_off x) (pd_buf x))
      (set_writes (l1 ++ l2) (set_disk (pd_key x).1 (with_bitmap (markDirty (pd_key x).2 (dk_bitmap k)) k) (set_cache c w)))
| step_write_err w l1 x l2 ctx io e c : w_writes w = l1 ++ x :: l2 -> pd_io x = Some io ->
    write_publish ctx (pd_key x) (pd_off x) (pd_buf x) io (w_cache w) = (Err e, c) ->
    step w Silent (set_writes (l1 ++ l2) (set_cache c w))
(* Disk.Discard over a versioned file, and stageZero *)
| step_zero w d b k ctx c : w_disks w !! d = Some k -> has_block k b -> versions d = true -> dk_ready k = true -> free_excl w d b ->
    stageZero ctx (d, b) (w_cache w) = AdmitDone c ->
    step w (Discarded d b b) (set_disk d (with_bitmap (markDirty b (dk_bitmap k)) k) (set_cache c w))
| step_zero_retry w d b k ctx c : w_disks w !! d = Some k -> free_excl w d b ->
    stageZero ctx (d, b) (w_cache w) = AdmitRetry c ->
    step w Silent (set_cache c w)
(* Cache.discard, for a guest or for the zeros of a template *)
| step_discard w d first last k ctx (tmpl : bool) keys c : w_disks w !! d = Some k -> dk_ready k = true ->
    0 <= first <= last -> last < df_blocks (dk_file k) -> last - first < maxDiscardPages ->
    (forall b, first <= b <= last -> free_excl w d b) ->
    (if tmpl then dk_material k <> None /\ forall b, first <= b <= last -> upper k b = false /\ template d b = Some zeroPage else True) ->
    discard_freeze ctx d first last (w_cache w) = Frozen keys c ->
    step w Silent (set_discards (mkDiscarding d first last tmpl keys None :: w_discards w) (set_cache c w))
| step_discard_io w l1 x l2 k r f : w_discards w = l1 ++ x :: l2 -> dc_io x = None -> w_disks w !! dc_disk x = Some k ->
    df_discard (dc_first x) (dc_last x) (dk_file k) r f ->
    step w Silent (set_discards (l1 ++ discarded r x :: l2) (set_disk (dc_disk x) (with_file f k) w))
| step_discard_ok w l1 x l2 k : w_discards w = l1 ++ x :: l2 -> dc_io x = Some (Ok tt) -> w_disks w !! dc_disk x = Some k ->
    step w (if dc_template x then Silent else Discarded (dc_disk x) (dc_first x) (dc_last x))
      (set_discards (l1 ++ l2) (set_disk (dc_disk x) (with_bitmap (mark_all (range_of (dc_first x) (dc_last x)) (dk_bitmap k)) k)
        (set_cache (discard_finish (Ok tt) (dc_keys x) (w_cache w)) w)))
| step_discard_err w l1 x l2 e : w_discards w = l1 ++ x :: l2 -> dc_io x = Some (Err e) ->
    step w Silent (set_discards (l1 ++ l2) (set_cache (discard_finish (Err e) (dc_keys x) (w_cache w)) w))
(* the materializer *)
| step_material w d first last k r f : w_disks w !! d = Some k -> dk_ready k = true -> dk_material k <> None ->
    0 <= first <= last -> last < df_blocks (dk_file k) -> last - first < Z.of_nat maxWritebackPages ->
    (forall b, first <= b <= last -> free_excl w d b /\ template d b <> None) ->
    material_pages k d first last <> [] -> df_write (material_pages k d first last) (dk_file k) r f ->
    step w Silent (set_disk d (match r with
      | Ok _ => with_bitmap (mark_all (pw_block <$> material_pages k d first last) (dk_bitmap k)) (with_file f k)
      | Err _ => with_file f k
      end) w)
| step_material_next w d k n : w_disks w !! d = Some k -> dk_material k = Some n -> template d n = None \/ upper k n = true ->
    step w Silent (set_disk d (with_material (Some (n + 1)) k) w)
| step_material_done w d k n : w_disks w !! d = Some k -> dk_material k = Some n -> df_blocks (dk_file k) <= n ->
    step w Silent (set_disk d (with_material None k) w)
(* the owner of the file *)
| step_ready w d k f : w_disks w !! d = Some k -> df_quiet (dk_file k) f ->
    step w Silent (set_disk d (mkDisk (dk_bitmap k) f true (dk_material k)) w)
| step_quiet w d k f : w_disks w !! d = Some k -> df_quiet (dk_file k) f -> step w Silent (set_disk d (with_file f k) w)
(* markModified, propagateBackendFailure, runMaterializer *)
| step_fail w e : step w Silent (set_cache (failLocked e (w_cache w)) w)
(* Cache.run *)
| step_select w d zero batch c : w_worker w = WorkerIdle -> select_batch (ready w) (w_cache w) = Some (d, zero, batch, c) ->
    step w Silent (set_worker (WorkerWrite d batch false) (set_cache c w))
| step_batch_io w d batch retry k r f : w_worker w = WorkerWrite d batch retry -> ca_err (w_cache w) = None -> w_disks w !! d = Some k ->
    df_write (record_of (w_cache w) <$> batch) (dk_file k) r f ->
    step w Silent (set_worker (after_write (w_cache w) d batch retry f r) (set_disk d (with_file f k) w))
| step_batch_skip w d batch retry e : w_worker w = WorkerWrite d batch retry -> ca_err (w_cache w) = Some e ->
    step w Silent (set_worker (WorkerFailed d batch [] e) w)
| step_batch_end w d batch : w_worker w = WorkerWritten d batch ->
    step w Silent (set_worker (match ca_err (w_cache w) with None => WorkerIdle | Some _ => WorkerStopped batch end)
      (set_cache (finish_batch batch (w_cache w)) w))
(* repairSpacePressure *)
| step_repair w d batch cohort c : w_worker w = WorkerPressed d batch -> ca_err (w_cache w) = None -> repair_freeze d (w_cache w) = (cohort, c) ->
    step w Silent (set_worker (WorkerRepair d batch cohort) (set_cache c w))
| step_repair_skip w d batch e : w_worker w = WorkerPressed d batch -> ca_err (w_cache w) = Some e ->
    step w Silent (set_worker (WorkerFailed d batch [] e) w)
| step_repair_io w d batch cohort k r f : w_worker w = WorkerRepair d batch cohort -> cohort <> [] -> ca_err (w_cache w) = None ->
    w_disks w !! d = Some k -> df_write (zero_record <$> take maxWritebackMutations cohort) (dk_file k) r f ->
    step w Silent (set_worker (match r with
        | Ok _ => WorkerRepaired d batch (take maxWritebackMutations cohort) (drop maxWritebackMutations cohort)
        | Err e => WorkerFailed d batch cohort e
        end) (set_disk d (with_file f k) w))
| step_repair_io_skip w d batch cohort e : w_worker w = WorkerRepair d batch cohort -> cohort <> [] -> ca_err (w_cache w) = Some e ->
    step w Silent (set_worker (WorkerFailed d batch cohort e) w)
| step_repair_end w d batch part cohort : w_worker w = WorkerRepaired d batch part cohort -> ca_err (w_cache w) = None ->
    step w Silent (set_worker (WorkerRepair d batch cohort) (set_cache (completeWritebackLocked part (w_cache w)) w))
| step_repair_end_skip w d batch part cohort e : w_worker w = WorkerRepaired d batch part cohort -> ca_err (w_cache w) = Some e ->
    step w Silent (set_worker (WorkerFailed d batch (part ++ cohort) e) w)
| step_repair_done w d batch : w_worker w = WorkerRepair d batch [] -> step w Silent (set_worker (WorkerWrite d batch true) w)
(* a failure *)
| step_worker_fail w d batch others e : w_worker w = WorkerFailed d batch others e ->
    step w Silent (set_worker (WorkerCleanup d batch others) (set_cache (failLocked e (w_cache w)) w))
| step_cleanup w d batch others k f : w_worker w = WorkerCleanup d batch others -> w_disks w !! d = Some k ->
    df_cleanup (record_of (w_cache w) <$> batch) (dk_file k) f ->
    step w Silent (set_worker (WorkerStopped (batch ++ others)) (set_disk d (with_file f k) (set_cache (set_active None (w_cache w)) w)))
(* attachDisk, Disk.Close, Cache.Close *)
| step_attach w d k c : w_disks w !! d = None -> attach d (w_cache w) = Ok c -> df_ok (dk_file k) ->
    df_blocks (dk_file k) <= 64 * Z.of_nat (length (dk_bitmap k)) -> (forall b, has_block k b -> upper k b = df_present (dk_file k) b) ->
    dk_material k = None \/ dk_material k = Some 0 ->
    step w (Attached d (fun b => if upper k b then df_block (dk_file k) b else lower k d b)) (set_disk d k (set_cache c w))
| step_detach w d : is_Some (w_disks w !! d) ->
    (forall x, x ∈ w_loads w -> ld_disk x <> d) -> (forall x, x ∈ w_writes w -> (pd_key x).1 <> d) -> (forall x, x ∈ w_discards w -> dc_disk x <> d) ->
    ca_active (w_cache w) <> Some d ->
    step w (Detached d) (mkWorld (detach d (w_cache w)) (delete d (w_disks w)) (w_loads w) (w_writes w) (w_discards w) (detach_worker d (w_worker w)))
| step_close w c : cache_Close (w_cache w) = Ok c -> step w Silent (set_cache c w).

Inductive steps : world -> list event -> world -> Prop :=
| steps_nil w : steps w [] w
| steps_snoc w l w1 ev w2 : steps w l w1 -> step w1 ev w2 -> steps w (l ++ [ev]) w2.
Definition start (c : PageCache) : world := mkWorld c ∅ [] [] [] WorkerIdle.

(** ** The disks as their users see them *)

(** The bytes of each block of each disk. *)
Definition contents : Type := Z -> Z -> list Z.
Definition a_put (d b : Z) (bytes : list Z) (A : contents) : contents :=
  fun d' b' => if (d' =? d) && (b' =? b) then bytes else A d' b'.
Definition a_apply (ev : event) (A : contents) : contents :=
  match ev with
  | Wrote d off buf => a_put d (off / PageSize) (Page.put (Z.to_nat (off mod PageSize)) buf (A d (off / PageSize))) A
  | Discarded d first last => fun d' b' => if (d' =? d) && (first <=? b') && (b' <=? last) then zeroPage else A d' b'
  | Attached d f => fun d' b' => if d' =? d then f b' else A d' b'
  | _ => A
  end.
(** What a reader is shown is what the disk holds. *)
Definition a_shows (ev : event) (A : contents) : Prop :=
  match ev with Observed d l => forall b bytes, (b, bytes) ∈ l -> A d b = bytes | _ => True end.
Inductive history : contents -> list event -> contents -> Prop :=
| history_nil A : history A [] A
| history_snoc A l A1 ev : history A l A1 -> a_shows ev A1 -> history A (l ++ [ev]) (a_apply ev A1).
End Steps.
