(* ===== verification/WriteBackShape.v ===== *)
(** * WriteBackShape: the parts of the invariant of the cached disks.

    Who owns which page, which blocks a pending call covers, and what is known of the
    bytes of a block by the state of its page. *)
From stdpp Require Import base numbers list gmap strings.
From Stdlib Require Import ZArith Lia.
From S2P Require Import Prelude Page Presence Format WriteBack WriteBackInv WriteBackSteps.

(** ** The bitmap *)

Lemma markDirty_spec b m b' : 0 <= b < 64 * Z.of_nat (length m) -> 0 <= b' ->
  blockDirty (markDirty b m) b' = (b =? b') || blockDirty m b'.
Proof.
  intros Hb Hb'. unfold blockDirty, markDirty. destruct (decide (b / 64 = b' / 64)) as [E|E].
  - rewrite <-E, list_lookup_alter_eq. destruct (m !! Z.to_nat (b / 64)) as [v|] eqn:Hv.
    + simpl. rewrite Z.lor_spec, Z.pow2_bits_eqb by (apply Z.mod_pos_bound; lia). rewrite orb_comm. f_equal.
      destruct (Z.eqb_spec (b mod 64) (b' mod 64)), (Z.eqb_spec b b'); try done; [|subst; done]. div_lia.
    + apply lookup_ge_None in Hv. div_lia.
  - rewrite list_lookup_alter_ne by div_lia. destruct (Z.eqb_spec b b'); [subst; done|done].
Qed.
Lemma markDirty_length b m : length (markDirty b m) = length m.
Proof. apply length_alter. Qed.
Lemma mark_all_length l : forall m, length (mark_all l m) = length m.
Proof. unfold mark_all. induction l as [|b l IH]; intros m; simpl; [done|]. by rewrite IH, markDirty_length. Qed.
Lemma mark_all_spec l : forall m b', Forall (fun b => 0 <= b < 64 * Z.of_nat (length m)) l -> 0 <= b' ->
  blockDirty (mark_all l m) b' = bool_decide (b' ∈ l) || blockDirty m b'.
Proof.
  unfold mark_all. induction l as [|b l IH]; intros m b' Hl Hb'; simpl; [done|]. apply Forall_cons in Hl as [Hb Hl].
  rewrite IH by (rewrite ?markDirty_length; done). rewrite markDirty_spec by done.
  destruct (Z.eqb_spec b b') as [->|]; simpl; [rewrite (bool_decide_true (b' ∈ b' :: l)) by set_solver; apply orb_true_r|].
  f_equal. apply bool_decide_ext. set_solver.
Qed.
Lemma range_elem first last b : b ∈ range_of first last <-> first <= b <= last.
Proof.
  unfold range_of, blocks_of. rewrite list_elem_of_fmap. setoid_rewrite elem_of_seq. split.
  - intros (i & -> & Hi). lia.
  - intros Hb. exists (Z.to_nat (b - first)). lia.
Qed.
Lemma range_NoDup first last : NoDup (range_of first last).
Proof. unfold range_of, blocks_of. apply NoDup_fmap_2; [intros x y; lia|apply NoDup_seq]. Qed.

Section Shape.
Context {F : Type} {DF : DiffFile F}.
Notation world := (@world F).
Notation disk := (@disk F).
Implicit Types (w : world) (k : disk) (A : contents).

(** ** What a state looks like *)

Definition page_at w (d b : Z) : option cachePage := ca_pages (w_cache w) !! (d, b).
(** The worker wrote these pages and did not complete them yet. *)
Definition written_keys (x : worker) : list cacheKey :=
  match x with WorkerWritten _ batch => batch | WorkerRepaired _ _ part _ => part | _ => [] end.
(** The pages of a batch are of one disk and one kind. *)
Definition uniform w (d : Z) (z : bool) (l : list cacheKey) : Prop :=
  forall x, x ∈ l -> x.1 = d /\ pg_zero <$> ca_pages (w_cache w) !! x = Some z.
Definition batch_fits w (d : Z) (batch : list cacheKey) : Prop :=
  batch <> [] /\ exists z, uniform w d z batch /\ (length batch <= limit_of z)%nat.
Definition worker_ok w : Prop :=
  match w_worker w with
  | WorkerIdle => True
  | WorkerWrite d batch _ | WorkerWritten d batch | WorkerPressed d batch =>
      ca_active (w_cache w) = Some d /\ is_Some (w_disks w !! d) /\ batch_fits w d batch
  | WorkerRepair d batch cohort => ca_active (w_cache w) = Some d /\ is_Some (w_disks w !! d) /\ batch_fits w d batch /\ uniform w d true cohort
  | WorkerRepaired d batch part cohort =>
      ca_active (w_cache w) = Some d /\ is_Some (w_disks w !! d) /\ batch_fits w d batch /\ uniform w d true part /\ uniform w d true cohort
  | WorkerFailed d batch others _ => ca_active (w_cache w) = Some d /\ is_Some (w_disks w !! d) /\ forall x, x ∈ batch ++ others -> x.1 = d
  | WorkerCleanup d batch others =>
      (ca_active (w_cache w) = Some d /\ is_Some (w_disks w !! d) /\ forall x, x ∈ batch ++ others -> x.1 = d) /\ ca_err (w_cache w) <> None
  | WorkerStopped _ => ca_err (w_cache w) <> None
  end.
Definition load_static w (x : load) : Prop :=
  exists k, w_disks w !! ld_disk x = Some k /\ forall b, in_load (ld_disk x) b x -> has_block k b.
Definition discard_static w (x : discarding) : Prop :=
  exists k, w_disks w !! dc_disk x = Some k /\ 0 <= dc_first x <= dc_last x /\ dc_last x < df_blocks (dk_file k) /\
    forall y, y ∈ dc_keys x -> in_discard y.1 y.2 x.
Definition disk_static k : Prop := df_ok (dk_file k) /\ df_blocks (dk_file k) <= 64 * Z.of_nat (length (dk_bitmap k)).
Record static w : Prop := {
  st_cache : cache_inv (owned w) (w_cache w);
  st_disk : forall d k, w_disks w !! d = Some k -> disk_static k;
  st_page : forall d b p, page_at w d b = Some p -> exists k, w_disks w !! d = Some k /\ has_block k b;
  st_load : forall x, x ∈ w_loads w -> load_static w x;
  st_write : forall x, x ∈ w_writes w -> part_of (pd_key x).2 (pd_off x) (pd_buf x);
  st_discard : forall x, x ∈ w_discards w -> discard_static w x;
  st_worker : worker_ok w }.
(** The discards of a block. *)
#[export] Instance in_discard_dec d b x : Decision (in_discard d b x).
Proof. unfold in_discard. apply _. Defined.
Definition covering (d b : Z) (l : list discarding) : list discarding := filter (in_discard d b) l.
Lemma covering_elem d b l x : x ∈ covering d b l <-> in_discard d b x /\ x ∈ l.
Proof. apply list_elem_of_filter. Qed.
Lemma covering_none d b l : (forall x, x ∈ l -> ~ in_discard d b x) -> covering d b l = [].
Proof.
  intros Hn. unfold covering. induction l as [|x l IH]; [done|]. rewrite filter_cons_False by (apply Hn; set_solver). apply IH. set_solver.
Qed.
(** Nobody changes the page. *)
Definition calm (so : option cacheState) : Prop := so = None \/ so = Some cacheLoading \/ so = Some cacheClean.
(** The bytes [a] of a block, by the state of its page. *)
Definition cell k (b : Z) (po : option cachePage) (a : list Z) : Prop :=
  let settled := upper k b = true -> df_present (dk_file k) b = true /\ a = df_block (dk_file k) b in
  match po with
  | None => settled
  | Some p =>
      match pg_state p with
      | cacheLoading | cacheConstructing => settled
      | cacheClean => settled /\ page_bytes p = df_block (dk_file k) b
      | cacheDirty | cacheWriteback => a = page_bytes p
      | cacheDiscarding => True
      end
  end.
Record healthy w A (d : Z) k (b : Z) : Prop := {
  he_cell : (forall x, x ∈ w_discards w -> ~ in_discard d b x) -> cell k b (page_at w d b) (A d b);
  he_load : forall x fill, x ∈ w_loads w -> in_load d b x -> ld_io x = Some (Ok fill) -> fill b = df_block (dk_file k) b;
  he_write : forall x bytes, x ∈ w_writes w -> pd_key x = (d, b) -> pd_io x = Some (Ok bytes) -> is_page bytes /\
    Page.put (Z.to_nat (pd_off x mod PageSize)) (pd_buf x) bytes = Page.put (Z.to_nat (pd_off x mod PageSize)) (pd_buf x) (A d b);
  he_discard : forall x, x ∈ w_discards w -> in_discard d b x -> dc_io x = Some (Ok tt) ->
    df_block (dk_file k) b = zeroPage /\ df_present (dk_file k) b = true;
  he_written : (d, b) ∈ written_keys (w_worker w) -> forall p, page_at w d b = Some p ->
    df_block (dk_file k) b = page_bytes p /\ df_present (dk_file k) b = true }.
Lemma cell_evicted k k' b c c' d a : same_or_evicted c c' (d, b) -> upper k' b = upper k b -> df_kept (dk_file k) (dk_file k') b ->
  cell k b (ca_pages c !! (d, b)) a -> cell k' b (ca_pages c' !! (d, b)) a.
Proof.
  unfold cell. intros E Hu [Hb Hp]. rewrite Hu, Hb, Hp. destruct E as [->|[-> Hs]]; [done|].
  destruct (ca_pages c !! (d, b)) as [p|]; [|done]. simpl in Hs. injection Hs as ->. tauto.
Qed.

(** ** Disks *)

Definition disks_kept w w' : Prop :=
  forall d k, w_disks w !! d = Some k -> exists k', w_disks w' !! d = Some k' /\ df_blocks (dk_file k') = df_blocks (dk_file k).
Lemma disks_kept_refl w w' : w_disks w' = w_disks w -> disks_kept w w'.
Proof. intros E d k Hk. exists k. by rewrite E. Qed.
Lemma disks_kept_set w w' d k k' : w_disks w !! d = Some k -> w_disks w' = <[d := k']> (w_disks w) ->
  df_blocks (dk_file k') = df_blocks (dk_file k) -> disks_kept w w'.
Proof.
  intros Hk E Hb d' k0 Hk0. rewrite E. destruct (decide (d = d')) as [->|Hne].
  - exists k'. rewrite lookup_insert_eq. split; [done|]. congruence.
  - exists k0. by rewrite lookup_insert_ne.
Qed.
Lemma load_static_kept w w' x : disks_kept w w' -> load_static w x -> load_static w' x.
Proof. intros D (k & Hk & Hb). destruct (D _ _ Hk) as (k' & Hk' & E). exists k'. split; [done|]. unfold has_block in *. by rewrite E. Qed.
Lemma discard_static_kept w w' x : disks_kept w w' -> discard_static w x -> discard_static w' x.
Proof. intros D (k & Hk & Hb). destruct (D _ _ Hk) as (k' & Hk' & E). exists k'. split; [done|]. by rewrite E. Qed.
Lemma page_kept w w' d b k : disks_kept w w' -> w_disks w !! d = Some k -> has_block k b -> exists k', w_disks w' !! d = Some k' /\ has_block k' b.
Proof. intros D Hk Hb. destruct (D _ _ Hk) as (k' & Hk' & E). exists k'. split; [done|]. unfold has_block in *. by rewrite E. Qed.
Lemma worker_kept w w' : disks_kept w w' -> ca_active (w_cache w') = ca_active (w_cache w) -> (ca_err (w_cache w') = None -> ca_err (w_cache w) = None) ->
  w_worker w' = w_worker w ->
  (forall x, x ∈ worker_keys (w_worker w) -> pg_zero <$> ca_pages (w_cache w') !! x = pg_zero <$> ca_pages (w_cache w) !! x) ->
  worker_ok w -> worker_ok w'.
Proof.
  intros D Ha He Ew Hz. unfold worker_ok, batch_fits, uniform. rewrite Ew, Ha.
  assert (forall d, is_Some (w_disks w !! d) -> is_Some (w_disks w' !! d)) as Hd.
  { intros d [k Hk]. destruct (D _ _ Hk) as (k' & Hk' & _). by exists k'. }
  destruct (w_worker w); simpl in *; try done; intros; destruct_and?.
  all: repeat match goal with |- _ /\ _ => split | _ => progress eauto end.
  all: repeat match goal with H : exists z, _ |- exists z, _ => let z := fresh in destruct H as (z & ? & ?); exists z; split; [|done] end.
  all: intros x Hx; match goal with H : forall x, x ∈ ?l -> _ /\ _, H' : _ ∈ ?l |- _ => destruct (H _ H') end.
  all: split; [done|]; rewrite Hz; [done|]; set_solver.
Qed.
(** Pages in writeback belong to the worker. *)
Lemma worker_page w x : cache_inv (owned w) (w_cache w) -> x ∈ worker_keys (w_worker w) ->
  pg_state <$> ca_pages (w_cache w) !! x = Some cacheWriteback.
Proof. intros I Hx. by apply (ci_where _ _ I cacheWriteback x). Qed.
Lemma worker_same_or_evicted w c x : cache_inv (owned w) (w_cache w) -> x ∈ worker_keys (w_worker w) -> same_or_evicted (w_cache w) c x ->
  pg_zero <$> ca_pages c !! x = pg_zero <$> ca_pages (w_cache w) !! x.
Proof. intros I Hx [->|[_ E]]; [done|]. by rewrite (worker_page w x I Hx) in E. Qed.
(** The disks are the same, with the same size. *)
Definition same_disks w w' : Prop :=
  forall d, match w_disks w !! d, w_disks w' !! d with
  | Some k, Some k' => df_blocks (dk_file k') = df_blocks (dk_file k) /\ (disk_static k -> disk_static k')
  | None, None => True
  | _, _ => False
  end.
Lemma same_disks_refl w w' : w_disks w' = w_disks w -> same_disks w w'.
Proof. intros E d. rewrite E. by destruct (w_disks w !! d). Qed.
Lemma same_disks_set w w' d k k' : w_disks w !! d = Some k -> w_disks w' = <[d := k']> (w_disks w) ->
  df_blocks (dk_file k') = df_blocks (dk_file k) -> (disk_static k -> disk_static k') -> same_disks w w'.
Proof.
  intros Hk E Hb Hs d'. rewrite E. destruct (decide (d = d')) as [<-|].
  - by rewrite lookup_insert_eq, Hk.
  - rewrite lookup_insert_ne by done. by destruct (w_disks w !! d').
Qed.
Lemma same_disks_kept w w' : same_disks w w' -> disks_kept w w'.
Proof. intros D d k Hk. specialize (D d). rewrite Hk in D. destruct (w_disks w' !! d) as [k'|]; [|done]. exists k'. by destruct D. Qed.

(** ** Who owns a page *)

Lemma load_page w x y : cache_inv (owned w) (w_cache w) -> x ∈ w_loads w -> y ∈ load_keys x -> pg_state <$> ca_pages (w_cache w) !! y = Some cacheLoading.
Proof. intros I Hx Hy. apply (ci_where _ _ I cacheLoading y). simpl. apply elem_of_concat. exists (load_keys x). split; [done|]. by apply list_elem_of_fmap_2. Qed.
Lemma write_page w x : cache_inv (owned w) (w_cache w) -> x ∈ w_writes w -> pg_state <$> ca_pages (w_cache w) !! pd_key x = Some cacheConstructing.
Proof. intros I Hx. apply (ci_where _ _ I cacheConstructing _). simpl. by apply list_elem_of_fmap_2. Qed.
Lemma discard_page w x y : cache_inv (owned w) (w_cache w) -> x ∈ w_discards w -> y ∈ dc_keys x -> pg_state <$> ca_pages (w_cache w) !! y = Some cacheDiscarding.
Proof. intros I Hx Hy. apply (ci_where _ _ I cacheDiscarding y). simpl. apply elem_of_concat. exists (dc_keys x). split; [done|]. by apply list_elem_of_fmap_2. Qed.
Lemma written_subset x : forall y, y ∈ written_keys x -> y ∈ worker_keys x.
Proof. intros y. destruct x; simpl; set_solver. Qed.
Lemma concat_middle {B C} (f : B -> list C) l1 x l2 : concat (f <$> l1 ++ x :: l2) ≡ₚ concat (f <$> l1 ++ l2) ++ f x.
Proof. rewrite !fmap_app, fmap_cons, !concat_app, <-app_assoc. simpl. f_equiv. apply Permutation_app_comm. Qed.
Lemma owned_load w w' l1 x l2 : w_loads w = l1 ++ x :: l2 -> w_loads w' = l1 ++ l2 -> w_writes w' = w_writes w ->
  w_discards w' = w_discards w -> w_worker w' = w_worker w -> forall s, owned w s ≡ₚ lend cacheLoading (load_keys x) (owned w') s.
Proof.
  intros E1 E2 E3 E4 E5 []; rewrite ?lend_eq, ?lend_ne by done; simpl; rewrite ?E1, ?E2, ?E3, ?E4, ?E5; try done.
  apply (concat_middle load_keys).
Qed.
Lemma owned_write w w' l1 x l2 : w_writes w = l1 ++ x :: l2 -> w_writes w' = l1 ++ l2 -> w_loads w' = w_loads w ->
  w_discards w' = w_discards w -> w_worker w' = w_worker w -> forall s, owned w s ≡ₚ lend cacheConstructing [pd_key x] (owned w') s.
Proof.
  intros E1 E2 E3 E4 E5 []; rewrite ?lend_eq, ?lend_ne by done; simpl; rewrite ?E1, ?E2, ?E3, ?E4, ?E5; try done.
  rewrite !fmap_app, fmap_cons, <-app_assoc. f_equiv. apply (Permutation_app_comm [pd_key x]).
Qed.
Lemma owned_discard w w' l1 x l2 : w_discards w = l1 ++ x :: l2 -> w_discards w' = l1 ++ l2 -> w_writes w' = w_writes w ->
  w_loads w' = w_loads w -> w_worker w' = w_worker w -> forall s, owned w s ≡ₚ lend cacheDiscarding (dc_keys x) (owned w') s.
Proof.
  intros E1 E2 E3 E4 E5 []; rewrite ?lend_eq, ?lend_ne by done; simpl; rewrite ?E1, ?E2, ?E3, ?E4, ?E5; try done.
  apply (concat_middle dc_keys).
Qed.
Lemma owned_worker w w' l : worker_keys (w_worker w) ≡ₚ worker_keys (w_worker w') ++ l -> w_writes w' = w_writes w ->
  w_loads w' = w_loads w -> w_discards w' = w_discards w -> forall s, owned w s ≡ₚ lend cacheWriteback l (owned w') s.
Proof. intros E1 E2 E3 E4 []; rewrite ?lend_eq, ?lend_ne by done; simpl; rewrite ?E2, ?E3, ?E4; done. Qed.
Lemma give_out own own' c : (forall s, own' s ≡ₚ own s) -> cache_inv own c -> cache_inv own' c.
Proof. intros E. apply cache_inv_perm. intros s _. apply E. Qed.
(** A page that is absent or clean has no pending write and is not being written back. *)
Lemma not_written w (x : cacheKey) : cache_inv (owned w) (w_cache w) -> pg_state <$> ca_pages (w_cache w) !! x <> Some cacheWriteback ->
  x ∉ written_keys (w_worker w).
Proof. intros I Hs Hx. apply Hs, (worker_page w x I), written_subset, Hx. Qed.

(** ** Stripes *)

Lemma free_no_write w d b x : free_shared w d b -> x ∈ w_writes w -> pd_key x <> (d, b).
Proof. intros [Hf _] Hx E. apply (Hf x Hx); by rewrite E. Qed.
Lemma free_no_discard w d b x : free_shared w d b -> x ∈ w_discards w -> ~ in_discard d b x.
Proof. intros [_ Hf] Hx E. by apply (Hf x b Hx E). Qed.
Lemma free_no_load w d b x : free_excl w d b -> x ∈ w_loads w -> ~ in_load d b x.
Proof. intros [_ Hf] Hx E. by apply (Hf x b Hx E). Qed.
Lemma checked ctx c : checkLocked ctx c = Ok tt -> ca_err c = None.
Proof. unfold checkLocked. by destruct (ca_err c). Qed.
Lemma middle_elem {B} (x y : B) l1 l2 : y ∈ l1 ++ l2 -> y ∈ l1 ++ x :: l2.
Proof. set_solver. Qed.
Lemma blocks_of_elem first n b : b ∈ blocks_of first n <-> first <= b < first + Z.of_nat n.
Proof.
  unfold blocks_of. rewrite list_elem_of_fmap. setoid_rewrite elem_of_seq. split.
  - intros (i & -> & Hi). lia.
  - intros Hb. exists (Z.to_nat (b - first)). lia.
Qed.
(** The bytes of a page that can be read. *)
Lemma cell_shown k b p a : upper k b = true -> cell k b (Some p) a -> pg_state p = cacheClean \/ pg_state p = cacheDirty \/ pg_state p = cacheWriteback ->
  a = page_bytes p.
Proof. intros Hu C [Hs|[Hs|Hs]]; unfold cell in C; rewrite Hs in C; [|done..]. destruct C as [C ->]. by apply C. Qed.
Lemma not_worker w (x : cacheKey) : cache_inv (owned w) (w_cache w) -> pg_state <$> ca_pages (w_cache w) !! x <> Some cacheWriteback ->
  x ∉ worker_keys (w_worker w).
Proof. intros I Hs Hx. by apply Hs, (worker_page w x I). Qed.
Lemma a_put_eq d b x A : a_put d b x A d b = x.
Proof. unfold a_put. by rewrite !Z.eqb_refl. Qed.
Lemma a_put_ne d b x A d' b' : (d', b') <> (d, b) -> a_put d b x A d' b' = A d' b'.
Proof. intros E. unfold a_put. destruct (Z.eqb_spec d' d), (Z.eqb_spec b' b); simpl; congruence. Qed.
Lemma pending_unique w l1 x l2 y : cache_inv (owned w) (w_cache w) -> w_writes w = l1 ++ x :: l2 -> y ∈ l1 ++ l2 -> pd_key y <> pd_key x.
Proof.
  intros I E Hy Ek. pose proof (ci_once _ _ I cacheConstructing) as N. simpl in N. rewrite E, fmap_app, fmap_cons in N.
  apply NoDup_app in N as (_ & N1 & N2). apply NoDup_cons in N2 as [N2 _]. apply elem_of_app in Hy as [Hy|Hy].
  - apply (N1 (pd_key y)); [by apply list_elem_of_fmap_2|]. rewrite Ek. set_solver.
  - apply N2. rewrite <-Ek. by apply list_elem_of_fmap_2.
Qed.
Lemma put_whole buf b : length buf = page_len -> length b = page_len -> Page.put 0 buf b = buf.
Proof. intros Hp Hb. unfold Page.put. simpl. rewrite drop_ge, take_ge by lia. apply app_nil_r. Qed.
Lemma marked k b b' : disk_static k -> has_block k b -> has_block k b' ->
  upper (with_bitmap (markDirty b (dk_bitmap k)) k) b' = (b =? b') || upper k b'.
Proof. intros [_ Hl] Hb Hb'. unfold upper, has_block in *. simpl. apply markDirty_spec; lia. Qed.
Lemma covering_middle d b l1 x l2 : in_discard d b x -> (length (covering d b (l1 ++ x :: l2)) <= 1)%nat -> forall y, y ∈ l1 ++ l2 -> ~ in_discard d b y.
Proof.
  intros Hx Hl y Hy Hd. unfold covering in Hl. rewrite filter_app, filter_cons_True, length_app in Hl by done. simpl in Hl.
  assert (y ∈ filter (in_discard d b) (l1 ++ l2)) as X by by apply list_elem_of_filter.
  rewrite filter_app in X. destruct (filter (in_discard d b) l1), (filter (in_discard d b) l2); simpl in *; try lia. set_solver.
Qed.
End Shape.
