(* ===== verification/WriteBackSound.v ===== *)
(** * WriteBackSound: the cached disks behave like plain disks.

    [sound w A]: the contents [A] that the users of the disks can rely on are what the
    cache, the files and the lower layers hold together, at every point of every
    interleaving.  The invariant is a static part (ownership, quotas, ranges) and one
    statement per block; a step is sound when the blocks it touches are, because the
    statement of any other block carries over ([block_frame]). *)
From stdpp Require Import base numbers list gmap strings.
From Stdlib Require Import ZArith Lia.
From S2P Require Import Prelude Page Presence Format WriteBack WriteBackInv WriteBackSteps WriteBackShape.

Section Sound.
Context {F : Type} {DF : DiffFile F} (base : Z -> Z -> list Z) (template : Z -> Z -> option (list Z)).
Notation world := (@world F).
Notation disk := (@disk F).
Notation lower := (lower base template).
Implicit Types (w : world) (k : disk) (A : contents).

(** ** The invariant *)

Record block_sound w A (d : Z) k (b : Z) : Prop := {
  bs_upper : forall p, page_at w d b = Some p -> pg_state p <> cacheConstructing -> upper k b = true;
  bs_load : forall x, x ∈ w_loads w -> in_load d b x -> upper k b = true /\ calm (pg_state <$> page_at w d b);
  bs_write : forall x, x ∈ w_writes w -> pd_key x = (d, b) -> pd_upper x = upper k b;
  bs_discard : forall x, x ∈ w_discards w -> in_discard d b x ->
    (page_at w d b = None \/ (d, b) ∈ dc_keys x) /\ (dc_template x = true -> A d b = zeroPage) /\
    forall y, y ∈ w_loads w -> ~ in_load d b y;
  bs_alone : (length (covering d b (w_discards w)) <= 1)%nat;
  bs_lower : upper k b = false -> A d b = lower k d b;
  bs_material : forall n, dk_material k = Some n -> b < n -> template d b <> None -> upper k b = true;
  bs_healthy : ca_err (w_cache w) = None -> healthy w A d k b }.
Record sound w A : Prop := {
  so_static : static w;
  so_block : forall d k b, w_disks w !! d = Some k -> has_block k b -> block_sound w A d k b }.

(** ** A block nobody touches *)

Lemma block_frame_io w w' A A' d k k' b : block_sound w A d k b ->
  same_or_evicted (w_cache w) (w_cache w') (d, b) ->
  upper k' b = upper k b -> df_kept (dk_file k) (dk_file k') b -> dk_material k' = dk_material k -> A' d b = A d b ->
  (ca_err (w_cache w') = None -> ca_err (w_cache w) = None) ->
  (forall x, x ∈ w_loads w' -> in_load d b x -> exists y, y ∈ w_loads w /\ in_load d b y /\
    (ld_io x = ld_io y \/ forall fill, ld_io x = Some (Ok fill) -> fill b = df_block (dk_file k) b)) ->
  (forall x, x ∈ w_writes w' -> pd_key x = (d, b) -> exists y, y ∈ w_writes w /\ pd_key y = (d, b) /\ pd_upper x = pd_upper y /\
    pd_off x = pd_off y /\ pd_buf x = pd_buf y /\
    (pd_io x = pd_io y \/ (ca_err (w_cache w) = None -> forall bytes, pd_io x = Some (Ok bytes) -> is_page bytes /\
       Page.put (Z.to_nat (pd_off x mod PageSize)) (pd_buf x) bytes = Page.put (Z.to_nat (pd_off x mod PageSize)) (pd_buf x) (A d b)))) ->
  covering d b (w_discards w') = covering d b (w_discards w) ->
  ((d, b) ∈ written_keys (w_worker w') -> (d, b) ∈ written_keys (w_worker w)) ->
  block_sound w' A' d k' b.
Proof.
  intros [B1 B2 B3 B4 B4' B5 B6 B7] Hp Hu Hk Hm HA He Hl Hw Hd' Hx.
  assert (forall x, in_discard d b x -> x ∈ w_discards w' <-> x ∈ w_discards w) as Hd.
  { intros x Hin. pose proof (covering_elem d b (w_discards w') x) as E. rewrite Hd', covering_elem in E. tauto. }
  assert (forall p, page_at w' d b = Some p -> page_at w d b = Some p) as P.
  { unfold page_at. destruct Hp as [->|[-> _]]; naive_solver. }
  split.
  - intros p Ep. rewrite Hu. by apply B1, P.
  - intros x Hx1 Hx2. rewrite Hu. destruct (Hl x Hx1 Hx2) as (y & Hy1 & Hy2 & _). destruct (B2 y Hy1 Hy2) as [C1 C2]. split; [done|].
    unfold page_at. destruct Hp as [->|[-> _]]; [done|by left].
  - intros x Hx1 Hx2. rewrite Hu. destruct (Hw x Hx1 Hx2) as (y & Hy1 & Hy2 & -> & _). by apply B3.
  - intros x Hx1 Hx2. rewrite HA. destruct (B4 x) as (C1 & C2 & C3); [by apply Hd|done|]. split; [|split; [done|]].
    + unfold page_at. destruct Hp as [->|[-> _]]; [done|by left].
    + intros y Hy1 Hy2. destruct (Hl y Hy1 Hy2) as (y' & Hy1' & Hy2' & _). exact (C3 y' Hy1' Hy2').
  - by rewrite Hd'.
  - intros E. rewrite HA. rewrite Hu in E. rewrite (B5 E). unfold WriteBackSteps.lower. by rewrite Hm.
  - intros n E. rewrite Hm in E. rewrite Hu. by apply B6.
  - intros E. destruct (B7 (He E)) as [C1 C2 C3 C4 C5]. destruct Hk as [Hk1 Hk2]. split.
    + intros Hn. rewrite HA. apply (cell_evicted k k' b (w_cache w) (w_cache w') d _ Hp Hu (conj Hk1 Hk2)). apply C1.
      intros x Hx1 Hx2. exact (Hn x (proj2 (Hd x Hx2) Hx1) Hx2).
    + intros x fill Hx1 Hx2 Hx3. rewrite Hk1. destruct (Hl x Hx1 Hx2) as (y & Hy1 & Hy2 & [Ey|Ey]); [|by apply Ey].
      apply (C2 y fill Hy1 Hy2). congruence.
    + intros x bytes Hx1 Hx2 Hx3. rewrite HA. destruct (Hw x Hx1 Hx2) as (y & Hy1 & Hy2 & _ & Eo & Eb & [Ey|Ey]); [|by apply Ey; auto].
      rewrite Eo, Eb. apply (C3 y bytes Hy1 Hy2). congruence.
    + intros x Hx1 Hx2. rewrite Hk1, Hk2. apply (C4 x); [by apply Hd|done].
    + intros Hin p Ep. rewrite Hk1, Hk2. apply C5; [by apply Hx|by apply P].
Qed.
Lemma block_frame w w' A A' d k k' b : block_sound w A d k b ->
  same_or_evicted (w_cache w) (w_cache w') (d, b) ->
  upper k' b = upper k b -> df_kept (dk_file k) (dk_file k') b -> dk_material k' = dk_material k -> A' d b = A d b ->
  (ca_err (w_cache w') = None -> ca_err (w_cache w) = None) ->
  (forall x, x ∈ w_loads w' -> in_load d b x -> x ∈ w_loads w) ->
  (forall x, x ∈ w_writes w' -> pd_key x = (d, b) -> x ∈ w_writes w) ->
  covering d b (w_discards w') = covering d b (w_discards w) ->
  ((d, b) ∈ written_keys (w_worker w') -> (d, b) ∈ written_keys (w_worker w)) ->
  block_sound w' A' d k' b.
Proof. intros B Hp Hu Hk Hm HA He Hl Hw. apply (block_frame_io w w' A A' d k k' b B Hp Hu Hk Hm HA He); eauto 12. Qed.

(** ** Steps that move no page *)

Lemma sound_intro w w' A A' : sound w A -> cache_inv (owned w') (w_cache w') -> same_disks w w' ->
  (forall d b p, page_at w' d b = Some p -> is_Some (page_at w d b) \/ exists k, w_disks w !! d = Some k /\ has_block k b) ->
  (forall x, x ∈ w_loads w' -> load_static w x) ->
  (forall x, x ∈ w_writes w' -> part_of (pd_key x).2 (pd_off x) (pd_buf x)) ->
  (forall x, x ∈ w_discards w' -> discard_static w x) ->
  worker_ok w' ->
  (forall d k k' b, w_disks w !! d = Some k -> w_disks w' !! d = Some k' -> has_block k b -> block_sound w A d k b -> block_sound w' A' d k' b) ->
  sound w' A'.
Proof.
  intros [[S1 S2 S3 S4 S5 S6 S7] B] I D Hp Hl Hw Hd Hx HB. pose proof (same_disks_kept w w' D) as K. split.
  - split; try done.
    + intros d k' Hk'. specialize (D d). rewrite Hk' in D. destruct (w_disks w !! d) as [k|] eqn:Hk; [|done]. apply D, (S2 d k Hk).
    + intros d b p Hpg. destruct (Hp d b p Hpg) as [[q Hq]|(k & Hk & Hb)].
      * destruct (S3 d b q Hq) as (k & Hk & Hb). by apply (page_kept w w' d b k K).
      * by apply (page_kept w w' d b k K).
    + intros x Hin. by apply (load_static_kept w w' x K), Hl.
    + intros x Hin. by apply (discard_static_kept w w' x K), Hd.
  - intros d k' b Hk' Hb. pose proof (D d) as Dd. rewrite Hk' in Dd. destruct (w_disks w !! d) as [k|] eqn:Hk; [|done].
    destruct Dd as [E _]. unfold has_block in Hb. rewrite E in Hb. by apply (HB d k k' b); [| | |apply B].
Qed.
Lemma sound_cache w c A : sound w A -> cache_inv (owned w) c -> ca_active c = ca_active (w_cache w) ->
  (ca_err c = None -> ca_err (w_cache w) = None) -> (forall x, same_or_evicted (w_cache w) c x) -> sound (set_cache c w) A.
Proof.
  intros [[S1 S2 S3 S4 S5 S6 S7] B] I Ha He Hp. split.
  - split; try done.
    + intros d b p Hpg. destruct (Hp (d, b)) as [E|[E _]]; [|by unfold page_at in Hpg; simpl in Hpg; rewrite E in Hpg].
      apply (S3 d b p). unfold page_at in *. simpl in Hpg. by rewrite <-E.
    + apply (worker_kept w); [by apply disks_kept_refl|done|by simpl; rewrite ?Ce|done| |done].
      intros x Hx. by apply worker_same_or_evicted.
  - intros d k b Hk Hb. by apply (block_frame w _ A A d k k b (B d k b Hk Hb)).
Qed.
Lemma sound_file w d k k' A : sound w A -> w_disks w !! d = Some k -> dk_bitmap k' = dk_bitmap k -> dk_material k' = dk_material k ->
  df_ok (dk_file k') -> df_blocks (dk_file k') = df_blocks (dk_file k) ->
  (forall b, has_block k b -> df_kept (dk_file k) (dk_file k') b) -> sound (set_disk d k' w) A.
Proof.
  intros [[S1 S2 S3 S4 S5 S6 S7] B] Hk Hm Ht Hok Hbl Hkept.
  assert (disks_kept w (set_disk d k' w)) as D by by apply (disks_kept_set w _ d k k').
  split.
  - split; try done.
    + intros d' k0. simpl. destruct (decide (d = d')) as [->|]; [rewrite lookup_insert_eq; intros E; injection E as <-|rewrite lookup_insert_ne by done; apply S2].
      destruct (S2 _ _ Hk). unfold disk_static. by rewrite Hbl, Hm.
    + intros d' b p Hp. destruct (S3 d' b p Hp) as (k0 & Hk0 & Hb). by apply (page_kept w _ d' b k0 D).
    + intros x Hx. by apply (load_static_kept w), S4.
    + intros x Hx. by apply (discard_static_kept w), S6.
    + by apply (worker_kept w).
  - intros d' k0 b Hk0 Hb. simpl in Hk0. destruct (decide (d = d')) as [<-|Hne].
    + rewrite lookup_insert_eq in Hk0. injection Hk0 as <-. unfold has_block in Hb. rewrite Hbl in Hb.
      apply (block_frame w _ A A d k k' b (B d k b Hk Hb)); try done; [by left|unfold upper; by rewrite Hm|by apply Hkept].
    + rewrite lookup_insert_ne in Hk0 by done. apply (block_frame w _ A A d' k0 k0 b (B d' k0 b Hk0 Hb)); try done. by left.
Qed.
Lemma not_discarding w d b x : static w -> x ∈ w_discards w -> in_discard d b x -> forall A k, block_sound w A d k b ->
  pg_state <$> page_at w d b = None \/ pg_state <$> page_at w d b = Some cacheDiscarding.
Proof.
  intros S Hx Hin A k B. destruct (bs_discard _ _ _ _ _ B x Hx Hin) as ([E|E] & _); [left; by rewrite E|right].
  exact (discard_page w x _ (st_cache _ S) Hx E).
Qed.

(** ** Loads *)

Lemma load_sound w d first n k ctx r c A : sound w A -> w_disks w !! d = Some k ->
  (forall b, first <= b < first + Z.of_nat n -> has_block k b /\ upper k b = true /\ free_shared w d b) ->
  checkLocked ctx (w_cache w) = Ok tt -> reserve_run n d first (w_cache w) = (r, c) ->
  sound (set_loads (mkLoad d first r None :: w_loads w) (set_cache c w)) A.
Proof.
  intros Sd Hk Hrun _ Hr. pose proof (so_static _ _ Sd) as S. pose proof (st_cache _ S) as I.
  destruct (reserve_run_spec n d (owned w) first (w_cache w) r c I Hr) as (I' & (_ & _ & _ & Ca & Ce) & Hn & Hout & Hin & Hpg).
  set (x0 := mkLoad d first r None). set (w' := set_loads _ _).
  assert (forall d' b, in_load d' b x0 <-> d' = d /\ first <= b < first + Z.of_nat (length r)) as Hx0.
  { intros d' b. unfold in_load; simpl. naive_solver. }
  assert (forall d' b, ~ in_load d' b x0 -> same_or_evicted (w_cache w) c (d', b)) as Hsame.
  { intros d' b Hy. apply Hout. intros X%reserved_keys_elem. apply Hy, Hx0. simpl in X. lia. }
  apply (sound_intro w w' A A Sd).
  - revert I'. apply give_out. intros s. symmetry. destruct s; rewrite ?lend_eq, ?lend_ne by done; simpl; try done. apply Permutation_app_comm.
  - by apply same_disks_refl.
  - intros d' b p Hp. destruct (decide (d' = d /\ first <= b < first + Z.of_nat (length r))) as [[-> Hb]|Hb].
    + right. exists k. split; [done|]. apply Hrun. lia.
    + left. unfold page_at in *. simpl in Hp. rewrite <-Hx0 in Hb. destruct (Hsame _ _ Hb) as [E|[E _]]; [rewrite <-E; by exists p|congruence].
  - intros x [->|Hx]%elem_of_cons; [|by apply (st_load _ S)]. exists k. split; [done|]. intros b [_ Hb]. simpl in Hb. apply Hrun. lia.
  - apply (st_write _ S).
  - apply (st_discard _ S).
  - apply (worker_kept w); [by apply disks_kept_refl|done|by simpl; rewrite ?Ce|done| |apply (st_worker _ S)]. intros [d' b] Hy.
    apply worker_same_or_evicted; [done|done|]. apply Hsame. intros [-> Hb]%Hx0.
    pose proof (worker_page w _ I Hy) as E. destruct (Hpg b Hb) as [[X|X] _]; rewrite X in E; done.
  - intros d' k1 k2 b Hk1 Hk2 Hb B. simpl in Hk2. assert (k2 = k1) as -> by congruence. clear Hk2.
    destruct (decide (d' = d /\ first <= b < first + Z.of_nat (length r))) as [[-> Hr']|Hnb].
    + assert (k1 = k) as -> by congruence. destruct (Hrun b) as (_ & Hu & Hf); [lia|].
      destruct (Hpg b Hr') as [P0 P1].
      assert (pg_state <$> page_at w d b = None \/ pg_state <$> page_at w d b = Some cacheClean) as Q0 by (unfold page_at; destruct P0 as [->| ->]; auto).
      assert (calm (pg_state <$> page_at w' d b)) as Q1 by (unfold calm, page_at; simpl; destruct P1 as [->| ->]; auto).
      destruct B as [B1 B2 B3 B4 B4' B5 B6 B7]. split; try done.
      * intros x Hx E. by destruct (free_no_discard w d b x Hf Hx).
      * simpl. rewrite Ce. intros E. destruct (B7 E) as [C1 C2 C3 C4 C5]. split.
        -- intros Hn'. specialize (C1 Hn'). unfold page_at in *. simpl. unfold cell in *.
           destruct P1 as [->| ->]; simpl; destruct (ca_pages (w_cache w) !! (d, b)) as [p|]; try done;
             destruct Q0 as [Q0|Q0]; try done; simpl in Q0; injection Q0 as Q0; rewrite Q0 in C1; tauto.
        -- intros x fill [->|Hx]%elem_of_cons; [done|by apply C2].
        -- intros x bytes Hx E'. by destruct (free_no_write w d b x Hf Hx).
        -- intros x Hx E'. by destruct (free_no_discard w d b x Hf Hx).
        -- intros Hx. exfalso. apply (not_written w (d, b) I); [|done]. fold (page_at w d b). by destruct Q0 as [->| ->].
    + rewrite <-Hx0 in Hnb. apply (block_frame w w' A A d' k1 k1 b B); try done; [by apply Hsame|by simpl; rewrite Ce|].
      intros x [->|Hx]%elem_of_cons; done.
Qed.
Lemma load_io_sound w l1 x l2 k io A : sound w A -> w_loads w = l1 ++ x :: l2 -> ld_io x = None -> w_disks w !! ld_disk x = Some k ->
  reads (df_block (dk_file k)) io -> sound (set_loads (l1 ++ loaded io x :: l2) w) A.
Proof.
  intros Sd El _ Hk Hio. pose proof (so_static _ _ Sd) as S. set (w' := set_loads _ _).
  assert (forall y, y ∈ w_loads w' -> y ∈ w_loads w \/ y = loaded io x) as Hy by (intros y; simpl; rewrite El; set_solver).
  assert (x ∈ w_loads w) as Hx by (rewrite El; set_solver).
  apply (sound_intro w w' A A Sd).
  - pose proof (st_cache _ S) as I. revert I. apply give_out. intros []; simpl; try done. rewrite El, !fmap_app, !fmap_cons. done.
  - by apply same_disks_refl.
  - intros d b p Hp. left. by exists p.
  - intros y [Hin| ->]%Hy; [by apply (st_load _ S)|exact (st_load _ S x Hx)].
  - apply (st_write _ S).
  - apply (st_discard _ S).
  - exact (st_worker _ S).
  - intros d k1 k2 b Hk1 Hk2 Hb B. simpl in Hk2. assert (k2 = k1) as -> by congruence.
    apply (block_frame_io w w' A A d k1 k1 b B); try done; [by left| |by eauto 12].
    intros y [Hin| ->]%Hy Hl; [by eauto|]. exists x. split; [done|]. split; [done|]. right. intros fill Ef. simpl in Ef. injection Ef as ->.
    destruct Hio as [Hio|[e Hio]]; [|done]. injection Hio as ->. destruct Hl as [<- _]. simpl in Hk1. by assert (k1 = k) as -> by congruence.
Qed.
(** The pages of a finished load. *)
Lemma load_end_static w w' l1 x l2 A : sound w A -> w_loads w = l1 ++ x :: l2 -> cache_inv (owned w') (w_cache w') ->
  w_disks w' = w_disks w -> w_loads w' = l1 ++ l2 -> w_writes w' = w_writes w -> w_discards w' = w_discards w -> w_worker w' = w_worker w ->
  same_control (w_cache w) (w_cache w') ->
  (forall y, y ∉ load_keys x -> ca_pages (w_cache w') !! y = ca_pages (w_cache w) !! y) ->
  (forall d b k, (d, b) ∈ load_keys x -> w_disks w !! d = Some k -> block_sound w A d k b -> ca_err (w_cache w) = None ->
    healthy w A d k b -> page_at w' d b = None \/ exists p, page_at w' d b = Some p /\ pg_state p = cacheClean /\ page_bytes p = df_block (dk_file k) b) ->
  (forall y, y ∈ load_keys x -> calm (pg_state <$> ca_pages (w_cache w') !! y)) ->
  sound w' A.
Proof.
  intros Sd El I' Ed El' Ew Edc Ewk (_ & _ & _ & Ca & Ce) Hout Hin Hcalm.
  pose proof (so_static _ _ Sd) as S. pose proof (st_cache _ S) as I.
  assert (x ∈ w_loads w) as Hx by (rewrite El; set_solver).
  assert (forall y, y ∈ w_loads w' -> y ∈ w_loads w) as Hl by (intros y; rewrite El, El'; apply middle_elem).
  assert (forall y, y ∈ load_keys x -> pg_state <$> ca_pages (w_cache w) !! y = Some cacheLoading) as Hs by (intros y; by apply load_page).
  apply (sound_intro w w' A A Sd I').
  - by apply same_disks_refl.
  - intros d b p Hp. left. unfold page_at in *. destruct (decide ((d, b) ∈ load_keys x)) as [Hk|Hk].
    + specialize (Hs _ Hk). destruct (ca_pages (w_cache w) !! (d, b)) as [q|]; [by exists q|done].
    + rewrite <-Hout by done. by exists p.
  - intros y Hy. by apply (st_load _ S), Hl.
  - rewrite Ew. apply (st_write _ S).
  - rewrite Edc. apply (st_discard _ S).
  - apply (worker_kept w); [by apply disks_kept_refl|done|by simpl; rewrite ?Ce|done| |apply (st_worker _ S)]. intros y Hy. rewrite Hout; [done|].
    intros X%Hs. by rewrite (worker_page w y I Hy) in X.
  - intros d k1 k2 b Hk1 Hk2 Hb B. rewrite Ed in Hk2. assert (k2 = k1) as -> by congruence.
    destruct (decide ((d, b) ∈ load_keys x)) as [Hk|Hk].
    2: { apply (block_frame w w' A A d k1 k1 b B); try done; [left; by apply Hout|by rewrite Ce|by eauto|by rewrite Ew|by rewrite Edc|by rewrite Ewk]. }
    pose proof (reserved_keys_elem _ _ _ _ Hk) as Hrange. simpl in Hrange. assert (in_load d b x) as Hlx by (unfold in_load; destruct Hrange; split; [by symmetry|lia]).
    assert (pg_state <$> page_at w d b = Some cacheLoading) as Hsb by exact (Hs _ Hk).
    assert (forall y, y ∈ w_discards w -> ~ in_discard d b y) as Hnd.
    { intros y Hy Hyd. destruct (bs_discard _ _ _ _ _ B y Hy Hyd) as (_ & _ & Hno). exact (Hno x Hx Hlx). }
    pose proof B as [B1 B2 B3 B4 B4' B5 B6 B7]. destruct (B2 x Hx Hlx) as [Hu _]. split; try done.
    + intros y Hy _. split; [done|]. exact (Hcalm _ Hk).
    + intros y Hy. rewrite Ew in Hy. by apply B3.
    + intros y Hy Hyd. rewrite Edc in Hy. by destruct (Hnd y Hy).
    + by rewrite Edc.
    + rewrite Ce. intros E. pose proof (B7 E) as Hh. pose proof (Hin d b k1 Hk Hk1 B E Hh) as Hnew. destruct Hh as [C1 C2 C3 C4 C5]. split.
      * intros _. specialize (C1 Hnd). unfold cell in *. destruct (page_at w d b) as [q|]; [|done]. simpl in Hsb. injection Hsb as Hsb. rewrite Hsb in C1.
        destruct Hnew as [->|(p & -> & -> & Hp)]; [done|by split].
      * intros y fill Hy. by apply C2, Hl.
      * intros y bytes Hy Ey. rewrite Ew in Hy. pose proof (write_page w y I Hy) as X. rewrite Ey in X. unfold page_at in Hsb. by rewrite X in Hsb.
      * intros y Hy Hyd. rewrite Edc in Hy. by destruct (Hnd y Hy).
      * intros Hy. rewrite Ewk in Hy. exfalso. apply (not_written w (d, b) I); [|done]. fold (page_at w d b). by rewrite Hsb.
Qed.
Lemma load_err_sound w l1 x l2 ctx io e c A : sound w A -> w_loads w = l1 ++ x :: l2 ->
  publish_run ctx io (load_keys x) (w_cache w) = (Err e, c) -> sound (set_loads (l1 ++ l2) (set_cache c w)) A.
Proof.
  intros Sd El Hp. assert (c = release_all (load_keys x) (w_cache w)) as ->.
  { unfold publish_run in Hp. destruct io as [fill|]; [destruct (checkLocked ctx (w_cache w)); [done|]|]; by injection Hp as _ <-. }
  pose proof (so_static _ _ Sd) as S. apply (load_end_static w _ l1 x l2 A Sd El); try done.
  - apply (release_all_inv cacheLoading (load_keys x) eq_refl). pose proof (st_cache _ S) as I. revert I. apply give_out.
    intros s. symmetry. by apply (owned_load w _ l1 x l2).
  - apply release_all_control.
  - intros y Hy. simpl. by rewrite release_all_pages, bool_decide_false.
  - intros d b k Hin _ _ _ _. left. unfold page_at; simpl. by rewrite release_all_pages, bool_decide_true.
  - intros y Hy. left. simpl. by rewrite release_all_pages, bool_decide_true.
Qed.

(** ** One block *)

Lemma touch_sound w w' A A' d0 b0 k0 k0' : sound w A -> cache_inv (owned w') (w_cache w') -> w_disks w !! d0 = Some k0 -> has_block k0 b0 ->
  w_disks w' = <[d0 := k0']> (w_disks w) -> dk_file k0' = dk_file k0 -> dk_material k0' = dk_material k0 ->
  length (dk_bitmap k0') = length (dk_bitmap k0) -> (forall b, has_block k0 b -> b <> b0 -> upper k0' b = upper k0 b) ->
  w_loads w' = w_loads w -> w_discards w' = w_discards w -> w_worker w' = w_worker w ->
  (forall x, x ∈ w_writes w' -> part_of (pd_key x).2 (pd_off x) (pd_buf x)) ->
  (forall x, x ∈ w_writes w' -> pd_key x <> (d0, b0) -> x ∈ w_writes w) ->
  same_control (w_cache w) (w_cache w') -> (forall y, y <> (d0, b0) -> same_or_evicted (w_cache w) (w_cache w') y) ->
  (forall d b, (d, b) <> (d0, b0) -> A' d b = A d b) -> (d0, b0) ∉ worker_keys (w_worker w) ->
  (block_sound w A d0 k0 b0 -> block_sound w' A' d0 k0' b0) -> sound w' A'.
Proof.
  intros Sd I' Hk0 Hb0 Ed Ef Em Elen Hup El Edc Ewk Hpart Hwr (_ & _ & _ & Ca & Ce) Hpg HA Hnw HB.
  pose proof (so_static _ _ Sd) as S. pose proof (st_cache _ S) as I. apply (sound_intro w w' A A' Sd I').
  - apply (same_disks_set w w' d0 k0 k0'); [done|done|by rewrite Ef|]. unfold disk_static. by rewrite Ef, Elen.
  - intros d b p Hp. destruct (decide ((d, b) = (d0, b0))) as [[= -> ->]|Hne]; [right; by exists k0|left].
    unfold page_at in *. destruct (Hpg _ Hne) as [E|[E _]]; [rewrite <-E; by exists p|congruence].
  - rewrite El. apply (st_load _ S).
  - done.
  - rewrite Edc. apply (st_discard _ S).
  - apply (worker_kept w); [|done|by simpl; rewrite ?Ce|done| |apply (st_worker _ S)].
    + apply (disks_kept_set w w' d0 k0 k0'); [done|done|by rewrite Ef].
    + intros y Hy. apply worker_same_or_evicted; [done|done|]. apply Hpg. intros ->. done.
  - intros d k k' b Hk Hk' Hb B. rewrite Ed in Hk'. destruct (decide ((d, b) = (d0, b0))) as [[= -> ->]|Hne].
    + rewrite lookup_insert_eq in Hk'. injection Hk' as <-. assert (k = k0) as -> by congruence. by apply HB.
    + assert (upper k' b = upper k b /\ dk_file k' = dk_file k /\ dk_material k' = dk_material k) as (E1 & E2 & E3).
      { destruct (decide (d = d0)) as [->|Hd].
        - rewrite lookup_insert_eq in Hk'. injection Hk' as <-. assert (k = k0) as -> by congruence. split; [|done]. apply Hup; [done|congruence].
        - rewrite lookup_insert_ne in Hk' by done. by assert (k' = k) as -> by congruence. }
      apply (block_frame w w' A A' d k k' b B); try done; [by apply Hpg|by unfold df_kept; rewrite E2|by apply HA|by rewrite Ce|by rewrite El| |by rewrite Edc|by rewrite Ewk].
      intros x Hx Ex. apply Hwr; [done|]. by rewrite Ex.
Qed.
(** The block of an accepted write or zero. *)
Lemma dirty_block w A w' A' d k k' b q : block_sound w A d k b ->
  (forall x, x ∈ w_loads w' -> ~ in_load d b x) -> (forall x, x ∈ w_writes w' -> pd_key x <> (d, b)) -> (forall x, x ∈ w_discards w' -> ~ in_discard d b x) ->
  (d, b) ∉ written_keys (w_worker w') -> page_at w' d b = Some q -> pg_state q = cacheDirty -> upper k' b = true -> dk_material k' = dk_material k ->
  A' d b = page_bytes q -> block_sound w' A' d k' b.
Proof.
  intros B Hl Hw Hd Hx Hq Hs Hu Hm HA. split.
  - done.
  - intros x H1 H2. by destruct (Hl x).
  - intros x H1 H2. by destruct (Hw x).
  - intros x H1 H2. by destruct (Hd x).
  - rewrite covering_none; [simpl; lia|done].
  - congruence.
  - done.
  - intros _. split.
    + intros _. unfold cell. rewrite Hq, Hs. done.
    + intros x fill H1 H2. by destruct (Hl x).
    + intros x bytes H1 H2. by destruct (Hw x).
    + intros x H1 H2. by destruct (Hd x).
    + done.
Qed.

(** ** Writes and zeros *)

Lemma write_now_sound w d b off buf k ctx c A : sound w A -> w_disks w !! d = Some k -> has_block k b -> part_of b off buf -> free_excl w d b ->
  write_admit ctx (d, b) off buf (upper k b) (w_cache w) = AdmitDone c -> sound (set_cache c w) (a_apply (Wrote d off buf) A).
Proof.
  intros Sd Hk Hb (Eb & Hbuf & Hfit) Hf Hw. pose proof (so_static _ _ Sd) as S. pose proof (st_cache _ S) as I.
  destruct (write_admit_done (owned w) ctx (d, b) off buf _ (w_cache w) c I Hbuf Hw) as (Hc%checked & I' & Ct & p & q & Hp & Hs & Hpg & Hq & Hbytes).
  set (w' := set_cache c w). assert (pg_state <$> page_at w d b <> Some cacheWriteback) as Hnw.
  { unfold page_at. rewrite Hp. simpl. destruct Hs as [->| ->]; done. }
  apply (touch_sound w w' A _ d b k k Sd); try done.
  - by rewrite insert_id.
  - apply (st_write _ S).
  - intros y Hy. left. simpl. by rewrite Hpg, lookup_insert_ne.
  - intros d' b' Hne. simpl. rewrite Eb. by apply a_put_ne.
  - exact (not_worker w (d, b) I Hnw).
  - intros B. assert (upper k b = true) as Hu by (apply (bs_upper _ _ _ _ _ B p Hp); destruct Hs; congruence).
    apply (dirty_block w A w' _ d k k b q B); try done.
    + intros x. by apply free_no_load.
    + intros x. apply free_no_write, Hf.
    + intros x. apply free_no_discard, Hf.
    + exact (not_written w (d, b) I Hnw).
    + unfold page_at. simpl. by rewrite Hpg, lookup_insert_eq.
    + simpl. rewrite Eb, a_put_eq, Hbytes. f_equal. apply (cell_shown k b p); [done| |tauto]. rewrite <-Hp. fold (page_at w d b).
      apply (bs_healthy _ _ _ _ _ B Hc). intros x. apply free_no_discard, Hf.
Qed.
Lemma write_start_sound w d b off buf k ctx c A : sound w A -> w_disks w !! d = Some k -> has_block k b -> part_of b off buf -> free_excl w d b ->
  write_admit ctx (d, b) off buf (upper k b) (w_cache w) = AdmitInit c ->
  sound (set_writes (mkPending (d, b) off buf (upper k b) None :: w_writes w) (set_cache c w)) A.
Proof.
  intros Sd Hk Hb Hpart Hf Hw. pose proof (so_static _ _ Sd) as S. pose proof (st_cache _ S) as I.
  destruct (write_admit_init (owned w) ctx (d, b) off buf _ (w_cache w) c I Hw) as (Hc%checked & Hp & I' & Ct & c1 & (_ & _ & Ev) & Hpg).
  set (w' := set_writes _ _). assert (pg_state <$> page_at w d b = None) as Hnp by (unfold page_at; by rewrite Hp).
  assert (page_at w' d b = Some (constructing_page (negb (upper k b)))) as Hp' by (unfold page_at; simpl; by rewrite Hpg, lookup_insert_eq).
  apply (touch_sound w w' A A d b k k Sd); try done.
  - revert I'. apply give_out. intros s. destruct s; rewrite ?lend_eq, ?lend_ne by done; simpl; try done. apply (Permutation_app_comm [(d, b)]).
  - by rewrite insert_id.
  - intros x [->|Hx]%elem_of_cons; [done|by apply (st_write _ S)].
  - intros x [->|Hx]%elem_of_cons; done.
  - intros y Hy. unfold same_or_evicted. simpl. rewrite Hpg, lookup_insert_ne by done. apply Ev.
  - apply not_worker; [done|]. fold (page_at w d b). by rewrite Hnp.
  - intros [B1 B2 B3 B4 B4' B5 B6 B7]. split; try done.
    + intros p E Hs. rewrite Hp' in E. by injection E as <-.
    + intros x Hx Hl. by destruct (free_no_load w d b x Hf).
    + intros x [->|Hx]%elem_of_cons E; [done|]. by destruct (free_no_write w d b x (proj1 Hf) Hx).
    + intros x Hx Hd. by destruct (free_no_discard w d b x (proj1 Hf) Hx).
    + destruct Ct as (_ & _ & _ & _ & Ce). simpl. rewrite Ce. intros E. destruct (B7 E) as [C1 C2 C3 C4 C5]. split.
      * intros Hn. specialize (C1 Hn). rewrite Hp'. unfold cell in *. simpl. destruct (page_at w d b); done.
      * intros x fill Hx Hl. by destruct (free_no_load w d b x Hf).
      * intros x bytes [->|Hx]%elem_of_cons E'; [done|]. by destruct (free_no_write w d b x (proj1 Hf) Hx).
      * intros x Hx Hd. by destruct (free_no_discard w d b x (proj1 Hf) Hx).
      * intros Hx. exfalso. apply (not_written w (d, b) I); [|done]. fold (page_at w d b). by rewrite Hnp.
Qed.
(** A page under construction is in nobody else's way. *)
Lemma pending_alone w A x d b k : sound w A -> x ∈ w_writes w -> pd_key x = (d, b) -> w_disks w !! d = Some k -> has_block k b ->
  (forall y, y ∈ w_loads w -> ~ in_load d b y) /\ (forall y, y ∈ w_discards w -> ~ in_discard d b y) /\ (d, b) ∉ worker_keys (w_worker w).
Proof.
  intros Sd Hx Ek Hk Hb. pose proof (so_static _ _ Sd) as S. pose proof (st_cache _ S) as I. pose proof (so_block _ _ Sd d k b Hk Hb) as B.
  pose proof (write_page w x I Hx) as Hs. rewrite Ek in Hs. split; [|split].
  - intros y Hy Hl. destruct (bs_load _ _ _ _ _ B y Hy Hl) as [_ Hc]. unfold page_at in Hc. rewrite Hs in Hc. by destruct Hc as [?|[?|?]].
  - intros y Hy Hd. destruct (not_discarding w d b y S Hy Hd A k B) as [E|E]; unfold page_at in E; by rewrite Hs in E.
  - apply not_worker; [done|]. by rewrite Hs.
Qed.
Lemma pending_disk w A x : sound w A -> x ∈ w_writes w -> exists k p, w_disks w !! (pd_key x).1 = Some k /\ has_block k (pd_key x).2 /\
  ca_pages (w_cache w) !! pd_key x = Some p /\ pg_state p = cacheConstructing.
Proof.
  intros Sd Hx. pose proof (so_static _ _ Sd) as S. pose proof (write_page w x (st_cache _ S) Hx) as Hs.
  destruct (ca_pages (w_cache w) !! pd_key x) as [p|] eqn:E; [|done]. injection Hs as Hs.
  destruct (st_page _ S (pd_key x).1 (pd_key x).2 p) as (k & Hk & Hb); [unfold page_at; by destruct (pd_key x)|]. by eauto 10.
Qed.
Lemma write_err_sound w l1 x l2 ctx io e c A : sound w A -> w_writes w = l1 ++ x :: l2 ->
  write_publish ctx (pd_key x) (pd_off x) (pd_buf x) io (w_cache w) = (Err e, c) ->
  sound (set_writes (l1 ++ l2) (set_cache c w)) A.
Proof.
  intros Sd Ew Hp. pose proof (so_static _ _ Sd) as S. pose proof (st_cache _ S) as I.
  assert (x ∈ w_writes w) as Hx by (rewrite Ew; set_solver).
  assert (c = releaseLocked (pd_key x) (w_cache w)) as ->.
  { unfold write_publish in Hp. destruct io as [bytes|]; [destruct (checkLocked ctx (w_cache w))|]; [by destruct (ca_pages _ !! _)|by injection Hp as _ <-..]. }
  destruct (pending_disk w A x Sd Hx) as (k & p & Hk & Hb & Hpg & Hs). destruct (pd_key x) as [d b] eqn:Ek. simpl in *.
  destruct (pending_alone w A x d b k Sd Hx Ek Hk Hb) as (Hnl & Hnd & Hnw). set (w' := set_writes _ _).
  assert (page_at w' d b = None) as Hp' by (unfold page_at; simpl; by rewrite release_pages, lookup_delete_eq).
  assert (forall y, y ∈ w_writes w' -> y ∈ w_writes w /\ pd_key y <> (d, b)) as Hy.
  { intros y Hy. split; [rewrite Ew; by apply middle_elem|]. rewrite <-Ek. by apply (pending_unique w l1 x l2 y I Ew). }
  apply (touch_sound w w' A A d b k k Sd); try done.
  - apply (release_inv _ _ _ cacheConstructing); [|by rewrite Hpg; simpl; rewrite Hs]. revert I. apply give_out. intros s. symmetry. rewrite <-Ek. by apply (owned_write w w' l1 x l2).
  - by rewrite insert_id.
  - intros y [Hin _]%Hy. by apply (st_write _ S).
  - by intros y [Hin _]%Hy.
  - apply release_control.
  - intros y Hne. left. simpl. by rewrite release_pages, lookup_delete_ne.
  - intros [B1 B2 B3 B4 B4' B5 B6 B7]. split; try done.
    + intros q. by rewrite Hp'.
    + intros y Hin Hl. by destruct (Hnl y).
    + intros y [_ Hne]%Hy E. done.
    + intros y Hin Hd. by destruct (Hnd y).
    + destruct (release_control (d, b) (w_cache w)) as (_ & _ & _ & _ & Ce). simpl. rewrite Ce. intros E. destruct (B7 E) as [C1 C2 C3 C4 C5]. split.
      * intros Hn. specialize (C1 Hn). rewrite Hp'. unfold cell in *. unfold page_at in C1. rewrite Hpg, Hs in C1. done.
      * intros y fill Hin Hl. by destruct (Hnl y).
      * intros y bytes [_ Hne]%Hy E'. done.
      * intros y Hin Hd. by destruct (Hnd y).
      * intros Hin. by destruct Hnw; apply written_subset.
Qed.
Lemma zero_sound w d b k ctx c A : sound w A -> w_disks w !! d = Some k -> has_block k b -> free_excl w d b ->
  stageZero ctx (d, b) (w_cache w) = AdmitDone c ->
  sound (set_disk d (with_bitmap (markDirty b (dk_bitmap k)) k) (set_cache c w)) (a_apply (Discarded d b b) A).
Proof.
  intros Sd Hk Hb Hf Hz. pose proof (so_static _ _ Sd) as S. pose proof (st_cache _ S) as I. pose proof (st_disk _ S d k Hk) as Dk.
  destruct (stageZero_done (owned w) ctx (d, b) (w_cache w) c I Hz) as (Hc & I' & Ct & Hs & c1 & (_ & _ & Ev) & Hpg).
  assert (pg_state <$> page_at w d b <> Some cacheWriteback) as Hnw by (unfold page_at; destruct Hs as [->|[->| ->]]; done).
  set (w' := set_disk _ _ _). apply (touch_sound w w' A _ d b k (with_bitmap (markDirty b (dk_bitmap k)) k) Sd); try done.
  - apply markDirty_length.
  - intros b' Hb' Hne. rewrite marked by done. by destruct (Z.eqb_spec b b').
  - apply (st_write _ S).
  - intros y Hy. unfold same_or_evicted. simpl. rewrite Hpg, lookup_insert_ne by done. apply Ev.
  - intros d' b' Hne. simpl. destruct (Z.eqb_spec d' d), (Z.leb_spec b b'), (Z.leb_spec b' b); simpl; try done. destruct Hne. f_equal; lia.
  - exact (not_worker w (d, b) I Hnw).
  - intros B. apply (dirty_block w A w' _ d k _ b zero_dirty B); try done.
    + intros x. by apply free_no_load.
    + intros x. apply free_no_write, Hf.
    + intros x. apply free_no_discard, Hf.
    + exact (not_written w (d, b) I Hnw).
    + unfold page_at. simpl. by rewrite Hpg, lookup_insert_eq.
    + rewrite marked by done. by rewrite Z.eqb_refl.
    + simpl. by rewrite Z.eqb_refl, Z.leb_refl.
Qed.

(** ** Discards *)

Lemma discard_start_sound w d first last k ctx (tmpl : bool) keys c A : sound w A -> w_disks w !! d = Some k ->
  0 <= first <= last -> last < df_blocks (dk_file k) -> (forall b, first <= b <= last -> free_excl w d b) ->
  (if tmpl then dk_material k <> None /\ forall b, first <= b <= last -> upper k b = false /\ template d b = Some zeroPage else True) ->
  discard_freeze ctx d first last (w_cache w) = Frozen keys c ->
  sound (set_discards (mkDiscarding d first last tmpl keys None :: w_discards w) (set_cache c w)) A.
Proof.
  intros Sd Hk Hr Hl Hf Ht Hd. pose proof (so_static _ _ Sd) as S. pose proof (st_cache _ S) as I.
  destruct (discard_freeze_spec (owned w) ctx d first last (w_cache w) keys c I Hd) as (Hc & I' & (_ & _ & _ & Ca & Ce) & Hkeys & Hst & Hpg).
  set (x0 := mkDiscarding d first last tmpl keys None). set (w' := set_discards _ _).
  assert (forall d' b, in_discard d' b x0 <-> d' = d /\ first <= b <= last) as Hx0 by (intros; unfold in_discard; simpl; naive_solver).
  assert (forall y, y ∈ keys -> in_discard y.1 y.2 x0) as Hin by (intros y (E1 & E2 & _)%Hkeys; by apply Hx0).
  assert (forall d' b, ~ in_discard d' b x0 -> ca_pages c !! (d', b) = ca_pages (w_cache w) !! (d', b)) as Hout.
  { intros d' b Hn. rewrite Hpg, bool_decide_false; [done|]. intros X%Hin. done. }
  apply (sound_intro w w' A A Sd).
  - revert I'. apply give_out. intros s. destruct s; rewrite ?lend_eq, ?lend_ne by done; simpl; try done. apply Permutation_app_comm.
  - by apply same_disks_refl.
  - intros d' b p Hp. left. unfold page_at in *. simpl in Hp. rewrite Hpg in Hp. case_bool_decide; [|by exists p].
    destruct (ca_pages (w_cache w) !! (d', b)) as [q|]; [by exists q|done].
  - apply (st_load _ S).
  - apply (st_write _ S).
  - intros x [->|Hx]%elem_of_cons; [|by apply (st_discard _ S)]. by exists k.
  - apply (worker_kept w); [by apply disks_kept_refl|done|by simpl; rewrite ?Ce|done| |apply (st_worker _ S)]. intros y Hy. simpl. rewrite Hpg.
    case_bool_decide; [|done]. by destruct (ca_pages (w_cache w) !! y).
  - intros d' k1 k2 b Hk1 Hk2 Hb B. simpl in Hk2. assert (k2 = k1) as -> by congruence.
    destruct (decide (in_discard d' b x0)) as [Hcov|Hcov].
    2: { apply (block_frame w w' A A d' k1 k1 b B); try done; [left; by apply Hout|by simpl; rewrite Ce|].
         simpl. unfold covering. by rewrite filter_cons_False. }
    pose proof Hcov as [-> Hb']%Hx0. assert (k1 = k) as -> by congruence. specialize (Hf b Hb').
    assert (pg_state <$> page_at w d b <> Some cacheWriteback) as Hnw.
    { unfold page_at. destruct (ca_pages (w_cache w) !! (d, b)) as [q|] eqn:Eq; [|done].
      destruct (Hst (d, b)) as (p & Ep & Hs); [apply Hkeys; rewrite Eq; by eauto|]. rewrite Eq in Ep. injection Ep as ->. simpl. destruct Hs as [->| ->]; done. }
    assert (page_at w' d b = None \/ (d, b) ∈ keys) as Hp'.
    { unfold page_at. simpl. rewrite Hpg. case_bool_decide as X; [by right|]. left. destruct (ca_pages (w_cache w) !! (d, b)) eqn:Eq; [|done].
      destruct X. apply Hkeys. rewrite Eq. by eauto. }
    destruct B as [B1 B2 B3 B4 B4' B5 B6 B7]. split; try done.
    + intros p Ep Hs. unfold page_at in Ep. simpl in Ep. rewrite Hpg in Ep. case_bool_decide as X; [|by apply (B1 p)].
      destruct (Hst _ X) as (q & Eq & Hsq). apply (B1 q Eq). by destruct Hsq as [->| ->].
    + intros x Hx Hlx. by destruct (free_no_load w d b x Hf).
    + intros x [->|Hx]%elem_of_cons E; [|by destruct (free_no_discard w d b x (proj1 Hf) Hx)]. split; [done|]. split.
      * simpl. intros ->. destruct Ht as [Hm Ht]. destruct (Ht b Hb') as [Hu Htm]. rewrite (B5 Hu). unfold WriteBackSteps.lower.
        destruct (dk_material k); [|done]. by rewrite Htm.
      * intros y. by apply (free_no_load w).
    + simpl. unfold covering. rewrite filter_cons_True by done. fold (covering d b (w_discards w)).
      rewrite covering_none; [simpl; lia|]. intros x. exact (free_no_discard w d b x (proj1 Hf)).
    + simpl. rewrite Ce. intros E. destruct (B7 E) as [C1 C2 C3 C4 C5]. split.
      * intros Hn. destruct (Hn x0); [|done]. simpl. set_solver.
      * intros x fill Hx Hlx. by destruct (free_no_load w d b x Hf).
      * intros x bytes Hx E'. by destruct (free_no_write w d b x (proj1 Hf) Hx).
      * intros x [->|Hx]%elem_of_cons E'; [done|]. by destruct (free_no_discard w d b x (proj1 Hf) Hx).
      * intros Hx. by destruct (not_written w (d, b) I Hnw).
Qed.
(** The end of a discard: its pages are gone; [Hok] is what is known of its blocks if
    the cache did not fail. *)
Lemma discard_end_sound w w' l1 x l2 k k' c0 A A' : sound w A -> w_discards w = l1 ++ x :: l2 -> w_disks w !! dc_disk x = Some k ->
  cache_inv (owned w) c0 -> ca_pages c0 = ca_pages (w_cache w) -> ca_active c0 = ca_active (w_cache w) -> (ca_err c0 = None -> ca_err (w_cache w) = None) ->
  w_cache w' = release_all (dc_keys x) c0 -> w_disks w' = <[dc_disk x := k']> (w_disks w) -> w_loads w' = w_loads w -> w_writes w' = w_writes w ->
  w_discards w' = l1 ++ l2 -> w_worker w' = w_worker w ->
  dk_file k' = dk_file k -> dk_material k' = dk_material k -> length (dk_bitmap k') = length (dk_bitmap k) ->
  (forall b, has_block k b -> ~ in_discard (dc_disk x) b x -> upper k' b = upper k b) ->
  (forall b, has_block k b -> in_discard (dc_disk x) b x -> upper k b = true -> upper k' b = true) ->
  (forall b, has_block k b -> upper k' b = false -> A' (dc_disk x) b = A (dc_disk x) b) ->
  (forall d b, ~ in_discard d b x -> A' d b = A d b) ->
  (ca_err c0 = None -> forall b, has_block k b -> in_discard (dc_disk x) b x -> upper k' b = true -> healthy w A (dc_disk x) k b ->
    df_present (dk_file k) b = true /\ A' (dc_disk x) b = df_block (dk_file k) b) ->
  sound w' A'.
Proof.
  intros Sd El Hk I0 Ep Ea Ee Ec Ed Elo Ewr Edc Ewk Ef Em Elen Hup1 Hup2 HA1 HA2 Hend.
  pose proof (so_static _ _ Sd) as S. pose proof (st_cache _ S) as I. assert (x ∈ w_discards w) as Hx by (rewrite El; set_solver).
  destruct (st_discard _ S x Hx) as (k0 & Hk0 & Hr & Hl & Hkeys). assert (k0 = k) as -> by congruence. clear Hk0.
  assert (forall y, ca_pages (w_cache w') !! y = if bool_decide (y ∈ dc_keys x) then None else ca_pages (w_cache w) !! y) as Pg.
  { intros y. by rewrite Ec, release_all_pages, Ep. }
  destruct (release_all_control (dc_keys x) c0) as (_ & _ & _ & Ra & Re). rewrite <-Ec in Ra, Re.
  apply (sound_intro w w' A A' Sd).
  - rewrite Ec. apply (release_all_inv cacheDiscarding (dc_keys x) eq_refl). revert I0. apply give_out. intros s. symmetry. by apply (owned_discard w w' l1 x l2).
  - apply (same_disks_set w w' (dc_disk x) k k'); [done|done|by rewrite Ef|]. unfold disk_static. by rewrite Ef, Elen.
  - intros d b p Hp. left. unfold page_at in *. rewrite Pg in Hp. case_bool_decide; [done|by exists p].
  - rewrite Elo. apply (st_load _ S).
  - rewrite Ewr. apply (st_write _ S).
  - rewrite Edc. intros y Hy. apply (st_discard _ S). rewrite El. by apply middle_elem.
  - apply (worker_kept w); [|congruence|by rewrite Re|done| |apply (st_worker _ S)].
    + apply (disks_kept_set w w' (dc_disk x) k k'); [done|done|by rewrite Ef].
    + intros y Hy. rewrite Pg, bool_decide_false; [done|]. intros X. pose proof (discard_page w x y I Hx X) as Y. by rewrite (worker_page w y I Hy) in Y.
  - intros d k1 k2 b Hk1 Hk2 Hb B. rewrite Ed in Hk2. destruct (decide (in_discard d b x)) as [Hcov|Hcov].
    2: { assert (upper k2 b = upper k1 b /\ dk_file k2 = dk_file k1 /\ dk_material k2 = dk_material k1) as (E1 & E2 & E3).
         { destruct (decide (d = dc_disk x)) as [->|Hne].
           - rewrite lookup_insert_eq in Hk2. injection Hk2 as <-. assert (k1 = k) as -> by congruence. split; [by apply Hup1|done].
           - rewrite lookup_insert_ne in Hk2 by done. by assert (k2 = k1) as -> by congruence. }
         apply (block_frame w w' A A' d k1 k2 b B); try done; [|by unfold df_kept; rewrite E2|by apply HA2|by rewrite Re|by rewrite Elo|by rewrite Ewr| |by rewrite Ewk].
         - left. rewrite Pg, bool_decide_false; [done|]. intros X%Hkeys. done.
         - rewrite Edc, El. unfold covering. rewrite !filter_app, filter_cons_False by done. done. }
    pose proof Hcov as [<- Hb']. assert (k1 = k) as -> by congruence. rewrite lookup_insert_eq in Hk2. injection Hk2 as <-.
    pose proof (not_discarding w _ b x S Hx Hcov A k B) as Hs. destruct B as [B1 B2 B3 B4 B4' B5 B6 B7].
    destruct (B4 x Hx Hcov) as (Cx1 & Cx2 & Cx3). pose proof B4' as B4''. rewrite El in B4''. pose proof (covering_middle _ b l1 x l2 Hcov B4'') as Hal.
    assert (page_at w' (dc_disk x) b = None) as Hp'.
    { unfold page_at in *. rewrite Pg. case_bool_decide; [done|]. by destruct Cx1. }
    assert (forall y, y ∈ w_writes w -> pd_key y <> (dc_disk x, b)) as Hnw.
    { intros y Hy E. pose proof (write_page w y I Hy) as X. rewrite E in X. unfold page_at in Hs. rewrite X in Hs. by destruct Hs. }
    split.
    + intros p. by rewrite Hp'.
    + rewrite Elo. intros y Hy Hlo. by destruct (Cx3 y).
    + rewrite Ewr. intros y Hy E. by destruct (Hnw y).
    + rewrite Edc. intros y Hy Hyd. by destruct (Hal y).
    + rewrite Edc, covering_none; [simpl; lia|done].
    + intros E. rewrite HA1 by done. destruct (upper k b) eqn:Eu; [rewrite Hup2 in E by done; done|].
      rewrite B5 by done. unfold WriteBackSteps.lower. by rewrite Em.
    + intros n. rewrite Em. intros E1 E2 E3. apply Hup2; [done|done|]. by apply (B6 n).
    + rewrite Re. intros E. pose proof (B7 (Ee E)) as Hh. split.
      * intros _. rewrite Hp'. unfold cell. rewrite Ef. intros Hu. by apply Hend.
      * rewrite Elo. intros y fill Hy Hlo. by destruct (Cx3 y).
      * rewrite Ewr. intros y bytes Hy E'. by destruct (Hnw y).
      * rewrite Edc. intros y Hy Hyd. by destruct (Hal y).
      * intros _ p. by rewrite Hp'.
Qed.
Lemma discard_ok_sound w l1 x l2 k A : sound w A -> w_discards w = l1 ++ x :: l2 -> dc_io x = Some (Ok tt) -> w_disks w !! dc_disk x = Some k ->
  sound (set_discards (l1 ++ l2) (set_disk (dc_disk x) (with_bitmap (mark_all (range_of (dc_first x) (dc_last x)) (dk_bitmap k)) k)
    (set_cache (discard_finish (Ok tt) (dc_keys x) (w_cache w)) w)))
    (a_apply (if dc_template x then Silent else Discarded (dc_disk x) (dc_first x) (dc_last x)) A).
Proof.
  intros Sd El Hio Hk. pose proof (so_static _ _ Sd) as S. assert (x ∈ w_discards w) as Hx by (rewrite El; set_solver).
  destruct (st_discard _ S x Hx) as (k0 & Hk0 & Hr & Hl & Hkeys). assert (k0 = k) as -> by congruence. clear Hk0.
  destruct (st_disk _ S _ k Hk) as [_ Hlen].
  assert (forall b, has_block k b -> upper (with_bitmap (mark_all (range_of (dc_first x) (dc_last x)) (dk_bitmap k)) k) b =
    bool_decide (dc_first x <= b <= dc_last x) || upper k b) as Hup.
  { intros b Hb. unfold upper. simpl. rewrite mark_all_spec; [|apply Forall_forall; intros b' Hb'%range_elem; lia|apply Hb].
    f_equal. apply bool_decide_ext, range_elem. }
  assert (forall d b, a_apply (if dc_template x then Silent else Discarded (dc_disk x) (dc_first x) (dc_last x)) A d b =
    if bool_decide (in_discard d b x) && negb (dc_template x) then zeroPage else A d b) as HA.
  { intros d b. destruct (dc_template x); simpl; [by rewrite andb_false_r|]. rewrite andb_true_r. unfold in_discard.
    destruct (Z.eqb_spec d (dc_disk x)), (Z.leb_spec (dc_first x) b), (Z.leb_spec b (dc_last x)); simpl; case_bool_decide; try done; lia. }
  apply (discard_end_sound w _ l1 x l2 k (with_bitmap (mark_all (range_of (dc_first x) (dc_last x)) (dk_bitmap k)) k) (w_cache w) A _ Sd El Hk); try done.
  - apply (st_cache _ S).
  - apply mark_all_length.
  - intros b Hb Hn. rewrite Hup by done. rewrite bool_decide_false; [done|]. intros X. by apply Hn.
  - intros b Hb _ Hu. rewrite Hup, Hu by done. apply orb_true_r.
  - intros b Hb Hu. rewrite Hup in Hu by done. apply orb_false_iff in Hu as [Hu%bool_decide_eq_false _]. rewrite HA, bool_decide_false; [done|]. by intros [_ X].
  - intros d b Hn. by rewrite HA, bool_decide_false.
  - intros He b Hb Hin _ Hh. destruct (he_discard _ _ _ _ _ Hh x Hx Hin Hio) as [-> ->]. split; [done|]. rewrite HA, bool_decide_true by done. simpl.
    destruct (dc_template x) eqn:Et; simpl; [|done]. destruct (bs_discard _ _ _ _ _ (so_block _ _ Sd _ k b Hk Hb) x Hx Hin) as (_ & X & _). by apply X.
Qed.
Lemma discard_err_sound w l1 x l2 e A : sound w A -> w_discards w = l1 ++ x :: l2 ->
  sound (set_discards (l1 ++ l2) (set_cache (discard_finish (Err e) (dc_keys x) (w_cache w)) w)) A.
Proof.
  intros Sd El. pose proof (so_static _ _ Sd) as S. assert (x ∈ w_discards w) as Hx by (rewrite El; set_solver).
  destruct (st_discard _ S x Hx) as (k & Hk & _). destruct (fail_err e (w_cache w)) as [He Hp].
  apply (discard_end_sound w _ l1 x l2 k k (failLocked e (w_cache w)) A A Sd El Hk); try done.
  - apply fail_inv, (st_cache _ S).
  - unfold failLocked. by destruct (ca_err (w_cache w)).
  - simpl. by rewrite insert_id.
Qed.
Lemma write_ok_sound w l1 x l2 ctx io k c A : sound w A -> w_writes w = l1 ++ x :: l2 -> pd_io x = Some io -> w_disks w !! (pd_key x).1 = Some k ->
  write_publish ctx (pd_key x) (pd_off x) (pd_buf x) io (w_cache w) = (Ok tt, c) ->
  sound (set_writes (l1 ++ l2) (set_disk (pd_key x).1 (with_bitmap (markDirty (pd_key x).2 (dk_bitmap k)) k) (set_cache c w)))
    (a_apply (Wrote (pd_key x).1 (pd_off x) (pd_buf x)) A).
Proof.
  intros Sd Ew Hio Hk Hp. pose proof (so_static _ _ Sd) as S. pose proof (st_cache _ S) as I.
  assert (x ∈ w_writes w) as Hx by (rewrite Ew; set_solver).
  destruct (pending_disk w A x Sd Hx) as (k' & p & Hk' & Hb & Hpg & Hs). assert (k' = k) as -> by congruence. clear Hk'.
  destruct (pd_key x) as [d b] eqn:Ek. simpl in *. destruct (st_write _ S x Hx) as (Eb & Hbuf & Hfit). rewrite Ek in Eb. simpl in Eb.
  destruct (pending_alone w A x d b k Sd Hx Ek Hk Hb) as (Hnl & Hnd & Hnw).
  pose proof (so_block _ _ Sd d k b Hk Hb) as B.
  assert (exists bytes, io = Ok bytes /\ checkLocked ctx (w_cache w) = Ok tt) as (bytes & -> & Hc).
  { unfold write_publish in Hp. destruct io as [bytes|e]; [|done]. destruct (checkLocked ctx (w_cache w)) as [[]|e]; [by eauto|done]. }
  destruct (he_write _ _ _ _ _ (bs_healthy _ _ _ _ _ B (checked _ _ Hc)) x bytes Hx Ek Hio) as [Hpage Hput].
  set (w' := set_writes _ _). destruct (write_publish_ok (owned w') ctx (d, b) (pd_off x) (pd_buf x) bytes (w_cache w) p) as (c' & q & E & I' & Ct & Hpg' & Hq & Hqb); try done.
  { revert I. apply give_out. intros s. symmetry. rewrite <-Ek. by apply (owned_write w w' l1 x l2). }
  rewrite E in Hp. injection Hp as ->. pose proof (st_disk _ S d k Hk) as Dk.
  apply (touch_sound w w' A _ d b k (with_bitmap (markDirty b (dk_bitmap k)) k) Sd); try done.
  - apply markDirty_length.
  - intros b' Hb' Hne. rewrite marked by done. by destruct (Z.eqb_spec b b').
  - intros y Hy. apply (st_write _ S). rewrite Ew. by apply middle_elem.
  - intros y Hy _. rewrite Ew. by apply middle_elem.
  - intros y Hy. left. simpl. by rewrite Hpg', lookup_insert_ne.
  - intros d' b' Hne. simpl. rewrite Eb. by apply a_put_ne.
  - intros _. apply (dirty_block w A w' _ d k _ b q B); try done.
    + intros y Hy. rewrite <-Ek. by apply (pending_unique w l1 x l2 y I Ew).
    + intros X. by apply Hnw, written_subset.
    + unfold page_at. simpl. by rewrite Hpg', lookup_insert_eq.
    + rewrite marked by done. by rewrite Z.eqb_refl.
    + simpl. by rewrite Eb, a_put_eq, Hqb.
Qed.

(** From here on the file keeps its promises and the lower layers hold whole blocks. *)
Context {laws : DiffFileLaws F}.
Context (base_page : forall d b, is_page (base d b)) (template_page : forall d b x, template d b = Some x -> is_page x).
#[local] Set Default Proof Using "All".

(** A loaded block is what the disk holds. *)
Lemma loaded_block w A x fill b k : sound w A -> x ∈ w_loads w -> ld_io x = Some (Ok fill) -> w_disks w !! ld_disk x = Some k ->
  ca_err (w_cache w) = None -> in_load (ld_disk x) b x -> fill b = df_block (dk_file k) b /\ A (ld_disk x) b = fill b /\ is_page (fill b).
Proof.
  intros Sd Hx Hio Hk E Hb. pose proof (so_static _ _ Sd) as S. destruct (st_load _ S x Hx) as (k' & Hk' & Hrange).
  assert (k' = k) as -> by congruence. pose proof (so_block _ _ Sd _ k b Hk (Hrange b Hb)) as B.
  destruct (bs_healthy _ _ _ _ _ B E) as [C1 C2 _ _ _]. pose proof (C2 x fill Hx Hb Hio) as Hf. split; [done|].
  destruct (bs_load _ _ _ _ _ B x Hx Hb) as [Hu Hc]. rewrite Hf. split; [|apply df_block_page; [apply (st_disk _ S _ k Hk)|by apply Hrange]].
  assert (cell k b (page_at w (ld_disk x) b) (A (ld_disk x) b)) as Cl.
  { apply C1. intros y Hy Hyd. destruct (bs_discard _ _ _ _ _ B y Hy Hyd) as (_ & _ & Hno). exact (Hno x Hx Hb). }
  unfold cell in Cl. destruct (page_at w (ld_disk x) b) as [p|]; [|by apply Cl].
  destruct Hc as [Hc|[Hc|Hc]]; simpl in Hc; [done|..]; injection Hc as Hc; rewrite Hc in Cl; by apply Cl.
Qed.
Lemma load_ok_sound w l1 x l2 ctx fill c A : sound w A -> w_loads w = l1 ++ x :: l2 -> ld_io x = Some (Ok fill) ->
  publish_run ctx (Ok fill) (load_keys x) (w_cache w) = (Ok tt, c) ->
  sound (set_loads (l1 ++ l2) (set_cache c w)) A /\
  forall b, in_load (ld_disk x) b x -> A (ld_disk x) b = fill b.
Proof.
  intros Sd El Hio Hp. unfold publish_run in Hp. destruct (checkLocked ctx (w_cache w)) as [[]|e] eqn:Hc; [|done]. injection Hp as <-.
  apply checked in Hc. assert (x ∈ w_loads w) as Hx by (rewrite El; set_solver).
  pose proof (so_static _ _ Sd) as S. destruct (st_load _ S x Hx) as (k & Hk & Hrange).
  assert (forall y, y ∈ load_keys x -> y.1 = ld_disk x /\ in_load (ld_disk x) y.2 x) as Hkeys.
  { intros y Hy%reserved_keys_elem. split; [tauto|]. split; [done|lia]. }
  split; [|intros b Hb; by apply (loaded_block w A x fill b k)].
  destruct (publish_run_ok fill (load_keys x) (owned (set_loads (l1 ++ l2) w)) (w_cache w)) as (I' & Ct & Pg).
  - pose proof (st_cache _ S) as I. revert I. apply give_out. intros s. symmetry. by apply (owned_load w _ l1 x l2).
  - intros y [_ Hy]%Hkeys. by apply (loaded_block w A x fill y.2 k).
  - apply (load_end_static w _ l1 x l2 A Sd El); try done.
    + intros y Hy. simpl. by rewrite Pg, bool_decide_false.
    + intros d b k1 Hin Hk1 _ _ _. right. pose proof (load_page w x (d, b) (st_cache _ S) Hx Hin) as Hs.
      unfold page_at. simpl. rewrite Pg, bool_decide_true by done. destruct (ca_pages (w_cache w) !! (d, b)) as [p|]; [|done].
      eexists. split; [reflexivity|]. split; [done|]. unfold page_bytes; simpl. destruct (Hkeys _ Hin) as [E Hl]; simpl in *; subst d.
      assert (k1 = k) as -> by congruence. by apply (loaded_block w A x fill b k).
    + intros y Hy. pose proof (load_page w x y (st_cache _ S) Hx Hy) as Hs. simpl. rewrite Pg, bool_decide_true by done.
      destruct (ca_pages (w_cache w) !! y); [|done]. by right; right.
Qed.
Lemma contents_page w A d k b : sound w A -> w_disks w !! d = Some k -> has_block k b -> upper k b = false -> is_page (A d b).
Proof.
  intros Sd Hk Hb Hu. rewrite (bs_lower _ _ _ _ _ (so_block _ _ Sd d k b Hk Hb) Hu). unfold WriteBackSteps.lower.
  destruct (dk_material k); [|apply base_page]. destruct (template d b) eqn:E; [by apply (template_page d b)|apply base_page].
Qed.
Lemma init_page_contents w A x d b k p bytes stored low : sound w A -> x ∈ w_writes w -> pd_key x = (d, b) -> w_disks w !! d = Some k -> has_block k b ->
  ca_err (w_cache w) = None -> ca_pages (w_cache w) !! (d, b) = Some p -> pg_data p = Some bytes ->
  reads (df_block (dk_file k) b) stored -> reads (lower k d b) low ->
  forall bytes', init_page (pd_off x) (pd_buf x) (pd_upper x) stored low bytes = Ok bytes' -> is_page bytes' /\
    Page.put (Z.to_nat (pd_off x mod PageSize)) (pd_buf x) bytes' = Page.put (Z.to_nat (pd_off x mod PageSize)) (pd_buf x) (A d b).
Proof.
  intros Sd Hx Ek Hk Hb He Hp Hd Hst Hlow bytes' Hi. pose proof (so_static _ _ Sd) as S. pose proof (st_cache _ S) as I.
  pose proof (so_block _ _ Sd d k b Hk Hb) as B. pose proof (write_page w x I Hx) as Hs. rewrite Ek, Hp in Hs. injection Hs as Hs.
  destruct (pending_alone w A x d b k Sd Hx Ek Hk Hb) as (_ & Hnd & _).
  pose proof (he_cell _ _ _ _ _ (bs_healthy _ _ _ _ _ B He) Hnd) as Cl. unfold cell, page_at in Cl. rewrite Hp, Hs in Cl.
  assert (is_page (A d b)) as Ha.
  { destruct (upper k b) eqn:Hu; [|by apply (contents_page w A d k b)]. destruct (Cl eq_refl) as [_ ->]. apply df_block_page; [apply (st_disk _ S d k Hk)|done]. }
  unfold init_page in Hi. destruct ((pd_off x mod PageSize =? 0) && (Z.of_nat (length (pd_buf x)) =? PageSize)) eqn:Ef.
  - injection Hi as <-. apply andb_true_iff in Ef as [E1%Z.eqb_eq E2%Z.eqb_eq]. destruct (ci_page _ _ I _ _ Hp) as [Hpg _].
    split; [by apply Hpg|]. rewrite E1. change (Z.to_nat 0) with 0%nat. destruct (Hpg _ Hd) as [L1 _], Ha as [L2 _].
    assert (length (pd_buf x) = page_len) by plia. by rewrite !put_whole.
  - rewrite (bs_write _ _ _ _ _ B x Hx Ek) in Hi. destruct (upper k b) eqn:Hu.
    + destruct Hst as [->|[e ->]]; [|done]. injection Hi as <-. destruct (Cl eq_refl) as [_ Ea]. rewrite <-Ea. done.
    + destruct Hlow as [->|[e ->]]; [|done]. injection Hi as <-. rewrite <-(bs_lower _ _ _ _ _ B Hu). done.
Qed.
Lemma write_io_sound w l1 x l2 k p bytes stored low A : sound w A -> w_writes w = l1 ++ x :: l2 -> w_disks w !! (pd_key x).1 = Some k ->
  ca_pages (w_cache w) !! pd_key x = Some p -> pg_data p = Some bytes ->
  reads (df_block (dk_file k) (pd_key x).2) stored -> reads (lower k (pd_key x).1 (pd_key x).2) low ->
  sound (set_writes (l1 ++ filled (init_page (pd_off x) (pd_buf x) (pd_upper x) stored low bytes) x :: l2) w) A.
Proof.
  intros Sd Ew Hk Hp Hd Hst Hlow. pose proof (so_static _ _ Sd) as S. set (x' := filled _ x). set (w' := set_writes _ _).
  assert (forall y, y ∈ w_writes w' -> y ∈ w_writes w \/ y = x') as Hy by (intros y; simpl; rewrite Ew; set_solver).
  assert (x ∈ w_writes w) as Hx by (rewrite Ew; set_solver).
  apply (sound_intro w w' A A Sd).
  - pose proof (st_cache _ S) as I. revert I. apply give_out. intros []; simpl; try done. by rewrite Ew, !fmap_app, !fmap_cons.
  - by apply same_disks_refl.
  - intros d b q Hq. left. by exists q.
  - apply (st_load _ S).
  - intros y [Hin| ->]%Hy; [by apply (st_write _ S)|exact (st_write _ S x Hx)].
  - apply (st_discard _ S).
  - exact (st_worker _ S).
  - intros d k1 k2 b Hk1 Hk2 Hb B. simpl in Hk2. assert (k2 = k1) as -> by congruence.
    apply (block_frame_io w w' A A d k1 k1 b B); try done; [by left|by eauto|].
    intros y [Hin| ->]%Hy Ek; [by eauto 12|]. simpl in Ek. exists x. repeat (split; [done|]). right. intros He bytes' Eb. simpl in Eb. injection Eb as Eb.
    rewrite Ek in *. simpl in *. assert (k1 = k) as -> by congruence. by apply (init_page_contents w A x d b k p bytes stored low).
Qed.
Lemma discard_io_sound w l1 x l2 k r f A : sound w A -> w_discards w = l1 ++ x :: l2 -> w_disks w !! dc_disk x = Some k ->
  df_discard (dc_first x) (dc_last x) (dk_file k) r f ->
  sound (set_discards (l1 ++ discarded r x :: l2) (set_disk (dc_disk x) (with_file f k) w)) A.
Proof.
  intros Sd El Hk Hd. pose proof (so_static _ _ Sd) as S. set (x' := discarded r x). set (w' := set_discards _ _).
  assert (x ∈ w_discards w) as Hx by (rewrite El; set_solver).
  destruct (st_discard _ S x Hx) as (k' & Hk' & Hr & Hl & Hkeys). assert (k' = k) as -> by congruence. clear Hk'.
  destruct (st_disk _ S _ k Hk) as [Hok Hlen]. destruct (df_discard_ok _ _ _ _ _ Hok Hr Hl Hd) as (Hok' & Hbl & Hkept & Hdone).
  assert (forall y, y ∈ w_discards w' -> y ∈ l1 ++ l2 \/ y = x') as Hy by (intros y; simpl; set_solver).
  apply (sound_intro w w' A A Sd).
  - pose proof (st_cache _ S) as I. revert I. apply give_out. intros []; simpl; try done. by rewrite El, !fmap_app, !fmap_cons.
  - apply (same_disks_set w w' (dc_disk x) k (with_file f k)); [done..|]. intros _. split; simpl; [done|lia].
  - intros d b p Hp. left. by exists p.
  - apply (st_load _ S).
  - apply (st_write _ S).
  - intros y [Hin| ->]%Hy; [apply (st_discard _ S); rewrite El; by apply middle_elem|]. exact (st_discard _ S x Hx).
  - apply (worker_kept w); [|done|done|done|done|apply (st_worker _ S)]. by apply (disks_kept_set w w' (dc_disk x) k (with_file f k)).
  - intros d k1 k2 b Hk1 Hk2 Hb B. simpl in Hk2.
    destruct (decide (in_discard d b x)) as [Hcov|Hcov].
    + pose proof Hcov as [<- Hb']. assert (k1 = k) as -> by congruence. rewrite lookup_insert_eq in Hk2. injection Hk2 as <-.
      pose proof (not_discarding w (dc_disk x) b x S Hx Hcov A k B) as Hs. destruct B as [B1 B2 B3 B4 B4' B5 B6 B7].
      rewrite El in B4'. pose proof (covering_middle _ b l1 x l2 Hcov B4') as Hal.
      destruct (B4 x Hx Hcov) as (Cx1 & Cx2 & Cx3). split; try done.
      * intros y [Hin| ->]%Hy Hyd; [by destruct (Hal y)|done].
      * simpl. revert B4'. unfold covering. rewrite !filter_app, !filter_cons_True, !length_app by done. simpl. lia.
      * intros E. destruct (B7 E) as [C1 C2 C3 C4 C5]. split.
        -- intros Hn. destruct (Hn x'); [simpl; set_solver|done].
        -- intros y fill Hin Hlo. by destruct (Cx3 y).
        -- done.
        -- intros y [Hin| ->]%Hy Hyd Hio; [by destruct (Hal y)|]. simpl in Hio. injection Hio as ->. by apply Hdone.
        -- intros Hin. destruct (not_written w (dc_disk x, b) (st_cache _ S)); [|done]. fold (page_at w (dc_disk x) b). by destruct Hs as [->| ->].
    + assert (upper k2 b = upper k1 b /\ df_kept (dk_file k1) (dk_file k2) b /\ dk_material k2 = dk_material k1) as (E1 & E2 & E3).
      { destruct (decide (d = dc_disk x)) as [->|Hne].
        - rewrite lookup_insert_eq in Hk2. injection Hk2 as <-. assert (k1 = k) as -> by congruence. split; [done|]. split; [|done].
          apply Hkept; [done|]. intros X. by apply Hcov.
        - rewrite lookup_insert_ne in Hk2 by done. by assert (k2 = k1) as -> by congruence. }
      apply (block_frame w w' A A d k1 k2 b B); try done; [by left|]. simpl. rewrite El. unfold covering. rewrite !filter_app, !filter_cons_False by done. done.
Qed.
End Sound.
