(* ===== verification/WriteBackRun.v ===== *)
(** * WriteBackRun: every run of the cached disks shows plain disks.

    The remaining steps — the materializer, the worker, attaching and detaching — and
    the refinement: whatever the interleaving, a reader is shown what a plain array of
    blocks would hold. *)
From stdpp Require Import base numbers list gmap strings.
From Stdlib Require Import ZArith Lia.
From S2P Require Import Prelude Page Presence Format WriteBack WriteBackInv WriteBackSteps WriteBackShape WriteBackSound.

#[local] Set Default Proof Using "All".
Section Run.
Context {F : Type} {DF : DiffFile F} {laws : DiffFileLaws F} (base : Z -> Z -> list Z) (template : Z -> Z -> option (list Z)) (versions : Z -> bool).
Context (base_page : forall d b, is_page (base d b)) (template_page : forall d b x, template d b = Some x -> is_page x).
Notation world := (@world F).
Notation disk := (@disk F).
Notation lower := (lower base template).
Notation step := (step base template versions).
Notation sound := (sound base template).
Notation block_sound := (block_sound base template).
Implicit Types (w : world) (k : disk) (A : contents).

(** ** The materializer *)

Lemma material_pages_ok k d first last : 0 <= first <= last -> last < df_blocks (dk_file k) -> last - first < Z.of_nat maxWritebackPages ->
  (forall b, first <= b <= last -> template d b <> None) -> material_pages template k d first last <> [] ->
  batch_ok (df_blocks (dk_file k)) (material_pages template k d first last).
Proof.
  intros Hr Hl Hn Ht Hne. split; [done|]. unfold material_pages in *. split; [|split].
  - rewrite <-list_fmap_compose. apply NoDup_fmap_2_strong; [by intros x y _ _ E|]. apply NoDup_filter, range_NoDup.
  - exists false. split; [by apply Forall_fmap, Forall_forall|]. rewrite length_fmap.
    pose proof (length_filter (fun b => upper k b = false) (range_of first last)) as X.
    assert (length (range_of first last) = Z.to_nat (last - first + 1)) as Y by (unfold range_of, blocks_of; by rewrite length_fmap, length_seq). lia.
  - apply Forall_fmap, Forall_forall. intros b [_ Hb%range_elem]%list_elem_of_filter. simpl. split; [lia|]. intros _.
    specialize (Ht b Hb). destruct (template d b) as [x|] eqn:E; [|done]. by apply (template_page d b).
Qed.
Lemma material_elem k d first last b : b ∈ pw_block <$> material_pages template k d first last <-> first <= b <= last /\ upper k b = false.
Proof.
  unfold material_pages. rewrite <-list_fmap_compose, list_elem_of_fmap. setoid_rewrite list_elem_of_filter. setoid_rewrite range_elem. split.
  - intros (y & -> & ? & ?). by simpl.
  - intros [? ?]. by exists b.
Qed.
(** A block nobody uses and nobody wrote has no page. *)
Lemma unwritten_page w A d k b : sound w A -> w_disks w !! d = Some k -> has_block k b -> free_excl w d b -> upper k b = false -> page_at w d b = None.
Proof.
  intros Sd Hk Hb Hf Hu. destruct (page_at w d b) as [p|] eqn:E; [|done]. pose proof (so_block _ _ _ _ Sd d k b Hk Hb) as B.
  pose proof (st_cache _ (so_static _ _ _ _ Sd)) as I. destruct (decide (pg_state p = cacheConstructing)) as [Hs|Hs].
  - assert ((d, b) ∈ owned w cacheConstructing) as X.
    { apply (ci_where _ _ I cacheConstructing (d, b)). unfold page_at in E. rewrite E. simpl. by rewrite Hs. }
    simpl in X. apply list_elem_of_fmap in X as (x & Ex & Hx). by destruct (free_no_write w d b x (proj1 Hf) Hx).
  - rewrite (bs_upper _ _ _ _ _ _ _ B p E Hs) in Hu. done.
Qed.
Lemma material_sound w d first last k r f A : sound w A -> w_disks w !! d = Some k -> dk_material k <> None ->
  0 <= first <= last -> last < df_blocks (dk_file k) -> last - first < Z.of_nat maxWritebackPages ->
  (forall b, first <= b <= last -> free_excl w d b /\ template d b <> None) ->
  material_pages template k d first last <> [] -> df_write (material_pages template k d first last) (dk_file k) r f ->
  sound (set_disk d (match r with
      | Ok _ => with_bitmap (mark_all (pw_block <$> material_pages template k d first last) (dk_bitmap k)) (with_file f k)
      | Err _ => with_file f k
      end) w) A.
Proof.
  intros Sd Hk Hm Hr Hl Hn Hf Hne Hw. pose proof (so_static _ _ _ _ Sd) as S. destruct (st_disk _ S d k Hk) as [Hok Hlen].
  pose proof (material_pages_ok k d first last Hr Hl Hn (fun b Hb => proj2 (Hf b Hb)) Hne) as Hbatch.
  destruct (df_write_ok _ _ _ _ Hok Hbatch Hw) as (Hok' & Hbl & Hkept & Hdone).
  set (l := pw_block <$> material_pages template k d first last) in *. set (k' := match r with Ok _ => _ | Err _ => _ end). set (w' := set_disk d k' w).
  assert (dk_file k' = f /\ dk_material k' = dk_material k /\ length (dk_bitmap k') = length (dk_bitmap k)) as (Ef & Em & Eb).
  { unfold k'. destruct r; simpl; [by rewrite mark_all_length|done]. }
  assert (forall b, has_block k b -> upper k' b = (if r then bool_decide (b ∈ l) else false) || upper k b) as Hup.
  { intros b Hb. unfold k'. destruct r; [|done]. unfold upper; simpl. apply mark_all_spec; [|apply Hb].
    apply Forall_forall. intros b' [Hb' _]%material_elem. lia. }
  apply (sound_intro _ _ w w' A A Sd).
  - apply (st_cache _ S).
  - apply (same_disks_set w w' d k k'); [done|done|by rewrite Ef|]. intros _. unfold disk_static. rewrite Ef, Eb. split; [done|lia].
  - intros d' b p Hp. left. by exists p.
  - apply (st_load _ S).
  - apply (st_write _ S).
  - apply (st_discard _ S).
  - apply (worker_kept w); [|done..|apply (st_worker _ S)]. apply (disks_kept_set w w' d k k'); [done|done|by rewrite Ef].
  - intros d' k1 k2 b Hk1 Hk2 Hb B. simpl in Hk2. destruct (decide (d' = d)) as [->|Hd].
    2: { rewrite lookup_insert_ne in Hk2 by done. assert (k2 = k1) as -> by congruence. apply (block_frame _ _ w w' A A d' k1 k1 b B); try done. by left. }
    rewrite lookup_insert_eq in Hk2. injection Hk2 as <-. assert (k1 = k) as -> by congruence.
    destruct (decide (b ∈ l)) as [Hin|Hin].
    2: { apply (block_frame _ _ w w' A A d k k' b B); try done; [by left| |rewrite Ef; by apply Hkept].
         rewrite Hup by done. by destruct r; [rewrite bool_decide_false|]. }
    pose proof Hin as [Hb' Hu]%material_elem. destruct (Hf b Hb') as [Hfr Ht].
    pose proof (unwritten_page w A d k b Sd Hk Hb Hfr Hu) as Hp. destruct B as [B1 B2 B3 B4 B4' B5 B6 B7].
    assert (forall x, x ∈ w_discards w' -> ~ in_discard d b x) as Hnd by exact (fun x => free_no_discard w d b x (proj1 Hfr)).
    assert (page_at w' d b = None) as Hp' by exact Hp. split.
    + intros p. by rewrite Hp'.
    + intros x Hx Hlx. by destruct (free_no_load w d b x Hfr Hx).
    + intros x Hx E. by destruct (free_no_write w d b x (proj1 Hfr) Hx).
    + intros x Hx E. by destruct (Hnd x Hx).
    + exact B4'.
    + intros E. rewrite (B5 Hu). unfold WriteBackSteps.lower. by rewrite Em.
    + intros n. rewrite Em. intros E1 E2 E3. rewrite Hup by done. rewrite (B6 n) by done. apply orb_true_r.
    + intros E. split.
      * intros _. rewrite Hp'. unfold cell. rewrite Hup, Hu, orb_false_r by done. destruct r as [[]|]; [|done]. intros _. rewrite Ef.
        assert (mkPageWrite b (default [] (template d b)) false false ∈ material_pages template k d first last) as X.
        { unfold material_pages. apply list_elem_of_fmap. exists b. split; [done|]. apply list_elem_of_filter. split; [done|]. by apply range_elem. }
        destruct (Hdone eq_refl _ X) as [Y1 Y2]. simpl in Y1, Y2. split; [done|]. rewrite Y1, (B5 Hu). unfold WriteBackSteps.lower, written_bytes. simpl.
        destruct (dk_material k); [|done]. by destruct (template d b).
      * intros x fill Hx Hlx. by destruct (free_no_load w d b x Hfr Hx).
      * intros x bytes Hx E'. by destruct (free_no_write w d b x (proj1 Hfr) Hx).
      * intros x Hx E'. by destruct (Hnd x Hx).
      * intros _ p. by rewrite Hp'.
Qed.
(** Only the progress of the materializer changes. *)
Lemma material_progress w d k m A : sound w A -> w_disks w !! d = Some k ->
  (forall b, has_block k b -> upper k b = false -> lower (with_material m k) d b = lower k d b) ->
  (forall b n, has_block k b -> block_sound w A d k b -> m = Some n -> b < n -> template d b <> None -> upper k b = true) ->
  sound (set_disk d (with_material m k) w) A.
Proof.
  intros Sd Hk Hlow Hm. pose proof (so_static _ _ _ _ Sd) as S. set (w' := set_disk _ _ _). apply (sound_intro _ _ w w' A A Sd).
  - apply (st_cache _ S).
  - by apply (same_disks_set w w' d k (with_material m k)).
  - intros d' b p Hp. left. by exists p.
  - apply (st_load _ S).
  - apply (st_write _ S).
  - apply (st_discard _ S).
  - apply (worker_kept w); [|done..|apply (st_worker _ S)]. by apply (disks_kept_set w w' d k (with_material m k)).
  - intros d' k1 k2 b Hk1 Hk2 Hb B. simpl in Hk2. destruct (decide (d' = d)) as [->|Hd].
    2: { rewrite lookup_insert_ne in Hk2 by done. assert (k2 = k1) as -> by congruence. apply (block_frame _ _ w w' A A d' k1 k1 b B); try done. by left. }
    rewrite lookup_insert_eq in Hk2. injection Hk2 as <-. assert (k1 = k) as -> by congruence.
    pose proof B as [B1 B2 B3 B4 B4' B5 B6 B7]. split; try done.
    + intros E. rewrite (Hlow b Hb E). by apply B5.
    + intros n E1 E2 E3. by apply (Hm b n Hb B).
    + intros E. destruct (B7 E) as [C1 C2 C3 C4 C5]. by split.
Qed.
Lemma material_next_sound w d k n A : sound w A -> w_disks w !! d = Some k -> dk_material k = Some n -> template d n = None \/ upper k n = true ->
  sound (set_disk d (with_material (Some (n + 1)) k) w) A.
Proof.
  intros Sd Hk Hm Hn. apply material_progress; try done.
  - intros b Hb _. unfold WriteBackSteps.lower. simpl. by rewrite Hm.
  - intros b n' Hb B [= <-] Hlt Ht. destruct (decide (b = n)) as [->|]; [destruct Hn; congruence|]. apply (bs_material _ _ _ _ _ _ _ B n Hm); [lia|done].
Qed.
Lemma material_done_sound w d k n A : sound w A -> w_disks w !! d = Some k -> dk_material k = Some n -> df_blocks (dk_file k) <= n ->
  sound (set_disk d (with_material None k) w) A.
Proof.
  intros Sd Hk Hm Hn. apply material_progress; try done.
  intros b Hb Hu. unfold WriteBackSteps.lower. simpl. rewrite Hm. destruct (template d b) eqn:E; [|done].
  rewrite (bs_material _ _ _ _ _ _ _ (so_block _ _ _ _ Sd d k b Hk Hb) n Hm) in Hu; [done|unfold has_block in Hb; lia|by rewrite E].
Qed.

(** ** The worker *)

(** Pages are frozen for the worker. *)
Lemma froze_sound w w' d zero l c A : sound w A -> froze d zero (owned w) (w_cache w) l c ->
  ca_pages (w_cache w') = ca_pages c -> ca_err (w_cache w') = ca_err c -> cache_inv (lend cacheWriteback l (owned w)) (w_cache w') ->
  w_disks w' = w_disks w -> w_loads w' = w_loads w -> w_writes w' = w_writes w -> w_discards w' = w_discards w ->
  worker_keys (w_worker w') ≡ₚ worker_keys (w_worker w) ++ l -> written_keys (w_worker w') = [] -> worker_ok w' -> sound w' A.
Proof.
  intros Sd (_ & (_ & _ & _ & _ & Ce) & Hl & Hpg) Ep Ee I' Ed Elo Ewr Edc Ek Ewk Hw. pose proof (so_static _ _ _ _ Sd) as S. pose proof (st_cache _ S) as I.
  apply (sound_intro _ _ w w' A A Sd).
  - revert I'. apply give_out. intros []; rewrite ?lend_eq, ?lend_ne by done; simpl; rewrite ?Elo, ?Ewr, ?Edc, ?Ek; done.
  - by apply same_disks_refl.
  - intros d' b p Hp. left. unfold page_at in *. rewrite Ep, Hpg in Hp. case_bool_decide; [|by exists p].
    destruct (ca_pages (w_cache w) !! (d', b)) as [q|]; [by exists q|done].
  - rewrite Elo. apply (st_load _ S).
  - rewrite Ewr. apply (st_write _ S).
  - rewrite Edc. apply (st_discard _ S).
  - done.
  - intros d' k1 k2 b Hk1 Hk2 Hb B. rewrite Ed in Hk2. assert (k2 = k1) as -> by congruence.
    destruct (decide ((d', b) ∈ l)) as [Hin|Hin].
    2: { apply (block_frame _ _ w w' A A d' k1 k1 b B); try done; [|by rewrite Ee, Ce|by rewrite Elo|by rewrite Ewr|by rewrite Edc|by rewrite Ewk; set_solver].
         left. by rewrite Ep, Hpg, bool_decide_false. }
    destruct (Hl _ Hin) as (_ & p & Hp & Hs & _).
    assert (page_at w' d' b = Some (with_state cacheWriteback p)) as Hp' by (unfold page_at; by rewrite Ep, Hpg, bool_decide_true, Hp by done).
    assert (forall x, x ∈ w_discards w -> ~ in_discard d' b x) as Hnd.
    { intros x Hx Hd. destruct (not_discarding _ _ w d' b x S Hx Hd A k1 B) as [E|E]; unfold page_at in E; rewrite Hp in E; simpl in E; congruence. }
    assert (forall x, x ∈ w_loads w -> ~ in_load d' b x) as Hnl.
    { intros x Hx Hlo. destruct (bs_load _ _ _ _ _ _ _ B x Hx Hlo) as [_ Hc]. unfold page_at in Hc. rewrite Hp in Hc. simpl in Hc. rewrite Hs in Hc. by destruct Hc as [?|[?|?]]. }
    pose proof (bs_upper _ _ _ _ _ _ _ B p Hp ltac:(by rewrite Hs)) as Hu. destruct B as [B1 B2 B3 B4 B4' B5 B6 B7]. split; try done.
    + rewrite Elo. intros x Hx Hlo. by destruct (Hnl x).
    + rewrite Ewr. done.
    + rewrite Edc. intros x Hx Hd. by destruct (Hnd x).
    + by rewrite Edc.
    + rewrite Ee, Ce. intros E. destruct (B7 E) as [C1 C2 C3 C4 C5]. split.
      * intros _. specialize (C1 Hnd). rewrite Hp'. unfold cell, page_at in *. rewrite Hp, Hs in C1. done.
      * rewrite Elo. intros x fill Hx Hlo. by destruct (Hnl x).
      * rewrite Ewr. done.
      * rewrite Edc. intros x Hx Hd. by destruct (Hnd x).
      * rewrite Ewk. set_solver.
Qed.
Lemma froze_uniform w w' d zero l c : froze d zero (owned w) (w_cache w) l c -> ca_pages (w_cache w') = ca_pages c -> uniform w' d zero l.
Proof.
  intros (_ & _ & Hl & Hpg) Ep x Hx. destruct (Hl x Hx) as (Hd & p & Hp & _ & Hz). split; [done|].
  by rewrite Ep, Hpg, bool_decide_true, Hp by done; simpl; rewrite Hz.
Qed.
Lemma select_sound w d zero batch c A : sound w A -> w_worker w = WorkerIdle -> select_batch (ready w) (w_cache w) = Some (d, zero, batch, c) ->
  sound (set_worker (WorkerWrite d batch false) (set_cache c w)) A.
Proof.
  intros Sd Hw Hs. pose proof (so_static _ _ _ _ Sd) as S. pose proof (select_spec (owned w) (ready w) (w_cache w) (st_cache _ S)) as Q. rewrite Hs in Q.
  destruct Q as (He & Hc & Hr & Hlen & (x & rest & _ & _ & Hx) & c1 & Hf & ->). set (w' := set_worker _ _).
  apply (froze_sound w w' d zero batch c1 A Sd Hf); try done; [by destruct Hf as [[] _]|simpl; by rewrite Hw|].
  split; [done|]. split.
  - simpl. unfold ready in Hr. destruct (w_disks w !! d); [by eexists|done].
  - split; [by intros ->; set_solver|]. exists zero. split; [by apply (froze_uniform w w' d zero batch c1)|done].
Qed.
Lemma repair_sound w d batch cohort c A : sound w A -> w_worker w = WorkerPressed d batch -> repair_freeze d (w_cache w) = (cohort, c) ->
  sound (set_worker (WorkerRepair d batch cohort) (set_cache c w)) A.
Proof.
  intros Sd Hw Hr. pose proof (so_static _ _ _ _ Sd) as S. pose proof (repair_spec d (owned w) (w_cache w) cohort c (st_cache _ S) Hr) as Hf.
  set (w' := set_worker _ _). pose proof (st_worker _ S) as Ok. unfold worker_ok in Ok. rewrite Hw in Ok. destruct Ok as (Ha & Hd & Hne & z & Hu & Hl).
  apply (froze_sound w w' d true cohort c A Sd Hf); try done; [apply Hf|simpl; by rewrite Hw|].
  pose proof Hf as (_ & (_ & _ & _ & Ca & _) & Hl' & Hpg). split; [by simpl; rewrite Ca|]. split; [done|]. split; [|by apply (froze_uniform w w' d true cohort c)].
  split; [done|]. exists z. split; [|done]. intros x Hx. destruct (Hu x Hx) as [E1 E2]. split; [done|]. simpl. rewrite Hpg.
  case_bool_decide; [|done]. by destruct (ca_pages (w_cache w) !! x).
Qed.
(** The worker goes on with the same pages. *)
Lemma worker_move_sound w w' A : sound w A -> ca_pages (w_cache w') = ca_pages (w_cache w) -> cache_inv (owned w) (w_cache w') ->
  (ca_err (w_cache w') = None -> ca_err (w_cache w) = None) ->
  w_disks w' = w_disks w -> w_loads w' = w_loads w -> w_writes w' = w_writes w -> w_discards w' = w_discards w ->
  worker_keys (w_worker w') ≡ₚ worker_keys (w_worker w) -> (forall x, x ∈ written_keys (w_worker w') -> x ∈ written_keys (w_worker w)) ->
  worker_ok w' -> sound w' A.
Proof.
  intros Sd Ep I' Ee Ed Elo Ewr Edc Ek Ewk Hw. pose proof (so_static _ _ _ _ Sd) as S. apply (sound_intro _ _ w w' A A Sd).
  - revert I'. apply give_out. intros []; simpl; rewrite ?Elo, ?Ewr, ?Edc; done.
  - by apply same_disks_refl.
  - intros d b p Hp. left. unfold page_at in *. rewrite Ep in Hp. by exists p.
  - rewrite Elo. apply (st_load _ S).
  - rewrite Ewr. apply (st_write _ S).
  - rewrite Edc. apply (st_discard _ S).
  - done.
  - intros d k1 k2 b Hk1 Hk2 Hb B. rewrite Ed in Hk2. assert (k2 = k1) as -> by congruence.
    apply (block_frame _ _ w w' A A d k1 k1 b B); try done; [left; by rewrite Ep|by rewrite Elo|by rewrite Ewr|by rewrite Edc|apply Ewk].
Qed.
(** What the worker hands to the file. *)
Lemma keys_batch_ok w d k z l (g : cacheKey -> pageWrite) : static w -> w_disks w !! d = Some k -> l <> [] -> NoDup l -> uniform w d z l ->
  (forall x, x ∈ l -> x ∈ worker_keys (w_worker w)) -> (length l <= limit_of z)%nat ->
  (forall x p, x ∈ l -> ca_pages (w_cache w) !! x = Some p -> pw_block (g x) = x.2 /\ pw_zero (g x) = z /\ (z = false -> pw_data (g x) = default [] (pg_data p))) ->
  batch_ok (df_blocks (dk_file k)) (g <$> l) /\ pw_block <$> (g <$> l) = snd <$> l.
Proof.
  intros S Hk Hne Hnd Hu Hw Hlen Hg. pose proof (st_cache _ S) as I.
  assert (forall x, x ∈ l -> exists p, ca_pages (w_cache w) !! x = Some p /\ pg_state p = cacheWriteback /\ pg_zero p = z) as Hp.
  { intros x Hx. destruct (Hu x Hx) as [_ Hz]. pose proof (worker_page w x I (Hw x Hx)) as Hs.
    destruct (ca_pages (w_cache w) !! x) as [p|]; [|done]. simplify_eq/=. by eauto. }
  assert (pw_block <$> (g <$> l) = snd <$> l) as Eb.
  { rewrite <-list_fmap_compose. apply list_fmap_ext. intros i x Hx%list_elem_of_lookup_2. simpl. destruct (Hp x Hx) as (p & Ep & _). by apply (Hg x p). }
  split; [|done]. split; [by destruct l|]. rewrite Eb. split; [|split].
  - apply NoDup_fmap_2_strong; [|done]. intros [d1 b1] [d2 b2] H1 H2 E. simpl in E. destruct (Hu _ H1), (Hu _ H2). simpl in *. congruence.
  - exists z. rewrite length_fmap. split; [|done]. apply Forall_fmap, Forall_forall. intros x Hx. destruct (Hp x Hx) as (p & Ep & _). by apply (Hg x p).
  - apply Forall_fmap, Forall_forall. intros x Hx. destruct (Hp x Hx) as (p & Ep & Hs & Hz). destruct (Hg x p Hx Ep) as (G1 & G2 & G3). simpl. rewrite G1, G2. split.
    + destruct (Hu x Hx) as [Ed _]. destruct (st_page _ S x.1 x.2 p) as (k' & Hk' & Hb); [unfold page_at; by destruct x|]. rewrite Ed in Hk'. by assert (k' = k) as -> by congruence.
    + intros ->. rewrite G3 by done. destruct (ci_page _ _ I x p Ep) as [Hd Hok]. rewrite Hs in Hok. destruct Hok as [_ Hiff].
      destruct (pg_data p) as [b|]; [by apply Hd|]. destruct Hiff as [_ Hiff]. by rewrite Hiff in Hz.
Qed.
Lemma worker_io_sound w w' d k f l recs r A : sound w A -> w_disks w !! d = Some k -> df_write recs (dk_file k) r f ->
  batch_ok (df_blocks (dk_file k)) recs -> pw_block <$> recs = snd <$> l ->
  (forall x, x ∈ l -> x.1 = d /\ x ∈ worker_keys (w_worker w)) ->
  w_cache w' = w_cache w -> w_disks w' = <[d := with_file f k]> (w_disks w) -> w_loads w' = w_loads w -> w_writes w' = w_writes w -> w_discards w' = w_discards w ->
  worker_keys (w_worker w') ≡ₚ worker_keys (w_worker w) -> worker_ok w' ->
  (forall x, x ∈ written_keys (w_worker w') -> r = Ok tt /\ x ∈ l /\
    forall p, ca_pages (w_cache w) !! x = Some p -> exists rc, rc ∈ recs /\ pw_block rc = x.2 /\ written_bytes rc = page_bytes p) ->
  sound w' A.
Proof.
  intros Sd Hk Hw Hbatch Eb Hl Ec Ed Elo Ewr Edc Ek Hok Hwk. pose proof (so_static _ _ _ _ Sd) as S. pose proof (st_cache _ S) as I.
  destruct (st_disk _ S d k Hk) as [Hfok Hlen]. destruct (df_write_ok _ _ _ _ Hfok Hbatch Hw) as (Hok' & Hbl & Hkept & Hdone).
  apply (sound_intro _ _ w w' A A Sd).
  - rewrite Ec. revert I. apply give_out. intros []; simpl; rewrite ?Elo, ?Ewr, ?Edc; done.
  - apply (same_disks_set w w' d k (with_file f k)); [done..|]. intros _. unfold disk_static; simpl. split; [done|lia].
  - intros d' b p Hp. left. unfold page_at in *. rewrite Ec in Hp. by exists p.
  - rewrite Elo. apply (st_load _ S).
  - rewrite Ewr. apply (st_write _ S).
  - rewrite Edc. apply (st_discard _ S).
  - done.
  - intros d' k1 k2 b Hk1 Hk2 Hb B. rewrite Ed in Hk2. destruct (decide ((d', b) ∈ l)) as [Hin|Hin].
    2: { assert (upper k2 b = upper k1 b /\ df_kept (dk_file k1) (dk_file k2) b /\ dk_material k2 = dk_material k1) as (E1 & E2 & E3).
         { destruct (decide (d' = d)) as [->|Hne].
           - rewrite lookup_insert_eq in Hk2. injection Hk2 as <-. assert (k1 = k) as -> by congruence. split; [done|]. split; [|done].
             apply Hkept; [done|]. rewrite Eb. intros X. apply list_elem_of_fmap in X as ([d1 b1] & E & Hx). simpl in E. subst b1.
             destruct (Hl _ Hx) as [E _]. simpl in E. by subst d1.
           - rewrite lookup_insert_ne in Hk2 by done. by assert (k2 = k1) as -> by congruence. }
         apply (block_frame _ _ w w' A A d' k1 k2 b B); try done; [left; by rewrite Ec|by rewrite Ec|by rewrite Elo|by rewrite Ewr|by rewrite Edc|].
         intros X%Hwk. tauto. }
    destruct (Hl _ Hin) as [Ed' Hx]. simpl in Ed'. subst d'. rewrite lookup_insert_eq in Hk2. injection Hk2 as <-. assert (k1 = k) as -> by congruence.
    pose proof (worker_page w _ I Hx) as Hs.
    assert (forall x, x ∈ w_discards w -> ~ in_discard d b x) as Hnd.
    { intros x Hx' Hd. destruct (not_discarding _ _ w d b x S Hx' Hd A k B) as [E|E]; unfold page_at in E; by rewrite Hs in E. }
    assert (forall x, x ∈ w_loads w -> ~ in_load d b x) as Hnl.
    { intros x Hx' Hlo. destruct (bs_load _ _ _ _ _ _ _ B x Hx' Hlo) as [_ Hc]. unfold page_at in Hc. rewrite Hs in Hc. by destruct Hc as [?|[?|?]]. }
    assert (page_at w' d b = page_at w d b) as Hp by (unfold page_at; by rewrite Ec).
    destruct B as [B1 B2 B3 B4 B4' B5 B6 B7]. split; rewrite ?Hp, ?Elo, ?Ewr, ?Edc, ?Ec; try done.
    intros E. destruct (B7 E) as [C1 C2 C3 C4 C5]. split; rewrite ?Hp, ?Elo, ?Ewr, ?Edc; try done.
    + intros _. specialize (C1 Hnd). unfold cell, page_at in *. destruct (ca_pages (w_cache w) !! (d, b)) as [p|]; [|done]. simpl in Hs. injection Hs as Hs. by rewrite Hs in C1 |- *.
    + intros x fill Hx' Hlo. by destruct (Hnl x).
    + intros x Hx' Hd. by destruct (Hnd x).
    + intros Hin' p Ep. destruct (Hwk _ Hin') as (-> & _ & Hrc). destruct (Hrc p Ep) as (rc & Hrc1 & Hrc2 & Hrc3). simpl in *.
      destruct (Hdone eq_refl rc Hrc1) as [Y1 Y2]. rewrite Hrc2 in Y1, Y2. by rewrite Y1, Hrc3.
Qed.
Lemma worker_NoDup w : static w -> NoDup (worker_keys (w_worker w)).
Proof. intros S. exact (ci_once _ _ (st_cache _ S) cacheWriteback). Qed.
Lemma worker_batch_ok w d batch retry k : static w -> w_worker w = WorkerWrite d batch retry -> w_disks w !! d = Some k ->
  batch_ok (df_blocks (dk_file k)) (record_of (w_cache w) <$> batch) /\ pw_block <$> (record_of (w_cache w) <$> batch) = snd <$> batch.
Proof.
  intros S Hw Hk. pose proof (st_worker _ S) as Ok. unfold worker_ok in Ok. rewrite Hw in Ok. destruct Ok as (Ha & Hd & Hne & z & Hu & Hl).
  apply (keys_batch_ok w d k z batch (record_of (w_cache w)) S Hk Hne); try done.
  - pose proof (worker_NoDup w S) as N. by rewrite Hw in N.
  - by rewrite Hw.
  - intros x p Hx Ep. unfold record_of. rewrite Ep. simpl. destruct (Hu x Hx) as [_ Hz]. rewrite Ep in Hz. simpl in Hz. injection Hz as ->. split; [done|]. split; [done|]. by intros ->.
Qed.
Lemma batch_io_sound w d batch retry k r f A : sound w A -> w_worker w = WorkerWrite d batch retry -> w_disks w !! d = Some k ->
  df_write (record_of (w_cache w) <$> batch) (dk_file k) r f ->
  sound (set_worker (after_write versions (w_cache w) d batch retry f r) (set_disk d (with_file f k) w)) A.
Proof.
  intros Sd Hw Hk Hio. pose proof (so_static _ _ _ _ Sd) as S. pose proof (st_worker _ S) as Ok. unfold worker_ok in Ok. rewrite Hw in Ok.
  destruct Ok as (Ha & Hd & Hne & z & Hu & Hl). set (w' := set_worker _ _).
  assert (forall x, x ∈ batch -> x ∈ worker_keys (w_worker w)) as Hsub by by rewrite Hw.
  destruct (worker_batch_ok w d batch retry k S Hw Hk) as [Hbatch Eb].
  assert (worker_ok w' /\ worker_keys (w_worker w') = batch /\ (written_keys (w_worker w') = [] \/ r = Ok tt /\ written_keys (w_worker w') = batch)) as (Hok & Ek & Ewk).
  { assert (batch_fits w' d batch) as Hfit by (split; [done|]; by exists z). assert (is_Some (w_disks w' !! d)) as Hd' by (simpl; rewrite lookup_insert_eq; by eexists).
    assert (forall x, x ∈ batch -> x.1 = d) as Hall by (intros x Hx; by apply Hu).
    unfold worker_ok, w', after_write. simpl. destruct r as [[]|e]; [by auto 10|]. destruct (_ && _); simpl; rewrite ?app_nil_r; by auto 10. }
  apply (worker_io_sound w w' d k f batch (record_of (w_cache w) <$> batch) r A Sd Hk Hio Hbatch Eb); try done.
  - intros x Hx. split; [by apply Hu|by apply Hsub].
  - by rewrite Ek, Hw.
  - intros x Hx. destruct Ewk as [E|[-> E]]; rewrite E in Hx; [set_solver|]. split; [done|]. split; [done|]. intros p Ep.
    exists (record_of (w_cache w) x). split; [by apply list_elem_of_fmap_2|]. unfold record_of, written_bytes, page_bytes. rewrite Ep. simpl. split; [done|]. by destruct (pg_zero p).
Qed.
Lemma repair_io_sound w d batch cohort k r f A : sound w A -> w_worker w = WorkerRepair d batch cohort -> cohort <> [] -> w_disks w !! d = Some k ->
  df_write (zero_record <$> take maxWritebackMutations cohort) (dk_file k) r f ->
  sound (set_worker (match r with
      | Ok _ => WorkerRepaired d batch (take maxWritebackMutations cohort) (drop maxWritebackMutations cohort)
      | Err e => WorkerFailed d batch cohort e
      end) (set_disk d (with_file f k) w)) A.
Proof.
  intros Sd Hw Hne Hk Hio. pose proof (so_static _ _ _ _ Sd) as S. pose proof (st_worker _ S) as Ok. unfold worker_ok in Ok. rewrite Hw in Ok.
  destruct Ok as (Ha & Hd & Hfit & Hu). set (w' := set_worker _ _). set (part := take maxWritebackMutations cohort) in *.
  assert (forall x, x ∈ part -> x ∈ cohort) as Hpart by (intros x; apply subseteq_take).
  assert (forall x, x ∈ drop maxWritebackMutations cohort -> x ∈ cohort) as Hrest by (intros x; apply subseteq_drop).
  assert (forall x, x ∈ cohort -> x ∈ worker_keys (w_worker w)) as Hsub by (rewrite Hw; simpl; set_solver).
  assert (uniform w d true part) as Hup by (intros x Hx; by apply Hu, Hpart).
  destruct (keys_batch_ok w d k true part zero_record S Hk) as [Hbatch Eb]; try done.
  { unfold part, maxWritebackMutations. by destruct cohort. }
  { pose proof (worker_NoDup w S) as N. rewrite Hw in N. simpl in N. apply NoDup_app in N as (_ & _ & N). unfold part.
    rewrite <-(take_drop maxWritebackMutations cohort) in N. by apply NoDup_app in N as (N & _). }
  { intros x Hx. by apply Hsub, Hpart. }
  { unfold part. rewrite length_take. unfold limit_of. lia. }
  assert (is_Some (w_disks w' !! d)) as Hd' by (simpl; rewrite lookup_insert_eq; by eexists).
  assert (batch_fits w' d batch) as Hfit' by exact Hfit.
  assert (forall x, x ∈ batch ++ cohort -> x.1 = d) as Hall.
  { intros x [Hx|Hx]%elem_of_app; [|by apply Hu]. destruct Hfit as (_ & z & Hz & _). by apply Hz. }
  apply (worker_io_sound w w' d k f part (zero_record <$> part) r A Sd Hk Hio Hbatch Eb); try done.
  - intros x Hx. split; [by apply Hup|by apply Hsub, Hpart].
  - rewrite Hw. simpl. destruct r; simpl; [|done]. unfold part. by rewrite take_drop.
  - unfold worker_ok, w'. simpl. destruct r as [[]|e]; [|done]. split; [done|]. split; [done|]. split; [done|]. split; [done|]. intros x Hx. by apply Hu, Hrest.
  - intros x Hx. destruct r as [[]|e]; simpl in Hx; [|set_solver]. split; [done|]. split; [done|]. intros p Ep. exists (zero_record x).
    split; [by apply list_elem_of_fmap_2|]. split; [done|]. unfold written_bytes, page_bytes. simpl. destruct (Hup x Hx) as [_ Hz]. rewrite Ep in Hz. simpl in Hz. by injection Hz as ->.
Qed.
(** Written pages are completed. *)
Lemma complete_sound w w' l A : sound w A -> ca_err (w_cache w) = None -> (forall x, x ∈ l -> x ∈ written_keys (w_worker w)) ->
  worker_keys (w_worker w) ≡ₚ worker_keys (w_worker w') ++ l -> written_keys (w_worker w') = [] -> worker_ok w' ->
  cache_inv (owned w') (w_cache w') -> ca_err (w_cache w') = None ->
  (forall x, ca_pages (w_cache w') !! x = if bool_decide (x ∈ l) then ca_pages (w_cache w) !! x ≫= completed else ca_pages (w_cache w) !! x) ->
  w_disks w' = w_disks w -> w_loads w' = w_loads w -> w_writes w' = w_writes w -> w_discards w' = w_discards w -> sound w' A.
Proof.
  intros Sd He Hl Ek Ewk Hw I' He' Hpg Ed Elo Ewr Edc. pose proof (so_static _ _ _ _ Sd) as S. pose proof (st_cache _ S) as I.
  apply (sound_intro _ _ w w' A A Sd I').
  - by apply same_disks_refl.
  - intros d b p Hp. left. unfold page_at in *. rewrite Hpg in Hp. case_bool_decide; [|by exists p]. destruct (ca_pages (w_cache w) !! (d, b)) as [q|]; [by exists q|done].
  - rewrite Elo. apply (st_load _ S).
  - rewrite Ewr. apply (st_write _ S).
  - rewrite Edc. apply (st_discard _ S).
  - done.
  - intros d k1 k2 b Hk1 Hk2 Hb B. rewrite Ed in Hk2. assert (k2 = k1) as -> by congruence. destruct (decide ((d, b) ∈ l)) as [Hin|Hin].
    2: { apply (block_frame _ _ w w' A A d k1 k1 b B); try done; [|by rewrite Elo|by rewrite Ewr|by rewrite Edc|by rewrite Ewk; set_solver]. left. by rewrite Hpg, bool_decide_false. }
    pose proof (Hl _ Hin) as Hwr. pose proof (worker_page w _ I (written_subset _ _ Hwr)) as Hs.
    assert (forall x, x ∈ w_discards w -> ~ in_discard d b x) as Hnd.
    { intros x Hx' Hd. destruct (not_discarding _ _ w d b x S Hx' Hd A k1 B) as [E|E]; unfold page_at in E; by rewrite Hs in E. }
    assert (forall x, x ∈ w_loads w -> ~ in_load d b x) as Hnl.
    { intros x Hx' Hlo. destruct (bs_load _ _ _ _ _ _ _ B x Hx' Hlo) as [_ Hc]. unfold page_at in Hc. rewrite Hs in Hc. by destruct Hc as [?|[?|?]]. }
    assert (page_at w' d b = page_at w d b ≫= completed) as Hp by (unfold page_at; by rewrite Hpg, bool_decide_true).
    destruct (page_at w d b) as [p|] eqn:Ep; [|unfold page_at in Ep; by rewrite Ep in Hs]. assert (pg_state p = cacheWriteback) as Hsp.
    { unfold page_at in Ep. rewrite Ep in Hs. simpl in Hs. congruence. }
    pose proof (bs_upper _ _ _ _ _ _ _ B p Ep ltac:(by rewrite Hsp)) as Hu. destruct B as [B1 B2 B3 B4 B4' B5 B6 B7].
    destruct (B7 He) as [C1 C2 C3 C4 C5]. specialize (C1 Hnd). rewrite Ep in C1. unfold cell in C1. rewrite Hsp in C1. destruct (C5 Hwr p Ep) as [D1 D2].
    simpl in Hp. split; rewrite ?Elo, ?Ewr, ?Edc; try done.
    + intros x Hx' Hlo. by destruct (Hnl x).
    + intros x Hx' Hd. by destruct (Hnd x).
    + intros _. split; rewrite ?Elo, ?Ewr, ?Edc; try done.
      * intros _. rewrite Hp. unfold completed, cell. destruct (pg_zero p) eqn:Ez; simpl; [by rewrite D1|]. rewrite D1. split; [done|]. unfold page_bytes. simpl. by rewrite Ez.
      * rewrite Ewk. set_solver.
Qed.
Lemma batch_end_sound w d batch A : sound w A -> w_worker w = WorkerWritten d batch ->
  sound (set_worker (match ca_err (w_cache w) with None => WorkerIdle | Some _ => WorkerStopped batch end)
    (set_cache (finish_batch batch (w_cache w)) w)) A.
Proof.
  intros Sd Hw. pose proof (so_static _ _ _ _ Sd) as S. pose proof (st_cache _ S) as I. unfold finish_batch. simpl. destruct (ca_err (w_cache w)) as [e|] eqn:He.
  - apply (worker_move_sound w _ A Sd); try done; [|by simpl; rewrite Hw|by simpl; set_solver|unfold worker_ok; simpl; by rewrite He]. by apply active_inv.
  - set (w' := set_worker _ _). destruct (complete_spec batch (owned w') (set_active None (w_cache w))) as (J & (_ & _ & _ & _ & Ce) & P).
    { apply active_inv. revert I. apply give_out. intros s. symmetry. apply (owned_worker w w' batch); try done. by rewrite Hw. }
    apply (complete_sound w w' batch A Sd He); try done; rewrite ?Hw; try done. simpl. by rewrite Ce.
Qed.
Lemma repair_end_sound w d batch part cohort A : sound w A -> w_worker w = WorkerRepaired d batch part cohort -> ca_err (w_cache w) = None ->
  sound (set_worker (WorkerRepair d batch cohort) (set_cache (completeWritebackLocked part (w_cache w)) w)) A.
Proof.
  intros Sd Hw He. pose proof (so_static _ _ _ _ Sd) as S. pose proof (st_cache _ S) as I. set (w' := set_worker _ _).
  assert (worker_keys (w_worker w) ≡ₚ worker_keys (w_worker w') ++ part) as Ek.
  { rewrite Hw. simpl. rewrite <-app_assoc. f_equiv. apply Permutation_app_comm. }
  destruct (complete_spec part (owned w') (w_cache w)) as (J & (_ & _ & _ & Ca & Ce) & P).
  { revert I. apply give_out. intros s. symmetry. by apply (owned_worker w w' part). }
  pose proof (st_worker _ S) as Ok. unfold worker_ok in Ok. rewrite Hw in Ok. destruct Ok as (Ha & Hd & (Hne & z & Hz & Hl) & _ & Hu).
  pose proof (worker_NoDup w S) as N. rewrite Ek in N. apply NoDup_app in N as (_ & N & _). simpl in N.
  assert (forall l z, uniform w d z l -> (forall x, x ∈ l -> x ∈ batch ++ cohort) -> uniform w' d z l) as Hkeep.
  { intros l z' Hl' Hin x Hx. destruct (Hl' x Hx) as [E1 E2]. split; [done|]. simpl. rewrite P, bool_decide_false; [done|]. apply N, Hin, Hx. }
  apply (complete_sound w w' part A Sd He); try done; rewrite ?Hw; try done; [|by simpl; rewrite Ce].
  unfold worker_ok. simpl. rewrite Ca. split; [done|]. split; [done|]. split; [|apply Hkeep; [done|set_solver]].
  split; [done|]. exists z. split; [|done]. apply Hkeep; [done|set_solver].
Qed.
(** Failures: the frozen pages stay with the worker. *)
Lemma worker_failed_sound w d batch others e A : sound w A -> worker_keys (w_worker w) ≡ₚ batch ++ others -> ca_active (w_cache w) = Some d -> is_Some (w_disks w !! d) ->
  (forall x, x ∈ batch ++ others -> x.1 = d) -> sound (set_worker (WorkerFailed d batch others e) w) A.
Proof.
  intros Sd Ek Ha Hd Hf. pose proof (so_static _ _ _ _ Sd) as S. apply (worker_move_sound w _ A Sd); try done; [apply (st_cache _ S)|simpl; set_solver].
Qed.
Lemma fits_disk w d batch : batch_fits w d batch -> forall x, x ∈ batch -> x.1 = d.
Proof. intros (_ & z & Hz & _) x Hx. by apply Hz. Qed.
Lemma worker_fail_sound w d batch others e A : sound w A -> w_worker w = WorkerFailed d batch others e ->
  sound (set_worker (WorkerCleanup d batch others) (set_cache (failLocked e (w_cache w)) w)) A.
Proof.
  intros Sd Hw. pose proof (so_static _ _ _ _ Sd) as S. destruct (fail_err e (w_cache w)) as [He Hp].
  pose proof (st_worker _ S) as Ok. unfold worker_ok in Ok. rewrite Hw in Ok. destruct Ok as (Ha & Hd & Hf).
  apply (worker_move_sound w _ A Sd); try done; [apply fail_inv, (st_cache _ S)|by rewrite Hw|simpl; set_solver|].
  unfold worker_ok. simpl. split; [|done]. split; [|done]. unfold failLocked. by destruct (ca_err (w_cache w)).
Qed.
Lemma cleanup_sound w d batch others k f A : sound w A -> w_worker w = WorkerCleanup d batch others -> w_disks w !! d = Some k ->
  df_cleanup (record_of (w_cache w) <$> batch) (dk_file k) f ->
  sound (set_worker (WorkerStopped (batch ++ others)) (set_disk d (with_file f k) (set_cache (set_active None (w_cache w)) w))) A.
Proof.
  intros Sd Hw Hk Hc. pose proof (so_static _ _ _ _ Sd) as S. pose proof (st_worker _ S) as Ok. unfold worker_ok in Ok. rewrite Hw in Ok. destruct Ok as [_ He].
  destruct (st_disk _ S d k Hk) as [Hok Hlen]. destruct (df_cleanup_ok _ _ _ Hok Hc) as [Hok' Hbl]. set (w' := set_worker _ _).
  apply (sound_intro _ _ w w' A A Sd).
  - pose proof (st_cache _ S) as I. apply (active_inv _ None) in I. revert I. apply give_out. intros []; simpl; try done. by rewrite Hw.
  - apply (same_disks_set w w' d k (with_file f k)); [done..|]. intros _. unfold disk_static; simpl. split; [done|lia].
  - intros d' b p Hp. left. by exists p.
  - apply (st_load _ S).
  - apply (st_write _ S).
  - apply (st_discard _ S).
  - done.
  - intros d' k1 k2 b Hk1 Hk2 Hb B. simpl in Hk2. assert (upper k2 b = upper k1 b /\ dk_material k2 = dk_material k1) as (E1 & E3).
    { destruct (decide (d' = d)) as [->|Hne]; [rewrite lookup_insert_eq in Hk2; injection Hk2 as <-; by assert (k1 = k) as -> by congruence|].
      rewrite lookup_insert_ne in Hk2 by done. by assert (k2 = k1) as -> by congruence. }
    destruct B as [B1 B2 B3 B4 B4' B5 B6 B7]. split; rewrite ?E1, ?E3; try done.
    intros E. rewrite (B5 E). unfold WriteBackSteps.lower. by rewrite E3.
Qed.

(** ** Attaching and detaching *)

Lemma attach_sound w d k c A : sound w A -> w_disks w !! d = None -> attach d (w_cache w) = Ok c -> df_ok (dk_file k) ->
  df_blocks (dk_file k) <= 64 * Z.of_nat (length (dk_bitmap k)) -> (forall b, has_block k b -> upper k b = df_present (dk_file k) b) ->
  dk_material k = None \/ dk_material k = Some 0 ->
  sound (set_disk d k (set_cache c w)) (a_apply (Attached d (fun b => if upper k b then df_block (dk_file k) b else lower k d b)) A).
Proof.
  intros Sd Hd Ha Hok Hlen Hup Hm. pose proof (so_static _ _ _ _ Sd) as S. pose proof (st_cache _ S) as I. unfold attach in Ha.
  destruct (ca_err (w_cache w)) eqn:He; [done|]. destruct (ca_closed (w_cache w)); [done|]. injection Ha as <-.
  assert (forall b, page_at w d b = None) as Hnp.
  { intros b. destruct (page_at w d b) as [p|] eqn:E; [|done]. destruct (st_page _ S d b p E) as (k' & Hk' & _). congruence. }
  assert (disks_kept w (set_disk d k (set_cache (set_clients (<[d := 0]> (ca_clients (w_cache w))) (w_cache w)) w))) as D.
  { intros d' k' Hk'. exists k'. split; [|done]. simpl. rewrite lookup_insert_ne; [done|]. intros <-. congruence. }
  set (w' := set_disk _ _ _). split.
  - split.
    + destruct I as [K1 K2 K3 K4 K5 K6 K7 K8]. split; try done. intros d'. simpl. rewrite default_insert. destruct (Z.eqb_spec d d') as [<-|]; [|apply K5].
      symmetry. apply count_zero. intros [d1 b1] p Hp. unfold charged_of. simpl. destruct (Z.eqb_spec d1 d) as [->|]; [|done]. unfold page_at in Hnp. by rewrite Hnp in Hp.
    + intros d' k'. simpl. destruct (decide (d = d')) as [<-|]; [rewrite lookup_insert_eq; by intros [= <-]|rewrite lookup_insert_ne by done; apply (st_disk _ S)].
    + intros d' b p Hp. destruct (st_page _ S d' b p Hp) as (k' & Hk' & Hb). by apply (page_kept w w' d' b k').
    + intros x Hx. by apply (load_static_kept w w' x D), (st_load _ S).
    + apply (st_write _ S).
    + intros x Hx. by apply (discard_static_kept w w' x D), (st_discard _ S).
    + by apply (worker_kept w); [..|apply (st_worker _ S)].
  - intros d' k' b Hk' Hb. simpl in Hk'. destruct (decide (d = d')) as [<-|Hne].
    2: { rewrite lookup_insert_ne in Hk' by done. apply (block_frame _ _ w w' A _ d' k' k' b (so_block _ _ _ _ Sd d' k' b Hk' Hb)); try done; [by left|]. simpl. by destruct (Z.eqb_spec d' d). }
    rewrite lookup_insert_eq in Hk'. injection Hk' as <-. assert (page_at w' d b = None) as Hp by apply Hnp.
    assert (forall x, x ∈ w_loads w -> ~ in_load d b x) as Hl.
    { intros x Hx [E _]. destruct (st_load _ S x Hx) as (k1 & Hk1 & _). congruence. }
    assert (forall x, x ∈ w_discards w -> ~ in_discard d b x) as Hnd.
    { intros x Hx [E _]. destruct (st_discard _ S x Hx) as (k1 & Hk1 & _). congruence. }
    assert (forall x, x ∈ w_writes w -> pd_key x <> (d, b)) as Hnw.
    { intros x Hx E. pose proof (write_page w x I Hx) as X. rewrite E in X. unfold page_at in Hnp. by rewrite Hnp in X. }
    split; rewrite ?Hp; try done.
    + intros x Hx Hlo. by destruct (Hl x).
    + intros x Hx E. by destruct (Hnw x).
    + intros x Hx E. by destruct (Hnd x).
    + simpl. rewrite covering_none; [simpl; lia|done].
    + simpl. rewrite Z.eqb_refl. by intros ->.
    + intros n E Hlt _. unfold has_block in Hb. destruct Hm as [Hm|Hm]; rewrite Hm in E; [done|]. injection E as <-. lia.
    + intros _. split; rewrite ?Hp; try done.
      * intros _. simpl. rewrite Z.eqb_refl. intros Hu. rewrite Hu. by rewrite <-Hup.
      * intros x fill Hx Hlo. by destruct (Hl x).
      * intros x bytes Hx E. by destruct (Hnw x).
      * intros x Hx E. by destruct (Hnd x).
Qed.
Lemma filter_id {B} (P : B -> Prop) `{forall x, Decision (P x)} (l : list B) : (forall x, x ∈ l -> P x) -> filter P l = l.
Proof. induction l as [|x l IH]; intros Hl; [done|]. rewrite filter_cons_True by (apply Hl; set_solver). f_equal. apply IH. set_solver. Qed.
Lemma worker_disk w d : static w -> ca_active (w_cache w) <> Some d -> forall x, x ∈ worker_keys (detach_worker d (w_worker w)) -> x.1 <> d.
Proof.
  intros S Ha x Hx E. pose proof (st_worker _ S) as Ok. unfold worker_ok in Ok.
  assert (forall d', ca_active (w_cache w) = Some d' -> x.1 = d' -> False) as Hno by (intros d' E1 E2; apply Ha; congruence).
  destruct (w_worker w); simpl in Hx; rewrite ?elem_of_app in Hx.
  - set_solver.
  - destruct Ok as (Ok1 & _ & Ok2). apply (Hno d0 Ok1). by apply (fits_disk w d0 batch).
  - destruct Ok as (Ok1 & _ & Ok2). apply (Hno d0 Ok1). by apply (fits_disk w d0 batch).
  - destruct Ok as (Ok1 & _ & Ok2). apply (Hno d0 Ok1). by apply (fits_disk w d0 batch).
  - destruct Ok as (Ok1 & _ & Ok2 & Ok3). apply (Hno d0 Ok1). destruct Hx as [Hx|Hx]; [by apply (fits_disk w d0 batch)|by apply Ok3].
  - destruct Ok as (Ok1 & _ & Ok2 & Ok3 & Ok4). apply (Hno d0 Ok1). destruct Hx as [Hx|[Hx|Hx]]; [by apply (fits_disk w d0 batch)|by apply Ok3|by apply Ok4].
  - destruct Ok as (Ok1 & _ & Ok2). apply (Hno d0 Ok1). by apply Ok2, elem_of_app.
  - destruct Ok as ((Ok1 & _ & Ok2) & _). apply (Hno d0 Ok1). by apply Ok2, elem_of_app.
  - by apply list_elem_of_filter in Hx as [Hx _].
Qed.
Lemma detach_sound w d A : sound w A ->
  (forall x, x ∈ w_loads w -> ld_disk x <> d) -> (forall x, x ∈ w_writes w -> (pd_key x).1 <> d) -> (forall x, x ∈ w_discards w -> dc_disk x <> d) ->
  ca_active (w_cache w) <> Some d ->
  sound (mkWorld (detach d (w_cache w)) (delete d (w_disks w)) (w_loads w) (w_writes w) (w_discards w) (detach_worker d (w_worker w))) A.
Proof.
  intros Sd Hl Hw Hd Ha. pose proof (so_static _ _ _ _ Sd) as S. pose proof (st_cache _ S) as I.
  destruct (detach_spec (owned w) d (w_cache w) I) as (I' & (_ & _ & _ & Ca & Ce) & P). remember (detach d (w_cache w)) as c' eqn:Ec. clear Ec.
  set (w' := mkWorld _ _ _ _ _ _).
  assert (forall d' k, d' <> d -> w_disks w !! d' = Some k -> w_disks w' !! d' = Some k) as D by (intros d' k Hne Hk; simpl; by rewrite lookup_delete_ne).
  assert (forall d' b, d' <> d -> page_at w' d' b = page_at w d' b) as Hp.
  { intros d' b Hne. unfold page_at. simpl. rewrite P. simpl. by destruct (Z.eqb_spec d' d). }
  pose proof (worker_disk w d S Ha) as Hwd. split.
  - split.
    + revert I'. apply cache_inv_perm. intros s Hs. destruct s; simpl; try done; symmetry.
      * rewrite filter_id; [done|]. intros x (l & Hx & (y & -> & Hy)%list_elem_of_fmap)%elem_of_concat. apply reserved_keys_elem in Hx as [-> _]. by apply Hl.
      * rewrite filter_id; [done|]. intros x (y & -> & Hy)%list_elem_of_fmap. by apply Hw.
      * destruct (w_worker w); simpl in *; try done; rewrite filter_id; done.
      * rewrite filter_id; [done|]. intros x (l & Hx & (y & -> & Hy)%list_elem_of_fmap)%elem_of_concat. destruct (st_discard _ S y Hy) as (_ & _ & _ & _ & Hk).
        destruct (Hk x Hx) as [<- _]. by apply Hd.
    + intros d' k Hk. simpl in Hk. apply lookup_delete_Some in Hk as [_ Hk]. by apply (st_disk _ S d').
    + intros d' b p Hpg. destruct (decide (d' = d)) as [->|Hne]; [unfold page_at in Hpg; simpl in Hpg; rewrite P in Hpg; simpl in Hpg; by rewrite Z.eqb_refl in Hpg|].
      rewrite Hp in Hpg by done. destruct (st_page _ S d' b p Hpg) as (k & Hk & Hb). exists k. split; [by apply D|done].
    + intros x Hx. destruct (st_load _ S x Hx) as (k & Hk & Hb). exists k. split; [apply D; [by apply Hl|done]|done].
    + apply (st_write _ S).
    + intros x Hx. destruct (st_discard _ S x Hx) as (k & Hk & Hb). exists k. split; [apply D; [by apply Hd|done]|done].
    + pose proof (st_worker _ S) as Ok. revert Hwd Ok. unfold worker_ok, batch_fits, uniform. simpl. rewrite Ca, Ce.
      assert (forall d', Some d' <> Some d -> is_Some (w_disks w !! d') -> is_Some (delete d (w_disks w) !! d')) as Hds.
      { intros d' Hne [k Hk]. exists k. apply D; [congruence|done]. }
      assert (forall x, x.1 <> d -> ca_pages c' !! x = ca_pages (w_cache w) !! x) as Px.
      { intros x Hx. rewrite P. by destruct (Z.eqb_spec x.1 d). }
      destruct (w_worker w); simpl; try done; intros Hwd Ok; destruct_and?.
      all: repeat match goal with |- _ /\ _ => split | _ => progress eauto end; try (apply Hds; congruence).
      all: repeat match goal with H : exists z, _ |- exists z, _ => let z := fresh in destruct H as (z & ? & ?); exists z; split; [|done] end.
      all: intros x Hx; match goal with H : forall x, x ∈ ?l -> _ /\ _, H' : _ ∈ ?l |- _ => destruct (H _ H') end.
      all: split; [done|]; rewrite Px; [done|]; apply Hwd; set_solver.
  - intros d' k b Hk Hb. simpl in Hk. apply lookup_delete_Some in Hk as [Hne Hk].
    apply (block_frame _ _ w w' A A d' k k b (so_block _ _ _ _ Sd d' k b Hk Hb)); try done; [left; by apply Hp|by simpl; rewrite Ce|].
    simpl. destruct (w_worker w); simpl; done.
Qed.
Lemma close_sound w c A : sound w A -> cache_Close (w_cache w) = Ok c -> sound (set_cache c w) A.
Proof.
  intros Sd Hc. pose proof (so_static _ _ _ _ Sd) as S. pose proof (st_cache _ S) as [K1 K2 K3 K4 K5 K6 K7 K8]. unfold cache_Close in Hc. case_bool_decide; [|done].
  injection Hc as <-. apply sound_cache; try done. all: first [by left|by split].
Qed.

(** ** Every step *)

Lemma step_sound w ev w' A : sound w A -> step w ev w' -> a_shows ev A /\ sound w' (a_apply ev A).
Proof.
  intros Sd Hst. pose proof (so_static _ _ _ _ Sd) as S. pose proof (st_cache _ S) as I. pose proof (st_worker _ S) as Ok. unfold worker_ok in Ok.
  destruct Hst as [w d b k ctx bytes c Hk Hb Hu Hf Hr | w d b k Hk Hb Hu Hf | w d first n k ctx r c Hk Hn Hrun Hc Hr | w l1 x l2 k io El Hio Hk Hrd
    | w l1 x l2 ctx fill c El Hio Hp | w l1 x l2 ctx io e c El Hio Hp
    | w d b off buf k ctx c Hk Hb Hpt Hf Hw | w d b off buf k ctx c Hk Hf Hw | w d b off buf k ctx c Hk Hb Hpt Hf Hw
    | w l1 x l2 k p bytes stored low El Hio Hk Hp Hd H1 H2 | w l1 x l2 ctx io k c El Hio Hk Hp | w l1 x l2 ctx io e c El Hio Hp
    | w d b k ctx c Hk Hb Hv Hrdy Hf Hz | w d b k ctx c Hk Hf Hz
    | w d first last k ctx tmpl keys c Hk Hrdy Hr Hl Hn Hf Ht Hd | w l1 x l2 k r f El Hio Hk Hd | w l1 x l2 k El Hio Hk | w l1 x l2 e El Hio
    | w d first last k r f Hk Hrdy Hm Hr Hl Hn Hf Hne Hw | w d k n Hk Hm Hn | w d k n Hk Hm Hn
    | w d k f Hk Hq | w d k f Hk Hq | w e
    | w d zero batch c Hw Hs | w d batch retry k r f Hw He Hk Hio | w d batch retry e Hw He | w d batch Hw
    | w d batch cohort c Hw He Hr | w d batch e Hw He | w d batch cohort k r f Hw Hne He Hk Hio | w d batch cohort e Hw Hne He
    | w d batch part cohort Hw He | w d batch part cohort e Hw He | w d batch Hw
    | w d batch others e Hw | w d batch others k f Hw Hk Hc | w d k c Hd Ha H1 H2 H3 H4 | w d Hd Hl Hw Hdc Ha | w c Hc].
  - (* read hit *)
    destruct (read_hit (owned w) ctx (d, b) (w_cache w) bytes c I Hr) as (Hck & I' & (_ & _ & _ & Ca & Ce) & Hpg & p & Hp & -> & Hs).
    split; [|apply sound_cache; try done; [by rewrite Ce|left; by rewrite Hpg]].
    intros b' bytes' [= -> ->]%list_elem_of_singleton. apply (cell_shown k b p); [done| |done]. rewrite <-Hp. fold (page_at w d b).
    apply (he_cell _ _ _ _ _ (bs_healthy _ _ _ _ _ _ _ (so_block _ _ _ _ Sd d k b Hk Hb) (checked _ _ Hck))). intros x. exact (free_no_discard w d b x Hf).
  - (* read lower *)
    split; [|done]. intros b' bytes' [= -> ->]%list_elem_of_singleton. by apply (bs_lower _ _ _ _ _ _ _ (so_block _ _ _ _ Sd d k b Hk Hb)).
  - split; [done|]. by apply (load_sound _ _ w d first n k ctx r c).
  - split; [done|]. by apply (load_io_sound _ _ w l1 x l2 k io).
  - destruct (load_ok_sound base template base_page template_page w l1 x l2 ctx fill c A Sd El Hio Hp) as [Sd' Hshow]. split; [|done].
    intros b bytes (b' & [= -> ->] & Hb)%list_elem_of_fmap. apply Hshow. split; [done|]. by apply blocks_of_elem.
  - split; [done|]. by apply (load_err_sound _ _ w l1 x l2 ctx io e c).
  - split; [done|]. by apply (write_now_sound _ _ w d b off buf k ctx c).
  - split; [done|]. rewrite (write_admit_retry _ _ _ _ _ _ _ Hw). apply sound_cache; try done; [by apply kick_inv|by left].
  - split; [done|]. by apply (write_start_sound _ _ w d b off buf k ctx c).
  - split; [done|]. by apply (write_io_sound base template base_page template_page w l1 x l2 k p bytes stored low).
  - split; [done|]. by apply (write_ok_sound _ _ w l1 x l2 ctx io k c).
  - split; [done|]. by apply (write_err_sound _ _ w l1 x l2 ctx io e c).
  - split; [done|]. by apply (zero_sound _ _ w d b k ctx c).
  - split; [done|]. rewrite (stageZero_retry _ _ _ _ Hz). apply sound_cache; try done; [by apply kick_inv|by left].
  - split; [done|]. by apply (discard_start_sound _ _ w d first last k ctx tmpl keys c).
  - split; [done|]. by apply (discard_io_sound base template base_page template_page w l1 x l2 k r f).
  - split; [by destruct (dc_template x)|]. by apply discard_ok_sound.
  - split; [done|]. by apply discard_err_sound.
  - split; [done|]. by apply material_sound.
  - split; [done|]. by apply (material_next_sound w d k n).
  - split; [done|]. by apply (material_done_sound w d k n).
  - split; [done|]. destruct (st_disk _ S d k Hk) as [Hok _]. destruct (df_quiet_ok _ _ Hok Hq) as (Hok' & Hbl & Hkept). by apply (sound_file _ _ w d k).
  - split; [done|]. destruct (st_disk _ S d k Hk) as [Hok _]. destruct (df_quiet_ok _ _ Hok Hq) as (Hok' & Hbl & Hkept). by apply (sound_file _ _ w d k).
  - split; [done|]. destruct (fail_err e (w_cache w)) as [He Hp]. apply sound_cache; try done; [by apply fail_inv|unfold failLocked; by destruct (ca_err (w_cache w))|left; by rewrite Hp].
  - split; [done|]. by apply (select_sound w d zero batch c).
  - split; [done|]. by apply batch_io_sound.
  - split; [done|]. rewrite Hw in Ok. destruct Ok as (Ha & Hd & Hfit). apply worker_failed_sound; [done|rewrite Hw; by rewrite app_nil_r|done|done|rewrite app_nil_r; by apply (fits_disk w)].
  - split; [done|]. by apply (batch_end_sound w d).
  - split; [done|]. by apply (repair_sound w d).
  - split; [done|]. rewrite Hw in Ok. destruct Ok as (Ha & Hd & Hfit). apply worker_failed_sound; [done|rewrite Hw; by rewrite app_nil_r|done|done|rewrite app_nil_r; by apply (fits_disk w)].
  - split; [done|]. by apply repair_io_sound.
  - split; [done|]. rewrite Hw in Ok. destruct Ok as (Ha & Hd & Hfit & Hu). apply worker_failed_sound; [done|by rewrite Hw|done|done|].
    intros x [Hx|Hx]%elem_of_app; [by apply (fits_disk w d batch)|by apply Hu].
  - split; [done|]. by apply (repair_end_sound w d).
  - split; [done|]. rewrite Hw in Ok. destruct Ok as (Ha & Hd & Hfit & Hu & Hu'). apply worker_failed_sound; [done|by rewrite Hw|done|done|].
    intros x [Hx|[Hx|Hx]%elem_of_app]%elem_of_app; [by apply (fits_disk w d batch)|by apply Hu|by apply Hu'].
  - split; [done|]. rewrite Hw in Ok. destruct Ok as (Ha & Hd & Hfit & _). apply (worker_move_sound w _ A Sd); try done; [rewrite Hw; simpl; by rewrite app_nil_r|simpl; set_solver].
  - split; [done|]. by apply (worker_fail_sound w d).
  - split; [done|]. by apply cleanup_sound.
  - split; [done|]. by apply attach_sound.
  - split; [done|]. by apply detach_sound.
  - split; [done|]. by apply close_sound.
Qed.
End Run.
