(* ===== verification/WriteBackDiff.v ===== *)
(** * WriteBackDiff: the versioned DIFF keeps the promises the page cache relies on.

    Models the write side of pkg/diffstore/checkpoint_diff.go ([checkpointDiff]) over
    the store of Ops.v, and proves that it is a [DiffFile]: a request that answers no
    error did what it was asked, and any request leaves the other blocks alone. *)
From stdpp Require Import base numbers list gmap strings sorting relations.
From Stdlib Require Import ZArith Lia.
From S2P Require Import Prelude Page Presence Json Format Tree Tx Demo TreeWrite Retire TreeRemove Sha256 Commit Crash Publish Bitmap Checkpoint GcDemo Gc Accounts Ops View Batch Model Versions Device Reading Lifecycle History WriteBack WriteBackSteps.

#[local] Opaque Sum256 sealPage checkPage Page.put.

(** ** The requests *)

Section Requests.
Context (c : option xts_cipher) (fallocate : file -> Z -> Z -> dres unit) (pin : Z -> dres unit).

(** [checkpointDiff.writePages], called with the background context. *)
Definition cp_writePages (pages : list pageWrite) : op unit :=
  let zero := match pages with p :: _ => pw_zero p | [] => false end in
  if (length pages =? 0)%nat || (maxWritebackMutations <? length pages)%nat then raise (DiffErr "diffstore: invalid checkpoint batch")
  else if existsb (fun q => negb (Bool.eqb (pw_zero q) zero)) pages then raise (DiffErr "diffstore: mixed checkpoint Data/Zero batch")
  else if zero then DiscardPages c fallocate pin (Ok tt) (pw_block <$> pages)
  else if (maxWritebackPages <? length pages)%nat then raise (DiffErr "diffstore: checkpoint batch exceeds data workspace")
  else if existsb (fun q => negb (Z.of_nat (length (pw_data q)) =? PageSize)) pages then raise (DiffErr "diffstore: invalid checkpoint Data page")
  else writePages c fallocate pin (Ok tt) ((fun q => mkPage (pw_block q) (pw_data q)) <$> pages) true.
(** [checkpointDiff.discard] of the blocks [first..last]. *)
Definition cp_discard (first last : Z) : op unit := Discard c fallocate pin (Ok tt) (first * PageSize) ((last - first + 1) * PageSize).

(** ** What a request may use *)

(** Slots are left for every batch of a write. *)
Fixpoint batches_room (n : nat) (pages : list page) (h : handle) : Prop :=
  match n, pages with
  | S n, _ :: _ => write_room (h_store h) /\
      match write_batch c fallocate pin (Ok tt) (take MaxBatchPages pages) true h with
      | (Ok _, h1) => batches_room n (drop MaxBatchPages pages) h1
      | _ => True
      end
  | _, _ => True
  end.
Definition write_fits (pages : list pageWrite) (h : handle) : Prop :=
  Next (s_ctrl (h_store h)) + zero_cost (h_store h) * Z.of_nat (length pages) <= maxSlot + 1 /\
  forall h1, MarkModified c fallocate pin (Ok tt) h = (Ok tt, h1) ->
    batches_room (length pages) ((fun q => mkPage (pw_block q) (pw_data q)) <$> pages) h1.

Context (Hc : cipher_ok c) (Hpin : pinnable pin).

(** The pages of [dn] were written and the versions may have lost collected ones. *)
Definition wrote (dn : list page) (A A' : astore) : Prop :=
  a_size A' = a_size A /\ (forall p, p ∈ dn -> a_cells A' (Block p) = Held (Data p)) /\
  forall k, k ∉ Block <$> dn -> a_cells A' k = a_cells A k.
Lemma batch_data_at part p : NoDup (Block <$> part) -> p ∈ part -> batch_data part (Block p) = Data p.
Proof.
  intros N Hp. destruct (batch_data_in part (Block p)) as (q & Hq & Eb & <-); [by apply list_elem_of_fmap_2|].
  apply list_elem_of_lookup in Hp as [i Hi], Hq as [j Hj].
  assert (i = j) as ->; [|congruence]. eapply (NoDup_lookup (Block <$> part)); [done|by rewrite list_lookup_fmap, Hi|rewrite list_lookup_fmap, Hj; simpl; congruence].
Qed.
Lemma wrote_one part A A' : NoDup (Block <$> part) -> becomes pin (write_cells part) [] A A' -> wrote part A A'.
Proof.
  intros N (Hs & Hcl & _). split; [done|]. split.
  - intros p Hp. rewrite Hcl. unfold write_cells. rewrite bool_decide_true by by apply list_elem_of_fmap_2. by rewrite batch_data_at.
  - intros k Hk. rewrite Hcl. unfold write_cells. by rewrite bool_decide_false.
Qed.
Lemma wrote_none A A' : removed pin [] A A' -> wrote [] A A'.
Proof. intros (Hs & Hcl & _). split; [done|]. split; [set_solver|]. intros k _. by rewrite Hcl. Qed.
Lemma wrote_app d1 d2 A A1 A2 : NoDup (Block <$> d1 ++ d2) -> wrote d1 A A1 -> wrote d2 A1 A2 -> wrote (d1 ++ d2) A A2.
Proof.
  rewrite fmap_app. intros N (S1 & H1 & N1) (S2 & H2 & N2). apply NoDup_app in N as (_ & N & _). split; [congruence|]. split.
  - intros p [Hp|Hp]%elem_of_app; [|by apply H2]. rewrite N2; [by apply H1|]. by apply N, list_elem_of_fmap_2.
  - intros k Hk. rewrite fmap_app in Hk. rewrite N2, N1; set_solver.
Qed.
Lemma write_batches_spec n : forall pages h A, shown c h A -> (length pages <= n)%nat -> batches_room n pages h ->
  NoDup (Block <$> pages) -> Forall (valid_page (s_size (h_store h))) pages ->
  let (r, h') := write_batches c fallocate pin (Ok tt) n pages true h in
  exists dn rest A', pages = dn ++ rest /\ shown c h' A' /\ wrote dn A A' /\ (r = Ok tt -> rest = []).
Proof.
  assert (forall A, wrote [] A A) as W0 by (intros A; apply wrote_none, removed_refl).
  induction n as [|n IH]; intros pages h A Hh Hn Hroom N Hv.
  { destruct pages; [|simpl in Hn; lia]. simpl. exists [], [], A. by split_and!. }
  destruct pages as [|p0 pages0] eqn:Ep; [simpl; exists [], [], A; by split_and!|]. rewrite <-Ep in *. 
  assert (write_batches c fallocate pin (Ok tt) (S n) pages true =
    op_bind (write_batch c fallocate pin (Ok tt) (take MaxBatchPages pages) true) (fun _ => write_batches c fallocate pin (Ok tt) n (drop MaxBatchPages pages) true)) as -> by by rewrite Ep.
  assert (batches_room (S n) pages h = (write_room (h_store h) /\
      match write_batch c fallocate pin (Ok tt) (take MaxBatchPages pages) true h with
      | (Ok _, h1) => batches_room n (drop MaxBatchPages pages) h1 | _ => True end)) as Er by by rewrite Ep. rewrite Er in Hroom. clear Er.
  destruct Hroom as [Hroom Hrest]. unfold op_bind.
  assert (length (drop MaxBatchPages pages) <= n)%nat as Hn' by (rewrite length_drop, Ep in *; unfold MaxBatchPages; simpl in *; lia). clear p0 pages0 Ep.
  set (part := take MaxBatchPages pages) in *. set (more := drop MaxBatchPages pages) in *.
  assert (pages = part ++ more) as Epg by (symmetry; apply take_drop). rewrite Epg in N, Hv. rewrite fmap_app in N. apply Forall_app in Hv as [Hv1 Hv2].
  pose proof (proj1 (NoDup_app _ _) N) as (N1 & _ & N2).
  pose proof (write_batch_spec c fallocate pin (Ok tt) Hc Hpin part true h A Hh Hroom Hv1) as Hb.
  destruct (write_batch c fallocate pin (Ok tt) part true h) as [[u|e] h1]; destruct Hb as (A1 & Hs1 & H1); [unfold part; rewrite length_take; lia| |unfold part; rewrite length_take; lia|].
  - assert (wrote part A A1) as W1 by (apply wrote_one; done).
    specialize (IH more h1 A1 Hs1 Hn' Hrest). destruct (write_batches c fallocate pin (Ok tt) n more true h1) as [r h2].
    destruct IH as (dn & rest & A2 & E & Hs2 & W2 & Hr); [done| |].
    { pose proof (proj1 W1) as Es. destruct Hh as (l0 & fp0 & L0 & g0 & b0 & U0 & St0 & _), Hs1 as (l1 & fp1 & L1 & g1 & b1 & U1 & St1 & _).
      pose proof (sd_size _ _ _ _ _ _ _ _ _ St0). pose proof (sd_size _ _ _ _ _ _ _ _ _ St1). by replace (s_size (h_store h1)) with (s_size (h_store h)) by congruence. }
    exists (part ++ dn), rest, A2. split; [by rewrite <-app_assoc, <-E|]. split; [done|]. split; [|done].
    apply (wrote_app part dn A A1 A2); [|done|done]. rewrite E, fmap_app, app_assoc in N. rewrite fmap_app. by apply NoDup_app in N as [N _].
  - exists [], pages, A1. split; [done|]. split; [done|]. split; [by apply wrote_none|done].
Qed.
(** What a batch of the cache does to the cells. *)
Definition put_cell (x : pageWrite) : cell := if pw_zero x then Zeroed else Held (pw_data x).
Lemma cp_writePages_spec l h A : shown c h A -> batch_ok (s_size (h_store h) / PageSize) l -> write_fits l h ->
  let (r, h') := cp_writePages l h in
  exists A', shown c h' A' /\ a_size A' = a_size A /\ (forall k, k ∉ pw_block <$> l -> a_cells A' k = a_cells A k) /\
    (r = Ok tt -> forall x, x ∈ l -> a_cells A' (pw_block x) = put_cell x).
Proof.
  intros Hh (Hne & N & (z & Hz & Hlen) & Hv) [Hroom0 Hroom]. rewrite Forall_forall in Hz, Hv. 
  assert (match l with p :: _ => pw_zero p | [] => false end = z) as Ez by (destruct l; [done|]; apply Hz; set_solver). unfold cp_writePages. rewrite Ez.
  assert ((length l =? 0)%nat || (maxWritebackMutations <? length l)%nat = false) as ->.
  { apply orb_false_iff. split; [destruct l; done|]. apply Nat.ltb_ge. unfold maxWritebackMutations, maxWritebackPages in *. destruct z; lia. }
  assert (existsb (fun q => negb (Bool.eqb (pw_zero q) z)) l = false) as ->.
  { apply not_true_is_false. intros (q & Hq%list_elem_of_In & E)%existsb_exists. rewrite (Hz q Hq), eqb_reflx in E. done. }
  destruct z.
  - pose proof (DiscardPages_spec c fallocate pin (Ok tt) Hc Hpin (pw_block <$> l) h A Hh) as Hd. rewrite length_fmap in Hd.
    destruct (DiscardPages c fallocate pin (Ok tt) (pw_block <$> l) h) as [r h'].
    destruct Hd as (out & A' & Hin & Hs & (Hsz & Hcl & _) & Hr); [apply Forall_fmap, Forall_forall; intros x Hx; simpl; destruct (Hv x Hx); lia|done|].
    exists A'. split; [done|]. split; [done|]. split.
    + intros k Hk. rewrite Hcl. unfold zero_blocks. rewrite bool_decide_false; [done|]. intros X%Hin. done.
    + intros -> x Hx. rewrite Hcl. unfold zero_blocks, put_cell. rewrite bool_decide_true by (apply Hr; [done|]; by apply list_elem_of_fmap_2). by rewrite (Hz x Hx).
  - assert ((maxWritebackPages <? length l)%nat = false) as -> by by apply Nat.ltb_ge.
    assert (existsb (fun q => negb (Z.of_nat (length (pw_data q)) =? PageSize)) l = false) as ->.
    { apply not_true_is_false. intros (q & Hq%list_elem_of_In & E)%existsb_exists. destruct (Hv q Hq) as [_ Hpg]. destruct (Hpg (Hz q Hq)) as [L _].
      rewrite L in E. done. }
    set (pages := (fun q => mkPage (pw_block q) (pw_data q)) <$> l) in *.
    assert (Block <$> pages = pw_block <$> l) as Eb by (unfold pages; by rewrite <-list_fmap_compose).
    assert (length pages = length l) as Elen by (unfold pages; apply length_fmap).
    assert (Forall (valid_page (s_size (h_store h))) pages) as Hvp.
    { unfold pages. apply Forall_fmap, Forall_forall. intros q Hq. destruct (Hv q Hq) as [Hr Hpg]. split; simpl; [done|]. by apply Hpg, Hz. }
    unfold writePages. destruct pages as [|p0 ps] eqn:Epg; [by destruct l|]. rewrite <-Epg in *. cbn [andb].
    rewrite (proj2 (Z.ltb_ge 256 (Z.of_nat (length pages)))) by (unfold maxWritebackPages in Hlen; lia).
    unfold with_handle, op_bind. assert (existsb (invalid_page (h_size h)) pages = false) as ->.
    { apply not_true_is_false. intros (q & Hq%list_elem_of_In & E)%existsb_exists. rewrite Forall_forall in Hvp. destruct (Hvp q Hq) as [Hr [L _]].
      unfold invalid_page, h_size in E. rewrite L in E. apply orb_true_iff in E as [E|E]; bool_prop; [plia|lia]. }
    destruct (keeps_MarkModified c fallocate pin (Ok tt) Hc Hpin h A Hh) as (A1 & (Hs1 & Hcl1 & _) & Hh1 & Hy1).
    destruct (MarkModified c fallocate pin (Ok tt) h) as [[[]|e] h1]; cbn [snd] in *.
    2: { exists A1. split; [done|]. split; [done|]. split; [|done]. intros k _. by rewrite Hcl1. }
    pose proof (write_batches_spec (length pages) pages h1 A1 Hh1) as Hb. destruct (write_batches c fallocate pin (Ok tt) (length pages) pages true h1) as [r h2].
    destruct Hb as (dn & rest & A2 & E & Hh2 & (Hs2 & Hw & Hk) & Hr); [done|rewrite Elen; by apply Hroom|by rewrite Eb|by rewrite (sy_size _ _ Hy1)|].
    exists A2. split; [done|]. split; [congruence|]. split.
    + intros k Hn. rewrite Hk; [by rewrite Hcl1|]. rewrite <-Eb, E, fmap_app in Hn. set_solver.
    + intros -> x Hx. rewrite (Hr eq_refl), app_nil_r in E. unfold put_cell. rewrite (Hz x Hx).
      apply (Hw (mkPage (pw_block x) (pw_data x))). rewrite <-E, Epg. rewrite <-Epg. subst pages. by apply (list_elem_of_fmap_2 (fun q => mkPage (pw_block q) (pw_data q))).
Qed.
End Requests.

(** ** The DIFF as the file of a disk *)

(** What the cache does not know: checkpoints, deletions, collection, closing. *)
Definition quiet_call (x : call) : bool := match x with CallWrite _ | CallDiscard _ _ | CallDiscardPages _ => false | _ => true end.
(** [checkpointDiff.readAt] of one block. *)
Definition file_read (c : option xts_cipher) (h : handle) (b : Z) : list Z := (read_loop c page_len (h_store h) (b * PageSize) PageSize).1.
#[export] Instance versioned_file (c : option xts_cipher) : DiffFile handle := {
  df_ok h := exists A, shown c h A;
  df_blocks h := s_size (h_store h) / PageSize;
  df_block := file_read c;
  df_present h b := Has (s_presence (h_store h)) b;
  df_write l h r h' := exists fallocate pin, pinnable pin /\ write_fits c fallocate pin l h /\ cp_writePages c fallocate pin l h = (r, h');
  df_discard first last h r h' := exists fallocate pin, pinnable pin /\
    Next (s_ctrl (h_store h)) + zero_cost (h_store h) * (s_size (h_store h) / PageSize) <= maxSlot + 1 /\ cp_discard c fallocate pin first last h = (r, h');
  df_pressure h e := match e, h_fatal h with ErrReservation, None => true | _, _ => false end;
  df_quiet h h' := exists e, quiet_call (e_call e) = true /\ fits e h /\ h' = (perform c e h).2;
  df_cleanup _ h h' := h' = h }.

(** Decryption of a sector of bytes gives a sector of bytes. *)
Definition cipher_bytes (c : option xts_cipher) : Prop :=
  match c with None => True | Some c => forall b n, is_sector b -> is_sector (Decrypt c b n) end.

Section Instance.
Context (c : option xts_cipher) (Hc : cipher_ok c) (Hl : cipher_length c) (Hb : cipher_bytes c).

Lemma decrypted_page b k : is_page b -> is_page (crypt c b k false).
Proof.
  intros [Hlen Hby]. unfold crypt, Transform. destruct c as [x|]; [|done]. pose proof (page_sectors b Hlen) as Hs.
  destruct (sectors_page _ _ (u64 (k * (PageSize / UnitSize))) b Hb Hs Hby). split; [congruence|done].
Qed.
(** What a read of the file returns is the cell of the store. *)
Lemma file_read_cell h A k : shown c h A -> 0 <= k < s_size (h_store h) / PageSize ->
  file_read c h k = cell_bytes (a_cells A k) /\ is_page (cell_bytes (a_cells A k)) /\
  Has (s_presence (h_store h)) k = match a_cells A k with Absent => false | _ => true end.
Proof.
  intros (l & fp & L & gs & bs & U & St & _) Hk. pose proof (sd_now _ _ _ _ _ _ _ _ _ St k Hk) as E.
  pose proof (cell_length c _ l fp L gs bs U A St Hl k Hk) as Hlen. split; [|split].
  - unfold file_read. rewrite (read_loop_spec c _ l fp L gs bs U A St Hl page_len).
    + cbn [fst]. change (Z.to_nat PageSize) with page_len. apply disk_bytes_page; [lia|done].
    + unfold page_len. rewrite Z2Nat.id; done.
    + unfold PageSize. lia.
    + done.
    + unfold PageSize in *. lia.
  - rewrite <-E. unfold cell_at. destruct (Has _ k); [|apply zeroPage_ok]. destruct (_ =? 0); [apply zeroPage_ok|]. apply decrypted_page.
    assert (paged (s_file (h_store h))) as Hp by (apply paged_file, (rd_wf _ (sd_ready _ _ _ _ _ _ _ _ _ St))). apply Hp.
  - rewrite <-E. unfold cell_at. destruct (Has _ k); [|done]. by destruct (_ =? 0).
Qed.
Strategy 1000 [file_read].
(** Two stores with the same cell read the same. *)
Lemma same_cell h h' A A' k : shown c h A -> shown c h' A' -> a_size A' = a_size A -> 0 <= k < s_size (h_store h) / PageSize ->
  a_cells A' k = a_cells A k -> @df_kept _ (versioned_file c) h h' k.
Proof.
  intros Hh Hh' Hs Hk E. assert (s_size (h_store h') = s_size (h_store h)) as Es.
  { pose proof (shown_size _ _ _ Hh) as E1. pose proof (shown_size _ _ _ Hh') as E2. unfold h_size in *. congruence. }
  destruct (file_read_cell h A k Hh Hk) as (E1 & _ & P1). destruct (file_read_cell h' A' k Hh') as (E2 & _ & P2); [by rewrite Es|].
  split; cbn [versioned_file df_block df_present]; [by rewrite E1, E2, E|by rewrite P1, P2, E].
Qed.
Lemma quiet_cells e r A A' : quiet_call (e_call e) = true -> a_step e r A A' -> a_size A' = a_size A /\ a_cells A' = a_cells A.
Proof.
  unfold a_step. destruct e as [[] ? ? ?]; cbn [e_call quiet_call]; intros Hq; try discriminate Hq.
  1: destruct r; [by intros (A1 & x & y & u & (? & ? & _) & ->)|]. 2: intros (out & H & _); revert H.
  all: first [by intros (? & ? & _)|by intros ->].
Qed.
#[export] Instance versioned_laws : DiffFileLaws handle (H := versioned_file c).
Proof using Hc Hl Hb.
  assert (forall h h' A A', shown c h A -> shown c h' A' -> a_size A' = a_size A -> s_size (h_store h') = s_size (h_store h)) as Hsize.
  { intros h h' A A' E1%shown_size E2%shown_size E. unfold h_size in *. congruence. }
  split.
  - intros l h r h' [A Hh] Hb0 (fa & pin & Hp & Hf & Hw). pose proof (cp_writePages_spec c fa pin Hc Hp l h A Hh Hb0 Hf) as Hs.
    rewrite Hw in Hs. destruct Hs as (A' & Hh' & Hsz & Hk & Hr). pose proof (Hsize _ _ _ _ Hh Hh' Hsz) as Es.
    split; [by exists A'|]. split; [cbn [df_blocks versioned_file]; by rewrite Es|]. split.
    + intros b Hbd Hn. apply (same_cell h h' A A'); auto.
    + intros Hok x Hx. destruct Hb0 as (_ & _ & _ & Hv). rewrite Forall_forall in Hv. destruct (Hv x Hx) as [Hx1 _].
      destruct (file_read_cell h' A' (pw_block x) Hh') as (E1 & _ & E2); [by rewrite Es|]. cbn [df_block df_present versioned_file].
      rewrite E1, E2, (Hr Hok x Hx). unfold put_cell, written_bytes. by destruct (pw_zero x).
  - intros first last h r h' [A Hh] Hfl Hla (fa & pin & Hp & Hf & Hw). unfold cp_discard in Hw.
    pose proof (Discard_spec c fa pin (Ok tt) Hc Hp (first * PageSize) ((last - first + 1) * PageSize) h A Hh Hf) as Hs. rewrite Hw in Hs.
    destruct Hs as (mid & A' & Hm & Hh' & (Hsz & Hcl & _) & Hr). pose proof (Hsize _ _ _ _ Hh Hh' Hsz) as Es.
    replace (first * PageSize + (last - first + 1) * PageSize) with ((last + 1) * PageSize) in * by lia. rewrite !Z.div_mul in * by done.
    split; [by exists A'|]. split; [cbn [df_blocks versioned_file]; by rewrite Es|]. cbn [df_blocks versioned_file] in *. split.
    + intros b Hbd Hn. apply (same_cell h h' A A'); auto. rewrite Hcl. unfold zero_cells. destruct (Z.leb_spec first b), (Z.ltb_spec b mid); try done. lia.
    + intros Hok b Hbd. destruct (file_read_cell h' A' b Hh') as (E1 & _ & E2); [rewrite Es; lia|]. cbn [df_block df_present versioned_file].
      rewrite E1, E2, Hcl. unfold zero_cells. rewrite (Hr Hok), (proj2 (Z.leb_le first b)), (proj2 (Z.ltb_lt b (last + 1))) by lia. done.
  - intros h h' [A Hh] (e & Hq & Hf & ->). destruct (perform_spec c Hc e h A Hh Hf) as (A' & Hh' & Ha). destruct (quiet_cells _ _ _ _ Hq Ha) as [Hsz Hcl].
    pose proof (Hsize _ _ _ _ Hh Hh' Hsz) as Es. split; [by exists A'|]. split; [cbn [df_blocks versioned_file]; by rewrite Es|].
    intros b Hbd. apply (same_cell _ _ A A'); auto. by rewrite Hcl.
  - intros l h h' Hh ->. done.
  - intros h b [A Hh] Hbd. destruct (file_read_cell h A b Hh Hbd) as (E & Hpg & _). cbn [df_block versioned_file]. by rewrite E.
Qed.
End Instance.
