(* ===== verification/WriteBackClaims.v ===== *)
(** * WriteBackClaims: what the page cache promises.

    For every interleaving of the disks' users, the materializer, the owner of the
    files and the worker, over any file that keeps its promises: the users see plain
    disks, the cache stays within its quotas, a drained disk is in its file, the worker
    writes the oldest page it can, and a failure is final. *)
From stdpp Require Import base numbers list gmap strings.
From Stdlib Require Import ZArith Lia.
From S2P Require Import Prelude Page Presence Format WriteBack WriteBackInv WriteBackSteps WriteBackShape WriteBackSound WriteBackRun.

(** ** What no step changes *)

(** The quotas, and a failure that happened. *)
Definition settled (c c' : PageCache) : Prop :=
  ca_capacity c' = ca_capacity c /\ ca_maxDirty c' = ca_maxDirty c /\ forall e, ca_err c = Some e -> ca_err c' = Some e.
Lemma settled_refl c : settled c c.
Proof. done. Qed.
Lemma settled_trans c1 c2 c3 : settled c1 c2 -> settled c2 c3 -> settled c1 c3.
Proof. intros (A1 & B1 & C1) (A2 & B2 & C2). split; [congruence|]. split; [congruence|]. auto. Qed.
Lemma settled_control c c' : same_control c c' -> settled c c'.
Proof. intros (A & B & _ & _ & E). split; [done|]. split; [done|]. by rewrite E. Qed.
Lemma settled_fold {X} (f : PageCache -> X -> PageCache) : (forall c x, settled c (f c x)) -> forall l c, settled c (fold_left f l c).
Proof. intros Hf l. induction l as [|x l IH]; intros c; simpl; [done|]. eapply settled_trans; [apply Hf|apply IH]. Qed.
Create HintDb settled.
#[export] Hint Resolve settled_refl settled_trans settled_fold : settled.
Lemma settled_release k c : settled c (releaseLocked k c).
Proof. apply settled_control, release_control. Qed.
#[export] Hint Resolve settled_release : settled.
(** Branches of a definition that only rearrange pages. *)
Ltac settle := repeat case_match; simplify_eq; try done; eauto with settled.
Lemma settled_reserve k dirty c c' : reserveLocked k dirty c = Some c' -> settled c c'.
Proof.
  unfold reserveLocked. intros E. destruct (_ =? _); [destruct (ca_clean c) as [|k0 q]; [done|]|]; injection E as <-.
  - eapply settled_trans; [apply (settled_release k0)|]. by destruct dirty.
  - by destruct dirty.
Qed.
Lemma settled_acquire k c : settled c (acquire_at k c).
Proof. unfold acquire_at, acquireDataLocked. by settle. Qed.
Lemma settled_reserve_run n d : forall b c r c', reserve_run n d b c = (r, c') -> settled c c'.
Proof.
  induction n as [|n IH]; intros b c r c'; simpl; [by intros [= <- <-]|].
  destruct (ca_pages c !! (d, b)); [by intros [= <- <-]|]. destruct (reserveLocked (d, b) false c) as [c1|] eqn:E1.
  - destruct (reserve_run n d (b + 1) (acquire_at (d, b) c1)) as [r2 c2] eqn:E2. intros [= <- <-].
    eapply settled_trans; [by eapply settled_reserve|]. eapply settled_trans; [apply settled_acquire|by eapply IH].
  - destruct (reserve_run n d (b + 1) c) as [r2 c2] eqn:E2. intros [= <- <-]. by eapply IH.
Qed.
Lemma settled_publish ctx io keys c r c' : publish_run ctx io keys c = (r, c') -> settled c c'.
Proof.
  unfold publish_run. intros E. destruct io as [fill|e], (checkLocked ctx c); injection E as <- <-; apply settled_fold; intros; try apply settled_release.
  unfold publish_page. by settle.
Qed.
Lemma settled_admit ctx k off buf u c c' : write_admit ctx k off buf u c = AdmitDone c' \/ write_admit ctx k off buf u c = AdmitRetry c' \/
  write_admit ctx k off buf u c = AdmitInit c' -> settled c c'.
Proof.
  unfold write_admit, acquireDataLocked. intros H. destruct (checkLocked ctx c); [|by destruct H as [|[]]]. destruct (ca_pages c !! k) as [p|].
  - destruct (pg_state p); try (destruct (ca_dirtyUsed c =? ca_maxDirty c)); try (destruct (pg_zero p), (pg_data p), (last (ca_freeData c)));
      destruct H as [H|[H|H]]; by simplify_eq.
  - destruct (ca_dirtyUsed c =? ca_maxDirty c); [destruct H as [H|[H|H]]; by simplify_eq|].
    destruct (reserveLocked k true c) as [c1|] eqn:E; destruct H as [H|[H|H]]; try discriminate H; injection H as <-; [|done].
    eapply settled_trans; [by eapply settled_reserve|]. eapply settled_trans; [apply (settled_acquire k)|]. by case_match.
Qed.
Lemma settled_write_publish ctx k off buf i c r c' : write_publish ctx k off buf i c = (r, c') -> settled c c'.
Proof. unfold write_publish. destruct i, (checkLocked ctx c); try (intros [= <- <-]; apply settled_release). case_match; by intros [= <- <-]. Qed.
Lemma settled_zero_page a k p c : settled c (zero_page a k p c).
Proof. unfold zero_page, releaseDataLocked. by destruct (pg_data p), a. Qed.
Lemma settled_zero ctx k c c' : stageZero ctx k c = AdmitDone c' \/ stageZero ctx k c = AdmitRetry c' -> settled c c'.
Proof.
  assert (zero_blocked k.1 c = AdmitDone c' \/ zero_blocked k.1 c = AdmitRetry c' -> settled c c') as Hb.
  { unfold zero_blocked. intros H. case_match; destruct H as [H|H]; by simplify_eq. }
  unfold stageZero. intros H. destruct (checkLocked ctx c); [|by destruct H]. destruct (ca_pages c !! k) as [p|].
  - destruct (pg_state p); try (destruct (ca_dirtyUsed c =? ca_maxDirty c)); try (by apply Hb); destruct H as [H|H]; try discriminate H; injection H as <-; try done;
      try apply settled_zero_page. eapply settled_trans; [|apply settled_zero_page]. done.
  - destruct (_ || _); [by apply Hb|]. destruct (reserveLocked k true c) as [c1|] eqn:E; [apply settled_reserve in E|destruct H as [H|H]; by simplify_eq].
    destruct (ca_pages c1 !! k); destruct H as [H|H]; try discriminate H; injection H as <-; [|done]. eapply settled_trans; [done|apply settled_zero_page].
Qed.
Lemma settled_freeze k c : settled c (freeze_page k c).
Proof. unfold freeze_page. by settle. Qed.
Lemma settled_discard ctx d first last c keys c' : discard_freeze ctx d first last c = Frozen keys c' -> settled c c'.
Proof.
  unfold discard_freeze. intros E. destruct (checkLocked ctx c); [|done]. destruct (discard_pages _ _ _ _); [|done]. injection E as <- <-.
  apply settled_fold. intros c1 x. unfold freeze_discard. by settle.
Qed.
Lemma settled_failure e c : settled c (failLocked e c).
Proof. unfold failLocked. destruct (ca_err c) eqn:E; [done|]. split; [done|]. split; [done|]. intros. congruence. Qed.
Lemma settled_finish io keys c : settled c (discard_finish io keys c).
Proof.
  unfold discard_finish. eapply settled_trans; [|apply settled_fold; intros; apply settled_release]. destruct io; [done|apply settled_failure].
Qed.
Lemma settled_freeze_run n d zero : forall b c l c', freeze_run n d b zero c = (l, c') -> settled c c'.
Proof.
  induction n as [|n IH]; intros b c l c'; simpl; [by intros [= <- <-]|]. destruct (is_dirty zero c (d, b)); [|by intros [= <- <-]].
  destruct (freeze_run n d (b + 1) zero (freeze_page (d, b) c)) as [l2 c2] eqn:E. intros [= <- <-]. eapply settled_trans; [apply settled_freeze|by eapply IH].
Qed.
Lemma settled_candidates limit zero cands : forall batch c b' c', freeze_candidates limit zero cands batch c = (b', c') -> settled c c'.
Proof.
  induction cands as [|k cands IH]; intros batch c b' c'; simpl; [by intros [= <- <-]|]. destruct (_ =? _)%nat; [by intros [= <- <-]|].
  case_bool_decide; [|by apply IH]. destruct (freeze_run _ _ _ _ _) as [l c1] eqn:E. intros Hc. eapply settled_trans; [by eapply settled_freeze_run|by eapply IH].
Qed.
Lemma settled_select ok c d zero batch c' : select_batch ok c = Some (d, zero, batch, c') -> settled c c'.
Proof.
  unfold select_batch. destruct (_ || _); [done|]. simpl. destruct (oldestEligible ok (ca_dirty c)) as [[k rest]|]; [|done].
  destruct (ca_pages c !! k) as [p|]; [|done]. destruct (freeze_candidates _ _ _ _ _) as [b c1] eqn:E. apply settled_candidates in E.
  destruct b; [done|]. intros [= <- <- <- <-]. exact E.
Qed.
Lemma settled_complete batch c : settled c (completeWritebackLocked batch c).
Proof. apply settled_fold. intros c1 k. unfold complete_page. settle. Qed.
Lemma settled_step_end batch c : settled c (finish_batch batch c).
Proof. unfold finish_batch. simpl. destruct (ca_err c); [done|]. exact (settled_complete batch (set_active None c)). Qed.
Lemma settled_repair d c cohort c' : repair_freeze d c = (cohort, c') -> settled c c'.
Proof. unfold repair_freeze. intros [= <- <-]. apply settled_fold. intros. apply settled_freeze. Qed.
Lemma settled_detach d c : settled c (detach d c).
Proof. unfold detach. exact (settled_fold (fun c k => releaseLocked k c) (fun c k => settled_release k c) _ c). Qed.
Lemma step_settled {F} {DF : DiffFile F} base template versions (w w' : world) ev : step base template versions w ev w' -> settled (w_cache w) (w_cache w').
Proof.
  intros Hs. destruct Hs; simpl; try exact (settled_refl _);
    eauto using settled_reserve_run, settled_publish, settled_admit, settled_write_publish, settled_zero, settled_discard, settled_finish, settled_failure,
      settled_select, settled_complete, settled_step_end, settled_repair, settled_detach.
  - match goal with H : read_page _ _ _ = _ |- _ => revert H end. unfold read_page. repeat case_match; intros; by simplify_eq.
  - match goal with H : attach _ _ = _ |- _ => revert H end. unfold attach. repeat case_match; intros; by simplify_eq.
  - match goal with H : cache_Close _ = _ |- _ => revert H end. unfold cache_Close. repeat case_match; intros; by simplify_eq.
Qed.

(** ** Counting *)

(** The pages of [l] stop counting, the others stay. *)
Lemma count_fewer f l : forall m m', NoDup l -> (forall k, k ∉ l -> m' !! k = m !! k) ->
  (forall k, k ∈ l -> weight f k (m !! k) = 1 /\ weight f k (m' !! k) = 0) -> count f m' = count f m - Z.of_nat (length l).
Proof.
  induction l as [|k l IH]; intros m m' N Ho Hl; simpl.
  { assert (m' = m) as -> by (apply map_eq; intros k; apply Ho; set_solver). lia. }
  apply NoDup_cons in N as [Hk N]. destruct (Hl k ltac:(by left)) as [W1 W0].
  rewrite (IH (place k (m' !! k) m) m' N).
  - rewrite count_place, W1, W0. lia.
  - intros x Hx. rewrite place_lookup. case_decide as E; [by subst|]. apply Ho. set_solver.
  - intros x Hx. rewrite place_lookup, decide_False by (intros ->; done). apply Hl. by right.
Qed.
Lemma count_sub f g m : (forall k p, m !! k = Some p -> g k p = true -> f k p = true) -> count f m = 0 -> count g m = 0.
Proof.
  intros Hs H. apply count_zero. intros k p Hp. pose proof (proj1 (count_zero f m) H k p Hp) as Hf. destruct (g k p) eqn:E; [|done].
  by rewrite (Hs k p Hp E) in Hf.
Qed.

Section Claims.
Context {F : Type} {DF : DiffFile F} {laws : DiffFileLaws F} (base : Z -> Z -> list Z) (template : Z -> Z -> option (list Z)) (versions : Z -> bool).
Context (base_page : forall d b, is_page (base d b)) (template_page : forall d b x, template d b = Some x -> is_page x).
Notation step := (step base template versions).
Notation steps := (steps base template versions).
Notation sound := (sound base template).
Implicit Types (w : @world F) (A : contents) (evs : list event).

(** ** Runs *)

(** [c] is a new cache; the sizes are 64-bit numbers of bytes. *)
Definition new_cache (size dirty : Z) (c : PageCache) : Prop := 0 <= size < 2 ^ 64 /\ 0 <= dirty < 2 ^ 64 /\ newCache size dirty = Ok c.
Lemma newCache_limits size dirty c : new_cache size dirty c ->
  ca_capacity c * PageSize = size /\ ca_maxDirty c * PageSize = dirty /\ c = mkPageCache (size / PageSize) (dirty / PageSize) 0 ∅ [] ∅ [] [] false false None None.
Proof.
  intros (_ & _ & H). unfold newCache in H. destruct (_ || _) eqn:E; [done|]. injection H as <-. repeat (apply orb_false_iff in E as [E ?]).
  pose proof (Z.div_mod size PageSize ltac:(done)). pose proof (Z.div_mod dirty PageSize ltac:(done)). bool_prop. simpl. split_and!; [lia..|done].
Qed.
Lemma start_sound size dirty c A : new_cache size dirty c -> sound (start c) A.
Proof.
  intros H. pose proof H as (Hs & Hd & _). apply newCache_limits in H as (_ & _ & ->). split; [|done].
  split; simpl; try done; try set_solver. split; simpl; try done.
  - intros []; apply NoDup_nil_2.
  - intros [] k; simpl; by rewrite lookup_empty, elem_of_nil.
  - rewrite map_size_empty. simpl. apply Z.div_pos; [lia|done].
  - apply Z.div_pos; [lia|done].
Qed.
Lemma run_sound size dirty c evs w A0 : new_cache size dirty c -> steps (start c) evs w ->
  exists A, history A0 evs A /\ sound w A /\ settled c (w_cache w).
Proof.
  intros Hc Hs. remember (start c) as w0 eqn:E. induction Hs as [w|w l w1 ev w2 Hs IH Hst]; subst.
  - exists A0. split; [constructor|]. split; [by eapply start_sound|done].
  - destruct (IH eq_refl) as (A & Hh & Sd & Hse). destruct (step_sound base template versions base_page template_page w1 ev w2 A Sd Hst) as [H1 H2].
    exists (a_apply ev A). split; [by constructor|]. split; [done|]. eapply settled_trans; [done|by eapply step_settled].
Qed.

Lemma steps_app w l w1 l' w2 : steps w l w1 -> steps w1 l' w2 -> steps w (l ++ l') w2.
Proof.
  intros H1 H2. revert l H1. induction H2 as [|w1 l' w3 ev w4 H2 IH Hs]; intros l H1; [by rewrite app_nil_r|]. rewrite app_assoc. econstructor; [by apply IH|done].
Qed.

(** ** One round of the worker *)

Lemma select_some w A x rest : sound w A -> ca_err (w_cache w) = None -> ca_closed (w_cache w) = false ->
  oldestEligible (ready w) (ca_dirty (w_cache w)) = Some (x, rest) ->
  exists zero batch c1, select_batch (ready w) (w_cache w) = Some (x.1, zero, batch, set_active (Some x.1) c1) /\ x ∈ batch /\
    froze x.1 zero (owned w) (w_cache w) batch c1.
Proof.
  intros Sd He Hc Ho. pose proof (select_spec (owned w) (ready w) (w_cache w) (st_cache _ (so_static _ _ _ _ Sd))) as Q.
  destruct (select_batch (ready w) (w_cache w)) as [[[[d z] batch] c']|].
  - destruct Q as (_ & _ & _ & _ & (y & r' & Ey & <- & Hy) & c1 & Hf & ->). rewrite Ho in Ey. injection Ey as <- <-. by exists z, batch, c1.
  - exfalso. destruct Q as [?|[?|Hf]]; [done|congruence|]. pose proof (oldest_spec (ready w) (ca_dirty (w_cache w))) as Q. rewrite Ho in Q.
    destruct Q as (Hr & pre & Eq & _). rewrite Forall_forall in Hf. rewrite (Hf x) in Hr; [done|]. rewrite Eq. set_solver.
Qed.

(** The worker is between two batches of a cache that works. *)
Definition idle w : Prop := w_worker w = WorkerIdle /\ ca_err (w_cache w) = None /\ ca_closed (w_cache w) = false.
Lemma batch_done w A d batch : sound w A -> w_worker w = WorkerWritten d batch -> ca_err (w_cache w) = None ->
  same_control (set_active None (w_cache w)) (finish_batch batch (w_cache w)) /\
  forall x, ca_pages (finish_batch batch (w_cache w)) !! x =
    if bool_decide (x ∈ batch) then ca_pages (w_cache w) !! x ≫= completed else ca_pages (w_cache w) !! x.
Proof.
  intros Sd Hw He. unfold finish_batch. simpl. rewrite He. set (w' := set_worker WorkerIdle w).
  destruct (complete_spec batch (owned w') (set_active None (w_cache w))) as (_ & Hc & P); [|done].
  apply active_inv. generalize (st_cache _ (so_static _ _ _ _ Sd)). apply give_out. intros s. symmetry. apply (owned_worker w w' batch); try done. by rewrite Hw.
Qed.
Lemma writeback_round (accepts : F -> Prop) w A x rest k : sound w A -> idle w -> oldestEligible (ready w) (ca_dirty (w_cache w)) = Some (x, rest) ->
  w_disks w !! x.1 = Some k -> (forall l, batch_ok (df_blocks (dk_file k)) l -> exists f, df_write l (dk_file k) (Ok tt) f /\ accepts f) ->
  exists f w', steps w [Silent; Silent; Silent] w' /\ accepts f /\ sound w' A /\ idle w' /\ ca_dirtyUsed (w_cache w') < ca_dirtyUsed (w_cache w) /\
    w_writes w' = w_writes w /\ w_discards w' = w_discards w /\ w_disks w' = <[x.1 := with_file f k]> (w_disks w).
Proof.
  intros Sd (Hw & He & Hc) Ho Hk Hacc. destruct (select_some w A x rest Sd He Hc Ho) as (zero & batch & c1 & Hs & Hx & Hf).
  pose proof (step_select base template versions w _ _ _ _ Hw Hs) as St1. set (w1 := set_worker _ _) in St1.
  destruct (step_sound base template versions base_page template_page w _ w1 A Sd St1) as [_ Sd1].
  pose proof Hf as (_ & (_ & _ & Ecl & _ & Eer) & Hl & Hpg). assert (ca_err (w_cache w1) = None) as He1 by (simpl; congruence).
  destruct (worker_batch_ok base template versions base_page template_page w1 x.1 batch false k (so_static _ _ _ _ Sd1) eq_refl Hk) as [Hb _].
  destruct (Hacc _ Hb) as (f & Hio & Hf'). pose proof (step_batch_io base template versions w1 x.1 batch false k (Ok tt) f eq_refl He1 Hk Hio) as St2.
  set (w2 := set_worker _ _) in St2. destruct (step_sound base template versions base_page template_page w1 _ w2 A Sd1 St2) as [_ Sd2].
  pose proof (step_batch_end base template versions w2 x.1 batch eq_refl) as St3. simpl in Sd1, Sd2.
  destruct (batch_done w2 A x.1 batch Sd2 eq_refl He1) as [(_ & _ & Ecl3 & _ & Eer3) P]. set (w3 := set_worker _ _) in St3.
  destruct (step_sound base template versions base_page template_page w2 _ w3 A Sd2 St3) as [_ Sd3]. simpl in Sd3.
  exists f, w3. split; [exact (steps_snoc _ _ _ w [Silent; Silent] w2 Silent w3 (steps_snoc _ _ _ w [Silent] w1 Silent w2 (steps_snoc _ _ _ w [] w Silent w1 (steps_nil _ _ _ w) St1) St2) St3)|].
  split; [done|]. split; [done|]. split.
  { assert (w_cache w3 = finish_batch batch (w_cache w2)) as E3 by done. unfold idle. rewrite E3, Eer3, Ecl3. unfold w3. cbn [w_worker set_worker].
    change (w_cache w2) with (w_cache w1) in *. rewrite He1. split; [done|]. split; [done|]. simpl. congruence. }
  split; [|done].
  pose proof (st_cache _ (so_static _ _ _ _ Sd)) as I. rewrite (ci_used _ _ I), (ci_used _ _ (st_cache _ (so_static _ _ _ _ Sd3))).
  rewrite (count_fewer charged batch (ca_pages (w_cache w)) (ca_pages (w_cache w3))).
  - destruct batch; [set_solver|]. simpl. lia.
  - pose proof (worker_NoDup base template versions base_page template_page w1 (so_static _ _ _ _ Sd1)) as N. exact N.
  - intros y Hy. simpl. rewrite P, bool_decide_false by done. simpl. by rewrite Hpg, bool_decide_false.
  - intros y Hy. destruct (Hl y Hy) as (_ & p & Hp & Hsp & _). simpl. rewrite P, bool_decide_true by done. simpl. rewrite Hpg, bool_decide_true, Hp by done.
    destruct (ci_page _ _ I y p Hp) as [_ Hok]. rewrite Hsp in Hok. unfold weight, charged. rewrite (proj1 Hok). simpl. unfold completed. by destruct (pg_zero _).
Qed.

(** Nobody writes or discards, and every file can be written. *)
Definition quiescent (accepts : F -> Prop) w : Prop :=
  idle w /\ w_writes w = [] /\ w_discards w = [] /\ forall d k, w_disks w !! d = Some k -> dk_ready k = true /\ accepts (dk_file k).
Lemma dirty_eligible accepts w A : sound w A -> quiescent accepts w -> ca_dirtyUsed (w_cache w) <> 0 ->
  exists x rest k, oldestEligible (ready w) (ca_dirty (w_cache w)) = Some (x, rest) /\ w_disks w !! x.1 = Some k.
Proof.
  intros Sd ((Hw & _ & _) & Ew & Edc & Hd) Hn. pose proof (so_static _ _ _ _ Sd) as S. pose proof (st_cache _ S) as I.
  assert (forall x, x ∈ ca_dirty (w_cache w) -> exists k, w_disks w !! x.1 = Some k /\ ready w x.1 = true) as Hr.
  { intros x Hx. apply (ci_where _ _ I cacheDirty) in Hx. destruct (ca_pages (w_cache w) !! x) as [p|] eqn:Ep; [|done].
    destruct (st_page _ S x.1 x.2 p) as (k & Hk & _); [unfold page_at; by destruct x|]. exists k. split; [done|]. unfold ready. rewrite Hk. by apply (Hd x.1). }
  pose proof (oldest_spec (ready w) (ca_dirty (w_cache w))) as Q. destruct (oldestEligible _ _) as [[x rest]|].
  - destruct Q as (_ & pre & Eq & _). destruct (Hr x) as (k & Hk & _); [rewrite Eq; set_solver|]. by exists x, rest, k.
  - exfalso. apply Hn. rewrite (ci_used _ _ I). apply count_zero. intros x p Hp. unfold charged.
    pose proof (ci_page _ _ I x p Hp) as [_ Hok]. pose proof (proj2 (ci_where _ _ I (pg_state p) x)) as Ho. rewrite Hp in Ho. specialize (Ho eq_refl).
    destruct (pg_state p); simpl in Ho; rewrite ?Ew, ?Edc, ?Hw in Ho; try (by apply not_elem_of_nil in Ho); try by apply Hok.
    rewrite Forall_forall in Q. specialize (Q x Ho). destruct (Hr x Ho) as (k & _ & E). congruence.
Qed.
Lemma all_drained own c : cache_inv own c -> ca_err c = None -> ca_dirtyUsed c = 0 -> forall d, drained (Some d) c = Ok true.
Proof.
  intros I He H d. unfold drained. rewrite He, (ci_clients _ _ I). rewrite (count_sub charged); [done| |by rewrite <-(ci_used _ _ I)].
  intros k p _ [_ Hp]%andb_true_iff. exact Hp.
Qed.

(** A page that is being discarded is the page of a pending discard. *)
Lemma no_discarding w A d b p : sound w A -> (forall x, x ∈ w_discards w -> ~ in_discard d b x) -> ca_pages (w_cache w) !! (d, b) = Some p ->
  pg_state p <> cacheDiscarding.
Proof.
  intros Sd Hn Ep Es. pose proof (so_static _ _ _ _ Sd) as S. assert ((d, b) ∈ owners (owned w) (w_cache w) cacheDiscarding) as Ho.
  { apply (ci_where _ _ (st_cache _ S)). rewrite Ep. simpl. by rewrite Es. }
  simpl in Ho. apply elem_of_concat in Ho as (l & Hl & (x & -> & Hx)%list_elem_of_fmap). apply (Hn x Hx).
  destruct (st_discard _ S x Hx) as (k' & _ & _ & _ & Hin). exact (Hin _ Hl).
Qed.
(** What the cache, the file and the layers below hold together of a block. *)
Definition visible w (d : Z) (k : disk) (b : Z) : list Z :=
  if upper k b then
    match ca_pages (w_cache w) !! (d, b) with
    | Some p => match pg_state p with cacheClean | cacheDirty | cacheWriteback => page_bytes p | _ => df_block (dk_file k) b end
    | None => df_block (dk_file k) b
    end
  else lower base template k d b.
Lemma visible_sound w A d k b : sound w A -> w_disks w !! d = Some k -> has_block k b -> ca_err (w_cache w) = None ->
  (forall x, x ∈ w_discards w -> ~ in_discard d b x) -> A d b = visible w d k b.
Proof.
  intros Sd Hk Hb He Hn. pose proof (so_block _ _ _ _ Sd d k b Hk Hb) as B. unfold visible. destruct (upper k b) eqn:Eu; [|by apply B].
  pose proof (he_cell _ _ _ _ _ (bs_healthy _ _ _ _ _ _ _ B He) Hn) as Hc. unfold cell, page_at in Hc.
  destruct (ca_pages (w_cache w) !! (d, b)) as [p|] eqn:Ep; [|by apply Hc]. destruct (pg_state p) eqn:Es; try done; try (by apply Hc).
  - destruct Hc as [Hc ->]. by apply Hc.
  - by destruct (no_discarding w A d b p).
Qed.

(** A block of a disk without charged pages. *)
Lemma drained_block w A d k b : sound w A -> drained (Some d) (w_cache w) = Ok true -> w_disks w !! d = Some k -> has_block k b ->
  (forall x, x ∈ w_discards w -> ~ in_discard d b x) ->
  if upper k b then df_present (dk_file k) b = true /\ df_block (dk_file k) b = A d b else A d b = lower base template k d b.
Proof.
  intros Sd Hd Hk Hb Hn.
  pose proof (so_block _ _ _ _ Sd d k b Hk Hb) as B. destruct (upper k b) eqn:Eu; [|by apply B]. pose proof (st_cache _ (so_static _ _ _ _ Sd)) as I.
  unfold drained in Hd. destruct (ca_err (w_cache w)) eqn:He; [done|]. injection Hd as Hd%Z.eqb_eq. rewrite (ci_clients _ _ I) in Hd.
  pose proof (he_cell _ _ _ _ _ (bs_healthy _ _ _ _ _ _ _ B He) Hn) as Hcell. pose proof (visible_sound w A d k b Sd Hk Hb He Hn) as Hv.
  unfold cell, page_at in Hcell. unfold visible in Hv. rewrite Eu in Hv. destruct (ca_pages (w_cache w) !! (d, b)) as [p|] eqn:Ep; [|split; [by apply Hcell|by rewrite Hv]].
  pose proof (proj1 (count_zero _ _) Hd (d, b) p Ep) as Hch. unfold charged_of in Hch. simpl in Hch. rewrite Z.eqb_refl in Hch. simpl in Hch.
  pose proof (ci_page _ _ I _ _ Ep) as [_ Hok]. destruct (pg_state p) eqn:Es; try (by destruct Hok; congruence).
  - split; [by apply Hcell|by rewrite Hv].
  - destruct Hcell as [Hcell Hpb]. split; [by apply Hcell|by rewrite Hv].
  - by destruct (no_discarding w A d b p).
Qed.

(** ** The claims *)

(** C3 — Users of the disks see plain disks: whatever the interleaving of reads, writes,
    discards, loads, the copying of a template, checkpoints, the writeback of batches,
    space pressure and failures, every block a reader was shown is what a disk without
    a cache would hold after the writes and discards that were accepted before, and
    what it holds now is what the cache, the file and the layers below hold together. *)
Theorem disks_refine size dirty c evs w A0 : new_cache size dirty c -> steps (start c) evs w ->
  exists A, history A0 evs A /\
    (forall d k b, w_disks w !! d = Some k -> has_block k b -> upper k b = false -> A d b = lower base template k d b) /\
    (ca_err (w_cache w) = None -> forall d k b, w_disks w !! d = Some k -> has_block k b -> (forall x, x ∈ w_discards w -> ~ in_discard d b x) ->
      A d b = visible w d k b).
Proof.
  intros Hc Hs. destruct (run_sound size dirty c evs w A0 Hc Hs) as (A & Hh & Sd & _). exists A. split; [done|]. split.
  - intros d k b Hk Hb. apply (so_block _ _ _ _ Sd d k b Hk Hb).
  - intros He d k b Hk Hb Hn. by apply visible_sound.
Qed.
(** C12 — The cache stays within its sizes: at every point of every run the pages it
    holds fit in [cache_size] bytes and the dirty ones in [max_dirty_size] bytes, the
    counters of dirty pages are exact in total and for each disk, and every page is in
    exactly one place: on the list of its state, or with the one call or batch that
    works on it. *)
Theorem cache_bounded size dirty c evs w : new_cache size dirty c -> steps (start c) evs w ->
  let c' := w_cache w in
  Z.of_nat (base.size (ca_pages c')) * PageSize <= size /\ ca_dirtyUsed c' * PageSize <= dirty /\
  ca_dirtyUsed c' = count charged (ca_pages c') /\ (forall d, default 0 (ca_clients c' !! d) = count (charged_of d) (ca_pages c')) /\
  forall s, NoDup (owners (owned w) c' s) /\ forall k, k ∈ owners (owned w) c' s <-> pg_state <$> ca_pages c' !! k = Some s.
Proof.
  intros Hc Hs. destruct (run_sound size dirty c evs w (fun _ _ => []) Hc Hs) as (A & _ & Sd & (E1 & E2 & _)).
  destruct (newCache_limits _ _ _ Hc) as (L1 & L2 & _). destruct (st_cache _ (so_static _ _ _ _ Sd)) as [C1 C2 C3 C4 C5 C6 C7 C8]. cbn zeta.
  rewrite E1 in C6. rewrite E2 in C7. split; [unfold PageSize in *; nia|]. split; [unfold PageSize in *; nia|]. auto.
Qed.
(** C11 — A drained disk is in its file: when the wait of [drain] ends without a failure,
    every block outside a pending discard that was ever written is present in the file
    with exactly the contents its users rely on, and any other block still shows the
    layers below; so what is checkpointed, or found after a restart, is complete. *)
Theorem drained_stored size dirty c evs w A0 : new_cache size dirty c -> steps (start c) evs w ->
  exists A, history A0 evs A /\
    forall d k b, drained (Some d) (w_cache w) = Ok true -> w_disks w !! d = Some k -> has_block k b -> (forall x, x ∈ w_discards w -> ~ in_discard d b x) ->
      if upper k b then df_present (dk_file k) b = true /\ df_block (dk_file k) b = A d b else A d b = lower base template k d b.
Proof.
  intros Hc Hs. destruct (run_sound size dirty c evs w A0 Hc Hs) as (A & Hh & Sd & _). exists A. split; [done|]. intros d k b Hd Hk Hb Hn. exact (drained_block w A d k b Sd Hd Hk Hb Hn).
Qed.

(** An event a failed cache can still show: no write is accepted, no disk is attached,
    and a reader gets only blocks of the layers below. *)
Definition refused (ev : event) : Prop :=
  match ev with
  | Wrote _ _ _ | Attached _ _ => False
  | Observed d l => exists b, l = [(b, base d b)] \/ l = [(b, default (base d b) (template d b))]
  | _ => True
  end.
Lemma step_refused w ev w' e : ca_err (w_cache w) = Some e -> step w ev w' -> refused ev.
Proof.
  intros He Hs. assert (forall ctx, checkLocked ctx (w_cache w) = Err e) as Hck by (intros ctx; unfold checkLocked; by rewrite He).
  destruct Hs; simpl; try done.
  - match goal with H : read_page _ _ _ = _ |- _ => unfold read_page in H; by rewrite Hck in H end.
  - exists b. unfold lower. destruct (dk_material k); auto.
  - match goal with H : publish_run _ _ _ _ = _ |- _ => unfold publish_run in H; by rewrite Hck in H end.
  - match goal with H : write_admit _ _ _ _ _ _ = _ |- _ => unfold write_admit in H; by rewrite Hck in H end.
  - match goal with H : write_publish _ _ _ _ ?i _ = _ |- _ => unfold write_publish in H; rewrite Hck in H; by destruct i end.
  - by destruct (dc_template x).
  - match goal with H : attach _ _ = _ |- _ => unfold attach in H; by rewrite He in H end.
Qed.
End Claims.

(** ** A run *)

(** A file in memory that takes every request. *)
Record memory := mkMemory { me_blocks : Z; me_map : gmap Z (list Z) }.
Definition put_all (l : list (Z * list Z)) (m : gmap Z (list Z)) : gmap Z (list Z) := fold_left (fun m x => <[x.1 := x.2]> m) l m.
#[export] Instance memory_file : DiffFile memory := {
  df_ok s := forall b p, me_map s !! b = Some p -> is_page p;
  df_blocks := me_blocks;
  df_block s b := default zeroPage (me_map s !! b);
  df_present s b := bool_decide (is_Some (me_map s !! b));
  df_write l s r s' := r = Ok tt /\ s' = mkMemory (me_blocks s) (put_all ((fun x => (pw_block x, written_bytes x)) <$> l) (me_map s));
  df_discard first last s r s' := r = Ok tt /\ s' = mkMemory (me_blocks s) (put_all ((fun b => (b, zeroPage)) <$> range_of first last) (me_map s));
  df_pressure _ _ := false;
  df_quiet s s' := s' = s;
  df_cleanup _ s s' := s' = s }.
Lemma put_all_spec l : forall m b, NoDup (fst <$> l) ->
  (forall v, (b, v) ∈ l -> put_all l m !! b = Some v) /\ (b ∉ fst <$> l -> put_all l m !! b = m !! b).
Proof.
  unfold put_all. induction l as [|[b0 v0] l IH]; intros m b N; simpl; [split; [intros v Hv; by apply not_elem_of_nil in Hv|done]|].
  simpl in N. apply NoDup_cons in N as [Hb N]. destruct (IH (<[b0 := v0]> m) b N) as [IH1 IH2]. split.
  - intros v [[= -> ->]|Hv]%elem_of_cons; [|by apply IH1]. rewrite IH2 by done. apply lookup_insert_eq.
  - intros [Hne Hn]%not_elem_of_cons. rewrite IH2 by done. by apply lookup_insert_ne.
Qed.
Lemma put_all_pages l m : NoDup (fst <$> l) -> Forall (fun x => is_page x.2) l -> (forall b p, m !! b = Some p -> is_page p) ->
  forall b p, put_all l m !! b = Some p -> is_page p.
Proof.
  intros N Hl Hm b p Hp. destruct (put_all_spec l m b N) as [H1 H2]. destruct (decide (b ∈ fst <$> l)) as [([b' v] & -> & Hv)%list_elem_of_fmap|Hn].
  - simpl in Hp, H1. rewrite (H1 v Hv) in Hp. injection Hp as <-. rewrite Forall_forall in Hl. exact (Hl _ Hv).
  - rewrite (H2 Hn) in Hp. by apply (Hm b).
Qed.
#[export] Instance memory_laws : DiffFileLaws memory.
Proof.
  split; cbn [df_ok df_blocks df_block df_present df_write df_discard df_quiet df_cleanup memory_file].
  - intros l s r s' Hok (Hne & N & _ & Hv) [-> ->]. cbn [me_blocks me_map]. rewrite Forall_forall in Hv.
    assert (fst <$> ((fun x => (pw_block x, written_bytes x)) <$> l) = pw_block <$> l) as Eb by by rewrite <-list_fmap_compose. split; [|split; [done|]; split].
    + apply put_all_pages; [by rewrite Eb| |done]. apply Forall_fmap, Forall_forall. intros x Hx. simpl. destruct (Hv x Hx) as [_ Hp]. unfold written_bytes.
      destruct (pw_zero x); [apply zeroPage_ok|by apply Hp].
    + intros b _ Hb. unfold df_kept. simpl. destruct (put_all_spec ((fun x => (pw_block x, written_bytes x)) <$> l) (me_map s) b) as [_ H2]; [by rewrite Eb|].
      rewrite Eb in H2. by rewrite (H2 Hb).
    + intros _ x Hx. destruct (put_all_spec ((fun x => (pw_block x, written_bytes x)) <$> l) (me_map s) (pw_block x)) as [H1 _]; [by rewrite Eb|].
      rewrite (H1 (written_bytes x)); [done|]. by apply (list_elem_of_fmap_2 (fun x => (pw_block x, written_bytes x))).
  - intros first last s r s' Hok Hfl Hla [-> ->]. cbn [me_blocks me_map].
    assert (fst <$> ((fun b => (b, zeroPage)) <$> range_of first last) = range_of first last) as Eb by (rewrite <-list_fmap_compose; apply list_fmap_id).
    assert (NoDup (fst <$> ((fun b => (b, zeroPage)) <$> range_of first last))) as N by (rewrite Eb; apply range_NoDup). split; [|split; [done|]; split].
    + apply put_all_pages; [done| |done]. apply Forall_fmap, Forall_forall. intros x Hx. apply zeroPage_ok.
    + intros b _ Hb. unfold df_kept. simpl. destruct (put_all_spec _ (me_map s) b N) as [_ H2]. rewrite Eb, range_elem in H2. by rewrite (H2 Hb).
    + intros _ b Hb. destruct (put_all_spec _ (me_map s) b N) as [H1 _]. rewrite (H1 zeroPage); [done|].
      apply (list_elem_of_fmap_2 (fun b => (b, zeroPage))). by apply range_elem.
  - by intros s s' Hok ->.
  - by intros l s s' Hok ->.
  - intros s b Hok _. destruct (me_map s !! b) eqn:E; [by apply (Hok b)|apply zeroPage_ok].
Qed.

Definition demo_base (d b : Z) : list Z := zeroPage.
Definition demo_template (d b : Z) : option (list Z) := None.
Definition demo_versions (d : Z) : bool := true.
Lemma demo_base_page d b : is_page (demo_base d b).
Proof. apply zeroPage_ok. Qed.
Lemma demo_template_page d b x : demo_template d b = Some x -> is_page x.
Proof. done. Qed.
(** A cache of sixteen pages, a disk of four blocks, and a byte written to its third. *)
Definition demo_c0 : PageCache := mkPageCache 16 8 0 ∅ [] ∅ [] [] false false None None.
Definition demo_disk : @disk memory := mkDisk [0] (mkMemory 4 ∅) true None.
Definition demo_c1 : PageCache := set_clients (<[7 := 0]> ∅) demo_c0.
Definition demo_c2 : PageCache := match write_admit (Ok tt) (7, 2) 8195 [9] false demo_c1 with AdmitInit c => c | _ => demo_c1 end.
Definition demo_c3 : PageCache := (write_publish (Ok tt) (7, 2) 8195 [9] (Ok zeroPage) demo_c2).2.
Definition demo_pending : pending := mkPending (7, 2) 8195 [9] false None.
Definition demo_w1 : @world memory := set_disk 7 demo_disk (set_cache demo_c1 (start demo_c0)).
Definition demo_w2 : @world memory := set_writes [demo_pending] (set_cache demo_c2 demo_w1).
Definition demo_w3 : @world memory := set_writes [filled (Ok zeroPage) demo_pending] demo_w2.
Definition demo_w4 : @world memory := set_writes [] (set_disk 7 (with_bitmap (markDirty 2 [0]) demo_disk) (set_cache demo_c3 demo_w3)).
Definition demo_events : list event :=
  [Attached 7 (fun b => if upper demo_disk b then df_block (dk_file demo_disk) b else lower demo_base demo_template demo_disk 7 b); Silent; Silent; Wrote 7 8195 [9]].
Lemma demo_new : new_cache 65536 32768 demo_c0.
Proof. split; [lia|]. split; [lia|]. reflexivity. Qed.
Lemma demo_free {F} (w : @world F) d b : w_loads w = [] -> w_writes w = [] -> w_discards w = [] -> free_excl w d b.
Proof. intros E1 E2 E3. unfold free_excl, free_shared. rewrite E1, E2, E3. set_solver. Qed.
Lemma demo_page2 : exists p, ca_pages demo_c2 !! (7, 2) = Some p /\ pg_data p = Some zeroPage.
Proof. exists (constructing_page true). split; by vm_compute. Qed.
Lemma demo_steps : steps demo_base demo_template demo_versions (start demo_c0) demo_events demo_w4.
Proof.
  assert (step demo_base demo_template demo_versions (start demo_c0) (nth 0 demo_events Silent) demo_w1) as S1.
  { apply (step_attach demo_base demo_template demo_versions (start demo_c0) 7 demo_disk demo_c1); try done; [|by left].
    intros b [Hb1 Hb2]. unfold upper, demo_disk. simpl in *. assert (b = 0 \/ b = 1 \/ b = 2 \/ b = 3) as [->|[->|[->| ->]]] by lia; done. }
  assert (step demo_base demo_template demo_versions demo_w1 Silent demo_w2) as S2.
  { apply (step_write demo_base demo_template demo_versions demo_w1 7 2 8195 [9] demo_disk (Ok tt) demo_c2); try done; [|by apply demo_free].
    split; [done|]. split; [|done]. apply Forall_singleton. unfold is_byte. lia. }
  assert (step demo_base demo_template demo_versions demo_w2 Silent demo_w3) as S3.
  { destruct demo_page2 as (p & Hp & Hd).
    apply (step_write_io demo_base demo_template demo_versions demo_w2 [] demo_pending [] demo_disk p zeroPage (Ok zeroPage) (Ok zeroPage)); try done; by left. }
  assert (step demo_base demo_template demo_versions demo_w3 (Wrote 7 8195 [9]) demo_w4) as S4.
  { apply (step_write_ok demo_base demo_template demo_versions demo_w3 [] (filled (Ok zeroPage) demo_pending) [] (Ok tt) (Ok zeroPage) demo_disk demo_c3); done. }
  exact (steps_snoc _ _ _ _ _ _ _ _ (steps_snoc _ _ _ _ _ _ _ _ (steps_snoc _ _ _ _ _ _ _ _ (steps_snoc _ _ _ _ _ _ _ _ (steps_nil _ _ _ _) S1) S2) S3) S4).
Qed.
Definition demo_disk' : @disk memory := with_bitmap (markDirty 2 [0]) demo_disk.
Lemma demo_idle : quiescent (fun _ => True) demo_w4.
Proof.
  split; [by vm_compute|]. split; [done|]. split; [done|]. intros d k Hk. simpl in Hk. destruct (decide (d = 7)) as [->|Hne].
  - rewrite lookup_insert_eq in Hk. by injection Hk as <-.
  - by rewrite !lookup_insert_ne, lookup_empty in Hk.
Qed.
Lemma disks_refine_witness : exists A, history (fun _ _ => []) demo_events A /\ A 7 2 = Page.put 3 [9] zeroPage.
Proof.
  destruct (disks_refine demo_base demo_template demo_versions demo_base_page demo_template_page 65536 32768 demo_c0 demo_events demo_w4 (fun _ _ => [])
    demo_new demo_steps) as (A & Hh & _ & Hv).
  exists A. split; [exact Hh|]. rewrite (Hv ltac:(by vm_compute) 7 demo_disk' 2); [by vm_compute|done|done|]. intros x Hx. by apply not_elem_of_nil in Hx.
Defined.
Lemma cache_bounded_witness : ca_dirtyUsed demo_c3 = 1 /\ ca_dirtyUsed demo_c3 * PageSize <= 32768.
Proof.
  split; [by vm_compute|].
  exact (proj1 (proj2 (cache_bounded demo_base demo_template demo_versions demo_base_page demo_template_page 65536 32768 demo_c0 demo_events demo_w4 demo_new demo_steps))).
Defined.
(** The run goes on until the byte is in the file. *)
Lemma demo_stored : exists w k, steps demo_base demo_template demo_versions (start demo_c0) (demo_events ++ [Silent; Silent; Silent]) w /\
  (forall d, drained (Some d) (w_cache w) = Ok true) /\ w_disks w !! 7 = Some k /\ has_block k 2 /\ upper k 2 = true /\ w_discards w = [].
Proof.
  destruct (run_sound demo_base demo_template demo_versions demo_base_page demo_template_page 65536 32768 demo_c0 demo_events demo_w4 (fun _ _ => [])
    demo_new demo_steps) as (A & _ & Sd & _).
  destruct (writeback_round demo_base demo_template demo_versions demo_base_page demo_template_page (fun f => me_blocks f = 4) demo_w4 A (7, 2) [] demo_disk' Sd (proj1 demo_idle))
    as (f & w & Hs & Hf & Sd' & (_ & He & _) & Hlt & _ & Hdc & Hd); [by vm_compute|done|by intros l _; eexists; split; [done|]|].
  exists w, (with_file f demo_disk'). split; [by eapply steps_app, Hs; exact demo_steps|]. split; [|split; [by rewrite Hd, lookup_insert_eq|]; split; [|done]].
  - pose proof (st_cache _ (so_static _ _ _ _ Sd')) as I. apply (all_drained (owned w)); [done..|]. pose proof (count_pos charged (ca_pages (w_cache w))).
    rewrite <-(ci_used _ _ I) in *. assert (ca_dirtyUsed (w_cache demo_w4) = 1) by by vm_compute. lia.
  - unfold has_block. simpl. rewrite Hf. lia.
Qed.
Lemma drained_stored_witness : exists w k A, w_disks w !! 7 = Some k /\ history (fun _ _ => []) (demo_events ++ [Silent; Silent; Silent]) A /\
  df_present (dk_file k) 2 = true /\ df_block (dk_file k) 2 = A 7 2.
Proof.
  destruct demo_stored as (w & k & Hs & Hd & Hk & Hb & Hu & Hdc).
  destruct (drained_stored demo_base demo_template demo_versions demo_base_page demo_template_page 65536 32768 demo_c0 _ w (fun _ _ => []) demo_new Hs) as (A & Hh & H).
  specialize (H 7 k 2 (Hd 7) Hk Hb). rewrite Hu, Hdc in H. exists w, k, A. split; [exact Hk|]. split; [exact Hh|]. apply H. intros x Hx. by apply not_elem_of_nil in Hx.
Defined.
