(* ===== verification/WriteBackDisk.v ===== *)
(** * WriteBackDisk: checkpoints of a disk behind the cache.

    [Disk.Checkpoint] of pkg/diffstore/checkpoint_diff.go over the versioned DIFF: what
    the users of the disk rely on, across the cache, the layers below and the writeback
    of batches, is what the new version of the store holds. *)
From stdpp Require Import base numbers list gmap strings.
From Stdlib Require Import ZArith Lia.
From S2P Require Import Prelude Page Presence Json Format Tree Tx Demo TreeWrite Retire TreeRemove Sha256 Commit Crash Publish Bitmap Checkpoint GcDemo Gc Accounts Ops View Batch Model Versions Device Reading Lifecycle History Promises WriteBack WriteBackInv WriteBackSteps WriteBackShape WriteBackSound WriteBackRun WriteBackDiff WriteBackClaims.

#[local] Opaque Sum256 sealPage checkPage Page.put.

(** [Disk.Checkpoint], with the operations of the disk held off; [None] when it waits,
    for the template or for the cache to be drained. [life] is the error of the disk's
    own context. *)
Definition Disk_Checkpoint (c : option xts_cipher) (fallocate : file -> Z -> Z -> dres unit) (pin : Z -> dres unit) (ctx life : dres unit) (id : list Z)
    (cache : PageCache) (d : Z) (k : @disk handle) : option (dres unit * handle) :=
  let h := dk_file k in
  match id with
  | [] => Some (Err (DiffErr "diffstore: empty checkpoint ID"), h)
  | _ =>
      if negb (dk_ready k) then None
      else match ca_err cache, (Ops.healthy (Ok tt) h).1, life with
           | Some e, _, _ | None, Err e, _ | None, Ok _, Err e => Some (Err e, h)
           | None, Ok _, Ok _ =>
               match drained (Some d) cache, dk_material k with
               | Err e, _ => Some (Err e, h)
               | Ok true, None => Some (CheckpointOp c fallocate pin ctx id h)
               | _, _ => None
               end
           end
  end.

Section Disk.
Context (c : option xts_cipher) (Hc : cipher_ok c) (Hl : cipher_length c) (Hb : cipher_bytes c).
Context (base : Z -> Z -> list Z) (template : Z -> Z -> option (list Z)) (versions : Z -> bool).
Context (base_page : forall d b, is_page (base d b)) (template_page : forall d b x, template d b = Some x -> is_page x).

Lemma Disk_Checkpoint_ok fallocate pin ctx life id cache d k h' : Disk_Checkpoint c fallocate pin ctx life id cache d k = Some (Ok tt, h') ->
  drained (Some d) cache = Ok true /\ dk_material k = None /\ CheckpointOp c fallocate pin ctx id (dk_file k) = (Ok tt, h').
Proof.
  unfold Disk_Checkpoint. destruct id; [done|]. destruct (negb _); [done|]. destruct (ca_err cache), ((Ops.healthy (Ok tt) (dk_file k)).1), life; try done.
  destruct (drained _ _) as [[]|], (dk_material k); try done. by intros [= ->].
Qed.
Lemma Disk_Checkpoint_now fallocate pin id cache d k : id <> [] -> dk_ready k = true -> dk_material k = None -> ca_err cache = None ->
  drained (Some d) cache = Ok true -> usable (dk_file k) ->
  Disk_Checkpoint c fallocate pin (Ok tt) (Ok tt) id cache d k = Some (CheckpointOp c fallocate pin (Ok tt) id (dk_file k)).
Proof. intros Hi Hr Hm He Hd Hu. unfold Disk_Checkpoint. rewrite Hr, Hm, He, Hd, (usable_healthy _ Hu). by destruct id. Qed.
(** The new version of a store that was checkpointed. *)
Lemma checkpoint_version fallocate pin ctx id h A h' : shown c h A -> pinnable pin -> bytes_ok id -> version_room (h_store h) ->
  CheckpointOp c fallocate pin ctx id h = (Ok tt, h') ->
  exists A' v, shown c h' A' /\ v ∈ a_versions A' /\ v_id v = id /\ v_visible v = true /\ v_cells v = a_cells A.
Proof.
  intros Hsh Hp Hid Hroom Hop. pose proof (CheckpointOp_spec c fallocate pin ctx Hc Hp id h A Hsh Hid Hroom) as Hspec. rewrite Hop in Hspec.
  destruct Hspec as (A' & Hsh' & A1 & x & r & u & (_ & Hcl & _) & ->). eexists _, (mkVersion id true x r u (a_cells A1)). split; [exact Hsh'|].
  split; [|done]. cbn [a_versions]. apply elem_of_app. right. by left.
Qed.

End Disk.

(** ** A run over a new DIFF *)

Definition disk_file : DiffFile handle := versioned_file None.
Definition disk_demo : @disk handle := mkDisk [0] new_handle true None.
Definition disk_demo' : @disk handle := with_bitmap (markDirty 2 [0]) disk_demo.
Definition disk_batch : list cacheKey := [(7, 2)].
Definition disk_c4 : PageCache := match select_batch (fun _ => true) demo_c3 with Some (_, _, _, c) => c | None => demo_c3 end.
Definition disk_stored : dres unit * handle := cp_writePages None always unread (record_of disk_c4 <$> disk_batch) new_handle.
Definition disk_w1 : @world handle := set_disk 7 disk_demo (set_cache demo_c1 (start demo_c0)).
Definition disk_w2 : @world handle := set_writes [demo_pending] (set_cache demo_c2 disk_w1).
Definition disk_w3 : @world handle := set_writes [filled (Ok zeroPage) demo_pending] disk_w2.
Definition disk_w4 : @world handle := set_writes [] (set_disk 7 disk_demo' (set_cache demo_c3 disk_w3)).
Definition disk_w5 : @world handle := set_worker (WorkerWrite 7 disk_batch false) (set_cache disk_c4 disk_w4).
Definition disk_w6 : @world handle := set_worker (WorkerWritten 7 disk_batch) (set_disk 7 (with_file disk_stored.2 disk_demo') disk_w5).
Definition disk_w7 : @world handle := set_worker WorkerIdle (set_cache (finish_batch disk_batch disk_c4) disk_w6).
Definition disk_saved : dres unit * handle := CheckpointOp None always unread (Ok tt) (str "base") disk_stored.2.
Lemma disk_stored_spec : disk_stored.1 = Ok tt /\ version_room (h_store disk_stored.2) /\ usable disk_stored.2 /\ disk_saved.1 = Ok tt /\
  0 <= 2 < s_size (h_store disk_stored.2) / PageSize.
Proof.
  assert (let (r, h) := disk_stored in (r, room_for_version (h_store h), h_closed h, h_fatal h, Retired (h_ctrl h), h_metadataOnly h,
      (CheckpointOp None always unread (Ok tt) (str "base") h).1, 2 <? s_size (h_store h) / PageSize) = (Ok tt, true, false, None, false, false, Ok tt, true)) as H
    by (vm_cast_no_check (eq_refl (@Ok diff_error unit tt, true, false, @None diff_error, false, false, @Ok diff_error unit tt, true))).
  unfold disk_saved. revert H. generalize disk_stored. intros [r h]. cbn [snd]. destruct (CheckpointOp _ _ _ _ _ h) as [r2 h2]. cbn [fst snd].
  intros [= -> Hv ? ? ? ? -> ?%Z.ltb_lt]. apply andb_true_iff in Hv as [?%Z.leb_le ?%Z.ltb_lt]. by repeat split.
Qed.
Definition disk_events : list event :=
  [Attached 7 (fun b => if upper disk_demo b then df_block (DiffFile := disk_file) (dk_file disk_demo) b else lower demo_base demo_template disk_demo 7 b);
   Silent; Silent; Wrote 7 8195 [9]; Silent; Silent; Silent].
Notation dstep := (step (H := disk_file) demo_base demo_template demo_versions).
Lemma disk_blank b : 0 <= b < df_blocks (DiffFile := disk_file) new_handle -> upper disk_demo b = df_present (DiffFile := disk_file) new_handle b.
Proof.
  intros Hb. destruct (file_read_cell None I I I new_handle (blank demo_size) b (proj1 (new_shown None)) Hb) as (_ & _ & E).
  cbn [df_present disk_file versioned_file]. rewrite E. change (df_blocks new_handle) with (s_size (h_store new_handle) / PageSize) in Hb.
  rewrite (new_size : s_size _ = _) in Hb. unfold upper, blockDirty, disk_demo. cbn [dk_bitmap]. cbn. change (demo_size / PageSize) with 16 in Hb.
  rewrite Z.div_small by lia. by rewrite Z.bits_0.
Qed.
Lemma disk_step1 : dstep (start demo_c0) (nth 0 disk_events Silent) disk_w1.
Proof.
  apply (step_attach (H := disk_file) demo_base demo_template demo_versions (start demo_c0) 7 disk_demo demo_c1).
  - done.
  - done.
  - exists (blank demo_size). apply new_shown.
  - cbn [disk_demo dk_file dk_bitmap length df_blocks disk_file versioned_file]. rewrite (new_size : s_size _ = _). by vm_compute.
  - exact disk_blank.
  - by left.
Qed.
Lemma disk_has : 0 <= 2 < s_size (h_store new_handle) / PageSize.
Proof. rewrite (new_size : s_size _ = _). by vm_compute. Qed.
Lemma disk_step2 : dstep disk_w1 Silent disk_w2.
Proof.
  apply (step_write (H := disk_file) demo_base demo_template demo_versions disk_w1 7 2 8195 [9] disk_demo (Ok tt) demo_c2); [done|exact disk_has| |by apply demo_free|done].
  split; [done|]. split; [|done]. apply Forall_singleton. unfold is_byte. lia.
Qed.
Lemma disk_step3 : dstep disk_w2 Silent disk_w3.
Proof.
  destruct demo_page2 as (p & Hp & Hd).
  apply (step_write_io (H := disk_file) demo_base demo_template demo_versions disk_w2 [] demo_pending [] disk_demo p zeroPage (Ok (file_read None new_handle 2)) (Ok zeroPage));
    try done; by left.
Qed.
Lemma disk_step4 : dstep disk_w3 (Wrote 7 8195 [9]) disk_w4.
Proof. by apply (step_write_ok (H := disk_file) demo_base demo_template demo_versions disk_w3 [] (filled (Ok zeroPage) demo_pending) [] (Ok tt) (Ok zeroPage) disk_demo demo_c3). Qed.
Lemma disk_step5 : dstep disk_w4 Silent disk_w5.
Proof.
  apply (step_select (H := disk_file) demo_base demo_template demo_versions disk_w4 7 false disk_batch disk_c4); [done|].
  assert (ready disk_w4 7 = true) as Hr by (unfold ready, disk_w4; cbn [w_disks set_writes set_disk]; by rewrite lookup_insert_eq).
  change (w_cache disk_w4) with demo_c3. generalize dependent (ready disk_w4). intros rd Hr.
  assert (oldestEligible rd [(7, 2)] = Some ((7, 2), [])) as Ho by (simpl; by rewrite Hr).
  assert (select_batch rd demo_c3 = select_batch (fun _ => true) demo_c3) as ->; [|by vm_compute]. unfold select_batch.
  change (ca_dirty (set_urgent false demo_c3)) with [(7, 2)]. by rewrite Ho.
Qed.
Lemma disk_fits : write_fits None always unread (record_of disk_c4 <$> disk_batch) new_handle.
Proof.
  destruct (new_shown None) as (Hs & Hctrl & _). split.
  - unfold zero_cost. rewrite Hctrl, (new_size : s_size _ = _). by vm_compute.
  - intros h1 Hm. destruct (keeps_MarkModified None always unread (Ok tt) I unread_ok new_handle _ Hs) as (A1 & _ & _ & Hy). rewrite Hm in Hy. cbn [snd] in Hy.
    change (length (record_of disk_c4 <$> disk_batch)) with 1%nat. cbn [batches_room disk_batch fmap list_fmap]. split; [|by destruct (write_batch _ _ _ _ _ _ _) as [[] ?]].
    apply (room_steady _ _ Hy), new_room.
Qed.
Lemma disk_step6 : dstep disk_w5 Silent disk_w6.
Proof.
  refine (step_batch_io (H := disk_file) demo_base demo_template demo_versions disk_w5 7 disk_batch false disk_demo' (Ok tt) disk_stored.2 eq_refl eq_refl _ _).
  - unfold disk_w5, disk_w4. cbn [w_disks set_worker set_cache set_writes set_disk]. apply lookup_insert_eq.
  - exists always, unread. split; [exact unread_ok|]. split; [exact disk_fits|]. rewrite <-(proj1 disk_stored_spec). apply surjective_pairing.
Qed.
Lemma disk_step7 : dstep disk_w6 Silent disk_w7.
Proof. exact (step_batch_end (H := disk_file) demo_base demo_template demo_versions disk_w6 7 disk_batch eq_refl). Qed.
Lemma disk_steps : steps (H := disk_file) demo_base demo_template demo_versions (start demo_c0) disk_events disk_w7.
Proof.
  exact (steps_snoc _ _ _ _ _ _ _ _ (steps_snoc _ _ _ _ _ _ _ _ (steps_snoc _ _ _ _ _ _ _ _ (steps_snoc _ _ _ _ _ _ _ _ (steps_snoc _ _ _ _ _ _ _ _
    (steps_snoc _ _ _ _ _ _ _ _ (steps_snoc _ _ _ _ _ _ _ _ (steps_nil _ _ _ _) disk_step1) disk_step2) disk_step3) disk_step4) disk_step5) disk_step6) disk_step7).
Qed.
Lemma disk_drained : ca_err (finish_batch disk_batch disk_c4) = None /\ drained (Some 7) (finish_batch disk_batch disk_c4) = Ok true.
Proof. by vm_compute. Qed.
Lemma disk_checkpointed : Disk_Checkpoint None always unread (Ok tt) (Ok tt) (str "base") (w_cache disk_w7) 7 (with_file disk_stored.2 disk_demo') = Some (Ok tt, disk_saved.2).
Proof.
  change (w_cache disk_w7) with (finish_batch disk_batch disk_c4). destruct disk_stored_spec as (_ & _ & Hu & Hs & _), disk_drained as [He Hd].
  assert (CheckpointOp None always unread (Ok tt) (str "base") disk_stored.2 = (Ok tt, disk_saved.2)) as Hop.
  { fold disk_saved. revert Hs. generalize disk_saved. intros [r h]. cbn [fst snd]. by intros ->. }
  rewrite <-Hop. revert Hu. generalize disk_stored.2. intros h Hu. by apply (Disk_Checkpoint_now None always unread (str "base") _ 7 (with_file h disk_demo')).
Qed.
